(* ===== verification/_CoqProject ===== *)
-Q . S2P
Prelude.v
Order.v
Float.v
Pause.v
Bytes.v
Text.v
Fmt.v
UdpWire.v
PacketTracker.v
Budget.v
Ip.v
RateLimit.v
Acl.v
Auth.v
ControlCrypto.v
Probe.v
Protocol.v
Stats.v
UdpStream.v
Reporting.v
ClientUdp.v
Client.v
Handshake.v
Session.v
QuicSession.v
Settings.v
App.v
Target.v
IpText.v
Diff.v
Persistence.v
Config.v
Cli.v
ClientLoop.v
TcpStream.v
Quic.v
QuicLoop.v
Report.v
Spawn.v
PushGateway.v
Prometheus.v
Scripted.v
TuiLoop.v
Discover.v
Update.v
Serve.v
ServeRun.v
Launch.v
Footer.v
Status.v
ServerScreen.v
Screen.v
Sockets.v
ServerTest.v
UdpSpawn.v
