(* ===== verification/Prelude.v ===== *)
(** * xfr: a verification development

    xfr measures the throughput of a network path.  A client opens a control
    connection to a server, the two agree on a test, data streams over TCP,
    UDP or QUIC carry the load, the server reports intervals on the control
    connection while it runs, and both end with one result.  This library
    models the crate under src/src/ and proves what each part promises.

    ** The parts and how they meet

    The start.  [Launch] (main.rs main) merges the command line, its values
    read by [Cli] (main.rs), and the configuration file ([Config], config.rs and prefs.rs)
    into the configuration of a client or of a server; [Update] (update.rs)
    looks for a newer release.  [Sockets] (net.rs, serve.rs run_until,
    quic.rs create_server_endpoint) opens and configures every socket and
    starts the server.

    The control path.  [Serve] (serve.rs) is the front door: accept loops,
    access lists ([Acl], acl.rs), per-address limit ([RateLimit],
    rate_limit.rs), the first line of a connection and where it is routed, the
    dispatcher of single-port UDP hellos.  [Handshake] (client.rs run_test,
    serve.rs handle_client_with_first_message, handle_test_request) holds both
    sides of the negotiation as functions of the bytes they read, with the
    pre-shared-key exchange of [Auth] (auth.rs), the messages of [Protocol]
    (protocol.rs) and the sealed transport of [ControlCrypto]
    (control_crypto.rs); [Session] runs the two against each other.
    [QuicSession] (quic.rs, serve.rs handle_quic_client, client.rs
    run_quic_session) is the same negotiation bound to a QUIC connection.
    [ServerTest] (serve.rs run_test, run_quic_test and the handlers they spawn)
    is an accepted test from its sockets to its end, [ServeRun] its place among
    the others; [Reporting] (serve/reporting.rs) is its reporting
    loop; [Client], [ClientLoop] and [QuicLoop] (client.rs) are the client's
    configuration and its control loops up to the result, over TCP and QUIC.

    The data path.  [Spawn] (client.rs spawn_tcp_streams,
    run_mtu_probe_exchange) and [UdpSpawn] (client.rs spawn_udp_streams,
    run_udp_stream_io) start the client's stream tasks.  [TcpStream] (tcp.rs,
    zerocopy.rs), [UdpStream] (udp.rs) and [Quic] (quic.rs) are the send and
    receive loops and the tee of the shared QUIC socket; they draw on the
    shared byte budget ([Budget], budget.rs) and the cancel and pause channels
    ([Pause], pause.rs).  [UdpWire] (udp.rs) has the packet formats,
    [PacketTracker] (udp.rs) the loss accounting, [Stats] (stats.rs) the
    counters and interval snapshots, [ClientUdp] (client.rs) the client's own
    UDP measurements, and [Probe] (probe.rs) the path-MTU search with its
    responder.

    What is shown and kept.  [Report] (output/) formats results as text, JSON
    and CSV, [Scripted] (main.rs run_client_plain) is the client without a
    terminal application, [Diff] (diff.rs) compares two results, [Persistence]
    (persistence.rs) saves atomically, [PushGateway] (output/push_gateway.rs)
    and [Prometheus] (output/prometheus.rs) export metrics.  [Settings], [App]
    and [TuiLoop] (tui/settings.rs, tui/app.rs, main.rs run_tui_loop) are the
    terminal application, [Screen] (tui/ui.rs, tui/widgets.rs) the frames it
    shows and when it draws them, [Footer] (tui/ui.rs) its key hints and help,
    [ServerScreen] (tui/server.rs, main.rs run_server_tui) the server's
    dashboard, [Status] (tui/program_status.rs) what the terminal itself is
    told.  [Discover] (discover.rs) finds servers and names this one.

    Underneath.  [Ip], [Target] and [IpText] (net.rs, the standard library's
    addresses) are addresses and their text.  This file has integers at their
    width ([wrap], [saturating_add], ...), results, list lemmas and tactics;
    [Order] lexicographic orders, [Bytes] byte buffers, [Text] the string
    operations of the standard library, [Float] IEEE doubles ([spec_float] at
    binary64), [Fmt] the printing and reading of numbers.

    ** How code becomes definitions

    Structs are records, enums inductive types with the source's constructors,
    an integer is a [Z] whose wrap-around is written where the code can
    overflow, a string its characters ([Text]) or, in [Auth], its UTF-8 bytes.
    Fallible code returns [result].  A loop that waits in a [select!] is a
    step function over what it observed: which arm fired, the clock, what the
    system call returned; theorems quantify over all sequences of such
    observations.  Tasks that share state interleave as sequences of events
    ([Budget], [RateLimit], [Serve], [ServeRun], [ServerTest], [Spawn], [UdpSpawn]).  Code that opens
    sockets is a program over a kernel that may refuse any call ([Sockets]).
    Third-party code is a parameter: HMAC, HKDF, the AEAD with its documented
    law as a class ([ControlCrypto.AeadLaws]), serde_json, the IP-network
    parser, TOML, the calendar, URLs, base64, mDNS, the hash of a frame; each
    theorem that assumes something of one has a witness with a concrete
    instance.

    ** What the theorems show

    - Security: the client and the server never leave the protected channel
      once a key is configured ([Handshake]), an honest pair always completes
      ([Session]), frames are neither lost, replayed nor read out of order
      ([ControlCrypto]), a relay between two QUIC connections gains nothing
      unless a primitive breaks on the values of the run ([QuicSession]), the front door admits only permitted addresses within
      its limits and a UDP hello cannot be hijacked ([Serve]), a launched
      server listens and limits as it was told ([Launch]).
    - Resources: a socket is configured as its users rely on or leaves nothing
      behind, and the server offers single-port UDP only where it was seen to
      work ([Sockets]); stream tasks release what they hold on every path
      ([Spawn]), a test leaves nothing behind on the server ([ServerTest]).
    - Accounting: every byte of every stream is counted once, from the write
      of a data loop ([TcpStream], [UdpStream], [Quic], [Budget]) over interval
      snapshots ([Stats]) and coalesced reports ([Reporting]) to the result
      ([ServeRun], [ClientUdp], [ClientLoop]) and its rows ([Scripted]); a loss
      is a loss ([PacketTracker] refines a set of sequence numbers).
    - Time: pauses are excluded exactly, by the server's active clock
      ([Reporting]), the client's clocks ([ClientLoop], which [QuicLoop]
      agrees with) and the display ([App]); waits are bounded ([TcpStream],
      [ClientLoop], [Pause]), the end of a byte budget is signalled, neither
      early nor never ([ServerTest]), also by the client's UDP streams ([UdpSpawn]), and so is leaving
      the terminal application ([TuiLoop]).
    - Measurement: the MTU probe is sound against any network and exact
      against a path with size limits ([Probe]); under a pre-shared key it is
      lost ([Spawn.probe_lost_under_psk]).
    - Interfaces: round trips of wire formats and text ([UdpWire], [Target],
      [Discover]), of the gateway's grouping key over what the url crate does
      with it ([PushGateway]); the type
      invariant of the terminal application and what a restart resets ([App]),
      the dashboard ([ServerScreen]), the frames the client may skip
      ([Screen]), the state the
      terminal shows ([Status]), the series retained ([Prometheus]), what a
      search lists ([Discover]), saves that are atomic unless permission is
      denied ([Persistence]), the regression verdict ([Diff]).

    ** Fuel and bounds

    Recursion that is not structural takes fuel: 21 sizes for the probe
    ([Probe.search_converges]: the ladder and the bisection of 65507 need no
    more), one step per event and unseen send for the pause wait
    ([Pause.wait_never_spins]), the binary logarithm plus one for printing an
    integer ([Fmt]), eight groups for an IPv6 literal ([Target]), forty links
    for a symbolic link chain ([Persistence], the limit of the kernel).
    Loops over observations recurse on the list of observations.

    ** Not modelled

    The layout engine and the widgets of ratatui, and colours beyond their
    meaning: [Screen] and [ServerScreen] stop at the text and the cells handed
    to them.  The layout of TCP_INFO and the unsafe calls around it.  The TLS and QUIC
    endpoints themselves (quinn, rustls), mDNS and HTTP clients and servers,
    the writers of tracing.  clap's declarations and shell completions.
    Functions for other systems than Linux.  Time limits around handshake
    reads are not events of [Handshake], and its writes do not fail (the code
    leaves the handshake with an error at the first that does).  [Quic] has
    the slots of a batch as the code reads them: one into which the kernel put
    several datagrams of one size goes where its first bytes say.  The
    exporter's live update outside a test's end, which the program never
    calls, is left out ([Prometheus]).  A frame of the client reads the clock
    twice in the code and once in [Screen].  The library root re-exports modules;
    benches, tests and packaging are not part of the program. *)
From Stdlib Require Export ZArith Lia.
From stdpp Require Export prelude gmap strings list.

#[export] Set Default Goal Selector "!".

Declare Scope xfr_scope.
Delimit Scope xfr_scope with xfr.
#[global] Open Scope Z_scope.

(** ** Machine integers

    An unsigned integer of the program is a [Z] kept in [0, 2^w).  [+] and
    [-] of a release build wrap; the saturating and checked variants are the
    standard library's. *)

Definition u8_max : Z := 2 ^ 8 - 1.
Definition u16_max : Z := 2 ^ 16 - 1.
Definition u32_max : Z := 2 ^ 32 - 1.
Definition u64_max : Z := 2 ^ 64 - 1.
Definition u128_max : Z := 2 ^ 128 - 1.
(** [usize] on the 64-bit targets the program ships for. *)
Definition usize_max : Z := u64_max.

(** [z] is representable in [w] unsigned bits. *)
Definition fits (w z : Z) : Prop := 0 <= z < 2 ^ w.
#[global] Instance fits_dec w z : Decision (fits w z).
Proof. unfold fits. apply _. Defined.

Definition wrap (w z : Z) : Z := z mod 2 ^ w.
Definition wrapping_add (w a b : Z) : Z := wrap w (a + b).
Definition wrapping_sub (w a b : Z) : Z := wrap w (a - b).

Definition saturating_add (w a b : Z) : Z := Z.min (a + b) (2 ^ w - 1).
Definition saturating_mul (w a b : Z) : Z := Z.min (a * b) (2 ^ w - 1).
Definition saturating_sub (a b : Z) : Z := Z.max 0 (a - b).
Definition abs_diff (a b : Z) : Z := Z.abs (a - b).

Definition checked_add (w a b : Z) : option Z :=
  if a + b <? 2 ^ w then Some (a + b) else None.
Definition checked_mul (w a b : Z) : option Z :=
  if a * b <? 2 ^ w then Some (a * b) else None.

(** [a.div_ceil(b)]: the truncated quotient, plus one on a remainder. *)
Definition div_ceil (a b : Z) : Z :=
  if 0 <? a mod b then a / b + 1 else a / b.

(** [x.clamp(lo, hi)]. *)
Definition clamp (lo hi x : Z) : Z :=
  if x <? lo then lo else if hi <? x then hi else x.

(** [!x] on a [w]-bit word. *)
Definition wnot (w x : Z) : Z := Z.lxor x (2 ^ w - 1).
(** [x << k] on a [w]-bit word: the bits shifted out are lost. *)
Definition wshl (w x k : Z) : Z := wrap w (Z.shiftl x k).

(** ** Fallible code *)

Inductive result (T E : Type) : Type :=
  | Ok (t : T)
  | Err (e : E).
Arguments Ok {T E} t.
Arguments Err {T E} e.

Definition rbind {T U E} (r : result T E) (k : T -> result U E) : result U E :=
  match r with Ok t => k t | Err e => Err e end.

Definition is_ok {T E} (r : result T E) : bool :=
  match r with Ok _ => true | Err _ => false end.

Definition ok {T E} (r : result T E) : option T :=
  match r with Ok t => Some t | Err _ => None end.

Definition map_err {T E F} (f : E -> F) (r : result T E) : result T F :=
  match r with Ok t => Ok t | Err e => Err (f e) end.

Definition ok_or {T E} (o : option T) (e : E) : result T E :=
  match o with Some t => Ok t | None => Err e end.

(** The [?] operator. *)
Notation "'let?' x := e 'in' k" := (rbind e (fun x => k))
  (at level 200, x pattern, e at level 200, k at level 200,
   format "'let?'  x  :=  e  'in' '//' k") : xfr_scope.
#[global] Open Scope xfr_scope.

Lemma rbind_ok {T U E} (r : result T E) (k : T -> result U E) u :
  rbind r k = Ok u <-> exists t, r = Ok t /\ k t = Ok u.
Proof. destruct r; cbn; naive_solver. Qed.

Lemma rbind_err {T U E} (r : result T E) (k : T -> result U E) e :
  rbind r k = Err e <-> r = Err e \/ exists t, r = Ok t /\ k t = Err e.
Proof. destruct r; cbn; naive_solver. Qed.

(** Injectivity without the simplification [injection] performs. *)
Lemma pair_ok_inv {A T E} (a b : A) (x y : T) :
  (a, Ok x : result T E) = (b, Ok y) -> a = b /\ x = y.
Proof. by intros [= -> ->]. Qed.

Lemma some_pair_inv {A B} (a b : A) (x y : B) :
  Some (a, x) = Some (b, y) -> a = b /\ x = y.
Proof. by intros [= -> ->]. Qed.

(** ** Sums of integers over lists *)

Fixpoint zsum (l : list Z) : Z :=
  match l with [] => 0 | x :: l => x + zsum l end.

Lemma zsum_app l1 l2 : zsum (l1 ++ l2) = zsum l1 + zsum l2.
Proof. induction l1; cbn; lia. Qed.

Lemma zsum_nonneg l : Forall (fun z => 0 <= z) l -> 0 <= zsum l.
Proof. induction 1; cbn; lia. Qed.

(** ** Arithmetic facts the components share *)

Lemma wrap_small w z : fits w z -> wrap w z = z.
Proof. intros H. unfold wrap. apply Z.mod_small, H. Qed.

Lemma wrap_fits w z : 0 <= w -> fits w (wrap w z).
Proof. intros. apply Z.mod_pos_bound. lia. Qed.

Lemma saturating_sub_spec a b : saturating_sub a b = if a <? b then 0 else a - b.
Proof. unfold saturating_sub. destruct (Z.ltb_spec a b); lia. Qed.

Lemma div_ceil_spec a b :
  0 <= a -> 0 < b -> (div_ceil a b - 1) * b < a <= div_ceil a b * b.
Proof.
  intros Ha Hb. unfold div_ceil.
  pose proof (Z.div_mod a b ltac:(lia)). pose proof (Z.mod_pos_bound a b Hb).
  destruct (Z.ltb_spec 0 (a mod b)); nia.
Qed.

Lemma clamp_bounds lo hi x : lo <= hi -> lo <= clamp lo hi x <= hi.
Proof. unfold clamp. destruct (Z.ltb_spec x lo), (Z.ltb_spec hi x); lia. Qed.

Lemma testbit_wnot w x k :
  0 <= k < w -> Z.testbit (wnot w x) k = negb (Z.testbit x k).
Proof.
  intros Hk. unfold wnot. rewrite Z.lxor_spec.
  replace (2 ^ w - 1) with (Z.ones w) by (rewrite Z.ones_equiv; lia).
  rewrite Z.ones_spec_low by lia. apply xorb_true_r.
Qed.

Lemma testbit_wshl w x k i :
  0 <= k -> 0 <= i < w ->
  Z.testbit (wshl w x k) i = (k <=? i) && Z.testbit x (i - k).
Proof.
  intros Hk Hi. unfold wshl, wrap. rewrite Z.mod_pow2_bits_low by lia.
  rewrite Z.shiftl_spec by lia. destruct (Z.leb_spec k i); cbn; [done|].
  apply Z.testbit_neg_r. lia.
Qed.

(** ** Tactics *)

(** Turn every boolean comparison of the context and goal into its
    proposition, splitting on the undecided ones of the goal. *)
Ltac zbool :=
  repeat match goal with
  | H : (_ <? _) = true |- _ => apply Z.ltb_lt in H
  | H : (_ <? _) = false |- _ => apply Z.ltb_ge in H
  | H : (_ <=? _) = true |- _ => apply Z.leb_le in H
  | H : (_ <=? _) = false |- _ => apply Z.leb_gt in H
  | H : (_ =? _) = true |- _ => apply Z.eqb_eq in H
  | H : (_ =? _) = false |- _ => apply Z.eqb_neq in H
  | H : (_ >=? _) = _ |- _ => rewrite Z.geb_leb in H
  | H : (_ >? _) = _ |- _ => rewrite Z.gtb_ltb in H
  | H : _ && _ = true |- _ => apply andb_true_iff in H; destruct H
  | H : _ || _ = false |- _ => apply orb_false_iff in H; destruct H
  | H : negb _ = true |- _ => apply negb_true_iff in H
  | H : negb _ = false |- _ => apply negb_false_iff in H
  end.

Ltac zcase :=
  match goal with
  | |- context [?a <? ?b] => destruct (Z.ltb_spec a b)
  | |- context [?a <=? ?b] => destruct (Z.leb_spec a b)
  | |- context [?a =? ?b] => destruct (Z.eqb_spec a b)
  end.

Create HintDb xfr.
#[export] Hint Resolve wrap_fits zsum_nonneg : xfr.
#[export] Hint Rewrite zsum_app : xfr.

(** Replacing one entry of a list changes a sum over the list by the
    difference of the entries. *)
Lemma zsum_insert {A} (f : A -> Z) (l : list A) i x y :
  l !! i = Some x -> zsum (map f (<[i := y]> l)) = zsum (map f l) - f x + f y.
Proof.
  revert i. induction l as [|z l IH]; intros [|i] H; try done.
  - cbn in *. injection H as ->. lia.
  - change (<[S i := y]> (z :: l)) with (z :: <[i := y]> l). cbn in *.
    rewrite (IH i H). lia.
Qed.

Lemma zsum_lookup_le {A} (f : A -> Z) (l : list A) i x :
  Forall (fun a => 0 <= f a) l -> l !! i = Some x -> f x <= zsum (map f l).
Proof.
  intros Hl. revert i. induction Hl as [|z l Hz Hl IH]; intros [|i]; cbn; intros H; try done.
  - injection H as ->. assert (0 <= zsum (map f l)); [|lia].
    apply zsum_nonneg. clear -Hl. by induction Hl; constructor.
  - specialize (IH i H). lia.
Qed.
