(* ===== verification/Order.v ===== *)
(** * Orderings and sorting as the standard library defines them

    The total orders the derived [Ord] instances give (numbers, pairs and
    tuples, options, strings by characters), with their laws, and the stable
    sort and [dedup] of slices by such an order. *)
From Stdlib Require Import Sorting.Sorted.
From S2P Require Import Prelude.

(** ** Orders *)
Class Ord (A : Type) := cmp : A -> A -> comparison.

(** What [Ord] promises: equality is equality, and [<] is a strict order. *)
Class OrdLaws (A : Type) `{Ord A} := {
  cmp_eq (x y : A) : cmp x y = Eq <-> x = y;
  cmp_opp (x y : A) : cmp y x = CompOpp (cmp x y);
  cmp_trans (x y z : A) : cmp x y = Lt -> cmp y z = Lt -> cmp x z = Lt }.

#[export] Instance Z_ord : Ord Z := Z.compare.
#[export] Instance Z_ord_laws : OrdLaws Z.
Proof.
  split; unfold cmp, Z_ord.
  - intros x y. apply Z.compare_eq_iff.
  - intros x y. apply Z.compare_antisym.
  - intros x y z. rewrite !Z.compare_lt_iff. lia.
Qed.

(** Field by field, in the order of the fields. *)
#[export] Instance prod_ord {A B} `{Ord A, Ord B} : Ord (A * B) := fun x y =>
  match cmp (fst x) (fst y) with Eq => cmp (snd x) (snd y) | c => c end.
(** [None] first. *)
#[export] Instance option_ord {A} `{Ord A} : Ord (option A) := fun x y =>
  match x, y with
  | None, None => Eq
  | None, Some _ => Lt
  | Some _, None => Gt
  | Some a, Some b => cmp a b
  end.
(** Element by element, a prefix first.  Strings compare by their UTF-8 bytes,
    which is the order of their characters. *)
Fixpoint list_cmp {A} `{Ord A} (x y : list A) : comparison :=
  match x, y with
  | [], [] => Eq
  | [], _ => Lt
  | _, [] => Gt
  | a :: x, b :: y => match cmp a b with Eq => list_cmp x y | c => c end
  end.
#[export] Instance list_ord {A} `{Ord A} : Ord (list A) := list_cmp.

Section laws.
Context {A B : Type} `{OrdLaws A} `{OrdLaws B}.

Lemma cmp_refl (x : A) : cmp x x = Eq.
Proof. by apply cmp_eq. Qed.

Lemma cmp_pair (a a' : A) (b b' : B) :
  cmp (a, b) (a', b') = match cmp a a' with Eq => cmp b b' | c => c end.
Proof. done. Qed.
#[export] Instance prod_ord_laws : OrdLaws (A * B).
Proof.
  split.
  - intros [a b] [a' b']. rewrite cmp_pair. destruct (cmp a a') eqn:E.
    + apply cmp_eq in E as ->. rewrite cmp_eq. split; [by intros ->|by intros [= ->]].
    + split; [done|]. intros [= -> ->]. by rewrite cmp_refl in E.
    + split; [done|]. intros [= -> ->]. by rewrite cmp_refl in E.
  - intros [a b] [a' b']. rewrite !cmp_pair, (cmp_opp a a'). destruct (cmp a a'); cbn; [apply cmp_opp|done..].
  - intros [a b] [a' b'] [a'' b'']. rewrite !cmp_pair.
    destruct (cmp a a') eqn:E1; [apply cmp_eq in E1 as ->| |done]; (destruct (cmp a' a'') eqn:E2; [apply cmp_eq in E2 as <-| |done]); try done.
    + rewrite ?cmp_refl. apply cmp_trans.
    + by rewrite E1.
    + by rewrite (cmp_trans a a' a'').
Qed.

Lemma cmp_some (a b : A) : cmp (Some a) (Some b) = cmp a b.
Proof. done. Qed.
#[export] Instance option_ord_laws : OrdLaws (option A).
Proof.
  split.
  - intros [a|] [b|]; try done. rewrite cmp_some, cmp_eq. split; [by intros ->|by intros [= ->]].
  - intros [a|] [b|]; try done. rewrite !cmp_some. apply cmp_opp.
  - intros [a|] [b|] [c|]; rewrite ?cmp_some; try done. apply cmp_trans.
Qed.

Lemma list_cmp_eq (x y : list A) : list_cmp x y = Eq <-> x = y.
Proof.
  revert y. induction x as [|a x IH]; intros [|b y]; cbn; try done.
  destruct (cmp a b) eqn:E; rewrite ?cmp_eq in E; subst.
  - rewrite IH. split; [by intros ->|by intros [= ->]].
  - split; [done|]. intros [= -> ->]. by rewrite cmp_refl in E.
  - split; [done|]. intros [= -> ->]. by rewrite cmp_refl in E.
Qed.

#[export] Instance list_ord_laws : OrdLaws (list A).
Proof.
  split; unfold cmp, list_ord.
  - apply list_cmp_eq.
  - intros x. induction x as [|a x IH]; intros [|b y]; cbn; try done.
    rewrite (cmp_opp a b). destruct (cmp a b); cbn; [apply IH|done..].
  - intros x. induction x as [|a x IH]; intros [|b y] [|c z]; cbn; try done.
    destruct (cmp a b) eqn:E1; [apply cmp_eq in E1 as ->| |done]; (destruct (cmp b c) eqn:E2; [apply cmp_eq in E2 as <-| |done]); try done.
    + rewrite ?cmp_refl. apply IH.
    + by rewrite E1.
    + by rewrite (cmp_trans a b c).
Qed.

(** An order through an injective key. *)
Lemma ord_by_laws {C} (f : C -> A) (inj : forall x y, f x = f y -> x = y) :
  @OrdLaws C (fun x y => cmp (f x) (f y)).
Proof.
  split; intros x y.
  - change (cmp (f x) (f y) = Eq <-> x = y). rewrite cmp_eq. split; [apply inj|by intros ->].
  - apply (cmp_opp (f x) (f y)).
  - intros z. apply (cmp_trans (f x) (f y) (f z)).
Qed.
End laws.

(** ** Sorting *)
Section sorting.
Context {A K : Type} `{OrdLaws K} (key : A -> K).

Definition le_key (x y : A) : bool := match cmp (key x) (key y) with Gt => false | _ => true end.

Fixpoint insert_by (x : A) (l : list A) : list A :=
  match l with
  | [] => [x]
  | y :: l' => if le_key x y then x :: l else y :: insert_by x l'
  end.
(** [sort_by_key] and [sort_by]: equal keys keep their order. *)
Definition sort_by (l : list A) : list A := foldr insert_by [] l.

Lemma insert_by_perm x l : insert_by x l ≡ₚ x :: l.
Proof.
  induction l as [|y l IH]; cbn; [done|]. destruct (le_key x y); [done|]. rewrite IH. apply Permutation_swap.
Qed.
Lemma sort_by_perm l : sort_by l ≡ₚ l.
Proof. induction l as [|x l IH]; cbn; [done|]. rewrite insert_by_perm. by rewrite IH. Qed.
Lemma sort_by_in x l : In x (sort_by l) <-> In x l.
Proof. split; apply Permutation_in; [|symmetry]; apply sort_by_perm. Qed.

Lemma le_key_total x y : le_key x y = false -> le_key y x = true.
Proof. unfold le_key. rewrite (cmp_opp (key x) (key y)). by destruct (cmp (key x) (key y)). Qed.
Lemma le_key_trans x y z : le_key x y = true -> le_key y z = true -> le_key x z = true.
Proof.
  unfold le_key. destruct (cmp (key x) (key y)) eqn:E1, (cmp (key y) (key z)) eqn:E2; try done; intros _ _.
  - apply cmp_eq in E1. by rewrite E1, E2.
  - apply cmp_eq in E1. by rewrite E1, E2.
  - apply cmp_eq in E2. by rewrite <- E2, E1.
  - by rewrite (cmp_trans _ (key y)).
Qed.
Lemma le_key_antisym x y : le_key x y = true -> le_key y x = true -> key x = key y.
Proof.
  unfold le_key. rewrite (cmp_opp (key x) (key y)). destruct (cmp (key x) (key y)) eqn:E; try done.
  intros _ _. by apply cmp_eq.
Qed.

Definition sorted (l : list A) : Prop := StronglySorted (fun x y => le_key x y = true) l.

Lemma insert_by_sorted x l : sorted l -> sorted (insert_by x l).
Proof.
  induction 1 as [|y l Hl IH Hy]; cbn; [by repeat constructor|]. destruct (le_key x y) eqn:E.
  - constructor; [by constructor|]. constructor; [done|]. apply (Forall_impl _ _ _ Hy). intros z Hz.
    by apply (le_key_trans x y z).
  - constructor; [done|]. rewrite insert_by_perm. constructor; [by apply le_key_total|done].
Qed.
Lemma sort_by_sorted l : sorted (sort_by l).
Proof. induction l as [|x l IH]; cbn; [constructor|by apply insert_by_sorted]. Qed.
End sorting.

(** [Vec::dedup]: one of each run of equal elements. *)
Fixpoint dedup {A} `{EqDecision A} (l : list A) : list A :=
  match l with
  | x :: (y :: _) as l' => if decide (x = y) then dedup l' else x :: dedup l'
  | l => l
  end.

Lemma dedup_in {A} `{EqDecision A} (x : A) l : In x (dedup l) <-> In x l.
Proof.
  induction l as [|y [|z l] IH]; [done..|]. change (In x (dedup (y :: z :: l)))
    with (In x (if decide (y = z) then dedup (z :: l) else y :: dedup (z :: l))).
  destruct (decide (y = z)) as [->|Hn].
  - rewrite IH. cbn. tauto.
  - change (In x (y :: dedup (z :: l))) with (y = x \/ In x (dedup (z :: l))). rewrite IH. done.
Qed.

(** On a list sorted by an antisymmetric order nothing is left twice. *)
Lemma dedup_sorted {A} `{EqDecision A} (R : A -> A -> Prop) l :
  (forall x y, R x y -> R y x -> x = y) -> StronglySorted R l ->
  StronglySorted R (dedup l) /\ List.NoDup (dedup l).
Proof.
  intros Ha Hs. induction Hs as [|x l Hs IH Hx]; [split; constructor|].
  destruct l as [|y l]; [split; repeat constructor; by intros []|].
  change (dedup (x :: y :: l)) with (if decide (x = y) then dedup (y :: l) else x :: dedup (y :: l)).
  destruct (decide (x = y)) as [|Hn]; [done|]. destruct IH as [IHs IHn]. split.
  - constructor; [done|]. rewrite Forall_forall in *. intros z Hz. apply Hx.
    apply list_elem_of_In. rewrite <- dedup_in. by apply list_elem_of_In.
  - constructor; [|done]. rewrite dedup_in. intros [->|Hin]; [done|]. apply Hn, Ha.
    + apply Forall_cons in Hx as [? _]. done.
    + apply StronglySorted_inv in Hs as [_ Hy]. rewrite Forall_forall in Hy. by apply Hy, list_elem_of_In.
Qed.
