(* ===== verification/Float.v ===== *)
(** * Double-precision floats

    [f64] is the Standard Library's [spec_float] at the binary64 format, so
    every rounding of the program's arithmetic is the IEEE one.  Conversions
    follow the language: an integer rounds to nearest even, [as u64] truncates
    and saturates, [round] goes half away from zero. *)
From Stdlib Require Import SpecFloat.
From S2P Require Import Prelude.

Definition f64 : Type := spec_float.
Definition prec : Z := 53.
Definition emax : Z := 1024.

Definition of_int (z : Z) : f64 := binary_normalize prec emax z 0 false.
Definition fadd : f64 -> f64 -> f64 := SFadd prec emax.
Definition fsub : f64 -> f64 -> f64 := SFsub prec emax.
Definition fmul : f64 -> f64 -> f64 := SFmul prec emax.
Definition fdiv : f64 -> f64 -> f64 := SFdiv prec emax.
Definition fltb : f64 -> f64 -> bool := SFltb.
Definition fgtb (x y : f64) : bool := SFltb y x.
Definition fgeb (x y : f64) : bool := SFleb y x.
Definition zero : f64 := S754_zero false.

Definition is_nan (x : f64) : bool := match x with S754_nan => true | _ => false end.
Definition is_finite (x : f64) : bool :=
  match x with S754_zero _ | S754_finite _ _ _ => true | _ => false end.
Definition sign_of (x : f64) : bool :=
  match x with S754_zero s | S754_infinity s | S754_finite s _ _ => s | S754_nan => false end.

(** [f64::max]: a NaN loses to a number. *)
Definition fmax (x y : f64) : f64 :=
  if is_nan x then y else if is_nan y then x else if fltb x y then y else x.

(** The value truncated towards zero; [None] for a NaN or an infinity. *)
Definition trunc (x : f64) : option Z :=
  match x with
  | S754_zero _ => Some 0
  | S754_finite s m e =>
    let a := if 0 <=? e then Z.pos m * 2 ^ e else Z.pos m / 2 ^ (- e) in
    Some (if s then - a else a)
  | _ => None
  end.

(** [x as u64], [x as u32]. *)
Definition to_uint (w : Z) (x : f64) : Z :=
  match trunc x with
  | Some z => Z.max 0 (Z.min z (2 ^ w - 1))
  | None => match x with S754_infinity false => 2 ^ w - 1 | _ => 0 end
  end.

(** [x.round()]. *)
Definition fround (x : f64) : f64 :=
  match x with
  | S754_finite s m e =>
    if 0 <=? e then x
    else
      let a := (Z.pos m + 2 ^ (- e - 1)) / 2 ^ (- e) in
      if a =? 0 then S754_zero s else binary_normalize prec emax (if s then - a else a) 0 s
  | _ => x
  end.

(** [x.fract() == 0.0], for a finite number. *)
Definition is_integral (x : f64) : bool :=
  match x with
  | S754_zero _ => true
  | S754_finite _ m e => (0 <=? e) || (Z.pos m mod 2 ^ (- e) =? 0)
  | _ => false
  end.

(** Sums in list order, starting from the language's empty sum [-0.0]. *)
Definition fsum (l : list f64) : f64 := fold_left fadd l (S754_zero true).

#[export] Instance f64_eq_dec : EqDecision f64.
Proof. unfold EqDecision. change (forall x y : spec_float, Decision (x = y)). solve_decision. Defined.

Lemma to_uint_fits w x : 0 <= w -> fits w (to_uint w x).
Proof.
  intros Hw. assert (0 < 2 ^ w) by lia. unfold to_uint, fits.
  destruct (trunc x) as [z|]; [lia|]. destruct x as [|[]| |]; lia.
Qed.

Lemma fltb_irrefl x : fltb x x = false.
Proof.
  unfold fltb, SFltb, SFcompare. destruct x as [s|s| |s m e]; try done; [by destruct s|].
  rewrite Z.compare_refl, Pos.compare_refl. by destruct s.
Qed.

Lemma fltb_asym x y : fltb x y = true -> fltb y x = false.
Proof.
  unfold fltb, SFltb, SFcompare.
  destruct x as [s|s| |s m e], y as [t|t| |t n f]; try done; try (by destruct s);
    try (by destruct t); try (by destruct s, t).
  change (Pos.compare_cont Eq) with Pos.compare.
  destruct s, t; try done;
    destruct (Z.compare_spec e f), (Z.compare_spec f e); try lia; try done;
    destruct (Pos.compare_spec m n), (Pos.compare_spec n m); try lia; done.
Qed.
