(* ===== verification/Pause.v ===== *)
(** * The pause and cancel channels (src/src/pause.rs)

    A watch channel holds the last value sent; a receiver remembers whether it
    has observed the latest send.  The environment is the sequence of sends and
    drops made by the control task while a stream waits. *)
From S2P Require Import Prelude.

(** One receiver's view of a [watch] channel. *)
Record watch := mkWatch { value : bool; closed : bool; unseen : bool }.

(** [changed()]: ready with a result and the receiver after, or pending. *)
Definition poll_changed (w : watch) : option (result unit unit * watch) :=
  if unseen w then Some (Ok tt, mkWatch (value w) (closed w) false)
  else if closed w then Some (Err tt, w)
  else None.

Definition channel_is_open (pause : watch) : bool := negb (closed pause).
Definition is_paused (pause : watch) : bool := value pause && channel_is_open pause.

Inductive env_event := SetPause (v : bool) | DropPause | SetCancel (v : bool) | DropCancel.

Definition env_step (e : env_event) (pause cancel : watch) : watch * watch :=
  match e with
  | SetPause v => (if closed pause then pause else mkWatch v false true, cancel)
  | DropPause => (mkWatch (value pause) true (unseen pause), cancel)
  | SetCancel v => (pause, if closed cancel then cancel else mkWatch v false true)
  | DropCancel => (pause, mkWatch (value cancel) true (unseen cancel))
  end.

(** One pass of the loop: the biased [select!] polls [cancel] first. *)
Inductive poll := Return (cancelled : bool) | Continue (pause cancel : watch) | Pending.

Definition select_wait (pause cancel : watch) : poll :=
  match poll_changed cancel with
  | Some (Err _, _) => Return true
  | Some (Ok _, cancel) => if value cancel then Return true else Continue pause cancel
  | None =>
    match poll_changed pause with
    | Some (Err _, _) => Return false
    | Some (Ok _, pause) => Continue pause cancel
    | None => Pending
    end
  end.

Inductive wait_result := Returned (cancelled : bool) (rest : list env_event) | Blocked (pause cancel : watch).

(** The loop, resumed once per environment event; [None] is only running out
    of [fuel]. *)
Fixpoint wait_while_paused (fuel : nat) (pause cancel : watch) (env : list env_event)
    : option wait_result :=
  if is_paused pause then
    match fuel with
    | O => None
    | S fuel =>
      match select_wait pause cancel with
      | Return c => Some (Returned c env)
      | Continue pause cancel => wait_while_paused fuel pause cancel env
      | Pending =>
        match env with
        | [] => Some (Blocked pause cancel)
        | e :: env => let '(pause, cancel) := env_step e pause cancel in
                      wait_while_paused fuel pause cancel env
        end
      end
    end
  else Some (Returned false env).

(** Iterations the loop can still make: an unseen send is observed once. *)
Definition work (pause cancel : watch) (env : list env_event) : nat :=
  Nat.b2n (unseen pause) + Nat.b2n (unseen cancel) + 2 * length env + 1.

(** The channels after the environment has acted. *)
Definition env_run (env : list env_event) (pause cancel : watch) : watch * watch :=
  fold_left (fun '(p, c) e => env_step e p c) env (pause, cancel).

(** What returning and staying blocked mean. *)
Definition wait_ok (r : wait_result) : Prop :=
  match r with
  | Returned _ _ => True
  | Blocked pause cancel =>
    is_paused pause = true /\ closed cancel = false /\ unseen cancel = false /\ unseen pause = false
  end.

Lemma select_work pause cancel pause' cancel' env :
  select_wait pause cancel = Continue pause' cancel' ->
  (work pause' cancel' env < work pause cancel env)%nat.
Proof.
  unfold select_wait, poll_changed, work.
  destruct (unseen cancel) eqn:Ec; cbn.
  - destruct (value cancel); [done|]. intros [= <- <-]. cbn. lia.
  - destruct (closed cancel); [done|]. destruct (unseen pause) eqn:Ep; cbn.
    + intros [= <- <-]. cbn. rewrite Ec. cbn. lia.
    + by destruct (closed pause).
Qed.

Lemma pending_inv pause cancel :
  select_wait pause cancel = Pending ->
  unseen pause = false /\ unseen cancel = false /\ closed cancel = false /\ closed pause = false.
Proof.
  unfold select_wait, poll_changed.
  destruct (unseen cancel); [by destruct (value _)|]. destruct (closed cancel); [done|].
  destruct (unseen pause); [done|]. by destruct (closed pause).
Qed.

Lemma env_step_work e pause cancel pause' cancel' env :
  unseen pause = false -> unseen cancel = false ->
  env_step e pause cancel = (pause', cancel') ->
  (work pause' cancel' env < work pause cancel (e :: env))%nat.
Proof.
  intros Hp Hc. unfold work. rewrite Hp, Hc.
  destruct e; cbn; intros [= <- <-]; rewrite ?Hp, ?Hc; cbn;
    repeat case_match; cbn; rewrite ?Hp, ?Hc; cbn; lia.
Qed.

(** The pause wait never spins: the loop makes at most one pass per
    environment event and unseen send, and when it has not returned every
    channel is quiet, so it is asleep.  It stays asleep only while the stream
    is paused and neither cancelled nor abandoned by the control task. *)
Theorem wait_never_spins (pause cancel : watch) (env : list env_event) :
  exists r, wait_while_paused (work pause cancel env) pause cancel env = Some r /\ wait_ok r.
Proof.
  remember (work pause cancel env) as n eqn:Hn.
  assert (Hle : (work pause cancel env <= n)%nat) by lia. clear Hn.
  revert pause cancel env Hle. induction n as [|n IH]; intros pause cancel env Hle;
    [unfold work in Hle; lia|].
  cbn [wait_while_paused]. destruct (is_paused pause) eqn:Hp; [|by eexists].
  destruct (select_wait pause cancel) as [c|pause' cancel'|] eqn:Hs.
  - by eexists.
  - apply IH. pose proof (select_work _ _ _ _ env Hs). lia.
  - apply pending_inv in Hs as (H1 & H2 & H3 & H4). destruct env as [|e env].
    + eexists. split; [done|]. by cbn.
    + destruct (env_step e pause cancel) as [pause' cancel'] eqn:He. apply IH.
      pose proof (env_step_work _ _ _ _ _ env H1 H2 He). lia.
Qed.

(** Two views of a channel that differ only in what has been observed. *)
Definition same (w w' : watch) : Prop := value w = value w' /\ closed w = closed w'.

Lemma env_run_same env p c p' c' :
  same p p' -> is_paused (env_run env p c).1 = is_paused (env_run env p' c').1.
Proof.
  revert p c p' c'. induction env as [|e env IH]; intros p c p' c' [Hv Hc].
  - unfold is_paused, channel_is_open. cbn. by rewrite Hv, Hc.
  - unfold env_run. cbn [fold_left].
    destruct (env_step e p c) as [p1 c1] eqn:E1, (env_step e p' c') as [p2 c2] eqn:E2.
    apply IH. destruct e; cbn in E1, E2; injection E1 as <- <-; injection E2 as <- <-;
      unfold same; cbn; rewrite ?Hc; try (split; congruence);
      destruct (closed p') eqn:?; cbn; split; congruence.
Qed.

(** What makes the wait report a cancellation. *)
Definition cancelled_by (cancel : watch) (used : list env_event) : Prop :=
  (unseen cancel = true /\ value cancel = true) \/ closed cancel = true \/
  SetCancel true ∈ used \/ DropCancel ∈ used.

Lemma select_continue pause cancel pause' cancel' :
  select_wait pause cancel = Continue pause' cancel' ->
  same pause pause' /\ closed cancel' = closed cancel /\
  (unseen cancel' = true -> unseen cancel = true /\ value cancel' = value cancel).
Proof.
  unfold select_wait, poll_changed. destruct (unseen cancel) eqn:Hu.
  - cbn. destruct (value cancel); [done|]. by intros [= <- <-].
  - destruct (closed cancel) eqn:Hc; [done|]. destruct (unseen pause).
    + intros [= <- <-]. rewrite Hu, Hc. done.
    + by destruct (closed pause).
Qed.

Lemma select_return pause cancel c :
  is_paused pause = true -> select_wait pause cancel = Return c ->
  c = true /\ cancelled_by cancel [].
Proof.
  unfold is_paused, channel_is_open, select_wait, poll_changed, cancelled_by. intros Hp.
  apply andb_true_iff in Hp as [_ Hp%negb_true_iff]. rewrite Hp. destruct (unseen cancel).
  - cbn. destruct (value cancel); [|done]. intros [= <-]. auto.
  - destruct (closed cancel); [intros [= <-]; auto|]. by destruct (unseen pause).
Qed.

Lemma cancelled_by_step e pause cancel used :
  cancelled_by (env_step e pause cancel).2 used ->
  cancelled_by cancel (e :: used).
Proof.
  unfold cancelled_by. rewrite !elem_of_cons.
  destruct e as [v| |[]|]; cbn; try tauto; destruct (closed cancel); cbn; naive_solver.
Qed.

(** A waiting stream wakes for the right reason: it reports cancellation
    only when cancel was set or its sender dropped, and reports a resume only
    when the pause was lifted or its sender dropped. *)
Theorem wait_result_meaning (fuel : nat) (pause cancel : watch) (env rest : list env_event)
    (c : bool) :
  wait_while_paused fuel pause cancel env = Some (Returned c rest) ->
  exists used, env = used ++ rest /\
    if c then cancelled_by cancel used
    else is_paused (env_run used pause cancel).1 = false.
Proof.
  revert pause cancel env. induction fuel as [|fuel IH]; intros pause cancel env;
    cbn [wait_while_paused]; destruct (is_paused pause) eqn:Hp; try done;
    try (intros [= <- <-]; by exists []).
  destruct (select_wait pause cancel) as [c'|pause' cancel'|] eqn:Hs.
  - intros [= -> <-]. exists []. split; [done|].
    by destruct (select_return _ _ _ Hp Hs) as [-> ?].
  - intros (used & -> & H)%IH. exists used. split; [done|].
    destruct (select_continue _ _ _ _ Hs) as (Hsame & Hcl & Hun). destruct c.
    + unfold cancelled_by in *. rewrite Hcl in H. naive_solver.
    + rewrite <- H. by apply env_run_same.
  - destruct env as [|e env]; [done|].
    destruct (env_step e pause cancel) as [pause' cancel'] eqn:He.
    intros (used & -> & H)%IH. exists (e :: used). split; [done|]. destruct c.
    + apply (cancelled_by_step e pause). by rewrite He.
    + unfold env_run in *. cbn [fold_left]. by rewrite He.
Qed.

Lemma wait_result_meaning_witness :
  exists used, [SetCancel false; SetPause false; SetCancel true] = used ++ [SetCancel true] /\
    is_paused (env_run used (mkWatch true false false) (mkWatch false false false)).1 = false.
Proof.
  apply (wait_result_meaning 9 (mkWatch true false false) (mkWatch false false false)
    [SetCancel false; SetPause false; SetCancel true] [SetCancel true] false).
  reflexivity.
Defined.
