(* ===== verification/Bytes.v ===== *)
(** * Byte buffers

    Bytes are integers in [0, 256), buffers are lists of them.  The module
    holds the big- and little-endian conversions of the standard library
    ([to_be_bytes], [from_be_bytes], [to_le_bytes], [from_le_bytes]),
    [copy_from_slice] into a range of a buffer, lowercase hexadecimal and
    the constant-time comparison the two authentication layers share. *)
From S2P Require Import Prelude.

Definition is_byte (b : Z) : Prop := 0 <= b < 256.
Definition bytes_ok (l : list Z) : Prop := Forall is_byte l.

(** [z.to_le_bytes()] and [z.to_be_bytes()] for an [n]-byte integer. *)
Fixpoint to_le_bytes (n : nat) (z : Z) : list Z :=
  match n with
  | O => []
  | S n => z mod 256 :: to_le_bytes n (z / 256)
  end.

Fixpoint from_le_bytes (l : list Z) : Z :=
  match l with [] => 0 | b :: l => b + 256 * from_le_bytes l end.

Definition to_be_bytes (n : nat) (z : Z) : list Z := rev (to_le_bytes n z).
Definition from_be_bytes (l : list Z) : Z := from_le_bytes (rev l).

(** [buffer[off..off + bs.len()].copy_from_slice(bs)], for a range inside
    the buffer. *)
Definition splice (off : nat) (bs buf : list Z) : list Z :=
  take off buf ++ bs ++ drop (off + length bs) buf.

(** [buffer[a..b]]. *)
Definition slice (a b : nat) (buf : list Z) : list Z := take (b - a) (drop a buf).

Definition len (buf : list Z) : Z := Z.of_nat (length buf).

(** Conversions between strings and their bytes ([str::as_bytes]). *)
Fixpoint bytes_of_string (s : string) : list Z :=
  match s with
  | EmptyString => []
  | String c s => Z.of_N (Ascii.N_of_ascii c) :: bytes_of_string s
  end.

Lemma length_to_le_bytes n z : length (to_le_bytes n z) = n.
Proof. revert z. induction n; intros; cbn [to_le_bytes length]; auto. Qed.

Lemma length_to_be_bytes n z : length (to_be_bytes n z) = n.
Proof. unfold to_be_bytes. by rewrite length_rev, length_to_le_bytes. Qed.

Lemma to_le_bytes_ok n z : bytes_ok (to_le_bytes n z).
Proof.
  revert z. induction n; intros; constructor; [|apply IHn].
  apply Z.mod_pos_bound. lia.
Qed.

Lemma to_be_bytes_ok n z : bytes_ok (to_be_bytes n z).
Proof. apply Forall_rev, to_le_bytes_ok. Qed.

Lemma from_to_le_bytes n z : from_le_bytes (to_le_bytes n z) = z mod 256 ^ Z.of_nat n.
Proof.
  revert z. induction n as [|n IH]; intros z; cbn [to_le_bytes from_le_bytes].
  - by rewrite Z.mod_1_r.
  - rewrite IH, Nat2Z.inj_succ, Z.pow_succ_r by lia.
    rewrite Z.rem_mul_r by lia. lia.
Qed.

Lemma to_from_le_bytes l : bytes_ok l -> to_le_bytes (length l) (from_le_bytes l) = l.
Proof.
  induction 1 as [|b l Hb Hl IH]; [done|]. cbn [length to_le_bytes from_le_bytes].
  unfold is_byte in Hb. f_equal.
  - rewrite Z.mul_comm, Z.mod_add by lia. by apply Z.mod_small.
  - rewrite Z.mul_comm, Z.div_add, Z.div_small, Z.add_0_l by lia. exact IH.
Qed.

Lemma from_to_be_bytes n z :
  0 <= z < 256 ^ Z.of_nat n -> from_be_bytes (to_be_bytes n z) = z.
Proof.
  intros H. unfold from_be_bytes, to_be_bytes.
  rewrite rev_involutive, from_to_le_bytes. by apply Z.mod_small.
Qed.

Lemma from_to_le_bytes_small n z :
  0 <= z < 256 ^ Z.of_nat n -> from_le_bytes (to_le_bytes n z) = z.
Proof. intros H. rewrite from_to_le_bytes. by apply Z.mod_small. Qed.

Lemma to_from_be_bytes l : bytes_ok l -> to_be_bytes (length l) (from_be_bytes l) = l.
Proof.
  intros H. unfold from_be_bytes, to_be_bytes.
  rewrite <- length_rev, to_from_le_bytes by by apply Forall_rev.
  apply rev_involutive.
Qed.

Lemma from_le_bytes_bound l : bytes_ok l -> 0 <= from_le_bytes l < 256 ^ len l.
Proof.
  unfold len. induction 1 as [|b l Hb Hl IH]; [cbn; lia|].
  unfold is_byte in Hb. cbn [from_le_bytes length].
  rewrite Nat2Z.inj_succ, Z.pow_succ_r by lia. lia.
Qed.

Lemma from_be_bytes_bound l : bytes_ok l -> 0 <= from_be_bytes l < 256 ^ len l.
Proof.
  intros H. unfold from_be_bytes, len. rewrite <- length_rev.
  by apply from_le_bytes_bound, Forall_rev.
Qed.

(** ** Writing consecutive fields

    Filling a buffer field after field from the start is the same as putting
    the concatenated fields in front of the untouched rest. *)

Lemma length_splice off bs buf :
  (off + length bs <= length buf)%nat -> length (splice off bs buf) = length buf.
Proof. intros. unfold splice. rewrite !length_app, length_take, length_drop. lia. Qed.

Lemma splice_first bs buf : splice 0 bs buf = bs ++ drop (length bs) buf.
Proof. reflexivity. Qed.

Lemma splice_next pre bs n buf :
  length pre = n -> splice n bs (pre ++ buf) = (pre ++ bs) ++ drop (length bs) buf.
Proof.
  intros <-. unfold splice. rewrite take_app_length.
  by rewrite drop_app_add, <- app_assoc.
Qed.

Lemma slice_app_r pre bs n m buf :
  length pre = n -> (n + length bs = m)%nat -> slice n m (pre ++ bs ++ buf) = bs.
Proof.
  intros <- <-. unfold slice. rewrite drop_app_length.
  replace (_ - _)%nat with (length bs) by lia. apply take_app_length.
Qed.

Lemma slice_app_l bs m buf : length bs = m -> slice 0 m (bs ++ buf) = bs.
Proof. intros <-. unfold slice. rewrite drop_0, Nat.sub_0_r. apply take_app_length. Qed.

(** Rewrite a chain of field writes into the concatenation of the fields. *)
Ltac fill_fields :=
  rewrite splice_first;
  repeat (rewrite splice_next by
    (rewrite ?length_app, ?length_to_be_bytes, ?length_to_le_bytes; reflexivity));
  rewrite ?drop_drop, ?length_to_be_bytes, ?length_to_le_bytes.

(** Split a list of known length into its elements, so that slices of a
    buffer that contains it compute. *)
Ltac explode v :=
  repeat match goal with
  | H : length v = S _ |- _ =>
      let x := fresh "b" in
      destruct v as [|x v]; [discriminate H|]; cbn [length] in H; injection H as H
  | H : length v = O |- _ => destruct v; [clear H|discriminate H]
  end.

(** Range facts of the elements of an explicit buffer: split a hypothesis,
    or rebuild a goal from the facts in the context. *)
Ltac split_bytes H :=
  unfold bytes_ok in H;
  repeat match type of H with Forall _ (_ :: _) => apply Forall_cons in H as [? H] end.
Ltac join_bytes :=
  unfold bytes_ok; repeat first [assumption | apply Forall_nil_2 | apply Forall_cons_2].

#[export] Hint Resolve to_le_bytes_ok to_be_bytes_ok : xfr.
#[export] Hint Rewrite length_to_le_bytes length_to_be_bytes : xfr.

(** ** Text

    A [str] is the list of its UTF-8 bytes; [txt] reads a literal. *)
Definition txt : string -> list Z := bytes_of_string.
Arguments txt _%_string_scope.

(** [format!("{:02x}", b)] of each byte, concatenated. *)
Definition hex_digit (d : Z) : Z := if d <? 10 then 48 + d else 87 + d.
Definition hex_encode (bs : list Z) : list Z :=
  flat_map (fun b => [hex_digit (b / 16); hex_digit (b mod 16)]) bs.

(** [char::to_digit(radix)] on an ASCII byte. *)
Definition to_digit (radix b : Z) : option Z :=
  let d := if (48 <=? b) && (b <=? 57) then b - 48
           else if (97 <=? b) && (b <=? 122) then b - 87
           else if (65 <=? b) && (b <=? 90) then b - 55
           else 36 in
  if d <? radix then Some d else None.

Fixpoint parse_digits (radix max acc : Z) (s : list Z) : option Z :=
  match s with
  | [] => Some acc
  | b :: s =>
    match to_digit radix b with
    | None => None
    | Some d =>
      let acc := acc * radix + d in
      if acc <=? max then parse_digits radix max acc s else None
    end
  end.

(** [<uN>::from_str_radix(s, radix)]: an optional ["+"], then at least one
    digit; overflow is an error.  [str::parse] is the radix-10 case. *)
Definition from_str_radix (max radix : Z) (s : list Z) : option Z :=
  match s with
  | [] => None
  | [43] | [45] => None
  | 43 :: s => parse_digits radix max 0 s
  | s => parse_digits radix max 0 s
  end.
Definition parse_uint (max : Z) (s : list Z) : option Z := from_str_radix max 10 s.

Lemma hex_encode_cons b bs :
  hex_encode (b :: bs) = hex_digit (b / 16) :: hex_digit (b mod 16) :: hex_encode bs.
Proof. reflexivity. Qed.

Lemma length_hex_encode bs : length (hex_encode bs) = (2 * length bs)%nat.
Proof.
  induction bs as [|b bs IH]; [done|].
  unfold hex_encode in *. cbn [flat_map app length]. lia.
Qed.

Lemma hex_digit_ascii d : 0 <= d < 16 -> 48 <= hex_digit d < 103.
Proof. unfold hex_digit. zcase; lia. Qed.

Lemma to_digit_hex_digit d : 0 <= d < 16 -> to_digit 16 (hex_digit d) = Some d.
Proof.
  intros H. unfold hex_digit, to_digit. destruct (Z.ltb_spec d 10).
  - replace ((48 <=? 48 + d) && (48 + d <=? 57)) with true by lia.
    replace (48 + d - 48) with d by lia. by replace (d <? 16) with true by lia.
  - replace ((48 <=? 87 + d) && (87 + d <=? 57)) with false by lia.
    replace ((97 <=? 87 + d) && (87 + d <=? 122)) with true by lia.
    replace (87 + d - 87) with d by lia. by replace (d <? 16) with true by lia.
Qed.

(** Two hexadecimal digits of a byte read back as the byte. *)
Lemma from_str_radix_hex_byte b :
  is_byte b ->
  from_str_radix u8_max 16 [hex_digit (b / 16); hex_digit (b mod 16)] = Some b.
Proof.
  intros Hb. unfold is_byte in Hb.
  pose proof (Z.mod_pos_bound b 16 ltac:(lia)).
  assert (0 <= b / 16 < 16) by (split; [apply Z.div_pos; lia|apply Z.div_lt_upper_bound; lia]).
  pose proof (hex_digit_ascii (b / 16) ltac:(lia)).
  assert (E : forall x y, x <> 43 -> from_str_radix u8_max 16 [x; y]
              = parse_digits 16 u8_max 0 [x; y]).
  { intros x y Hx. unfold from_str_radix. repeat case_match; subst; congruence. }
  rewrite E by lia. cbn [parse_digits].
  rewrite !to_digit_hex_digit by lia.
  replace (0 * 16 + b / 16 <=? u8_max) with true by (unfold u8_max; lia).
  pose proof (Z.div_mod b 16 ltac:(lia)).
  replace (_ <=? u8_max) with true by (unfold u8_max; lia). f_equal. lia.
Qed.

#[global] Arguments to_be_bytes : simpl never.
#[global] Arguments from_be_bytes : simpl never.
#[global] Arguments to_le_bytes : simpl never.
#[global] Arguments from_le_bytes : simpl never.


(** ** Lossy UTF-8 decoding

    [String::from_utf8_lossy], as the bytes of the resulting string: every
    maximal ill-formed subsequence becomes U+FFFD. *)
Definition REPLACEMENT : list Z := [239; 191; 189].
Definition in_range (lo hi b : Z) : bool := (lo <=? b) && (b <=? hi).
Definition is_cont (b : Z) : bool := in_range 128 191 b.
(** Allowed second bytes of three- and four-byte sequences. *)
Definition second3 (b0 b1 : Z) : bool :=
  if b0 =? 224 then in_range 160 191 b1
  else if b0 =? 237 then in_range 128 159 b1 else is_cont b1.
Definition second4 (b0 b1 : Z) : bool :=
  if b0 =? 240 then in_range 144 191 b1
  else if b0 =? 244 then in_range 128 143 b1 else is_cont b1.

Fixpoint from_utf8_lossy (s : list Z) : list Z :=
  match s with
  | [] => []
  | b0 :: s1 =>
    if b0 <? 128 then b0 :: from_utf8_lossy s1
    else if in_range 194 223 b0 then
      match s1 with
      | b1 :: s2 => if is_cont b1 then b0 :: b1 :: from_utf8_lossy s2
                    else REPLACEMENT ++ from_utf8_lossy s1
      | [] => REPLACEMENT
      end
    else if in_range 224 239 b0 then
      match s1 with
      | b1 :: s2 =>
        if second3 b0 b1 then
          match s2 with
          | b2 :: s3 => if is_cont b2 then b0 :: b1 :: b2 :: from_utf8_lossy s3
                        else REPLACEMENT ++ from_utf8_lossy s2
          | [] => REPLACEMENT
          end
        else REPLACEMENT ++ from_utf8_lossy s1
      | [] => REPLACEMENT
      end
    else if in_range 240 244 b0 then
      match s1 with
      | b1 :: s2 =>
        if second4 b0 b1 then
          match s2 with
          | b2 :: s3 =>
            if is_cont b2 then
              match s3 with
              | b3 :: s4 => if is_cont b3 then b0 :: b1 :: b2 :: b3 :: from_utf8_lossy s4
                            else REPLACEMENT ++ from_utf8_lossy s3
              | [] => REPLACEMENT
              end
            else REPLACEMENT ++ from_utf8_lossy s2
          | [] => REPLACEMENT
          end
        else REPLACEMENT ++ from_utf8_lossy s1
      | [] => REPLACEMENT
      end
    else REPLACEMENT ++ from_utf8_lossy s1
  end.

(** Well-formed UTF-8: what lossy decoding leaves unchanged. *)
Definition is_str (s : list Z) : Prop := from_utf8_lossy s = s.

Definition is_ascii (s : list Z) : bool := forallb (fun b => b <? 128) s.

Lemma ascii_is_str s : is_ascii s = true -> is_str s.
Proof.
  unfold is_str. induction s as [|b s IH]; [done|]. cbn. intros [Hb Hs]%andb_true_iff.
  rewrite Hb. f_equal. by apply IH.
Qed.
