(* ===== verification/Text.v ===== *)
(** * Text

    The string operations of the standard library the program parses with.
    A [str] is the list of its characters (Unicode scalar values); [txt] of
    Bytes.v gives the characters of an ASCII literal. *)
From S2P Require Import Prelude Bytes.

(** [char::is_whitespace]: the White_Space property. *)
Definition is_whitespace (c : Z) : bool :=
  ((9 <=? c) && (c <=? 13)) || (c =? 32) || (c =? 133) || (c =? 160) || (c =? 5760)
  || ((8192 <=? c) && (c <=? 8202)) || (c =? 8232) || (c =? 8233) || (c =? 8239)
  || (c =? 8287) || (c =? 12288).

(** [char::is_control]: general category Cc. *)
Definition is_control (c : Z) : bool :=
  ((0 <=? c) && (c <=? 31)) || ((127 <=? c) && (c <=? 159)).

(** Bytes of a character in UTF-8. *)
Definition len_utf8 (c : Z) : Z :=
  if c <? 128 then 1 else if c <? 2048 then 2 else if c <? 65536 then 3 else 4.
(** [str::len]. *)
Definition str_len (s : list Z) : Z := zsum (map len_utf8 s).

Fixpoint drop_while (p : Z -> bool) (s : list Z) : list Z :=
  match s with
  | [] => []
  | c :: s' => if p c then drop_while p s' else s
  end.

Definition trim_start (s : list Z) : list Z := drop_while is_whitespace s.
Definition trim_end (s : list Z) : list Z := rev (drop_while is_whitespace (rev s)).
Definition trim (s : list Z) : list Z := trim_end (trim_start s).

(** [str::split(c)]: always at least one piece. *)
Fixpoint split_on (c : Z) (s : list Z) : list (list Z) :=
  match s with
  | [] => [[]]
  | x :: s' =>
    if x =? c then [] :: split_on c s'
    else match split_on c s' with
         | p :: ps => (x :: p) :: ps
         | [] => [[x]]
         end
  end.

(** [str::split_whitespace]: the non-empty maximal runs without whitespace. *)
Fixpoint split_ws_aux (cur : list Z) (s : list Z) : list (list Z) :=
  match s with
  | [] => match cur with [] => [] | _ => [rev cur] end
  | c :: s' =>
    if is_whitespace c
    then match cur with [] => split_ws_aux [] s' | _ => rev cur :: split_ws_aux [] s' end
    else split_ws_aux (c :: cur) s'
  end.
Definition split_whitespace (s : list Z) : list (list Z) := split_ws_aux [] s.

(** [str::lines]: pieces ended by a newline, a trailing carriage return
    removed; a final newline ends the last line and starts no other. *)
Definition strip_cr (l : list Z) : list Z :=
  match rev l with 13 :: r => rev r | _ => l end.
Definition lines (s : list Z) : list (list Z) :=
  let ps := split_on 10 s in
  let complete := removelast ps in
  let rest := List.last ps [] in
  map strip_cr complete ++ match rest with [] => [] | _ => [rest] end.

(** [str::to_lowercase], exact on ASCII.  Of the other characters only the
    Kelvin sign lowers to an ASCII letter alone, so comparing the result
    with an ASCII literal is exact for every input. *)
Definition lower_char (c : Z) : Z :=
  if (65 <=? c) && (c <=? 90) then c + 32 else if c =? 8490 then 107 else c.
Definition to_lowercase (s : list Z) : list Z := map lower_char s.

(** [char::to_ascii_lowercase] on each character. *)
Definition ascii_lower_char (c : Z) : Z := if (65 <=? c) && (c <=? 90) then c + 32 else c.
Definition to_ascii_lowercase (s : list Z) : list Z := map ascii_lower_char s.

Fixpoint starts_with (p s : list Z) : bool :=
  match p, s with
  | [], _ => true
  | a :: p, b :: s => (a =? b) && starts_with p s
  | _ :: _, [] => false
  end.

Definition strip_prefix (p s : list Z) : option (list Z) :=
  if starts_with p s then Some (drop (length p) s) else None.

(** [str::strip_suffix]. *)
Definition strip_suffix (p s : list Z) : option (list Z) :=
  option_map (@rev Z) (strip_prefix (rev p) (rev s)).

(** [str::to_uppercase], exact on ASCII.  Of the other characters only the
    dotless i and the long s raise to a single ASCII letter, and none that
    raises to several gives letters a caller compares with. *)
Definition upper_char (c : Z) : Z :=
  if (97 <=? c) && (c <=? 122) then c - 32
  else if c =? 305 then 73 else if c =? 383 then 83 else c.
Definition to_uppercase (s : list Z) : list Z := map upper_char s.

(** [str::trim_start_matches(c)], [trim_end_matches(c)], [ends_with(c)]. *)
Definition trim_start_matches (c : Z) (s : list Z) : list Z := drop_while (Z.eqb c) s.
Definition trim_end_matches (c : Z) (s : list Z) : list Z := rev (drop_while (Z.eqb c) (rev s)).
Definition ends_with_char (c : Z) (s : list Z) : bool :=
  match rev s with x :: _ => x =? c | [] => false end.

(** [str::split_once]: at the first occurrence of a pattern. *)
Fixpoint split_once (p s : list Z) : option (list Z * list Z) :=
  if starts_with p s then Some ([], drop (length p) s)
  else match s with
       | [] => None
       | c :: s => option_map (fun '(a, b) => (c :: a, b)) (split_once p s)
       end.

Definition str_eqb (a b : list Z) : bool := bool_decide (a = b).

Definition contains_char (c : Z) (s : list Z) : bool := existsb (Z.eqb c) s.

(** [String::as_bytes]: the UTF-8 of the characters. *)
Definition encode_char (c : Z) : list Z :=
  if c <? 128 then [c]
  else if c <? 2048 then [192 + c / 64; 128 + c mod 64]
  else if c <? 65536 then [224 + c / 4096; 128 + c / 64 mod 64; 128 + c mod 64]
  else [240 + c / 262144; 128 + c / 4096 mod 64; 128 + c / 64 mod 64; 128 + c mod 64].
Definition as_bytes (s : list Z) : list Z := concat (map encode_char s).

(** The characters of well-formed UTF-8. *)
Fixpoint chars (bytes : list Z) : list Z :=
  match bytes with
  | [] => []
  | b :: l =>
    if b <? 128 then b :: chars l
    else
      match l with
      | [] => []
      | b1 :: l =>
        if b <? 224 then ((b - 192) * 64 + (b1 - 128)) :: chars l
        else
          match l with
          | [] => []
          | b2 :: l =>
            if b <? 240 then ((b - 224) * 4096 + (b1 - 128) * 64 + (b2 - 128)) :: chars l
            else
              match l with
              | [] => []
              | b3 :: l =>
                ((b - 240) * 262144 + (b1 - 128) * 4096 + (b2 - 128) * 64 + (b3 - 128)) :: chars l
              end
          end
      end
  end.

(** ** Facts *)

(** A Unicode scalar value fits 21 bits. *)
Definition is_char (c : Z) : Prop := 0 <= c < 2097152.

Lemma chars_as_bytes s : Forall is_char s -> chars (as_bytes s) = s.
Proof.
  unfold is_char. induction 1 as [|c s Hc _ IH]; [done|]. unfold as_bytes. cbn [map concat].
  fold (as_bytes s). unfold encode_char.
  pose proof (Z.mod_pos_bound c 64 ltac:(lia)). pose proof (Z.div_mod c 64 ltac:(lia)).
  destruct (Z.ltb_spec c 128).
  { cbn [app chars]. rewrite (proj2 (Z.ltb_lt c 128)) by done. by rewrite IH. }
  destruct (Z.ltb_spec c 2048).
  { assert (2 <= c / 64 < 32) by lia. cbn [app chars].
    rewrite (proj2 (Z.ltb_ge _ 128)) by lia. rewrite (proj2 (Z.ltb_lt _ 224)) by lia.
    rewrite IH. f_equal. lia. }
  pose proof (Z.mod_pos_bound (c / 64) 64 ltac:(lia)).
  pose proof (Z.div_mod (c / 64) 64 ltac:(lia)).
  assert (E2 : c / 64 / 64 = c / 4096) by (by rewrite Z.div_div by lia).
  destruct (Z.ltb_spec c 65536).
  { assert (0 <= c / 4096 < 16) by lia. cbn [app chars].
    rewrite (proj2 (Z.ltb_ge _ 128)) by lia. rewrite (proj2 (Z.ltb_ge _ 224)) by lia.
    rewrite (proj2 (Z.ltb_lt _ 240)) by lia. rewrite IH. f_equal. lia. }
  pose proof (Z.mod_pos_bound (c / 4096) 64 ltac:(lia)).
  pose proof (Z.div_mod (c / 4096) 64 ltac:(lia)).
  assert (E3 : c / 4096 / 64 = c / 262144) by (by rewrite Z.div_div by lia).
  assert (0 <= c / 262144 < 8) by lia. cbn [app chars].
  rewrite (proj2 (Z.ltb_ge _ 128)) by lia. rewrite (proj2 (Z.ltb_ge _ 224)) by lia.
  rewrite (proj2 (Z.ltb_ge _ 240)) by lia. rewrite IH. f_equal. lia.
Qed.

Lemma starts_with_app p s : starts_with p (p ++ s) = true.
Proof. induction p as [|a p IH]; [done|]. cbn. by rewrite Z.eqb_refl, IH. Qed.

Lemma starts_with_spec p s : starts_with p s = true <-> exists r, s = p ++ r.
Proof.
  split; [|intros [r ->]; apply starts_with_app].
  revert s. induction p as [|a p IH]; intros s; [by exists s|].
  destruct s as [|b s]; [done|]. cbn. intros [Hab Hs]%andb_true_iff.
  apply Z.eqb_eq in Hab as ->. destruct (IH s Hs) as [r ->]. by exists r.
Qed.

Lemma strip_suffix_app s p : strip_suffix p (s ++ p) = Some s.
Proof.
  unfold strip_suffix, strip_prefix. rewrite rev_app_distr, starts_with_app. cbn.
  by rewrite drop_app_length, rev_involutive.
Qed.

Lemma strip_suffix_spec s p r : strip_suffix p s = Some r <-> s = r ++ p.
Proof.
  split; [|intros ->; apply strip_suffix_app]. unfold strip_suffix, strip_prefix.
  destruct (starts_with (rev p) (rev s)) eqn:E; [|done]. cbn. intros [= <-].
  apply starts_with_spec in E as [q Hq]. rewrite Hq, drop_app_length.
  rewrite <- (rev_involutive s), Hq, rev_app_distr. by rewrite rev_involutive.
Qed.

Lemma str_eqb_eq a b : str_eqb a b = true <-> a = b.
Proof. apply bool_decide_eq_true. Qed.

Lemma drop_while_head p s c r : drop_while p s = c :: r -> p c = false.
Proof.
  induction s as [|x s IH]; [done|]. cbn. destruct (p x) eqn:E; [done|]. by intros [= -> ->].
Qed.

Lemma trim_no_leading s c r : trim_start s = c :: r -> is_whitespace c = false.
Proof. apply drop_while_head. Qed.

Lemma drop_while_all p s r : Forall (fun c => p c = true) s -> drop_while p (s ++ r) = drop_while p r.
Proof. induction 1 as [|c s Hc _ IH]; [done|]. cbn. by rewrite Hc. Qed.

Lemma drop_while_id p s c r : s = c :: r -> p c = false -> drop_while p s = s.
Proof. intros -> Hc. cbn. by rewrite Hc. Qed.

Lemma split_once_char c a b :
  Forall (fun x => x <> c) a -> split_once [c] (a ++ c :: b) = Some (a, b).
Proof.
  induction 1 as [|x a Hx _ IH]; cbn [app split_once starts_with].
  - by rewrite Z.eqb_refl.
  - replace (c =? x) with false by lia. cbn [andb]. cbn [app] in IH. by rewrite IH.
Qed.
Lemma split_once_none c s : Forall (fun x => x <> c) s -> split_once [c] s = None.
Proof.
  induction 1 as [|x s Hx _ IH]; [done|]. cbn [split_once starts_with].
  replace (c =? x) with false by lia. cbn [andb]. by rewrite IH.
Qed.
Lemma split_once_spec p s a b : split_once p s = Some (a, b) -> s = a ++ p ++ b.
Proof.
  revert a b. induction s as [|c s IH]; intros a b; cbn [split_once].
  - destruct p; [|done]. by intros [= <- <-].
  - destruct (starts_with p (c :: s)) eqn:E.
    + apply starts_with_spec in E as [r E]. rewrite E, drop_app_length. by intros [= <- <-].
    + destruct (split_once p s) as [[a' b']|]; [|done]. cbn. intros [= <- <-]. by rewrite (IH a' b').
Qed.
