(* ===== verification/Fmt.v ===== *)
(** * Printing and reading numbers

    What the language's formatter writes for an integer, for a double with a
    fixed number of decimals -- the exact binary value rounded to the nearest
    decimal, ties to even -- and for a double in full; and what its parsers
    read.  Strings are characters. *)
From Stdlib Require Import SpecFloat.
From S2P Require Import Prelude Bytes Text Float.

(** ** Integers *)
Fixpoint dec_aux (fuel : nat) (z : Z) : list Z :=
  match fuel with
  | O => []
  | S fuel => (if z <? 10 then [] else dec_aux fuel (z / 10)) ++ [48 + z mod 10]
  end.
(** An unsigned integer's [Display]; a number has at most one decimal digit
    per binary digit, so the fuel suffices ([dec_parse]). *)
Definition dec (z : Z) : list Z := dec_aux (S (Z.to_nat (Z.log2 z))) z.

(** [{:0w}]. *)
Definition zero_pad (w : nat) (s : list Z) : list Z := repeat 48 (w - length s) ++ s.
(** [{:>w}] and [{:<w}], on strings of one column per character. *)
Definition pad_left (w : nat) (s : list Z) : list Z := repeat 32 (w - length s) ++ s.
Definition pad_right (w : nat) (s : list Z) : list Z := s ++ repeat 32 (w - length s).

(** ** Doubles *)

(** [num / den] to the nearest integer, ties to even. *)
Definition round_half_even (num den : Z) : Z :=
  let q := num / den in
  let r := num mod den in
  if 2 * r <? den then q
  else if den <? 2 * r then q + 1
  else if Z.even q then q else q + 1.

(** The magnitude in units of [10^-n]. *)
Definition scaled (n : nat) (m : positive) (e : Z) : Z :=
  let p := 10 ^ Z.of_nat n in
  if 0 <=? e then Z.pos m * 2 ^ e * p else round_half_even (Z.pos m * p) (2 ^ (- e)).

(** [z] units of [10^-n]. *)
Definition decimals (n : nat) (z : Z) : list Z :=
  match n with
  | O => dec z
  | S _ =>
    let p := 10 ^ Z.of_nat n in
    dec (z / p) ++ [46] ++ zero_pad n (dec (z mod p))
  end.

Definition sign_prefix (plus s : bool) : list Z := if s then [45] else if plus then [43] else [].

(** [{:.n}], and with [plus] [{:+.n}]. *)
Definition fixed_sign (plus : bool) (n : nat) (x : f64) : list Z :=
  match x with
  | S754_nan => txt "NaN"
  | S754_infinity s => sign_prefix plus s ++ txt "inf"
  | S754_zero s => sign_prefix plus s ++ decimals n 0
  | S754_finite s m e => sign_prefix plus s ++ decimals n (scaled n m e)
  end.
Definition fixed (n : nat) (x : f64) : list Z := fixed_sign false n x.

(** ** Integers read back *)
Lemma parse_digits_snoc radix max acc s b :
  parse_digits radix max acc (s ++ [b])
  = match parse_digits radix max acc s with
    | None => None
    | Some a => match to_digit radix b with
                | None => None
                | Some d => if a * radix + d <=? max then Some (a * radix + d) else None
                end
    end.
Proof.
  revert acc. induction s as [|c s IH]; intros acc; cbn [app parse_digits].
  - by destruct (to_digit radix b).
  - destruct (to_digit radix c) as [d|]; [|done]. destruct (_ <=? max); [apply IH|done].
Qed.

Lemma to_digit_dec d : 0 <= d < 10 -> to_digit 10 (48 + d) = Some d.
Proof.
  intros H. unfold to_digit. replace ((48 <=? 48 + d) && (48 + d <=? 57)) with true by lia.
  replace (48 + d - 48) with d by lia. by rewrite (proj2 (Z.ltb_lt d 10)) by lia.
Qed.

Lemma dec_aux_length n z k : 0 <= z < 10 ^ Z.of_nat (S k) -> (length (dec_aux n z) <= S k)%nat.
Proof.
  revert z k. induction n as [|n IH]; intros z k Hz; cbn [dec_aux]; [cbn; lia|]. rewrite length_app. cbn [length].
  destruct (Z.ltb_spec z 10); [cbn; lia|]. destruct k as [|k]; [cbn in Hz; lia|].
  rewrite (Nat2Z.inj_succ (S k)), Z.pow_succ_r in Hz by lia.
  assert (Hd : 0 <= z / 10 < 10 ^ Z.of_nat (S k))
    by (revert Hz; generalize (10 ^ Z.of_nat (S k)); intros q Hz; Z.to_euclidean_division_equations; lia).
  specialize (IH (z / 10) k Hd). lia.
Qed.
Lemma dec_aux_parse max fuel z :
  0 <= z < 2 ^ Z.of_nat fuel -> z <= max -> parse_digits 10 max 0 (dec_aux fuel z) = Some z.
Proof.
  revert z. induction fuel as [|fuel IH]; intros z Hz Hm; cbn [dec_aux].
  - cbn [Z.of_nat] in Hz. cbn. f_equal. lia.
  - rewrite Nat2Z.inj_succ, Z.pow_succ_r in Hz by lia.
    pose proof (Z.mod_pos_bound z 10 ltac:(lia)). pose proof (Z.div_mod z 10 ltac:(lia)).
    rewrite parse_digits_snoc, to_digit_dec by lia. destruct (Z.ltb_spec z 10).
    + cbn [parse_digits]. rewrite Z.mod_small by lia. by replace (0 * 10 + z <=? max) with true by lia.
    + rewrite IH by (Z.to_euclidean_division_equations; lia).
      replace (z / 10 * 10 + z mod 10) with z by lia. by replace (z <=? max) with true by lia.
Qed.

Lemma dec_aux_digits fuel z : 0 <= z -> Forall (fun c => 48 <= c <= 57) (dec_aux fuel z).
Proof.
  revert z. induction fuel as [|fuel IH]; intros z Hz; cbn [dec_aux]; [done|].
  apply Forall_app. split.
  - destruct (z <? 10); [done|]. apply IH. by apply Z.div_pos.
  - constructor; [|done]. pose proof (Z.mod_pos_bound z 10). lia.
Qed.
Lemma dec_digits z : 0 <= z -> Forall (fun c => 48 <= c <= 57) (dec z).
Proof. apply dec_aux_digits. Qed.

Lemma dec_nonempty z : dec z <> [].
Proof. unfold dec. cbn [dec_aux]. by destruct (if z <? 10 then [] else _). Qed.

Lemma from_str_radix_digits max s :
  s <> [] -> Forall (fun c => 48 <= c <= 57) s -> from_str_radix max 10 s = parse_digits 10 max 0 s.
Proof.
  intros Hs Hd. destruct s as [|c s]; [done|]. apply Forall_cons in Hd as [Hc _].
  unfold from_str_radix. repeat case_match; subst; try done; lia.
Qed.

(** An integer's printed form is read back by the parser. *)
Lemma dec_parse max z : 0 <= z <= max -> parse_uint max (dec z) = Some z.
Proof.
  intros Hz. unfold parse_uint. rewrite from_str_radix_digits by (apply dec_nonempty || (apply dec_digits; lia)).
  apply dec_aux_parse; [|lia]. split; [lia|]. destruct (Z.eq_dec z 0) as [->|]; [by cbn|].
  pose proof (Z.log2_spec z ltac:(lia)) as [_ H]. rewrite Nat2Z.inj_succ, Z2Nat.id by apply Z.log2_nonneg.
  exact H.
Qed.

(** ** Accuracy *)
Lemma round_half_even_spec num den :
  0 < den -> 2 * Z.abs (round_half_even num den * den - num) <= den.
Proof.
  intros Hd. unfold round_half_even. pose proof (Z.div_mod num den ltac:(lia)).
  pose proof (Z.mod_pos_bound num den Hd).
  destruct (Z.ltb_spec (2 * (num mod den)) den); [nia|].
  destruct (Z.ltb_spec den (2 * (num mod den))); [nia|]. destruct (Z.even _); nia.
Qed.

(** The printed decimal is the exact value, or at most half a unit of the
    last place away. *)
Lemma scaled_spec n m e :
  (0 <= e -> scaled n m e = Z.pos m * 2 ^ e * 10 ^ Z.of_nat n) /\
  (e < 0 -> 2 * Z.abs (scaled n m e * 2 ^ (- e) - Z.pos m * 10 ^ Z.of_nat n) <= 2 ^ (- e)).
Proof.
  unfold scaled. split; intros He.
  - by rewrite (proj2 (Z.leb_le 0 e)) by done.
  - rewrite (proj2 (Z.leb_gt 0 e)) by done. apply round_half_even_spec. lia.
Qed.

#[export] Hint Resolve dec_digits dec_nonempty : xfr.

(** ** Reading numbers, with the error texts *)
Definition EMPTY_INT : list Z := txt "cannot parse integer from empty string".
Definition INVALID_DIGIT : list Z := txt "invalid digit found in string".
Definition POS_OVERFLOW : list Z := txt "number too large to fit in target type".

Fixpoint parse_digits_text (radix max acc : Z) (s : list Z) : result Z (list Z) :=
  match s with
  | [] => Ok acc
  | b :: s =>
    match to_digit radix b with
    | None => Err INVALID_DIGIT
    | Some d =>
      if acc * radix + d <=? max then parse_digits_text radix max (acc * radix + d) s else Err POS_OVERFLOW
    end
  end.
(** [str::parse::<uN>]. *)
Definition parse_uint_text (max : Z) (s : list Z) : result Z (list Z) :=
  match s with
  | [] => Err EMPTY_INT
  | [43] | [45] => Err INVALID_DIGIT
  | 43 :: s => parse_digits_text 10 max 0 s
  | s => parse_digits_text 10 max 0 s
  end.

Lemma parse_digits_text_ok radix max acc s : ok (parse_digits_text radix max acc s) = parse_digits radix max acc s.
Proof.
  revert acc. induction s as [|c s IH]; intros acc; [done|]. cbn [parse_digits_text parse_digits].
  destruct (to_digit radix c); [|done]. by destruct (_ <=? max).
Qed.
Lemma parse_uint_text_ok max s : ok (parse_uint_text max s) = parse_uint max s.
Proof.
  unfold parse_uint_text, parse_uint, from_str_radix.
  repeat case_match; try done; apply parse_digits_text_ok.
Qed.
Lemma parse_uint_text_dec max z : 0 <= z <= max -> parse_uint_text max (dec z) = Ok z.
Proof.
  intros Hz. pose proof (parse_uint_text_ok max (dec z)) as H. rewrite dec_parse in H by done.
  destruct (parse_uint_text max (dec z)); [|done]. by injection H as ->.
Qed.

(** [m * 10^e] rounded to the nearest double: the quotient keeps more bits than
    a double holds, and whether anything was cut off. *)
Definition of_decimal (s : bool) (m e : Z) : f64 :=
  let z := fun x => if s then - x else x in
  if m =? 0 then S754_zero s
  else if 0 <=? e then binary_normalize prec emax (z (m * 10 ^ e)) 0 s
  else
    let d := 10 ^ (- e) in
    let shift := Z.max 0 (70 + Z.log2 d - Z.log2 m) in
    let q := m * 2 ^ shift / d in
    let sticky := if m * 2 ^ shift mod d =? 0 then 0 else 1 in
    binary_normalize prec emax (z (2 * q + sticky)) (- shift - 1) s.

Fixpoint take_digits (acc count : Z) (s : list Z) : Z * Z * list Z :=
  match s with
  | c :: s' => if (48 <=? c) && (c <=? 57) then take_digits (acc * 10 + (c - 48)) (count + 1) s' else (acc, count, s)
  | [] => (acc, count, [])
  end.

Definition INVALID_FLOAT : list Z := txt "invalid float literal".
(** The exponent after the digits: [e], a sign, at least one digit. *)
Definition parse_exponent (s : list Z) : option Z :=
  match s with
  | [] => Some 0
  | c :: s =>
    if (c =? 101) || (c =? 69) then
      let '(neg, s) := match s with 43 :: s => (false, s) | 45 :: s => (true, s) | _ => (false, s) end in
      match take_digits 0 0 s with
      | (x, n, []) => if 0 <? n then Some (if neg : bool then - x else x) else None
      | _ => None
      end
    else None
  end.

(** [str::parse::<f64>]. *)
Definition parse_f64 (s : list Z) : result f64 (list Z) :=
  match s with
  | [] => Err (txt "cannot parse float from empty string")
  | _ =>
    let '(neg, t) := match s with 43 :: t => (false, t) | 45 :: t => (true, t) | _ => (false, s) end in
    let l := to_ascii_lowercase t in
    if str_eqb l (txt "inf") || str_eqb l (txt "infinity") then Ok (S754_infinity neg)
    else if str_eqb l (txt "nan") then Ok S754_nan
    else
      let '(m, n, t) := take_digits 0 0 t in
      let '(m, n', t) := match t with 46 :: t => take_digits m 0 t | _ => (m, 0, t) end in
      if n + n' =? 0 then Err INVALID_FLOAT
      else match parse_exponent t with
           | Some e => Ok (of_decimal neg m (e - n'))
           | None => Err INVALID_FLOAT
           end
  end.

Lemma parse_f64_examples :
  parse_f64 (txt "0.1") = Ok (fdiv (of_int 1) (of_int 10)) /\ parse_f64 (txt "1e2") = Ok (of_int 100) /\
  parse_f64 (txt "-.5") = Ok (fdiv (of_int (-1)) (of_int 2)) /\ parse_f64 (txt ".") = Err INVALID_FLOAT /\
  parse_f64 (txt "123456.789e3") = Ok (of_int 123456789) /\
  parse_f64 (txt "5e-324") = Ok (S754_finite false 1 (-1074)).
Proof. vm_compute. done. Qed.

(** ** The shortest text of a double

    [{}] prints the decimal of the fewest digits that reads back as the same
    double, the closest one if there are several, without an exponent.  No
    double needs more than seventeen digits. *)

(** The positive double [m * 2^e] as a fraction. *)
Definition fraction (m : positive) (e : Z) : Z * Z :=
  if 0 <=? e then (Z.pos m * 2 ^ e, 1) else (Z.pos m, 2 ^ (- e)).
(** The power of ten of its first digit. *)
Definition decimal_exponent (num den : Z) : Z :=
  if den <=? num then Z.of_nat (length (dec (num / den))) - 1
  else - Z.of_nat (length (dec (div_ceil den num - 1))).

(** The closest multiple of [10^u] that reads back, if one does. *)
Definition reads_back (m : positive) (e d u : Z) : bool :=
  match of_decimal false d u with S754_finite false m' e' => (Z.pos m =? Z.pos m') && (e =? e') | _ => false end.
Definition nearest_reading (m : positive) (e u : Z) : option Z :=
  let '(num, den) := fraction m e in
  let '(a, b) := if 0 <=? u then (num, den * 10 ^ u) else (num * 10 ^ (- u), den) in
  let lo := a / b in
  let r := a mod b in
  let first := if 2 * r <=? b then lo else lo + 1 in
  let second := if 2 * r <=? b then lo + 1 else lo in
  if reads_back m e first u then Some first else if reads_back m e second u then Some second else None.

(** Digits and the power of ten of the last, from [n] digits on. *)
Fixpoint shortest (fuel : nat) (m : positive) (e u : Z) : option (Z * Z) :=
  match fuel with
  | O => None
  | S fuel =>
    match nearest_reading m e u with
    | Some d => Some (if d mod 10 =? 0 then (d / 10, u + 1) else (d, u))
    | None => shortest fuel m e (u - 1)
    end
  end.
Definition MAX_DIGITS : nat := 17.

Definition display_digits (d u : Z) : list Z :=
  if 0 <=? u then dec d ++ repeat 48 (Z.to_nat u) else decimals (Z.to_nat (- u)) d.

Definition display_f64 (x : f64) : list Z :=
  match x with
  | S754_nan => txt "NaN"
  | S754_infinity s => sign_prefix false s ++ txt "inf"
  | S754_zero s => sign_prefix false s ++ txt "0"
  | S754_finite s m e =>
    let '(num, den) := fraction m e in
    sign_prefix false s ++
    match shortest MAX_DIGITS m e (decimal_exponent num den) with
    | Some (d, u) => display_digits d u
    | None => []
    end
  end.

Lemma display_f64_examples :
  display_f64 (fdiv (of_int 1) (of_int 10)) = txt "0.1" /\ display_f64 (of_int 100) = txt "100" /\
  display_f64 (fdiv (of_int (-25)) (of_int 10)) = txt "-2.5" /\ display_f64 (of_int (10 ^ 23)) = txt "100000000000000000000000" /\
  display_f64 (fdiv (of_int 1) (of_int 3)) = txt "0.3333333333333333" /\
  display_f64 (fadd (fdiv (of_int 1) (of_int 10)) (fdiv (of_int 2) (of_int 10))) = txt "0.30000000000000004" /\
  display_f64 (S754_finite false 4503599627370496 (-53)) = txt "0.5".
Proof. vm_compute. done. Qed.

(** What numbers are printed with. *)
Definition numeric (c : Z) : Prop := 48 <= c <= 57 \/ c = 45 \/ c = 46 \/ In c (txt "NaNinf").

Lemma dec_numeric z : Forall numeric (dec z).
Proof.
  unfold dec. generalize (S (Z.to_nat (Z.log2 z))). intros fuel. revert z.
  induction fuel as [|fuel IH]; intros z; cbn [dec_aux]; [constructor|]. apply Forall_app. split.
  - destruct (z <? 10); [constructor|apply IH].
  - constructor; [|constructor]. left. pose proof (Z.mod_pos_bound z 10). lia.
Qed.

Lemma zeros_numeric n : Forall numeric (repeat 48 n).
Proof. apply Forall_forall. intros c H%list_elem_of_In%repeat_spec. subst. left. lia. Qed.

Lemma decimals_numeric n z : Forall numeric (decimals n z).
Proof.
  unfold decimals. destruct n as [|n]; [apply dec_numeric|].
  apply Forall_app. split; [apply dec_numeric|]. constructor; [right; by right; left|].
  apply Forall_app. split; [apply zeros_numeric|apply dec_numeric].
Qed.

Lemma sign_numeric s : Forall numeric (sign_prefix false s).
Proof. destruct s; [|constructor]. constructor; [right; by left|constructor]. Qed.

Lemma letters_numeric s : Forall (fun c => In c (txt "NaNinf")) s -> Forall numeric s.
Proof. intros H. eapply Forall_impl; [exact H|]. intros c Hc. by right; right; right. Qed.

Lemma fixed_numeric n x : Forall numeric (fixed n x).
Proof.
  unfold fixed, fixed_sign. destruct x as [s|s| |s m e].
  - apply Forall_app. split; [apply sign_numeric|apply decimals_numeric].
  - apply Forall_app. split; [apply sign_numeric|]. apply letters_numeric. repeat (constructor; [cbn; tauto|]). constructor.
  - apply letters_numeric. repeat (constructor; [cbn; tauto|]). constructor.
  - apply Forall_app. split; [apply sign_numeric|]. apply decimals_numeric.
Qed.

Lemma display_numeric x : Forall numeric (display_f64 x).
Proof.
  unfold display_f64. destruct x as [s|s| |s m e].
  - apply Forall_app. split; [apply sign_numeric|]. by apply (zeros_numeric 1).
  - apply Forall_app. split; [apply sign_numeric|]. apply letters_numeric. repeat (constructor; [cbn; tauto|]). constructor.
  - apply letters_numeric. repeat (constructor; [cbn; tauto|]). constructor.
  - destruct (fraction m e) as [num den]. apply Forall_app. split; [apply sign_numeric|].
    destruct (shortest _ _ _ _) as [[d u]|]; [|constructor].
    unfold display_digits. destruct (0 <=? u); [|apply decimals_numeric].
    apply Forall_app. split; [apply dec_numeric|apply zeros_numeric].
Qed.
#[export] Hint Resolve dec_numeric fixed_numeric display_numeric : xfr.
