(* ===== verification/UdpWire.v ===== *)
(** * UDP wire formats (src/src/udp.rs)

    The data-packet header, the 36-byte receiver-progress feedback packet,
    the 24-byte single-port hello/ack packet, the hex routing token and the
    classifier of the shared socket. *)
From S2P Require Import Prelude Bytes.

Definition UDP_HEADER_SIZE : Z := 16.
Definition UDP_PAYLOAD_SIZE : Z := 1400.
Definition MAX_UDP_PAYLOAD_SIZE : Z := 65507.

Definition validate_payload_size (size : Z) : result unit unit :=
  if (UDP_HEADER_SIZE <=? size) && (size <=? MAX_UDP_PAYLOAD_SIZE)
  then Ok tt else Err tt.

(** ** Data packet header *)
Module UdpPacketHeader.
Record t := mk { sequence : Z; timestamp_us : Z }.

Definition wf (p : t) : Prop := fits 64 (sequence p) /\ fits 64 (timestamp_us p).

(** [encode]: whether the buffer was large enough, and the buffer after. *)
Definition encode (p : t) (buffer : list Z) : bool * list Z :=
  if len buffer <? UDP_HEADER_SIZE then (false, buffer)
  else
    let buffer := splice 0 (to_be_bytes 8 (sequence p)) buffer in
    let buffer := splice 8 (to_be_bytes 8 (timestamp_us p)) buffer in
    (true, buffer).

Definition decode (buffer : list Z) : option t :=
  if len buffer <? UDP_HEADER_SIZE then None
  else Some (mk (from_be_bytes (slice 0 8 buffer)) (from_be_bytes (slice 8 16 buffer))).
End UdpPacketHeader.

(** ** Receiver-progress feedback *)
Definition UDP_FEEDBACK_SIZE : Z := 36.
Definition UDP_FEEDBACK_MAGIC : list Z := [88; 70; 82; 70]. (* b"XFRF" *)
Definition UDP_FEEDBACK_VERSION : Z := 1.
Definition UDP_FEEDBACK_KIND_RECEIVER_PROGRESS : Z := 1.

Module UdpFeedbackPacket.
Record t := mk {
  stream_id : Z;
  elapsed_ms : Z;
  packets_received : Z;
  packets_lost : Z
}.

Definition wf (p : t) : Prop :=
  fits 16 (stream_id p) /\ fits 64 (elapsed_ms p) /\
  fits 64 (packets_received p) /\ fits 64 (packets_lost p).

Definition encode (p : t) (buffer : list Z) : bool * list Z :=
  if len buffer <? UDP_FEEDBACK_SIZE then (false, buffer)
  else
    let buffer := splice 0 UDP_FEEDBACK_MAGIC buffer in
    let buffer := splice 4 [UDP_FEEDBACK_VERSION] buffer in
    let buffer := splice 5 [UDP_FEEDBACK_KIND_RECEIVER_PROGRESS] buffer in
    let buffer := splice 6 (to_be_bytes 2 0) buffer in
    let buffer := splice 8 (to_be_bytes 2 (stream_id p)) buffer in
    let buffer := splice 10 (to_be_bytes 2 0) buffer in
    let buffer := splice 12 (to_be_bytes 8 (elapsed_ms p)) buffer in
    let buffer := splice 20 (to_be_bytes 8 (packets_received p)) buffer in
    let buffer := splice 28 (to_be_bytes 8 (packets_lost p)) buffer in
    (true, buffer).

Definition decode (buffer : list Z) : option t :=
  if negb (len buffer =? UDP_FEEDBACK_SIZE) then None
  else if negb (bool_decide (slice 0 4 buffer = UDP_FEEDBACK_MAGIC)) then None
  else if negb (nth 4 buffer 0 =? UDP_FEEDBACK_VERSION) then None
  else if negb (nth 5 buffer 0 =? UDP_FEEDBACK_KIND_RECEIVER_PROGRESS) then None
  else Some (mk (from_be_bytes (slice 8 10 buffer)) (from_be_bytes (slice 12 20 buffer))
                (from_be_bytes (slice 20 28 buffer)) (from_be_bytes (slice 28 36 buffer))).
End UdpFeedbackPacket.

(** ** Single-port hello and ack *)
Definition UDP_HELLO_MAGIC : list Z := [0; 88; 70; 82]. (* b"\x00XFR" *)
Definition UDP_HELLO_SIZE : Z := 24.
Definition UDP_HELLO_VERSION : Z := 1.
Definition UDP_HELLO_KIND_HELLO : Z := 1.
Definition UDP_HELLO_KIND_ACK : Z := 2.
Definition UDP_HELLO_TOKEN_LEN : nat := 16.
Definition UDP_HELLO_MAX_ATTEMPTS : nat := 50.

Module UdpHelloPacket.
Record t := mk { kind : Z; stream_index : Z; token : list Z }.

Definition known_kind (k : Z) : bool :=
  (k =? UDP_HELLO_KIND_HELLO) || (k =? UDP_HELLO_KIND_ACK).

Definition wf (p : t) : Prop :=
  known_kind (kind p) = true /\ fits 16 (stream_index p) /\
  length (token p) = UDP_HELLO_TOKEN_LEN /\ bytes_ok (token p).

Definition encode (p : t) : list Z :=
  let buffer := repeat 0 (Z.to_nat UDP_HELLO_SIZE) in
  let buffer := splice 0 UDP_HELLO_MAGIC buffer in
  let buffer := splice 4 [UDP_HELLO_VERSION] buffer in
  let buffer := splice 5 [kind p] buffer in
  let buffer := splice 6 (to_be_bytes 2 (stream_index p)) buffer in
  splice 8 (token p) buffer.

Definition decode (buffer : list Z) : option t :=
  if negb (len buffer =? UDP_HELLO_SIZE) then None
  else if negb (bool_decide (slice 0 4 buffer = UDP_HELLO_MAGIC)) then None
  else if negb (nth 4 buffer 0 =? UDP_HELLO_VERSION) then None
  else
    let kind := nth 5 buffer 0 in
    if negb (known_kind kind) then None
    else Some (mk kind (from_be_bytes (slice 6 8 buffer)) (slice 8 24 buffer)).
End UdpHelloPacket.

Definition encode_hello_token (token : list Z) : list Z := hex_encode token.

(** [s.as_bytes().chunks(2)]. *)
Fixpoint chunks2 (s : list Z) : list (list Z) :=
  match s with
  | [] => []
  | [a] => [[a]]
  | a :: b :: s => [a; b] :: chunks2 s
  end.

Definition parse_hello_token (s : list Z) : option (list Z) :=
  if negb (len s =? Z.of_nat UDP_HELLO_TOKEN_LEN * 2) || negb (is_ascii s) then None
  else mapM (from_str_radix u8_max 16) (chunks2 s).

(** ** The shared QUIC + hello socket *)
Inductive SharedSocketLane := XfrHello | Quic | XfrStray.

Definition classify_shared_datagram (datagram : list Z) : SharedSocketLane :=
  if (len datagram =? UDP_HELLO_SIZE)
     && bool_decide (slice 0 4 datagram = UDP_HELLO_MAGIC) then XfrHello
  else match datagram with
  | b :: _ =>
    if negb (Z.land b 128 =? 0) then Quic
    else if negb (Z.land b 64 =? 0) then Quic
    else XfrStray
  | [] => XfrStray
  end.

(** ** Round trips *)

(** Discharge a length guard of an encoder or decoder. *)
Ltac size_guard :=
  match goal with
  | |- context [len ?b <? ?n] => replace (len b <? n) with false;
      [|symmetry; apply Z.ltb_ge; unfold len; autorewrite with xfr list; cbn; lia]
  | |- context [len ?b =? ?n] => replace (len b =? n) with true;
      [|symmetry; apply Z.eqb_eq; unfold len; autorewrite with xfr list; cbn; lia]
  end; cbn [negb].

(** The bytes [UdpPacketHeader::encode] writes. *)
Definition header_bytes (p : UdpPacketHeader.t) : list Z :=
  to_be_bytes 8 (UdpPacketHeader.sequence p) ++ to_be_bytes 8 (UdpPacketHeader.timestamp_us p).

Lemma header_encode_bytes p buffer :
  (16 <= length buffer)%nat ->
  UdpPacketHeader.encode p buffer = (true, header_bytes p ++ drop 16 buffer).
Proof.
  intros H. unfold UdpPacketHeader.encode, UDP_HEADER_SIZE. size_guard.
  cbv zeta. fill_fields. reflexivity.
Qed.

Lemma length_header_bytes p : length (header_bytes p) = 16%nat.
Proof. unfold header_bytes. by rewrite length_app, !length_to_be_bytes. Qed.

Lemma header_decode_bytes p tail :
  UdpPacketHeader.wf p -> UdpPacketHeader.decode (header_bytes p ++ tail) = Some p.
Proof.
  intros [Hs Ht]. unfold UdpPacketHeader.decode, UDP_HEADER_SIZE.
  rewrite (proj2 (Z.ltb_ge _ _))
    by (unfold len; rewrite length_app, length_header_bytes; lia).
  unfold header_bytes.
  rewrite <- app_assoc, slice_app_l by (rewrite ?length_to_be_bytes; done).
  rewrite (slice_app_r (to_be_bytes 8 _) _ 8 16) by (rewrite ?length_to_be_bytes; done).
  rewrite !from_to_be_bytes by done. by destruct p.
Qed.

(** Every header the sender writes into a large enough buffer is read back by
    the receiver, whatever payload follows it. *)
Lemma header_roundtrip (p : UdpPacketHeader.t) (buffer : list Z) :
  UdpPacketHeader.wf p -> (16 <= length buffer)%nat ->
  exists out, UdpPacketHeader.encode p buffer = (true, out) /\
    length out = length buffer /\ drop 16 out = drop 16 buffer /\
    UdpPacketHeader.decode out = Some p.
Proof.
  intros Hp H. rewrite header_encode_bytes by done. eexists; split; [done|].
  split_and!.
  - rewrite length_app, length_drop, length_header_bytes. lia.
  - by rewrite <- (length_header_bytes p), drop_app_length.
  - by apply header_decode_bytes.
Qed.

(** The 36 bytes of a feedback packet. *)
Definition feedback_bytes (p : UdpFeedbackPacket.t) : list Z :=
  UDP_FEEDBACK_MAGIC ++ [UDP_FEEDBACK_VERSION] ++ [UDP_FEEDBACK_KIND_RECEIVER_PROGRESS]
  ++ [0; 0] ++ to_be_bytes 2 (UdpFeedbackPacket.stream_id p) ++ [0; 0]
  ++ to_be_bytes 8 (UdpFeedbackPacket.elapsed_ms p)
  ++ to_be_bytes 8 (UdpFeedbackPacket.packets_received p)
  ++ to_be_bytes 8 (UdpFeedbackPacket.packets_lost p).

Lemma feedback_encode_bytes p buffer :
  (36 <= length buffer)%nat ->
  UdpFeedbackPacket.encode p buffer = (true, feedback_bytes p ++ drop 36 buffer).
Proof.
  intros H. unfold UdpFeedbackPacket.encode, UDP_FEEDBACK_SIZE. size_guard.
  cbv zeta. fill_fields. unfold feedback_bytes. by rewrite <- !app_assoc.
Qed.

Lemma feedback_decode_bytes p :
  UdpFeedbackPacket.wf p -> UdpFeedbackPacket.decode (feedback_bytes p) = Some p.
Proof.
  intros (Hs & He & Hr & Hl). destruct p as [s e r l].
  cbn [UdpFeedbackPacket.stream_id UdpFeedbackPacket.elapsed_ms
       UdpFeedbackPacket.packets_received UdpFeedbackPacket.packets_lost] in *.
  pose proof (from_to_be_bytes 2 s Hs) as Es. pose proof (from_to_be_bytes 8 e He) as Ee.
  pose proof (from_to_be_bytes 8 r Hr) as Er. pose proof (from_to_be_bytes 8 l Hl) as El.
  unfold feedback_bytes; cbn.
  pose proof (length_to_be_bytes 2 s). pose proof (length_to_be_bytes 8 e).
  pose proof (length_to_be_bytes 8 r). pose proof (length_to_be_bytes 8 l).
  generalize dependent (to_be_bytes 2 s). generalize dependent (to_be_bytes 8 e).
  generalize dependent (to_be_bytes 8 r). generalize dependent (to_be_bytes 8 l).
  intros vl <- Ll vr <- Lr ve <- Le vs <- Ls.
  explode vl. explode vr. explode ve. explode vs.
  reflexivity.
Qed.

(** Feedback packets round-trip through a buffer of their exact size:
    every counter the server publishes is the one the client reads. *)
Lemma feedback_roundtrip (p : UdpFeedbackPacket.t) (buffer : list Z) :
  UdpFeedbackPacket.wf p -> len buffer = UDP_FEEDBACK_SIZE ->
  exists out, UdpFeedbackPacket.encode p buffer = (true, out) /\
    UdpFeedbackPacket.decode out = Some p.
Proof.
  intros Hp Hl. unfold len, UDP_FEEDBACK_SIZE in Hl.
  rewrite feedback_encode_bytes by lia. eexists; split; [done|].
  rewrite drop_ge, app_nil_r by lia. by apply feedback_decode_bytes.
Qed.

(** A buffer that is too short is left alone. *)
Lemma feedback_encode_short p buffer :
  len buffer < UDP_FEEDBACK_SIZE -> UdpFeedbackPacket.encode p buffer = (false, buffer).
Proof. intros H. unfold UdpFeedbackPacket.encode. by replace (_ <? _) with true by lia. Qed.

Definition hello_bytes (p : UdpHelloPacket.t) : list Z :=
  UDP_HELLO_MAGIC ++ [UDP_HELLO_VERSION] ++ [UdpHelloPacket.kind p]
  ++ to_be_bytes 2 (UdpHelloPacket.stream_index p) ++ UdpHelloPacket.token p.

Lemma hello_encode_bytes p :
  length (UdpHelloPacket.token p) = UDP_HELLO_TOKEN_LEN ->
  UdpHelloPacket.encode p = hello_bytes p.
Proof.
  intros H. unfold UdpHelloPacket.encode. cbv zeta. fill_fields.
  unfold hello_bytes. rewrite <- !app_assoc, H. cbn [drop app]. by rewrite app_nil_r.
Qed.

(** The hello format has exactly one encoding per packet: decoding
    accepts a datagram precisely when it is the encoding of the result. *)
Theorem hello_decode_iff (p : UdpHelloPacket.t) (buffer : list Z) :
  bytes_ok buffer ->
  UdpHelloPacket.decode buffer = Some p <->
  UdpHelloPacket.wf p /\ UdpHelloPacket.encode p = buffer.
Proof.
  intros Hok. split.
  - unfold UdpHelloPacket.decode.
    destruct (Z.eqb_spec (len buffer) UDP_HELLO_SIZE) as [Hl|]; [|done]; cbn [negb].
    assert (Hl' : length buffer = 24%nat) by (unfold len, UDP_HELLO_SIZE in Hl; lia).
    clear Hl. explode buffer.
    case_bool_decide as Hm; [|done]. cbn in Hm. injection Hm as -> -> -> ->. cbn.
    destruct (Z.eqb_spec b3 UDP_HELLO_VERSION) as [->|]; [|done]. cbn.
    destruct (UdpHelloPacket.known_kind b4) eqn:Hk; [|done]. cbn.
    intros [= <-]. split_bytes Hok.
    assert (Hidx : bytes_ok [b5; b6]) by join_bytes.
    split.
    + unfold UdpHelloPacket.wf; cbn. split_and!; [done| |done|join_bytes].
      apply (from_be_bytes_bound _ Hidx).
    + rewrite hello_encode_bytes by done. unfold hello_bytes.
      pose proof (to_from_be_bytes [b5; b6] Hidx) as E. cbn [length] in E.
      unfold slice; cbn -[to_be_bytes from_be_bytes]. by rewrite E.
  - intros [(Hk & Hi & Hl & Ht) <-]. rewrite hello_encode_bytes by done.
    destruct p as [k i t]; cbn in *. unfold hello_bytes; cbn.
    pose proof (from_to_be_bytes 2 i Hi) as Ei. pose proof (length_to_be_bytes 2 i) as Li.
    generalize dependent (to_be_bytes 2 i). intros v Ei Lv. subst i.
    unfold UDP_HELLO_TOKEN_LEN in Hl. explode v. explode t.
    unfold UdpHelloPacket.decode; cbn. by rewrite Hk.
Qed.

(** ** Routing tokens *)

Lemma chunks2_hex token :
  chunks2 (hex_encode token)
  = map (fun b => [hex_digit (b / 16); hex_digit (b mod 16)]) token.
Proof. induction token as [|b l IH]; [done|]. rewrite hex_encode_cons. cbn. by rewrite IH. Qed.

Lemma hex_encode_ascii bs : bytes_ok bs -> is_ascii (hex_encode bs) = true.
Proof.
  induction 1 as [|b l Hb Hl IH]; [done|]. unfold is_byte in Hb.
  rewrite hex_encode_cons. cbn [is_ascii forallb].
  pose proof (Z.mod_pos_bound b 16 ltac:(lia)).
  assert (0 <= b / 16 < 16) by (split; [apply Z.div_pos; lia|apply Z.div_lt_upper_bound; lia]).
  pose proof (hex_digit_ascii (b / 16) ltac:(lia)).
  pose proof (hex_digit_ascii (b mod 16) ltac:(lia)).
  fold (is_ascii (hex_encode l)). rewrite IH. lia.
Qed.

(** The routing token survives its trip through [TestAck.udp_token]. *)
Theorem hello_token_roundtrip (token : list Z) :
  length token = UDP_HELLO_TOKEN_LEN -> bytes_ok token ->
  parse_hello_token (encode_hello_token token) = Some token.
Proof.
  intros Hl Hok. unfold parse_hello_token, encode_hello_token.
  rewrite hex_encode_ascii by done. unfold len. rewrite length_hex_encode, Hl. cbn.
  rewrite chunks2_hex. clear Hl. apply mapM_Some.
  induction Hok; cbn [map]; constructor; [by apply from_str_radix_hex_byte|done].
Qed.

(** The token parser accepts strings that are not 32 hexadecimal digits:
    [u8::from_str_radix] reads a leading plus sign in each two-byte chunk. *)
Lemma hello_token_accepts_plus :
  exists s token, parse_hello_token s = Some token /\
    ~ Forall (fun b => is_Some (to_digit 16 b)) s /\
    encode_hello_token token <> s.
Proof.
  exists (concat (repeat (txt "+1") 16)), (repeat 1 16). split_and!.
  - reflexivity.
  - intros H. apply Forall_cons in H as [[? H] _]. done.
  - discriminate.
Qed.

(** ** The shared socket *)

(** The shared socket never takes a QUIC datagram for a hello, nor the
    reverse: every hello and ack goes to the dispatcher, and a datagram with a
    QUIC header bit in its first byte always goes to QUIC. *)
Theorem classify_lanes (p : UdpHelloPacket.t) (b : Z) (rest : list Z) :
  UdpHelloPacket.wf p -> is_byte b -> 64 <= b ->
  classify_shared_datagram (UdpHelloPacket.encode p) = XfrHello /\
  classify_shared_datagram (b :: rest) = Quic.
Proof.
  intros (Hk & Hi & Hl & Ht) Hb Hq. split.
  - rewrite hello_encode_bytes by done. unfold classify_shared_datagram, hello_bytes.
    replace (len _ =? _) with true; [done|].
    symmetry; apply Z.eqb_eq. unfold len.
    rewrite !length_app, length_to_be_bytes, Hl. done.
  - unfold classify_shared_datagram.
    case_bool_decide as Hm; [cbn in Hm; injection Hm as -> _; lia|].
    rewrite andb_false_r.
    destruct (Z.eqb_spec (Z.land b 128) 0) as [E1|]; [cbn|done].
    destruct (Z.eqb_spec (Z.land b 64) 0) as [E2|]; [cbn|done].
    exfalso. apply (f_equal (fun x => Z.testbit x 7)) in E1.
    apply (f_equal (fun x => Z.testbit x 6)) in E2.
    rewrite Z.land_spec, Z.bits_0 in E1, E2. cbn in E1, E2.
    rewrite andb_true_r in E1, E2. unfold is_byte in Hb.
    assert (b = b mod 2 ^ 6).
    { apply Z.bits_inj'. intros n Hn. destruct (Z.ltb_spec n 6).
      - by rewrite Z.mod_pow2_bits_low by lia.
      - rewrite Z.mod_pow2_bits_high by lia.
        destruct (Z.eq_dec n 6) as [->|]; [done|].
        destruct (Z.eq_dec n 7) as [->|]; [done|].
        replace b with (b mod 2 ^ 8) by (apply Z.mod_small; lia).
        apply Z.mod_pow2_bits_high. lia. }
    pose proof (Z.mod_pos_bound b (2 ^ 6)). lia.
Qed.

(** A feedback or hello datagram read as a data packet carries a
    sequence number beyond 2^54, which no test reaches: the tail drain
    discards it as newer than the high-water mark. *)
Lemma control_datagram_sequence (buffer : list Z) (h : UdpPacketHeader.t) :
  bytes_ok buffer ->
  (exists p, UdpFeedbackPacket.decode buffer = Some p) \/
  (exists p, UdpHelloPacket.decode buffer = Some p) ->
  UdpPacketHeader.decode buffer = Some h ->
  2 ^ 54 <= UdpPacketHeader.sequence h.
Proof.
  intros Hok Hdec. unfold UdpPacketHeader.decode.
  destruct (len buffer <? UDP_HEADER_SIZE) eqn:Hl; [done|]. intros [= <-]; cbn.
  assert (Hm : slice 0 4 buffer = UDP_FEEDBACK_MAGIC \/ slice 0 4 buffer = UDP_HELLO_MAGIC).
  { destruct Hdec as [[p Hp]|[p Hp]]; [left|right].
    - unfold UdpFeedbackPacket.decode in Hp. destruct (_ =? _); [|done]. cbn in Hp.
      by case_bool_decide.
    - unfold UdpHelloPacket.decode in Hp. destruct (_ =? _); [|done]. cbn in Hp.
      by case_bool_decide. }
  unfold len, UDP_HEADER_SIZE in Hl. zbool.
  do 8 (destruct buffer as [|? buffer]; [cbn in Hl; lia|]).
  split_bytes Hok. unfold is_byte in *.
  unfold slice in *; cbn in Hm |- *.
  unfold from_be_bytes; cbn [rev app]. unfold from_le_bytes.
  destruct Hm as [Hm|Hm]; injection Hm as -> -> -> ->;
    rewrite take_0; cbn; lia.
Qed.

(** ** Witnesses *)
Definition sample_token : list Z := [0; 17; 34; 51; 68; 85; 102; 119; 136; 153; 170; 187; 204; 221; 238; 255].
Definition sample_hello : UdpHelloPacket.t := UdpHelloPacket.mk UDP_HELLO_KIND_ACK 3 sample_token.

Lemma sample_token_ok : bytes_ok sample_token.
Proof. unfold sample_token. join_bytes; unfold is_byte; lia. Qed.

Lemma sample_hello_wf : UdpHelloPacket.wf sample_hello.
Proof.
  unfold UdpHelloPacket.wf. split_and!; [done|split; [discriminate|reflexivity]|done|apply sample_token_ok].
Qed.

Lemma hello_decode_iff_witness :
  UdpHelloPacket.decode (UdpHelloPacket.encode sample_hello) = Some sample_hello.
Proof.
  apply (hello_decode_iff sample_hello (UdpHelloPacket.encode sample_hello)).
  - rewrite hello_encode_bytes by done. vm_compute. repeat (constructor; [split; reflexivity || discriminate|]). constructor.
  - split; [exact sample_hello_wf|reflexivity].
Defined.

Lemma hello_token_roundtrip_witness :
  parse_hello_token (encode_hello_token sample_token) = Some sample_token.
Proof. apply (hello_token_roundtrip sample_token); [reflexivity|exact sample_token_ok]. Defined.

Lemma classify_lanes_witness :
  classify_shared_datagram (UdpHelloPacket.encode sample_hello) = XfrHello /\
  classify_shared_datagram (192 :: [1; 2]) = Quic.
Proof.
  apply (classify_lanes sample_hello 192 [1; 2]); [exact sample_hello_wf|unfold is_byte; lia|lia].
Defined.
