(* ===== verification/PacketTracker.v ===== *)
(** * Receiver-side packet tracking (src/src/udp.rs, PacketTracker)

    The sliding bitmap that counts losses, late packets and duplicates, with
    its far-jump confirmation, and its refinement to a specification that
    keeps the whole set of accepted sequence numbers. *)
From S2P Require Import Prelude.

Definition PACKET_TRACKER_WINDOW : Z := 65536.
Definition PACKET_TRACKER_WORD_BITS : Z := 64.

Module PacketTracker.

Record t := mk {
  received : Z;
  lost : Z;
  out_of_order : Z;
  highest_seen : option Z;
  unconfirmed_jump : option Z;
  seen : list Z
}.

Definition new : t :=
  mk 0 0 0 None None
    (repeat 0 (Z.to_nat (PACKET_TRACKER_WINDOW / PACKET_TRACKER_WORD_BITS))).

(** [self.seen[word]] for a word in range. *)
Definition word_at (seen : list Z) (word : Z) : Z := nth (Z.to_nat word) seen 0.

(** [self.seen[a..b].fill(0)]. *)
Definition fill_range (a b : Z) (seen : list Z) : list Z :=
  take (Z.to_nat a) seen ++ repeat 0 (Z.to_nat (b - a)) ++ drop (Z.to_nat b) seen.

Definition update_word (word : Z) (f : Z -> Z) (seen : list Z) : list Z :=
  <[Z.to_nat word := f (word_at seen word)]> seen.

Definition clear_range (start end_ : Z) (seen : list Z) : list Z :=
  if start =? end_ then seen
  else
    let first := start / PACKET_TRACKER_WORD_BITS in
    let last := (end_ - 1) / PACKET_TRACKER_WORD_BITS in
    let first_mask := wshl 64 u64_max (start mod PACKET_TRACKER_WORD_BITS) in
    let end_bit := end_ mod PACKET_TRACKER_WORD_BITS in
    let last_mask := if end_bit =? 0 then u64_max else wshl 64 1 end_bit - 1 in
    if first =? last then
      update_word first (fun w => Z.land w (wnot 64 (Z.land first_mask last_mask))) seen
    else
      let seen := update_word first (fun w => Z.land w (wnot 64 first_mask)) seen in
      let seen := fill_range (first + 1) last seen in
      update_word last (fun w => Z.land w (wnot 64 last_mask)) seen.

Definition advance_window (previous next : Z) (seen : list Z) : list Z :=
  let distance := next - previous in
  if PACKET_TRACKER_WINDOW <=? distance then map (fun _ => 0) seen
  else
    let start := Z.land (previous + 1) (PACKET_TRACKER_WINDOW - 1) in
    let end_ := start + distance in
    let seen := clear_range start (Z.min end_ PACKET_TRACKER_WINDOW) seen in
    if PACKET_TRACKER_WINDOW <? end_
    then clear_range 0 (end_ - PACKET_TRACKER_WINDOW) seen
    else seen.

Definition record_tracked (self : t) (sequence : Z) : t * bool :=
  let index := Z.land sequence (PACKET_TRACKER_WINDOW - 1) in
  let word := index / PACKET_TRACKER_WORD_BITS in
  let bit := wshl 64 1 (index mod PACKET_TRACKER_WORD_BITS) in
  let accept (lost ooo : Z) (highest : option Z) (seen : list Z) :=
    (mk (saturating_add 64 (received self) 1) lost ooo highest (unconfirmed_jump self)
        (update_word word (fun w => Z.lor w bit) seen), true) in
  match highest_seen self with
  | None => accept sequence (out_of_order self) (Some sequence) (seen self)
  | Some highest =>
    if highest <? sequence then
      let seen := advance_window highest sequence (seen self) in
      let gap := sequence - highest - 1 in
      accept (saturating_add 64 (lost self) gap) (out_of_order self) (Some sequence) seen
    else if (PACKET_TRACKER_WINDOW <=? highest - sequence)
            || negb (Z.land (word_at (seen self) word) bit =? 0) then (self, false)
    else accept (saturating_sub (lost self) 1) (saturating_add 64 (out_of_order self) 1)
           (Some highest) (seen self)
  end.

Definition set_unconfirmed (j : option Z) (self : t) : t :=
  mk (received self) (lost self) (out_of_order self) (highest_seen self) j (seen self).

Definition confirm_jump (self : t) (sequence : Z) : t * bool :=
  let held := unconfirmed_jump self in
  let self := set_unconfirmed None self in
  match held with
  | Some held =>
    if abs_diff held sequence <? PACKET_TRACKER_WINDOW
    then (fst (record_tracked self held), true)
    else (set_unconfirmed (Some sequence) self, false)
  | None => (set_unconfirmed (Some sequence) self, false)
  end.

(** Distance past the high-water mark. *)
Definition jump_of (self : t) (sequence : Z) : Z :=
  match highest_seen self with
  | Some highest => saturating_sub sequence highest
  | None => saturating_add 64 sequence 1
  end.

Definition record_unique (self : t) (sequence : Z) : t * bool :=
  if PACKET_TRACKER_WINDOW <? jump_of self sequence then
    let '(self, confirmed) := confirm_jump self sequence in
    if confirmed then record_tracked self sequence else (self, false)
  else record_tracked self sequence.

Definition record (self : t) (sequence : Z) : t := fst (record_unique self sequence).

Definition record_straggler (self : t) (sequence : Z) : t * bool :=
  match highest_seen self with
  | Some highest => if sequence <? highest then record_tracked self sequence else (self, false)
  | None => (self, false)
  end.

(** Feed a list of arrivals to the tracker. *)
Definition record_all (self : t) (arrivals : list Z) : t := fold_left record arrivals self.

End PacketTracker.

(** ** The bitmap as a set of positions *)
Module Bitmap.
Import PacketTracker.

Definition bit_at (seen : list Z) (i : Z) : bool :=
  Z.testbit (word_at seen (i / 64)) (i mod 64).

Definition sized (seen : list Z) : Prop := length seen = 1024%nat.

Lemma testbit_u64_max k : 0 <= k < 64 -> Z.testbit u64_max k = true.
Proof. intros. change u64_max with (Z.ones 64). apply Z.ones_spec_low. lia. Qed.

Lemma first_mask_bit r k :
  0 <= r -> 0 <= k < 64 -> Z.testbit (wshl 64 u64_max r) k = (r <=? k).
Proof.
  intros. rewrite testbit_wshl by lia. destruct (Z.leb_spec r k); [|done].
  apply testbit_u64_max. lia.
Qed.

Lemma last_mask_bit e k :
  0 <= e < 64 -> 0 <= k < 64 ->
  Z.testbit (if e =? 0 then u64_max else wshl 64 1 e - 1) k = (e =? 0) || (k <? e).
Proof.
  intros He Hk. destruct (Z.eqb_spec e 0); [by apply testbit_u64_max|]. cbn [orb].
  assert (wshl 64 1 e - 1 = Z.ones e) as ->.
  { unfold wshl, wrap. rewrite Z.shiftl_mul_pow2, Z.mul_1_l by lia.
    rewrite Z.mod_small, Z.ones_equiv; [lia|].
    split; [lia|]. apply Z.pow_lt_mono_r; lia. }
  destruct (Z.ltb_spec k e); [apply Z.ones_spec_low; lia|apply Z.ones_spec_high; lia].
Qed.

Lemma one_bit k j : 0 <= k < 64 -> 0 <= j < 64 -> Z.testbit (wshl 64 1 k) j = (j =? k).
Proof.
  intros. rewrite testbit_wshl by lia. destruct (Z.eqb_spec j k) as [->|].
  - by rewrite Z.leb_refl, Z.sub_diag.
  - destruct (Z.leb_spec k j); [|done]. cbn. rewrite Z.testbit_odd, Z.shiftr_div_pow2 by lia.
    rewrite Z.div_small; [done|]. split; [lia|]. apply Z.pow_gt_1; lia.
Qed.

Lemma word_at_lookup seen v : word_at seen v = default 0 (seen !! Z.to_nat v).
Proof. apply nth_lookup. Qed.

Lemma word_at_update seen w f v :
  sized seen -> 0 <= w < 1024 -> 0 <= v ->
  word_at (update_word w f seen) v = if v =? w then f (word_at seen w) else word_at seen v.
Proof.
  intros Hs Hw Hv. unfold sized in Hs. unfold update_word. rewrite !word_at_lookup.
  destruct (Z.eqb_spec v w) as [->|].
  - rewrite list_lookup_insert_eq by lia. done.
  - by rewrite list_lookup_insert_ne by lia.
Qed.

Lemma update_word_sized w f seen : sized seen -> sized (update_word w f seen).
Proof. unfold sized, update_word. by rewrite length_insert. Qed.

Lemma fill_range_sized a b seen :
  sized seen -> 0 <= a -> a <= b <= 1024 -> sized (fill_range a b seen).
Proof.
  unfold sized, fill_range. intros. rewrite !length_app, length_take, length_drop, repeat_length.
  lia.
Qed.

Lemma word_at_fill seen a b v :
  sized seen -> 0 <= a -> a <= b <= 1024 -> 0 <= v ->
  word_at (fill_range a b seen) v = if (a <=? v) && (v <? b) then 0 else word_at seen v.
Proof.
  intros Hs Ha Hb Hv. rewrite !word_at_lookup. unfold fill_range.
  unfold sized in Hs.
  destruct (Z.leb_spec a v); cbn [andb].
  - rewrite lookup_app_r by (rewrite length_take; lia). rewrite length_take.
    destruct (Z.ltb_spec v b).
    + rewrite lookup_app_l by (rewrite repeat_length; lia).
      rewrite <- nth_lookup. by rewrite nth_repeat.
    + rewrite lookup_app_r by (rewrite repeat_length; lia). rewrite repeat_length, lookup_drop.
      do 2 f_equal. lia.
  - rewrite lookup_app_l by (rewrite length_take; lia). by rewrite lookup_take_lt by lia.
Qed.

Ltac bits :=
  rewrite ?Z.land_spec, ?testbit_wnot, ?Z.land_spec, ?first_mask_bit, ?last_mask_bit
    by (try apply Z.mod_pos_bound; lia).

Lemma clear_range_sized s e seen :
  0 <= s <= e -> e <= 65536 -> sized seen -> sized (clear_range s e seen).
Proof.
  intros Hs He Hz. unfold clear_range, PACKET_TRACKER_WORD_BITS.
  destruct (Z.eqb_spec s e); [done|]. destruct (_ =? _) eqn:E; [by apply update_word_sized|].
  apply update_word_sized, fill_range_sized; [by apply update_word_sized| |].
  - assert (0 <= s / 64) by (apply Z.div_pos; lia). lia.
  - zbool. assert (s / 64 <= (e - 1) / 64) by (apply Z.div_le_mono; lia).
    assert ((e - 1) / 64 < 1024) by (apply Z.div_lt_upper_bound; lia). lia.
Qed.

(** [clear_range] clears exactly the positions of the range. *)
Lemma clear_range_spec s e seen i :
  sized seen -> 0 <= s <= e -> e <= 65536 -> 0 <= i < 65536 ->
  bit_at (clear_range s e seen) i = bit_at seen i && negb ((s <=? i) && (i <? e)).
Proof.
  intros Hz Hs He Hi. unfold clear_range, PACKET_TRACKER_WORD_BITS.
  destruct (Z.eqb_spec s e) as [->|Hne].
  { replace ((e <=? i) && (i <? e)) with false by lia. by rewrite andb_true_r. }
  unfold bit_at.
  pose proof (Z.div_mod i 64 ltac:(lia)). pose proof (Z.mod_pos_bound i 64 ltac:(lia)).
  pose proof (Z.div_mod s 64 ltac:(lia)). pose proof (Z.mod_pos_bound s 64 ltac:(lia)).
  pose proof (Z.div_mod e 64 ltac:(lia)). pose proof (Z.mod_pos_bound e 64 ltac:(lia)).
  pose proof (Z.div_mod (e - 1) 64 ltac:(lia)).
  pose proof (Z.mod_pos_bound (e - 1) 64 ltac:(lia)).
  set (w := i / 64) in *. set (k := i mod 64) in *. set (first := s / 64) in *.
  set (last := (e - 1) / 64) in *. set (sb := s mod 64) in *. set (eb := e mod 64) in *.
  assert (0 <= first <= last /\ last < 1024 /\ 0 <= w) by lia.
  destruct (Z.eqb_spec first last) as [Efl|Nfl].
  - rewrite word_at_update by (done || lia). destruct (Z.eqb_spec w first) as [->|].
    + bits. destruct (Z.testbit _ k); [|done]. cbn [andb]. lia.
    + destruct (Z.testbit _ k); [|done]. cbn [andb]. lia.
  - rewrite word_at_update by (first [apply fill_range_sized; [by apply update_word_sized|lia..] | lia]).
    rewrite !word_at_fill by (first [by apply update_word_sized | lia]).
    rewrite !word_at_update by (done || lia).
    replace (last =? first) with false by lia.
    replace ((first + 1 <=? last) && (last <? last)) with false by lia.
    destruct (Z.eqb_spec w last) as [->|]; [bits; destruct (Z.testbit _ k); cbn; [lia|done]|].
    destruct ((first + 1 <=? w) && (w <? last)) eqn:Em.
    { rewrite Z.bits_0. destruct (Z.testbit _ k); [|done]. cbn. lia. }
    destruct (Z.eqb_spec w first) as [->|]; [bits|]; destruct (Z.testbit _ k); cbn; lia || done.
Qed.

Lemma land_window x : Z.land x (PACKET_TRACKER_WINDOW - 1) = x mod 65536.
Proof. change (PACKET_TRACKER_WINDOW - 1) with (Z.ones 16). by apply Z.land_ones. Qed.

Lemma bit_at_zeroes (seen : list Z) i : bit_at (map (fun _ => 0) seen) i = false.
Proof.
  unfold bit_at. rewrite word_at_lookup. change (map (fun _ : Z => 0) seen) with ((fun _ : Z => 0) <$> seen).
  rewrite list_lookup_fmap. destruct (seen !! _); cbn; apply Z.bits_0.
Qed.

Lemma bit_at_mark seen i j :
  sized seen -> 0 <= i < 65536 -> 0 <= j < 65536 ->
  bit_at (update_word (i / 64) (fun w => Z.lor w (wshl 64 1 (i mod 64))) seen) j
  = (j =? i) || bit_at seen j.
Proof.
  intros Hz Hi Hj. unfold bit_at.
  pose proof (Z.div_mod i 64 ltac:(lia)). pose proof (Z.mod_pos_bound i 64 ltac:(lia)).
  pose proof (Z.div_mod j 64 ltac:(lia)). pose proof (Z.mod_pos_bound j 64 ltac:(lia)).
  rewrite word_at_update by (done || lia).
  destruct (Z.eqb_spec (j / 64) (i / 64)) as [E|].
  - rewrite Z.lor_spec, one_bit, E by lia. rewrite orb_comm. f_equal. lia.
  - by replace (j =? i) with false by lia.
Qed.

Lemma bit_test seen i :
  0 <= i -> negb (Z.land (word_at seen (i / 64)) (wshl 64 1 (i mod 64)) =? 0) = bit_at seen i.
Proof.
  intros Hi. unfold bit_at. set (w := word_at _ _).
  pose proof (Z.mod_pos_bound i 64 ltac:(lia)) as Hk. set (k := i mod 64) in *.
  destruct (Z.testbit w k) eqn:E.
  - apply negb_true_iff, Z.eqb_neq. intros H0.
    apply (f_equal (fun x => Z.testbit x k)) in H0.
    rewrite Z.land_spec, one_bit, Z.bits_0, E, Z.eqb_refl in H0 by lia. done.
  - apply negb_false_iff, Z.eqb_eq, Z.bits_inj'. intros n Hn.
    rewrite Z.land_spec, Z.bits_0. destruct (Z.ltb_spec n 64).
    + rewrite one_bit by lia. destruct (Z.eqb_spec n k) as [->|]; [by rewrite E|].
      by rewrite andb_false_r.
    + unfold wshl, wrap. rewrite Z.mod_pow2_bits_high by lia. by rewrite andb_false_r.
Qed.

Lemma advance_window_sized h s seen :
  0 <= h < s -> sized seen -> sized (advance_window h s seen).
Proof.
  intros Hs Hz. unfold advance_window. rewrite land_window. unfold PACKET_TRACKER_WINDOW.
  pose proof (Z.mod_pos_bound (h + 1) 65536 ltac:(lia)).
  destruct (Z.leb_spec 65536 (s - h)); [by unfold sized; rewrite length_map|].
  destruct (Z.ltb_spec 65536 ((h + 1) mod 65536 + (s - h))); repeat apply clear_range_sized; try done; lia.
Qed.

(** Sliding the window from [h] to [s] forgets exactly the positions that
    enter it. *)
Lemma advance_window_spec h s seen p :
  sized seen -> 0 <= h < s -> s - 65536 < p <= s ->
  bit_at (advance_window h s seen) (p mod 65536)
  = (p <=? h) && bit_at seen (p mod 65536).
Proof.
  intros Hz Hs Hp. unfold advance_window. rewrite land_window. unfold PACKET_TRACKER_WINDOW.
  destruct (Z.leb_spec 65536 (s - h)).
  { rewrite bit_at_zeroes. by replace (p <=? h) with false by lia. }
  pose proof (Z.div_mod (h + 1) 65536 ltac:(lia)).
  pose proof (Z.mod_pos_bound (h + 1) 65536 ltac:(lia)).
  pose proof (Z.div_mod p 65536 ltac:(lia)). pose proof (Z.mod_pos_bound p 65536 ltac:(lia)).
  set (start := (h + 1) mod 65536) in *. set (i := p mod 65536) in *.
  set (q := (h + 1) / 65536) in *. set (r := p / 65536) in *. cbv zeta.
  assert (r = q - 1 \/ r = q \/ r = q + 1) by lia.
  destruct (Z.ltb_spec 65536 (start + (s - h))).
  - rewrite !clear_range_spec by (try apply clear_range_sized; done || lia).
    destruct (bit_at seen i); [|by rewrite andb_false_r]. cbn. lia.
  - rewrite clear_range_spec by (done || lia).
    destruct (bit_at seen i); [|by rewrite andb_false_r]. cbn. lia.
Qed.

End Bitmap.

(** ** Specification

    The receiver as it would be with unbounded memory: the set of accepted
    sequence numbers, the largest of them, how many of them were late, and
    the far jump held for confirmation. *)
Module TrackerSpec.

Record t := mk {
  accepted : gset Z;
  highest : option Z;
  late : Z;
  held : option Z
}.

Definition init : t := mk ∅ None 0 None.

Definition tracked (a : t) (s : Z) : t * bool :=
  match highest a with
  | None => (mk ({[s]} ∪ accepted a) (Some s) (late a) (held a), true)
  | Some h =>
    if h <? s then (mk ({[s]} ∪ accepted a) (Some s) (late a) (held a), true)
    else if (PACKET_TRACKER_WINDOW <=? h - s) || bool_decide (s ∈ accepted a) then (a, false)
    else (mk ({[s]} ∪ accepted a) (Some h) (late a + 1) (held a), true)
  end.

Definition hold (j : option Z) (a : t) : t := mk (accepted a) (highest a) (late a) j.

(** How far [s] lies beyond the newest accepted packet. *)
Definition jump_of (a : t) (s : Z) : Z :=
  match highest a with
  | Some h => saturating_sub s h
  | None => saturating_add 64 s 1
  end.

Definition arrive (a : t) (s : Z) : t * bool :=
  if PACKET_TRACKER_WINDOW <? jump_of a s then
    match held a with
    | Some j =>
      if abs_diff j s <? PACKET_TRACKER_WINDOW
      then tracked (fst (tracked (hold None a) j)) s
      else (hold (Some s) a, false)
    | None => (hold (Some s) a, false)
    end
  else tracked a s.

Definition straggle (a : t) (s : Z) : t * bool :=
  match highest a with
  | Some h => if s <? h then tracked a s else (a, false)
  | None => (a, false)
  end.

(** Packets expected so far, and those of them that are missing. *)
Definition expected (a : t) : Z := match highest a with None => 0 | Some h => h + 1 end.
Definition missing (a : t) : Z := expected a - Z.of_nat (size (accepted a)).

End TrackerSpec.

(** ** Refinement *)
Module TrackerRefinement.
Import PacketTracker Bitmap.
Module S := TrackerSpec.

(** Well-formed specification states: the accepted numbers are 64-bit and
    bounded by the newest one, which was accepted itself. *)
Definition wf (a : S.t) : Prop :=
  (forall s, s ∈ S.accepted a -> 0 <= s) /\
  (forall j, S.held a = Some j -> fits 64 j) /\
  0 <= S.late a /\
  match S.highest a with
  | None => S.accepted a = ∅
  | Some h => fits 64 h /\ h ∈ S.accepted a /\ forall s, s ∈ S.accepted a -> s <= h
  end.

(** [window_bits seen h acc]: the bitmap holds the membership of the last
    window of positions up to [h]. *)
Definition window_bits (seen : list Z) (h : Z) (acc : gset Z) : Prop :=
  forall p, h - 65536 < p <= h -> bit_at seen (p mod 65536) = bool_decide (p ∈ acc).

Ltac proj :=
  cbn [S.accepted S.highest S.late S.held received lost out_of_order highest_seen
       unconfirmed_jump seen fst snd] in *.

Record Rep (c : t) (a : S.t) : Prop := {
  rep_wf : wf a;
  rep_sized : sized (seen c);
  rep_highest : highest_seen c = S.highest a;
  rep_held : unconfirmed_jump c = S.held a;
  rep_received : received c = Z.min (Z.of_nat (size (S.accepted a))) u64_max;
  rep_lost : lost c = S.missing a;
  rep_late : out_of_order c = Z.min (S.late a) u64_max;
  rep_bits : match S.highest a with
             | None => forall i, 0 <= i < 65536 -> bit_at (seen c) i = false
             | Some h => window_bits (seen c) h (S.accepted a)
             end
}.

Lemma size_bound (X : gset Z) (h : Z) :
  0 <= h -> (forall s, s ∈ X -> 0 <= s <= h) -> Z.of_nat (size X) <= h + 1.
Proof.
  intros Hh HX. transitivity (Z.of_nat (size (list_to_set (seqZ 0 (h + 1)) : gset Z))).
  - apply Nat2Z.inj_le, subseteq_size. intros s Hs. apply elem_of_list_to_set, elem_of_seqZ.
    specialize (HX s Hs). lia.
  - rewrite size_list_to_set by apply NoDup_seqZ. rewrite length_seqZ. lia.
Qed.

Lemma size_add (X : gset Z) s :
  s ∉ X -> Z.of_nat (size ({[s]} ∪ X)) = Z.of_nat (size X) + 1.
Proof. intros. rewrite size_union by set_solver. rewrite size_singleton. lia. Qed.

Lemma rep_new : Rep new S.init.
Proof.
  constructor; try done.
  intros i Hi. cbn. unfold bit_at, word_at. rewrite nth_repeat. apply Z.bits_0.
Qed.

Lemma window_bits_mark seen h s acc :
  sized seen -> h - 65536 < s <= h -> window_bits seen h acc ->
  window_bits (update_word (s mod 65536 / 64)
    (fun w => Z.lor w (wshl 64 1 ((s mod 65536) mod 64))) seen) h ({[s]} ∪ acc).
Proof.
  intros Hz Hs Hb p Hp. pose proof (Z.mod_pos_bound s 65536 ltac:(lia)).
  pose proof (Z.mod_pos_bound p 65536 ltac:(lia)).
  rewrite bit_at_mark by done. rewrite Hb by lia.
  assert (E : (p mod 65536 =? s mod 65536) = bool_decide (p = s)).
  { pose proof (Z.div_mod p 65536 ltac:(lia)). pose proof (Z.div_mod s 65536 ltac:(lia)).
    case_bool_decide; [subst; lia|]. lia. }
  rewrite E. repeat case_bool_decide; cbn; try done; set_solver.
Qed.

(** The bitmap of an empty tracker, seen as a window. *)
Lemma window_bits_empty seen h :
  (forall i, 0 <= i < 65536 -> bit_at seen i = false) -> window_bits seen h ∅.
Proof.
  intros H p Hp. rewrite H by (apply Z.mod_pos_bound; lia).
  by rewrite bool_decide_false by set_solver.
Qed.

Lemma window_bits_advance seen h s acc :
  sized seen -> 0 <= h < s -> (forall x, x ∈ acc -> x <= h) -> window_bits seen h acc ->
  window_bits (advance_window h s seen) s acc.
Proof.
  intros Hz Hs Hle Hb p Hp. rewrite advance_window_spec by done.
  destruct (Z.leb_spec p h); cbn [andb].
  - apply Hb. lia.
  - rewrite bool_decide_false; [done|]. intros Hin%Hle. lia.
Qed.

(** Counters after one more packet is accepted. *)
Lemma received_step n : 0 <= n ->
  saturating_add 64 (Z.min n u64_max) 1 = Z.min (n + 1) u64_max.
Proof. unfold saturating_add, u64_max. lia. Qed.

Definition mark (seen : list Z) (s : Z) : list Z :=
  update_word (s mod 65536 / 64) (fun w => Z.lor w (wshl 64 1 ((s mod 65536) mod 64))) seen.

(** What a representation with a high-water mark provides. *)
Lemma rep_facts c a h :
  Rep c a -> S.highest a = Some h ->
  fits 64 h /\ h ∈ S.accepted a /\ (forall x, x ∈ S.accepted a -> 0 <= x <= h) /\
  1 <= Z.of_nat (size (S.accepted a)) <= h + 1 /\
  lost c = h + 1 - Z.of_nat (size (S.accepted a)) /\
  window_bits (seen c) h (S.accepted a).
Proof.
  intros [(Hpos & _ & _ & Hhi) _ _ _ _ Hl _ Hb] Eh. rewrite Eh in *.
  destruct Hhi as (Hf & Hin & Hle). unfold S.missing, S.expected in Hl. rewrite Eh in Hl.
  assert (Hr : forall x, x ∈ S.accepted a -> 0 <= x <= h) by (intros x Hx; split; [by apply Hpos|by apply Hle]).
  split_and!; try done.
  - destruct (decide (size (S.accepted a) = 0%nat)) as [E|]; [|lia].
    apply size_empty_inv in E. set_solver.
  - apply size_bound; [by destruct (Hr h Hin)|done].
Qed.

(** The three ways a sequence number is accepted: the first packet, one
    beyond the high-water mark, and one that fills a gap behind it. *)
Lemma rep_first_packet c a s :
  Rep c a -> fits 64 s -> S.highest a = None ->
  Rep (mk (saturating_add 64 (received c) 1) s (out_of_order c) (Some s)
          (unconfirmed_jump c) (mark (seen c) s))
      (S.mk ({[s]} ∪ S.accepted a) (Some s) (S.late a) (S.held a)).
Proof.
  intros [(_ & Hheld & Hlate & Hhi) Hz _ Hj Hr _ Ho Hb] Hs Eh. rewrite Eh in *.
  rewrite Hhi in *. pose proof Hs as Hs'. unfold fits in Hs'. constructor; proj; try done.
  - unfold wf; proj.
    split_and!; [set_unfold; lia|done|done|exact Hs|set_solver|set_unfold; lia].
  - by apply update_word_sized.
  - rewrite Hr, size_add by set_solver. by apply received_step.
  - unfold S.missing, S.expected; proj. rewrite size_add by set_solver.
    rewrite size_empty. lia.
  - apply window_bits_mark; [done|lia|]. by apply window_bits_empty.
Qed.

Lemma rep_forward c a s h :
  Rep c a -> fits 64 s -> S.highest a = Some h -> h < s ->
  Rep (mk (saturating_add 64 (received c) 1) (saturating_add 64 (lost c) (s - h - 1))
          (out_of_order c) (Some s) (unconfirmed_jump c)
          (mark (advance_window h s (seen c)) s))
      (S.mk ({[s]} ∪ S.accepted a) (Some s) (S.late a) (S.held a)).
Proof.
  intros R Hs Eh Hlt. destruct (rep_facts _ _ _ R Eh) as (Hhf & Hin & Hle & Hsz & Hl & Hb).
  destruct R as [(_ & Hheld & Hlate & _) Hz _ Hj Hr _ Ho _].
  assert (Hnew : s ∉ S.accepted a) by (intros Hx%Hle; lia).
  pose proof Hs as Hs'. unfold fits in Hs', Hhf. constructor; proj; try done.
  - unfold wf; proj. split_and!; [|done|done|exact Hs|set_solver|];
      intros x [->%elem_of_singleton|Hx%Hle]%elem_of_union; lia.
  - apply update_word_sized, advance_window_sized; [lia|done].
  - rewrite Hr, size_add by done. apply received_step. lia.
  - unfold S.missing, S.expected; proj. rewrite size_add by done.
    rewrite Hl. unfold saturating_add. lia.
  - apply window_bits_mark; [apply advance_window_sized; [lia|done]|lia|].
    apply window_bits_advance; [done|lia|intros x ?%Hle; lia|done].
Qed.

Lemma rep_gap_fill c a s h :
  Rep c a -> fits 64 s -> S.highest a = Some h -> s <= h -> h - s < 65536 ->
  s ∉ S.accepted a ->
  Rep (mk (saturating_add 64 (received c) 1) (saturating_sub (lost c) 1)
          (saturating_add 64 (out_of_order c) 1) (Some h) (unconfirmed_jump c)
          (mark (seen c) s))
      (S.mk ({[s]} ∪ S.accepted a) (Some h) (S.late a + 1) (S.held a)).
Proof.
  intros R Hs Eh Hle' Hw Hnew.
  destruct (rep_facts _ _ _ R Eh) as (Hhf & Hin & Hle & Hsz & Hl & Hb).
  destruct R as [(_ & Hheld & Hlate & _) Hz _ Hj Hr _ Ho _].
  pose proof Hs as Hs'. unfold fits in Hs'.
  assert (Hall : forall x, x ∈ {[s]} ∪ S.accepted a -> 0 <= x <= h).
  { intros x [->%elem_of_singleton|Hx%Hle]%elem_of_union; lia. }
  assert (Hsz2 : Z.of_nat (size ({[s]} ∪ S.accepted a)) <= h + 1)
    by (apply size_bound; [lia|done]).
  rewrite size_add in Hsz2 by done. constructor; proj; try done.
  - unfold wf; proj. split_and!; [intros x ?%Hall; lia|done|lia|done|set_solver|intros x ?%Hall; lia].
  - by apply update_word_sized.
  - rewrite Hr, size_add by done. apply received_step. lia.
  - unfold S.missing, S.expected; proj. rewrite size_add by done.
    rewrite Hl. unfold saturating_sub. lia.
  - rewrite Ho. by apply received_step.
  - apply window_bits_mark; [done|lia|done].
Qed.

Lemma tracked_refines c a s :
  Rep c a -> fits 64 s ->
  Rep (fst (record_tracked c s)) (fst (S.tracked a s)) /\
  snd (record_tracked c s) = snd (S.tracked a s).
Proof.
  intros R Hs. unfold record_tracked, S.tracked.
  rewrite (rep_highest _ _ R), land_window. unfold PACKET_TRACKER_WORD_BITS.
  destruct (S.highest a) as [h|] eqn:Eh; [|split; [by apply rep_first_packet|done]].
  destruct (Z.ltb_spec h s) as [Hlt|Hge]; [split; [by apply rep_forward|done]|].
  destruct (rep_facts _ _ _ R Eh) as (_ & _ & _ & _ & _ & Hb).
  rewrite bit_test by (apply Z.mod_pos_bound; lia). unfold PACKET_TRACKER_WINDOW.
  destruct (Z.leb_spec 65536 (h - s)) as [|Hin]; cbn [orb]; [split; [exact R|done]|].
  rewrite Hb by lia. case_bool_decide as Hmem; [split; [exact R|done]|].
  split; [by apply rep_gap_fill|done].
Qed.

Lemma hold_refines c a j :
  Rep c a -> (forall x, j = Some x -> fits 64 x) -> Rep (set_unconfirmed j c) (S.hold j a).
Proof.
  intros [(? & ? & ? & ?) ? ? ? ? ? ? ?] Hj. constructor; proj; try done.
Qed.

Lemma jump_refines c a s : Rep c a -> jump_of c s = S.jump_of a s.
Proof. intros R. unfold jump_of, S.jump_of. by rewrite (rep_highest _ _ R). Qed.

Lemma arrive_refines c a s :
  Rep c a -> fits 64 s ->
  Rep (fst (record_unique c s)) (fst (S.arrive a s)) /\
  snd (record_unique c s) = snd (S.arrive a s).
Proof.
  intros R Hs. unfold record_unique, S.arrive. rewrite (jump_refines _ _ s R).
  destruct (_ <? _); [|by apply tracked_refines].
  unfold confirm_jump. rewrite (rep_held _ _ R).
  assert (H0 : Rep (set_unconfirmed None c) (S.hold None a)) by by apply hold_refines.
  assert (H1 : Rep (set_unconfirmed (Some s) (set_unconfirmed None c)) (S.hold (Some s) a)).
  { change (S.hold (Some s) a) with (S.hold (Some s) (S.hold None a)).
    apply hold_refines; [done|]. by intros x [= <-]. }
  destruct (S.held a) as [j|] eqn:Ej; [|by split].
  destruct (_ <? _); [|by split].
  apply tracked_refines; [|done]. apply tracked_refines; [done|].
  destruct R as [(_ & Hheld & _) _ _ _ _ _ _ _]. by apply Hheld.
Qed.

Lemma straggle_refines c a s :
  Rep c a -> fits 64 s ->
  Rep (fst (record_straggler c s)) (fst (S.straggle a s)) /\
  snd (record_straggler c s) = snd (S.straggle a s).
Proof.
  intros R Hs. unfold record_straggler, S.straggle. rewrite (rep_highest _ _ R).
  destruct (S.highest a); [|by split]. destruct (_ <? _); [|by split].
  by apply tracked_refines.
Qed.

End TrackerRefinement.

(** ** Properties *)
Section properties.
Import PacketTracker TrackerRefinement.

(** States the receiver can be in: arrivals during the test, stragglers in
    the tail drain. *)
Inductive reachable : PacketTracker.t -> Prop :=
  | reach_new : reachable new
  | reach_record c s : reachable c -> fits 64 s -> reachable (fst (record_unique c s))
  | reach_straggler c s : reachable c -> fits 64 s -> reachable (fst (record_straggler c s)).

Lemma reachable_rep c : reachable c -> exists a, Rep c a.
Proof.
  induction 1 as [|c s _ [a R] Hs|c s _ [a R] Hs].
  - eexists. apply rep_new.
  - eexists. by apply arrive_refines.
  - eexists. by apply straggle_refines.
Qed.

(** What reaches the tracker: a live datagram, or one of the tail drain. *)
Inductive arrival := Live (s : Z) | Tail (s : Z).
Definition number (e : arrival) : Z := match e with Live s | Tail s => s end.

Definition feed (c : PacketTracker.t) (e : arrival) : PacketTracker.t * bool :=
  match e with Live s => record_unique c s | Tail s => record_straggler c s end.
Definition feed_spec (a : TrackerSpec.t) (e : arrival) : TrackerSpec.t * bool :=
  match e with Live s => TrackerSpec.arrive a s | Tail s => TrackerSpec.straggle a s end.

(** The state after a session and the verdict on each arrival. *)
Fixpoint session {T} (step : T -> arrival -> T * bool) (c : T) (es : list arrival)
    : T * list bool :=
  match es with
  | [] => (c, [])
  | e :: es => let '(c, v) := step c e in let '(c, vs) := session step c es in (c, v :: vs)
  end.

Lemma session_refines es c a :
  Rep c a -> Forall (fun e => fits 64 (number e)) es ->
  Rep (session feed c es).1 (session feed_spec a es).1 /\
  (session feed c es).2 = (session feed_spec a es).2.
Proof.
  intros R Hes. revert c a R. induction Hes as [|e es He _ IH]; intros c a R; [done|].
  assert (Hstep : Rep (feed c e).1 (feed_spec a e).1 /\ (feed c e).2 = (feed_spec a e).2).
  { destruct e as [s|s]; [by apply arrive_refines|by apply straggle_refines]. }
  cbn [session]. destruct (feed c e) as [c1 v1], (feed_spec a e) as [a1 v1'].
  cbn [fst snd] in Hstep. destruct Hstep as [R1 ->]. destruct (IH c1 a1 R1) as [R2 E2].
  destruct (session feed c1 es), (session feed_spec a1 es). cbn [fst snd] in *. by subst.
Qed.

(** C1. The 8 KiB bitmap is a faithful implementation of unbounded memory:
    through any session of live datagrams and tail-drain stragglers the
    tracker gives the verdicts of the specification that remembers every
    accepted number, and its counters are that specification's: as many
    received as numbers accepted, as many lost as missing up to the newest,
    as many out of order as were accepted late. *)
Theorem tracker_refines_spec (es : list arrival) :
  Forall (fun e => fits 64 (number e)) es ->
  let '(c, verdicts) := session feed new es in
  let '(a, expected) := session feed_spec TrackerSpec.init es in
  verdicts = expected /\ highest_seen c = TrackerSpec.highest a /\
  unconfirmed_jump c = TrackerSpec.held a /\
  received c = Z.min (Z.of_nat (size (TrackerSpec.accepted a))) u64_max /\
  lost c = TrackerSpec.missing a /\ out_of_order c = Z.min (TrackerSpec.late a) u64_max.
Proof.
  intros Hes. destruct (session_refines es new TrackerSpec.init rep_new Hes) as [R E].
  destruct (session feed new es) as [c vs], (session feed_spec TrackerSpec.init es) as [a vs'].
  cbn [fst snd] in *. destruct R. by split_and!.
Qed.

(** In every reachable state the counters add up: the packets received
    and the packets lost are together those expected up to the newest one,
    and no counter leaves its 64 bits. *)
Theorem tracker_counters_add_up (c : PacketTracker.t) (h : Z) :
  reachable c -> highest_seen c = Some h -> h < u64_max ->
  received c + lost c = h + 1 /\ 1 <= received c /\ 0 <= lost c /\
  out_of_order c <= u64_max.
Proof.
  intros [a R]%reachable_rep Hh Hlt. rewrite (rep_highest _ _ R) in Hh.
  destruct (rep_facts _ _ _ R Hh) as (_ & _ & _ & Hsz & Hl & _).
  rewrite (rep_received _ _ R), (rep_late _ _ R), Hl. unfold u64_max in *. lia.
Qed.

(** Arrivals near the newest number so far: neither a window behind it nor
    more than a window ahead. *)
Definition in_window (newest : option Z) (s : Z) : Prop :=
  match newest with None => s < 65536 | Some h => h - 65536 < s <= h + 65536 end.
Definition newer (newest : option Z) (s : Z) : option Z :=
  Some (match newest with None => s | Some h => Z.max h s end).
Fixpoint near (newest : option Z) (l : list Z) : Prop :=
  match l with [] => True | s :: l => in_window newest s /\ near (newer newest s) l end.
Definition max_seq (l : list Z) : option Z := fold_left newer l None.

(** Such an arrival is accepted unless it was before. *)
Lemma arrive_near a s :
  0 <= s -> in_window (S.highest a) s ->
  S.accepted (fst (S.arrive a s)) = {[s]} ∪ S.accepted a /\
  S.highest (fst (S.arrive a s)) = newer (S.highest a) s.
Proof.
  intros Hs Hw. unfold S.arrive, S.jump_of, S.tracked, newer.
  destruct (S.highest a) as [h|] eqn:Eh; cbn [in_window] in Hw.
  - unfold saturating_sub, PACKET_TRACKER_WINDOW.
    replace (65536 <? Z.max 0 (s - h)) with false by lia.
    destruct (Z.ltb_spec h s); proj; [split; [done|f_equal; lia]|].
    replace (65536 <=? h - s) with false by lia. cbn [orb].
    case_bool_decide; proj; [split; [set_solver|rewrite Eh; f_equal; lia]|].
    split; [done|f_equal; lia].
  - unfold saturating_add, PACKET_TRACKER_WINDOW.
    replace (65536 <? _) with false by lia. by proj.
Qed.

Lemma record_all_near l c a :
  Rep c a -> Forall (fits 64) l -> near (S.highest a) l ->
  exists a', Rep (record_all c l) a' /\
    S.accepted a' = S.accepted a ∪ list_to_set l /\
    S.highest a' = fold_left newer l (S.highest a).
Proof.
  intros R Hl. revert c a R. induction Hl as [|s l Hs Hl IH]; intros c a R Hn.
  - exists a. split_and!; [done|set_solver|done].
  - destruct Hn as [Hw Hn].
    destruct (arrive_near a s) as [Ea Eh]; [unfold fits in Hs; lia|done|].
    edestruct (IH _ _ (proj1 (arrive_refines c a s R Hs))) as (a' & R' & Ea' & Eh');
      [by rewrite Eh|].
    exists a'. split_and!; [done|rewrite Ea', Ea; set_solver|]. by rewrite Eh', Eh.
Qed.

(** Arrivals within one window of zero never jump and are never too old. *)
Definition small (s : Z) : Prop := 0 <= s < 65536.

Lemma small_near l m :
  Forall small l -> (forall h, m = Some h -> small h) ->
  near m l /\ forall h, fold_left newer l m = Some h -> small h.
Proof.
  intros Hl. revert m. induction Hl as [|s l Hs Hl IH]; intros m Hm; [done|].
  cbn [near fold_left]. destruct (IH (newer m s)) as [Hn Hh].
  - intros h [= <-]. destruct m as [m|]; [|done]. specialize (Hm m eq_refl).
    unfold small in *. lia.
  - split; [|done]. split; [|done]. destruct m as [m|]; cbn [in_window]; unfold small in *; [|lia].
    specialize (Hm m eq_refl). lia.
Qed.

Lemma window_counts (l : list Z) (h : Z) :
  Forall small l -> max_seq l = Some h ->
  highest_seen (record_all new l) = Some h /\
  received (record_all new l) = Z.of_nat (size (list_to_set l : gset Z)) /\
  lost (record_all new l) = h + 1 - Z.of_nat (size (list_to_set l : gset Z)).
Proof.
  intros Hl Hm. destruct (small_near l None Hl ltac:(done)) as [Hn Hh]. specialize (Hh h Hm).
  destruct (record_all_near l new S.init rep_new) as (a & R & Ea & Eh);
    [|done|].
  { eapply Forall_impl; [exact Hl|]. unfold small, fits. lia. }
  cbn in Ea, Eh. unfold max_seq in Hm. rewrite Hm in Eh.
  rewrite (left_id_L ∅ (∪)) in Ea. rewrite (rep_highest _ _ R), (rep_received _ _ R), <- Ea.
  destruct (rep_facts _ _ _ R Eh) as (Hf & _ & _ & Hsz & -> & _).
  unfold small, u64_max in *. split_and!; [done|lia|lia].
Qed.

(** With nothing lost every number up to the newest was accepted. *)
Lemma rep_complete c a h x :
  Rep c a -> S.highest a = Some h -> lost c <= 0 -> 0 <= x <= h -> x ∈ S.accepted a.
Proof.
  intros R Eh Hl Hx. destruct (rep_facts _ _ _ R Eh) as (_ & _ & Hr & Hsz & E & _).
  assert (S.accepted a = list_to_set (seqZ 0 (h + 1))) as ->.
  { apply set_subseteq_size_eq.
    - intros y Hy%Hr. apply elem_of_list_to_set, elem_of_seqZ. lia.
    - rewrite size_list_to_set by apply NoDup_seqZ. rewrite length_seqZ. lia. }
  apply elem_of_list_to_set, elem_of_seqZ. lia.
Qed.

(** A straggler of the last window fills its gap; any other number changes
    nothing. *)
Lemma straggle_accepts a h s :
  S.highest a = Some h ->
  S.highest (fst (S.straggle a s)) = Some h /\
  S.accepted (fst (S.straggle a s))
  = (if bool_decide (h - 65536 < s < h) then {[s]} else ∅) ∪ S.accepted a.
Proof.
  intros Eh. unfold S.straggle, S.tracked. rewrite Eh.
  destruct (Z.ltb_spec s h).
  - replace (h <? s) with false by lia. unfold PACKET_TRACKER_WINDOW.
    destruct (Z.leb_spec 65536 (h - s)); cbn [orb].
    + rewrite bool_decide_false by lia. proj. split; [done|set_solver].
    + rewrite (bool_decide_true (h - 65536 < s < h)) by lia.
      case_bool_decide; proj; split; done || set_solver.
  - rewrite bool_decide_false by lia. proj. split; [done|set_solver].
Qed.

(** Reordering and duplication inside the window cost nothing: for packets
    numbered within one window of zero any two arrival orders of the same
    packets lead to the same counts. *)
Lemma tracker_order_independent (l l' : list Z) (h : Z) :
  Forall small l -> (forall s, s ∈ l <-> s ∈ l') -> max_seq l = Some h -> max_seq l' = Some h ->
  received (record_all new l) = received (record_all new l') /\
  lost (record_all new l) = lost (record_all new l').
Proof.
  intros Hl Heq Hm Hm'.
  assert (Hl' : Forall small l') by (rewrite Forall_forall in Hl |- *; intros s Hs; by apply Hl, Heq).
  destruct (window_counts l h Hl Hm) as (_ & -> & ->).
  destruct (window_counts l' h Hl' Hm') as (_ & -> & ->).
  assert ((list_to_set l : gset Z) = list_to_set l') as -> by set_solver. done.
Qed.

Lemma record_tracked_unconfirmed j c s :
  record_tracked (set_unconfirmed j c) s
  = (set_unconfirmed j (fst (record_tracked c s)), snd (record_tracked c s)).
Proof.
  destruct c as [r l o h u v]. unfold record_tracked; cbn.
  destruct h as [h|]; [|done]. destruct (h <? s); [done|]. by destruct (_ || _).
Qed.

(** One stray datagram with a far-future number changes no counter and
    strands nobody: it is only held, and the next genuine packet is treated
    exactly as if the stray had never come. *)
Theorem tracker_stray_is_inert (c : PacketTracker.t) (stray s : Z) :
  unconfirmed_jump c = None ->
  PACKET_TRACKER_WINDOW < jump_of c stray -> jump_of c s <= PACKET_TRACKER_WINDOW ->
  record_unique c stray = (set_unconfirmed (Some stray) c, false) /\
  set_unconfirmed None (record (record c stray) s) = set_unconfirmed None (record c s) /\
  snd (record_unique (record c stray) s) = snd (record_unique c s).
Proof.
  intros Hu Hfar Hnear.
  assert (E : record_unique c stray = (set_unconfirmed (Some stray) c, false)).
  { unfold record_unique, confirm_jump. replace (_ <? _) with true by lia. by rewrite Hu. }
  split; [done|]. unfold record. rewrite E. cbn [fst].
  unfold record_unique.
  replace (PACKET_TRACKER_WINDOW <? jump_of (set_unconfirmed (Some stray) c) s) with false
    by (unfold jump_of in *; cbn; lia).
  replace (PACKET_TRACKER_WINDOW <? jump_of c s) with false by lia.
  rewrite record_tracked_unconfirmed. by destruct (record_tracked c s).
Qed.

End properties.

(** ** Witnesses *)
Section witnesses.
Import PacketTracker TrackerRefinement.

Lemma tracker_refines_spec_witness :
  let es := [Live 0; Live 3; Live 1; Live 3; Live 1000000; Tail 2; Tail 9] in
  let '(c, verdicts) := session feed new es in
  verdicts = [true; true; true; false; false; true; false] /\
  received c = 4 /\ lost c = 0 /\ out_of_order c = 2.
Proof.
  cbv zeta. pose proof (tracker_refines_spec
    [Live 0; Live 3; Live 1; Live 3; Live 1000000; Tail 2; Tail 9]
    ltac:(repeat constructor; cbn; unfold fits; lia)) as H.
  destruct (session feed new _) as [c vs].
  destruct (session feed_spec _ _) as [a expected] eqn:E. vm_compute in E.
  injection E as <- <-. destruct H as (-> & _ & _ & -> & -> & ->).
  vm_compute. by split_and!.
Defined.

Lemma tracker_counters_add_up_witness :
  let c := fst (record_unique (fst (record_unique new 0)) 3) in
  received c + lost c = 4 /\ 1 <= received c /\ 0 <= lost c /\ out_of_order c <= u64_max.
Proof.
  apply (tracker_counters_add_up _ 3);
    [|vm_compute; reflexivity|unfold u64_max; lia].
  apply reach_record; [apply reach_record; [constructor|]|]; unfold fits; lia.
Defined.

Lemma tracker_stray_is_inert_witness :
  let c := fst (record_unique new 0) in
  record_unique c 1000000 = (set_unconfirmed (Some 1000000) c, false).
Proof.
  refine (proj1 (tracker_stray_is_inert (fst (record_unique new 0)) 1000000 1 _ _ _));
    vm_compute; congruence.
Defined.

End witnesses.
