(* ===== verification/Budget.v ===== *)
(** * The shared byte budget of [-n] tests (src/src/budget.rs)

    One atomic counter shared by every send loop.  [claim] is the
    compare-and-swap loop of the source; the threads of a test interleave
    freely, including spurious failures of the weak exchange. *)
From S2P Require Import Prelude.

Module ByteBudget.

(** One pass of the loop in [claim]: the counter as another thread may have
    left it, the value last observed, and whether the weak exchange fails
    spuriously. *)
Inductive claim_outcome := Granted (granted : Z) | Retry (observed : Z).

Definition claim_iter (remaining current want : Z) (spurious : bool) : Z * claim_outcome :=
  let granted := Z.min current want in
  if granted =? 0 then (remaining, Granted 0)
  else if (remaining =? current) && negb spurious
  then (current - granted, Granted granted)
  else (remaining, Retry remaining).

(** [claim] with no other thread around: one load, then one pass. *)
Definition claim (remaining want : Z) : Z * Z :=
  match claim_iter remaining remaining want false with
  | (remaining, Granted g) => (remaining, g)
  | (remaining, Retry _) => (remaining, 0)
  end.

(** [fetch_add] wraps; the guard skips the no-op. *)
Definition refund (remaining bytes : Z) : Z :=
  if 0 <? bytes then wrapping_add 64 remaining bytes else remaining.

Definition is_spent (remaining : Z) : bool := remaining =? 0.

(** [claim_or_full] and [refund_unwritten] on an optional budget. *)
Definition claim_or_full (budget : option Z) (want : Z) : option Z * Z :=
  match budget with
  | Some b => let '(b, g) := claim b want in (Some b, g)
  | None => (None, want)
  end.

Definition refund_unwritten (budget : option Z) (claimed written : Z) : option Z :=
  match budget with
  | Some b => Some (refund b (saturating_sub claimed written))
  | None => None
  end.

(** ** Threads

    A send loop is between claims, inside the claim loop with the value it
    last observed, holding bytes it may write, or about to hand back what it
    did not write. *)
Inductive pc :=
  | Idle
  | Claiming (want current : Z)
  | Holding (granted : Z)
  | Refunding (bytes : Z).

Record world := World { remaining : Z; threads : list pc; delivered : Z }.

(** Bytes of the budget that are in the hands of a thread. *)
Definition held (p : pc) : Z :=
  match p with Holding g => g | Refunding b => b | _ => 0 end.

Inductive step : world -> world -> Prop :=
  | step_load r ts d i want :
      ts !! i = Some Idle -> fits 64 want ->
      step (World r ts d) (World r (<[i := Claiming want r]> ts) d)
  | step_cas r ts d i want current spurious r' o :
      ts !! i = Some (Claiming want current) ->
      claim_iter r current want spurious = (r', o) ->
      step (World r ts d)
        (World r' (<[i := match o with
                          | Granted 0 => Idle
                          | Granted g => Holding g
                          | Retry observed => Claiming want observed
                          end]> ts) d)
  | step_write r ts d i g n :
      ts !! i = Some (Holding g) -> 0 <= n <= g ->
      step (World r ts d) (World r (<[i := Refunding (g - n)]> ts) (d + n))
  | step_refund r ts d i b :
      ts !! i = Some (Refunding b) ->
      step (World r ts d) (World (refund r b) (<[i := Idle]> ts) d).

Definition start (total : Z) (n : nat) : world := World total (replicate n Idle) 0.

Definition run : world -> world -> Prop := rtc step.

End ByteBudget.

(** A claim takes no more than there is, and leaves the rest. *)
Lemma claim_within rest want b' claimed :
  ByteBudget.claim_or_full (Some rest) want = (b', claimed) ->
  b' = Some (rest - claimed) /\ claimed = Z.min rest want.
Proof.
  cbn. unfold ByteBudget.claim, ByteBudget.claim_iter. rewrite Z.eqb_refl. cbn.
  destruct (Z.eqb_spec (Z.min rest want) 0) as [E|]; intros [= <- <-]; [|done]. rewrite E. split; f_equal; lia.
Qed.

(** A claim on the stream's own view of the counter, of which [n] bytes were
    used. *)
Lemma refund_claim b want b' claimed n :
  0 <= want -> match b with Some r => 0 <= r < 2 ^ 64 | None => True end ->
  ByteBudget.claim_or_full b want = (b', claimed) -> 0 <= n <= claimed ->
  ByteBudget.refund_unwritten b' claimed n = option_map (fun r => r - n) b /\
  0 <= claimed <= want /\ (claimed = 0 -> 0 < want -> b = Some 0).
Proof.
  intros Hw Hb Hc Hn. destruct b as [r|]; cbn in Hc.
  - apply (claim_within r) in Hc as [-> ->]. cbn. unfold ByteBudget.refund, saturating_sub, wrapping_add. split_and!; [|lia..|].
    + f_equal. destruct (Z.ltb_spec 0 (Z.max 0 (Z.min r want - n))); [rewrite wrap_small by (unfold fits; lia)|]; lia.
    + intros. f_equal. lia.
  - injection Hc as <- <-. cbn. split_and!; [done|lia..].
Qed.

Section budget.
Import ByteBudget.

Definition thread_ok (p : pc) : Prop :=
  match p with
  | Idle => True
  | Claiming want current => fits 64 want /\ fits 64 current
  | Holding g => 0 < g
  | Refunding b => 0 <= b
  end.

(** Nothing is lost and nothing is made up: the bytes still to claim, those
    in the hands of threads and those delivered make up the total. *)
Definition conserved (total : Z) (w : world) : Prop :=
  fits 64 total /\ 0 <= remaining w /\ 0 <= delivered w /\
  Forall thread_ok (threads w) /\
  remaining w + zsum (map held (threads w)) + delivered w = total.

Lemma held_nonneg p : thread_ok p -> 0 <= held p.
Proof. destruct p; cbn; lia. Qed.

Lemma conserved_remaining total w : conserved total w -> fits 64 (remaining w).
Proof.
  intros ([? ?] & ? & ? & Ht & ?). split; [done|].
  assert (0 <= zsum (map held (threads w))); [|lia].
  apply zsum_nonneg, Forall_fmap. eapply Forall_impl; [done|]. apply held_nonneg.
Qed.

Lemma claim_iter_spec r current want spurious r' o :
  0 <= r -> 0 <= want -> 0 <= current -> claim_iter r current want spurious = (r', o) ->
  match o with
  | Granted g => r = r' + g /\ 0 <= r' /\ 0 <= g <= want
  | Retry observed => r' = r /\ observed = r
  end.
Proof.
  unfold claim_iter. intros Hr Hw Hc.
  destruct (Z.eqb_spec (Z.min current want) 0); [intros [= <- <-]; lia|].
  destruct (Z.eqb_spec r current) as [->|]; cbn [andb].
  - destruct spurious; cbn [negb]; intros [= <- <-]; lia.
  - intros [= <- <-]. lia.
Qed.

Ltac proj := cbn [remaining threads delivered thread_ok held] in *.

Lemma conserved_step total w w' : step w w' -> conserved total w -> conserved total w'.
Proof.
  intros Hstep Hc. pose proof (conserved_remaining _ _ Hc) as Hrf.
  destruct Hc as (Ht & Hr & Hd & Hok & Hsum).
  assert (Hlook : forall i p, threads w !! i = Some p ->
            thread_ok p /\ held p <= zsum (map held (threads w))).
  { intros i p Hi. split; [by eapply Forall_lookup_1|].
    eapply zsum_lookup_le; [|done]. eapply Forall_impl; [done|]. apply held_nonneg. }
  destruct Hstep as [r ts d i want Hi Hw|r ts d i want cur sp r' o Hi Hcas|r ts d i g n Hi Hn|r ts d i b Hi];
    destruct (Hlook _ _ Hi) as [Hp Hle]; unfold conserved; proj.
  - split_and!; try done; [by apply Forall_insert|].
    rewrite (zsum_insert held _ _ _ _ Hi). proj. lia.
  - destruct Hp as [Hwant Hcur].
    pose proof (claim_iter_spec _ _ _ _ _ _ Hr (proj1 Hwant) (proj1 Hcur) Hcas) as Ho.
    destruct o as [g|obs].
    + split_and!; try done; [apply Ho|apply Forall_insert; [done|]|].
      * destruct g; cbn; lia.
      * rewrite (zsum_insert held _ _ _ _ Hi). destruct g; proj; lia.
    + destruct Ho as [-> ->]. split_and!; try done; [apply Forall_insert; [done|by split]|].
      rewrite (zsum_insert held _ _ _ _ Hi). proj. lia.
  - split_and!; try done; [lia|apply Forall_insert; [done|cbn; lia]|].
    rewrite (zsum_insert held _ _ _ _ Hi). proj. lia.
  - assert (Hwr : refund r b = r + b).
    { unfold refund. zcase; [|cbn in Hp; lia]. apply wrap_small. unfold fits in *. lia. }
    split_and!; try done; [rewrite Hwr; lia|by apply Forall_insert|].
    rewrite (zsum_insert held _ _ _ _ Hi), Hwr. proj. lia.
Qed.

Lemma conserved_run total n w : fits 64 total -> run (start total n) w -> conserved total w.
Proof.
  intros Ht. apply rtc_ind_r.
  - split_and!; try done; [apply Ht|cbn; by apply Forall_replicate|].
    cbn. assert (zsum (map held (replicate n Idle)) = 0) as ->; [|lia].
    induction n; cbn; lia.
  - intros. by eapply conserved_step.
Qed.

(** C13. Whatever the interleaving of the send loops and however often the
    weak exchange fails, the bytes delivered never exceed the budget, and no
    counter update wraps. *)
Theorem budget_never_exceeded (total : Z) (n : nat) (w : world) :
  fits 64 total -> run (start total n) w ->
  delivered w <= total /\ fits 64 (remaining w) /\
  remaining w + zsum (map held (threads w)) + delivered w = total.
Proof.
  intros Ht Hrun. pose proof (conserved_run _ _ _ Ht Hrun) as Hc.
  pose proof (conserved_remaining _ _ Hc). destruct Hc as (_ & ? & ? & Hok & Hsum).
  split_and!; [|done|done].
  assert (0 <= zsum (map held (threads w))); [|lia].
  apply zsum_nonneg, Forall_fmap. eapply Forall_impl; [done|]. apply held_nonneg.
Qed.

(** A test that ends with the budget spent and every send loop idle has
    delivered exactly the requested number of bytes, short writes included. *)
Theorem budget_exact_when_spent (total : Z) (n : nat) (w : world) :
  fits 64 total -> run (start total n) w -> is_spent (remaining w) = true ->
  Forall (eq Idle) (threads w) -> delivered w = total.
Proof.
  intros Ht Hrun Hs Hidle. destruct (conserved_run _ _ _ Ht Hrun) as (_ & _ & _ & _ & Hsum).
  unfold is_spent in Hs. zbool. assert (zsum (map held (threads w)) = 0); [|lia].
  clear -Hidle. induction Hidle as [|? ? <- ? IH]; cbn; lia.
Qed.

(** The claim loop computes the minimum, and refunding undoes a claim. *)
Lemma claim_spec r want : 0 <= r -> 0 <= want -> claim r want = (r - Z.min r want, Z.min r want).
Proof.
  intros. unfold claim, claim_iter. rewrite Z.eqb_refl. cbn [andb negb].
  destruct (Z.eqb_spec (Z.min r want) 0) as [E|]; [|done]. by rewrite E, Z.sub_0_r.
Qed.

(** A short write takes from the budget exactly what was written, and an
    unbounded test always writes the full chunk. *)
Theorem claim_then_refund (budget : option Z) (want written : Z) :
  (forall b, budget = Some b -> fits 64 b) -> 0 <= want ->
  let '(budget', claimed) := claim_or_full budget want in
  0 <= written <= claimed ->
  claimed <= want /\
  refund_unwritten budget' claimed written = option_map (fun b => b - written) budget /\
  (budget = None -> claimed = want).
Proof.
  intros Hb Hw. destruct budget as [b|]; cbn.
  - specialize (Hb b eq_refl). unfold fits in Hb. rewrite claim_spec by lia. intros Hn.
    split_and!; [lia| |done]. apply (f_equal Some). unfold refund, saturating_sub.
    destruct (Z.ltb_spec 0 (Z.max 0 (Z.min b want - written))); [|lia].
    unfold wrapping_add, wrap. rewrite Z.mod_small; lia.
  - intros. split_and!; done || lia.
Qed.

Lemma budget_never_exceeded_witness :
  delivered (World 6 [Refunding 1; Idle] 3) <= 10.
Proof.
  refine (proj1 (budget_never_exceeded 10 2 (World 6 [Refunding 1; Idle] 3) _ _)).
  - unfold fits; lia.
  - eapply rtc_l; [apply (step_load 10 [Idle; Idle] 0 0 4); [done|unfold fits; lia]|].
    eapply rtc_l; [apply (step_cas 10 [Claiming 4 10; Idle] 0 0 4 10 false 6 (Granted 4)); done|].
    eapply rtc_l; [apply (step_write 6 [Holding 4; Idle] 0 0 4 3); [done|lia]|].
    apply rtc_refl.
Defined.

Lemma budget_exact_when_spent_witness : delivered (World 0 [Idle] 4) = 4.
Proof.
  refine (budget_exact_when_spent 4 1 (World 0 [Idle] 4) _ _ _ _).
  - unfold fits; lia.
  - eapply rtc_l; [apply (step_load 4 [Idle] 0 0 9); [done|unfold fits; lia]|].
    eapply rtc_l; [apply (step_cas 4 [Claiming 9 4] 0 0 9 4 true 4 (Retry 4)); done|].
    eapply rtc_l; [apply (step_cas 4 [Claiming 9 4] 0 0 9 4 false 0 (Granted 4)); done|].
    eapply rtc_l; [apply (step_write 0 [Holding 4] 0 0 4 4); [done|lia]|].
    eapply rtc_l; [apply (step_refund 0 [Refunding 0] 4 0 0); done|].
    apply rtc_refl.
  - reflexivity.
  - by repeat constructor.
Defined.

Lemma claim_then_refund_witness :
  refund_unwritten (Some 6) 4 1 = Some 9.
Proof.
  refine (proj1 (proj2 (claim_then_refund (Some 10) 4 1 _ _ _)));
    [intros b [= <-]; unfold fits; lia|lia|cbn; lia].
Defined.

End budget.
