(* ===== verification/Ip.v ===== *)
(** * Addresses (src/src/net.rs)

    IP and socket addresses as the standard library has them, IPv4-mapped
    normalisation, address-family handling and the family filter of name
    resolution. *)
From S2P Require Import Prelude.

(** Addresses are their 32- or 128-bit values. *)
Inductive IpAddr := V4 (a : Z) | V6 (a : Z).

#[global] Instance IpAddr_eq_dec : EqDecision IpAddr.
Proof. solve_decision. Defined.

#[global] Program Instance IpAddr_countable : Countable IpAddr :=
  inj_countable' (fun ip => match ip with V4 a => inl a | V6 a => inr a end)
                 (fun s => match s with inl a => V4 a | inr a => V6 a end) _.
Next Obligation. by intros []. Qed.

(** [Ipv6Addr::to_ipv4_mapped]: [::ffff:a.b.c.d]. *)
Definition to_ipv4_mapped (v6 : Z) : option Z :=
  if v6 / 2 ^ 32 =? 65535 then Some (v6 mod 2 ^ 32) else None.

Definition normalize_ip (addr : IpAddr) : IpAddr :=
  match addr with
  | V6 v6 => match to_ipv4_mapped v6 with Some v4 => V4 v4 | None => addr end
  | V4 _ => addr
  end.

Definition is_ipv4_mapped (addr : IpAddr) : bool :=
  match addr with
  | V6 v6 => match to_ipv4_mapped v6 with Some _ => true | None => false end
  | V4 _ => false
  end.

(** IPv6 socket addresses carry flow information and a scope. *)
Inductive SocketAddr :=
  | SaV4 (ip port : Z)
  | SaV6 (ip port flowinfo scope_id : Z).

#[global] Instance SocketAddr_eq_dec : EqDecision SocketAddr.
Proof. solve_decision. Defined.

(** [SocketAddr::new]: no flow information, no scope. *)
Definition sa_new (ip : IpAddr) (port : Z) : SocketAddr :=
  match ip with V4 a => SaV4 a port | V6 a => SaV6 a port 0 0 end.
Definition sa_ip (a : SocketAddr) : IpAddr :=
  match a with SaV4 ip _ => V4 ip | SaV6 ip _ _ _ => V6 ip end.
Definition sa_port (a : SocketAddr) : Z :=
  match a with SaV4 _ p => p | SaV6 _ p _ _ => p end.
Definition is_ipv4 (a : SocketAddr) : bool :=
  match a with SaV4 _ _ => true | SaV6 _ _ _ _ => false end.
Definition is_ipv6 (a : SocketAddr) : bool := negb (is_ipv4 a).
Definition is_unspecified (ip : IpAddr) : bool :=
  match ip with V4 a => a =? 0 | V6 a => a =? 0 end.

Definition with_port (addr : SocketAddr) (port : Z) : SocketAddr :=
  match addr with
  | SaV4 ip _ => SaV4 ip port
  | SaV6 ip _ flow scope => SaV6 ip port flow scope
  end.

Definition normalize_addr (addr : SocketAddr) : SocketAddr :=
  match addr with
  | SaV6 v6 port _ _ =>
    match to_ipv4_mapped v6 with Some v4 => sa_new (V4 v4) port | None => addr end
  | SaV4 _ _ => addr
  end.

Definition match_bind_family (bind remote : SocketAddr) : SocketAddr :=
  if is_unspecified (sa_ip bind) && negb (Bool.eqb (is_ipv4 bind) (is_ipv4 remote)) then
    let ip := if is_ipv6 remote then V6 0 else V4 0 in
    sa_new ip (sa_port bind)
  else bind.

Inductive AddressFamily := V4Only | V6Only | DualStack.

Definition bind_addr (f : AddressFamily) (port : Z) : SocketAddr :=
  match f with
  | V4Only => sa_new (V4 0) port
  | V6Only | DualStack => sa_new (V6 0) port
  end.

(** The socket domain a family is created in. *)
Inductive Domain := IPV4 | IPV6.
Definition domain (f : AddressFamily) : Domain :=
  match f with V4Only => IPV4 | V6Only | DualStack => IPV6 end.

(** [resolve_host] after the lookup; the two outcomes of the literal parser
    and of the system resolver are its inputs. *)
Inductive resolve_error := LiteralError | LookupError | NotFound | AddrNotAvailable.

Definition family_filter (f : AddressFamily) (addrs : list SocketAddr) : list SocketAddr :=
  match f with
  | V4Only => List.filter is_ipv4 addrs
  | V6Only => List.filter is_ipv6 addrs
  | DualStack => addrs
  end.

Definition resolve_host (literal : result (option SocketAddr) unit)
    (lookup : result (list SocketAddr) unit) (f : AddressFamily)
    : result (list SocketAddr) resolve_error :=
  let? lit := map_err (fun _ => LiteralError) literal in
  let? addrs := match lit with
                | Some addr => Ok [addr]
                | None => map_err (fun _ => LookupError) lookup
                end in
  match addrs with
  | [] => Err NotFound
  | _ =>
    match family_filter f addrs with
    | [] => Err AddrNotAvailable
    | filtered => Ok filtered
    end
  end.

(** ** Properties *)

Definition wf_ip (ip : IpAddr) : Prop :=
  match ip with V4 a => fits 32 a | V6 a => fits 128 a end.

Lemma normalize_ip_wf ip : wf_ip ip -> wf_ip (normalize_ip ip).
Proof.
  destruct ip as [a|a]; cbn; [done|]. unfold to_ipv4_mapped. intros H.
  destruct (_ =? _); cbn; [|done]. apply Z.mod_pos_bound. lia.
Qed.

Lemma normalize_ip_idemp ip : normalize_ip (normalize_ip ip) = normalize_ip ip.
Proof.
  destruct ip as [a|a]; cbn; [done|]. destruct (to_ipv4_mapped a) eqn:E; cbn; [done|].
  by rewrite E.
Qed.

(** The mapped form of an IPv4 address normalises to that address, and no
    other IPv6 address normalises to an IPv4 one. *)
Lemma normalize_ip_v4 ip a :
  wf_ip ip -> normalize_ip ip = V4 a <-> ip = V4 a \/ (ip = V6 (65535 * 2 ^ 32 + a) /\ fits 32 a).
Proof.
  destruct ip as [b|b]; cbn.
  - intros Hb. naive_solver.
  - intros Hb. unfold to_ipv4_mapped, fits in *.
    pose proof (Z.div_mod b (2 ^ 32) ltac:(lia)). pose proof (Z.mod_pos_bound b (2 ^ 32) ltac:(lia)).
    destruct (Z.eqb_spec (b / 2 ^ 32) 65535) as [E|E].
    + split; [intros [= <-]; right; split; [f_equal; lia|done]|].
      intros [?|[[= ->] ?]]; [done|]. f_equal. lia.
    + split; [done|]. intros [?|[[= ->] Ha]]; [done|]. exfalso. apply E.
      rewrite Z.div_add_l by lia. rewrite Z.div_small by lia. lia.
Qed.

Lemma with_port_ip a p : sa_ip (with_port a p) = sa_ip a.
Proof. by destruct a. Qed.

(** Name resolution never hands a caller an address outside the family it
    asked for, never an empty list, and with no preference keeps the
    resolver's answer as it is. *)
Theorem resolve_host_family literal lookup (f : AddressFamily) (addrs : list SocketAddr) :
  resolve_host literal lookup f = Ok addrs ->
  addrs <> [] /\
  Forall (fun a => match f with V4Only => is_ipv4 a = true
                              | V6Only => is_ipv6 a = true
                              | DualStack => True end) addrs /\
  (f = DualStack -> literal = Ok None -> lookup = Ok addrs).
Proof.
  unfold resolve_host. destruct literal as [lit|]; [|done]. cbn.
  set (found := match lit with Some addr => Ok [addr]
                | None => map_err (fun _ => LookupError) lookup end).
  destruct found as [l|] eqn:Ef; [|done]. cbn.
  destruct l as [|a0 l0]; [done|]. destruct (family_filter f (a0 :: l0)) eqn:Efl; [done|].
  intros [= <-]. split; [done|]. rewrite <- Efl. split.
  - destruct f; cbn [family_filter]; [| |by apply Forall_true]; apply List.Forall_forall;
      intros x Hx%List.filter_In; apply Hx.
  - intros -> [= ->]. subst found. destruct lookup; cbn in *; [|done].
    injection Ef as ->. done.
Qed.

Lemma resolve_host_family_witness :
  [SaV4 1 80] <> [] /\ Forall (fun a => is_ipv4 a = true) [SaV4 1 80].
Proof.
  destruct (resolve_host_family (Ok None) (Ok [SaV6 1 80 0 0; SaV4 1 80]) V4Only [SaV4 1 80])
    as (H1 & H2 & _); [reflexivity|]. exact (conj H1 H2).
Defined.
