(* ===== verification/RateLimit.v ===== *)
(** * Per-IP admission (src/src/rate_limit.rs)

    The concurrent-test limiter, its guards and its cleanup.  Every operation
    runs under the map's per-entry lock, so a test is a sequence of atomic
    operations in some order; instants are nanoseconds of a monotonic clock. *)
From S2P Require Import Prelude Ip.

Record IpState := mkIpState { count : Z; last_access : Z }.

Record RateLimiter := mkRateLimiter {
  limits : gmap IpAddr IpState;
  max_per_ip : Z;
  window : Z
}.

Record RateLimitError := mkRateLimitError { err_ip : IpAddr; current : Z; max : Z }.

Module RateLimiter.

Definition new (max_per_ip window : Z) : RateLimiter := mkRateLimiter ∅ max_per_ip window.

Definition set_limits (self : RateLimiter) (m : gmap IpAddr IpState) : RateLimiter :=
  mkRateLimiter m (max_per_ip self) (window self).

(** [entry(ip).or_insert_with(..)], then the admission test on it. *)
Definition check (self : RateLimiter) (now : Z) (ip : IpAddr)
    : RateLimiter * result unit RateLimitError :=
  let state := default (mkIpState 0 now) (limits self !! ip) in
  if max_per_ip self <=? count state then
    (set_limits self (<[ip := state]> (limits self)),
     Err (mkRateLimitError ip (count state) (max_per_ip self)))
  else
    (set_limits self (<[ip := mkIpState (wrapping_add 32 (count state) 1) now]> (limits self)),
     Ok tt).

Definition release (self : RateLimiter) (ip : IpAddr) : RateLimiter :=
  match limits self !! ip with
  | Some state =>
    set_limits self
      (<[ip := mkIpState (saturating_sub (count state) 1) (last_access state)]> (limits self))
  | None => self
  end.

Definition current_count (self : RateLimiter) (ip : IpAddr) : Z :=
  match limits self !! ip with Some state => count state | None => 0 end.

(** [duration_since] is zero for an instant in the future. *)
Definition keep (self : RateLimiter) (now : Z) (state : IpState) : bool :=
  (0 <? count state) || (saturating_sub now (last_access state) <? window self).

Definition cleanup (self : RateLimiter) (now : Z) : RateLimiter :=
  set_limits self (filter (fun e => keep self now (snd e) = true) (limits self)).

(** The period of the background task: never zero, whatever the window. *)
Definition cleanup_interval (self : RateLimiter) : Z := Z.max (window self / 2) 500000000.

End RateLimiter.

Record RateLimitConfig := mkRateLimitConfig { cfg_max_per_ip : option Z; window_secs : Z }.

Definition default_config : RateLimitConfig := mkRateLimitConfig None 60.

Definition build (c : RateLimitConfig) : option RateLimiter :=
  option_map (fun max => RateLimiter.new max (window_secs c * 1000000000)) (cfg_max_per_ip c).

(** ** Tests and their guards

    A test is admitted by a successful [check], whose guard it keeps; the
    guard's [drop] calls [release].  The world holds the limiter and the
    addresses of the live guards. *)
Record world := mkWorld { limiter : RateLimiter; guards : list IpAddr }.

Inductive event := Check (now : Z) (ip : IpAddr) | DropGuard (i : nat) | Cleanup (now : Z).

Definition run_event (w : world) (e : event) : world :=
  match e with
  | Check now ip =>
    let '(l, r) := RateLimiter.check (limiter w) now ip in
    mkWorld l (match r with Ok _ => ip :: guards w | Err _ => guards w end)
  | DropGuard i =>
    match guards w !! i with
    | Some ip => mkWorld (RateLimiter.release (limiter w) ip) (delete i (guards w))
    | None => w
    end
  | Cleanup now => mkWorld (RateLimiter.cleanup (limiter w) now) (guards w)
  end.

Definition run (w : world) (es : list event) : world := fold_left run_event es w.

Definition start (max window : Z) : world := mkWorld (RateLimiter.new max window) [].

Section properties.
Import RateLimiter.

(** Live tests of an address. *)
Definition live (ip : IpAddr) (gs : list IpAddr) : Z :=
  zsum (map (fun g => if decide (g = ip) then 1 else 0) gs).

Definition inv (w : world) : Prop :=
  fits 32 (max_per_ip (limiter w)) /\
  forall ip, current_count (limiter w) ip = live ip (guards w) /\
             live ip (guards w) <= max_per_ip (limiter w).

Lemma live_nonneg ip gs : 0 <= live ip gs.
Proof. unfold live. induction gs; cbn; [lia|]. case_decide; lia. Qed.

Lemma live_delete ip gs i g :
  gs !! i = Some g -> live ip (delete i gs) = live ip gs - (if decide (g = ip) then 1 else 0).
Proof.
  unfold live. revert i. induction gs as [|x gs IH]; intros [|i] H; try done.
  - cbn in *. injection H as ->. lia.
  - change (delete (S i) (x :: gs)) with (x :: delete i gs). cbn in *. rewrite (IH i H). lia.
Qed.

Lemma live_in ip gs i : gs !! i = Some ip -> 1 <= live ip gs.
Proof.
  intros H. pose proof (live_delete ip gs i ip H) as E. case_decide; [|done].
  pose proof (live_nonneg ip (delete i gs)). lia.
Qed.

Lemma current_count_insert l ip ip' s :
  current_count (set_limits l (<[ip := s]> (limits l))) ip'
  = if decide (ip = ip') then count s else current_count l ip'.
Proof.
  unfold current_count; cbn. rewrite lookup_insert. by case_decide.
Qed.

Lemma current_count_default l now ip :
  count (default (mkIpState 0 now) (limits l !! ip)) = current_count l ip.
Proof. unfold current_count. by destruct (limits l !! ip). Qed.

Lemma current_count_cleanup l now ip :
  0 <= current_count l ip -> current_count (cleanup l now) ip = current_count l ip.
Proof.
  unfold current_count, cleanup; cbn. rewrite map_lookup_filter.
  destruct (limits l !! ip) as [s|]; cbn; [|done]. intros Hs.
  case_guard as Hk; cbn; [done|]. unfold keep in Hk. cbn in Hk.
  destruct (Z.ltb_spec 0 (count s)); [done|]. lia.
Qed.

Lemma inv_event w e : inv w -> inv (run_event w e).
Proof.
  intros [Hmax Hinv]. destruct e as [now ip|i|now]; cbn.
  - unfold check. destruct (Hinv ip) as [Hc Hle].
    destruct (Z.leb_spec (max_per_ip (limiter w))
      (count (default (mkIpState 0 now) (limits (limiter w) !! ip)))) as [Hfull|Hroom];
      rewrite current_count_default in *; (split; [done|]; cbn [limiter guards]; intros ip';
      rewrite current_count_insert; destruct (Hinv ip') as [Hc' Hle']).
    + rewrite current_count_default. case_decide; [subst|]; by split.
    + cbn [count max_per_ip set_limits]. unfold live in *; cbn. fold (live ip' (guards w)) in *.
      case_decide; [subst ip'|split; lia]. fold (live ip (guards w)) in *.
      pose proof (live_nonneg ip (guards w)). unfold wrapping_add. rewrite wrap_small; [lia|].
      unfold fits in *. lia.
  - destruct (guards w !! i) as [g|] eqn:Hg; [|by split].
    destruct (Hinv g) as [Hg' _]. pose proof (live_in _ _ _ Hg) as H1.
    unfold release. destruct (limits (limiter w) !! g) as [s|] eqn:Hs.
    + split; [done|]. cbn [limiter guards]. intros ip'. rewrite current_count_insert.
      rewrite (live_delete ip' _ _ _ Hg). destruct (Hinv ip') as [Hc' Hle'].
      cbn [count max_per_ip set_limits]. case_decide; [subst ip'|split; lia].
      unfold current_count in Hg'. rewrite Hs in Hg'. unfold saturating_sub. lia.
    + unfold current_count in Hg'. rewrite Hs in Hg'. lia.
  - split; [done|]. intros ip. cbn [limiter guards]. destruct (Hinv ip) as [Hc Hle].
    rewrite current_count_cleanup by (rewrite Hc; apply live_nonneg). by split.
Qed.

Lemma inv_run es : forall w, inv w -> inv (run w es).
Proof. induction es as [|e es IH]; intros w Hw; [done|]. by apply IH, inv_event. Qed.

Lemma inv_start m win : fits 32 m -> inv (start m win).
Proof. intros H. split; [done|]. intros ip. cbn. unfold fits in H. split; [done|lia]. Qed.

Lemma max_event w e : max_per_ip (limiter (run_event w e)) = max_per_ip (limiter w).
Proof.
  destruct e as [now a|i|now]; cbn; [|destruct (guards w !! i) as [g|]; [|done]; cbn|done].
  - unfold check. by destruct (_ <=? _).
  - unfold release. by destruct (limits (limiter w) !! g).
Qed.

Lemma max_run es : forall w, max_per_ip (limiter (run w es)) = max_per_ip (limiter w).
Proof.
  induction es as [|e es IH]; intros w; [done|]. change (run w (e :: es)) with (run (run_event w e) es).
  by rewrite IH, max_event.
Qed.

(** C12. The limiter's count of an address is exactly its number of running
    tests and never exceeds the limit, over every order of admissions, guard
    drops and cleanups; no slot leaks and none is released twice. *)
Theorem rate_limit_exact (m win : Z) (es : list event) (ip : IpAddr) :
  fits 32 m ->
  let w := run (start m win) es in
  current_count (limiter w) ip = live ip (guards w) /\ live ip (guards w) <= m.
Proof.
  intros Hm. cbn zeta. destruct (inv_run es _ (inv_start m win Hm)) as [_ H].
  destruct (H ip) as [H1 H2]. rewrite max_run in H2. by split.
Qed.

(** Admission is refused exactly when the address already runs the
    allowed number of tests, and the error reports that number. *)
Theorem rate_limit_check (m win now : Z) (es : list event) (ip : IpAddr) :
  fits 32 m ->
  let w := run (start m win) es in
  snd (check (limiter w) now ip)
  = if live ip (guards w) <? m then Ok tt else Err (mkRateLimitError ip m m).
Proof.
  intros Hm. cbn zeta. destruct (inv_run es _ (inv_start m win Hm)) as [_ H].
  destruct (H ip) as [H1 H2]. rewrite max_run in H2. cbn in H2.
  unfold check. rewrite current_count_default, max_run, H1. cbn [start new max_per_ip limiter].
  destruct (Z.leb_spec m (live ip (guards (run (start m win) es)))) as [Hge|Hlt]; cbn [snd].
  - replace (_ <? m) with false by lia. do 2 f_equal. lia.
  - by replace (_ <? m) with true by lia.
Qed.

(** A background cleanup is invisible: it never forgets a running test, and
    what it forgets counts zero. *)
Lemma cleanup_invisible m win now es ip :
  fits 32 m ->
  let l := limiter (run (start m win) es) in
  current_count (cleanup l now) ip = current_count l ip.
Proof.
  intros Hm. cbn zeta. apply current_count_cleanup.
  destruct (inv_run es _ (inv_start m win Hm)) as [_ H]. destruct (H ip) as [-> _].
  apply live_nonneg.
Qed.

Lemma cleanup_interval_pos l : 0 < cleanup_interval l.
Proof. unfold cleanup_interval. lia. Qed.

Lemma rate_limit_exact_witness :
  let w := run (start 2 60) [Check 1 (V4 7); Check 2 (V4 7); DropGuard 0; Cleanup 500] in
  current_count (limiter w) (V4 7) = 1.
Proof.
  cbv zeta. pose proof (rate_limit_exact 2 60
    [Check 1 (V4 7); Check 2 (V4 7); DropGuard 0; Cleanup 500] (V4 7) ltac:(unfold fits; lia)) as [H _].
  rewrite H. vm_compute. reflexivity.
Defined.

Lemma rate_limit_check_witness :
  snd (check (limiter (run (start 1 60) [Check 1 (V4 7)])) 9 (V4 7))
  = Err (mkRateLimitError (V4 7) 1 1).
Proof.
  exact (rate_limit_check 1 60 9 [Check 1 (V4 7)] (V4 7) ltac:(unfold fits; lia)).
Defined.

End properties.
