(* ===== verification/Acl.v ===== *)
(** * Access control lists (src/src/acl.rs)

    CIDR networks come from the ipnetwork crate: the type, its parser,
    membership test and printer are parameters. *)
From S2P Require Import Prelude Bytes Text Ip.

Section acl.
Context {IpNetwork : Type}.
Variable contains : IpNetwork -> IpAddr -> bool.
Variable parse_network : list Z -> option IpNetwork.

Record Acl := mkAcl { allow : list IpNetwork; deny : list IpNetwork }.

Inductive acl_error :=
  | BadNetwork (s : list Z)
  | InvalidLine (line : list Z)
  | UnknownDirective (word : list Z)
  | FileError.

Definition acl_new : Acl := mkAcl [] [].

Definition add_allow (self : Acl) (n : IpNetwork) : Acl := mkAcl (allow self ++ [n]) (deny self).
Definition add_deny (self : Acl) (n : IpNetwork) : Acl := mkAcl (allow self) (deny self ++ [n]).

Definition parse (s : list Z) : result IpNetwork acl_error :=
  ok_or (parse_network s) (BadNetwork s).

(** [.map(parse).collect::<Result<Vec<_>, _>>()]. *)
Fixpoint parse_all (l : list (list Z)) : result (list IpNetwork) acl_error :=
  match l with
  | [] => Ok []
  | s :: l => let? n := parse s in let? ns := parse_all l in Ok (n :: ns)
  end.

Definition from_rules (allow deny : list (list Z)) : result Acl acl_error :=
  let? allow := parse_all allow in
  let? deny := parse_all deny in
  Ok (mkAcl allow deny).

(** One line of an ACL file. *)
Definition file_line (acl : Acl) (line : list Z) : result Acl acl_error :=
  let line := trim line in
  if match line with [] => true | c :: _ => c =? 35 end then Ok acl
  else
    match split_whitespace line with
    | [directive; net] =>
      let? network := parse net in
      let word := to_lowercase directive in
      if str_eqb word (txt "allow") then Ok (add_allow acl network)
      else if str_eqb word (txt "deny") then Ok (add_deny acl network)
      else Err (UnknownDirective directive)
    | _ => Err (InvalidLine line)
    end.

Fixpoint file_lines (acl : Acl) (ls : list (list Z)) : result Acl acl_error :=
  match ls with
  | [] => Ok acl
  | l :: ls => let? acl := file_line acl l in file_lines acl ls
  end.

(** [from_file], after the read. *)
Definition from_file (content : result (list Z) unit) : result Acl acl_error :=
  let? content := map_err (fun _ => FileError) content in
  file_lines acl_new (lines content).

Fixpoint any_contains (ns : list IpNetwork) (ip : IpAddr) : bool :=
  match ns with
  | [] => false
  | network :: ns => if contains network ip then true else any_contains ns ip
  end.

Definition is_allowed (self : Acl) (ip : IpAddr) : bool :=
  let ip := normalize_ip ip in
  if any_contains (deny self) ip then false
  else match allow self with
       | [] => true
       | _ => any_contains (allow self) ip
       end.

Definition is_configured (self : Acl) : bool :=
  match allow self, deny self with [], [] => false | _, _ => true end.

(** The rule reported for logging. *)
Inductive rule := DenyRule (n : IpNetwork) | AllowRule (n : IpNetwork).

Definition matched_rule (self : Acl) (ip : IpAddr) : option rule :=
  let ip := normalize_ip ip in
  match List.find (fun n => contains n ip) (deny self) with
  | Some n => Some (DenyRule n)
  | None => option_map AllowRule (List.find (fun n => contains n ip) (allow self))
  end.

(** [AclConfig]: the file, read beforehand when configured. *)
Record AclConfig := mkAclConfig {
  cfg_allow : list (list Z);
  cfg_deny : list (list Z);
  cfg_file : option (result (list Z) unit)
}.

Fixpoint add_rules (add : Acl -> IpNetwork -> Acl) (acl : Acl) (rules : list (list Z))
    : result Acl acl_error :=
  match rules with
  | [] => Ok acl
  | s :: rules => let? n := parse s in add_rules add (add acl n) rules
  end.

Definition build (self : AclConfig) : result Acl acl_error :=
  let? acl := match cfg_file self with Some f => from_file f | None => Ok acl_new end in
  let? acl := add_rules add_allow acl (cfg_allow self) in
  add_rules add_deny acl (cfg_deny self).

(** ** Properties *)

Lemma any_contains_spec ns ip :
  any_contains ns ip = true <-> exists n, n ∈ ns /\ contains n ip = true.
Proof.
  induction ns as [|n ns IH]; cbn.
  - split; [done|]. by intros (n & ?%elem_of_nil & _).
  - setoid_rewrite elem_of_cons. destruct (contains n ip) eqn:E; [split; eauto|].
    rewrite IH. split; [intros (m & ? & ?); eauto|].
    intros (m & [->|?] & ?); [congruence|eauto].
Qed.

Lemma find_any ns ip :
  any_contains ns ip = match List.find (fun n => contains n ip) ns with
                       | Some _ => true | None => false end.
Proof. induction ns as [|n ns IH]; cbn; [done|]. by destruct (contains n ip). Qed.

(** A client is let in exactly when no deny rule covers its normalised
    address and, if there is an allowlist, some allow rule does; deny always
    wins, and the rule reported for the log is one that decided. *)
Theorem acl_decision (self : Acl) (ip : IpAddr) :
  (is_allowed self ip = true <->
   (forall n, n ∈ deny self -> contains n (normalize_ip ip) = false) /\
   (allow self = [] \/ exists n, n ∈ allow self /\ contains n (normalize_ip ip) = true)) /\
  match matched_rule self ip with
  | Some (DenyRule n) => is_allowed self ip = false /\ n ∈ deny self
  | Some (AllowRule n) => is_allowed self ip = true /\ n ∈ allow self
  | None => is_allowed self ip = match allow self with [] => true | _ => false end
  end.
Proof.
  unfold is_allowed, matched_rule. set (a := normalize_ip ip). split.
  - destruct (any_contains (deny self) a) eqn:Ed.
    + split; [done|]. intros [Hd _]. apply any_contains_spec in Ed as (n & Hn & Hc).
      by rewrite Hd in Hc.
    + assert (Hd : forall n, n ∈ deny self -> contains n a = false).
      { intros n Hn. destruct (contains n a) eqn:E; [|done].
        enough (any_contains (deny self) a = true) by congruence.
        apply any_contains_spec. eauto. }
      destruct (allow self) as [|x l] eqn:Ea; [by split; auto|].
      rewrite any_contains_spec. naive_solver.
  - rewrite !find_any. destruct (List.find _ (deny self)) as [n|] eqn:Ed.
    + split; [done|]. by apply List.find_some in Ed as [?%list_elem_of_In _].
    + destruct (List.find _ (allow self)) as [n|] eqn:Ea; cbn; [|by destruct (allow self)].
      split; [by destruct (allow self)|]. by apply List.find_some in Ea as [?%list_elem_of_In _].
Qed.

(** An IPv4 client that reaches a dual-stack socket in its mapped IPv6
    form gets the verdict of its IPv4 address. *)
Theorem acl_mapped (self : Acl) (a : Z) :
  fits 32 a -> is_allowed self (V6 (65535 * 2 ^ 32 + a)) = is_allowed self (V4 a).
Proof.
  intros H. unfold is_allowed. cbn [normalize_ip]. unfold to_ipv4_mapped, fits in *.
  rewrite Z.div_add_l, Z.div_small by lia. rewrite Z.add_0_r, Z.eqb_refl.
  by rewrite Z.add_comm, Z.mod_add, Z.mod_small by lia.
Qed.

(** The rule of a significant line: [None] for blanks and comments. *)
Definition line_rule (line : list Z) : option (result rule acl_error) :=
  let line := trim line in
  if match line with [] => true | c :: _ => c =? 35 end then None
  else Some match split_whitespace line with
       | [directive; net] =>
         let? n := parse net in
         if str_eqb (to_lowercase directive) (txt "allow") then Ok (AllowRule n)
         else if str_eqb (to_lowercase directive) (txt "deny") then Ok (DenyRule n)
         else Err (UnknownDirective directive)
       | _ => Err (InvalidLine line)
       end.

Definition rules_of (ls : list (list Z)) : list (result rule acl_error) := omap line_rule ls.

Definition allows (rs : list rule) : list IpNetwork :=
  omap (fun r => match r with AllowRule n => Some n | DenyRule _ => None end) rs.
Definition denies (rs : list rule) : list IpNetwork :=
  omap (fun r => match r with DenyRule n => Some n | AllowRule _ => None end) rs.

Lemma file_line_rule acl line :
  file_line acl line = match line_rule line with
                       | None => Ok acl
                       | Some (Ok (AllowRule n)) => Ok (add_allow acl n)
                       | Some (Ok (DenyRule n)) => Ok (add_deny acl n)
                       | Some (Err e) => Err e
                       end.
Proof.
  unfold file_line, line_rule. destruct (trim line) as [|c r]; [done|].
  destruct (c =? 35); [done|].
  destruct (split_whitespace _) as [|w [|n [|]]]; try done.
  destruct (parse n); cbn -[txt str_eqb]; [|done].
  destruct (str_eqb _ _); [done|]. by destruct (str_eqb _ _).
Qed.

Lemma file_lines_rules ls acl acl' :
  file_lines acl ls = Ok acl' <->
  exists rs, rules_of ls = map Ok rs /\
    acl' = mkAcl (allow acl ++ allows rs) (deny acl ++ denies rs).
Proof.
  revert acl. induction ls as [|l ls IH]; intros acl; cbn.
  - split.
    + intros [= <-]. exists []. cbn. rewrite !app_nil_r. by destruct acl.
    + intros ([|r rs] & H & ->); [|done]. cbn. rewrite !app_nil_r. by destruct acl.
  - rewrite file_line_rule. unfold rules_of in *. cbn.
    destruct (line_rule l) as [[[n|n]|e]|]; cbn; [..|done];
      try (rewrite IH; split; [intros (rs & H1 & ->)|intros ([|r rs] & H1 & ->)]; cbn in *;
           [eexists (_ :: rs)|done|injection H1 as <- H1; exists rs]; cbn;
           rewrite ?H1, <- ?app_assoc; done).
    + split; [done|]. by intros ([|r rs] & H & _).
Qed.

(** Loading a file keeps exactly its rules: it succeeds only when every
    line that is neither blank nor a comment is a well-formed rule, and then
    the two lists are those rules, all of them and in the file's order. *)
Theorem acl_from_file_rules (content : list Z) (acl : Acl) :
  from_file (Ok content) = Ok acl <->
  exists rs, rules_of (lines content) = map Ok rs /\ acl = mkAcl (allows rs) (denies rs).
Proof. unfold from_file; cbn. by rewrite file_lines_rules. Qed.

End acl.

Arguments Acl : clear implicits.

Lemma acl_mapped_witness :
  is_allowed (fun n ip => bool_decide (V4 n = ip)) (mkAcl [] [167772161]) (V6 (65535 * 2 ^ 32 + 167772161))
  = false.
Proof.
  rewrite (acl_mapped (fun n ip => bool_decide (V4 n = ip)) (mkAcl [] [167772161]) 167772161)
    by (unfold fits; lia).
  reflexivity.
Defined.
