(* ===== verification/Auth.v ===== *)
(** * Pre-shared-key authentication (src/src/auth.rs)

    Challenge and response, the constant-time comparison, and the checks on
    the key file.  A [str] is its UTF-8 bytes here.  HMAC-SHA256 comes from
    the hmac and sha2 crates and is a parameter, as is what the operating
    system says about the opened file. *)
From S2P Require Import Prelude Bytes.

(** The loop of [constant_time_eq] accumulates the differences of the two
    slices, the shorter one padded with zeros, then their lengths. *)
Definition constant_time_eq (a b : list Z) : bool :=
  let len := Nat.max (length a) (length b) in
  let result := fold_left
    (fun result i => Z.lor result (Z.lxor (nth i a 0) (nth i b 0))) (seq 0 len) 0 in
  let result := Z.lor result (if Nat.eqb (length a) (length b) then 0 else 1) in
  result =? 0.

Definition NONCE_LENGTH : nat := 32.
Definition MAX_PSK_LENGTH : Z := 1024.

Section hmac.
Variable hmac_sha256 : list Z -> list Z -> list Z.

Definition compute_response_with_key (nonce key : list Z) : list Z :=
  hex_encode (hmac_sha256 key nonce).
Definition compute_response (nonce psk : list Z) : list Z := compute_response_with_key nonce psk.
Definition verify_response_with_key (nonce key response : list Z) : bool :=
  let expected := compute_response_with_key nonce key in
  constant_time_eq expected response.
Definition verify_response (nonce psk response : list Z) : bool :=
  verify_response_with_key nonce psk response.
End hmac.

(** [generate_nonce] from the bytes the generator returned. *)
Definition generate_nonce (random : list Z) : list Z := hex_encode (take NONCE_LENGTH random).

(** ** The key file *)
Inductive psk_error := OpenFailed | BadPermissions (mode : Z) | ReadFailed | PskTooLong (len : Z) | PskEmpty.

Definition require_owner_only_permissions (mode : Z) : result unit psk_error :=
  let mode := Z.land mode 511 in
  if negb (Z.land mode 63 =? 0) then Err (BadPermissions mode) else Ok tt.

Definition expected_acl (uid : Z) : list Z :=
  splice 16 (to_le_bytes 4 uid)
    [2; 0; 0; 0;
     1; 0; 4; 0; 255; 255; 255; 255;
     2; 0; 4; 0; 0; 0; 0; 0;
     4; 0; 0; 0; 255; 255; 255; 255;
     16; 0; 4; 0; 255; 255; 255; 255;
     32; 0; 0; 0; 255; 255; 255; 255].

Definition service_credential_permissions (owner mode : Z) (regular : bool) (acl : list Z) (uid : Z)
    : bool :=
  (owner =? 0) && (Z.land mode 4095 =? 288) && regular && bool_decide (acl = expected_acl uid).

(** What the system reports about the opened file: owner, mode, kind, the
    ACL attribute ([None] when the call fails or its size differs), the
    effective user, the content. *)
Record opened := mkOpened {
  f_uid : Z; f_mode : Z; f_regular : bool; f_acl : option (list Z); f_content : result (list Z) unit
}.

Definition is_service_credential (euid : Z) (f : opened) : bool :=
  match f_acl f with
  | Some acl => (len acl =? 44)
                && service_credential_permissions (f_uid f) (f_mode f) (f_regular f) acl euid
  | None => false
  end.

Definition validate_psk (psk : list Z) : result unit psk_error :=
  if MAX_PSK_LENGTH <? len psk then Err (PskTooLong (len psk))
  else match psk with [] => Err PskEmpty | _ => Ok tt end.

(** [read_psk_file] on Linux; [trim] is [str::trim] on the file's text. *)
Definition read_psk_file (trim : list Z -> list Z) (euid : Z) (open : result opened unit)
    : result (list Z) psk_error :=
  let? file := map_err (fun _ => OpenFailed) open in
  let? _ := match require_owner_only_permissions (f_mode file) with
            | Ok _ => Ok tt
            | Err error => if is_service_credential euid file then Ok tt else Err error
            end in
  let? content := map_err (fun _ => ReadFailed) (f_content file) in
  let psk := trim content in
  let? _ := validate_psk psk in
  Ok psk.

Record AuthConfig := mkAuthConfig { psk : option (list Z) }.
Definition is_required (c : AuthConfig) : bool := match psk c with Some _ => true | None => false end.
Definition validate (c : AuthConfig) : result unit psk_error :=
  match psk c with Some p => validate_psk p | None => Ok tt end.

(** ** Properties *)

Lemma fold_lor_zero (f : nat -> Z) l acc :
  0 <= acc -> (forall i, 0 <= f i) ->
  fold_left (fun r i => Z.lor r (f i)) l acc = 0 <-> acc = 0 /\ Forall (fun i => f i = 0) l.
Proof.
  intros Ha Hf. revert acc Ha. induction l as [|i l IH]; intros acc Ha; cbn.
  - split; [intros ->; auto|by intros [-> _]].
  - rewrite IH by (apply Z.lor_nonneg; auto). rewrite Z.lor_eq_0_iff, Forall_cons. tauto.
Qed.

Lemma nth_eq_ext (a b : list Z) :
  length a = length b -> (forall i, (i < length a)%nat -> nth i a 0 = nth i b 0) -> a = b.
Proof.
  intros Hl H. apply (nth_ext a b 0 0 Hl). intros i Hi. by apply H.
Qed.

Lemma nth_nonneg l i : bytes_ok l -> 0 <= nth i l 0.
Proof.
  intros H. destruct (Nat.ltb_spec i (length l)).
  - eapply Forall_forall in H; [|apply list_elem_of_In, nth_In; eauto]. apply H.
  - by rewrite nth_overflow by done.
Qed.

(** The constant-time comparison is equality of byte strings: padding the
    shorter slice never makes two different ones look the same. *)
Lemma constant_time_eq_spec (a b : list Z) :
  bytes_ok a -> bytes_ok b -> constant_time_eq a b = true <-> a = b.
Proof.
  intros Ha Hb. unfold constant_time_eq.
  set (f := fun i : nat => Z.lxor (nth i a 0) (nth i b 0)).
  assert (Hf : forall i, 0 <= f i).
  { intros i. apply Z.lxor_nonneg. pose proof (nth_nonneg a i Ha). pose proof (nth_nonneg b i Hb). tauto. }
  change (fold_left _ _ 0) with
    (fold_left (fun r i => Z.lor r (f i)) (seq 0 (Nat.max (length a) (length b))) 0).
  rewrite Z.eqb_eq, Z.lor_eq_0_iff, (fold_lor_zero f) by (done || lia). split.
  - intros [[_ H] Hl]. destruct (Nat.eqb_spec (length a) (length b)) as [El|]; [|done].
    apply nth_eq_ext; [done|]. intros i Hi. apply Z.lxor_eq.
    rewrite Forall_forall in H. apply (H i). apply elem_of_seq. lia.
  - intros ->. rewrite Nat.eqb_refl. split_and!; try done.
    apply Forall_forall. intros i _. unfold f. apply Z.lxor_nilpotent.
Qed.

Lemma hex_encode_ok bs : bytes_ok bs -> bytes_ok (hex_encode bs).
Proof.
  induction 1 as [|b l Hb Hl IH]; [constructor|]. rewrite hex_encode_cons. unfold is_byte in Hb.
  pose proof (Z.mod_pos_bound b 16 ltac:(lia)).
  assert (0 <= b / 16 < 16) by (split; [apply Z.div_pos; lia|apply Z.div_lt_upper_bound; lia]).
  pose proof (hex_digit_ascii (b / 16) ltac:(lia)). pose proof (hex_digit_ascii (b mod 16) ltac:(lia)).
  repeat apply Forall_cons_2; unfold is_byte; [lia|lia|done].
Qed.

(** With an HMAC that returns bytes, the server accepts a response exactly
    when it is the one the holder of the key computes for this nonce. *)
Theorem verify_response_iff (hmac : list Z -> list Z -> list Z) (nonce key response : list Z) :
  (forall k m, bytes_ok (hmac k m)) -> bytes_ok response ->
  verify_response hmac nonce key response = true <-> response = compute_response hmac nonce key.
Proof.
  intros Hh Hr. unfold verify_response, verify_response_with_key, compute_response.
  rewrite constant_time_eq_spec; [done| |done]. by apply hex_encode_ok.
Qed.

(** A key is only ever read from a file that nobody but its owner can
    access, or from the exact root-owned credential that grants read access to
    this service's user alone; what is returned has an allowed length. *)
Theorem read_psk_file_safe trim euid (open : result opened unit) (key : list Z) :
  read_psk_file trim euid open = Ok key ->
  exists f, open = Ok f /\
    (Z.land (f_mode f) 63 = 0 \/
     (f_uid f = 0 /\ Z.land (f_mode f) 4095 = 288 /\ f_regular f = true /\
      f_acl f = Some (expected_acl euid))) /\
    key <> [] /\ len key <= MAX_PSK_LENGTH.
Proof.
  unfold read_psk_file. intros (f & Ho & H)%rbind_ok. destruct open as [f'|]; [|done].
  cbn in Ho. injection Ho as ->. apply rbind_ok in H as (u & Hp & H).
  apply rbind_ok in H as (c & _ & H). apply rbind_ok in H as (v & Hv & [= <-]).
  exists f. split; [done|]. split.
  - unfold require_owner_only_permissions in Hp. cbv zeta in Hp.
    rewrite <- Z.land_assoc in Hp. change (Z.land 511 63) with 63 in Hp.
    destruct (Z.eqb_spec (Z.land (f_mode f) 63) 0) as [E|E]; [by left|]. cbn [negb] in Hp.
    right. unfold is_service_credential, service_credential_permissions in Hp.
    destruct (f_acl f) as [acl|]; [|done]. destruct (_ && _) eqn:Hc; [|done].
    zbool. case_bool_decide; [|done]. subst. done.
  - unfold validate_psk in Hv. destruct (Z.ltb_spec MAX_PSK_LENGTH (len (trim c))); [done|].
    destruct (trim c); [done|]. done.
Qed.

(** The accepted ACL names one user: different service users need different
    attributes. *)
Lemma expected_acl_inj u v : fits 32 u -> fits 32 v -> expected_acl u = expected_acl v -> u = v.
Proof.
  unfold expected_acl, splice, fits. intros Hu Hv H. rewrite !length_to_le_bytes in H.
  apply app_inv_head in H. apply app_inv_tail in H.
  apply (f_equal from_le_bytes) in H. by rewrite !from_to_le_bytes_small in H.
Qed.

Lemma verify_response_iff_witness :
  verify_response (fun k m => repeat 171 1) [1] [171] (txt "ab") = true.
Proof.
  apply (verify_response_iff (fun k m => repeat 171 1) [1] [171] (txt "ab")).
  - intros k m. join_bytes; unfold is_byte; lia.
  - cbn. join_bytes; unfold is_byte; lia.
  - reflexivity.
Defined.

Lemma read_psk_file_safe_witness :
  let f := mkOpened 0 33056 true (Some (expected_acl 1000)) (Ok (txt "key")) in
  exists g, Ok f = Ok g (E := unit) /\
    (Z.land (f_mode g) 63 = 0 \/
     (f_uid g = 0 /\ Z.land (f_mode g) 4095 = 288 /\ f_regular g = true /\
      f_acl g = Some (expected_acl 1000))) /\
    txt "key" <> [] /\ len (txt "key") <= MAX_PSK_LENGTH.
Proof.
  apply (read_psk_file_safe (fun s => s) 1000
    (Ok (mkOpened 0 33056 true (Some (expected_acl 1000)) (Ok (txt "key"))))).
  vm_compute. reflexivity.
Defined.
