(* ===== verification/ControlCrypto.v ===== *)
(** * The protected control channel (src/src/control_crypto.rs)

    Key derivation, the sequence-numbered AEAD codec, and the message framing
    of both halves of a transport.  ChaCha20-Poly1305, HKDF and HMAC are
    parameters; the AEAD's documented contract is the class [AeadLaws]. *)
From S2P Require Import Prelude Bytes Auth.

Module Direction.
Inductive t := C2S | S2C.
#[global] Instance t_eq_dec : EqDecision t.
Proof. solve_decision. Defined.
Definition info (d : t) : list Z :=
  match d with C2S => txt "xfr-protected-control-c2s" | S2C => txt "xfr-protected-control-s2c" end.
Definition tag (d : t) : Z := match d with C2S => 0 | S2C => 1 end.
End Direction.

(** The primitives: key, nonce, associated data, message. *)
Class Aead := {
  encrypt : list Z -> list Z -> list Z -> list Z -> option (list Z);
  decrypt : list Z -> list Z -> list Z -> list Z -> option (list Z)
}.

(** Decryption accepts exactly the ciphertexts encryption produces under the
    same key, nonce and associated data, and a ciphertext is 16 bytes longer
    than its message. *)
Class AeadLaws `{Aead} : Prop := {
  aead_iff k n a m c : decrypt k n a c = Some m <-> encrypt k n a m = Some c;
  aead_len k n a m c : encrypt k n a m = Some c -> length c = (length m + 16)%nat
}.

Inductive crypto_error :=
  | HkdfFailed | EncryptFailed | SequenceOverflow | FrameTooShort
  | SequenceMismatch (expected got : Z) | DecryptFailed.

(** ** Key derivation and the server proof *)
Section keys.
(** [Hkdf::new(salt, ikm).expand(info)] for 32 bytes, and HMAC-SHA256. *)
Variable hkdf : list Z -> list Z -> list Z -> option (list Z).
Variable hmac_sha256 : list Z -> list Z -> list Z.

Definition derive_keys (client_nonce server_nonce key_material : list Z)
    : result (list Z * list Z * list Z) crypto_error :=
  let salt := client_nonce ++ server_nonce in
  let? c2s_key := ok_or (hkdf salt key_material (Direction.info Direction.C2S)) HkdfFailed in
  let? s2c_key := ok_or (hkdf salt key_material (Direction.info Direction.S2C)) HkdfFailed in
  let? s2c_auth_key := ok_or (hkdf salt key_material (txt "xfr-protected-control-s2c-auth")) HkdfFailed in
  Ok (c2s_key, s2c_key, s2c_auth_key).

Definition compute_server_proof_with_key
    (client_hello server_hello client_nonce server_nonce key_material : list Z)
    : result (list Z) crypto_error :=
  let? keys := derive_keys client_nonce server_nonce key_material in
  let '(_, _, s2c_auth_key) := keys in
  Ok (hex_encode (hmac_sha256 s2c_auth_key (client_hello ++ server_hello))).

Definition verify_server_proof_with_key
    (client_hello server_hello client_nonce server_nonce key_material expected : list Z)
    : result bool crypto_error :=
  let? actual := compute_server_proof_with_key client_hello server_hello client_nonce
                   server_nonce key_material in
  Ok (constant_time_eq actual expected).
End keys.

(** ** The codec *)
Record ControlCodec := mkCodec { key : list Z; direction : Direction.t; seq : Z }.

Definition NONCE_LEN : nat := 12.

Module ControlCodec.
Section codec.
Context `{Aead}.

Definition new (key : list Z) (d : Direction.t) : ControlCodec := mkCodec key d 0.

Definition derive_pair_with_key hkdf (client_nonce server_nonce key_material : list Z)
    : result (ControlCodec * ControlCodec) crypto_error :=
  let? keys := derive_keys hkdf client_nonce server_nonce key_material in
  let '(c2s, s2c, _) := keys in
  Ok (new c2s Direction.C2S, new s2c Direction.S2C).

Definition nonce (self : ControlCodec) : list Z :=
  splice 0 (to_le_bytes 8 (seq self)) (repeat 0 NONCE_LEN).

Definition aad (self : ControlCodec) : list Z :=
  let aad := splice 0 (to_le_bytes 8 (seq self)) (repeat 0 9%nat) in
  splice 8 [Direction.tag (direction self)] aad.

Definition advance (self : ControlCodec) : result ControlCodec crypto_error :=
  let? s := ok_or (checked_add 64 (seq self) 1) SequenceOverflow in
  Ok (mkCodec (key self) (direction self) s).

(** A failing call leaves the codec as it was. *)
Definition seal (self : ControlCodec) (plaintext : list Z)
    : ControlCodec * result (list Z) crypto_error :=
  match encrypt (key self) (nonce self) (aad self) plaintext with
  | None => (self, Err EncryptFailed)
  | Some ciphertext =>
    let frame := to_le_bytes 8 (seq self) ++ ciphertext in
    match advance self with
    | Ok self' => (self', Ok frame)
    | Err e => (self, Err e)
    end
  end.

Definition open (self : ControlCodec) (payload : list Z)
    : ControlCodec * result (list Z) crypto_error :=
  if len payload <? 8 + 16 then (self, Err FrameTooShort)
  else
    let s := from_le_bytes (slice 0 8 payload) in
    if negb (s =? seq self) then (self, Err (SequenceMismatch (seq self) s))
    else
      match decrypt (key self) (nonce self) (aad self) (drop 8 payload) with
      | None => (self, Err DecryptFailed)
      | Some plaintext =>
        match advance self with
        | Ok self' => (self', Ok plaintext)
        | Err e => (self, Err e)
        end
      end.
End codec.
End ControlCodec.

(** ** Buffered input

    What [fill_buf] returns over time: the chunks the peer's bytes arrive in,
    then end of file or an error. *)
Inductive stream_end := Eof | IoError.
Record reader := mkReader { chunks : list (list Z); ended : stream_end }.

Inductive read_error := LineTooLong | FrameTooLarge (len : Z) | Io | UnexpectedEof | Crypto (e : crypto_error).

Definition MAX_LINE_LENGTH : Z := 1024 * 1024.
Definition MAX_FRAME : Z := 1024 * 1024.

(** [bytes.iter().position(|&b| b == b'\n')]. *)
Fixpoint newline_pos (l : list Z) : option nat :=
  match l with
  | [] => None
  | b :: l => if b =? 10 then Some O else option_map S (newline_pos l)
  end.

(** The plaintext loop: [total] bytes consumed so far, [line_buf] decoded so
    far; every chunk is decoded on its own. *)
Fixpoint read_plain (e : stream_end) (chunks : list (list Z)) (total : Z) (line_buf : list Z)
    : list (list Z) * result (list Z) read_error :=
  match chunks with
  | [] => ([], match e with Eof => Ok line_buf | IoError => Err Io end)
  | [] :: chunks => read_plain e chunks total line_buf
  | (_ :: _) as bytes :: rest =>
    match newline_pos bytes with
    | Some pos =>
      let to_read := Z.of_nat pos + 1 in
      if MAX_LINE_LENGTH <? total + to_read then (bytes :: rest, Err LineTooLong)
      else (drop (Z.to_nat to_read) bytes :: rest,
            Ok (line_buf ++ from_utf8_lossy (take (Z.to_nat to_read) bytes)))
    | None =>
      let n := len bytes in
      if MAX_LINE_LENGTH <? total + n then (bytes :: rest, Err LineTooLong)
      else read_plain e rest (total + n) (line_buf ++ from_utf8_lossy bytes)
    end
  end.

(** [AsyncReadExt::read_exact]. *)
Fixpoint read_exact (e : stream_end) (n : nat) (chunks : list (list Z))
    : list (list Z) * result (list Z) read_error :=
  match chunks with
  | [] => ([], match n, e with
               | O, _ => Ok []
               | _, Eof => Err UnexpectedEof
               | _, IoError => Err Io
               end)
  | c :: rest =>
    if Nat.leb n (length c) then (drop n c :: rest, Ok (take n c))
    else
      let '(rest, r) := read_exact e (n - length c) rest in
      (rest, let? bs := r in Ok (c ++ bs))
  end.

Section transport.
Context `{Aead}.

(** The protected branch of [read_message]. *)
Definition read_frame (recv : ControlCodec) (r : reader)
    : ControlCodec * reader * result (list Z) read_error :=
  let '(cs, hdr) := read_exact (ended r) 4 (chunks r) in
  let r := mkReader cs (ended r) in
  match hdr with
  | Err e => (recv, r, Err e)
  | Ok len_buf =>
    let len := from_be_bytes len_buf in
    if MAX_FRAME <? len then (recv, r, Err (FrameTooLarge len))
    else
      let '(cs, body) := read_exact (ended r) (Z.to_nat len) (chunks r) in
      let r := mkReader cs (ended r) in
      match body with
      | Err e => (recv, r, Err e)
      | Ok payload =>
        let '(recv, p) := ControlCodec.open recv payload in
        (recv, r, let? plaintext := map_err Crypto p in Ok (from_utf8_lossy plaintext))
      end
  end.

Inductive ControlReader := ReaderPlaintext | ReaderProtected (recv : ControlCodec).
Inductive ControlWriter := WriterPlaintext | WriterProtected (send : ControlCodec).
Inductive ProtectedControl := Plaintext | Protected (send recv : ControlCodec).

Definition protected_client (c2s s2c : ControlCodec) : ProtectedControl := Protected c2s s2c.
Definition protected_server (c2s s2c : ControlCodec) : ProtectedControl := Protected s2c c2s.
Definition is_protected (p : ProtectedControl) : bool :=
  match p with Protected _ _ => true | Plaintext => false end.

Definition split (p : ProtectedControl) : ControlReader * ControlWriter :=
  match p with
  | Plaintext => (ReaderPlaintext, WriterPlaintext)
  | Protected send recv => (ReaderProtected recv, WriterProtected send)
  end.

(** [ControlReader::read_message]: the line decoded, the reader after. *)
Definition reader_read_message (self : ControlReader) (r : reader)
    : ControlReader * reader * result (list Z) read_error :=
  match self with
  | ReaderPlaintext =>
    let '(cs, line) := read_plain (ended r) (chunks r) 0 [] in
    (ReaderPlaintext, mkReader cs (ended r), line)
  | ReaderProtected recv =>
    let '(recv, r, line) := read_frame recv r in (ReaderProtected recv, r, line)
  end.

(** [ProtectedControl::read_message]. *)
Definition control_read_message (self : ProtectedControl) (r : reader)
    : ProtectedControl * reader * result (list Z) read_error :=
  match self with
  | Plaintext =>
    let '(cs, line) := read_plain (ended r) (chunks r) 0 [] in
    (Plaintext, mkReader cs (ended r), line)
  | Protected send recv =>
    let '(recv, r, line) := read_frame recv r in (Protected send recv, r, line)
  end.

(** [ControlWriter::encode_message]; the length is cast to 32 bits. *)
Definition encode_message (self : ControlWriter) (serialized : list Z)
    : ControlWriter * result (list Z) crypto_error :=
  match self with
  | WriterPlaintext => (WriterPlaintext, Ok (serialized ++ [10]))
  | WriterProtected send =>
    let '(send, p) := ControlCodec.seal send serialized in
    (WriterProtected send,
     let? payload := p in Ok (to_be_bytes 4 (wrap 32 (len payload)) ++ payload))
  end.

(** [ProtectedControl::write_message]: the bytes handed to the writer. *)
Definition control_write_message (self : ProtectedControl) (serialized : list Z)
    : ProtectedControl * result (list Z) crypto_error :=
  match self with
  | Plaintext => (Plaintext, Ok (serialized ++ [10]))
  | Protected send recv =>
    let '(send, p) := ControlCodec.seal send serialized in
    (Protected send recv,
     let? payload := p in Ok (to_be_bytes 4 (wrap 32 (len payload)) ++ payload))
  end.

(** Encode messages one after another. *)
Fixpoint encode_all (w : ControlWriter) (ms : list (list Z))
    : ControlWriter * result (list Z) crypto_error :=
  match ms with
  | [] => (w, Ok [])
  | m :: ms =>
    match encode_message w m with
    | (w, Ok f) => let '(w, r) := encode_all w ms in (w, let? fs := r in Ok (f ++ fs))
    | (w, Err e) => (w, Err e)
    end
  end.

(** Read [n] messages. *)
Fixpoint read_all (n : nat) (c : ControlReader) (r : reader)
    : ControlReader * reader * result (list (list Z)) read_error :=
  match n with
  | O => (c, r, Ok [])
  | S n =>
    match reader_read_message c r with
    | (c, r, Ok m) =>
      let '(c, r, ms) := read_all n c r in (c, r, let? ms := ms in Ok (m :: ms))
    | (c, r, Err e) => (c, r, Err e)
    end
  end.
End transport.

(** ** Codec properties *)
Section codec_facts.
Context `{Aead} `{!AeadLaws}.

Lemma advance_spec c :
  ControlCodec.advance c
  = if seq c + 1 <? 2 ^ 64 then Ok (mkCodec (key c) (direction c) (seq c + 1)) else Err SequenceOverflow.
Proof. unfold ControlCodec.advance, checked_add. by destruct (_ <? _). Qed.

Lemma seal_inv c m c' f :
  ControlCodec.seal c m = (c', Ok f) ->
  exists ct, encrypt (key c) (ControlCodec.nonce c) (ControlCodec.aad c) m = Some ct /\
    f = to_le_bytes 8 (seq c) ++ ct /\ seq c + 1 < 2 ^ 64 /\
    c' = mkCodec (key c) (direction c) (seq c + 1).
Proof.
  unfold ControlCodec.seal. rewrite advance_spec. destruct (encrypt _ _ _ _) as [ct|]; [|done].
  destruct (Z.ltb_spec (seq c + 1) (2 ^ 64)); [|done]. intros [= <- <-]. eauto 10.
Qed.

Lemma open_inv c f c' m :
  ControlCodec.open c f = (c', Ok m) ->
  from_le_bytes (slice 0 8 f) = seq c /\ c' = mkCodec (key c) (direction c) (seq c + 1).
Proof.
  unfold ControlCodec.open. rewrite advance_spec. destruct (_ <? 8 + 16); [done|].
  destruct (Z.eqb_spec (from_le_bytes (slice 0 8 f)) (seq c)) as [E|]; cbn [negb]; [|done].
  destruct (decrypt _ _ _ _); [|done]. destruct (_ <? _); [|done]. by intros [= <- _].
Qed.

Lemma seal_length c m c' f :
  ControlCodec.seal c m = (c', Ok f) -> length f = (length m + 24)%nat.
Proof.
  intros (ct & He & -> & _)%seal_inv. rewrite length_app, length_to_le_bytes.
  rewrite (aead_len _ _ _ _ _ He). lia.
Qed.

(** A frame just sealed is the one a receiver in step opens. *)
Lemma open_of_seal (c c' : ControlCodec) (m f : list Z) :
  fits 64 (seq c) -> ControlCodec.seal c m = (c', Ok f) -> ControlCodec.open c f = (c', Ok m).
Proof.
  intros Hs Hseal. pose proof (seal_length _ _ _ _ Hseal) as Hl.
  destruct (seal_inv _ _ _ _ Hseal) as (ct & He & -> & Hlt & ->).
  unfold ControlCodec.open. rewrite advance_spec.
  rewrite (proj2 (Z.ltb_ge (len _) (8 + 16))) by (unfold len; lia).
  rewrite slice_app_l by apply length_to_le_bytes.
  rewrite from_to_le_bytes_small by done. rewrite Z.eqb_refl. cbn [negb].
  rewrite drop_app_ge by (rewrite length_to_le_bytes; lia).
  rewrite length_to_le_bytes, Nat.sub_diag, drop_0.
  apply aead_iff in He. rewrite He. by replace (_ <? 2 ^ 64) with true by lia.
Qed.

(** The payloads a receiver accepts out of a sequence it is fed, in order. *)
Fixpoint accepted (c : ControlCodec) (payloads : list (list Z)) : list (list Z) :=
  match payloads with
  | [] => []
  | f :: fs => match ControlCodec.open c f with
               | (c, Ok _) => f :: accepted c fs
               | (c, Err _) => accepted c fs
               end
  end.

Lemma open_err c f c' e : ControlCodec.open c f = (c', Err e) -> c' = c.
Proof.
  unfold ControlCodec.open. repeat case_match; congruence.
Qed.

Lemma accepted_seq c fs f : f ∈ accepted c fs -> seq c <= from_le_bytes (slice 0 8 f).
Proof.
  revert c. induction fs as [|g fs IH]; intros c; cbn [accepted]; [by intros ?%elem_of_nil|].
  destruct (ControlCodec.open c g) as [c' [m|e]] eqn:E.
  - apply open_inv in E as [Hs ->]. intros [->|Hin]%elem_of_cons; [lia|].
    apply IH in Hin. cbn [seq] in Hin. lia.
  - apply open_err in E as ->. apply IH.
Qed.

(** No frame is accepted twice in a session, wherever in the stream a
    replay is inserted; a frame that arrives out of its turn is refused and
    leaves the receiver as it was. *)
Theorem no_replay (c : ControlCodec) (payloads : list (list Z)) :
  NoDup (accepted c payloads) /\
  (forall f, from_le_bytes (slice 0 8 f) <> seq c ->
     exists e, ControlCodec.open c f = (c, Err e)).
Proof.
  split.
  - revert c. induction payloads as [|f fs IH]; intros c; cbn [accepted]; [constructor|].
    destruct (ControlCodec.open c f) as [c' [m|e]] eqn:E; [|apply IH].
    apply open_inv in E as [Hs ->]. constructor; [|apply IH].
    intros Hin%accepted_seq. cbn [seq] in Hin. lia.
  - intros f Hf. unfold ControlCodec.open. destruct (_ <? 8 + 16); [eauto|].
    destruct (Z.eqb_spec (from_le_bytes (slice 0 8 f)) (seq c)); [done|]. cbn. eauto.
Qed.

(** The nonces a sender uses for the messages it seals successfully. *)
Fixpoint nonces (c : ControlCodec) (ms : list (list Z)) : list (list Z) :=
  match ms with
  | [] => []
  | m :: ms => match ControlCodec.seal c m with
               | (c', Ok _) => ControlCodec.nonce c :: nonces c' ms
               | (_, Err _) => nonces c ms
               end
  end.

Lemma nonce_seq c : fits 64 (seq c) -> from_le_bytes (take 8 (ControlCodec.nonce c)) = seq c.
Proof.
  intros Hs. unfold ControlCodec.nonce. rewrite splice_first.
  rewrite take_app_ge by (rewrite length_to_le_bytes; lia).
  rewrite length_to_le_bytes, Nat.sub_diag, take_0, app_nil_r.
  by apply from_to_le_bytes_small.
Qed.

Lemma nonces_seq c ms n :
  fits 64 (seq c) -> n ∈ nonces c ms -> seq c <= from_le_bytes (take 8 n).
Proof.
  revert c. induction ms as [|m ms IH]; intros c Hs; cbn [nonces]; [by intros ?%elem_of_nil|].
  destruct (ControlCodec.seal c m) as [c' [f|e]] eqn:E; [|by apply IH].
  apply seal_inv in E as (_ & _ & _ & Hlt & ->).
  intros [->|Hin]%elem_of_cons; [rewrite nonce_seq by done; lia|].
  apply IH in Hin; cbn [seq] in *; unfold fits in *; lia.
Qed.

(** One key never encrypts two messages under the same nonce: the counter
    moves with every frame and fails rather than wraps. *)
Theorem nonces_never_repeat (c : ControlCodec) (ms : list (list Z)) :
  fits 64 (seq c) -> NoDup (nonces c ms).
Proof.
  revert c. induction ms as [|m ms IH]; intros c Hs; cbn [nonces]; [constructor|].
  destruct (ControlCodec.seal c m) as [c' [f|e]] eqn:E; [|by apply IH].
  apply seal_inv in E as (_ & _ & _ & Hlt & ->).
  assert (Hs' : fits 64 (seq c + 1)) by (unfold fits in *; lia).
  constructor; [|by apply IH]. intros Hin%nonces_seq; [|done].
  rewrite nonce_seq in Hin by done. cbn [seq] in Hin. lia.
Qed.
End codec_facts.

(** ** Framing properties *)
Lemma newline_pos_none l : Forall (fun b => b <> 10) l -> newline_pos l = None.
Proof.
  induction 1 as [|b l Hb Hl IH]; [done|]. cbn. by rewrite (proj2 (Z.eqb_neq b 10) Hb), IH.
Qed.

Lemma newline_pos_app l r :
  Forall (fun b => b <> 10) l -> newline_pos (l ++ 10 :: r) = Some (length l).
Proof.
  induction 1 as [|b l Hb Hl IH]; [done|]. cbn. by rewrite (proj2 (Z.eqb_neq b 10) Hb), IH.
Qed.

Lemma is_ascii_app a b : is_ascii (a ++ b) = is_ascii a && is_ascii b.
Proof. apply forallb_app. Qed.

(** The line ends after the first chunk, or inside it. *)
Lemma chunk_cases {A} (c line rest cs : list A) x :
  c ++ cs = line ++ x :: rest ->
  (exists k, line = c ++ k /\ cs = k ++ x :: rest) \/
  (exists k, c = line ++ x :: k /\ rest = k ++ cs).
Proof.
  intros [(k & -> & Hk)|(k & -> & Hk)]%app_eq_inv; [|eauto].
  destruct k as [|y k]; cbn in Hk.
  - left. exists []. by rewrite !app_nil_r.
  - injection Hk as <- ->. eauto.
Qed.

Lemma read_plain_here e line k cs total buf :
  Forall (fun b => b <> 10) line -> is_ascii line = true ->
  total + len line + 1 <= MAX_LINE_LENGTH ->
  read_plain e ((line ++ 10 :: k) :: cs) total buf = (k :: cs, Ok (buf ++ line ++ [10])).
Proof.
  intros Hnl Ha Hlen.
  assert (Hl : Z.to_nat (Z.of_nat (length line) + 1) = length (line ++ [10]))
    by (rewrite length_app; cbn; lia).
  assert (Hk : line ++ 10 :: k = (line ++ [10]) ++ k) by by rewrite <- app_assoc.
  pose proof (newline_pos_app line k Hnl) as Hp.
  assert (exists b l, line ++ 10 :: k = b :: l) as (b & l & E) by (destruct line; cbn; eauto).
  rewrite E in Hp |- *. cbn [read_plain]. rewrite Hp.
  rewrite (proj2 (Z.ltb_ge MAX_LINE_LENGTH _)) by (unfold len in Hlen; lia).
  rewrite Hl, <- E, Hk, take_app_length, drop_app_length. do 3 f_equal.
  apply ascii_is_str. by rewrite is_ascii_app, Ha.
Qed.

Lemma read_plain_more e c cs total buf :
  Forall (fun b => b <> 10) c -> is_ascii c = true -> total + len c <= MAX_LINE_LENGTH ->
  read_plain e (c :: cs) total buf = read_plain e cs (total + len c) (buf ++ c).
Proof.
  intros Hnl Ha Hlen. destruct c as [|b c].
  - rewrite app_nil_r. unfold len. cbn [length]. by rewrite Z.add_0_r.
  - cbn [read_plain]. rewrite newline_pos_none by done.
    rewrite (proj2 (Z.ltb_ge MAX_LINE_LENGTH _)) by lia.
    by rewrite (ascii_is_str _ Ha).
Qed.

(** However the bytes of an ASCII line are cut into chunks, the line is read
    whole and the bytes after it are kept. *)
Lemma read_plain_ascii e line rest cs total buf :
  Forall (fun b => b <> 10) line -> is_ascii line = true ->
  total + len line + 1 <= MAX_LINE_LENGTH ->
  concat cs = line ++ 10 :: rest ->
  exists cs', read_plain e cs total buf = (cs', Ok (buf ++ line ++ [10])) /\ concat cs' = rest.
Proof.
  revert line total buf.
  induction cs as [|c cs IH]; intros line total buf Hnl Ha Hlen Hc; [by destruct line|].
  cbn [concat] in Hc. apply chunk_cases in Hc as [(k & -> & Hk)|(k & -> & ->)].
  - apply Forall_app in Hnl as [Hn1 Hn2]. rewrite is_ascii_app in Ha.
    apply andb_true_iff in Ha as [Ha1 Ha2].
    assert (Hl : len (c ++ k) = len c + len k) by (unfold len; rewrite length_app; lia).
    rewrite read_plain_more by (done || (unfold len in *; lia)).
    destruct (IH k (total + len c) (buf ++ c)) as (cs' & E & Er); [done|done|lia|done|].
    exists cs'. by rewrite E, <- !app_assoc.
  - rewrite read_plain_here by done. by eexists.
Qed.

Lemma read_exact_concat e n cs bs rest :
  concat cs = bs ++ rest -> length bs = n ->
  exists cs', read_exact e n cs = (cs', Ok bs) /\ concat cs' = rest.
Proof.
  revert n bs. induction cs as [|c cs IH]; intros n bs Hc <-; cbn in *.
  - symmetry in Hc. apply app_eq_nil in Hc as [-> ->]. by exists [].
  - destruct (Nat.leb_spec (length bs) (length c)) as [Hle|Hlt].
    + apply app_eq_inv in Hc as [(k & -> & Hk2)|(k & Hk1 & Hk2)].
      * eexists. rewrite take_app_length, drop_app_length. split; [done|]. by rewrite Hk2.
      * assert (k = []) as -> by (apply nil_length_inv; subst bs; rewrite length_app in Hle; lia).
        rewrite app_nil_r in Hk1. subst bs. eexists.
        rewrite take_ge, drop_ge by done. split; [done|]. cbn in *. done.
    + apply app_eq_inv in Hc as [(k & -> & Hk2)|(k & -> & Hk2)].
      * rewrite length_app in Hlt. lia.
      * rewrite length_app.
        replace (length c + length k - length c)%nat with (length k) by lia.
        destruct (IH (length k) k Hk2 eq_refl) as (cs' & -> & Er). by exists cs'.
Qed.

(** ** Whole streams *)
Section stream_facts.
Context `{Aead} `{!AeadLaws}.

Lemma encode_all_app (c c1 c2 : ControlWriter) ms ms' t t' :
  encode_all c ms = (c1, Ok t) -> encode_all c1 ms' = (c2, Ok t') ->
  encode_all c (ms ++ ms') = (c2, Ok (t ++ t')).
Proof.
  revert c t. induction ms as [|m ms IH]; intros c t; cbn [encode_all app].
  - by intros [-> <-]%pair_ok_inv.
  - destruct (encode_message c m) as [c' [f|]]; [|done].
    destruct (encode_all c' ms) as [c3 [fs|]] eqn:E; [|done]. cbn [rbind].
    intros [-> <-]%pair_ok_inv H'. rewrite (IH c' fs E H'). cbn [rbind].
    by rewrite <- app_assoc.
Qed.

Lemma encode_all_one (c c1 : ControlWriter) m b :
  encode_message c m = (c1, Ok b) -> encode_all c [m] = (c1, Ok b).
Proof. intros H'. cbn [encode_all]. rewrite H'. cbn [rbind]. by rewrite app_nil_r. Qed.

Lemma read_frame_seal c m c' p cs rest e :
  fits 64 (seq c) -> is_str m -> len m + 24 <= MAX_FRAME ->
  ControlCodec.seal c m = (c', Ok p) ->
  concat cs = to_be_bytes 4 (wrap 32 (len p)) ++ p ++ rest ->
  exists cs', read_frame c (mkReader cs e) = (c', mkReader cs' e, Ok m) /\ concat cs' = rest.
Proof.
  intros Hs Hstr Hlen Hseal Hc. pose proof (seal_length _ _ _ _ Hseal) as Hl.
  assert (Hp : 0 <= len p <= MAX_FRAME) by (unfold len in *; lia).
  unfold read_frame. cbn [chunks ended].
  destruct (read_exact_concat e 4 cs _ _ Hc (length_to_be_bytes _ _)) as (cs1 & -> & Hc1).
  cbn [chunks ended].
  rewrite wrap_small by (unfold fits, MAX_FRAME in *; lia).
  rewrite from_to_be_bytes by (cbn; unfold MAX_FRAME in *; lia).
  rewrite (proj2 (Z.ltb_ge _ _)) by lia.
  destruct (read_exact_concat e (Z.to_nat (len p)) cs1 p rest Hc1) as (cs2 & -> & Hc2);
    [unfold len; lia|].
  cbn [chunks ended]. rewrite (open_of_seal c c' m p Hs Hseal). cbn. rewrite Hstr. eauto.
Qed.

(** A frame over the limit is refused for its length alone. *)
Lemma read_frame_too_large c m c' p cs rest e :
  MAX_FRAME < len m + 24 < 2 ^ 32 -> ControlCodec.seal c m = (c', Ok p) ->
  concat cs = to_be_bytes 4 (wrap 32 (len p)) ++ p ++ rest ->
  exists cs', reader_read_message (ReaderProtected c) (mkReader cs e)
              = (ReaderProtected c, mkReader cs' e, Err (FrameTooLarge (len m + 24))).
Proof.
  intros Hlen Hseal Hc. pose proof (seal_length _ _ _ _ Hseal) as Hl.
  assert (Hp : len p = len m + 24) by (unfold len; lia).
  destruct (read_exact_concat e 4 cs _ _ Hc (length_to_be_bytes _ _)) as (cs1 & E & _).
  exists cs1. cbn [reader_read_message]. unfold read_frame. cbn [chunks ended]. rewrite E.
  rewrite Hp, wrap_small by (unfold fits, MAX_FRAME in *; lia).
  rewrite from_to_be_bytes by (cbn; unfold MAX_FRAME in *; lia).
  by rewrite (proj2 (Z.ltb_lt _ _)) by lia.
Qed.

(** How far the peer's half follows what was sealed: to the end, or to the
    first message over its frame limit. *)
Definition read_up_to (c : ControlCodec) (ms : list (list Z)) (w : ControlWriter)
    (rest : list Z) (cs : list (list Z)) (e : stream_end) : Prop :=
  exists before after c' cs', ms = before ++ after /\
    Forall (fun m => len m + 24 <= MAX_FRAME) before /\
    read_all (length before) (ReaderProtected c) (mkReader cs e)
    = (ReaderProtected c', mkReader cs' e, Ok before) /\
    match after with
    | [] => w = WriterProtected c' /\ concat cs' = rest
    | m :: _ => MAX_FRAME < len m + 24 /\
                exists cs'', reader_read_message (ReaderProtected c') (mkReader cs' e)
                  = (ReaderProtected c', mkReader cs'' e, Err (FrameTooLarge (len m + 24)))
    end.

Lemma read_up_to_cons c m c1 p ms w rest cs cs1 e :
  len m + 24 <= MAX_FRAME -> ControlCodec.seal c m = (c1, Ok p) ->
  read_frame c (mkReader cs e) = (c1, mkReader cs1 e, Ok m) ->
  read_up_to c1 ms w rest cs1 e -> read_up_to c (m :: ms) w rest cs e.
Proof.
  intros Hm Hseal Hr (before & after & c' & cs' & -> & Hf & Eread & Hend).
  exists (m :: before), after, c', cs'. split; [done|]. split; [by constructor|].
  split; [|done]. cbn [length read_all reader_read_message]. by rewrite Hr, Eread.
Qed.

(** The induction behind the session theorem. *)
Lemma protected_stream_read (c : ControlCodec) (ms : list (list Z)) (w : ControlWriter)
    (wire rest : list Z) (cs : list (list Z)) (e : stream_end) :
  fits 64 (seq c) -> Forall (fun m => is_str m /\ len m + 24 < 2 ^ 32) ms ->
  encode_all (WriterProtected c) ms = (w, Ok wire) -> concat cs = wire ++ rest ->
  read_up_to c ms w rest cs e.
Proof.
  intros Hs Hms. revert c cs wire Hs. induction Hms as [|m ms [Hstr Hlen] Hms IH];
    intros c cs wire Hs Henc Hc.
  - injection Henc as <- <-. exists [], [], c, cs. cbn in *. eauto.
  - cbn [encode_all encode_message] in Henc.
    destruct (ControlCodec.seal c m) as [c1 [p|]] eqn:Hseal; cbn [rbind] in Henc; [|done].
    destruct (encode_all (WriterProtected c1) ms) as [w1 [fs|]] eqn:Eall; [|done].
    cbn [rbind] in Henc. apply pair_ok_inv in Henc as [-> <-]. rewrite <- !app_assoc in Hc.
    destruct (Z.leb_spec (len m + 24) MAX_FRAME) as [Hle|Hgt].
    + destruct (read_frame_seal c m c1 p cs (fs ++ rest) e Hs Hstr Hle Hseal Hc)
        as (cs1 & Er & Hc1).
      assert (Hs1 : fits 64 (seq c1)).
      { apply seal_inv in Hseal as (_ & _ & _ & ? & ->). unfold fits in *. cbn [seq]. lia. }
      by apply (read_up_to_cons c m c1 p ms w rest cs cs1 e Hle Hseal Er), (IH c1 cs1 fs).
    + exists [], (m :: ms), c, cs. split; [done|]. split; [constructor|]. split; [done|].
      split; [done|]. by apply (read_frame_too_large c m c1 p cs (fs ++ rest)).
Qed.

(** C2. What one side seals the other reads back, however the network cuts
    the bytes into chunks: the peer's half in step with it returns the
    messages in order, and after the last one the bytes that follow are still
    buffered and the two halves are in step again.  The writer sets no limit:
    the first message whose frame is over the reader's (the length field holds
    any frame below 4 GiB) is where the reader stops, refusing it by its
    length after having returned every message before it. *)
Theorem protected_stream_roundtrip (c : ControlCodec) (ms : list (list Z)) (w : ControlWriter)
    (wire rest : list Z) (cs : list (list Z)) (e : stream_end) :
  fits 64 (seq c) -> Forall (fun m => is_str m /\ len m + 24 < 2 ^ 32) ms ->
  encode_all (WriterProtected c) ms = (w, Ok wire) -> concat cs = wire ++ rest ->
  exists before after c' cs', ms = before ++ after /\
    Forall (fun m => len m + 24 <= MAX_FRAME) before /\
    read_all (length before) (ReaderProtected c) (mkReader cs e)
    = (ReaderProtected c', mkReader cs' e, Ok before) /\
    match after with
    | [] => w = WriterProtected c' /\ concat cs' = rest
    | m :: _ => MAX_FRAME < len m + 24 /\
                exists cs'', reader_read_message (ReaderProtected c') (mkReader cs' e)
                  = (ReaderProtected c', mkReader cs'' e, Err (FrameTooLarge (len m + 24)))
    end.
Proof. apply protected_stream_read. Qed.

(** In plaintext mode a session of ASCII lines is read back line by line,
    terminators included, however it is cut into chunks. *)
Theorem plaintext_stream_roundtrip (ms : list (list Z)) (w : ControlWriter)
    (wire rest : list Z) (cs : list (list Z)) (e : stream_end) :
  Forall (fun m => is_ascii m = true /\ Forall (fun b => b <> 10) m /\
                   len m + 1 <= MAX_LINE_LENGTH) ms ->
  encode_all WriterPlaintext ms = (w, Ok wire) -> concat cs = wire ++ rest ->
  exists cs', concat cs' = rest /\
    read_all (length ms) ReaderPlaintext (mkReader cs e)
    = (ReaderPlaintext, mkReader cs' e, Ok (map (fun m => m ++ [10]) ms)).
Proof.
  intros Hms. revert cs wire. induction Hms as [|m ms (Ha & Hnl & Hlen) Hms IH];
    intros cs wire Henc Hc.
  - injection Henc as <- <-. cbn in *. eauto.
  - cbn [encode_all encode_message] in Henc.
    destruct (encode_all WriterPlaintext ms) as [w1 [fs|]] eqn:Eall; [|done].
    cbn [rbind] in Henc. apply pair_ok_inv in Henc as [-> <-]. rewrite <- !app_assoc in Hc.
    destruct (read_plain_ascii e m (fs ++ rest) cs 0 [] Hnl Ha ltac:(lia) Hc)
      as (cs1 & Er & Hc1).
    destruct (IH cs1 fs eq_refl Hc1) as (cs' & Hrest & Eread).
    exists cs'. split; [done|].
    cbn [length read_all reader_read_message chunks ended]. rewrite Er. cbn [ended]. 
    rewrite Eread. done.
Qed.

(** The same valid UTF-8 line is read as two different strings depending
    on where the transport cuts it: a character split between two chunks is
    replaced, because each chunk is decoded on its own. *)
Theorem plaintext_depends_on_chunks :
  exists (line : list Z) (cs1 cs2 : list (list Z)),
    is_str line /\ concat cs1 = line ++ [10] /\ concat cs2 = line ++ [10] /\
    (read_plain Eof cs1 0 []).2 = Ok (line ++ [10]) /\
    (read_plain Eof cs2 0 []).2 = Ok (REPLACEMENT ++ REPLACEMENT ++ [10]) /\
    line <> REPLACEMENT ++ REPLACEMENT.
Proof.
  exists [195; 169], [[195; 169; 10]], [[195]; [169; 10]].
  repeat split; reflexivity || discriminate.
Qed.

(** The protected reader refuses a frame longer than the limit before it
    reads a byte of it, and the two generations of the transport agree: the
    unsplit [ProtectedControl] reads and writes exactly as its halves do. *)
Theorem split_agrees (p : ProtectedControl) (r : reader) (m : list Z) :
  (let '(rd, wr) := split p in
   (let '(p', r', x) := control_read_message p r in ((split p').1, r', x))
     = reader_read_message rd r /\
   (let '(p', x) := control_write_message p m in ((split p').2, x)) = encode_message wr m) /\
  (forall recv cs hdr, read_exact (ended r) 4 (chunks r) = (cs, Ok hdr) ->
     MAX_FRAME < from_be_bytes hdr ->
     reader_read_message (ReaderProtected recv) r
     = (ReaderProtected recv, mkReader cs (ended r), Err (FrameTooLarge (from_be_bytes hdr)))).
Proof.
  split.
  - destruct p as [|send recv]; cbn [split fst snd control_read_message reader_read_message
      control_write_message encode_message].
    + by destruct (read_plain _ _ _ _).
    + destruct (read_frame recv r) as [[? ?] ?], (ControlCodec.seal send m). done.
  - intros recv cs hdr Hr Hb. cbn [reader_read_message]. unfold read_frame. rewrite Hr.
    by rewrite (proj2 (Z.ltb_lt _ _) Hb).
Qed.
End stream_facts.

(** ** Witnesses: an authenticated toy cipher *)
Definition toy_tag (k n a m : list Z) : list Z := take 16 (n ++ repeat (len m mod 256) 16).

#[export] Instance toy_aead : Aead := {|
  encrypt k n a m := Some (m ++ toy_tag k n a m);
  decrypt k n a c :=
    let m := take (length c - 16) c in
    if bool_decide (c = m ++ toy_tag k n a m) then Some m else None |}.

#[export] Instance toy_laws : AeadLaws.
Proof.
  assert (Hlen : forall k n a m, length (toy_tag k n a m) = 16%nat).
  { intros. unfold toy_tag. rewrite length_take, length_app, repeat_length. lia. }
  split; cbn [encrypt decrypt toy_aead].
  - intros k n a m c. split.
    + case_bool_decide as E; [|done]. intros [= <-]. by f_equal.
    + intros [= <-].
      replace (length (m ++ toy_tag k n a m) - 16)%nat with (length m)
        by (rewrite length_app, Hlen; lia).
      rewrite take_app_length. by rewrite bool_decide_eq_true_2.
  - intros k n a m c [= <-]. rewrite length_app, Hlen. lia.
Qed.

Definition toy_codec : ControlCodec := mkCodec [1; 2; 3] Direction.C2S 5.

Lemma protected_stream_roundtrip_witness :
  exists w wire, encode_all (WriterProtected toy_codec) [[104; 105]; []] = (w, Ok wire) /\
    read_up_to toy_codec [[104; 105]; []] w [9] [take 3 wire; drop 3 wire ++ [9]] IoError.
Proof.
  eexists _, _. split; [reflexivity|].
  eapply (protected_stream_roundtrip toy_codec [[104; 105]; []]).
  - vm_compute. split; [discriminate|reflexivity].
  - repeat constructor; vm_compute; reflexivity || discriminate.
  - reflexivity.
  - reflexivity.
Defined.

Lemma nonces_never_repeat_witness :
  NoDup (nonces toy_codec [[1]; [2]; [3]]) /\ length (nonces toy_codec [[1]; [2]; [3]]) = 3%nat.
Proof.
  split; [|reflexivity]. apply nonces_never_repeat. vm_compute. split; [discriminate|reflexivity].
Defined.

Lemma plaintext_stream_roundtrip_witness :
  exists cs', concat cs' = [120] /\
    read_all 2 ReaderPlaintext (mkReader [[123]; [125; 10; 91]; [93; 10; 120]] Eof)
    = (ReaderPlaintext, mkReader cs' Eof, Ok [[123; 125; 10]; [91; 93; 10]]).
Proof.
  eapply (plaintext_stream_roundtrip (H := toy_aead) [[123; 125]; [91; 93]] WriterPlaintext _ [120]).
  - repeat constructor; vm_compute; discriminate.
  - reflexivity.
  - reflexivity.
Defined.

(** An empty chunk list with four bytes of header announcing too much. *)
Lemma split_agrees_witness :
  (reader_read_message (ReaderProtected toy_codec) (mkReader [[255; 255; 255; 255; 1]] Eof)).2
  = Err (FrameTooLarge (2 ^ 32 - 1)).
Proof.
  rewrite (proj2 (split_agrees Plaintext (mkReader [[255; 255; 255; 255; 1]] Eof) [])
             toy_codec [[1]] [255; 255; 255; 255]); [reflexivity|reflexivity|].
  vm_compute. reflexivity.
Defined.
