(* ===== verification/Probe.v ===== *)
(** * Path-MTU probing (src/src/probe.rs, the responder of src/src/udp.rs)

    The probe-lane packet, the size ladder, the size search and its driver,
    and the server side that answers probes.  The network is an argument: for
    every attempt it says how the send went and which datagrams arrived inside
    the reply window. *)
From Stdlib Require Import Sorting.Sorted.
From S2P Require Import Prelude Bytes UdpWire.

Definition PROBE_MAGIC : list Z := [88; 70; 82; 80]. (* b"XFRP" *)
Definition PROBE_VERSION : Z := 1.
Definition PROBE_HEADER_SIZE : Z := 16.
Definition MIN_PROBE_PAYLOAD : Z := 548.
Definition MAX_PROBE_PAYLOAD : Z := 9188.
Definition PROBE_KIND_PROBE : Z := 1.
Definition PROBE_KIND_ACK : Z := 2.
Definition PROBE_KIND_ECHO : Z := 3.
Definition PROBES_PER_SIZE : nat := 3.

Definition ip_overhead (is_ipv6 : bool) : Z := if is_ipv6 then 48 else 28.
Definition min_probe_payload (is_ipv6 : bool) : Z :=
  if is_ipv6 then 1280 - ip_overhead true else MIN_PROBE_PAYLOAD.

(** ** The packet *)
Module ProbePacket.
Record t := mk { kind : Z; seq : Z; declared_size : Z }.

Definition known_kind (k : Z) : bool :=
  (k =? PROBE_KIND_PROBE) || (k =? PROBE_KIND_ACK) || (k =? PROBE_KIND_ECHO).
Definition padded_kind (k : Z) : bool := (k =? PROBE_KIND_PROBE) || (k =? PROBE_KIND_ECHO).

Definition wf (p : t) : Prop :=
  known_kind (kind p) = true /\ fits 32 (seq p) /\ fits 16 (declared_size p).

Definition wire_len (p : t) : Z :=
  if kind p =? PROBE_KIND_ACK then PROBE_HEADER_SIZE else declared_size p.

(** The number of bytes to send, and the buffer after. *)
Definition encode (p : t) (buffer : list Z) : option (Z * list Z) :=
  let wire_len := wire_len p in
  if (wire_len <? PROBE_HEADER_SIZE) || (len buffer <? wire_len) then None
  else
    let buffer := splice 0 PROBE_MAGIC buffer in
    let buffer := splice 4 [PROBE_VERSION] buffer in
    let buffer := splice 5 [kind p] buffer in
    let buffer := splice 6 (to_be_bytes 2 0) buffer in
    let buffer := splice 8 (to_be_bytes 4 (seq p)) buffer in
    let buffer := splice 12 (to_be_bytes 2 (declared_size p)) buffer in
    let buffer := splice 14 (to_be_bytes 2 0) buffer in
    Some (wire_len, buffer).

Definition decode (buffer : list Z) : option t :=
  if (len buffer <? PROBE_HEADER_SIZE) || negb (bool_decide (slice 0 4 buffer = PROBE_MAGIC))
  then None
  else if negb (nth 4 buffer 0 =? PROBE_VERSION) then None
  else
    let kind := nth 5 buffer 0 in
    if negb (known_kind kind) then None
    else
      let seq := from_be_bytes (slice 8 12 buffer) in
      let declared_size := from_be_bytes (slice 12 14 buffer) in
      if padded_kind kind
         && ((declared_size <? PROBE_HEADER_SIZE) || (len buffer <? declared_size))
      then None
      else Some (mk kind seq declared_size).
End ProbePacket.

(** ** The ladder *)
(** [Vec::dedup]: consecutive duplicates collapse. *)
Fixpoint dedup (l : list Z) : list Z :=
  match l with
  | x :: (y :: _) as tl => if x =? y then dedup tl else x :: dedup tl
  | _ => l
  end.

Definition size_ladder (is_ipv6 : bool) : list Z :=
  let overhead := ip_overhead is_ipv6 in
  let min_payload := min_probe_payload is_ipv6 in
  let max_payload := saturating_sub 9216 overhead in
  let ladder := filter (fun p => min_payload <= p <= max_payload)
    (map (fun wire => saturating_sub wire overhead) [576; 1280; 1492; 1500; 4352; 9000; 9216]) in
  let ladder := if bool_decide (head ladder <> Some min_payload)
                then min_payload :: ladder else ladder in
  let ladder := if bool_decide (last ladder <> Some max_payload)
                then ladder ++ [max_payload] else ladder in
  dedup ladder.

(** ** The search *)
Inductive SizeVerdict := Pass | Fail | LocalLimit | Untested.
#[export] Instance SizeVerdict_eq_dec : EqDecision SizeVerdict.
Proof. solve_decision. Defined.

Module SizeSearch.
Record t := mk {
  ladder : list Z;
  ladder_idx : nat;
  low : option Z;
  high : option Z;
  in_binary : bool;
  pending : option Z
}.

Definition new (is_ipv6 : bool) : t := mk (size_ladder is_ipv6) 0 None None false None.

Definition binary_midpoint (self : t) : option Z :=
  match low self, high self with
  | Some low, Some high =>
    if high - low <=? 1 then None else Some (low + (high - low) / 2)
  | _, _ => None
  end.

(** The ladder loop: skip the rungs at or above a known failure. *)
Fixpoint next_rung (high : option Z) (rungs : list Z) (idx : nat) : nat * option Z :=
  match rungs with
  | [] => (idx, None)
  | size :: rungs =>
    if match high with Some h => h <=? size | None => false end
    then next_rung high rungs (S idx)
    else (idx, Some size)
  end.

Definition next_size (self : t) : t * option Z :=
  match pending self with
  | Some p => (self, Some p)
  | None =>
    if in_binary self then
      let next := binary_midpoint self in
      (mk (ladder self) (ladder_idx self) (low self) (high self) true next, next)
    else
      match next_rung (high self) (drop (ladder_idx self) (ladder self)) (ladder_idx self) with
      | (idx, Some size) =>
        (mk (ladder self) idx (low self) (high self) false (Some size), Some size)
      | (idx, None) =>
        let next := binary_midpoint self in
        (mk (ladder self) idx (low self) (high self) true next, next)
      end
  end.

Definition record (self : t) (size : Z) (forward : SizeVerdict) : t :=
  let idx := if in_binary self then ladder_idx self else S (ladder_idx self) in
  let low' := match forward with
              | Pass => match low self with
                        | Some l => if l <? size then Some size else Some l
                        | None => Some size
                        end
              | _ => low self
              end in
  let high' := match forward with
               | Fail | LocalLimit => match high self with
                                      | Some h => if size <? h then Some size else Some h
                                      | None => Some size
                                      end
               | _ => high self
               end in
  mk (ladder self) idx low' high' (in_binary self) None.

Definition forward_max (self : t) : option Z := low self.
End SizeSearch.

(** ** The client *)
Inductive send_result := Sent | Emsgsize | SendError.
(** What a receive inside the window reports, until the window elapses. *)
Inductive recv_event := RecvError | Datagram (bytes : list Z).
Record attempt := mkAttempt { send : send_result; window : list recv_event }.

Record SizeResult := mkSizeResult {
  payload : Z; forward_ok : Z; reverse_ok : Z; attempts : Z;
  forward : SizeVerdict; reverse : SizeVerdict
}.

Record MtuProbeReport := mkReport {
  forward_max_payload : option Z; reverse_max_payload : option Z;
  forward_path_mtu : option Z; reverse_path_mtu : option Z;
  ipv6 : bool; sizes : list SizeResult
}.

Definition RECV_BUF : nat := Z.to_nat (MAX_PROBE_PAYLOAD + 100).

(** [collect_replies]: the end of the list is the end of the reply window. *)
Fixpoint collect_replies (events : list recv_event) (seq size : Z) (got_ack : bool) : bool * bool :=
  match events with
  | [] => (got_ack, false)
  | RecvError :: events => collect_replies events seq size got_ack
  | Datagram bytes :: events =>
    let bytes := take RECV_BUF bytes in
    match ProbePacket.decode bytes with
    | None => collect_replies events seq size got_ack
    | Some reply =>
      if negb (ProbePacket.seq reply =? seq) || negb (ProbePacket.declared_size reply =? size)
      then collect_replies events seq size got_ack
      else if ProbePacket.kind reply =? PROBE_KIND_ACK
      then collect_replies events seq size true
      else if (ProbePacket.kind reply =? PROBE_KIND_ECHO) && (len bytes =? size)
      then (got_ack, true)
      else collect_replies events seq size got_ack
    end
  end.

(** What the attempts at one size accumulate. *)
Record tally := mkTally {
  t_seq : Z; t_buf : list Z; t_forward_ok : Z; t_reverse_ok : Z; t_attempts : Z; t_local : bool
}.

(** The network: what happens to the datagram sent as probe [seq]. *)
Definition network := Z -> list Z -> attempt.

(** The attempts loop of [run_probe] at one size; [None] is the panic of
    [expect]. *)
Fixpoint try_size (n : nat) (net : network) (size : Z) (a : tally) : option tally :=
  match n with
  | O => Some a
  | S n =>
    let seq := wrapping_add 32 (t_seq a) 1 in
    let pkt := ProbePacket.mk PROBE_KIND_PROBE seq (wrap 16 size) in
    match ProbePacket.encode pkt (t_buf a) with
    | None => None
    | Some (len, buf) =>
      let tried := wrapping_add 8 (t_attempts a) 1 in
      let r := net seq (take (Z.to_nat len) buf) in
      match send r with
      | Emsgsize => Some (mkTally seq buf (t_forward_ok a) (t_reverse_ok a) tried true)
      | SendError => try_size n net size
                       (mkTally seq buf (t_forward_ok a) (t_reverse_ok a) tried false)
      | Sent =>
        let '(got_ack, got_echo) := collect_replies (window r) seq size false in
        let fwd := if got_ack || got_echo then wrapping_add 8 (t_forward_ok a) 1
                   else t_forward_ok a in
        let rev := if got_echo then wrapping_add 8 (t_reverse_ok a) 1 else t_reverse_ok a in
        let a := mkTally seq buf fwd rev tried false in
        if got_echo then Some a else try_size n net size a
      end
    end
  end.

Definition size_result (size : Z) (a : tally) : SizeResult :=
  let forward := if t_local a then LocalLimit
                 else if 0 <? t_forward_ok a then Pass else Fail in
  let reverse := if 0 <? t_reverse_ok a then Pass
                 else if bool_decide (forward = Pass) then Fail else Untested in
  mkSizeResult size (t_forward_ok a) (t_reverse_ok a) (t_attempts a) forward reverse.

(** The reverse maximum after one more row. *)
Definition next_reverse_max (rmax : option Z) (r : SizeResult) : option Z :=
  if bool_decide (reverse r = Pass)
     && match rmax with Some m => m <? payload r | None => true end
  then Some (payload r) else rmax.

(** The loop over sizes; [None] only if the fuel runs out or on a panic. *)
Fixpoint probe_sizes (fuel : nat) (net : network) (search : SizeSearch.t) (seq : Z)
    (buf : list Z) (reverse_max : option Z) (sizes : list SizeResult)
    : option (SizeSearch.t * option Z * list SizeResult) :=
  match SizeSearch.next_size search with
  | (search, None) => Some (search, reverse_max, sizes)
  | (search, Some size) =>
    match fuel with
    | O => None
    | S fuel =>
      match try_size PROBES_PER_SIZE net size (mkTally seq buf 0 0 0 false) with
      | None => None
      | Some a =>
        let r := size_result size a in
        probe_sizes fuel net (SizeSearch.record search size (forward r)) (t_seq a) (t_buf a)
          (next_reverse_max reverse_max r) (sizes ++ [r])
      end
    end
  end.

Definition run_probe (fuel : nat) (net : network) (is_ipv6 : bool) : option MtuProbeReport :=
  let send_buf := repeat 0 (Z.to_nat MAX_PROBE_PAYLOAD) in
  match probe_sizes fuel net (SizeSearch.new is_ipv6) 0 send_buf None [] with
  | None => None
  | Some (search, reverse_max, sizes) =>
    let overhead := ip_overhead is_ipv6 in
    let forward_max := SizeSearch.forward_max search in
    Some (mkReport forward_max reverse_max
            (option_map (fun p => p + overhead) forward_max)
            (option_map (fun p => p + overhead) reverse_max) is_ipv6 sizes)
  end.

(** ** The server

    One pass of [respond_mtu_probes]: the datagrams sent in answer to one
    received, and the send buffer after. *)
Definition respond_mtu_probe (single_port_ack : option (list Z)) (send_buf datagram : list Z)
    : list (list Z) * list Z :=
  let bytes := take RECV_BUF datagram in
  let hello := match UdpHelloPacket.decode bytes with
               | Some pkt => UdpHelloPacket.kind pkt =? UDP_HELLO_KIND_HELLO
               | None => false
               end in
  match single_port_ack, hello with
  | Some hello_ack, true => ([hello_ack], send_buf)
  | _, _ =>
    match ProbePacket.decode bytes with
    | None => ([], send_buf)
    | Some pkt =>
      if negb (ProbePacket.kind pkt =? PROBE_KIND_PROBE) then ([], send_buf)
      else
        let reply kind := ProbePacket.mk kind (ProbePacket.seq pkt) (ProbePacket.declared_size pkt) in
        let '(ack, send_buf) := match ProbePacket.encode (reply PROBE_KIND_ACK) send_buf with
          | Some (len, buf) => ([take (Z.to_nat len) buf], buf) | None => ([], send_buf) end in
        let '(echo, send_buf) := match ProbePacket.encode (reply PROBE_KIND_ECHO) send_buf with
          | Some (len, buf) => ([take (Z.to_nat len) buf], buf) | None => ([], send_buf) end in
        (ack ++ echo, send_buf)
    end
  end.

(** ** The packet codec *)
Definition header_bytes (p : ProbePacket.t) : list Z :=
  PROBE_MAGIC ++ [PROBE_VERSION] ++ [ProbePacket.kind p] ++ to_be_bytes 2 0
  ++ to_be_bytes 4 (ProbePacket.seq p) ++ to_be_bytes 2 (ProbePacket.declared_size p)
  ++ to_be_bytes 2 0.

Lemma length_probe_header p : length (header_bytes p) = 16%nat.
Proof. unfold header_bytes. by rewrite !length_app, !length_to_be_bytes. Qed.

Lemma encode_bytes p buffer :
  PROBE_HEADER_SIZE <= ProbePacket.wire_len p <= len buffer ->
  ProbePacket.encode p buffer
  = Some (ProbePacket.wire_len p, header_bytes p ++ drop 16 buffer).
Proof.
  intros H. unfold ProbePacket.encode. cbv zeta.
  rewrite (proj2 (Z.ltb_ge (ProbePacket.wire_len p) _)) by lia.
  rewrite (proj2 (Z.ltb_ge (len buffer) _)) by lia. cbn [orb].
  fill_fields. unfold header_bytes. by rewrite <- !app_assoc.
Qed.

Lemma decode_bytes p tail :
  ProbePacket.wf p ->
  (ProbePacket.padded_kind (ProbePacket.kind p) = true ->
   PROBE_HEADER_SIZE <= ProbePacket.declared_size p <= 16 + len tail) ->
  ProbePacket.decode (header_bytes p ++ tail) = Some p.
Proof.
  intros (Hk & Hs & Hd) Hpad. destruct p as [k s d].
  cbn [ProbePacket.kind ProbePacket.seq ProbePacket.declared_size] in *.
  unfold ProbePacket.decode.
  rewrite (proj2 (Z.ltb_ge (len _) PROBE_HEADER_SIZE))
    by (unfold len; rewrite length_app, length_probe_header; unfold PROBE_HEADER_SIZE; lia).
  assert (Hl : len (header_bytes (ProbePacket.mk k s d) ++ tail) = 16 + len tail)
    by (unfold len; rewrite length_app, length_probe_header; lia).
  rewrite Hl.
  pose proof (from_to_be_bytes 4 s Hs) as Es. pose proof (from_to_be_bytes 2 d Hd) as Ed.
  unfold header_bytes; cbn [ProbePacket.kind ProbePacket.seq ProbePacket.declared_size].
  change (to_be_bytes 2 0) with [0; 0].
  pose proof (length_to_be_bytes 4 s). pose proof (length_to_be_bytes 2 d).
  generalize dependent (to_be_bytes 4 s). generalize dependent (to_be_bytes 2 d).
  intros vd <- Ld vs <- Ls. explode vs. explode vd.
  cbn -[from_be_bytes Z.ltb ProbePacket.known_kind ProbePacket.padded_kind Z.add].
  change (bool_decide _) with true. cbn [negb].
  rewrite Hk. cbn [negb].
  destruct (ProbePacket.padded_kind k); [|done]. specialize (Hpad eq_refl).
  rewrite (proj2 (Z.ltb_ge _ PROBE_HEADER_SIZE)) by lia.
  by rewrite (proj2 (Z.ltb_ge (16 + len tail) _)) by lia.
Qed.

(** The prefix of the buffer that is sent. *)
Lemma sent_bytes p buffer :
  16 <= ProbePacket.wire_len p <= len buffer ->
  exists tail, take (Z.to_nat (ProbePacket.wire_len p)) (header_bytes p ++ drop 16 buffer)
               = header_bytes p ++ tail /\ len tail = ProbePacket.wire_len p - 16.
Proof.
  intros H. eexists. rewrite take_app_ge by (rewrite length_probe_header; lia).
  split; [done|]. unfold len in *. rewrite length_take, length_drop, length_probe_header. lia.
Qed.

Lemma wire_len_padded p :
  ProbePacket.padded_kind (ProbePacket.kind p) = true ->
  ProbePacket.wire_len p = ProbePacket.declared_size p.
Proof.
  unfold ProbePacket.padded_kind, ProbePacket.wire_len, PROBE_KIND_PROBE, PROBE_KIND_ECHO,
    PROBE_KIND_ACK. intros H. destruct (Z.eqb_spec (ProbePacket.kind p) 2) as [E|]; [|done].
  by rewrite E in H.
Qed.

Lemma encode_decode p buffer n out :
  ProbePacket.wf p -> ProbePacket.encode p buffer = Some (n, out) ->
  n = ProbePacket.wire_len p /\ length out = length buffer /\
  length (take (Z.to_nat n) out) = Z.to_nat n /\
  ProbePacket.decode (take (Z.to_nat n) out) = Some p.
Proof.
  intros Hwf He.
  assert (Hb : PROBE_HEADER_SIZE <= ProbePacket.wire_len p <= len buffer).
  { unfold ProbePacket.encode in He. destruct (_ || _) eqn:E; [done|]. zbool. lia. }
  rewrite encode_bytes in He by done. apply some_pair_inv in He as [<- <-].
  unfold PROBE_HEADER_SIZE in Hb.
  destruct (sent_bytes p buffer) as (tail & E & Hl); [lia|]. rewrite E.
  unfold len in *. split_and!; [done| | |].
  - rewrite length_app, length_probe_header, length_drop. lia.
  - rewrite length_app, length_probe_header. lia.
  - apply decode_bytes; [done|]. intros Hp. rewrite <- wire_len_padded by done.
    unfold PROBE_HEADER_SIZE, len. lia.
Qed.

(** ** The search: invariant, measure, step *)
Lemma size_ladder_value b :
  size_ladder b = if b then [1232; 1444; 1452; 4304; 8952; 9168]
                  else [548; 1252; 1464; 1472; 4324; 8972; 9188].
Proof. by destruct b. Qed.

Definition max_probe_payload (is_ipv6 : bool) : Z := saturating_sub 9216 (ip_overhead is_ipv6).

Lemma ladder_range b x :
  x ∈ size_ladder b -> min_probe_payload b <= x <= max_probe_payload b.
Proof.
  rewrite size_ladder_value. revert x. apply Forall_forall.
  destruct b; repeat constructor; discriminate.
Qed.

Lemma ladder_sorted b i x y rest :
  drop i (size_ladder b) = x :: rest -> y ∈ rest -> x < y.
Proof.
  assert (H : StronglySorted Z.lt (size_ladder b))
    by (rewrite size_ladder_value; destruct b; repeat constructor).
  revert i. induction H as [|z l Hl IH Hz]; intros [|i]; cbn; try done; [|apply IH].
  intros [= -> ->]. by rewrite Forall_forall in Hz; apply Hz.
Qed.

Lemma payload_bounds b : 548 <= min_probe_payload b /\ max_probe_payload b <= MAX_PROBE_PAYLOAD.
Proof. destruct b; vm_compute; split; discriminate. Qed.

Section search.
Variable b : bool.

Record Inv (s : SizeSearch.t) : Prop := {
  inv_pending : SizeSearch.pending s = None;
  inv_ladder : SizeSearch.ladder s = size_ladder b;
  inv_idx : (SizeSearch.ladder_idx s <= length (size_ladder b))%nat;
  inv_binary : SizeSearch.in_binary s = true ->
    SizeSearch.ladder_idx s = length (size_ladder b);
  inv_low : forall l, SizeSearch.low s = Some l ->
    min_probe_payload b <= l <= max_probe_payload b;
  inv_high : forall h, SizeSearch.high s = Some h ->
    min_probe_payload b <= h <= max_probe_payload b;
  inv_bracket : forall l h, SizeSearch.low s = Some l -> SizeSearch.high s = Some h -> l < h;
  inv_above : forall l x, SizeSearch.low s = Some l ->
    x ∈ drop (SizeSearch.ladder_idx s) (size_ladder b) -> l < x
}.

Lemma inv_new : Inv (SizeSearch.new b).
Proof. constructor; try done. cbn [SizeSearch.ladder_idx SizeSearch.new]. lia. Qed.

Lemma next_rung_spec high rungs idx idx' o :
  SizeSearch.next_rung high rungs idx = (idx', o) ->
  exists n, idx' = (idx + n)%nat /\ (n <= length rungs)%nat /\
    (n <> 0%nat -> high <> None) /\
    match o with
    | Some x => exists rest, drop n rungs = x :: rest /\ forall h, high = Some h -> x < h
    | None => drop n rungs = []
    end.
Proof.
  revert idx. induction rungs as [|r rungs IH]; intros idx; cbn [SizeSearch.next_rung].
  - intros [= <- <-]. by exists 0%nat; repeat split; [lia|..].
  - destruct high as [h|]; [destruct (Z.leb_spec h r)|].
    + intros (n & -> & Hn & _ & Ho)%IH. exists (S n). split_and!; [lia|cbn; lia|done|done].
    + intros [= <- <-]. exists 0%nat. split_and!; [lia|lia|done|]. exists rungs. split; [done|]. congruence.
    + intros [= <- <-]. exists 0%nat. split_and!; [lia|lia|done|]. by exists rungs.
Qed.

(** What [next_size] chooses: a rung strictly inside the bracket, or the
    midpoint once the ladder is used up. *)
Lemma next_size_spec s s' o :
  Inv s -> SizeSearch.next_size s = (s', o) ->
  SizeSearch.ladder s' = size_ladder b /\ SizeSearch.low s' = SizeSearch.low s /\
  SizeSearch.high s' = SizeSearch.high s /\
  exists n, SizeSearch.ladder_idx s' = (SizeSearch.ladder_idx s + n)%nat /\
    (n <> 0%nat -> SizeSearch.high s <> None) /\
    (SizeSearch.ladder_idx s' <= length (size_ladder b))%nat /\
    (SizeSearch.in_binary s = true -> SizeSearch.in_binary s' = true) /\
    if SizeSearch.in_binary s'
    then o = SizeSearch.binary_midpoint s /\ SizeSearch.ladder_idx s' = length (size_ladder b)
    else exists x rest, o = Some x /\ drop (SizeSearch.ladder_idx s') (size_ladder b) = x :: rest /\
           forall h, SizeSearch.high s = Some h -> x < h.
Proof.
  intros HI. unfold SizeSearch.next_size. rewrite (inv_pending _ HI).
  pose proof (inv_idx _ HI) as Hidx.
  destruct (SizeSearch.in_binary s) eqn:Eb.
  - intros [= <- <-]. cbn [SizeSearch.ladder SizeSearch.ladder_idx SizeSearch.low
      SizeSearch.high SizeSearch.in_binary]. rewrite (inv_ladder _ HI). do 3 (split; [done|]).
    exists 0%nat. rewrite Nat.add_0_r. split_and!; [done..|by apply inv_binary].
  - destruct (SizeSearch.next_rung _ _ _) as [idx [x|]] eqn:En; intros [= <- <-];
      cbn [SizeSearch.ladder SizeSearch.ladder_idx SizeSearch.low
        SizeSearch.high SizeSearch.in_binary];
      rewrite (inv_ladder _ HI) in En |- *; do 3 (split; [done|]);
      apply next_rung_spec in En as (n & -> & Hn & Hh & Ho); rewrite length_drop in Hn;
      rewrite drop_drop in Ho; exists n; split_and!; try done; [lia| |lia|].
    + destruct Ho as (rest & ? & ?). eauto.
    + apply (f_equal length) in Ho. rewrite length_drop in Ho. cbn in Ho. lia.
Qed.

Lemma drop_idx_sub {A} (l : list A) i n x : x ∈ drop (i + n) l -> x ∈ drop i l.
Proof. rewrite <- drop_drop. intros (j & H)%list_elem_of_lookup. rewrite lookup_drop in H.
  apply list_elem_of_lookup. eauto. Qed.

(** The size chosen lies strictly inside the bracket and the probe range. *)
Lemma next_between s s' p :
  Inv s -> SizeSearch.next_size s = (s', Some p) ->
  (forall l, SizeSearch.low s = Some l -> l < p) /\
  (forall h, SizeSearch.high s = Some h -> p < h) /\
  min_probe_payload b <= p <= max_probe_payload b.
Proof.
  intros HI (_ & _ & _ & n & Hidx & _ & _ & _ & Ho)%next_size_spec; [|done].
  destruct (SizeSearch.in_binary s').
  - destruct Ho as [Ho _]. unfold SizeSearch.binary_midpoint in Ho.
    destruct (SizeSearch.low s) as [l|] eqn:El, (SizeSearch.high s) as [h|] eqn:Eh; try done.
    pose proof (inv_low _ HI _ El). pose proof (inv_high _ HI _ Eh).
    destruct (Z.leb_spec (h - l) 1); [done|]. injection Ho as ->.
    pose proof (Z.div_mod (h - l) 2 ltac:(lia)). pose proof (Z.mod_pos_bound (h - l) 2 ltac:(lia)).
    split_and!; intros; simplify_eq; lia.
  - destruct Ho as (x & rest & [= ->] & Hd & Hlt).
    assert (Hx : x ∈ drop (SizeSearch.ladder_idx s') (size_ladder b)) by (rewrite Hd; left).
    split_and!; [|done|..].
    + intros l El. apply (inv_above _ HI _ _ El). rewrite Hidx in Hx. by apply drop_idx_sub in Hx.
    + apply ladder_range. by apply drop_idx_sub with (i := 0%nat) in Hx.
    + apply ladder_range. by apply drop_idx_sub with (i := 0%nat) in Hx.
Qed.

Lemma record_low s p v :
  (forall l, SizeSearch.low s = Some l -> l < p) ->
  SizeSearch.low (SizeSearch.record s p v)
  = if bool_decide (v = Pass) then Some p else SizeSearch.low s.
Proof.
  intros H. destruct v; cbn; try done. destruct (SizeSearch.low s); [|done].
  by rewrite (proj2 (Z.ltb_lt _ _) (H _ eq_refl)).
Qed.

Lemma record_high s p v :
  (forall h, SizeSearch.high s = Some h -> p < h) ->
  SizeSearch.high (SizeSearch.record s p v)
  = if bool_decide (v = Fail \/ v = LocalLimit) then Some p else SizeSearch.high s.
Proof.
  intros H. destruct v; cbn; try done; (destruct (SizeSearch.high s); [|done]);
    by rewrite (proj2 (Z.ltb_lt _ _) (H _ eq_refl)).
Qed.

(** Recording any verdict for the size chosen keeps the invariant. *)
Lemma inv_step s s' p v :
  Inv s -> SizeSearch.next_size s = (s', Some p) -> v <> Untested ->
  Inv (SizeSearch.record s' p v).
Proof.
  intros HI Hn Hv. destruct (next_between _ _ _ HI Hn) as (Hl & Hh & Hr).
  destruct (next_size_spec _ _ _ HI Hn) as (EL & El & Eh & n & Hidx & _ & Hle & Hb & Ho).
  rewrite <- El in Hl. rewrite <- Eh in Hh.
  assert (Hlow : forall l, SizeSearch.low (SizeSearch.record s' p v) = Some l ->
    min_probe_payload b <= l <= max_probe_payload b /\ (l = p \/ SizeSearch.low s = Some l)).
  { rewrite record_low, El by done. case_bool_decide; [intros l [= <-]; eauto|].
    intros l E. split; [by apply (inv_low _ HI)|eauto]. }
  assert (Hhigh : forall h, SizeSearch.high (SizeSearch.record s' p v) = Some h ->
    min_probe_payload b <= h <= max_probe_payload b /\
    (h = p /\ v <> Pass \/ SizeSearch.high s = Some h /\ v = Pass)).
  { rewrite record_high, Eh by done. case_bool_decide as E; [intros h [= <-]|intros h Eq].
    - split; [done|]. left. split; [done|]. by destruct E as [-> | ->].
    - split; [by apply (inv_high _ HI)|]. right. split; [done|]. by destruct v; naive_solver. }
  constructor; try by eauto.
  - cbn. destruct (SizeSearch.in_binary s'); [lia|].
    destruct Ho as (x & rest & _ & Hd & _). apply (f_equal length) in Hd.
    rewrite length_drop in Hd. cbn in Hd. lia.
  - cbn. destruct (SizeSearch.in_binary s'); [naive_solver|done].
  - intros l E. by apply Hlow.
  - intros h E. by apply Hhigh.
  - intros l h Hl1 Hh1. apply Hlow in Hl1 as Hl2. apply Hhigh in Hh1 as Hh2.
    rewrite record_low in Hl1 by done. rewrite Eh in Hh. rewrite El in Hl.
    destruct Hh2 as [_ [[-> Hv']|[Hh2 ->]]].
    + rewrite bool_decide_eq_false_2 in Hl1 by done. rewrite El in Hl1. by apply Hl.
    + injection Hl1 as <-. by apply Hh.
  - intros l x Hl1 Hx. apply Hlow in Hl1 as [_ Hl1]. cbn [SizeSearch.ladder_idx SizeSearch.record] in Hx.
    destruct (SizeSearch.in_binary s').
    + destruct Ho as [_ Ho]. rewrite Ho, drop_all in Hx. by apply elem_of_nil in Hx.
    + destruct Ho as (y & rest & [= <-] & Hd & _).
      rewrite <- Nat.add_1_r, <- drop_drop, Hd in Hx. change (drop 1 (p :: rest)) with rest in Hx.
      pose proof (ladder_sorted _ _ _ _ _ Hd Hx).
      destruct Hl1 as [-> | Hl1]; [done|]. rewrite El in Hl. specialize (Hl _ Hl1). lia.
Qed.

Definition gap_log (s : SizeSearch.t) : nat :=
  match SizeSearch.low s, SizeSearch.high s with
  | Some l, Some h => Z.to_nat (Z.log2_up (h - l))
  | _, _ => 0
  end.
Definition measure (s : SizeSearch.t) : nat :=
  if SizeSearch.in_binary s then gap_log s
  else (length (size_ladder b) - SizeSearch.ladder_idx s + 14)%nat.

Lemma gap_log_bound s : Inv s -> (gap_log s <= 14)%nat.
Proof.
  intros HI. unfold gap_log.
  destruct (SizeSearch.low s) as [l|] eqn:El; [|lia].
  destruct (SizeSearch.high s) as [h|] eqn:Eh; [|lia].
  pose proof (inv_low _ HI _ El). pose proof (inv_high _ HI _ Eh).
  pose proof (inv_bracket _ HI _ _ El Eh). destruct (payload_bounds b).
  unfold MAX_PROBE_PAYLOAD in *.
  enough (Z.log2_up (h - l) <= 14) by lia. apply Z.log2_up_le_pow2; lia.
Qed.

Lemma gap_halves g g' : 2 <= g -> g' <= (g + 1) / 2 -> 0 < g' ->
  (Z.to_nat (Z.log2_up g') < Z.to_nat (Z.log2_up g))%nat.
Proof.
  intros Hg Hle Hpos. pose proof (Z.log2_up_spec g ltac:(lia)) as [_ Hup].
  pose proof (Z.log2_up_pos g ltac:(lia)) as Hp.
  enough (Z.log2_up g' <= Z.log2_up g - 1) by lia.
  apply Z.log2_up_le_pow2; [done|].
  replace (2 ^ Z.log2_up g) with (2 * 2 ^ (Z.log2_up g - 1)) in Hup
    by (rewrite <- Z.pow_succ_r by lia; f_equal; lia).
  etransitivity; [exact Hle|].
  assert ((g + 1) / 2 < 2 ^ (Z.log2_up g - 1) + 1); [|lia].
  apply Z.div_lt_upper_bound; lia.
Qed.

Lemma measure_step s s' p v :
  Inv s -> SizeSearch.next_size s = (s', Some p) -> v <> Untested ->
  (measure (SizeSearch.record s' p v) < measure s)%nat.
Proof.
  intros HI Hn Hv. destruct (next_between _ _ _ HI Hn) as (Hl & Hh & Hr).
  destruct (next_size_spec _ _ _ HI Hn) as (EL & El & Eh & n & Hidx & _ & Hle & Hb & Ho).
  unfold measure. cbn [SizeSearch.in_binary SizeSearch.record SizeSearch.ladder_idx].
  destruct (SizeSearch.in_binary s').
  - enough (gap_log (SizeSearch.record s' p v) < gap_log s)%nat
      by (pose proof (gap_log_bound _ HI); destruct (SizeSearch.in_binary s); lia).
    destruct Ho as [Ho _]. rewrite <- El in Hl. rewrite <- Eh in Hh.
    unfold gap_log. rewrite record_low, record_high by done. rewrite El, Eh in *.
    unfold SizeSearch.binary_midpoint in Ho.
    destruct (SizeSearch.low s) as [l|], (SizeSearch.high s) as [h|]; try done.
    destruct (Z.leb_spec (h - l) 1); [done|]. injection Ho as ->.
    specialize (Hl _ eq_refl). specialize (Hh _ eq_refl).
    assert ((h - l + 1) / 2 = (h - l) - (h - l) / 2)
      by (pose proof (Z.div_mod (h - l) 2 ltac:(lia)); pose proof (Z.div_mod (h - l + 1) 2 ltac:(lia));
          pose proof (Z.mod_pos_bound (h - l) 2 ltac:(lia));
          pose proof (Z.mod_pos_bound (h - l + 1) 2 ltac:(lia)); lia).
    assert ((h - l) / 2 <= (h - l + 1) / 2) by (apply Z.div_le_mono; lia).
    destruct v; try done; cbn; apply gap_halves; lia.
  - destruct Ho as (x & rest & _ & Hd & _). apply (f_equal length) in Hd.
    rewrite length_drop in Hd. cbn in Hd.
    destruct (SizeSearch.in_binary s); [naive_solver|lia].
Qed.

(** ** Convergence on a path with a size limit [T] *)
Record InvT (T : Z) (s : SizeSearch.t) : Prop := {
  t_low : forall l, SizeSearch.low s = Some l -> l <= T;
  t_high : forall h, SizeSearch.high s = Some h -> T < h;
  t_no_low : SizeSearch.low s = None ->
    (SizeSearch.high s = None /\ SizeSearch.ladder_idx s = 0%nat) \/ T < min_probe_payload b;
  t_no_high : SizeSearch.high s = None ->
    SizeSearch.low s = match SizeSearch.ladder_idx s with
                       | O => None | S i => size_ladder b !! i end
}.

Lemma invT_new T : InvT T (SizeSearch.new b).
Proof. constructor; cbn; auto; done. Qed.

Lemma ladder_ends :
  size_ladder b !! 0%nat = Some (min_probe_payload b) /\
  size_ladder b !! pred (length (size_ladder b)) = Some (max_probe_payload b) /\
  length (size_ladder b) <> 0%nat.
Proof. by destruct b. Qed.

Lemma drop_lookup {A} (l : list A) i x rest : drop i l = x :: rest -> l !! i = Some x.
Proof. intros E. rewrite <- (Nat.add_0_r i), <- lookup_drop, E. done. Qed.

Lemma invT_step T s s' p v :
  Inv s -> InvT T s -> SizeSearch.next_size s = (s', Some p) ->
  v <> Untested -> (v = Pass <-> p <= T) -> InvT T (SizeSearch.record s' p v).
Proof.
  intros HI HT Hn Hv Hp. destruct (next_between _ _ _ HI Hn) as (Hl & Hh & Hr).
  destruct (next_size_spec _ _ _ HI Hn) as (EL & El & Eh & n & Hidx & Hskip & Hle & Hb & Ho).
  rewrite <- El in Hl. rewrite <- Eh in Hh.
  constructor; rewrite ?record_low, ?record_high by done; rewrite ?El, ?Eh.
  - case_bool_decide; [intros l [= <-]; tauto|apply (t_low _ _ HT)].
  - case_bool_decide as E; [|apply (t_high _ _ HT)]. intros h [= <-].
    destruct (Z.le_gt_cases p T); [|lia]. destruct E; naive_solver.
  - case_bool_decide as E; [done|]. intros Hnone. right.
    destruct (t_no_low _ _ HT Hnone) as [[Hhigh H0]|]; [|done].
    assert (p = min_probe_payload b) as ->; [|tauto || (assert (~ min_probe_payload b <= T) by tauto; lia)].
    destruct n; [|by exfalso; apply Hskip]. destruct ladder_ends as (E0 & _ & Hne).
    destruct (SizeSearch.in_binary s').
    + rewrite Hidx, H0 in Ho. destruct Ho as [_ Ho]. cbn in Ho. congruence.
    + destruct Ho as (x & rest & [= ->] & Hd%drop_lookup & _).
      rewrite Hidx, H0 in Hd. cbn in Hd. congruence.
  - case_bool_decide as E; [done|]. intros Hnone.
    assert (v = Pass) as -> by (destruct v; naive_solver). rewrite bool_decide_eq_true_2 by done.
    cbn [SizeSearch.record SizeSearch.ladder_idx]. destruct (SizeSearch.in_binary s').
    + destruct Ho as [Ho _]. unfold SizeSearch.binary_midpoint in Ho. rewrite Hnone in Ho.
      by destruct (SizeSearch.low s).
    + destruct Ho as (x & rest & [= ->] & Hd%drop_lookup & _). by rewrite Hd.
Qed.

Lemma invT_done T s s' :
  Inv s -> InvT T s -> SizeSearch.next_size s = (s', None) ->
  SizeSearch.forward_max s'
  = if T <? min_probe_payload b then None else Some (Z.min T (max_probe_payload b)).
Proof.
  intros HI HT Hn. unfold SizeSearch.forward_max.
  destruct (next_size_spec _ _ _ HI Hn) as (EL & El & Eh & n & Hidx & Hskip & Hle & Hb & Ho).
  destruct ladder_ends as (E0 & Elast & Hne).
  destruct (SizeSearch.in_binary s'); [|by destruct Ho as (? & ? & ? & _)].
  destruct Ho as [Ho Hlen]. rewrite El. unfold SizeSearch.binary_midpoint in Ho.
  destruct (SizeSearch.low s) as [l|] eqn:Hl.
  - pose proof (inv_low _ HI _ Hl). pose proof (t_low _ _ HT _ Hl).
    rewrite (proj2 (Z.ltb_ge _ _)) by lia. f_equal.
    destruct (SizeSearch.high s) as [h|] eqn:Hh.
    + pose proof (inv_high _ HI _ Hh). pose proof (t_high _ _ HT _ Hh).
      destruct (Z.leb_spec (h - l) 1); [|done]. lia.
    + pose proof (t_no_high _ _ HT Hh) as E. rewrite Hl in E.
      destruct n; [|by exfalso; apply Hskip]. rewrite Nat.add_0_r in Hidx.
      rewrite <- Hidx, Hlen in E. destruct (length (size_ladder b)); [done|].
      cbn in Elast. rewrite Elast in E. injection E as ->. lia.
  - destruct (t_no_low _ _ HT Hl) as [[Hhigh H0]|Hlt].
    + destruct n; [|by exfalso; apply Hskip]. lia.
    + by rewrite (proj2 (Z.ltb_lt _ _)).
Qed.
End search.

(** The driver protocol of [SizeSearch]: ask, probe, record, until done. *)
Fixpoint search (fuel : nat) (oracle : Z -> SizeVerdict) (s : SizeSearch.t)
    : option (SizeSearch.t * list Z) :=
  match SizeSearch.next_size s with
  | (s, None) => Some (s, [])
  | (s, Some size) =>
    match fuel with
    | O => None
    | S fuel => option_map (fun '(s, tried) => (s, size :: tried))
                  (search fuel oracle (SizeSearch.record s size (oracle size)))
    end
  end.

(** The search ends after at most 21 sizes and finds the exact limit of
    the path: on a path that carries payloads up to [T] it reports the
    largest payload in the probe range that fits, or nothing when even the
    smallest does not. *)
Theorem search_converges (is_ipv6 : bool) (T : Z) (oracle : Z -> SizeVerdict) :
  (forall p, oracle p <> Untested) -> (forall p, oracle p = Pass <-> p <= T) ->
  exists s tried, search 21 oracle (SizeSearch.new is_ipv6) = Some (s, tried) /\
    (length tried <= 21)%nat /\
    SizeSearch.forward_max s
    = if T <? min_probe_payload is_ipv6 then None
      else Some (Z.min T (max_probe_payload is_ipv6)).
Proof.
  intros Hv HT.
  assert (Hm : (measure is_ipv6 (SizeSearch.new is_ipv6) <= 21)%nat) by (apply Nat.leb_le; by destruct is_ipv6).
  revert Hm. generalize (inv_new is_ipv6) (invT_new is_ipv6 T).
  generalize (SizeSearch.new is_ipv6). generalize 21%nat as n.
  induction n as [|n IH]; intros s HI HTs Hm; cbn [search];
    destruct (SizeSearch.next_size s) as [s' [p|]] eqn:Hn;
    try (exists s', []; split_and!; [done|cbn; lia|by eapply invT_done]).
  - pose proof (measure_step _ _ _ _ _ HI Hn (Hv p)). lia.
  - pose proof (measure_step _ _ _ _ _ HI Hn (Hv p)).
    destruct (IH (SizeSearch.record s' p (oracle p))) as (s2 & tried & E & Hlen & Hmax);
      [by eapply inv_step|by eapply invT_step|lia|].
    exists s2, (p :: tried). rewrite E. split_and!; [done|cbn; lia|done].
Qed.

Lemma search_converges_witness :
  exists s tried, search 21 (fun p => if p <=? 1400 then Pass else Fail) (SizeSearch.new false)
    = Some (s, tried) /\ (length tried <= 21)%nat /\ SizeSearch.forward_max s = Some 1400.
Proof.
  apply (search_converges false 1400).
  - intros p. by destruct (_ <=? _).
  - intros p. destruct (Z.leb_spec p 1400); split; (done || lia).
Defined.

(** ** The driver *)
Section driver.
Variable net : network.
Variable b : bool.

(** A reply of [kind] to a probe of size [size] was received in its window:
    the evidence behind a positive verdict. *)
Definition answered (kind size : Z) : Prop :=
  exists seq datagram bytes,
    ProbePacket.decode datagram = Some (ProbePacket.mk PROBE_KIND_PROBE seq size) /\
    len datagram = size /\ send (net seq datagram) = Sent /\
    Datagram bytes ∈ window (net seq datagram) /\
    ProbePacket.decode (take RECV_BUF bytes) = Some (ProbePacket.mk kind seq size) /\
    (kind = PROBE_KIND_ECHO -> len (take RECV_BUF bytes) = size).

Definition reached (size : Z) : Prop :=
  answered PROBE_KIND_ACK size \/ answered PROBE_KIND_ECHO size.

(** A reply of [kind] to probe [seq] among the events of a window. *)
Definition got (evs : list recv_event) (seq size kind : Z) : Prop :=
  exists bytes, Datagram bytes ∈ evs /\
    ProbePacket.decode (take RECV_BUF bytes) = Some (ProbePacket.mk kind seq size) /\
    (kind = PROBE_KIND_ECHO -> len (take RECV_BUF bytes) = size).

Lemma got_cons e evs seq size kind : got evs seq size kind -> got (e :: evs) seq size kind.
Proof. intros (bs & H & ?). exists bs. split; [by right|done]. Qed.

Lemma collect_replies_got evs seq size acked ack echo :
  collect_replies evs seq size acked = (ack, echo) ->
  (ack = true -> acked = true \/ got evs seq size PROBE_KIND_ACK) /\
  (echo = true -> got evs seq size PROBE_KIND_ECHO).
Proof.
  assert (Hlift : forall e l, (ack = true -> acked = true \/ got l seq size PROBE_KIND_ACK) /\
      (echo = true -> got l seq size PROBE_KIND_ECHO) ->
    (ack = true -> acked = true \/ got (e :: l) seq size PROBE_KIND_ACK) /\
    (echo = true -> got (e :: l) seq size PROBE_KIND_ECHO)).
  { intros e l [H1 H2]. split; intros H; [destruct (H1 H); [by left|right]|]; apply got_cons; auto. }
  revert acked Hlift. induction evs as [|[|bytes] evs IH]; intros acked Hlift; cbn [collect_replies].
  { intros [= <- <-]. split; [by left|done]. }
  { intros H. by apply Hlift, IH. }
  destruct (ProbePacket.decode _) as [[k s d]|] eqn:E; [|intros H; by apply Hlift, IH].
  cbn [ProbePacket.seq ProbePacket.declared_size ProbePacket.kind].
  destruct (Z.eqb_spec s seq) as [->|], (Z.eqb_spec d size) as [->|]; cbn [negb orb];
    try (intros H; by apply Hlift, IH).
  destruct (Z.eqb_spec k PROBE_KIND_ACK) as [->|].
  { intros H. apply IH in H as [_ H].
    - split; [intros _; right|intros He; by apply got_cons, H].
      exists bytes. split; [by left|]. split; [done|discriminate].
    - intros e l [_ Hl]. split; [by left|]. intros He. by apply got_cons, Hl. }
  destruct (Z.eqb_spec k PROBE_KIND_ECHO) as [->|]; cbn [andb];
    [|intros H; by apply Hlift, IH].
  destruct (Z.eqb_spec (len (take RECV_BUF bytes)) size); [|intros H; by apply Hlift, IH].
  intros [= <- <-]. split; [by left|]. intros _. exists bytes. by repeat split; [left|..].
Qed.

(** The numbers a tally may hold after [n] attempts. *)
Definition tally_ok (n : Z) (size : Z) (a : tally) : Prop :=
  length (t_buf a) = Z.to_nat MAX_PROBE_PAYLOAD /\ fits 32 (t_seq a) /\
  0 <= t_reverse_ok a <= t_forward_ok a /\ t_forward_ok a <= t_attempts a <= n /\
  (0 < t_forward_ok a -> reached size) /\
  (0 < t_reverse_ok a -> answered PROBE_KIND_ECHO size).

Lemma encode_probe seq size buf :
  fits 32 seq -> 16 <= size <= MAX_PROBE_PAYLOAD -> length buf = Z.to_nat MAX_PROBE_PAYLOAD ->
  let pkt := ProbePacket.mk PROBE_KIND_PROBE seq size in
  ProbePacket.wf pkt /\
  exists out, ProbePacket.encode pkt buf = Some (size, out) /\
    length out = length buf /\ len (take (Z.to_nat size) out) = size /\
    ProbePacket.decode (take (Z.to_nat size) out) = Some pkt.
Proof.
  intros Hs Hr Hl pkt.
  assert (Hwf : ProbePacket.wf pkt).
  { unfold pkt, MAX_PROBE_PAYLOAD in *. repeat split; cbn; try done; try apply Hs; lia. }
  split; [done|].
  assert (He : ProbePacket.encode pkt buf = Some (size, header_bytes pkt ++ drop 16 buf)).
  { rewrite encode_bytes; [done|]. change (ProbePacket.wire_len pkt) with size.
    unfold PROBE_HEADER_SIZE, len. lia. }
  destruct (encode_decode _ _ _ _ Hwf He) as (_ & Hlen & Htake & Hdec).
  eexists. split; [exact He|]. split; [done|]. split; [unfold len; rewrite Htake; lia|done].
Qed.

(** The attempts at one size never panic, and whatever they count they have
    seen. *)
Lemma try_size_ok n size a m :
  16 <= size <= MAX_PROBE_PAYLOAD -> tally_ok m size a -> 0 <= m -> m + Z.of_nat n < 256 ->
  exists a', try_size n net size a = Some a' /\ tally_ok (m + Z.of_nat n) size a'.
Proof.
  intros Hr. revert a m. induction n as [|n IH]; intros a m Ha Hm Hb.
  { exists a. rewrite Z.add_0_r. done. }
  destruct Ha as (Hbuf & Hseq & Hrev & Hfwd & Ef & Er). cbn [try_size].
  assert (Hs : fits 32 (wrapping_add 32 (t_seq a) 1)) by (apply wrap_fits; lia).
  rewrite (wrap_small 16 size) by (unfold fits, MAX_PROBE_PAYLOAD in *; lia).
  destruct (encode_probe _ size (t_buf a) Hs Hr Hbuf) as (_ & buf & -> & Hbl & Hlen & Hdec).
  cbv zeta. set (dg := take _ buf) in *. set (sq := wrapping_add 32 _ 1) in *.
  assert (Hinc : forall x, 0 <= x <= m -> wrapping_add 8 x 1 = x + 1)
    by (intros x Hx; unfold wrapping_add; apply wrap_small; unfold fits; lia).
  rewrite (Hinc (t_attempts a)) by lia.
  replace (m + Z.of_nat (S n)) with ((m + 1) + Z.of_nat n) in * by lia.
  destruct (send (net sq dg)) eqn:Hsend.
  - destruct (collect_replies _ sq size false) as [ack echo] eqn:Ec.
    apply collect_replies_got in Ec as [Hack Hecho].
    assert (Hans : forall k, got (window (net sq dg)) sq size k -> answered k size)
      by (intros k (bs & ? & ? & ?); exists sq, dg, bs; by split_and!).
    rewrite (Hinc (t_forward_ok a)), (Hinc (t_reverse_ok a)) by lia.
    set (a1 := mkTally sq buf _ _ _ _).
    assert (Ha1 : tally_ok (m + 1) size a1).
    { unfold a1, tally_ok; cbn. rewrite Hbl.
      split_and!; try done; try (destruct ack, echo; cbn; lia).
      - destruct ack; cbn; [intros _; left; apply Hans; by destruct Hack|].
        destruct echo; [intros _; right; apply Hans; by apply Hecho|done].
      - destruct echo; [intros _; apply Hans; by apply Hecho|done]. }
    destruct echo; [|apply IH; (done || lia)].
    exists a1. split; [done|]. unfold tally_ok in *. intuition lia.
  - eexists. split; [done|]. unfold tally_ok; cbn. rewrite Hbl. intuition lia.
  - apply IH; [|lia|lia]. unfold tally_ok; cbn. rewrite Hbl. intuition lia.
Qed.

(** One row of the report, given the two maxima known after it. *)
Definition row_ok (low rmax : option Z) (r : SizeResult) : Prop :=
  min_probe_payload b <= payload r <= max_probe_payload b /\ 0 <= attempts r <= 3 /\
  0 <= reverse_ok r <= forward_ok r /\ forward_ok r <= attempts r /\
  (forward r = Pass -> reached (payload r) /\ exists l, low = Some l /\ payload r <= l) /\
  (reverse r = Pass -> answered PROBE_KIND_ECHO (payload r) /\
     exists m, rmax = Some m /\ payload r <= m).

Definition maxima_ok (low rmax : option Z) (sizes : list SizeResult) : Prop :=
  (forall l, low = Some l -> reached l) /\
  (forall m, rmax = Some m -> answered PROBE_KIND_ECHO m) /\
  Forall (row_ok low rmax) sizes.

Lemma row_ok_mono low low' rmax rmax' r :
  (forall l, low = Some l -> exists l', low' = Some l' /\ l <= l') ->
  (forall m, rmax = Some m -> exists m', rmax' = Some m' /\ m <= m') ->
  row_ok low rmax r -> row_ok low' rmax' r.
Proof.
  intros Hlow Hmax (Hp & Ha & Hro & Hfo & Hf & Hr). do 4 (split; [done|]). split.
  - intros H. destruct (Hf H) as [Hreach (l & El & Hle)]. split; [done|].
    destruct (Hlow l El) as (l' & -> & ?). exists l'. split; [done|lia].
  - intros H. destruct (Hr H) as [Hans (m & Em & Hle)]. split; [done|].
    destruct (Hmax m Em) as (m' & -> & ?). exists m'. split; [done|lia].
Qed.

Lemma next_reverse_max_spec rmax r :
  (forall m, rmax = Some m -> exists m', next_reverse_max rmax r = Some m' /\ m <= m') /\
  (reverse r = Pass -> exists m', next_reverse_max rmax r = Some m' /\ payload r <= m') /\
  (forall m', next_reverse_max rmax r = Some m' ->
     rmax = Some m' \/ (reverse r = Pass /\ m' = payload r)).
Proof.
  unfold next_reverse_max. case_bool_decide as E; cbn [andb].
  - destruct rmax as [m|]; [destruct (Z.ltb_spec m (payload r))|];
      split_and!; intros; simplify_eq; eauto with lia.
  - split_and!; [eauto with lia|done|eauto].
Qed.

Lemma size_result_row size a low :
  min_probe_payload b <= size <= max_probe_payload b -> tally_ok 3 size a ->
  let r := size_result size a in
  (forward r = Pass -> low = Some size) -> (forward r <> Untested) /\
  (forward r = Pass -> reached size) /\ (reverse r = Pass -> answered PROBE_KIND_ECHO size) /\
  (forall rmax, (reverse r = Pass -> exists m, rmax = Some m /\ size <= m) -> row_ok low rmax r).
Proof.
  intros Hr (_ & _ & Hrev & Hfwd & Ef & Er) r Hlow.
  assert (Hf : forward r = Pass -> reached size).
  { unfold r, size_result; cbn. destruct (t_local a); [done|].
    destruct (Z.ltb_spec 0 (t_forward_ok a)); [intros _; by apply Ef|done]. }
  assert (Hv : reverse r = Pass -> answered PROBE_KIND_ECHO size).
  { unfold r, size_result; cbn [reverse].
    destruct (Z.ltb_spec 0 (t_reverse_ok a)); [intros _; by apply Er|]. by case_bool_decide. }
  split_and!; [|done|done|].
  - unfold r, size_result; cbn. by repeat case_match.
  - intros rmax Hm. unfold row_ok. split_and!; try (done || (cbn; lia)).
    + intros H. split; [by apply Hf|]. exists size. split; [by apply Hlow|]. cbn. lia.
    + intros H. split; [by apply Hv|by apply Hm].
Qed.

Lemma probe_sizes_ok fuel s seq buf rmax rows :
  Inv b s -> (measure b s <= fuel)%nat -> fits 32 seq ->
  length buf = Z.to_nat MAX_PROBE_PAYLOAD -> maxima_ok (SizeSearch.low s) rmax rows ->
  exists s' rmax' rows', probe_sizes fuel net s seq buf rmax rows = Some (s', rmax', rows ++ rows') /\
    (length rows' <= fuel)%nat /\ maxima_ok (SizeSearch.low s') rmax' (rows ++ rows').
Proof.
  revert s seq buf rmax rows. induction fuel as [|fuel IH]; intros s seq buf rmax rows HI Hm Hs Hb Hok;
    cbn [probe_sizes]; destruct (SizeSearch.next_size s) as [s' [p|]] eqn:Hn;
    try (exists s', rmax, []; rewrite app_nil_r; split_and!; [done|cbn; lia|];
         destruct (next_size_spec _ _ _ _ HI Hn) as (_ & -> & _); done).
  { pose proof (measure_step _ _ _ _ Pass HI Hn ltac:(done)). lia. }
  destruct (next_between _ _ _ _ HI Hn) as (Hl & Hh & Hr). destruct (payload_bounds b).
  destruct (try_size_ok PROBES_PER_SIZE p (mkTally seq buf 0 0 0 false) 0) as (a & -> & Ha);
    [lia|repeat split; cbn; (done || lia || (destruct Hs; lia))|lia|done|].
  destruct (next_size_spec _ _ _ _ HI Hn) as (_ & El & Eh & _).
  rewrite <- El in Hl. set (r := size_result p a).
  assert (Hlow : SizeSearch.low (SizeSearch.record s' p (forward r))
                 = if bool_decide (forward r = Pass) then Some p else SizeSearch.low s)
    by (rewrite record_low by done; by rewrite El).
  destruct (size_result_row p a (SizeSearch.low (SizeSearch.record s' p (forward r))) Hr Ha)
    as (Hunt & Hf & Hrv & Hrow); [fold r; intros E; rewrite Hlow; by rewrite bool_decide_eq_true_2|].
  fold r in Hunt, Hf, Hrv, Hrow.
  destruct (next_reverse_max_spec rmax r) as (Hmono & Hnew & Hinv).
  destruct Hok as (Ok1 & Ok2 & Ok3).
  destruct (IH (SizeSearch.record s' p (forward r)) (t_seq a) (t_buf a) (next_reverse_max rmax r)
              (rows ++ [r])) as (s2 & rmax2 & rows2 & E & Hlen & Hfin).
  - by eapply inv_step.
  - pose proof (measure_step _ _ _ _ (forward r) HI Hn Hunt). lia.
  - apply Ha.
  - apply Ha.
  - split_and!.
    + rewrite Hlow. case_bool_decide as E; [intros l [= <-]; by apply Hf|done].
    + intros m E. destruct (Hinv m E) as [E2|[E2 ->]]; [by apply Ok2|by apply Hrv].
    + apply Forall_app. split.
      * eapply Forall_impl; [exact Ok3|]. intros x Hx. eapply row_ok_mono; [|exact Hmono|exact Hx].
        intros l E. rewrite Hlow. case_bool_decide; [|eauto with lia].
        exists p. split; [done|]. rewrite El in Hl. specialize (Hl _ E). lia.
      * apply Forall_singleton, Hrow, Hnew.
  - exists s2, rmax2, (r :: rows2). rewrite E, <- app_assoc. split_and!; [done|cbn; lia|].
    by rewrite <- app_assoc in Hfin.
Qed.
End driver.

(** Whatever the network does -- loss, reordering, stale or forged
    datagrams, refused sends -- a probe run ends after at most 21 sizes with a
    report, and the report is sound: each maximum it gives was really
    answered by the peer at that size, is at least every size that passed,
    and the path MTU is that payload plus the IP and UDP headers. *)
Theorem run_probe_sound (net : network) (is_ipv6 : bool) :
  exists report, run_probe 21 net is_ipv6 = Some report /\
    (length (sizes report) <= 21)%nat /\
    maxima_ok net is_ipv6 (forward_max_payload report) (reverse_max_payload report)
      (sizes report) /\
    forward_path_mtu report
      = option_map (fun p => p + ip_overhead is_ipv6) (forward_max_payload report) /\
    reverse_path_mtu report
      = option_map (fun p => p + ip_overhead is_ipv6) (reverse_max_payload report).
Proof.
  unfold run_probe.
  destruct (probe_sizes_ok net is_ipv6 21 (SizeSearch.new is_ipv6) 0
    (repeat 0 (Z.to_nat MAX_PROBE_PAYLOAD)) None []) as (s & rmax & rows & -> & Hlen & Hok).
  - apply inv_new.
  - apply Nat.leb_le. by destruct is_ipv6.
  - unfold fits. lia.
  - apply repeat_length.
  - by repeat split.
  - eexists. by split.
Qed.

(** ** Client, path and server together

    A path refuses datagrams above [local] at the sender's own interface,
    carries up to [fwd] bytes to the server and up to [rev] bytes back; the
    server is [respond_mtu_probe] with whatever its send buffer held. *)
Record path := mkPath { local : Z; fwd : Z; rev : Z }.

Definition path_network (p : path) (ack : option (list Z)) (server_buf : Z -> list Z) : network :=
  fun seq datagram =>
    if local p <? len datagram then mkAttempt Emsgsize []
    else if fwd p <? len datagram then mkAttempt Sent []
    else mkAttempt Sent
           (map Datagram (filter (fun d => len d <= rev p)
              (respond_mtu_probe ack (server_buf seq) datagram).1)).

Lemma respond_probe ack sb datagram seq size :
  fits 32 seq -> 16 <= size <= MAX_PROBE_PAYLOAD -> len datagram = size ->
  length sb = Z.to_nat MAX_PROBE_PAYLOAD ->
  take 1 datagram = [88] ->
  ProbePacket.decode datagram = Some (ProbePacket.mk PROBE_KIND_PROBE seq size) ->
  exists a e, (respond_mtu_probe ack sb datagram).1 = [a; e] /\ len a = 16 /\ len e = size /\
    ProbePacket.decode a = Some (ProbePacket.mk PROBE_KIND_ACK seq size) /\
    ProbePacket.decode e = Some (ProbePacket.mk PROBE_KIND_ECHO seq size).
Proof.
  intros Hs Hr Hl Hsb H88 Hd. unfold respond_mtu_probe, MAX_PROBE_PAYLOAD in *.
  rewrite take_ge by (unfold len, RECV_BUF, MAX_PROBE_PAYLOAD in *; lia).
  assert (UdpHelloPacket.decode datagram = None) as ->.
  { unfold UdpHelloPacket.decode. destruct (negb _); [done|]. destruct datagram as [|x d]; [done|].
    injection H88 as ->. rewrite bool_decide_eq_false_2; [done|]. discriminate. }
  rewrite Hd. cbn [ProbePacket.kind ProbePacket.seq ProbePacket.declared_size].
  set (ra := ProbePacket.mk PROBE_KIND_ACK seq size).
  set (re := ProbePacket.mk PROBE_KIND_ECHO seq size).
  assert (Hwa : ProbePacket.wf ra) by (unfold fits in *; repeat split; cbn; (done || lia)).
  assert (Hwe : ProbePacket.wf re) by (unfold fits in *; repeat split; cbn; (done || lia)).
  assert (Ea : ProbePacket.encode ra sb = Some (16, header_bytes ra ++ drop 16 sb)).
  { rewrite encode_bytes; [done|]. change (ProbePacket.wire_len ra) with 16.
    unfold PROBE_HEADER_SIZE, len. lia. }
  destruct (encode_decode _ _ _ _ Hwa Ea) as (_ & La & Ta & Da).
  set (sb2 := header_bytes ra ++ drop 16 sb) in *.
  assert (Ee : ProbePacket.encode re sb2 = Some (size, header_bytes re ++ drop 16 sb2)).
  { rewrite encode_bytes; [done|]. change (ProbePacket.wire_len re) with size.
    unfold PROBE_HEADER_SIZE, len. rewrite La. lia. }
  destruct (encode_decode _ _ _ _ Hwe Ee) as (_ & Le & Te & De).
  exists (take (Z.to_nat 16) sb2), (take (Z.to_nat size) (header_bytes re ++ drop 16 sb2)).
  split; [|split_and!; [unfold len; rewrite Ta; lia|unfold len; rewrite Te; lia|done|done]].
  destruct ack; cbn [negb Z.eqb]; rewrite Ea, Ee; reflexivity.
Qed.

Lemma decode_first d q : ProbePacket.decode d = Some q -> take 1 d = [88].
Proof.
  unfold ProbePacket.decode. destruct (_ || _) eqn:E; [done|]. intros _. zbool.
  apply bool_decide_eq_true in H0. destruct d as [|x d]; [done|].
  unfold slice in H0. cbn in H0. by injection H0 as ->.
Qed.

Section path.
Variables (p : path) (ack : option (list Z)) (server_buf : Z -> list Z).
Hypothesis Hsb : forall seq, length (server_buf seq) = Z.to_nat MAX_PROBE_PAYLOAD.
Hypothesis Hrev : 16 <= rev p.

(** What one attempt over the path brings. *)
Lemma path_attempt seq size d :
  fits 32 seq -> 16 <= size <= MAX_PROBE_PAYLOAD -> len d = size ->
  ProbePacket.decode d = Some (ProbePacket.mk PROBE_KIND_PROBE seq size) ->
  let r := path_network p ack server_buf seq d in
  (local p < size -> send r = Emsgsize) /\
  (size <= local p -> send r = Sent /\
     collect_replies (window r) seq size false
     = (bool_decide (size <= fwd p), bool_decide (size <= fwd p /\ size <= rev p))).
Proof.
  intros Hs Hr Hl Hd r. unfold r, path_network. rewrite Hl.
  destruct (respond_probe ack (server_buf seq) d seq size) as (a & e & -> & La & Le & Da & De);
    [done..|by eapply decode_first|done|].
  destruct (Z.ltb_spec (local p) size); [by split; [|lia]|]. split; [lia|]. intros _.
  destruct (Z.ltb_spec (fwd p) size); cbn [send window].
  { rewrite !bool_decide_eq_false_2 by lia. done. }
  split; [done|]. rewrite (bool_decide_eq_true_2 (size <= fwd p)) by lia.
  rewrite filter_cons_True by lia.
  assert (Hta : take RECV_BUF a = a) by (apply take_ge; unfold len, RECV_BUF in *; lia).
  assert (Hte : take RECV_BUF e = e)
    by (apply take_ge; unfold len, RECV_BUF, MAX_PROBE_PAYLOAD in *; lia).
  destruct (decide (len e <= rev p)).
  - rewrite filter_cons_True by done. change (filter _ []) with (@nil (list Z)).
    cbn [map collect_replies]. rewrite Hta, Hte, Da, De. cbn.
    rewrite !Z.eqb_refl, Le, Z.eqb_refl. cbn. by rewrite bool_decide_eq_true_2 by lia.
  - rewrite filter_cons_False by done. change (filter _ []) with (@nil (list Z)).
    cbn [map collect_replies]. rewrite Hta, Da. cbn. rewrite !Z.eqb_refl. cbn.
    by rewrite bool_decide_eq_false_2 by lia.
Qed.

(** The largest payload the client can get through. *)
Definition limit : Z := Z.min (local p) (fwd p).
Notation net := (path_network p ack server_buf).

Definition tally_at (m size : Z) (a : tally) : Prop :=
  length (t_buf a) = Z.to_nat MAX_PROBE_PAYLOAD /\ 0 <= t_forward_ok a <= m /\
  t_reverse_ok a = 0 /\ t_local a = false /\ (0 < t_forward_ok a -> size <= limit).

(** Without an attempt left, the outcome must already be known. *)
Definition settled (size : Z) (a : tally) : Prop :=
  size <= local p /\ (size <= fwd p -> 0 < t_forward_ok a) /\ ~ (size <= limit /\ size <= rev p).

Lemma path_try n size a m :
  16 <= size <= MAX_PROBE_PAYLOAD -> tally_at m size a -> m + Z.of_nat n < 256 ->
  (n = 0%nat -> settled size a) ->
  exists a', try_size n net size a = Some a' /\
    t_local a' = bool_decide (local p < size) /\
    (size <= local p -> 0 < t_forward_ok a' <-> size <= fwd p) /\
    (0 < t_reverse_ok a' <-> size <= limit /\ size <= rev p).
Proof.
  intros Hr. revert a m. induction n as [|n IH]; intros a m (Hbuf & Hf & H0 & Hloc & Hlim) Hb Hset.
  { destruct (Hset eq_refl) as (Hl & Hff & Hn). exists a. unfold limit in *.
    rewrite bool_decide_eq_false_2 by lia. split_and!; [done|done|split; lia|split; lia]. }
  cbn [try_size]. assert (Hs : fits 32 (wrapping_add 32 (t_seq a) 1)) by (apply wrap_fits; lia).
  rewrite (wrap_small 16 size) by (unfold fits, MAX_PROBE_PAYLOAD in *; lia).
  destruct (encode_probe _ size (t_buf a) Hs Hr Hbuf) as (_ & buf & -> & Hbl & Hlen & Hdec).
  cbv zeta. destruct (path_attempt _ size _ Hs Hr Hlen Hdec) as [Hbig Hok].
  assert (Hinc : wrapping_add 8 (t_forward_ok a) 1 = t_forward_ok a + 1)
    by (unfold wrapping_add; apply wrap_small; unfold fits; lia).
  rewrite Hinc, H0. destruct (Z.lt_ge_cases (local p) size) as [Hlt|Hle].
  { rewrite (Hbig Hlt). eexists. split; [done|]. cbn [t_local t_forward_ok t_reverse_ok].
    rewrite bool_decide_eq_true_2 by done. unfold limit. split_and!; [done|lia|lia]. }
  destruct (Hok Hle) as [-> ->].
  destruct (decide (size <= fwd p /\ size <= rev p)) as [Hin|Hout].
  { rewrite !bool_decide_eq_true_2 by tauto. cbn [orb]. eexists. split; [done|].
    cbn [t_local t_forward_ok t_reverse_ok]. rewrite bool_decide_eq_false_2 by lia.
    unfold limit. change (wrapping_add 8 0 1) with 1. split_and!; [done|lia|lia]. }
  rewrite (bool_decide_eq_false_2 (_ /\ _)) by done. rewrite orb_false_r.
  apply IH with (m := m + 1); [|lia|].
  - unfold tally_at, limit in *; cbn. rewrite Hbl.
    case_bool_decide; split_and!; try done; lia.
  - intros _. unfold settled, limit; cbn. case_bool_decide; split_and!; lia.
Qed.

Definition path_maxima (low rmax : option Z) : Prop :=
  (forall m, rmax = Some m -> m <= limit /\ m <= rev p) /\ (limit <= rev p -> rmax = low).

Lemma path_verdicts size a :
  16 <= size <= MAX_PROBE_PAYLOAD ->
  t_local a = bool_decide (local p < size) ->
  (size <= local p -> 0 < t_forward_ok a <-> size <= fwd p) ->
  (0 < t_reverse_ok a <-> size <= limit /\ size <= rev p) ->
  let r := size_result size a in
  forward r <> Untested /\ (forward r = Pass <-> size <= limit) /\
  (reverse r = Pass <-> size <= limit /\ size <= rev p).
Proof.
  intros Hr Hl Hf Hrv. unfold size_result, limit in *; cbn [forward reverse]. rewrite Hl.
  split_and!.
  - by repeat case_match.
  - case_bool_decide; [split; [done|lia]|].
    destruct (Z.ltb_spec 0 (t_forward_ok a)); split; (done || lia).
  - destruct (Z.ltb_spec 0 (t_reverse_ok a)); [split; [lia|done]|].
    split; [|lia]. by repeat case_match.
Qed.

Lemma path_probe b fuel s seq buf rmax rows :
  Inv b s -> InvT b limit s -> (measure b s <= fuel)%nat ->
  length buf = Z.to_nat MAX_PROBE_PAYLOAD -> fits 32 seq ->
  path_maxima (SizeSearch.low s) rmax ->
  exists s' rmax' rows', probe_sizes fuel net s seq buf rmax rows = Some (s', rmax', rows') /\
    SizeSearch.forward_max s' = (if limit <? min_probe_payload b then None
                                 else Some (Z.min limit (max_probe_payload b))) /\
    path_maxima (SizeSearch.low s') rmax'.
Proof.
  revert s seq buf rmax rows. induction fuel as [|fuel IH]; intros s seq buf rmax rows HI HT Hm Hb Hs Hok;
    cbn [probe_sizes]; destruct (SizeSearch.next_size s) as [s' [q|]] eqn:Hn;
    try (exists s', rmax, rows; split_and!; [done|by eapply invT_done|];
         destruct (next_size_spec _ _ _ _ HI Hn) as (_ & -> & _); done).
  { pose proof (measure_step _ _ _ _ Pass HI Hn ltac:(done)). lia. }
  destruct (next_between _ _ _ _ HI Hn) as (Hl & Hh & Hr). destruct (payload_bounds b).
  assert (Hq : 16 <= q <= MAX_PROBE_PAYLOAD) by lia.
  destruct (path_try PROBES_PER_SIZE q (mkTally seq buf 0 0 0 false) 0 Hq)
    as (a & Ea & Hloc & Hf & Hrv); [repeat split; cbn; (done || lia)|done|done|].
  destruct (try_size_ok net PROBES_PER_SIZE q (mkTally seq buf 0 0 0 false) 0 Hq)
    as (a' & Ea' & Ha); [repeat split; cbn; (done || lia || (destruct Hs; lia))|lia|done|].
  rewrite Ea in Ea' |- *. injection Ea' as <-.
  destruct (path_verdicts q a Hq Hloc Hf Hrv) as (Hunt & Hfwd & Hrevv).
  destruct (next_size_spec _ _ _ _ HI Hn) as (_ & El & _ & _). rewrite <- El in Hl.
  set (r := size_result q a) in *. destruct Hok as [Ok1 Ok2]. apply IH.
  - by eapply inv_step.
  - by eapply invT_step.
  - pose proof (measure_step _ _ _ _ (forward r) HI Hn Hunt). lia.
  - apply Ha.
  - apply Ha.
  - clear Hloc Hf Hrv. rewrite record_low, El by done. unfold next_reverse_max. change (payload r) with q.
    split.
    + intros m. case_bool_decide as E; cbn [andb]; [|apply Ok1].
      destruct (match rmax with Some m => m <? q | None => true end); [|apply Ok1].
      intros [= <-]. by apply Hrevv.
    + intros Hle. specialize (Ok2 Hle). subst rmax.
      rewrite (bool_decide_ext (reverse r = Pass) (forward r = Pass)) by (rewrite Hrevv, Hfwd; lia).
      case_bool_decide; [|done]. cbn [andb]. rewrite <- El.
      destruct (SizeSearch.low s'); [|done]. by rewrite (proj2 (Z.ltb_lt _ _) (Hl _ eq_refl)).
Qed.
End path.

(** C11. Run against the real responder over a path with limits, the probe
    reports the exact forward limit, never a reverse size the way back cannot
    carry, and the exact same size in reverse when the way back is at least as
    wide; a refused send brackets like a lost one. *)
Theorem run_probe_exact (p : path) (ack : option (list Z)) (server_buf : Z -> list Z)
    (is_ipv6 : bool) :
  (forall seq, length (server_buf seq) = Z.to_nat MAX_PROBE_PAYLOAD) -> 16 <= rev p ->
  exists report, run_probe 21 (path_network p ack server_buf) is_ipv6 = Some report /\
    forward_max_payload report
      = (if limit p <? min_probe_payload is_ipv6 then None
         else Some (Z.min (limit p) (max_probe_payload is_ipv6))) /\
    (forall m, reverse_max_payload report = Some m -> m <= limit p /\ m <= rev p) /\
    (limit p <= rev p -> reverse_max_payload report = forward_max_payload report).
Proof.
  intros Hsb Hrev. unfold run_probe.
  destruct (path_probe p ack server_buf Hsb Hrev is_ipv6 21 (SizeSearch.new is_ipv6) 0
    (repeat 0 (Z.to_nat MAX_PROBE_PAYLOAD)) None []) as (s & rmax & rows & -> & Hmax & Hok1 & Hok2).
  - apply inv_new.
  - apply invT_new.
  - apply Nat.leb_le. by destruct is_ipv6.
  - apply repeat_length.
  - unfold fits. lia.
  - by repeat split.
  - eexists. by split.
Qed.

Lemma run_probe_exact_witness :
  exists report, run_probe 21 (path_network (mkPath 9000 1472 1400) None
      (fun _ => repeat 0 (Z.to_nat MAX_PROBE_PAYLOAD))) false = Some report /\
    forward_max_payload report = Some 1472 /\
    (forall m, reverse_max_payload report = Some m -> m <= 1472 /\ m <= 1400) /\
    (1472 <= 1400 -> reverse_max_payload report = forward_max_payload report).
Proof.
  apply (run_probe_exact (mkPath 9000 1472 1400) None
    (fun _ => repeat 0 (Z.to_nat MAX_PROBE_PAYLOAD)) false).
  - intros _. apply repeat_length.
  - cbn. lia.
Defined.
