(* ===== verification/Protocol.v ===== *)
(** * The control protocol (src/src/protocol.rs)

    Versions, capabilities, the messages of the control channel with the
    records they carry, and the operations on them.  Strings are lists of
    characters; the JSON encoding is the serialisation library's and is a
    parameter of [deserialize]. *)
From S2P Require Import Prelude Bytes Text Float Probe.

Definition str : Type := list Z.

Definition PROTOCOL_VERSION : str := txt "1.1".
Definition DEFAULT_PORT : Z := 5201.

(** ** Versions *)
(** The loop over the parts after the first. *)
Fixpoint check_parts (parts : list str) : option unit :=
  match parts with
  | [] => Some tt
  | part :: parts =>
    match part with
    | [] => None
    | _ => match parse_uint u32_max part with
           | Some _ => check_parts parts
           | None => None
           end
    end
  end.

Definition parse_protocol_major (version : str) : option Z :=
  match split_on 46 version with
  | [] => None
  | first :: parts =>
    match first with
    | [] => None
    | _ =>
      match parse_uint u32_max first with
      | None => None
      | Some major => match check_parts parts with Some _ => Some major | None => None end
      end
    end
  end.

Definition versions_compatible (version_a version_b : str) : bool :=
  match parse_protocol_major version_a, parse_protocol_major version_b with
  | Some major_a, Some major_b => major_a =? major_b
  | _, _ => false
  end.

(** ** Records *)
Record AuthChallenge := mkAuthChallenge { method : str; challenge_nonce : str }.

Inductive Protocol := Tcp | Udp | Quic.
#[export] Instance Protocol_eq_dec : EqDecision Protocol.
Proof. solve_decision. Defined.
Inductive Direction := Upload | Download | Bidir.
#[export] Instance Direction_eq_dec : EqDecision Direction.
Proof. solve_decision. Defined.

Definition protocol_name (p : Protocol) : str :=
  match p with Tcp => txt "TCP" | Udp => txt "UDP" | Quic => txt "QUIC" end.
Definition direction_name (d : Direction) : str :=
  match d with Upload => txt "Upload" | Download => txt "Download" | Bidir => txt "Bidirectional" end.

Module UdpIntervalProgress.
Record t := mk { packets_received : Z; packets_lost : Z }.
Definition default : t := mk 0 0.
Definition wf (p : t) : Prop := fits 64 (packets_received p) /\ fits 64 (packets_lost p).

Definition is_at_least_as_fresh_as (self previous : t) : bool :=
  (packets_received previous <=? packets_received self)
  && (saturating_add 64 (packets_received previous) (packets_lost previous)
      <=? saturating_add 64 (packets_received self) (packets_lost self)).

Definition lost_percent (self : t) : option f64 :=
  let denom := saturating_add 64 (packets_received self) (packets_lost self) in
  if denom =? 0 then None
  else Some (fmul (fdiv (of_int (packets_lost self)) (of_int denom)) (of_int 100)).
End UdpIntervalProgress.

Record UdpDirectionProgress := mkUdpDirectionProgress {
  udp_dir_progress : UdpIntervalProgress.t; udp_dir_jitter_ms : option f64
}.

Record StreamInterval := mkStreamInterval {
  si_id : Z; si_bytes : Z; si_retransmits : option Z; si_jitter_ms : option f64;
  si_lost : option Z; si_error : option str; si_rtt_us : option Z; si_cwnd : option Z;
  si_bytes_sent : option Z; si_bytes_received : option Z;
  si_throughput_send_mbps : option f64; si_throughput_recv_mbps : option f64
}.

Record AggregateInterval := mkAggregateInterval {
  ai_bytes : Z; ai_throughput_mbps : f64; ai_retransmits : option Z;
  ai_jitter_ms : option f64; ai_lost : option Z;
  ai_udp_progress : option UdpIntervalProgress.t; ai_rtt_us : option Z; ai_cwnd : option Z;
  ai_bytes_sent : option Z; ai_bytes_received : option Z;
  ai_throughput_send_mbps : option f64; ai_throughput_recv_mbps : option f64
}.

Record UdpSendErrors := mkUdpSendErrors { count : Z; last_error : str }.

Record StreamResult := mkStreamResult {
  sr_id : Z; sr_bytes : Z; sr_throughput_mbps : f64; sr_retransmits : option Z;
  sr_jitter_ms : option f64; sr_lost : option Z;
  sr_bytes_sent : option Z; sr_bytes_received : option Z;
  sr_throughput_send_mbps : option f64; sr_throughput_recv_mbps : option f64
}.

Record TcpInfoSnapshot := mkTcpInfoSnapshot {
  tcp_retransmits : Z; tcp_rtt_us : Z; tcp_rtt_var_us : Z; tcp_cwnd : Z;
  tcp_bytes_acked : option Z
}.

Record UdpStats := mkUdpStats {
  us_packets_sent : Z; us_packets_received : Z; us_lost : Z; us_lost_percent : f64;
  us_jitter_ms : f64; us_out_of_order : Z; us_jitter_max_ms : option f64;
  us_packet_size : option Z
}.

Record TestResult := mkTestResult {
  tr_id : str; tr_bytes_total : Z; tr_duration_ms : Z; tr_throughput_mbps : f64;
  tr_streams : list StreamResult; tr_tcp_info : option TcpInfoSnapshot;
  tr_udp_stats : option UdpStats; tr_udp_stats_send : option UdpStats;
  tr_udp_stats_recv : option UdpStats;
  tr_bytes_sent : option Z; tr_bytes_received : option Z;
  tr_throughput_send_mbps : option f64; tr_throughput_recv_mbps : option f64;
  tr_mtu_probe : option MtuProbeReport;
  tr_server_udp_send_errors : option UdpSendErrors;
  tr_client_udp_send_errors : option UdpSendErrors;
  tr_zero_byte_streams : option Z
}.

Definition is_zero_byte (s : StreamResult) : bool :=
  (sr_bytes s =? 0) || bool_decide (sr_bytes_sent s = Some 0)
  || bool_decide (sr_bytes_received s = Some 0).

(** [u8::try_from(n).unwrap_or(u8::MAX)]. *)
Definition count_zero_byte_streams (r : TestResult) : Z :=
  let n := Z.of_nat (length (filter (fun s => is_zero_byte s = true) (tr_streams r))) in
  if n <=? u8_max then n else u8_max.

Definition MAX_ERROR_LEN : nat := 128.
Definition sanitize_message (raw : str) : str :=
  take MAX_ERROR_LEN (filter (fun c => is_control c = false) raw).

(** ** Messages *)
Record TestStart := mkTestStart {
  ts_id : str; ts_protocol : Protocol; ts_streams : Z; ts_duration_secs : Z;
  ts_direction : Direction; ts_bitrate : option Z; ts_congestion : option str;
  ts_mptcp : bool; ts_dscp : option Z; ts_window_size : option Z; ts_zerocopy : bool;
  ts_mtu_probe : bool; ts_tcp_nodelay : bool; ts_byte_budget : option Z;
  ts_udp_payload_size : option Z
}.

Inductive ControlMessage :=
  | Hello (version : str) (client server : option str) (capabilities : option (list str))
      (auth : option AuthChallenge) (client_nonce : option str)
  | AuthResponse (response : str)
  | AuthSuccess (server_proof : option str)
  | TestStartMsg (start : TestStart)
  | TestAck (id : str) (data_ports : list Z) (udp_token : option str)
  | Interval (id : str) (elapsed_ms : Z) (streams : list StreamInterval)
      (aggregate : AggregateInterval)
  | ResultMsg (result : TestResult)
  | Cancel (id reason : str)
  | Cancelled (id : str)
  | Finish (id : str)
  | Pause (id : str)
  | Resume (id : str)
  | ErrorMsg (message : str)
  | DataHello (test_id : str) (stream_index : Z).

(** ** Capabilities *)
Definition SINGLE_PORT_UDP_CAPABILITY : str := txt "single_port_udp_v1".
Definition QUIC_CHANNEL_BINDING_CAPABILITY : str := txt "quic_channel_binding_v1".
Definition BYTE_BUDGET_CAPABILITY : str := txt "byte_budget_v1".
Definition UDP_PAYLOAD_SIZE_CAPABILITY : str := txt "udp_payload_size_v1".

Definition SUPPORTED_CAPABILITIES : list str :=
  [txt "tcp"; txt "udp"; txt "quic"; txt "multistream"; txt "single_port_tcp";
   txt "pause_resume"; txt "udp_feedback_v1"; txt "zerocopy_v1"; txt "mtu_probe_v1";
   SINGLE_PORT_UDP_CAPABILITY; txt "protected_control_v1"; QUIC_CHANNEL_BINDING_CAPABILITY;
   BYTE_BUDGET_CAPABILITY; UDP_PAYLOAD_SIZE_CAPABILITY].

Definition supported_capabilities : list str := SUPPORTED_CAPABILITIES.
Definition supported_capabilities_without (excluded : str) : list str :=
  filter (fun c => c <> excluded) SUPPORTED_CAPABILITIES.
Definition capability_advertised (capabilities : option (list str)) (name : str) : bool :=
  match capabilities with Some caps => existsb (str_eqb name) caps | None => false end.

(** ** Constructors *)
Section hello.
(** [format!("xfr/{}", env!("CARGO_PKG_VERSION"))], fixed at build time. *)
Variable program : str.

Definition client_hello : ControlMessage :=
  Hello PROTOCOL_VERSION (Some program) None (Some supported_capabilities) None None.
Definition client_hello_with_nonce (client_nonce : str) : ControlMessage :=
  Hello PROTOCOL_VERSION (Some program) None (Some supported_capabilities) None (Some client_nonce).
Definition server_hello_with_capabilities (capabilities : list str) : ControlMessage :=
  Hello PROTOCOL_VERSION None (Some program) (Some capabilities) None None.
Definition server_hello : ControlMessage := server_hello_with_capabilities supported_capabilities.
Definition server_hello_with_auth_and_capabilities (nonce : str) (capabilities : list str)
    : ControlMessage :=
  Hello PROTOCOL_VERSION None (Some program) (Some capabilities)
    (Some (mkAuthChallenge (txt "psk") nonce)) None.
Definition server_hello_with_auth (nonce : str) : ControlMessage :=
  server_hello_with_auth_and_capabilities nonce supported_capabilities.
End hello.

Definition auth_success : ControlMessage := AuthSuccess None.
Definition auth_success_with_proof (server_proof : str) : ControlMessage :=
  AuthSuccess (Some server_proof).

Inductive message_error := JsonError | TokenAndPorts.

Definition validate (m : ControlMessage) : result unit message_error :=
  match m with
  | TestAck _ data_ports (Some _) =>
    match data_ports with [] => Ok tt | _ => Err TokenAndPorts end
  | _ => Ok tt
  end.

(** [serde_json::from_str] is a parameter. *)
Definition deserialize (from_str : str -> option ControlMessage) (s : str)
    : result ControlMessage message_error :=
  let? msg := ok_or (from_str s) JsonError in
  let? _ := validate msg in
  Ok msg.

(** ** Timestamp formats *)
Module TimestampFormat.
Inductive t := Relative | Iso8601 | Unix.
#[global] Instance t_eq_dec : EqDecision t.
Proof. solve_decision. Defined.

Definition as_str (f : t) : str :=
  match f with Relative => txt "relative" | Iso8601 => txt "iso8601" | Unix => txt "unix" end.
Definition next (f : t) : t :=
  match f with Relative => Iso8601 | Iso8601 => Unix | Unix => Relative end.
Definition prev (f : t) : t :=
  match f with Relative => Unix | Iso8601 => Relative | Unix => Iso8601 end.
Definition variants : list str := [txt "relative"; txt "iso8601"; txt "unix"].
Definition from_str (s : str) : result t unit :=
  let s := to_lowercase s in
  if str_eqb s (txt "relative") then Ok Relative
  else if str_eqb s (txt "iso8601") || str_eqb s (txt "iso") then Ok Iso8601
  else if str_eqb s (txt "unix") || str_eqb s (txt "epoch") then Ok Unix
  else Err tt.
End TimestampFormat.

(** ** Properties *)

(** [b] is at least as fresh as [a]. *)
Definition fresher (a b : UdpIntervalProgress.t) : Prop :=
  UdpIntervalProgress.is_at_least_as_fresh_as b a = true.

#[export] Instance fresher_dec a b : Decision (fresher a b).
Proof. unfold fresher. apply _. Defined.

#[export] Instance fresher_preorder : PreOrder fresher.
Proof.
  unfold fresher, UdpIntervalProgress.is_at_least_as_fresh_as.
  split; [intros a|intros a b c]; rewrite !andb_true_iff, !Z.leb_le; lia.
Qed.

Lemma fresh_trans a b c :
  UdpIntervalProgress.is_at_least_as_fresh_as c b = true ->
  UdpIntervalProgress.is_at_least_as_fresh_as b a = true ->
  UdpIntervalProgress.is_at_least_as_fresh_as c a = true.
Proof. intros H1 H2. apply (transitivity (R := fresher) (y := b)); done. Qed.

(** The freshness test orders UDP progress snapshots: it is a preorder,
    two snapshots each as fresh as the other agree on both counters (below
    the saturation point), and replacing a slot only by snapshots at least as
    fresh never lowers the received count or the expected total. *)
Theorem freshness_order (a b c : UdpIntervalProgress.t) :
  let fresh := UdpIntervalProgress.is_at_least_as_fresh_as in
  let total p := UdpIntervalProgress.packets_received p + UdpIntervalProgress.packets_lost p in
  fresh a a = true /\
  (fresh c b = true -> fresh b a = true -> fresh c a = true) /\
  (fresh a b = true -> fresh b a = true -> fits 64 (total a) -> fits 64 (total b) -> a = b) /\
  (fresh b a = true -> fits 64 (total b) ->
     UdpIntervalProgress.packets_received a <= UdpIntervalProgress.packets_received b /\
     (fits 64 (total a) -> total a <= total b)).
Proof.
  cbv zeta. unfold UdpIntervalProgress.is_at_least_as_fresh_as, saturating_add, fits.
  rewrite !andb_true_iff, !Z.leb_le.
  destruct a as [ar al], b as [br bl], c as [cr cl];
    cbn [UdpIntervalProgress.packets_received UdpIntervalProgress.packets_lost].
  split_and!; [lia|lia|lia|..].
  - intros [H1 H2] [H3 H4] Ha Hb. assert (ar = br) as -> by lia. f_equal. lia.
  - intros [H1 H2] Hb. split; [done|]. intros Ha. lia.
Qed.

Lemma freshness_order_witness :
  UdpIntervalProgress.is_at_least_as_fresh_as
    (UdpIntervalProgress.mk 12 1) (UdpIntervalProgress.mk 10 3) = true /\
  UdpIntervalProgress.is_at_least_as_fresh_as
    (UdpIntervalProgress.mk 12 1) (UdpIntervalProgress.mk 9 2) = true.
Proof.
  split; [reflexivity|].
  apply (proj1 (proj2 (freshness_order (UdpIntervalProgress.mk 9 2)
    (UdpIntervalProgress.mk 10 3) (UdpIntervalProgress.mk 12 1)))); reflexivity.
Defined.

Lemma parse_major_spec v major :
  parse_protocol_major v = Some major <->
  exists first parts, split_on 46 v = first :: parts /\ parse_uint u32_max first = Some major /\
    Forall (fun p => is_Some (parse_uint u32_max p)) parts.
Proof.
  assert (parse_uint u32_max [] = None) as Hnil by reflexivity.
  assert (Hcheck : forall parts, check_parts parts = Some tt <->
    Forall (fun p => is_Some (parse_uint u32_max p)) parts).
  { induction parts as [|p parts IH]; cbn [check_parts]; [by split|]. rewrite Forall_cons, <- IH.
    destruct p as [|x p]; [rewrite Hnil; split; [done|by intros [[? ?] _]]|].
    destruct (parse_uint u32_max (x :: p)); [split; [by eauto|by intros [_ ?]]|].
    split; [done|by intros [[? ?] _]]. }
  unfold parse_protocol_major. destruct (split_on 46 v) as [|first parts].
  { split; [done|]. by intros (? & ? & ? & _). }
  split.
  - intros H. exists first, parts. destruct first; [done|].
    destruct (parse_uint u32_max (z :: first)); [|done]. destruct (check_parts parts) as [[]|] eqn:E; [|done].
    split; [done|]. split; [done|]. by apply Hcheck.
  - intros (f & ps & [= <- <-] & Hf & Hp). destruct first; [by rewrite Hnil in Hf|].
    rewrite Hf. apply Hcheck in Hp. by rewrite Hp.
Qed.

(** Compatibility is agreement on a well-formed major version: two
    versions are compatible exactly when every dot-separated part of both is
    a number and the first parts are equal numbers, so it is symmetric and
    transitive and ignores every part after the first. *)
Theorem versions_compatible_iff (a b : str) :
  versions_compatible a b = true <->
  exists major fa pa fb pb,
    split_on 46 a = fa :: pa /\ split_on 46 b = fb :: pb /\
    parse_uint u32_max fa = Some major /\ parse_uint u32_max fb = Some major /\
    Forall (fun p => is_Some (parse_uint u32_max p)) (pa ++ pb).
Proof.
  unfold versions_compatible. split.
  - destruct (parse_protocol_major a) as [ma|] eqn:Ea; [|done].
    destruct (parse_protocol_major b) as [mb|] eqn:Eb; [|done].
    intros ->%Z.eqb_eq. apply parse_major_spec in Ea as (fa & pa & ? & ? & ?).
    apply parse_major_spec in Eb as (fb & pb & ? & ? & ?).
    exists mb, fa, pa, fb, pb. rewrite Forall_app. by split_and!.
  - intros (major & fa & pa & fb & pb & Ha & Hb & Hfa & Hfb & [Hpa Hpb]%Forall_app).
    rewrite (proj2 (parse_major_spec a major)) by eauto.
    rewrite (proj2 (parse_major_spec b major)) by eauto. apply Z.eqb_refl.
Qed.

(** A hello lists a capability exactly when its builder does. *)
Lemma capability_advertised_in caps name :
  capability_advertised (Some caps) name = true <-> name ∈ caps.
Proof.
  cbn. rewrite existsb_exists. setoid_rewrite str_eqb_eq.
  setoid_rewrite <- list_elem_of_In. naive_solver.
Qed.

(** Withdrawing a capability at run time withdraws that one and nothing
    else, from every hello built with the reduced list; and no capability is
    listed twice, so a single filter suffices. *)
Theorem capability_withdrawn (program excluded name : str) :
  NoDup SUPPORTED_CAPABILITIES /\
  match server_hello_with_capabilities program (supported_capabilities_without excluded) with
  | Hello _ _ _ caps _ _ =>
    capability_advertised caps name = true <->
    (name <> excluded /\ capability_advertised (Some supported_capabilities) name = true)
  | _ => False
  end.
Proof.
  split.
  - apply (bool_decide_unpack _). vm_compute. exact I.
  - cbn [server_hello_with_capabilities]. rewrite !capability_advertised_in.
    unfold supported_capabilities_without. by rewrite list_elem_of_filter.
Qed.

Lemma list_filter_id {A} (P : A -> Prop) `{!forall x, Decision (P x)} l :
  Forall P l -> filter P l = l.
Proof. induction 1; [done|]. rewrite filter_cons_True by done. by f_equal. Qed.

Lemma sanitize_spec raw :
  (length (sanitize_message raw) <= MAX_ERROR_LEN)%nat /\
  Forall (fun c => is_control c = false) (sanitize_message raw) /\
  sanitize_message (sanitize_message raw) = sanitize_message raw.
Proof.
  assert (H1 : (length (sanitize_message raw) <= MAX_ERROR_LEN)%nat)
    by (unfold sanitize_message; rewrite length_take; lia).
  assert (H2 : Forall (fun c => is_control c = false) (sanitize_message raw)).
  { apply Forall_take, Forall_forall. intros c [? _]%list_elem_of_filter. done. }
  split_and!; [done|done|].
  revert H1 H2. generalize (sanitize_message raw). intros s H1 H2. unfold sanitize_message, str in *.
  rewrite list_filter_id by done. by apply take_ge.
Qed.
