(* ===== verification/Stats.v ===== *)
(** * Transfer statistics (src/src/stats.rs)

    The per-stream counters with their interval snapshots, and the per-test
    aggregates.  Time is in nanoseconds since an arbitrary origin; a stream's
    counters are one state, read and written between the steps of the tasks
    that share it.  The TCP_INFO poll of the operating system is an argument. *)
From S2P Require Import Prelude Bytes Float Probe Protocol.

Definition MAX_INTERVAL_HISTORY : nat := 60.

(** [Duration::as_secs_f64]. *)
Definition as_secs_f64 (ns : Z) : f64 :=
  fadd (of_int (ns / 1000000000)) (fdiv (of_int (ns mod 1000000000)) (of_int 1000000000)).

Record IntervalStats := mkIntervalStats {
  is_timestamp : Z; is_bytes : Z; is_throughput_mbps : f64; is_retransmits : Z;
  is_jitter_ms : f64; is_lost : Z; is_rtt_us : option Z; is_cwnd : option Z;
  is_bytes_sent : Z; is_bytes_received : Z;
  is_cumulative_packets_received : Z; is_cumulative_packets_lost : Z
}.

Record StreamStats := mkStreamStats {
  stream_id : Z;
  bytes_sent : Z; bytes_received : Z;
  start_time : Z;
  intervals : list IntervalStats;
  retransmits_total : Z;
  interval_retransmits_total : Z;
  last_bytes : Z; last_bytes_sent : Z; last_bytes_received : Z;
  last_tcp_retransmits : Z;
  udp_jitter_us : Z; last_udp_lost : Z;
  udp_progress : UdpIntervalProgress.t;
  udp_send_errors : option UdpSendErrors;
  tcp_info_fd : Z;
  final_tcp_info : option TcpInfoSnapshot
}.

Module StreamStats.
Definition new (id now : Z) : StreamStats :=
  mkStreamStats id 0 0 now [] 0 0 0 0 0 0 0 0 UdpIntervalProgress.default None (-1) None.

(** The counters of [s] with the transfer counters replaced. *)
Definition with_bytes (sent received : Z) (s : StreamStats) : StreamStats :=
  mkStreamStats (stream_id s) sent received (start_time s) (intervals s) (retransmits_total s)
    (interval_retransmits_total s) (last_bytes s) (last_bytes_sent s) (last_bytes_received s)
    (last_tcp_retransmits s) (udp_jitter_us s) (last_udp_lost s) (udp_progress s)
    (udp_send_errors s) (tcp_info_fd s) (final_tcp_info s).
Definition with_udp (jitter : Z) (p : UdpIntervalProgress.t) (errs : option UdpSendErrors)
    (s : StreamStats) : StreamStats :=
  mkStreamStats (stream_id s) (bytes_sent s) (bytes_received s) (start_time s) (intervals s)
    (retransmits_total s) (interval_retransmits_total s) (last_bytes s) (last_bytes_sent s)
    (last_bytes_received s) (last_tcp_retransmits s) jitter (last_udp_lost s) p errs
    (tcp_info_fd s) (final_tcp_info s).
Definition with_tcp (retransmits fd : Z) (final : option TcpInfoSnapshot) (s : StreamStats)
    : StreamStats :=
  mkStreamStats (stream_id s) (bytes_sent s) (bytes_received s) (start_time s) (intervals s)
    retransmits (interval_retransmits_total s) (last_bytes s) (last_bytes_sent s)
    (last_bytes_received s) (last_tcp_retransmits s) (udp_jitter_us s) (last_udp_lost s)
    (udp_progress s) (udp_send_errors s) fd final.

Definition add_bytes_sent (bytes : Z) (s : StreamStats) : StreamStats :=
  with_bytes (wrapping_add 64 (bytes_sent s) bytes) (bytes_received s) s.
Definition add_bytes_received (bytes : Z) (s : StreamStats) : StreamStats :=
  with_bytes (bytes_sent s) (wrapping_add 64 (bytes_received s) bytes) s.
Definition add_retransmits (count : Z) (s : StreamStats) : StreamStats :=
  with_tcp (wrapping_add 64 (retransmits_total s) count) (tcp_info_fd s) (final_tcp_info s) s.
Definition set_udp_jitter_us (jitter : Z) (s : StreamStats) : StreamStats :=
  with_udp jitter (udp_progress s) (udp_send_errors s) s.
Definition set_udp_progress (received lost : Z) (s : StreamStats) : StreamStats :=
  with_udp (udp_jitter_us s) (UdpIntervalProgress.mk received lost) (udp_send_errors s) s.

(** Whether this is the stream's first failure, and the counters after. *)
Definition record_udp_send_error (error : str) (s : StreamStats) : bool * StreamStats :=
  let last_error := sanitize_message error in
  let count := wrapping_add 64
    (match udp_send_errors s with Some e => count e | None => 0 end) 1 in
  (count =? 1, with_udp (udp_jitter_us s) (udp_progress s) (Some (mkUdpSendErrors count last_error)) s).

Definition set_tcp_info_fd (fd : Z) (s : StreamStats) : StreamStats :=
  with_tcp (retransmits_total s) fd None s.
Definition clear_tcp_info_fd (s : StreamStats) : StreamStats :=
  with_tcp (retransmits_total s) (-1) (final_tcp_info s) s.
Definition set_final_tcp_info (info : TcpInfoSnapshot) (s : StreamStats) : StreamStats :=
  with_tcp (retransmits_total s) (tcp_info_fd s) (Some info) s.

(** [get_tcp_info_from_fd(fd).ok()], asked of the kernel at the moment of the
    poll. *)
Definition kernel := Z -> option TcpInfoSnapshot.
Definition poll_tcp_info (k : kernel) (s : StreamStats) : option TcpInfoSnapshot :=
  if tcp_info_fd s <? 0 then None else k (tcp_info_fd s).
Definition get_final_tcp_info (k : kernel) (s : StreamStats) : option TcpInfoSnapshot :=
  match final_tcp_info s with Some i => Some i | None => poll_tcp_info k s end.

Definition udp_jitter_ms (s : StreamStats) : f64 := fdiv (of_int (udp_jitter_us s)) (of_int 1000).
Definition total_bytes (s : StreamStats) : Z := wrapping_add 64 (bytes_sent s) (bytes_received s).

(** [(bytes * 8) / (seconds * 10^6)], or zero for an empty window. *)
Definition mbps_over (bytes : Z) (secs : f64) : f64 :=
  if fgtb secs zero
  then fdiv (fmul (of_int bytes) (of_int 8)) (fmul secs (of_int 1000000)) else zero.

Definition throughput_mbps (now : Z) (s : StreamStats) : f64 :=
  mbps_over (total_bytes s) (as_secs_f64 (saturating_sub now (start_time s))).

(** Push a snapshot, dropping the oldest beyond the bound. *)
Definition push_interval (i : IntervalStats) (l : list IntervalStats) : list IntervalStats :=
  let l := l ++ [i] in
  if Nat.ltb MAX_INTERVAL_HISTORY (length l) then tail l else l.

Definition record_interval (now : Z) (k : kernel) (s : StreamStats)
    : IntervalStats * StreamStats :=
  let total := total_bytes s in
  let interval_bytes := saturating_sub total (last_bytes s) in
  let interval_bytes_sent := saturating_sub (bytes_sent s) (last_bytes_sent s) in
  let interval_bytes_received := saturating_sub (bytes_received s) (last_bytes_received s) in
  let elapsed := saturating_sub now (start_time s) in
  let interval_duration := match last (intervals s) with
                           | Some l => saturating_sub now (is_timestamp l)
                           | None => elapsed
                           end in
  let throughput := mbps_over interval_bytes (as_secs_f64 interval_duration) in
  let progress := udp_progress s in
  let total_lost := UdpIntervalProgress.packets_lost progress in
  let interval_lost := saturating_sub total_lost (last_udp_lost s) in
  let tcp_info := poll_tcp_info k s in
  let '(interval_retransmits, last_tcp) :=
    match tcp_info with
    | Some info => (saturating_sub (tcp_retransmits info) (last_tcp_retransmits s),
                    tcp_retransmits info)
    | None => (0, last_tcp_retransmits s)
    end in
  let retr_total := if 0 <? interval_retransmits
                    then saturating_add 64 (interval_retransmits_total s) interval_retransmits
                    else interval_retransmits_total s in
  let stats := mkIntervalStats now interval_bytes throughput interval_retransmits
    (udp_jitter_ms s) interval_lost (option_map tcp_rtt_us tcp_info)
    (option_map tcp_cwnd tcp_info) interval_bytes_sent interval_bytes_received
    (UdpIntervalProgress.packets_received progress) total_lost in
  (stats,
   mkStreamStats (stream_id s) (bytes_sent s) (bytes_received s) (start_time s)
     (push_interval stats (intervals s)) (retransmits_total s) retr_total
     total (bytes_sent s) (bytes_received s) last_tcp (udp_jitter_us s) total_lost
     progress (udp_send_errors s) (tcp_info_fd s) (final_tcp_info s)).

Definition observed_jitter (i : IntervalStats) : bool :=
  fgtb (is_jitter_ms i) zero || (0 <? is_cumulative_packets_received i).

Definition to_interval_with_direction (s : StreamStats) (i : IntervalStats) (is_bidir : bool)
    : StreamInterval :=
  let directional_mbps bytes :=
    if 0 <? is_bytes i
    then fdiv (fmul (is_throughput_mbps i) (of_int bytes)) (of_int (is_bytes i)) else zero in
  let then_some {A} (x : A) := if is_bidir then Some x else None in
  mkStreamInterval (stream_id s) (is_bytes i) (Some (is_retransmits i))
    (if observed_jitter i then Some (is_jitter_ms i) else None)
    (if 0 <? is_lost i then Some (is_lost i) else None)
    None (is_rtt_us i) (is_cwnd i)
    (then_some (is_bytes_received i)) (then_some (is_bytes_sent i))
    (then_some (directional_mbps (is_bytes_received i)))
    (then_some (directional_mbps (is_bytes_sent i))).

Definition to_interval (s : StreamStats) (i : IntervalStats) : StreamInterval :=
  to_interval_with_direction s i false.

Definition to_result_with_direction (s : StreamStats) (duration_ms : Z) (is_bidir : bool)
    : StreamResult :=
  let sent := bytes_sent s in
  let received := bytes_received s in
  let bytes := wrapping_add 64 sent received in
  let mbps b :=
    if 0 <? duration_ms
    then fdiv (fdiv (fmul (of_int b) (of_int 8)) (fdiv (of_int duration_ms) (of_int 1000)))
              (of_int 1000000)
    else zero in
  let then_some {A} (x : A) := if is_bidir then Some x else None in
  mkStreamResult (stream_id s) bytes (mbps bytes)
    (Some (Z.max (retransmits_total s) (interval_retransmits_total s))) None None
    (then_some received) (then_some sent) (then_some (mbps received)) (then_some (mbps sent)).

Definition to_result (s : StreamStats) (duration_ms : Z) : StreamResult :=
  to_result_with_direction s duration_ms false.
End StreamStats.

(** ** Per-test aggregates *)
Definition sum_u64 (l : list Z) : Z := fold_left (wrapping_add 64) l 0.
Definition saturating_sum (w : Z) (l : list Z) : Z := fold_left (saturating_add w) l 0.

(** [iter.reduce(f)]. *)
Definition reduce {A} (f : A -> A -> A) (l : list A) : option A :=
  match l with [] => None | x :: l => Some (fold_left f l x) end.

(** [Option::max]: an absent value is the smallest. *)
Definition opt_max (a b : option Z) : option Z :=
  match a, b with
  | Some x, Some y => Some (Z.max x y)
  | Some x, None => Some x
  | None, b => b
  end.

Record TestStats := mkTestStats {
  test_id : str; streams : list StreamStats; test_start_time : Z;
  tcp_info : list TcpInfoSnapshot; udp_stats : list UdpStats
}.

Module TestStats.
Definition new (id : str) (num_streams : Z) (now : Z) : TestStats :=
  mkTestStats id (map (fun i => StreamStats.new (Z.of_nat i) now) (seq 0 (Z.to_nat num_streams)))
    now [] [].

Definition add_udp_stats (u : UdpStats) (s : TestStats) : TestStats :=
  mkTestStats (test_id s) (streams s) (test_start_time s) (tcp_info s) (udp_stats s ++ [u]).
Definition add_tcp_info (i : TcpInfoSnapshot) (s : TestStats) : TestStats :=
  mkTestStats (test_id s) (streams s) (test_start_time s) (tcp_info s ++ [i]) (udp_stats s).
Definition get_tcp_info (s : TestStats) : option TcpInfoSnapshot := last (tcp_info s).

Definition observed (u : UdpStats) : bool := (0 <? us_packets_received u) || (0 <? us_lost u).

(** What the loop over the streams accumulates. *)
Record udp_acc := mkUdpAcc {
  acc_total : UdpStats; acc_jitter_max : f64; acc_any_max : bool; acc_count : Z
}.

Definition udp_acc_step (receiver_only : bool) (a : udp_acc) (s : UdpStats) : udp_acc :=
  let t := acc_total a in
  let counted := negb receiver_only || (0 <? us_packets_received s) in
  let total := mkUdpStats
    (saturating_add 64 (us_packets_sent t) (us_packets_sent s))
    (saturating_add 64 (us_packets_received t) (us_packets_received s))
    (saturating_add 64 (us_lost t) (us_lost s)) zero
    (if counted then fadd (us_jitter_ms t) (us_jitter_ms s) else us_jitter_ms t)
    (saturating_add 64 (us_out_of_order t) (us_out_of_order s)) None
    (if counted then opt_max (us_packet_size t) (us_packet_size s) else us_packet_size t) in
  let '(jmax, any) :=
    match us_jitter_max_ms s with
    | Some m => if counted then (fmax (acc_jitter_max a) m, true)
                else (acc_jitter_max a, acc_any_max a)
    | None => (acc_jitter_max a, acc_any_max a)
    end in
  mkUdpAcc total jmax any (if counted then acc_count a + 1 else acc_count a).

Definition aggregate_udp_stats_inner (receiver_only : bool) (s : TestStats) : option UdpStats :=
  let stats := udp_stats s in
  if match stats with [] => true | _ => false end
     || (receiver_only && negb (existsb observed stats)) then None
  else
    let a := fold_left (udp_acc_step receiver_only) stats
      (mkUdpAcc (mkUdpStats 0 0 0 zero zero 0 None None) zero false 0) in
    let t := acc_total a in
    Some (mkUdpStats (us_packets_sent t) (us_packets_received t) (us_lost t)
      (if 0 <? us_packets_sent t
       then fmul (fdiv (of_int (us_lost t)) (of_int (us_packets_sent t))) (of_int 100) else zero)
      (if 0 <? acc_count a then fdiv (us_jitter_ms t) (of_int (acc_count a)) else us_jitter_ms t)
      (us_out_of_order t)
      (if acc_any_max a then Some (acc_jitter_max a) else None)
      (us_packet_size t)).

Definition aggregate_udp_stats (s : TestStats) : option UdpStats :=
  aggregate_udp_stats_inner false s.
Definition aggregate_udp_receiver_stats (s : TestStats) : option UdpStats :=
  aggregate_udp_stats_inner true s.

Definition all_udp_send_errors (s : TestStats) : option UdpSendErrors :=
  reduce (fun acc e => mkUdpSendErrors (wrapping_add 64 (count acc) (count e)) (last_error e))
    (omap udp_send_errors (streams s)).

(** Each stream polls the kernel at its own moment. *)
Definition record_intervals (now : Z) (k : StreamStats.kernel) (s : TestStats)
    : list IntervalStats * TestStats :=
  let rs := map (StreamStats.record_interval now k) (streams s) in
  (map fst rs, mkTestStats (test_id s) (map snd rs) (test_start_time s) (tcp_info s) (udp_stats s)).

Definition to_aggregate_with_direction (ivs : list IntervalStats) (is_bidir : bool)
    : AggregateInterval :=
  let total_bytes := sum_u64 (map is_bytes ivs) in
  let total_throughput := fsum (map is_throughput_mbps ivs) in
  let total_retransmits := sum_u64 (map is_retransmits ivs) in
  let total_lost := saturating_sum 64 (map is_lost ivs) in
  let client_sent := sum_u64 (map is_bytes_received ivs) in
  let client_recv := sum_u64 (map is_bytes_sent ivs) in
  let share b :=
    if 0 <? total_bytes
    then fdiv (fmul total_throughput (of_int b)) (of_int total_bytes) else zero in
  let then_some {A} (x : A) := if is_bidir then Some x else None in
  let jitter_values := map is_jitter_ms
    (filter (fun i => StreamStats.observed_jitter i = true) ivs) in
  let avg_jitter := match jitter_values with
    | [] => None
    | _ => Some (fdiv (fsum jitter_values) (of_int (Z.of_nat (length jitter_values))))
    end in
  let cumulative_received := saturating_sum 64 (map is_cumulative_packets_received ivs) in
  let cumulative_lost := saturating_sum 64 (map is_cumulative_packets_lost ivs) in
  let progress := if (0 <? cumulative_received) || (0 <? cumulative_lost)
    then Some (UdpIntervalProgress.mk cumulative_received cumulative_lost) else None in
  let rtt_values := omap is_rtt_us ivs in
  let avg_rtt := match rtt_values with
    | [] => None
    | _ => Some (to_uint 32 (fround (fdiv (of_int (sum_u64 rtt_values))
                                          (of_int (Z.of_nat (length rtt_values))))))
    end in
  let total_cwnd := reduce (saturating_add 32) (omap is_cwnd ivs) in
  mkAggregateInterval total_bytes total_throughput (Some total_retransmits) avg_jitter
    (if 0 <? total_lost then Some total_lost else None) progress avg_rtt total_cwnd
    (then_some client_sent) (then_some client_recv)
    (then_some (share client_sent)) (then_some (share client_recv)).

Definition to_aggregate (ivs : list IntervalStats) : AggregateInterval :=
  to_aggregate_with_direction ivs false.

Definition total_bytes (s : TestStats) : Z := sum_u64 (map StreamStats.total_bytes (streams s)).
Definition total_bytes_sent (s : TestStats) : Z := sum_u64 (map bytes_sent (streams s)).
Definition total_bytes_received (s : TestStats) : Z := sum_u64 (map bytes_received (streams s)).

(** Sums over the snapshots that could be read; the average rounds. *)
Definition average_u32 (sum n : Z) : Z := to_uint 32 (fround (fdiv (of_int sum) (of_int n))).

Definition poll_local_tcp_info (k : StreamStats.kernel) (s : TestStats) : option (Z * Z * Z) :=
  let infos := omap (StreamStats.poll_tcp_info k) (streams s) in
  let n := Z.of_nat (length infos) in
  if 0 <? n then
    Some (average_u32 (sum_u64 (map tcp_rtt_us infos)) n,
          sum_u64 (map tcp_retransmits infos), saturating_sum 32 (map tcp_cwnd infos))
  else None.

Definition final_local_tcp_info (k : StreamStats.kernel) (s : TestStats)
    : option TcpInfoSnapshot :=
  let infos := omap (StreamStats.get_final_tcp_info k) (streams s) in
  let n := Z.of_nat (length infos) in
  if n =? 0 then None
  else
    let acked := omap tcp_bytes_acked infos in
    Some (mkTcpInfoSnapshot (sum_u64 (map tcp_retransmits infos))
      (average_u32 (sum_u64 (map tcp_rtt_us infos)) n)
      (average_u32 (sum_u64 (map tcp_rtt_var_us infos)) n)
      (saturating_sum 32 (map tcp_cwnd infos))
      (match acked with [] => None | _ => Some (sum_u64 acked) end)).
End TestStats.

(** [normalize_for_display]: the scale [10f64.powi(decimals)] is exact for the
    decimal counts the program uses. *)
Definition normalize_for_display (v : f64) (decimals : Z) : f64 :=
  let scale := of_int (10 ^ decimals) in
  let rounded := fdiv (fround (fmul v scale)) scale in
  match rounded with SpecFloat.S754_zero _ => zero | _ => rounded end.

(** ** Interval snapshots add up *)
Section telescope.

(** What the tasks sharing a stream do to it: transfer, report progress,
    record an interval. *)
Inductive op :=
  | AddSent (n : Z) | AddReceived (n : Z) | SetProgress (received lost : Z)
  | RecordInterval (now : Z) (k : StreamStats.kernel).

Definition run_op (log : list IntervalStats) (s : StreamStats) (o : op)
    : list IntervalStats * StreamStats :=
  match o with
  | AddSent n => (log, StreamStats.add_bytes_sent n s)
  | AddReceived n => (log, StreamStats.add_bytes_received n s)
  | SetProgress r l => (log, StreamStats.set_udp_progress r l s)
  | RecordInterval now k =>
    let '(i, s) := StreamStats.record_interval now k s in (log ++ [i], s)
  end.

Definition run (ops : list op) (log : list IntervalStats) (s : StreamStats)
    : list IntervalStats * StreamStats :=
  fold_left (fun '(log, s) o => run_op log s o) ops (log, s).

Definition sent_by (o : op) : Z := match o with AddSent n => n | _ => 0 end.
Definition received_by (o : op) : Z := match o with AddReceived n => n | _ => 0 end.
Definition nonneg (o : op) : Prop :=
  match o with AddSent n | AddReceived n => 0 <= n | SetProgress r l => 0 <= r /\ 0 <= l
  | RecordInterval _ _ => True end.

(** The newest [MAX_INTERVAL_HISTORY] entries. *)
Definition newest (log : list IntervalStats) : list IntervalStats :=
  drop (length log - MAX_INTERVAL_HISTORY) log.

Lemma push_newest i log : StreamStats.push_interval i (newest log) = newest (log ++ [i]).
Proof.
  unfold StreamStats.push_interval, newest. rewrite !length_app, length_drop. cbn [length].
  destruct (Nat.ltb_spec MAX_INTERVAL_HISTORY
    (length log - (length log - MAX_INTERVAL_HISTORY) + 1)) as [H|H].
  - assert (Hl : (MAX_INTERVAL_HISTORY <= length log)%nat) by lia.
    rewrite <- drop_app_le by lia.
    assert (Ht : forall l : list IntervalStats, tail l = drop 1 l) by by intros [].
    rewrite Ht, drop_drop. f_equal. lia.
  - replace (length log + 1 - MAX_INTERVAL_HISTORY)%nat with 0%nat by lia.
    replace (length log - MAX_INTERVAL_HISTORY)%nat with 0%nat by lia. done.
Qed.

Record books (sent received : Z) (log : list IntervalStats) (s : StreamStats) : Prop := {
  b_sent : bytes_sent s = sent;
  b_received : bytes_received s = received;
  b_nonneg : 0 <= sent /\ 0 <= received;
  b_last_sent : last_bytes_sent s = zsum (map is_bytes_sent log) /\ last_bytes_sent s <= sent;
  b_last_received : last_bytes_received s = zsum (map is_bytes_received log) /\
    last_bytes_received s <= received;
  b_last : last_bytes s = zsum (map is_bytes log) /\
    last_bytes s = last_bytes_sent s + last_bytes_received s;
  b_each : Forall (fun i => is_bytes i = is_bytes_sent i + is_bytes_received i) log;
  b_lost : 0 <= last_udp_lost s <= zsum (map is_lost log);
  b_history : intervals s = newest log
}.

Lemma books_record sent received log s now k i s' :
  fits 64 (sent + received) -> 0 <= UdpIntervalProgress.packets_lost (udp_progress s) ->
  books sent received log s -> StreamStats.record_interval now k s = (i, s') ->
  books sent received (log ++ [i]) s' /\
  last_bytes_sent s' = sent /\ last_bytes_received s' = received /\
  last_udp_lost s' = UdpIntervalProgress.packets_lost (udp_progress s) /\
  udp_progress s' = udp_progress s.
Proof.
  intros Hfit Hlost [Es Er Hn [Ls Hs] [Lr Hr] [Lt Ht] Heach Hl Hh].
  unfold StreamStats.record_interval. destruct (match StreamStats.poll_tcp_info k s with
    Some _ => _ | None => _ end) as [ir lt]. intros [= <- <-].
  assert (Htot : StreamStats.total_bytes s = sent + received)
    by (unfold StreamStats.total_bytes, wrapping_add; rewrite Es, Er; by apply wrap_small).
  split; [|by cbn; rewrite Es, Er].
  constructor; cbn [bytes_sent bytes_received last_bytes last_bytes_sent last_bytes_received
    last_udp_lost intervals]; rewrite ?map_app, ?zsum_app; cbn [map zsum is_bytes is_bytes_sent
    is_bytes_received is_lost]; rewrite ?Htot, ?Es, ?Er; unfold saturating_sub; try lia.
  - apply Forall_app. split; [done|]. apply Forall_singleton.
    cbn [is_bytes is_bytes_sent is_bytes_received]. rewrite ?Htot, ?Es, ?Er. lia.
  - rewrite Hh. apply push_newest.
Qed.

Lemma books_op sent received log s o log' s' :
  nonneg o -> fits 64 (sent + sent_by o + (received + received_by o)) ->
  0 <= UdpIntervalProgress.packets_lost (udp_progress s) ->
  books sent received log s -> run_op log s o = (log', s') ->
  books (sent + sent_by o) (received + received_by o) log' s' /\
  0 <= UdpIntervalProgress.packets_lost (udp_progress s').
Proof.
  intros Hn Hfit Hlost Hb. destruct o as [n|n|r l|now k]; cbn in Hn, Hfit.
  1-3: intros [= <- <-]; destruct Hb as [Es Er ? [] [] [] ? ? ?];
    unfold fits in Hfit; (split; [constructor|]); cbn; rewrite ?Es, ?Er; try tauto; try lia;
    unfold wrapping_add; rewrite ?wrap_small by (unfold fits; lia); lia.
  cbn [run_op sent_by received_by]. rewrite !Z.add_0_r in *.
  destruct (StreamStats.record_interval now k s) as [i s1] eqn:E. intros [= <- <-].
  destruct (books_record _ _ _ _ _ _ _ _ Hfit Hlost Hb E) as (Hb' & _ & _ & _ & Hp).
  split; [done|]. by rewrite Hp.
Qed.

Lemma books_run ops sent received log s log' s' :
  Forall nonneg ops ->
  fits 64 (sent + zsum (map sent_by ops) + (received + zsum (map received_by ops))) ->
  0 <= UdpIntervalProgress.packets_lost (udp_progress s) ->
  books sent received log s -> run ops log s = (log', s') ->
  books (sent + zsum (map sent_by ops)) (received + zsum (map received_by ops)) log' s' /\
  0 <= UdpIntervalProgress.packets_lost (udp_progress s').
Proof.
  revert sent received log s. induction ops as [|o ops IH]; intros sent received log s Hn Hfit Hl Hb.
  - cbn. rewrite !Z.add_0_r. by intros [= <- <-].
  - apply Forall_cons in Hn as [Hno Hn]. unfold run. cbn [fold_left map zsum] in *.
    destruct (run_op log s o) as [log1 s1] eqn:E. intros Hrun.
    assert (Hpos : 0 <= zsum (map sent_by ops) /\ 0 <= zsum (map received_by ops)).
    { split; apply zsum_nonneg, Forall_map; eapply Forall_impl; try exact Hn;
        intros []; cbn; lia. }
    assert (Ho : 0 <= sent_by o /\ 0 <= received_by o) by (destruct o; cbn in *; lia).
    pose proof (b_nonneg _ _ _ _ Hb). unfold fits in Hfit.
    assert (Hf1 : fits 64 (sent + sent_by o + (received + received_by o))) by (unfold fits; lia).
    destruct (books_op _ _ _ _ _ _ _ Hno Hf1 Hl Hb E) as [Hb1 Hl1].
    rewrite !Z.add_assoc. apply (IH _ _ log1 s1); try done. unfold fits. lia.
Qed.

Lemma books_new id t0 : books 0 0 [] (StreamStats.new id t0).
Proof. constructor; cbn; done || lia. Qed.

(** The periodic reports account for every byte exactly once: however
    transfers and interval recordings interleave, at each recording the
    interval deltas so far sum to the stream's totals, in total and in each
    direction; reported losses never fall short of the current loss; and the
    history holds exactly the newest sixty snapshots. *)
Theorem intervals_telescope (id t0 now : Z) (k : StreamStats.kernel) (ops : list op) :
  Forall nonneg ops -> zsum (map sent_by ops) + zsum (map received_by ops) < 2 ^ 64 ->
  let '(log, s) := run (ops ++ [RecordInterval now k]) [] (StreamStats.new id t0) in
  zsum (map is_bytes_sent log) = bytes_sent s /\ bytes_sent s = zsum (map sent_by ops) /\
  zsum (map is_bytes_received log) = bytes_received s /\
  bytes_received s = zsum (map received_by ops) /\
  zsum (map is_bytes log) = StreamStats.total_bytes s /\
  Forall (fun i => is_bytes i = is_bytes_sent i + is_bytes_received i) log /\
  UdpIntervalProgress.packets_lost (udp_progress s) <= zsum (map is_lost log) /\
  intervals s = newest log.
Proof.
  intros Hn Hfit. unfold run. rewrite fold_left_app. cbn [fold_left].
  destruct (fold_left _ ops _) as [log s] eqn:E.
  assert (Hpos : 0 <= zsum (map sent_by ops) /\ 0 <= zsum (map received_by ops)).
  { split; apply zsum_nonneg, Forall_map; eapply Forall_impl; try exact Hn;
      intros []; cbn; lia. }
  destruct (books_run ops 0 0 [] (StreamStats.new id t0) log s Hn) as [Hb Hl];
    [unfold fits; lia|done|apply books_new|exact E|].
  cbn [run_op]. destruct (StreamStats.record_interval now k s) as [i s'] eqn:Er.
  assert (Hf : fits 64 (0 + zsum (map sent_by ops) + (0 + zsum (map received_by ops))))
    by (unfold fits; lia).
  destruct (books_record _ _ _ _ _ _ _ _ Hf Hl Hb Er)
    as ([Es Eb _ [Ls _] [Lr _] [Lt Ht] He Hlost Hh] & Hs & Hr & Hul & Hp).
  split_and!; try done; try lia; try congruence.
  - unfold StreamStats.total_bytes, wrapping_add. rewrite wrap_small by (unfold fits; lia). lia.
  - rewrite Hp, <- Hul. lia.
Qed.
End telescope.

Lemma intervals_telescope_witness :
  let ops := [AddSent 5; RecordInterval 1000000000 (fun _ => None); SetProgress 3 2;
              AddReceived 7; AddSent 1] in
  let '(log, s) := run (ops ++ [RecordInterval 2000000000 (fun _ => None)]) []
    (StreamStats.new 0 0) in
  zsum (map is_bytes_sent log) = bytes_sent s /\ bytes_sent s = 6.
Proof.
  cbv zeta.
  pose proof (intervals_telescope 0 0 2000000000 (fun _ => None)
    [AddSent 5; RecordInterval 1000000000 (fun _ => None); SetProgress 3 2;
     AddReceived 7; AddSent 1]) as H.
  destruct (run _ [] _) as [log s].
  destruct H as (H1 & H2 & _); [repeat constructor; discriminate|reflexivity|].
  split; [exact H1|exact H2].
Defined.

(** ** Directions *)
Lemma fold_wrapping_add l acc :
  0 <= acc -> Forall (fun z => 0 <= z) l -> acc + zsum l < 2 ^ 64 ->
  fold_left (wrapping_add 64) l acc = acc + zsum l.
Proof.
  intros Ha Hl. revert acc Ha. induction Hl as [|z l Hz Hl IH]; intros acc Ha Hs; cbn in *; [lia|].
  pose proof (zsum_nonneg l Hl).
  assert (E : wrapping_add 64 acc z = acc + z)
    by (unfold wrapping_add; apply wrap_small; unfold fits; lia).
  rewrite E, IH by lia. lia.
Qed.

Lemma sum_u64_zsum l : Forall (fun z => 0 <= z) l -> zsum l < 2 ^ 64 -> sum_u64 l = zsum l.
Proof. intros Hl Hs. unfold sum_u64. rewrite fold_wrapping_add; lia || done. Qed.

(** An interval snapshot as [record_interval] makes them. *)
Definition interval_ok (i : IntervalStats) : Prop :=
  0 <= is_bytes_sent i /\ 0 <= is_bytes_received i /\
  is_bytes i = is_bytes_sent i + is_bytes_received i.

Lemma interval_sums ivs :
  Forall interval_ok ivs ->
  zsum (map is_bytes ivs) = zsum (map is_bytes_sent ivs) + zsum (map is_bytes_received ivs) /\
  Forall (fun z => 0 <= z) (map is_bytes ivs) /\
  Forall (fun z => 0 <= z) (map is_bytes_sent ivs) /\
  Forall (fun z => 0 <= z) (map is_bytes_received ivs).
Proof.
  induction 1 as [|i ivs (H1 & H2 & H3) _ (IH & F1 & F2 & F3)]; [done|].
  cbn. split_and!; [lia|constructor; [lia|done]..].
Qed.

Lemma rows_sums ss ivs :
  length ss = length ivs ->
  let rows := zip_with (fun s i => StreamStats.to_interval_with_direction s i true) ss ivs in
  zsum (map si_bytes rows) = zsum (map is_bytes ivs) /\
  zsum (omap si_bytes_sent rows) = zsum (map is_bytes_received ivs) /\
  zsum (omap si_bytes_received rows) = zsum (map is_bytes_sent ivs).
Proof.
  cbv zeta. revert ss. induction ivs as [|i ivs IH]; intros [|s ss] Hlen; try done.
  injection Hlen as Hlen. destruct (IH ss Hlen) as (E1 & E2 & E3).
  cbn [zip_with map zsum omap list_omap]. cbn -[zip_with] in E2, E3 |- *.
  rewrite E1, E2, E3. done.
Qed.

(** Reports give the client its own directions: in a bidirectional test
    what the server received is the client's upload and what it sent the
    client's download, in every row and in the aggregate; the two directions
    partition the aggregate bytes, the rows sum to the aggregate, and a
    one-way test carries no split at all. *)
Theorem directions_partition (ss : list StreamStats) (ivs : list IntervalStats) :
  length ss = length ivs -> Forall interval_ok ivs -> zsum (map is_bytes ivs) < 2 ^ 64 ->
  let rows := zip_with (fun s i => StreamStats.to_interval_with_direction s i true) ss ivs in
  let agg := TestStats.to_aggregate_with_direction ivs true in
  let plain := TestStats.to_aggregate ivs in
  exists up down,
    ai_bytes_sent agg = Some up /\ ai_bytes_received agg = Some down /\
    ai_bytes agg = up + down /\ ai_bytes plain = ai_bytes agg /\
    up = zsum (map is_bytes_received ivs) /\ down = zsum (map is_bytes_sent ivs) /\
    zsum (map si_bytes rows) = ai_bytes agg /\
    zsum (omap si_bytes_sent rows) = up /\ zsum (omap si_bytes_received rows) = down /\
    ai_bytes_sent plain = None /\ ai_bytes_received plain = None /\
    ai_throughput_send_mbps plain = None /\ ai_throughput_recv_mbps plain = None.
Proof.
  intros Hlen Hok Hsum rows agg plain.
  destruct (interval_sums ivs Hok) as (Htot & F1 & F2 & F3).
  pose proof (zsum_nonneg _ F2). pose proof (zsum_nonneg _ F3).
  exists (zsum (map is_bytes_received ivs)), (zsum (map is_bytes_sent ivs)).
  unfold agg, plain, TestStats.to_aggregate, TestStats.to_aggregate_with_direction.
  cbn [ai_bytes ai_bytes_sent ai_bytes_received ai_throughput_send_mbps ai_throughput_recv_mbps].
  rewrite !sum_u64_zsum by (done || lia).
  assert (Hrows : zsum (map si_bytes rows) = zsum (map is_bytes ivs) /\
    zsum (omap si_bytes_sent rows) = zsum (map is_bytes_received ivs) /\
    zsum (omap si_bytes_received rows) = zsum (map is_bytes_sent ivs)).
  { apply rows_sums. by rewrite Hlen. }
  split_and!; done || lia.
Qed.

Lemma directions_partition_witness :
  let ivs := [mkIntervalStats 1 7 zero 0 zero 0 None None 5 2 0 0;
              mkIntervalStats 1 4 zero 0 zero 0 None None 1 3 0 0] in
  ai_bytes_sent (TestStats.to_aggregate_with_direction ivs true) = Some 5.
Proof.
  destruct (directions_partition [StreamStats.new 0 0; StreamStats.new 1 0]
    [mkIntervalStats 1 7 zero 0 zero 0 None None 5 2 0 0;
     mkIntervalStats 1 4 zero 0 zero 0 None None 1 3 0 0])
    as (up & down & H1 & _ & _ & _ & H5 & _); [reflexivity| |reflexivity|].
  - repeat constructor; discriminate.
  - cbv zeta. rewrite H1, H5. reflexivity.
Defined.
