(* ===== verification/UdpStream.v ===== *)
(** * UDP data streams (src/src/udp.rs)

    Pacing, the two send loops, the receive loop with its tail drain, the
    receiver feedback and the single-port handshake.  Each loop is a function
    of what it observes: the value of the cancel and pause channels, which
    arm of its [select!] fired, the clock, and what the socket returned.
    Times are nanoseconds.  A byte budget is the stream's own view of the
    counter; sharing it between streams is the subject of Budget.v. *)
From S2P Require Import Prelude Bytes Float UdpWire PacketTracker Budget Protocol Stats.

(** ** Pacing *)
Definition MAX_PACING_TICKS_PER_SEC : Z := 10000.
Definition MAX_PACED_PACKETS_PER_TICK : Z := 1024.
Definition UNLIMITED_BURST_PACKETS : nat := 100.
Definition SEND_TEARDOWN_GRACE : Z := 250000000.
Definition UDP_INACTIVITY_TIMEOUT : Z := 30000000000.

Record PacingSchedule := mkPacing { interval : Z; packets_per_tick : Z }.

Definition pacing_schedule (target_bitrate packet_size : Z) : PacingSchedule :=
  let bits_per_packet := saturating_mul 64 packet_size 8 in
  let bitrate_per_tick := saturating_mul 64 bits_per_packet MAX_PACING_TICKS_PER_SEC in
  let packets_per_tick :=
    clamp 1 MAX_PACED_PACKETS_PER_TICK (div_ceil target_bitrate bitrate_per_tick) in
  let interval_nanos :=
    clamp 1 u64_max
      (div_ceil (saturating_mul 128 (saturating_mul 128 packets_per_tick bits_per_packet) 1000000000)
         target_bitrate) in
  mkPacing interval_nanos packets_per_tick.

Definition is_teardown_send_error (cancelled is_infinite : bool) (now deadline : Z) : bool :=
  cancelled || (negb is_infinite && (deadline <=? now + SEND_TEARDOWN_GRACE)).

(** ** Sending *)
Inductive send_outcome := SentBytes (n : Z) | SendFailed (error : str).

(** What one pass of the burst loop observes: whether cancel or pause stops
    it, the clock at the deadline check, the time since the start in
    microseconds, the socket's answer, and, after a failure, the cancel flag
    and the clock again. *)
Record burst_obs := mkBurst {
  b_stop : bool; b_now : Z; b_elapsed_us : Z; b_outcome : send_outcome;
  b_cancelled : bool; b_error_now : Z
}.

(** One pass of the outer loop. *)
Inductive send_obs :=
  | SCancelled
  | SPaused (cancelled : bool) (paused : Z)
  | SCancelChanged (stop : bool)
  | SPauseChanged
  | STick (now : Z) (burst : list burst_obs).

Record sender := mkSender {
  sequence : Z; sent_total : Z; budget : option Z; budget_spent : bool; deadline : Z;
  packet : list Z; send_stats : StreamStats;
  (** the datagrams the socket accepted, with the byte count it returned *)
  accepted : list (list Z * Z)
}.

Record UdpSendStats := mkUdpSendStats { packets_sent : Z; ss_bytes_sent : Z }.

Definition claim_datagram (budget : option Z) (packet_size : Z) : option Z * option Z :=
  let '(budget, n) := ByteBudget.claim_or_full budget packet_size in
  (budget, if UDP_HEADER_SIZE <=? n then Some n else None).

Section send.
Variables (packet_size : Z) (is_infinite : bool).

(** Build, send and account for one datagram of [send_len] bytes. *)
Definition send_one (o : burst_obs) (budget' : option Z) (send_len : Z) (s : sender) : sender :=
  let header := UdpPacketHeader.mk (sequence s) (wrap 64 (b_elapsed_us o)) in
  let packet' := (UdpPacketHeader.encode header (packet s)).2 in
  match b_outcome o with
  | SentBytes n =>
    mkSender (wrapping_add 64 (sequence s) 1) (wrapping_add 64 (sent_total s) n) budget'
      (budget_spent s) (deadline s) packet' (StreamStats.add_bytes_sent n (send_stats s))
      (accepted s ++ [(take (Z.to_nat send_len) packet', n)])
  | SendFailed e =>
    let stats' :=
      if is_teardown_send_error (b_cancelled o) is_infinite (b_error_now o) (deadline s)
      then send_stats s else (StreamStats.record_udp_send_error e (send_stats s)).2 in
    mkSender (sequence s) (sent_total s) (ByteBudget.refund_unwritten budget' send_len 0)
      (budget_spent s) (deadline s) packet' stats' (accepted s)
  end.

Definition mark_spent (budget' : option Z) (s : sender) : sender :=
  mkSender (sequence s) (sent_total s) budget' true (deadline s) (packet s) (send_stats s)
    (accepted s).

(** The burst loop: at most [n] passes; it also ends with the observations. *)
Fixpoint burst (n : nat) (os : list burst_obs) (s : sender) : sender :=
  match n, os with
  | S n, o :: os =>
    if b_stop o then s
    else if negb is_infinite && (deadline s <=? b_now o) then s
    else
      match claim_datagram (budget s) packet_size with
      | (budget', None) => mark_spent budget' s
      | (budget', Some send_len) => burst n os (send_one o budget' send_len s)
      end
  | _, _ => s
  end.

Definition extend_deadline (paused : Z) (s : sender) : sender :=
  mkSender (sequence s) (sent_total s) (budget s) (budget_spent s) (deadline s + paused)
    (packet s) (send_stats s) (accepted s).

(** Whether the loop has ended, and the state after. *)
Fixpoint send_loop (burst_size : nat) (os : list send_obs) (s : sender) : bool * sender :=
  match os with
  | [] => (false, s)
  | o :: os =>
    match o with
    | SCancelled => (true, s)
    | SPaused true _ => (true, s)
    | SPaused false paused => send_loop burst_size os (extend_deadline paused s)
    | SCancelChanged true => (true, s)
    | SCancelChanged false | SPauseChanged => send_loop burst_size os s
    | STick now bs =>
      if negb is_infinite && (deadline s <=? now) then (true, s)
      else
        let s := burst burst_size bs s in
        if budget_spent s then (true, s) else send_loop burst_size os s
    end
  end.
End send.

Definition start_sender (packet_size start duration : Z) (payload : list Z)
    (stats : StreamStats) (budget : option Z) : sender :=
  mkSender 0 0 budget false (start + duration)
    (repeat 0 (Z.to_nat UDP_HEADER_SIZE) ++ payload) stats [].

(** The unlimited loop has no [select!], so it makes no use of its outcomes;
    [payload] is the zero or random fill after the header. *)
Definition send_udp_unlimited (packet_size start duration : Z) (payload : list Z)
    (stats : StreamStats) (budget : option Z) (os : list send_obs) : bool * sender :=
  send_loop packet_size (duration =? 0) UNLIMITED_BURST_PACKETS os
    (start_sender packet_size start duration payload stats budget).

Definition send_udp_paced (target_bitrate packet_size start duration : Z) (payload : list Z)
    (stats : StreamStats) (budget : option Z) (os : list send_obs)
    : result (bool * sender) unit :=
  let? _ := validate_payload_size packet_size in
  if target_bitrate =? 0 then Ok (send_udp_unlimited packet_size start duration payload stats budget os)
  else
    let schedule := pacing_schedule target_bitrate packet_size in
    Ok (send_loop packet_size (duration =? 0) (Z.to_nat (packets_per_tick schedule)) os
          (start_sender packet_size start duration payload stats budget)).

Definition send_result (s : sender) : UdpSendStats := mkUdpSendStats (sequence s) (sent_total s).

(** ** Jitter *)
Record JitterCalculator := mkJitter {
  last_send_time : option Z; last_recv_time : option Z; jitter : f64; jitter_max : f64
}.

Module JitterCalculator.
Definition new : JitterCalculator := mkJitter None None zero zero.

Definition update (self : JitterCalculator) (send_time_us recv_time : Z) : JitterCalculator :=
  let '(j, jmax) :=
    match last_send_time self, last_recv_time self with
    | Some last_send, Some last_recv =>
      let recv_diff := saturating_sub recv_time last_recv / 1000 in
      let send_diff := send_time_us - last_send in
      let d := of_int (Z.abs (recv_diff - send_diff)) in
      let j := fadd (jitter self) (fdiv (fsub d (jitter self)) (of_int 16)) in
      (j, if fgtb j (jitter_max self) then j else jitter_max self)
    | _, _ => (jitter self, jitter_max self)
    end in
  mkJitter (Some send_time_us) (Some recv_time) j jmax.

Definition jitter_ms (self : JitterCalculator) : f64 := fdiv (jitter self) (of_int 1000).
Definition jitter_max_ms (self : JitterCalculator) : f64 := fdiv (jitter_max self) (of_int 1000).
End JitterCalculator.

(** ** Receiving *)
(** [PacketTracker::stats]. *)
Definition tracker_stats (t : PacketTracker.t) (packets_sent : Z) : Z * Z * f64 :=
  let lost := PacketTracker.lost t in
  let loss_percent :=
    if 0 <? packets_sent
    then fmul (fdiv (of_int lost) (of_int packets_sent)) (of_int 100) else zero in
  (lost, PacketTracker.out_of_order t, loss_percent).

Inductive recv_event :=
  | RDatagram (bytes : list Z) (now : Z)
  | RError
  | RCancelChanged (stop : bool)
  | RPauseChanged
  | RInactivity (now : Z)
  | RFeedbackTick (elapsed_ms : Z).

(** One pass of the loop: the cancel flag and the pause wait at its top, then
    the arm of the [select!] that fired. *)
Record recv_obs := mkRecvObs {
  r_cancelled : bool; r_paused : option (bool * Z); r_event : recv_event
}.

Record receiver := mkReceiver {
  tracker : PacketTracker.t; jitter_calc : JitterCalculator; packet_size_seen : option Z;
  last_recv : Z; has_peer : bool; recv_stats : StreamStats;
  (** acks and feedback sent to the peer *)
  outbox : list (list Z)
}.

Definition start_receiver (now : Z) (stats : StreamStats) : receiver :=
  mkReceiver PacketTracker.new JitterCalculator.new None now false stats [].

Definition is_feedback_datagram (bytes : list Z) : bool :=
  (len bytes =? UDP_FEEDBACK_SIZE) && bool_decide (slice 0 4 bytes = UDP_FEEDBACK_MAGIC).
Definition is_hello_datagram (bytes : list Z) : bool :=
  (len bytes =? UDP_HELLO_SIZE) && bool_decide (slice 0 4 bytes = UDP_HELLO_MAGIC).
Definition is_hello_request (bytes : list Z) : bool :=
  match UdpHelloPacket.decode bytes with
  | Some pkt => UdpHelloPacket.kind pkt =? UDP_HELLO_KIND_HELLO
  | None => false
  end.

(** [record_accepted_packet]: publish the tracker's counts, then the jitter. *)
Definition record_accepted_packet (tracker : PacketTracker.t) (timestamp_us recv_time : Z)
    (stats : StreamStats) (j : JitterCalculator) : StreamStats * JitterCalculator :=
  let stats := StreamStats.set_udp_progress (PacketTracker.received tracker)
                 (PacketTracker.lost tracker) stats in
  let j := JitterCalculator.update j timestamp_us recv_time in
  (StreamStats.set_udp_jitter_us (to_uint 64 (jitter j)) stats, j).

Definition max_size (size : option Z) (n : Z) : option Z :=
  Some (Z.max (default 0 size) (wrap 32 n)).

(** A datagram of the data lane. *)
Definition receive_data (bytes : list Z) (now : Z) (s : receiver) : receiver :=
  let stats := StreamStats.add_bytes_received (len bytes) (recv_stats s) in
  match UdpPacketHeader.decode bytes with
  | None => mkReceiver (tracker s) (jitter_calc s) (packet_size_seen s) now true stats (outbox s)
  | Some header =>
    let size := max_size (packet_size_seen s) (len bytes) in
    let '(t, accepted) := PacketTracker.record_unique (tracker s) (UdpPacketHeader.sequence header) in
    if negb accepted
    then mkReceiver t (jitter_calc s) size now true stats (outbox s)
    else
      let '(stats, j) := record_accepted_packet t (UdpPacketHeader.timestamp_us header) now stats
                           (jitter_calc s) in
      mkReceiver t j size now true stats (outbox s)
  end.

Definition heard (now : Z) (out : list (list Z)) (s : receiver) : receiver :=
  mkReceiver (tracker s) (jitter_calc s) (packet_size_seen s) now true (recv_stats s)
    (outbox s ++ out).

Section receive.
Variable single_port_ack : option (list Z).

(** Any datagram: the two sideband lanes are demultiplexed by length and
    magic before the data lane. *)
Definition receive_datagram (bytes : list Z) (now : Z) (s : receiver) : receiver :=
  let bytes := take (Z.to_nat MAX_UDP_PAYLOAD_SIZE) bytes in
  if is_feedback_datagram bytes then heard now [] s
  else if is_hello_datagram bytes then
    heard now (match single_port_ack with
               | Some ack => if is_hello_request bytes then [ack] else []
               | None => []
               end) s
  else receive_data bytes now s.

Definition feedback_tick (elapsed_ms : Z) (s : receiver) : receiver :=
  if has_peer s && (0 <? PacketTracker.received (tracker s)) then
    let snap := udp_progress (recv_stats s) in
    let pkt := UdpFeedbackPacket.mk (wrap 16 (stream_id (recv_stats s))) (wrap 64 elapsed_ms)
      (UdpIntervalProgress.packets_received snap) (UdpIntervalProgress.packets_lost snap) in
    match UdpFeedbackPacket.encode pkt (repeat 0 (Z.to_nat UDP_FEEDBACK_SIZE)) with
    | (true, buf) => mkReceiver (tracker s) (jitter_calc s) (packet_size_seen s) (last_recv s)
                       (has_peer s) (recv_stats s) (outbox s ++ [buf])
    | (false, _) => s
    end
  else s.

Definition resume_at (now : Z) (s : receiver) : receiver :=
  mkReceiver (tracker s) (jitter_calc s) (packet_size_seen s) now (has_peer s) (recv_stats s)
    (outbox s).

(** The live loop: whether it has ended, and the state after. *)
Fixpoint receive_loop (os : list recv_obs) (s : receiver) : bool * receiver :=
  match os with
  | [] => (false, s)
  | o :: os =>
    if r_cancelled o then (true, s)
    else
      match r_paused o with
      | Some (true, _) => (true, s)
      | Some (false, now) => receive_loop os (resume_at now s)
      | None =>
        match r_event o with
        | RDatagram bytes now => receive_loop os (receive_datagram bytes now s)
        | RError | RPauseChanged => receive_loop os s
        | RCancelChanged stop => if stop then (true, s) else receive_loop os s
        | RInactivity now =>
          if UDP_INACTIVITY_TIMEOUT <=? saturating_sub now (last_recv s) then (true, s)
          else receive_loop os s
        | RFeedbackTick elapsed_ms => receive_loop os (feedback_tick elapsed_ms s)
        end
      end
  end.

(** The tail drain, until the list of what arrives before its deadline ends. *)
Inductive drain_event := DDatagram (bytes : list Z) (now : Z) | DError.

Definition drain_datagram (bytes : list Z) (now : Z) (s : receiver) : receiver :=
  let bytes := take (Z.to_nat MAX_UDP_PAYLOAD_SIZE) bytes in
  match UdpPacketHeader.decode bytes with
  | None => s
  | Some header =>
    let '(t, accepted) := PacketTracker.record_straggler (tracker s) (UdpPacketHeader.sequence header) in
    if negb accepted
    then mkReceiver t (jitter_calc s) (packet_size_seen s) (last_recv s) (has_peer s)
           (recv_stats s) (outbox s)
    else
      let stats := StreamStats.add_bytes_received (len bytes) (recv_stats s) in
      let size := max_size (packet_size_seen s) (len bytes) in
      let '(stats, j) := record_accepted_packet t (UdpPacketHeader.timestamp_us header) now stats
                           (jitter_calc s) in
      mkReceiver t j size (last_recv s) (has_peer s) stats (outbox s)
  end.

Fixpoint drain (es : list drain_event) (s : receiver) : receiver :=
  if 0 <? PacketTracker.lost (tracker s) then
    match es with
    | [] => s
    | DDatagram bytes now :: es => drain es (drain_datagram bytes now s)
    | DError :: es => drain es s
    end
  else s.

(** The statistics [receive_udp] returns once both loops are over. *)
Definition receive_result (s : receiver) : UdpStats * Z :=
  let packets_received := PacketTracker.received (tracker s) in
  let '(lost, out_of_order, _) :=
    tracker_stats (tracker s)
      (saturating_add 64 packets_received (PacketTracker.lost (tracker s))) in
  let packets_sent := saturating_add 64 packets_received lost in
  let loss_percent :=
    if 0 <? packets_sent
    then fmul (fdiv (of_int lost) (of_int packets_sent)) (of_int 100) else zero in
  (mkUdpStats packets_sent packets_received lost loss_percent
     (JitterCalculator.jitter_ms (jitter_calc s)) out_of_order
     (Some (JitterCalculator.jitter_max_ms (jitter_calc s))) (packet_size_seen s),
   packets_sent).

(** [receive_udp]; [None] while the live loop has not ended. *)
Definition receive_udp (now : Z) (stats : StreamStats) (os : list recv_obs)
    (es : list drain_event) : option (UdpStats * Z * receiver) :=
  match receive_loop os (start_receiver now stats) with
  | (false, _) => None
  | (true, s) => let s := drain es s in Some (receive_result s, s)
  end.
End receive.

(** ** Feedback on the sending client *)
Definition to_progress (p : UdpFeedbackPacket.t) : UdpIntervalProgress.t :=
  UdpIntervalProgress.mk (UdpFeedbackPacket.packets_received p) (UdpFeedbackPacket.packets_lost p).

Definition store_udp_feedback (slots : list UdpIntervalProgress.t) (expected_stream_index : nat)
    (packet : UdpFeedbackPacket.t) : list UdpIntervalProgress.t * bool :=
  if negb (UdpFeedbackPacket.stream_id packet =? Z.of_nat expected_stream_index) then (slots, false)
  else
    match slots !! expected_stream_index with
    | None => (slots, false)
    | Some slot =>
      let next := to_progress packet in
      if negb (UdpIntervalProgress.is_at_least_as_fresh_as next slot) then (slots, false)
      else (<[expected_stream_index := next]> slots, true)
    end.

(** One datagram of [receive_udp_feedback_only], live or in its final drain. *)
Definition feedback_datagram (stream_index : nat) (slots : list UdpIntervalProgress.t)
    (datagram : list Z) : list UdpIntervalProgress.t :=
  let bytes := take 1500 datagram in
  if negb (len bytes =? UDP_FEEDBACK_SIZE) then slots
  else match UdpFeedbackPacket.decode bytes with
       | None => slots
       | Some pkt => (store_udp_feedback slots stream_index pkt).1
       end.

Definition receive_udp_feedback_only (stream_index : nat) (slots : list UdpIntervalProgress.t)
    (datagrams : list (list Z)) : list UdpIntervalProgress.t :=
  fold_left (feedback_datagram stream_index) datagrams slots.

(** ** The single-port handshake

    One attempt: whether the hello was sent, then what each [peek] reports
    until the retry timer fires. *)
Record hello_attempt := mkAttempt { h_sent : bool; h_peeks : list (option (list Z)) }.
Inductive handshake_error := HelloSendFailed | PeekFailed | HandshakeTimedOut.

Definition ack_matches (token : list Z) (stream_index : Z) (bytes : list Z) : bool :=
  match UdpHelloPacket.decode bytes with
  | Some pkt => (UdpHelloPacket.kind pkt =? UDP_HELLO_KIND_ACK)
                && bool_decide (UdpHelloPacket.token pkt = token)
                && (UdpHelloPacket.stream_index pkt =? stream_index)
  | None => false
  end.

(** The peeks of one attempt: the verdict if there is one, and the datagrams
    consumed. *)
Fixpoint peek_loop (token : list Z) (stream_index : Z) (peeks : list (option (list Z)))
    : option (result unit handshake_error) * list (list Z) :=
  match peeks with
  | [] => (None, [])
  | None :: _ => (Some (Err PeekFailed), [])
  | Some datagram :: peeks =>
    let bytes := take (Z.to_nat MAX_UDP_PAYLOAD_SIZE) datagram in
    if is_hello_datagram bytes then
      if ack_matches token stream_index bytes then (Some (Ok tt), [datagram])
      else let '(v, consumed) := peek_loop token stream_index peeks in (v, datagram :: consumed)
    else (Some (Ok tt), [])
  end.

Fixpoint handshake_loop (n : nat) (token : list Z) (stream_index : Z)
    (attempts : list hello_attempt) : result unit handshake_error * list (list Z) :=
  match n, attempts with
  | S n, a :: attempts =>
    if negb (h_sent a) then (Err HelloSendFailed, [])
    else
      match peek_loop token stream_index (h_peeks a) with
      | (Some v, consumed) => (v, consumed)
      | (None, consumed) =>
        let '(v, more) := handshake_loop n token stream_index attempts in (v, consumed ++ more)
      end
  | _, _ => (Err HandshakeTimedOut, [])
  end.

Definition single_port_udp_handshake (token : list Z) (stream_index : Z)
    (attempts : list hello_attempt) : result unit handshake_error * list (list Z) :=
  handshake_loop UDP_HELLO_MAX_ATTEMPTS token stream_index attempts.

(** [respond_single_port_hellos]: what is sent in answer to one datagram. *)
Definition respond_single_port_hello (ack datagram : list Z) : list (list Z) :=
  if is_hello_request (take 1500 datagram) then [ack] else [].

(** ** Pacing is never too fast *)
Lemma saturating_mul_small w a b : 0 <= a -> 0 <= b -> a * b < 2 ^ w -> saturating_mul w a b = a * b.
Proof. intros. unfold saturating_mul. lia. Qed.

(** The pacing schedule never sends faster than the requested rate, is
    within a nanosecond per tick of it, keeps bursts between 1 and 1024
    packets, and wakes the timer at most 10,000 times a second unless the
    burst bound is reached. *)
Theorem pacing_sound (target_bitrate packet_size : Z) :
  0 < target_bitrate -> fits 64 target_bitrate ->
  validate_payload_size packet_size = Ok tt ->
  let p := pacing_schedule target_bitrate packet_size in
  let bits := packets_per_tick p * (packet_size * 8) in
  1 <= packets_per_tick p <= MAX_PACED_PACKETS_PER_TICK /\
  1 <= interval p <= u64_max /\
  bits * 1000000000 <= interval p * target_bitrate /\
  (interval p - 1) * target_bitrate < bits * 1000000000 /\
  (packets_per_tick p < MAX_PACED_PACKETS_PER_TICK ->
   1000000000 <= interval p * MAX_PACING_TICKS_PER_SEC).
Proof.
  intros Hpos Hfit Hv. unfold validate_payload_size, UDP_HEADER_SIZE, MAX_UDP_PAYLOAD_SIZE in Hv.
  destruct (_ && _) eqn:E; [|done]. zbool. cbv zeta. unfold pacing_schedule.
  cbn [packets_per_tick interval]. unfold MAX_PACED_PACKETS_PER_TICK, MAX_PACING_TICKS_PER_SEC, fits in *.
  rewrite (saturating_mul_small 64 packet_size 8) by lia.
  rewrite (saturating_mul_small 64 (packet_size * 8) 10000) by lia.
  set (bits := packet_size * 8) in *. set (q := div_ceil target_bitrate (bits * 10000)).
  pose proof (clamp_bounds 1 1024 q ltac:(lia)) as Hc.
  assert (Hq : clamp 1 1024 q < 1024 -> target_bitrate <= clamp 1 1024 q * (bits * 10000)).
  { pose proof (div_ceil_spec target_bitrate (bits * 10000) ltac:(lia) ltac:(lia)).
    fold q in H1. unfold clamp. destruct (Z.ltb_spec q 1), (Z.ltb_spec 1024 q); nia. }
  set (ppt := clamp 1 1024 q) in *. clearbody ppt q.
  assert (Hb : 128 <= bits <= 524056) by (unfold bits; lia). clearbody bits.
  rewrite (saturating_mul_small 128 ppt bits) by nia.
  rewrite (saturating_mul_small 128 (ppt * bits) 1000000000) by nia.
  pose proof (div_ceil_spec (ppt * bits * 1000000000) target_bitrate ltac:(nia) Hpos) as Hd.
  set (iv := div_ceil _ _) in *. clearbody iv.
  assert (Hiv : 1 <= iv <= u64_max) by (unfold u64_max; nia).
  assert (clamp 1 u64_max iv = iv) as ->
    by (unfold clamp; destruct (Z.ltb_spec iv 1), (Z.ltb_spec u64_max iv); lia).
  split_and!; try lia; nia.
Qed.

Lemma pacing_sound_witness :
  let p := pacing_schedule 1000000000 1400 in
  packets_per_tick p = 9 /\ interval p = 100800 /\
  9 * (1400 * 8) * 1000000000 <= 100800 * 1000000000.
Proof.
  split; [reflexivity|]. split; [reflexivity|].
  apply (pacing_sound 1000000000 1400); [lia|unfold fits; lia|reflexivity].
Defined.

(** ** What the sender puts on the wire *)
Section sender_facts.
Variables (size : Z) (inf : bool).
Hypothesis Hsize : UDP_HEADER_SIZE <= size <= MAX_UDP_PAYLOAD_SIZE.

Definition wire_bytes (s : sender) : Z := zsum (map (fun '(d, _) => len d) (accepted s)).

(** Every accepted datagram carries its position, and the books agree. *)
Record numbered (s : sender) : Prop := {
  n_packet : len (packet s) = size;
  n_sequence : sequence s = wrap 64 (Z.of_nat (length (accepted s)));
  n_total : sent_total s = wrap 64 (zsum (map snd (accepted s)));
  n_header : forall i d n, accepted s !! i = Some (d, n) ->
    exists h, UdpPacketHeader.decode d = Some h /\
      UdpPacketHeader.sequence h = wrap 64 (Z.of_nat i) /\ UDP_HEADER_SIZE <= len d <= size /\
      bytes_ok (slice 0 8 d)
}.

(** The budget: what was put on the wire, what is left, and the leftover too
    small for a header that ends the stream. *)
Definition budgeted (total : option Z) (s : sender) : Prop :=
  match total, budget s with
  | None, None => budget_spent s = false /\ Forall (fun '(d, _) => len d = size) (accepted s)
  | Some b0, Some r =>
    fits 64 b0 /\ 0 <= r /\ exists dropped, wire_bytes s + r + dropped = b0 /\
      if budget_spent s then r = 0 /\ 0 <= dropped < UDP_HEADER_SIZE else dropped = 0
  | _, _ => False
  end.

Lemma wrap_step a b : wrapping_add 64 (wrap 64 a) b = wrap 64 (a + b).
Proof. unfold wrapping_add, wrap. apply Z.add_mod_idemp_l. lia. Qed.

Lemma claim_datagram_spec total s b' r :
  budgeted total s -> budget_spent s = false -> claim_datagram (budget s) size = (b', r) ->
  match r with
  | Some n => UDP_HEADER_SIZE <= n <= size /\ (total = None -> n = size) /\
      match budget s, b' with
      | Some x, Some y => y = x - n /\ 0 <= y | None, None => True | _, _ => False end
  | None => match budget s, b' with
      | Some x, Some y => y = 0 /\ 0 <= x < UDP_HEADER_SIZE | _, _ => False end
  end.
Proof.
  unfold budgeted, claim_datagram, ByteBudget.claim_or_full. intros Hb Hs.
  destruct (budget s) as [x|].
  - destruct total as [b0|]; [|done]. destruct Hb as (_ & Hx & _).
    rewrite claim_spec by (unfold UDP_HEADER_SIZE in *; lia). intros [= <- <-].
    destruct (Z.leb_spec UDP_HEADER_SIZE (Z.min x size)); unfold UDP_HEADER_SIZE in *;
      split_and!; (done || lia).
  - destruct total; [done|]. intros [= <- <-].
    rewrite (proj2 (Z.leb_le _ _)) by lia. split_and!; done || lia.
Qed.

Lemma encode_packet h p :
  UdpPacketHeader.wf h -> len p = size ->
  (UdpPacketHeader.encode h p).2 = header_bytes h ++ drop 16 p /\
  forall n, UDP_HEADER_SIZE <= n <= size ->
    UdpPacketHeader.decode (take (Z.to_nat n) (header_bytes h ++ drop 16 p)) = Some h /\
    len (take (Z.to_nat n) (header_bytes h ++ drop 16 p)) = n /\
    bytes_ok (slice 0 8 (take (Z.to_nat n) (header_bytes h ++ drop 16 p))).
Proof.
  intros Hh Hp. unfold UDP_HEADER_SIZE, len in *.
  rewrite header_encode_bytes by lia. split; [done|]. intros n Hn. split_and!.
  - rewrite take_app_ge by (rewrite length_header_bytes; lia). by apply header_decode_bytes.
  - rewrite length_take, length_app, length_drop, length_header_bytes. lia.
  - unfold slice. rewrite drop_0, take_take, Nat.min_l by lia. unfold header_bytes.
    rewrite <- app_assoc, take_app_le by (rewrite length_to_be_bytes; lia).
    apply Forall_take, to_be_bytes_ok.
Qed.

Lemma send_one_ok total o b' n s :
  numbered s -> budgeted total s -> budget_spent s = false ->
  claim_datagram (budget s) size = (b', Some n) ->
  numbered (send_one inf o b' n s) /\ budgeted total (send_one inf o b' n s) /\
  budget_spent (send_one inf o b' n s) = false.
Proof.
  intros [Hp Hq Ht Hh] Hb Hs Hc.
  destruct (claim_datagram_spec _ _ _ _ Hb Hs Hc) as (Hn & Hfull & Hbud).
  set (h := UdpPacketHeader.mk (sequence s) (wrap 64 (b_elapsed_us o))).
  assert (Hwf : UdpPacketHeader.wf h)
    by (split; cbn; [rewrite Hq|]; apply wrap_fits; lia).
  destruct (encode_packet h (packet s) Hwf Hp) as [He Hd]. destruct (Hd n Hn) as (Hdec & Hlen & Hbok).
  unfold send_one. fold h. rewrite He. set (pk := header_bytes h ++ drop 16 (packet s)) in *.
  assert (Hpk : len pk = size).
  { unfold pk, len in *. rewrite length_app, length_drop, length_header_bytes.
    unfold UDP_HEADER_SIZE in Hsize. lia. }
  destruct (b_outcome o) as [m|e].
  - split; [constructor|split]; cbn [packet sequence sent_total accepted budget_spent budget]; try done.
    + rewrite Hq, wrap_step, length_app. cbn [length]. f_equal. lia.
    + rewrite Ht, wrap_step, map_app, zsum_app. cbn. f_equal. lia.
    + intros i d k [Hi|[Hi Hk]]%lookup_app_Some; [by apply (Hh i d k)|].
      destruct (i - length (accepted s))%nat as [|j] eqn:Ej; [|by destruct j].
      injection Hk as <- <-. exists h. rewrite Hdec, Hlen. split_and!; try done; try lia.
      unfold h; cbn. rewrite Hq. do 2 f_equal. lia.
    + unfold budgeted, wire_bytes in *. cbn [budget accepted budget_spent].
      rewrite map_app, zsum_app. cbn [map zsum]. rewrite Hlen.
      destruct total as [b0|], (budget s) as [x|], b' as [y|]; try done.
      * destruct Hb as (? & ? & dr & E & Hif). rewrite Hs in *. destruct Hbud as [-> ?].
        split_and!; [done|done|]. exists dr. split; [lia|done].
      * split; [done|]. apply Forall_app. split; [apply Hb|]. apply Forall_singleton.
        rewrite Hlen. by apply Hfull.
  - split; [constructor; done|split; [|done]].
    unfold budgeted, wire_bytes in *. cbn [budget accepted budget_spent].
    unfold ByteBudget.refund_unwritten.
    destruct total as [b0|], (budget s) as [x|], b' as [y|]; try done.
    destruct Hb as (Hb0 & ? & dr & E & Hif). rewrite Hs in *. destruct Hbud as [-> ?].
    assert (Hw : 0 <= zsum (map (fun '(d, _) => len d) (accepted s))).
    { apply zsum_nonneg, Forall_map, Forall_true. intros [d k]. unfold len. cbn. lia. }
    assert (ByteBudget.refund (x - n) (saturating_sub n 0) = x) as ->.
    { unfold ByteBudget.refund, saturating_sub, UDP_HEADER_SIZE in *.
      replace (0 <? Z.max 0 (n - 0)) with true by lia.
      unfold wrapping_add. rewrite wrap_small; [lia|]. unfold fits in *. lia. }
    split_and!; [done|done|]. by exists dr.
Qed.

Lemma mark_spent_ok total b' s :
  numbered s -> budgeted total s -> budget_spent s = false ->
  claim_datagram (budget s) size = (b', None) ->
  numbered (mark_spent b' s) /\ budgeted total (mark_spent b' s).
Proof.
  intros [] Hb Hs Hc. pose proof (claim_datagram_spec _ _ _ _ Hb Hs Hc) as H.
  split; [by constructor|]. unfold budgeted, wire_bytes in *. cbn [mark_spent budget accepted budget_spent].
  destruct (budget s) as [x|], b' as [y|]; try done. destruct total as [b0|]; [|done].
  destruct Hb as (? & ? & dr & E & Hif). rewrite Hs in Hif. destruct H as [-> H].
  split_and!; [done|lia|]. exists x. lia.
Qed.

Lemma burst_ok total n os s :
  numbered s -> budgeted total s -> budget_spent s = false ->
  numbered (burst size inf n os s) /\ budgeted total (burst size inf n os s).
Proof.
  revert os s. induction n as [|n IH]; intros [|o os] s Hn Hb Hs; cbn [burst]; try done.
  destruct (b_stop o); [done|]. destruct (_ && _); [done|].
  destruct (claim_datagram (budget s) size) as [b' [k|]] eqn:Hc.
  - destruct (send_one_ok total o b' k s Hn Hb Hs Hc) as (H1 & H2 & H3). by apply IH.
  - by apply mark_spent_ok.
Qed.

Lemma send_loop_ok total bs os s done s' :
  numbered s -> budgeted total s -> budget_spent s = false ->
  send_loop size inf bs os s = (done, s') ->
  numbered s' /\ budgeted total s' /\ (budget_spent s' = true -> done = true).
Proof.
  revert s. induction os as [|o os IH]; intros s Hn Hb Hs; cbn [send_loop].
  { intros [= <- <-]. by rewrite Hs. }
  destruct o as [|c p|c| |now obs].
  - intros [= <- <-]. done.
  - destruct c; [by intros [= <- <-]|]. apply IH; [by destruct Hn|done|done].
  - destruct c; [by intros [= <- <-]|by apply IH].
  - by apply IH.
  - destruct (_ && _); [by intros [= <- <-]|].
    destruct (burst_ok total bs obs s Hn Hb Hs) as [Hn' Hb'].
    destruct (budget_spent (burst size inf bs obs s)) eqn:E; [by intros [= <- <-]|by apply IH].
Qed.
End sender_facts.

Lemma paced_start rate size start duration payload stats total os stopped s :
  len payload = size - UDP_HEADER_SIZE ->
  match total with Some b => fits 64 b | None => True end ->
  send_udp_paced rate size start duration payload stats total os = Ok (stopped, s) ->
  UDP_HEADER_SIZE <= size <= MAX_UDP_PAYLOAD_SIZE /\
  exists bs, let s0 := start_sender size start duration payload stats total in
    numbered size s0 /\ budgeted size total s0 /\ budget_spent s0 = false /\
    send_loop size (duration =? 0) bs os s0 = (stopped, s).
Proof.
  intros Hp Ht. unfold send_udp_paced, validate_payload_size.
  destruct (_ && _) eqn:E; [|done]. zbool. cbn [rbind]. intros Hl. split; [done|].
  assert (exists bs, send_loop size (duration =? 0) bs os
    (start_sender size start duration payload stats total) = (stopped, s)) as [bs Hbs]
    by (destruct (rate =? 0); injection Hl as Hl; eauto).
  exists bs. cbv zeta. split_and!; [| |done|exact Hbs].
  - constructor; cbn; try done. unfold len in *. rewrite length_app, repeat_length.
    unfold UDP_HEADER_SIZE in *. lia.
  - unfold budgeted. cbn. destruct total; [|by split].
    unfold fits in Ht. split_and!; [done|lia|]. exists 0. unfold wire_bytes. cbn. lia.
Qed.

(** However its sends fail, pause and resume, a sender numbers the
    datagrams the socket accepts consecutively from zero -- a failed send
    leaves no gap for the receiver to count as loss -- and reports exactly
    how many it sent and the bytes the socket took. *)
Theorem sender_numbers_consecutively (rate size start duration : Z) (payload : list Z)
    (stats : StreamStats) (total : option Z) (os : list send_obs) (stopped : bool) (s : sender) :
  len payload = size - UDP_HEADER_SIZE ->
  match total with Some b => fits 64 b | None => True end ->
  send_udp_paced rate size start duration payload stats total os = Ok (stopped, s) ->
  (forall i d n, accepted s !! i = Some (d, n) ->
     exists h, UdpPacketHeader.decode d = Some h /\
       UdpPacketHeader.sequence h = wrap 64 (Z.of_nat i) /\
       UDP_HEADER_SIZE <= len d <= size /\ bytes_ok (slice 0 8 d)) /\
  packets_sent (send_result s) = wrap 64 (Z.of_nat (length (accepted s))) /\
  ss_bytes_sent (send_result s) = wrap 64 (zsum (map snd (accepted s))).
Proof.
  intros Hp Ht Hsend. destruct (paced_start _ _ _ _ _ _ _ _ _ _ Hp Ht Hsend)
    as (Hsize & bs & Hn & Hb & Hs & Hloop).
  destruct (send_loop_ok _ _ Hsize _ _ _ _ _ _ Hn Hb Hs Hloop) as ([] & _ & _). done.
Qed.

(** A byte budget bounds what goes on the wire and is used up to less
    than one header: a stream never puts more bytes on the wire than its
    budget, it ends as soon as the budget is spent, and then at most 15 bytes
    of it were not sent; without a budget every datagram is full size. *)
Theorem sender_spends_budget (rate size start duration : Z) (payload : list Z)
    (stats : StreamStats) (total : option Z) (os : list send_obs) (stopped : bool) (s : sender) :
  len payload = size - UDP_HEADER_SIZE ->
  match total with Some b => fits 64 b | None => True end ->
  send_udp_paced rate size start duration payload stats total os = Ok (stopped, s) ->
  match total with
  | Some b => wire_bytes s <= b /\
      (budget_spent s = true -> stopped = true /\ b - UDP_HEADER_SIZE < wire_bytes s)
  | None => budget_spent s = false /\ Forall (fun '(d, _) => len d = size) (accepted s)
  end.
Proof.
  intros Hp Ht Hsend. destruct (paced_start _ _ _ _ _ _ _ _ _ _ Hp Ht Hsend)
    as (Hsize & bs & Hn & Hb & Hs & Hloop).
  destruct (send_loop_ok _ _ Hsize _ _ _ _ _ _ Hn Hb Hs Hloop) as (_ & Hb' & Hend).
  unfold budgeted in Hb'. destruct total as [b|], (budget s) as [r|]; try done.
  destruct Hb' as (_ & Hr & dr & E & Hif). unfold UDP_HEADER_SIZE in *.
  destruct (budget_spent s); [split; [lia|intros _; split; [by apply Hend|lia]]|].
  split; [lia|done].
Qed.

Definition sample_burst (o : send_outcome) : burst_obs := mkBurst false 10 7 o false 10.

Lemma sender_numbers_consecutively_witness :
  exists s, send_udp_paced 0 20 0 0 [1; 2; 3; 4] (StreamStats.new 0 0) (Some 45)
      [STick 0 [sample_burst (SentBytes 20); sample_burst (SendFailed (txt "x"));
                sample_burst (SentBytes 20); sample_burst (SentBytes 5)]] = Ok (true, s) /\
    packets_sent (send_result s) = wrap 64 (Z.of_nat (length (accepted s))) /\
    length (accepted s) = 2%nat.
Proof.
  eexists. split; [reflexivity|]. split; [|reflexivity].
  refine (proj1 (proj2 (sender_numbers_consecutively 0 20 0 0 [1; 2; 3; 4]
    (StreamStats.new 0 0) (Some 45)
    [STick 0 [sample_burst (SentBytes 20); sample_burst (SendFailed (txt "x"));
              sample_burst (SentBytes 20); sample_burst (SentBytes 5)]] true _ _ _ _)));
    [reflexivity|split; [discriminate|reflexivity]|reflexivity].
Defined.

Lemma sender_spends_budget_witness :
  exists s, send_udp_paced 1000000 20 0 5 [1; 2; 3; 4] (StreamStats.new 0 0) (Some 45)
      [STick 0 [mkBurst false 0 7 (SentBytes 20) false 0];
       STick 1 [mkBurst false 1 8 (SentBytes 20) false 1];
       STick 2 [mkBurst false 2 9 (SentBytes 5) false 2]] = Ok (true, s) /\
    wire_bytes s <= 45 /\ (budget_spent s = true -> true = true /\ 45 - UDP_HEADER_SIZE < wire_bytes s).
Proof.
  eexists. split; [reflexivity|].
  refine (sender_spends_budget 1000000 20 0 5 [1; 2; 3; 4] (StreamStats.new 0 0) (Some 45)
    [STick 0 [mkBurst false 0 7 (SentBytes 20) false 0];
     STick 1 [mkBurst false 1 8 (SentBytes 20) false 1];
     STick 2 [mkBurst false 2 9 (SentBytes 5) false 2]] true _ _ _ _);
    [reflexivity|split; [discriminate|reflexivity]|reflexivity].
Defined.

(** ** What the receiver counts *)
Definition is_sideband (bytes : list Z) : bool :=
  is_feedback_datagram bytes || is_hello_datagram bytes.

(** The data-lane bytes a pass of the loop receives. *)
Definition data_bytes (o : recv_obs) : option (list Z) :=
  match r_paused o, r_event o with
  | None, RDatagram bytes _ =>
    let bytes := take (Z.to_nat MAX_UDP_PAYLOAD_SIZE) bytes in
    if is_sideband bytes then None else Some bytes
  | _, _ => None
  end.
Definition data_sequence (o : recv_obs) : option Z :=
  match data_bytes o with
  | Some bytes => option_map UdpPacketHeader.sequence (UdpPacketHeader.decode bytes)
  | None => None
  end.

Lemma receive_data_spec bytes now s :
  tracker (receive_data bytes now s)
  = (match UdpPacketHeader.decode bytes with
     | Some h => PacketTracker.record (tracker s) (UdpPacketHeader.sequence h)
     | None => tracker s
     end) /\
  bytes_received (recv_stats (receive_data bytes now s))
  = wrapping_add 64 (bytes_received (recv_stats s)) (len bytes) /\
  outbox (receive_data bytes now s) = outbox s.
Proof.
  unfold receive_data, PacketTracker.record. destruct (UdpPacketHeader.decode bytes) as [h|]; [|done].
  destruct (PacketTracker.record_unique _ _) as [t []]; done.
Qed.

Definition counts (t : PacketTracker.t) (received : Z) (s : receiver) : Prop :=
  tracker s = t /\ bytes_received (recv_stats s) = received.

Lemma receive_datagram_counts ack bytes now s :
  let o := mkRecvObs false None (RDatagram bytes now) in
  counts (match data_sequence o with
          | Some q => PacketTracker.record (tracker s) q | None => tracker s end)
    (match data_bytes o with
     | Some bs => wrapping_add 64 (bytes_received (recv_stats s)) (len bs)
     | None => bytes_received (recv_stats s) end)
    (receive_datagram ack bytes now s).
Proof.
  unfold counts, data_sequence, data_bytes, is_sideband, receive_datagram; cbn [r_paused r_event].
  set (bs := take _ bytes).
  destruct (is_feedback_datagram bs); [done|]. destruct (is_hello_datagram bs); [done|]. cbn [orb].
  destruct (receive_data_spec bs now s) as (E1 & E2 & _). rewrite E1, E2.
  split; [|done]. by destruct (UdpPacketHeader.decode bs).
Qed.

Lemma feedback_tick_counts e s :
  counts (tracker s) (bytes_received (recv_stats s)) (feedback_tick e s).
Proof.
  unfold counts, feedback_tick. destruct (_ && _); [|done].
  by destruct (UdpFeedbackPacket.encode _ _) as [[] ?].
Qed.

(** One pass of the live loop: it stops as it was, or goes on with the
    datagram of the pass counted. *)
Lemma receive_pass ack o os s0 :
  receive_loop ack (o :: os) s0 = (true, s0) \/
  exists s1, receive_loop ack (o :: os) s0 = receive_loop ack os s1 /\
    counts (match data_sequence o with
            | Some q => PacketTracker.record (tracker s0) q | None => tracker s0 end)
      (match data_bytes o with
       | Some bs => wrapping_add 64 (bytes_received (recv_stats s0)) (len bs)
       | None => bytes_received (recv_stats s0) end) s1.
Proof.
  cbn [receive_loop]. destruct o as [c p e]; cbn [r_cancelled r_paused r_event].
  destruct c; [by left|]. destruct p as [[[] t]|]; [by left|right; by eexists|].
  destruct e as [bytes now| |stop| |now|e].
  - right. eexists. split; [done|]. apply receive_datagram_counts.
  - right. by eexists.
  - destruct stop; [by left|right; by eexists].
  - right. by eexists.
  - destruct (_ <=? _); [by left|right; by eexists].
  - right. eexists. split; [done|]. apply feedback_tick_counts.
Qed.

Lemma receive_loop_app ack os1 os2 s0 :
  receive_loop ack (os1 ++ os2) s0
  = let '(stopped, s) := receive_loop ack os1 s0 in
    if stopped then (true, s) else receive_loop ack os2 s.
Proof.
  revert s0. induction os1 as [|o os1 IH]; intros s0; [done|].
  cbn [app receive_loop]. destruct o as [c p e]; cbn [r_cancelled r_paused r_event].
  destruct c; [done|]. destruct p as [[[] t]|]; [done|apply IH|].
  destruct e as [bytes now| |stop| |now|e]; try apply IH.
  - destruct stop; [done|apply IH].
  - destruct (_ <=? _); [done|apply IH].
Qed.

Lemma receive_loop_counts ack os s0 stopped s :
  receive_loop ack os s0 = (stopped, s) ->
  exists os1 os2, os = os1 ++ os2 /\ (stopped = false -> os2 = []) /\
    counts (PacketTracker.record_all (tracker s0) (omap data_sequence os1))
      (fold_left (wrapping_add 64) (map len (omap data_bytes os1))
         (bytes_received (recv_stats s0))) s.
Proof.
  revert s0. induction os as [|o os IH]; intros s0.
  - intros [= <- <-]. by exists [], [].
  - destruct (receive_pass ack o os s0) as [E|(s1 & E & Ht & Hb)]; rewrite E.
    + intros [= <- <-]. by exists [], (o :: os).
    + intros (os1 & os2 & -> & Hnil & H)%IH. exists (o :: os1), os2. split; [done|]. split; [done|].
      rewrite Ht, Hb in H. unfold counts, PacketTracker.record_all in *.
      cbn [omap list_omap]. cbn. unfold data_sequence in H |- *.
      destruct (data_bytes o) as [bs|]; [|done].
      by destruct (UdpPacketHeader.decode bs).
Qed.

(** The receiver counts exactly the data it was sent: after any live run
    the sequence tracker has been fed the numbers of the data-lane datagrams
    received so far, in order, and nothing else, and the byte count is their
    total; feedback and hello datagrams, errors, pauses and timers move
    neither. *)
Theorem receiver_counts_data (ack : option (list Z)) (now : Z) (stats : StreamStats)
    (os : list recv_obs) (stopped : bool) (s : receiver) :
  receive_loop ack os (start_receiver now stats) = (stopped, s) ->
  exists os1 os2, os = os1 ++ os2 /\ (stopped = false -> os2 = []) /\
    tracker s = PacketTracker.record_all PacketTracker.new (omap data_sequence os1) /\
    bytes_received (recv_stats s)
    = fold_left (wrapping_add 64) (map len (omap data_bytes os1)) (bytes_received stats).
Proof.
  intros H. destruct (receive_loop_counts _ _ _ _ _ H) as (os1 & os2 & E1 & E2 & E3 & E4).
  exists os1, os2. by split_and!.
Qed.

(** ** From sender to receiver *)
Notation size_of := stdpp.base.size (only parsing).

(** The numbers of a sender stay below the two magics of the sideband. *)
Lemma sideband_beyond d h :
  UdpPacketHeader.decode d = Some h -> bytes_ok (slice 0 8 d) -> is_sideband d = true ->
  2 ^ 48 <= UdpPacketHeader.sequence h.
Proof.
  unfold UdpPacketHeader.decode. destruct (Z.ltb_spec (len d) UDP_HEADER_SIZE); [done|].
  intros [= <-]. cbn [UdpPacketHeader.sequence]. unfold UDP_HEADER_SIZE, len in *.
  destruct d as [|b0 [|b1 [|b2 [|b3 [|b4 [|b5 [|b6 [|b7 d]]]]]]]]; cbn [length] in *; try lia.
  unfold slice. cbn [Nat.sub drop take]. rewrite take_0.
  intros Hok Hside. unfold bytes_ok in Hok. repeat (apply Forall_cons in Hok as [? Hok]).
  unfold is_byte, from_be_bytes in *. cbn [rev app]. unfold from_le_bytes.
  assert (Hm : b0 = 88 \/ b1 = 88).
  { unfold is_sideband, is_feedback_datagram, is_hello_datagram in Hside.
    apply orb_true_iff in Hside as [[_ Hm]%andb_true_iff|[_ Hm]%andb_true_iff];
      apply bool_decide_eq_true in Hm; unfold slice in Hm; cbn [Nat.sub drop take] in Hm;
      injection Hm as -> -> _ _; auto. }
  destruct Hm as [-> | ->]; lia.
Qed.

Lemma data_not_sideband d h :
  UdpPacketHeader.decode d = Some h -> UdpPacketHeader.sequence h < 2 ^ 48 ->
  bytes_ok (slice 0 8 d) -> is_sideband d = false.
Proof.
  intros Hd Hs Hok. apply not_true_iff_false. intros Hside.
  pose proof (sideband_beyond d h Hd Hok Hside). lia.
Qed.

(** What the receiver meets: a datagram of the sender, by its place in what the
    sender sent, or anything else that is not on the data lane -- timers, socket
    errors, pauses, sideband and short datagrams. *)
Inductive happening {O : Type} := Arrives (i : nat) (now : Z) | Else (o : O).
Arguments happening : clear implicits.
Definition number_of {O} (h : happening O) : option Z :=
  match h with Arrives i _ => Some (Z.of_nat i) | Else _ => None end.
Definition arrived {O} (hs : list (happening O)) : list Z := omap number_of hs.

Section delivery.
Variable wire : list (list Z * Z).
Definition datagram_at (i : nat) : list Z := default [] (option_map fst (wire !! i)).

Definition observe (h : happening recv_obs) : recv_obs :=
  match h with Arrives i now => mkRecvObs false None (RDatagram (datagram_at i) now) | Else o => o end.
Definition possible (h : happening recv_obs) : Prop :=
  match h with Arrives i _ => (i < length wire)%nat | Else o => data_sequence o = None end.

Definition observe_tail (h : happening drain_event) : drain_event :=
  match h with Arrives i now => DDatagram (datagram_at i) now | Else e => e end.
Definition possible_tail (h : happening drain_event) : Prop :=
  match h with
  | Arrives i _ => (i < length wire)%nat
  | Else (DDatagram bytes _) =>
    let bytes := take (Z.to_nat MAX_UDP_PAYLOAD_SIZE) bytes in
    bytes_ok bytes /\ (is_sideband bytes = true \/ UdpPacketHeader.decode bytes = None)
  | Else DError => True
  end.
End delivery.

Lemma arrived_nonneg {O} (hs : list (happening O)) q : q ∈ arrived hs -> 0 <= q.
Proof. intros ([i t|o] & _ & [= <-])%list_elem_of_omap. lia. Qed.

(** The stragglers that still count when [newest] is the newest number. *)
Definition counted_late (newest : Z) (l : list Z) : gset Z :=
  list_to_set (filter (fun q => newest - 65536 < q < newest) l).

Lemma drain_datagram_tracker bytes now r :
  tracker (drain_datagram bytes now r)
  = match UdpPacketHeader.decode (take (Z.to_nat MAX_UDP_PAYLOAD_SIZE) bytes) with
    | Some h => (PacketTracker.record_straggler (tracker r) (UdpPacketHeader.sequence h)).1
    | None => tracker r
    end.
Proof.
  unfold drain_datagram. destruct (UdpPacketHeader.decode _) as [h|]; [|done].
  by destruct (PacketTracker.record_straggler _ _) as [t []].
Qed.

Section numbers.
Context (size : Z) (s : sender).
Hypotheses (Hsize : UDP_HEADER_SIZE <= size <= MAX_UDP_PAYLOAD_SIZE)
  (Hlen : Z.of_nat (length (accepted s)) <= 2 ^ 48) (Hnum : numbered size s).

Lemma datagram_number i :
  (i < length (accepted s))%nat ->
  exists h, let d := datagram_at (accepted s) i in
    take (Z.to_nat MAX_UDP_PAYLOAD_SIZE) d = d /\ UdpPacketHeader.decode d = Some h /\
    UdpPacketHeader.sequence h = Z.of_nat i /\ is_sideband d = false.
Proof using Hsize Hlen Hnum.
  intros Hi. destruct (lookup_lt_is_Some_2 (accepted s) i Hi) as [[x n] Hx].
  destruct (n_header _ _ Hnum i x n Hx) as (h & Hdec & Hseq & Hl & Hok).
  rewrite wrap_small in Hseq by (unfold fits; lia). exists h. cbv zeta.
  assert (datagram_at (accepted s) i = x) as -> by (unfold datagram_at; by rewrite Hx).
  split_and!; [|done|done|].
  - apply take_ge. unfold len, MAX_UDP_PAYLOAD_SIZE in *. lia.
  - apply (data_not_sideband x h Hdec); [lia|done].
Qed.

Lemma observed_number i now :
  (i < length (accepted s))%nat ->
  data_sequence (observe (accepted s) (Arrives i now)) = Some (Z.of_nat i).
Proof using Hsize Hlen Hnum.
  intros Hi. destruct (datagram_number i Hi) as (h & Ht & Hd & Hq & Hs).
  unfold data_sequence, data_bytes, observe. cbn [r_paused r_event].
  rewrite Ht, Hs, Hd. cbn [option_map]. by rewrite Hq.
Qed.

Lemma observed_numbers hs :
  Forall (possible (accepted s)) hs ->
  omap data_sequence (map (observe (accepted s)) hs) = arrived hs /\
  Forall (fun q => 0 <= q < 2 ^ 48) (arrived hs).
Proof using Hsize Hlen Hnum.
  induction 1 as [|[i t|o] hs Hh _ [IH1 IH2]]; [done| |].
  - cbn [possible] in Hh. unfold arrived in *. cbn [map]. cbn [omap list_omap number_of].
    rewrite (observed_number i t Hh). split; [by rewrite <- IH1|]. constructor; [lia|done].
  - cbn [possible] in Hh. unfold arrived in *. cbn [map]. cbn [omap list_omap number_of observe].
    by rewrite Hh.
Qed.

(** One pass of the drain. *)
Lemma drain_one e r a newest :
  TrackerRefinement.Rep (tracker r) a -> TrackerSpec.highest a = Some newest -> newest < 2 ^ 48 ->
  possible_tail (accepted s) e ->
  exists r' a', (forall es, 0 < PacketTracker.lost (tracker r) ->
      drain (observe_tail (accepted s) e :: es) r = drain es r') /\
    TrackerRefinement.Rep (tracker r') a' /\ TrackerSpec.highest a' = Some newest /\
    TrackerSpec.accepted a' = TrackerSpec.accepted a ∪ counted_late newest (arrived [e]).
Proof using Hsize Hlen Hnum.
  intros R Eh Hn Hp. unfold counted_late, arrived.
  destruct e as [i now|[bytes now|]]; cbn [observe_tail possible_tail] in *; cbn [omap list_omap number_of].
  - destruct (datagram_number i Hp) as (h & Ht & Hd & Hq & _).
    exists (drain_datagram (datagram_at (accepted s) i) now r), (TrackerSpec.straggle a (Z.of_nat i)).1.
    destruct (straggle_accepts a newest (Z.of_nat i) Eh) as [H1 H2].
    split_and!; [intros es Hl; cbn [drain]; by rewrite (proj2 (Z.ltb_lt _ _) Hl)| |done|].
    + rewrite drain_datagram_tracker, Ht, Hd, Hq.
      apply TrackerRefinement.straggle_refines; [done|]. unfold fits. lia.
    + rewrite H2. case_bool_decide as E.
      * rewrite filter_cons_True by done. cbn. set_solver.
      * rewrite filter_cons_False by done. cbn. set_solver.
  - exists (drain_datagram bytes now r), a.
    split_and!; [intros es Hl; cbn [drain]; by rewrite (proj2 (Z.ltb_lt _ _) Hl)| |done|cbn; set_solver].
    rewrite drain_datagram_tracker. destruct Hp as [Hok [Hside|Hd]]; [|by rewrite Hd].
    destruct (UdpPacketHeader.decode _) as [h|] eqn:Hd; [|done].
    pose proof (sideband_beyond _ h Hd ltac:(by apply Forall_take, Forall_drop) Hside).
    unfold PacketTracker.record_straggler. rewrite (TrackerRefinement.rep_highest _ _ R), Eh.
    by replace (_ <? newest) with false by lia.
  - exists r, a. split_and!; [intros es Hl; cbn [drain]; by rewrite (proj2 (Z.ltb_lt _ _) Hl)|done|done|].
    cbn. set_solver.
Qed.

Lemma drain_counts es r a newest :
  TrackerRefinement.Rep (tracker r) a -> TrackerSpec.highest a = Some newest -> newest < 2 ^ 48 ->
  Forall (possible_tail (accepted s)) es ->
  exists a', TrackerRefinement.Rep (tracker (drain (map (observe_tail (accepted s)) es) r)) a' /\
    TrackerSpec.highest a' = Some newest /\
    TrackerSpec.accepted a' = TrackerSpec.accepted a ∪ counted_late newest (arrived es).
Proof using Hsize Hlen Hnum.
  intros R Eh Hn Hes. revert r a R Eh. induction Hes as [|e es He Hes IH]; intros r a R Eh.
  - exists a. assert (drain (map (observe_tail (accepted s)) []) r = r) as ->
      by (cbn; by destruct (_ <? _)).
    split_and!; [done|done|]. unfold counted_late. cbn. set_solver.
  - destruct (Z.ltb_spec 0 (PacketTracker.lost (tracker r))) as [Hl|Hl].
    + destruct (drain_one e r a newest R Eh Hn He) as (r1 & a1 & Hstep & R1 & Eh1 & Ea1).
      destruct (IH r1 a1 R1 Eh1) as (a' & R' & Eh' & Ea'). exists a'. cbn [map].
      rewrite Hstep by done. split_and!; [done|done|].
      rewrite Ea', Ea1. unfold counted_late, arrived.
      change (omap number_of (e :: es)) with (omap number_of ([e] ++ es)).
      rewrite omap_app, filter_app, list_to_set_app_L. set_solver.
    + exists a. assert (drain (map (observe_tail (accepted s)) (e :: es)) r = r) as ->
        by (cbn [map drain]; by rewrite (proj2 (Z.ltb_ge _ _) Hl)).
      split_and!; [done|done|]. symmetry. rewrite (union_comm_L _ (counted_late _ _)). apply subseteq_union_1_L.
      intros q Hq. apply elem_of_list_to_set, list_elem_of_filter in Hq as [Hq Hin].
      pose proof (arrived_nonneg _ _ Hin). apply (rep_complete _ _ newest q R Eh); lia.
Qed.

(** The live loop stops at the pass [last], with what came before it counted. *)
Lemma stopped_after ack now rstats hs last r :
  Forall (possible (accepted s)) hs ->
  (receive_loop ack (map (observe (accepted s)) hs) (start_receiver now rstats)).1 = false ->
  receive_loop ack (map (observe (accepted s)) hs ++ [last]) (start_receiver now rstats) = (true, r) ->
  tracker r = PacketTracker.record_all PacketTracker.new (arrived hs).
Proof using Hsize Hlen Hnum.
  intros Hhs Hlive Hrun. destruct (observed_numbers hs Hhs) as [<- _].
  revert Hlive Hrun. change PacketTracker.new with (tracker (start_receiver now rstats)).
  generalize (start_receiver now rstats). generalize (map (observe (accepted s)) hs). clear.
  intros os r0. rewrite receive_loop_app.
  destruct (receive_loop ack os r0) as [st r1] eqn:E. cbn [fst]. intros -> Hrun.
  destruct (receive_loop_counts _ _ _ _ _ E) as (os1 & os2 & -> & Hnil & Ht & _).
  rewrite (Hnil eq_refl), app_nil_r. rewrite <- Ht.
  destruct (receive_pass ack last [] r1) as [E2|(r2 & E2 & _)]; rewrite E2 in Hrun; [|done].
  by injection Hrun as <-.
Qed.
End numbers.

(** Before any datagram there is nothing to drain, and nothing to report. *)
Lemma tracker_empty t a :
  TrackerRefinement.Rep t a -> TrackerSpec.highest a = None ->
  PacketTracker.received t = 0 /\ PacketTracker.lost t = 0.
Proof.
  intros R Eh. rewrite (TrackerRefinement.rep_received _ _ R), (TrackerRefinement.rep_lost _ _ R).
  destruct (TrackerRefinement.rep_wf _ _ R) as (_ & _ & _ & Hw).
  unfold TrackerSpec.missing, TrackerSpec.expected. rewrite Eh in *. rewrite Hw, size_empty.
  by cbn.
Qed.
Lemma drain_nothing es r a :
  TrackerRefinement.Rep (tracker r) a -> TrackerSpec.highest a = None -> drain es r = r.
Proof. intros R Eh. destruct (tracker_empty _ a R Eh) as [_ E]. destruct es; cbn; by rewrite E. Qed.
Lemma receive_nothing r a :
  TrackerRefinement.Rep (tracker r) a -> TrackerSpec.highest a = None ->
  let u := (receive_result r).1 in
  us_packets_received u = 0 /\ us_packets_sent u = 0 /\ us_lost u = 0.
Proof.
  intros R Eh. destruct (tracker_empty _ a R Eh) as [E1 E2].
  unfold receive_result, tracker_stats. cbn [fst us_packets_received us_packets_sent us_lost].
  by rewrite E1, E2.
Qed.

(** What [receive_udp] returns says of a tracker that represents [a]. *)
Lemma receive_result_counts r a newest :
  TrackerRefinement.Rep (tracker r) a -> TrackerSpec.highest a = Some newest -> newest < 2 ^ 48 ->
  let u := (receive_result r).1 in
  us_packets_received u = Z.of_nat (size_of (TrackerSpec.accepted a)) /\
  us_packets_sent u = newest + 1 /\
  us_lost u = Z.of_nat (size_of ((list_to_set (seqZ 0 (newest + 1)) : gset Z) ∖ TrackerSpec.accepted a)).
Proof.
  intros R Eh Hn. destruct (TrackerRefinement.rep_facts _ _ _ R Eh) as (_ & _ & Hr & Hsz & Hl & _).
  rewrite size_difference, size_list_to_set, length_seqZ by
    (apply NoDup_seqZ || (intros q Hq%Hr; apply elem_of_list_to_set, elem_of_seqZ; lia)).
  unfold receive_result, tracker_stats. cbn [fst us_packets_received us_packets_sent us_lost].
  rewrite (TrackerRefinement.rep_received _ _ R), Hl. unfold saturating_add, u64_max. split_and!; lia.
Qed.

(** C10. End to end, the numbers are right: when any sender's datagrams reach
    the receiver reordered, some lost and some repeated, with timers, errors,
    pauses and sideband datagrams in between, and then in its tail drain, the
    receiver reports every distinct datagram once, infers the count up to the
    newest, and reports as lost exactly those up to the newest that it never
    took.  Live datagrams may come in any order that stays within the
    tracker's window of 65536 around the newest so far; the drain takes a
    straggler of the last window and nothing else; a run in which no datagram
    arrived reports nothing sent and nothing lost. *)
Theorem end_to_end_counts (rate size start duration : Z) (payload : list Z)
    (stats rstats : StreamStats) (total : option Z) (sends : list send_obs) (stopped : bool)
    (s : sender) (ack : option (list Z)) (now : Z) (hs : list (happening recv_obs))
    (last : recv_obs) (tail : list (happening drain_event)) (u : UdpStats) (n : Z) (r : receiver) :
  len payload = size - UDP_HEADER_SIZE ->
  match total with Some b => fits 64 b | None => True end ->
  send_udp_paced rate size start duration payload stats total sends = Ok (stopped, s) ->
  Z.of_nat (length (accepted s)) <= 2 ^ 48 ->
  Forall (possible (accepted s)) hs -> Forall (possible_tail (accepted s)) tail ->
  near None (arrived hs) ->
  (receive_loop ack (map (observe (accepted s)) hs) (start_receiver now rstats)).1 = false ->
  receive_udp ack now rstats (map (observe (accepted s)) hs ++ [last])
    (map (observe_tail (accepted s)) tail) = Some (u, n, r) ->
  match max_seq (arrived hs) with
  | None => us_packets_received u = 0 /\ us_packets_sent u = 0 /\ us_lost u = 0
  | Some newest =>
    let taken := list_to_set (arrived hs) ∪ counted_late newest (arrived tail) in
    us_packets_received u = Z.of_nat (size_of taken) /\
    us_packets_sent u = newest + 1 /\
    us_lost u = Z.of_nat (size_of ((list_to_set (seqZ 0 (newest + 1)) : gset Z) ∖ taken))
  end.
Proof.
  intros Hp Ht Hsend Hlen Hhs Htail Hnear Hlive Hrun.
  destruct (paced_start _ _ _ _ _ _ _ _ _ _ Hp Ht Hsend) as (Hsize & bs & Hn & Hb & Hs & Hloop).
  destruct (send_loop_ok _ _ Hsize _ _ _ _ _ _ Hn Hb Hs Hloop) as (Hnum & _ & _).
  unfold receive_udp in Hrun. destruct (receive_loop ack (_ ++ [last]) _) as [[] r1] eqn:E1; [|done].
  apply (stopped_after size s Hsize Hlen Hnum) in E1; [|done..].
  destruct (observed_numbers size s Hsize Hlen Hnum hs Hhs) as [_ Hnums].
  destruct (record_all_near (arrived hs) PacketTracker.new TrackerSpec.init
    TrackerRefinement.rep_new) as (a & R & Ea & Eh); [|done|].
  { eapply Forall_impl; [exact Hnums|]. cbn. unfold fits. lia. }
  rewrite <- E1 in R. cbn [TrackerSpec.init TrackerSpec.accepted TrackerSpec.highest] in Ea, Eh.
  rewrite (left_id_L ∅ (∪)) in Ea. unfold max_seq. rewrite <- Eh.
  apply (f_equal (option_map (fun x => x.1.1))) in Hrun. cbn [option_map fst] in Hrun.
  apply (inj Some) in Hrun. destruct (TrackerSpec.highest a) as [newest|] eqn:Ehi.
  - assert (Hnew : newest < 2 ^ 48).
    { destruct (TrackerRefinement.rep_facts _ _ _ R Ehi) as (_ & Hin & _). rewrite Ea in Hin.
      apply elem_of_list_to_set in Hin. rewrite Forall_forall in Hnums.
      by apply Hnums in Hin as []. }
    destruct (drain_counts size s Hsize Hlen Hnum tail r1 a newest R Ehi Hnew Htail)
      as (a' & R' & Eh' & Ea').
    pose proof (receive_result_counts _ _ _ R' Eh' Hnew) as H.
    rewrite Ea', Ea in H. by rewrite Hrun in H.
  - rewrite (drain_nothing _ r1 a R Ehi) in Hrun.
    pose proof (receive_nothing r1 a R Ehi) as H. by rewrite Hrun in H.
Qed.

Lemma receiver_counts_data_witness :
  exists os1 os2, [mkRecvObs false None (RDatagram [88; 70] 3); mkRecvObs true None RError]
      = os1 ++ os2 /\ (true = false -> os2 = []) /\
    tracker (receive_loop None
      [mkRecvObs false None (RDatagram [88; 70] 3); mkRecvObs true None RError]
      (start_receiver 0 (StreamStats.new 0 0))).2
    = PacketTracker.record_all PacketTracker.new (omap data_sequence os1).
Proof.
  destruct (receiver_counts_data None 0 (StreamStats.new 0 0)
    [mkRecvObs false None (RDatagram [88; 70] 3); mkRecvObs true None RError] true
    (receive_loop None [mkRecvObs false None (RDatagram [88; 70] 3); mkRecvObs true None RError]
      (start_receiver 0 (StreamStats.new 0 0))).2 eq_refl)
    as (os1 & os2 & H1 & H2 & H3 & _).
  exists os1, os2. exact (conj H1 (conj H2 H3)).
Defined.

Definition sample_burst_full : list send_obs :=
  [STick 0 [sample_burst (SentBytes 20); sample_burst (SentBytes 20); sample_burst (SentBytes 20)]].

(** Three datagrams are sent; the third comes first and twice, then the timer
    fires, and the first is caught by the drain. *)
Definition sample_tail : list (happening drain_event) := [Else DError; Arrives 0 9].
Definition sample_live : list (happening recv_obs) :=
  [Arrives 2 5; Else (mkRecvObs false None (RFeedbackTick 1)); Arrives 2 7].

Lemma end_to_end_counts_witness :
  exists s u n r, send_udp_paced 0 20 0 0 [1; 2; 3; 4] (StreamStats.new 0 0) None sample_burst_full
      = Ok (false, s) /\
    receive_udp None 0 (StreamStats.new 0 0)
      (map (observe (accepted s)) sample_live ++ [mkRecvObs true None RError])
      (map (observe_tail (accepted s)) sample_tail) = Some (u, n, r) /\
    us_packets_received u = 2 /\ us_packets_sent u = 3 /\ us_lost u = 1.
Proof.
  eexists _, _, _, _. split; [reflexivity|]. split; [vm_compute; reflexivity|].
  refine (end_to_end_counts 0 20 0 0 [1; 2; 3; 4] (StreamStats.new 0 0) (StreamStats.new 0 0)
    None sample_burst_full false _ None 0 sample_live (mkRecvObs true None RError) sample_tail
    _ _ _ eq_refl I eq_refl _ _ _ _ _ eq_refl).
  - vm_compute. discriminate.
  - repeat constructor.
  - repeat constructor.
  - vm_compute. repeat split; discriminate.
  - vm_compute. reflexivity.
Defined.

(** ** Feedback slots *)
Lemma feedback_datagram_spec idx slots d :
  length (feedback_datagram idx slots d) = length slots /\
  (forall j, j <> idx -> feedback_datagram idx slots d !! j = slots !! j) /\
  (forall old new, slots !! idx = Some old -> feedback_datagram idx slots d !! idx = Some new ->
     UdpIntervalProgress.is_at_least_as_fresh_as new old = true).
Proof.
  assert (Hsame : forall old new, slots !! idx = Some old -> slots !! idx = Some new ->
    UdpIntervalProgress.is_at_least_as_fresh_as new old = true).
  { intros old new -> [= ->]. unfold UdpIntervalProgress.is_at_least_as_fresh_as.
    by rewrite !Z.leb_refl. }
  unfold feedback_datagram. destruct (negb (_ =? _)); [done|].
  destruct (UdpFeedbackPacket.decode _) as [pkt|]; [|done].
  unfold store_udp_feedback. destruct (negb (_ =? _)); [done|].
  destruct (slots !! idx) as [slot|] eqn:Es; cbn [fst]; [|by rewrite Es].
  destruct (UdpIntervalProgress.is_at_least_as_fresh_as (to_progress pkt) slot) eqn:Ef;
    cbn [negb fst]; [|by rewrite Es].
  split_and!.
  - apply length_insert.
  - intros j Hj. by apply list_lookup_insert_ne.
  - intros old new [= <-]. rewrite list_lookup_insert_eq by by eapply lookup_lt_Some.
    by intros [= <-].
Qed.

(** Receiver feedback only ever moves forward and only in its own slot:
    whatever datagrams reach the sending client -- replayed, reordered, for
    another stream, or not feedback at all -- the other streams' slots are
    untouched and its own ends at least as fresh as it began. *)
Theorem feedback_moves_forward (idx : nat) (slots : list UdpIntervalProgress.t)
    (datagrams : list (list Z)) :
  let slots' := receive_udp_feedback_only idx slots datagrams in
  length slots' = length slots /\
  (forall j, j <> idx -> slots' !! j = slots !! j) /\
  (forall old, slots !! idx = Some old ->
     exists new, slots' !! idx = Some new /\
       UdpIntervalProgress.is_at_least_as_fresh_as new old = true).
Proof.
  cbv zeta. unfold receive_udp_feedback_only. revert slots.
  induction datagrams as [|d ds IH]; intros slots; cbn [fold_left].
  - split_and!; [done|done|]. intros old E. exists old. split; [done|].
    unfold UdpIntervalProgress.is_at_least_as_fresh_as. by rewrite !Z.leb_refl.
  - destruct (feedback_datagram_spec idx slots d) as (H1 & H2 & H3).
    destruct (IH (feedback_datagram idx slots d)) as (E1 & E2 & E3).
    split_and!; [congruence|intros j Hj; by rewrite E2, H2|].
    intros old Hold. assert (idx < length (feedback_datagram idx slots d))%nat as Hlt
      by (rewrite H1; by eapply lookup_lt_Some).
    destruct (lookup_lt_is_Some_2 _ _ Hlt) as [mid Hmid].
    destruct (E3 mid Hmid) as (new & Hnew & Hf). exists new. split; [done|].
    eapply fresh_trans; [exact Hf|by apply H3].
Qed.

Lemma feedback_moves_forward_witness :
  exists new, receive_udp_feedback_only 0 [UdpIntervalProgress.mk 5 1]
      [feedback_bytes (UdpFeedbackPacket.mk 0 9 7 0); feedback_bytes (UdpFeedbackPacket.mk 0 8 4 3)]
      !! 0%nat = Some new /\
    UdpIntervalProgress.is_at_least_as_fresh_as new (UdpIntervalProgress.mk 5 1) = true.
Proof.
  destruct (feedback_moves_forward 0 [UdpIntervalProgress.mk 5 1]
    [feedback_bytes (UdpFeedbackPacket.mk 0 9 7 0); feedback_bytes (UdpFeedbackPacket.mk 0 8 4 3)])
    as (_ & _ & H).
  exact (H (UdpIntervalProgress.mk 5 1) eq_refl).
Defined.

(** ** The handshake *)
Definition hello_lane (d : list Z) : bool :=
  is_hello_datagram (take (Z.to_nat MAX_UDP_PAYLOAD_SIZE) d).

(** What completes a handshake. *)
Definition completes (token : list Z) (idx : Z) (peeks : list (option (list Z)))
    (consumed : list (list Z)) : Prop :=
  (exists d, last consumed = Some d /\
     ack_matches token idx (take (Z.to_nat MAX_UDP_PAYLOAD_SIZE) d) = true) \/
  (exists d, Some d ∈ peeks /\ hello_lane d = false).

Lemma peek_loop_spec token idx peeks v consumed :
  peek_loop token idx peeks = (v, consumed) ->
  Forall (fun d => hello_lane d = true) consumed /\
  (v = Some (Ok tt) -> completes token idx peeks consumed) /\
  (v = None -> Forall (fun p => exists d, p = Some d /\ hello_lane d = true /\
     ack_matches token idx (take (Z.to_nat MAX_UDP_PAYLOAD_SIZE) d) = false) peeks).
Proof.
  revert v consumed. induction peeks as [|[d|] peeks IH]; intros v consumed; cbn [peek_loop].
  - by intros [= <- <-].
  - fold (hello_lane d). destruct (hello_lane d) eqn:El.
    + destruct (ack_matches _ _ _) eqn:Ea.
      * intros [= <- <-]. split_and!; [by apply Forall_singleton| |done]. intros _. left. by exists d.
      * destruct (peek_loop token idx peeks) as [v1 c1] eqn:Ep. intros [= <- <-].
        destruct (IH v1 c1 eq_refl) as (H1 & H2 & H3).
        split_and!; [by constructor| |].
        { intros Hv. destruct (H2 Hv) as [(x & Hx & ?)|(x & ? & ?)].
          - left. exists x. split; [|done]. by destruct c1.
          - right. exists x. split; [by right|done]. }
        { intros Hv. constructor; [by exists d|by apply H3]. }
    + intros [= <- <-]. split_and!; [done| |done]. intros _. right. exists d. split; [by left|done].
  - by intros [= <- <-].
Qed.

(** The handshake never eats test data and only completes for cause: it
    consumes nothing but hello-lane datagrams, succeeds only on the ack of
    this token and stream or on traffic that proves the hello was routed
    (which stays queued), and gives up exactly when fifty hellos brought
    nothing but foreign hello-lane packets. *)
Theorem handshake_sound (token : list Z) (idx : Z) (attempts : list hello_attempt)
    (v : result unit handshake_error) (consumed : list (list Z)) :
  single_port_udp_handshake token idx attempts = (v, consumed) ->
  Forall (fun d => hello_lane d = true) consumed /\
  (v = Ok tt -> completes token idx (concat (map h_peeks attempts)) consumed) /\
  ((length attempts = UDP_HELLO_MAX_ATTEMPTS)%nat -> v = Err HandshakeTimedOut ->
     Forall (fun p => exists d, p = Some d /\ hello_lane d = true /\
       ack_matches token idx (take (Z.to_nat MAX_UDP_PAYLOAD_SIZE) d) = false)
       (concat (map h_peeks attempts))).
Proof.
  unfold single_port_udp_handshake. generalize UDP_HELLO_MAX_ATTEMPTS as n.
  intros n. revert n v consumed.
  induction attempts as [|[sent peeks] attempts IH]; intros [|n] v consumed; cbn [handshake_loop];
    try (intros [= <- <-]; by split_and!).
  destruct sent; [cbn [h_sent negb]|by intros [= <- <-]].
  cbn [h_peeks map concat].
  destruct (peek_loop token idx peeks) as [[v1|] c1] eqn:Ep;
    destruct (peek_loop_spec _ _ _ _ _ Ep) as (H1 & H2 & H3).
  - intros [= <- <-]. split_and!; [done| |].
    + intros ->. destruct (H2 eq_refl) as [?|(d & ? & ?)]; [by left|right].
      exists d. split; [apply elem_of_app; by left|done].
    + intros _ ->. exfalso. clear -Ep. revert c1 Ep.
      induction peeks as [|[d|] peeks IH]; intros c1; cbn [peek_loop]; try done.
      destruct (is_hello_datagram _); [|done]. destruct (ack_matches _ _ _); [done|].
      destruct (peek_loop token idx peeks) as [v2 c2] eqn:E. intros [= -> <-]. by eapply IH.
  - destruct (handshake_loop n token idx attempts) as [v2 c2] eqn:Eh. intros [= <- <-].
    destruct (IH n v2 c2 Eh) as (G1 & G2 & G3). split_and!.
    + by apply Forall_app.
    + intros ->. destruct (G2 eq_refl) as [(d & Hd & ?)|(d & ? & ?)].
      * left. exists d. split; [|done]. rewrite last_app, Hd. done.
      * right. exists d. split; [apply elem_of_app; by right|done].
    + intros Hlen ->. apply Forall_app. split; [by apply H3|]. apply G3; [cbn in Hlen; lia|done].
Qed.

Lemma handshake_sound_witness :
  completes (repeat 1 16) 0 [Some [1; 2; 3]] [].
Proof.
  refine (proj1 (proj2 (handshake_sound (repeat 1 16) 0 [mkAttempt true [Some [1; 2; 3]]]
    (Ok tt) [] _)) _); reflexivity.
Defined.
