(* ===== verification/Reporting.v ===== *)
(** * The reporting loop of a test (src/src/serve/reporting.rs, src/src/serve.rs)

    One task samples the counters, obeys control commands and writes frames to
    a connection that may take them slowly or not at all.  The loop is a step
    function over events: which arm of the [select!] fired, the clock at the
    top of the pass and at the event, and what the writer accepted.  [wire]
    records the bytes the connection took. *)
From S2P Require Import Prelude Bytes Text Float ControlCrypto Protocol Stats.

(** Nanoseconds. *)
Definition STATS_INTERVAL : Z := 1000000000.
Definition FINISH_DRAIN_GRACE : Z := 10000000000.
Definition FINISH_DRAIN_GRACE_UDP : Z := 250000000.
Definition CANCEL_FLUSH_TIMEOUT : Z := 3000000000.
Definition RESULT_FLUSH_TIMEOUT : Z := 30000000000.

Inductive ControlCommand := CmdCancel | CmdPause | CmdResume | CmdFinish.

Definition budget_transfer_complete (d : Direction) (client_finished server_send_done : bool) : bool :=
  match d with
  | Upload => client_finished
  | Download => server_send_done
  | Bidir => client_finished && server_send_done
  end.

Definition finish_drain_grace (p : Protocol) : Z :=
  match p with Udp => FINISH_DRAIN_GRACE_UDP | Tcp | Quic => FINISH_DRAIN_GRACE end.

(** The control reader's mapping of a message to a command of this test. *)
Definition command_of (id : str) (m : ControlMessage) : option ControlCommand :=
  match m with
  | Cancel cid _ => if str_eqb cid id then Some CmdCancel else None
  | Pause pid => if str_eqb pid id then Some CmdPause else None
  | Finish fid => if str_eqb fid id then Some CmdFinish else None
  | Resume rid => if str_eqb rid id then Some CmdResume else None
  | _ => None
  end.

(** What the reader task makes of the lines it reads, until it stops. *)
Section control_reader.
Variables (from_str : str -> option ControlMessage) (id : str).

Fixpoint control_reader (lines : list (result str unit)) : list ControlCommand :=
  match lines with
  | [] => []
  | Err _ :: _ => []
  | Ok line :: lines =>
    match Text.trim line with
    | [] => []
    | trimmed =>
      match deserialize from_str trimmed with
      | Ok msg => match command_of id msg with
                  | Some cmd => cmd :: control_reader lines
                  | None => control_reader lines
                  end
      | Err _ => control_reader lines
      end
    end
  end.
End control_reader.

Record ReportLoopConfig := mkConfig {
  id : str; protocol : Protocol; duration : Z; direction : Direction;
  byte_budget_test : bool; end_on_server_send : bool
}.

(** ** Frames *)
Record Frame := mkFrame { frame_bytes : list Z; offset : nat }.

Inductive report_error := EncodeFailed (e : crypto_error) | SerializeFailed | WriteZero | WriteFailed
  | AlreadyFinished | FlushTimedOut.

Definition unwritten (f : Frame) : list Z := drop (offset f) (frame_bytes f).
Definition complete (f : Frame) : bool := Nat.eqb (offset f) (length (frame_bytes f)).

(** The writer took [written] bytes. *)
Definition write_once (f : Frame) (written : nat) : result Frame report_error :=
  match written with
  | O => Err WriteZero
  | _ => Ok (mkFrame (frame_bytes f) (offset f + written))
  end.

(** ** Samples *)
Record Sample := mkSample { s_intervals : list IntervalStats; durations : list Z; elapsed_ms : Z }.

(** When each stream's last interval ended. *)
Definition previous_timestamp (s : StreamStats) : Z :=
  match last (intervals s) with Some i => is_timestamp i | None => start_time s end.

Definition capture (now : Z) (k : StreamStats.kernel) (stats : TestStats) (elapsed_ms : Z)
    : Sample * TestStats :=
  let previous := map previous_timestamp (streams stats) in
  let '(ivs, stats) := TestStats.record_intervals now k stats in
  (mkSample ivs (zip_with (fun i p => saturating_sub (is_timestamp i) p) ivs previous) elapsed_ms,
   stats).

Definition merge_interval (older newer : IntervalStats) (duration : Z) : IntervalStats :=
  let bytes := saturating_add 64 (is_bytes older) (is_bytes newer) in
  mkIntervalStats (is_timestamp newer) bytes
    (if duration =? 0 then zero
     else fdiv (fdiv (fmul (of_int bytes) (of_int 8)) (as_secs_f64 duration)) (of_int 1000000))
    (saturating_add 64 (is_retransmits older) (is_retransmits newer))
    (is_jitter_ms newer)
    (saturating_add 64 (is_lost older) (is_lost newer))
    (is_rtt_us newer) (is_cwnd newer)
    (saturating_add 64 (is_bytes_sent older) (is_bytes_sent newer))
    (saturating_add 64 (is_bytes_received older) (is_bytes_received newer))
    (is_cumulative_packets_received newer) (is_cumulative_packets_lost newer).

(** The zipped loop stops at the shortest list and leaves the rest alone. *)
Fixpoint merge_all (older : list IntervalStats) (ds : list Z) (newer : list IntervalStats)
    (nds : list Z) : list IntervalStats * list Z :=
  match older, ds, newer, nds with
  | o :: older, d :: ds, n :: newer, nd :: nds =>
    let '(ivs, ds) := merge_all older ds newer nds in
    (merge_interval o n (d + nd) :: ivs, (d + nd) :: ds)
  | _, _, _, _ => (older, ds)
  end.

Definition merge (self newer : Sample) : Sample :=
  let '(ivs, ds) := merge_all (s_intervals self) (durations self) (s_intervals newer)
                     (durations newer) in
  mkSample ivs ds (elapsed_ms newer).

Definition sample_message (config : ReportLoopConfig) (stats : TestStats) (s : Sample)
    : ControlMessage :=
  let is_bidir := bool_decide (direction config = Bidir) in
  Interval (id config) (elapsed_ms s)
    (zip_with (fun st i => StreamStats.to_interval_with_direction st i is_bidir)
       (streams stats) (s_intervals s))
    (TestStats.to_aggregate_with_direction (s_intervals s) is_bidir).

(** ** The active clock *)
Definition active_elapsed (start paused_total : Z) (pause_start : option Z) (now : Z) : Z :=
  let active_pause := match pause_start with Some p => saturating_sub now p | None => 0 end in
  saturating_sub (saturating_sub now start) (paused_total + active_pause).

Record Reporting := mkReporting {
  r_start : Z; r_paused_total : Z; r_pause_start : option Z; r_transfer_end : option Z;
  r_codec : option ControlWriter; r_current : option Frame; r_pending : option (list Z);
  r_cancelled : option (list Z); r_finish_deadline : Z
}.

Definition duration_ms (r : Reporting) (now : Z) : Z :=
  match r_transfer_end r with
  | Some end_ => Z.max (div_ceil (end_ / 1000) 1000) 1
  | None => active_elapsed (r_start r) (r_paused_total r) (r_pause_start r) now / 1000000
  end.

(** ** The loop *)
(** The writer half: [wire] and [sent] record the bytes the connection took
    and the messages encoded so far. *)
Record io_state := mkIo {
  codec : ControlWriter; current : option Frame; pending : option Sample;
  wire : list Z; sent : list (list Z)
}.
Record clock_state := mkClock { paused_total : Z; pause_start : option Z }.
Record ending_state := mkEnding {
  client_finished : bool; server_send_done : bool; drain_until : option Z;
  received_at : option Z; sent_at : option Z
}.
Record loop_state := mkLoop {
  io : io_state; clock : clock_state; ending : ending_state; cancelled : bool;
  stats : TestStats;
  (** the values sent on the test's pause channel *)
  pause_tx : list bool
}.

Inductive event :=
  | EDuration | EDrainExpired | ERecvDone | ESendDone
  | ETick (k : StreamStats.kernel)
  | ECommand (c : ControlCommand) | EReaderExited
  | EWritten (n : nat) | EWriteFailed.

Inductive verdict :=
  | Continue (l : loop_state) | Break (l : loop_state)
  | Failed (e : report_error) (l : loop_state)
  (** the arm's guard is off: it cannot fire *)
  | Disabled.

Section loop.
Context `{Aead}.
Variable serialize : ControlMessage -> option (list Z).
Variables (config : ReportLoopConfig) (start : Z).

Definition set_io (i : io_state) (l : loop_state) : loop_state :=
  mkLoop i (clock l) (ending l) (cancelled l) (stats l) (pause_tx l).
Definition set_ending (e : ending_state) (l : loop_state) : loop_state :=
  mkLoop (io l) (clock l) e (cancelled l) (stats l) (pause_tx l).

Definition elapsed_at (l : loop_state) (now : Z) : Z :=
  active_elapsed start (paused_total (clock l)) (pause_start (clock l)) now.
Definition out_of_time (l : loop_state) (now : Z) : bool :=
  negb (duration config =? 0) && (duration config <=? elapsed_at l now).

(** [option.get_or_insert(v)]. *)
Definition get_or_insert (o : option Z) (v : Z) : option Z :=
  match o with Some x => Some x | None => Some v end.

(** Encode one message; the codec has moved on even if it fails. *)
Definition encode_frame (msg : list Z) (i : io_state) (pending' : option Sample)
    : result io_state report_error :=
  match encode_message (codec i) msg with
  | (c, Ok bytes) => Ok (mkIo c (Some (mkFrame bytes 0)) pending' (wire i) (sent i ++ [msg]))
  | (_, Err e) => Err (EncodeFailed e)
  end.

(** The top of a pass: stop at the deadline, else start the next frame. *)
Definition pass_top (top : Z) (l : loop_state) : verdict :=
  if out_of_time l top then Break l
  else
    match current (io l), pending (io l) with
    | None, Some sample =>
      match serialize (sample_message config (stats l) sample) with
      | None => Failed SerializeFailed l
      | Some msg =>
        match encode_frame msg (io l) None with
        | Ok i => Continue (set_io i l)
        | Err e => Failed e l
        end
      end
    | _, _ => Continue l
    end.

(** End the loop if the transfer is complete. *)
Definition check_complete (l : loop_state) : verdict :=
  if budget_transfer_complete (direction config) (client_finished (ending l))
       (server_send_done (ending l))
  then Break l else Continue l.

Definition finish_drain (now : Z) (l : loop_state) : loop_state :=
  let e := ending l in
  set_ending (mkEnding true (server_send_done e) None
    (get_or_insert (received_at e) (elapsed_at l now)) (sent_at e)) l.

Definition on_recv_done (now : Z) (l : loop_state) : verdict :=
  let e := ending l in
  match drain_until e with
  | Some _ => check_complete (finish_drain now l)
  | None =>
    if byte_budget_test config && negb (bool_decide (protocol config = Udp))
       && match received_at e with None => true | Some _ => false end
    then Continue (set_ending (mkEnding (client_finished e) (server_send_done e) None
           (get_or_insert (received_at e) (elapsed_at l now)) (sent_at e)) l)
    else Disabled
  end.

Definition on_send_done (now : Z) (l : loop_state) : verdict :=
  let e := ending l in
  if end_on_server_send config && negb (server_send_done e) then
    check_complete (set_ending (mkEnding (client_finished e) true (drain_until e)
      (received_at e) (Some (elapsed_at l now))) l)
  else Disabled.

Definition on_tick (now : Z) (k : StreamStats.kernel) (l : loop_state) : verdict :=
  let elapsed := elapsed_at l now in
  if out_of_time l now then Break l
  else
    let '(sample, stats') := capture now k (stats l) (elapsed / 1000000) in
    let i := io l in
    let pending' := match pending i with
                    | Some p => Some (merge p sample)
                    | None => Some sample
                    end in
    Continue (mkLoop (mkIo (codec i) (current i) pending' (wire i) (sent i)) (clock l) (ending l)
                (cancelled l) stats' (pause_tx l)).

Definition on_command (now : Z) (c : ControlCommand) (l : loop_state) : verdict :=
  match c with
  | CmdFinish =>
    if byte_budget_test config then
      let e := ending l in
      if negb (client_finished e) && match drain_until e with None => true | _ => false end
      then Continue (set_ending (mkEnding (client_finished e) (server_send_done e)
             (Some (now + finish_drain_grace (protocol config))) (received_at e) (sent_at e)) l)
      else Continue l
    else Continue l
  | CmdCancel => Break (mkLoop (io l) (clock l) (ending l) true (stats l) (pause_tx l))
  | CmdPause =>
    Continue (mkLoop (io l)
      (mkClock (paused_total (clock l)) (get_or_insert (pause_start (clock l)) now))
      (ending l) (cancelled l) (stats l) (pause_tx l ++ [true]))
  | CmdResume =>
    let total := match pause_start (clock l) with
                 | Some p => paused_total (clock l) + saturating_sub now p
                 | None => paused_total (clock l)
                 end in
    Continue (mkLoop (io l) (mkClock total None) (ending l) (cancelled l) (stats l)
                (pause_tx l ++ [false]))
  end.

Definition on_written (n : nat) (l : loop_state) : verdict :=
  let i := io l in
  match current i with
  | None => Disabled
  | Some f =>
    match write_once f n with
    | Err e => Failed e l
    | Ok f' =>
      Continue (set_io (mkIo (codec i) (if complete f' then None else Some f') (pending i)
                          (wire i ++ take n (unwritten f)) (sent i)) l)
    end
  end.

(** The [select!]: one arm fires. *)
Definition select (now : Z) (ev : event) (l : loop_state) : verdict :=
  match ev with
  | EDuration =>
    if (duration config =? 0) || match pause_start (clock l) with Some _ => true | None => false end
    then Disabled
    else if now <? start + paused_total (clock l) + duration config then Disabled else Break l
  | EDrainExpired =>
    match drain_until (ending l) with
    | None => Disabled
    | Some deadline => if now <? deadline then Disabled else check_complete (finish_drain now l)
    end
  | ERecvDone => on_recv_done now l
  | ESendDone => on_send_done now l
  | ETick k => on_tick now k l
  | ECommand c => on_command now c l
  | EReaderExited => Break l
  | EWritten n => on_written n l
  | EWriteFailed => match current (io l) with Some _ => Failed WriteFailed l | None => Disabled end
  end.

(** One pass of the loop. *)
Definition pass (top now : Z) (ev : event) (l : loop_state) : verdict :=
  match pass_top top l with
  | Continue l => select now ev l
  | v => v
  end.

(** What happens over time: passes of the loop, and the streams moving data
    between them. *)
Inductive occurrence := Pass (top now : Z) (ev : event) | Transfer (stream : nat) (o : op).

Definition transfer (stream : nat) (o : op) (l : loop_state) : loop_state :=
  match o with
  | RecordInterval _ _ => l
  | _ => mkLoop (io l) (clock l) (ending l) (cancelled l)
           (mkTestStats (test_id (stats l))
              (alter (fun s => (run_op [] s o).2) stream (streams (stats l)))
              (test_start_time (stats l)) (tcp_info (stats l)) (udp_stats (stats l)))
           (pause_tx l)
  end.

(** Run until the loop breaks, fails or the occurrences end; an arm that is
    off is simply not chosen. *)
Fixpoint run_loop (os : list occurrence) (l : loop_state) : verdict :=
  match os with
  | [] => Continue l
  | Transfer i o :: os => run_loop os (transfer i o l)
  | Pass top now ev :: os =>
    match pass top now ev l with
    | Continue l => run_loop os l
    | Disabled => run_loop os l
    | v => v
    end
  end.

Definition start_loop (codec : ControlWriter) (stats : TestStats) : loop_state :=
  mkLoop (mkIo codec None None [] []) (mkClock 0 None)
    (mkEnding false false None None None) false stats [].

(** What the loop hands over when it ends normally at [now]. *)
Definition opt_max (a b : option Z) : option Z := Stats.opt_max a b.

Definition hand_over (now : Z) (l : loop_state) : result Reporting report_error :=
  let e := ending l in
  let transfer_end :=
    if cancelled l || negb (byte_budget_test config)
       || negb (budget_transfer_complete (direction config) (client_finished e) (server_send_done e))
    then None
    else match direction config with
         | Upload => received_at e
         | Download => sent_at e
         | Bidir => opt_max (received_at e) (sent_at e)
         end in
  let deadline := now + (if cancelled l then CANCEL_FLUSH_TIMEOUT else RESULT_FLUSH_TIMEOUT) in
  let? pending' := (if cancelled l then Ok None
                    else match pending (io l) with
                         | None => Ok None
                         | Some s => let? m := ok_or (serialize (sample_message config (stats l) s))
                                                     SerializeFailed in Ok (Some m)
                         end) in
  let? cancelled' := (if cancelled l
                      then let? m := ok_or (serialize (Cancelled (id config))) SerializeFailed in
                           Ok (Some m)
                      else Ok None) in
  Ok (mkReporting start (paused_total (clock l)) (pause_start (clock l)) transfer_end
        (Some (codec (io l))) (current (io l)) pending' cancelled' deadline).

(** [Reporting::finish]: the messages written in turn after the rest of the
    frame in flight.  [ok] is whether the writer took everything in time. *)
Definition option_list {A} (o : option A) : list A := match o with Some x => [x] | None => [] end.

Definition finish (r : Reporting) (result_serialized : list Z) (in_time : bool)
    : Reporting * result (list Z) report_error :=
  let r' := mkReporting (r_start r) (r_paused_total r) (r_pause_start r) (r_transfer_end r)
              None None None None (r_finish_deadline r) in
  match r_codec r with
  | None => (r, Err AlreadyFinished)
  | Some codec =>
    let head := match r_current r with Some f => unwritten f | None => [] end in
    match encode_all codec (option_list (r_pending r) ++ option_list (r_cancelled r)
                              ++ [result_serialized]) with
    | (_, Err e) => (r', Err (EncodeFailed e))
    | (_, Ok bytes) => (r', if in_time then Ok (head ++ bytes) else Err FlushTimedOut)
    end
  end.
End loop.

(** ** The wire *)
Section wire_facts.
Context `{Aead}.
Variable serialize : ControlMessage -> option (list Z).
Variables (config : ReportLoopConfig) (start : Z).

(** Everything encoded is on the wire or in the frame still being written. *)
Definition wire_ok (c0 : ControlWriter) (i : io_state) : Prop :=
  encode_all c0 (sent i)
  = (codec i, Ok (wire i ++ match current i with Some f => unwritten f | None => [] end)).

Lemma wire_encode c0 msg i i' :
  current i = None -> wire_ok c0 i -> encode_frame msg i None = Ok i' -> wire_ok c0 i'.
Proof.
  intros Hc Hw. unfold encode_frame, wire_ok in *.
  destruct (encode_message (codec i) msg) as [c [b|]] eqn:E; [|done].
  intros [= <-]. cbn [sent codec wire current]. rewrite Hc, app_nil_r in Hw.
  by rewrite (encode_all_app _ _ _ _ _ _ _ Hw (encode_all_one _ _ _ _ E)).
Qed.

Lemma wire_written c0 n f f' i :
  current i = Some f -> wire_ok c0 i -> write_once f n = Ok f' ->
  wire_ok c0 (mkIo (codec i) (if complete f' then None else Some f') (pending i)
                (wire i ++ take n (unwritten f)) (sent i)).
Proof.
  intros Hc Hw Hwr. unfold wire_ok in *. cbn [sent codec wire current]. rewrite Hw, Hc.
  assert (Hf : unwritten f' = drop n (unwritten f)).
  { destruct n; [done|]. injection Hwr as <-. unfold unwritten. cbn [frame_bytes offset].
    by rewrite drop_drop. }
  do 2 f_equal. rewrite <- app_assoc. f_equal.
  transitivity (take n (unwritten f) ++ unwritten f'); [by rewrite Hf, take_drop|]. f_equal.
  destruct (complete f') eqn:E; [|done]. apply Nat.eqb_eq in E.
  unfold unwritten. by rewrite drop_ge by lia.
Qed.

Definition state_of (v : verdict) : option loop_state :=
  match v with Continue l | Break l => Some l | _ => None end.

Lemma io_check_complete l l' : state_of (check_complete config l) = Some l' -> l' = l.
Proof. unfold check_complete. destruct (budget_transfer_complete _ _ _); by intros [= ->]. Qed.

(** An arm other than the tick and the writer leaves the writer half alone. *)
Lemma select_wire c0 now ev l l' :
  wire_ok c0 (io l) -> state_of (select config start now ev l) = Some l' -> wire_ok c0 (io l').
Proof.
  intros Hw. destruct ev as [| | | |k|c| |n|]; cbn [select].
  - destruct (_ || _); [done|]. destruct (_ <? _); [done|]. by intros [= <-].
  - destruct (drain_until _); [|done]. destruct (_ <? _); [done|]. by intros ->%io_check_complete.
  - unfold on_recv_done. destruct (drain_until _); [by intros ->%io_check_complete|].
    destruct (_ && _); [by intros [= <-]|done].
  - unfold on_send_done. destruct (_ && _); [by intros ->%io_check_complete|done].
  - unfold on_tick. destruct (out_of_time _ _ _ _); [by intros [= <-]|].
    destruct (capture _ _ _ _) as [sm st]. by intros [= <-].
  - destruct c; cbn [on_command]; try (by intros [= <-]).
    destruct (byte_budget_test config); [|by intros [= <-]].
    destruct (_ && _); by intros [= <-].
  - by intros [= <-].
  - unfold on_written. destruct (current (io l)) as [f|] eqn:Ec; [|done].
    destruct (write_once f n) as [f'|] eqn:Ew; [|done]. intros [= <-]. by eapply wire_written.
  - by destruct (current (io l)).
Qed.

Lemma pass_wire c0 top now ev l l' :
  wire_ok c0 (io l) -> state_of (pass serialize config start top now ev l) = Some l' ->
  wire_ok c0 (io l').
Proof.
  intros Hw. unfold pass, pass_top.
  destruct (out_of_time _ _ _ _); [by intros [= <-]|].
  destruct (current (io l)) as [f|] eqn:Ec; [by apply select_wire|].
  destruct (pending (io l)) as [sample|]; [|by apply select_wire].
  destruct (serialize _) as [msg|]; [|done].
  destruct (encode_frame msg (io l) None) as [i|] eqn:Ee; [|done].
  apply select_wire. cbn [io set_io]. by eapply wire_encode.
Qed.

Lemma run_wire c0 os l l' :
  wire_ok c0 (io l) -> state_of (run_loop serialize config start os l) = Some l' ->
  wire_ok c0 (io l').
Proof.
  revert l. induction os as [|o os IH]; intros l Hw; cbn [run_loop]; [by intros [= <-]|].
  destruct o as [top now ev|i o].
  - pose proof (pass_wire c0 top now ev l) as Hp.
    destruct (pass _ _ _ _ _ _ _) as [l1|l1|e l1|]; cbn [state_of] in *; try done.
    + apply IH. by apply Hp.
    + intros [= <-]. by apply Hp.
    + by apply IH.
  - apply IH. by destruct o.
Qed.

(** C9. A backpressured connection never sees a torn frame: however few bytes
    each write takes and whatever commands, ticks and endings fall between
    them, the bytes on the wire after the final flush are exactly the
    encodings, in order, of the reports sent, then the one report still
    pending or the cancellation notice, then the result. *)
Theorem control_stream_intact (c0 : ControlWriter) (st : TestStats) (os : list occurrence)
    (l : loop_state) (now : Z) (r : Reporting) (res bytes : list Z) (in_time : bool) :
  run_loop serialize config start os (start_loop c0 st) = Break l ->
  hand_over serialize config start now l = Ok r ->
  (finish r res in_time).2 = Ok bytes ->
  exists c', encode_all c0 (sent (io l) ++ option_list (r_pending r)
                            ++ option_list (r_cancelled r) ++ [res])
             = (c', Ok (wire (io l) ++ bytes)) /\
    (r_cancelled r <> None <-> cancelled l = true) /\
    (cancelled l = true -> r_pending r = None).
Proof.
  intros Hrun Hh Hf.
  assert (Hw : wire_ok c0 (io l)).
  { eapply (run_wire c0 os (start_loop c0 st)); [done|]. by rewrite Hrun. }
  assert (Hr : r_codec r = Some (codec (io l)) /\ r_current r = current (io l) /\
    (r_cancelled r <> None <-> cancelled l = true) /\ (cancelled l = true -> r_pending r = None)).
  { unfold hand_over in Hh. destruct (cancelled l); cbn [rbind] in Hh.
    - destruct (serialize _); cbn in Hh; [|done]. injection Hh as <-. by cbn.
    - destruct (pending (io l)) as [sm|]; [destruct (serialize _)|]; cbn in Hh; try done;
        injection Hh as <-; by cbn. }
  destruct Hr as (Hc & Hcur & Hcan). unfold finish in Hf. rewrite Hc in Hf.
  destruct (encode_all (codec (io l)) _) as [c' [bs|]] eqn:E; cbn [snd] in Hf; [|done].
  destruct in_time; [|done]. injection Hf as <-. exists c'. split; [|done].
  unfold wire_ok in Hw. rewrite (encode_all_app _ _ _ _ _ _ _ Hw E). rewrite Hcur.
  by rewrite <- app_assoc.
Qed.
End wire_facts.

Definition sample_config : ReportLoopConfig := mkConfig (txt "t") Tcp 0 Upload false false.
Definition sample_serialize (m : ControlMessage) : option (list Z) :=
  Some (match m with Interval _ e _ _ => txt "i" ++ [48 + e / 1000] | _ => txt "c" end).
Definition sample_run : list occurrence :=
  [Transfer 0 (AddReceived 7); Pass 0 1000000000 (ETick (fun _ => None));
   Pass 1000000000 1000000001 (EWritten 1); Transfer 0 (AddReceived 5);
   Pass 1000000001 2000000000 (ETick (fun _ => None));
   Pass 2000000000 2000000000 EReaderExited].

Lemma control_stream_intact_witness :
  exists l r bytes,
    run_loop sample_serialize sample_config 0 sample_run
      (start_loop WriterPlaintext (TestStats.new (txt "t") 1 0)) = Break l /\
    hand_over sample_serialize sample_config 0 2000000000 l = Ok r /\
    (finish r (txt "r") true).2 = Ok bytes /\
    exists c', encode_all WriterPlaintext [txt "i1"; txt "i2"; txt "r"] = (c', Ok (wire (io l) ++ bytes)).
Proof.
  eexists _, _, _. split; [vm_compute; reflexivity|]. split; [vm_compute; reflexivity|].
  split; [vm_compute; reflexivity|].
  destruct (control_stream_intact sample_serialize sample_config 0 WriterPlaintext
    (TestStats.new (txt "t") 1 0) sample_run _ 2000000000 _ (txt "r") _ true
    ltac:(vm_compute; reflexivity) ltac:(vm_compute; reflexivity)
    ltac:(vm_compute; reflexivity)) as (c' & Hc & _).
  exists c'. exact Hc.
Defined.

(** ** Conservation of reported bytes *)
Section conservation.
Context `{Aead}.
Variable serialize : ControlMessage -> option (list Z).
Variables (config : ReportLoopConfig) (start : Z) (c0 : ControlWriter) (i : nat).

(** What a sample reports for stream [i]. *)
Definition bytes_in (s : Sample) : Z :=
  match s_intervals s !! i with Some iv => is_bytes iv | None => 0 end.
Definition pending_bytes (p : option Sample) : Z :=
  match p with Some s => bytes_in s | None => 0 end.

(** What the occurrences move on stream [i]. *)
Definition moved (o : occurrence) : Z :=
  match o with
  | Transfer j o => if Nat.eqb j i then sent_by o + received_by o else 0
  | Pass _ _ _ => 0
  end.
Definition occurrence_ok (o : occurrence) : Prop :=
  match o with Transfer _ o => nonneg o | Pass _ _ _ => True end.

(** What an encoded report tells the client about stream [i]. *)
Definition reported (m : ControlMessage) : Z :=
  match m with
  | Interval _ _ rows _ => match rows !! i with Some row => si_bytes row | None => 0 end
  | _ => 0
  end.

(** The messages encoded so far. *)
Definition sent_as (l : loop_state) (emitted : list ControlMessage) : Prop :=
  Forall2 (fun msg m => serialize m = Some msg) (sent (io l)) emitted.

(** A sample holds one entry per stream. *)
Definition aligned (p : option Sample) (st : TestStats) : Prop :=
  forall s, p = Some s -> length (s_intervals s) = length (streams st) /\
    length (durations s) = length (streams st).

(** Of the bytes the occurrences moved on stream [i], [total] so far, those
    moved by the last tick the loop took; a tick at which it ends samples
    nothing. *)
Definition ticked (ev : event) (v : verdict) (total last : Z) : Z :=
  match ev, v with ETick _, Continue _ => total | _, _ => last end.
Fixpoint at_last_tick (os : list occurrence) (l : loop_state) (total last : Z) : Z :=
  match os with
  | [] => last
  | Transfer j o :: os => at_last_tick os (transfer j o l) (total + moved (Transfer j o)) last
  | Pass top now ev :: os =>
    match pass serialize config start top now ev l with
    | Continue l' => at_last_tick os l' total (ticked ev (Continue l') total last)
    | Disabled => at_last_tick os l total last
    | _ => last
    end
  end.

(** The books of stream [i] after [total] bytes moved, [last] of them by the
    last tick and [told] already in reports. *)
Definition books_ok (total last told : Z) (s : StreamStats) (p : option Sample) : Prop :=
  0 <= bytes_sent s /\ 0 <= bytes_received s /\ bytes_sent s + bytes_received s = total /\
  last <= total /\ 0 <= told /\ 0 <= pending_bytes p /\
  told + pending_bytes p = last /\ last_bytes s = last.

Definition ledger (total last : Z) (l : loop_state) (emitted : list ControlMessage) : Prop :=
  sent_as l emitted /\ aligned (pending (io l)) (stats l) /\
  forall s, streams (stats l) !! i = Some s ->
    books_ok total last (zsum (map reported emitted)) s (pending (io l)).

Lemma merge_lookup older ds newer nds j o n :
  length older = length ds -> length newer = length nds -> length older = length newer ->
  older !! j = Some o -> newer !! j = Some n ->
  exists iv, (merge_all older ds newer nds).1 !! j = Some iv /\
    is_bytes iv = saturating_add 64 (is_bytes o) (is_bytes n).
Proof.
  revert ds newer nds j.
  induction older as [|o' older IH]; intros [|d ds] [|n' newer] [|nd nds] j; try done.
  intros [= H1] [= H2] [= H3]. cbn [merge_all].
  destruct (merge_all older ds newer nds) as [ivs' ds'] eqn:E.
  destruct j as [|j]; cbn.
  - intros [= ->] [= ->]. by eexists.
  - intros Ho Hn. destruct (IH ds newer nds j H1 H2 H3 Ho Hn) as (iv & Hiv & ?).
    rewrite E in Hiv. by exists iv.
Qed.

Lemma merge_length older ds newer nds :
  length older = length ds -> length newer = length nds -> length older = length newer ->
  length (merge_all older ds newer nds).1 = length older /\
  length (merge_all older ds newer nds).2 = length ds.
Proof.
  revert ds newer nds. induction older as [|o older IH]; intros [|d ds] [|n newer] [|nd nds]; try done.
  intros [= H1] [= H2] [= H3]. cbn [merge_all].
  destruct (IH ds newer nds H1 H2 H3) as [L1 L2].
  destruct (merge_all older ds newer nds) as [ivs' ds']. cbn in *. lia.
Qed.

(** A tick captures what stream [i] moved since its last interval. *)
Lemma capture_spec now k st e sample st' :
  capture now k st e = (sample, st') ->
  length (streams st') = length (streams st) /\
  length (s_intervals sample) = length (streams st) /\
  length (durations sample) = length (streams st) /\
  forall s', streams st' !! i = Some s' -> exists s iv, streams st !! i = Some s /\
    s_intervals sample !! i = Some iv /\ bytes_sent s' = bytes_sent s /\
    bytes_received s' = bytes_received s /\ last_bytes s' = StreamStats.total_bytes s /\
    is_bytes iv = saturating_sub (StreamStats.total_bytes s) (last_bytes s).
Proof.
  unfold capture, TestStats.record_intervals. intros [= <- <-].
  cbn [streams s_intervals durations].
  rewrite !length_zip_with, !length_map, Nat.min_id. do 3 (split; [done|]).
  intros s'. rewrite map_map, list_lookup_fmap. intros (s & Hs & ->)%fmap_Some.
  exists s. rewrite map_map, list_lookup_fmap, Hs. cbn.
  unfold StreamStats.record_interval.
  destruct (match StreamStats.poll_tcp_info k s with Some _ => _ | None => _ end) as [a b].
  eexists. split; [done|]. by cbn.
Qed.

(** Encoding the pending sample moves its bytes from the pending to the
    reported side. *)
Lemma reported_sample st sample :
  aligned (Some sample) st -> (exists s, streams st !! i = Some s) ->
  reported (sample_message config st sample) = bytes_in sample.
Proof.
  intros Hal [s Hs]. destruct (Hal sample eq_refl) as [Hl _]. unfold reported, sample_message, bytes_in.
  rewrite lookup_zip_with, Hs. cbn [mbind option_bind].
  by destruct (s_intervals sample !! i).
Qed.

Lemma ledger_encode total last l emitted sample msg i' :
  ledger total last l emitted -> pending (io l) = Some sample ->
  serialize (sample_message config (stats l) sample) = Some msg ->
  encode_frame msg (io l) None = Ok i' ->
  ledger total last (set_io i' l) (emitted ++ [sample_message config (stats l) sample]).
Proof.
  intros (Hs & Hal & Hb) Hp Hm. rewrite Hp in Hal, Hb. unfold encode_frame.
  destruct (encode_message (codec (io l)) msg) as [c [bytes|]]; [|done]. intros [= <-].
  unfold ledger, sent_as. cbn [io set_io sent pending stats]. split_and!.
  - apply Forall2_app; [done|]. by constructor.
  - by intros ? [=].
  - intros s Hi. destruct (Hb s Hi) as (H1 & H2 & H3 & H4 & H5 & H6 & H7 & H8).
    rewrite map_app, zsum_app. cbn [map zsum].
    rewrite (reported_sample (stats l) sample Hal) by (by exists s).
    unfold books_ok. cbn [pending_bytes] in *. lia.
Qed.

(** A state that differs only in what the ledger does not look at. *)
Lemma ledger_same total last l l' emitted :
  sent (io l') = sent (io l) -> pending (io l') = pending (io l) -> stats l' = stats l ->
  ledger total last l emitted -> ledger total last l' emitted.
Proof. unfold ledger, sent_as. by intros -> -> ->. Qed.

Lemma merged_bytes total last told s p sample iv :
  total < 2 ^ 64 -> books_ok total last told s (Some p) ->
  length (s_intervals p) = length (durations p) ->
  length (s_intervals sample) = length (durations sample) ->
  length (s_intervals p) = length (s_intervals sample) ->
  s_intervals sample !! i = Some iv -> is_bytes iv = total - last ->
  bytes_in (merge p sample) = bytes_in p + (total - last).
Proof.
  intros Ht (H1 & H2 & H3 & H4 & H5 & H6 & H7 & _) L1 L2 L3 Hiv Hb. cbn [pending_bytes] in *.
  assert (Ho : exists o, s_intervals p !! i = Some o).
  { apply lookup_lt_is_Some. rewrite L3. by apply lookup_lt_is_Some; exists iv. }
  destruct Ho as [o Ho].
  destruct (merge_lookup _ _ _ _ i o iv L1 L2 L3 Ho Hiv) as (m & Hm & Hmb).
  unfold bytes_in at 1, merge. destruct (merge_all _ _ _ _) as [ivs ds]. cbn [s_intervals fst] in *.
  rewrite Hm, Hmb, Hb. unfold bytes_in in *. rewrite Ho in *. unfold saturating_add. lia.
Qed.

Lemma ledger_tick total last l l' emitted now k :
  total < 2 ^ 64 -> ledger total last l emitted ->
  state_of (on_tick config start now k l) = Some l' ->
  ledger total (ticked (ETick k) (on_tick config start now k l) total last) l' emitted.
Proof.
  intros Ht Hl. unfold on_tick. destruct (out_of_time _ _ _ _); [by intros [= <-]|].
  destruct Hl as (Hs & Hal & Hb). destruct (capture _ _ _ _) as [sample st'] eqn:E.
  destruct (capture_spec _ _ _ _ _ _ E) as (Ls & Li & Ld & Hc). intros [= <-].
  unfold ledger, sent_as. cbn [io sent pending stats ticked]. split_and!; [done| |].
  - intros s0 Hs0. destruct (pending (io l)) as [p|]; injection Hs0 as <-; [|lia].
    destruct (Hal p eq_refl) as [A1 A2].
    destruct (merge_length (s_intervals p) (durations p) (s_intervals sample) (durations sample))
      as [M1 M2]; try lia.
    unfold merge. destruct (merge_all _ _ _ _) as [ivs ds]. cbn in *. lia.
  - intros s' Hs'. destruct (Hc s' Hs') as (s & iv & Hi & Hiv & E1 & E2 & E3 & E4).
    pose proof (Hb s Hi) as (H1 & H2 & H3 & H4 & H5 & H6 & H7 & H8).
    assert (Htot : StreamStats.total_bytes s = total).
    { unfold StreamStats.total_bytes, wrapping_add. rewrite wrap_small; [done|]. unfold fits. lia. }
    rewrite Htot, ?H8 in *. rewrite saturating_sub_spec in E4.
    rewrite (proj2 (Z.ltb_ge total last) H4) in E4.
    unfold books_ok. rewrite E1, E2, E3. destruct (pending (io l)) as [p|]; cbn [pending_bytes] in *.
    + destruct (Hal p eq_refl) as [A1 A2].
      rewrite (merged_bytes total last (zsum (map reported emitted)) s p sample iv);
        unfold books_ok; cbn [pending_bytes]; auto 10 with lia.
    + unfold bytes_in. rewrite Hiv, E4. lia.
Qed.

Lemma ledger_complete total last l l' emitted :
  state_of (check_complete config l) = Some l' -> ledger total last l emitted ->
  ledger total last l' emitted.
Proof. by intros ->%io_check_complete. Qed.

Lemma ledger_select total last l l' emitted now ev :
  total < 2 ^ 64 -> ledger total last l emitted ->
  state_of (select config start now ev l) = Some l' ->
  ledger total (ticked ev (select config start now ev l) total last) l' emitted.
Proof.
  intros Ht Hl. destruct ev as [| | | |k|c| |n|]; cbn [select ticked].
  - destruct (_ || _); [done|]. destruct (_ <? _); [done|]. by intros [= <-].
  - destruct (drain_until _); [|done]. destruct (_ <? _); [done|].
    intros E. by eapply ledger_complete; [exact E|].
  - unfold on_recv_done. destruct (drain_until _).
    + intros E. by eapply ledger_complete; [exact E|].
    + destruct (_ && _); [by intros [= <-]|done].
  - unfold on_send_done. destruct (_ && _); [|done].
    intros E. by eapply ledger_complete; [exact E|].
  - by apply ledger_tick.
  - destruct c; cbn [on_command]; try (by intros [= <-]).
    destruct (byte_budget_test config); [|by intros [= <-]].
    destruct (_ && _); by intros [= <-].
  - by intros [= <-].
  - unfold on_written. destruct (current (io l)); [|done].
    destruct (write_once _ _); [|done]. intros [= <-]. by eapply ledger_same; [..|exact Hl].
  - by destruct (current (io l)).
Qed.

Lemma ledger_pass total last l l' emitted top now ev :
  total < 2 ^ 64 -> ledger total last l emitted ->
  state_of (pass serialize config start top now ev l) = Some l' ->
  exists emitted',
    ledger total (ticked ev (pass serialize config start top now ev l) total last) l' emitted'.
Proof.
  intros Ht Hl. unfold pass, pass_top.
  destruct (out_of_time _ _ _ _); [intros [= <-]; exists emitted; by destruct ev|].
  destruct (current (io l)) as [f|]; [intros E; eauto using ledger_select|].
  destruct (pending (io l)) as [sample|] eqn:Ep; [|intros E; eauto using ledger_select].
  destruct (serialize _) as [msg|] eqn:Es; [|done].
  destruct (encode_frame msg (io l) None) as [i'|] eqn:Ee; [|done].
  intros E. eexists. eapply ledger_select; [done| |exact E]. by eapply ledger_encode.
Qed.

Lemma ledger_transfer total last l emitted j o :
  nonneg o -> 0 <= total -> total + moved (Transfer j o) < 2 ^ 64 -> ledger total last l emitted ->
  ledger (total + moved (Transfer j o)) last (transfer j o l) emitted.
Proof.
  intros Hn Htot Hfit (Hs & Hal & Hb).
  assert (Hm : 0 <= moved (Transfer j o))
    by (cbn; destruct (Nat.eqb j i), o; cbn in *; lia).
  assert (Hstep : forall s', streams (stats (transfer j o l)) !! i = Some s' ->
    exists s, streams (stats l) !! i = Some s /\ last_bytes s' = last_bytes s /\
      (0 <= bytes_sent s -> 0 <= bytes_received s -> bytes_sent s + bytes_received s = total ->
       0 <= bytes_sent s' /\ 0 <= bytes_received s' /\
       bytes_sent s' + bytes_received s' = total + moved (Transfer j o))).
  { intros s'. destruct (decide (j = i)) as [->|Hne].
    - cbn [moved] in *. rewrite Nat.eqb_refl in *.
      destruct o; cbn [transfer stats streams sent_by received_by] in *;
        rewrite ?list_lookup_alter, ?decide_True by done; [intros (s & Hi & ->)%fmap_Some..|intros Hi];
        (eexists; split; [exact Hi|]); (split; [done|]); intros H1 H2 H3;
        cbn in Hn |- *; try lia; unfold wrapping_add; rewrite wrap_small by (unfold fits; lia); lia.
    - cbn [moved] in *. rewrite (proj2 (Nat.eqb_neq j i) Hne), Z.add_0_r in *.
      destruct o; cbn [transfer stats streams];
        rewrite ?list_lookup_alter_ne by done; intros Hi; by exists s'. }
  split; [|split].
  - by destruct o.
  - intros p Hp. destruct (Hal p) as [H1 H2]; [by destruct o|].
    destruct o; cbn [transfer stats streams]; rewrite ?length_alter; done.
  - intros s' Hs'. destruct (Hstep s' Hs') as (s & Hi & Hlast & Hsum).
    destruct (Hb s Hi) as (H1 & H2 & H3 & H4 & H5 & H6 & H7 & H8).
    destruct (Hsum H1 H2 H3) as (S1 & S2 & S3). unfold books_ok. rewrite Hlast.
    replace (pending (io (transfer j o l))) with (pending (io l)) by by destruct o.
    lia.
Qed.

Lemma ledger_run total last l emitted os l' :
  Forall occurrence_ok os -> 0 <= total -> total + zsum (map moved os) < 2 ^ 64 ->
  ledger total last l emitted -> state_of (run_loop serialize config start os l) = Some l' ->
  exists total' emitted', ledger total' (at_last_tick os l total last) l' emitted' /\
    0 <= total' < 2 ^ 64.
Proof.
  revert total last l emitted.
  induction os as [|o os IH]; intros total last l emitted Hok Htot Hfit Hl;
    cbn [run_loop at_last_tick].
  { intros [= <-]. exists total, emitted. cbn in Hfit. split; [done|lia]. }
  apply Forall_cons in Hok as [Ho Hos]. cbn [map zsum] in Hfit.
  assert (Hpos : 0 <= zsum (map moved os)).
  { apply zsum_nonneg, Forall_map. eapply Forall_impl; [exact Hos|].
    intros [|j []]; cbn; try destruct (Nat.eqb _ _); lia. }
  assert (Hmo : 0 <= moved o)
    by (destruct o as [|j []]; cbn in *; try destruct (Nat.eqb _ _); lia).
  destruct o as [top now ev|j o].
  - cbn [moved] in Hfit. pose proof (ledger_pass total last l) as Hp.
    destruct (pass _ _ _ _ _ _ _) as [l1|l1|e l1|] eqn:E; try done.
    + destruct (Hp l1 emitted top now ev) as [em' Hl']; [lia|done|by rewrite E|].
      rewrite E in Hl'. apply (IH total _ l1 em'); done || lia.
    + intros [= <-]. destruct (Hp l1 emitted top now ev) as [em' Hl']; [lia|done|by rewrite E|].
      rewrite E in Hl'. exists total, em'. split; [by destruct ev|lia].
    + apply (IH total last l emitted); done || lia.
  - apply (IH (total + moved (Transfer j o)) last _ emitted); try done; try lia.
    apply ledger_transfer; done || lia.
Qed.

Lemma ledger_start codec t n t0 : ledger 0 0 (start_loop codec (TestStats.new t n t0)) [].
Proof.
  split_and!; [by constructor|by intros ? [=]|]. intros s Hs.
  cbn [start_loop stats TestStats.new streams] in Hs.
  rewrite list_lookup_fmap in Hs. apply fmap_Some in Hs as (x & _ & ->).
  unfold books_ok. cbn. lia.
Qed.

(** C8. No byte is lost or told twice by the interval reports, whatever the
    connection does: however slowly it takes them, so that samples are merged
    into the one that waits, and however ticks, transfers, pauses and writes
    interleave, what the reports sent say of a stream and what the waiting
    sample holds add up to the bytes the transfers had moved on that stream,
    sent and received, by the last tick the loop took; the stream's counters
    hold at least as many. *)
Theorem reports_conserve (codec : ControlWriter) (t : str) (n t0 : Z) (os : list occurrence)
    (l : loop_state) (s : StreamStats) :
  Forall occurrence_ok os -> zsum (map moved os) < 2 ^ 64 ->
  state_of (run_loop serialize config start os (start_loop codec (TestStats.new t n t0))) = Some l ->
  streams (stats l) !! i = Some s ->
  exists emitted,
    Forall2 (fun msg m => serialize m = Some msg) (sent (io l)) emitted /\
    zsum (map reported emitted) + pending_bytes (pending (io l))
    = at_last_tick os (start_loop codec (TestStats.new t n t0)) 0 0 /\
    at_last_tick os (start_loop codec (TestStats.new t n t0)) 0 0 <= StreamStats.total_bytes s /\
    0 <= pending_bytes (pending (io l)).
Proof.
  intros Hok Hfit Hrun Hi.
  destruct (ledger_run 0 0 _ [] os l Hok ltac:(lia) ltac:(lia) (ledger_start codec t n t0) Hrun)
    as (total & emitted & (Hs & _ & Hb) & Hb1).
  exists emitted. destruct (Hb s Hi) as (H1 & H2 & H3 & H4 & H5 & H6 & H7 & H8).
  split_and!; try done. unfold StreamStats.total_bytes, wrapping_add.
  rewrite wrap_small by (unfold fits; lia). lia.
Qed.
End conservation.

Lemma reports_conserve_witness :
  exists l emitted,
    state_of (run_loop sample_serialize sample_config 0 sample_run
      (start_loop WriterPlaintext (TestStats.new (txt "t") 1 0))) = Some l /\
    zsum (map (reported 0) emitted) + pending_bytes 0 (pending (io l)) = 12.
Proof.
  eexists.
  destruct (reports_conserve sample_serialize sample_config 0 0 WriterPlaintext (txt "t") 1 0
    sample_run _ _ ltac:(repeat constructor; discriminate) ltac:(vm_compute; reflexivity)
    ltac:(vm_compute; reflexivity) ltac:(vm_compute; reflexivity)) as (emitted & _ & Hsum & _).
  exists emitted. split; [vm_compute; reflexivity|]. rewrite Hsum. vm_compute. reflexivity.
Defined.

(** ** The active clock *)
Section active_clock.
Context `{Aead}.
Variables (config : ReportLoopConfig) (start : Z).

(** The time the test ran unpaused: [cmds] are the pauses ([true]) and resumes
    with their times, [from] the last one's time. *)
Fixpoint unpaused (from : Z) (running : bool) (cmds : list (Z * bool)) (now : Z) : Z :=
  match cmds with
  | [] => if running then now - from else 0
  | (t, p) :: cmds => (if running then t - from else 0) + unpaused t (negb p) cmds now
  end.

Fixpoint in_order (from : Z) (cmds : list (Z * bool)) (now : Z) : Prop :=
  match cmds with
  | [] => from <= now
  | (t, _) :: cmds => from <= t /\ in_order t cmds now
  end.

(** The loop's handling of those commands. *)
Definition obey (l : loop_state) (c : Z * bool) : loop_state :=
  match on_command config c.1 (if c.2 then CmdPause else CmdResume) l with
  | Continue l' => l'
  | _ => l
  end.

(** [a] is the active time up to [from], where the last command fell. *)
Definition clock_ok (a from : Z) (running : bool) (c : clock_state) : Prop :=
  0 <= paused_total c /\
  match pause_start c with
  | None => running = true /\ from - start - paused_total c = a
  | Some p => running = false /\ start <= p <= from /\ p - start - paused_total c = a
  end.

Lemma in_order_le from cmds now : in_order from cmds now -> from <= now.
Proof.
  revert from. induction cmds as [|[t p] cmds IH]; intros from; cbn; [done|].
  intros [H1 H2]. specialize (IH t H2). lia.
Qed.

Lemma clock_obey a from running l t p :
  0 <= a -> start <= from <= t -> clock_ok a from running (clock l) ->
  clock_ok (a + (if running then t - from else 0)) t (negb p) (clock (obey l (t, p))).
Proof.
  intros Ha Hft (Hp & Hc). unfold obey, clock_ok. destruct p; cbn [fst snd on_command clock].
  - destruct (pause_start (clock l)) as [p|]; cbn [get_or_insert paused_total pause_start];
      destruct Hc as [-> ?]; (split; [done|]); (split; [done|]); lia.
  - destruct (pause_start (clock l)) as [p|]; cbn [paused_total pause_start];
      destruct Hc as [-> ?]; unfold saturating_sub; (split; [lia|]); (split; [done|]); lia.
Qed.

Lemma clock_obey_all cmds a from running l now :
  0 <= a -> start <= from -> in_order from cmds now -> clock_ok a from running (clock l) ->
  elapsed_at start (fold_left obey cmds l) now = a + unpaused from running cmds now.
Proof.
  revert a from running l. induction cmds as [|[t p] cmds IH]; intros a from running l Ha Hs Ho Hc.
  - cbn in *. destruct Hc as (Hp & Hc). unfold elapsed_at, active_elapsed, saturating_sub.
    destruct (pause_start (clock l)) as [p|]; destruct Hc as [-> ?]; lia.
  - destruct Ho as [Ht Ho]. cbn [fold_left unpaused].
    rewrite (IH (a + (if running then t - from else 0)) t (negb p)); try done.
    + lia.
    + destruct running; lia.
    + lia.
    + by apply clock_obey; [..|done].
Qed.

(** C30. The test clock counts exactly the time the test was running: after
    any sequence of pauses and resumes, repeated or unmatched ones included,
    the active time is the total length of the unpaused stretches, so it
    stands still during a pause. *)
Theorem active_time_exact (codec : ControlWriter) (st : TestStats) (cmds : list (Z * bool))
    (now : Z) :
  in_order start cmds now ->
  elapsed_at start (fold_left obey cmds (start_loop codec st)) now
  = unpaused start true cmds now.
Proof.
  intros Ho. rewrite (clock_obey_all cmds 0 start true); [done..|].
  split; cbn; [done|]. split; [done|]. lia.
Qed.
End active_clock.

Lemma active_time_exact_witness :
  elapsed_at 100 (fold_left (obey sample_config) [(110, true); (120, true); (150, false); (160, false)]
    (start_loop WriterPlaintext (TestStats.new (txt "t") 1 0))) 165 = 25.
Proof.
  rewrite (active_time_exact sample_config 100 WriterPlaintext (TestStats.new (txt "t") 1 0)
    [(110, true); (120, true); (150, false); (160, false)] 165); [reflexivity|].
  cbn. lia.
Defined.

(** ** Why a test ends *)
Section ending.
Context `{Aead}.
Variable serialize : ControlMessage -> option (list Z).
Variables (config : ReportLoopConfig) (start : Z).

Lemma check_complete_break l l' :
  check_complete config l = Break l' ->
  l' = l /\ budget_transfer_complete (direction config) (client_finished (ending l'))
              (server_send_done (ending l')) = true.
Proof.
  unfold check_complete. destruct (budget_transfer_complete _ _ _) eqn:E; by intros [= <-].
Qed.

Lemma encode_keeps_clock l top l1 :
  pass_top serialize config start top l = Continue l1 ->
  clock l1 = clock l /\ ending l1 = ending l /\ cancelled l1 = cancelled l.
Proof.
  unfold pass_top. destruct (out_of_time _ _ _ _); [done|].
  destruct (current _); [by intros [= <-]|]. destruct (pending _); [|by intros [= <-]].
  destruct (serialize _); [|done]. destruct (encode_frame _ _ _); by intros [= <-].
Qed.

Lemma pass_cancelled top now ev l l' :
  cancelled l = false -> pass serialize config start top now ev l = Break l' ->
  cancelled l' = true -> ev = ECommand CmdCancel.
Proof.
  intros Hc. unfold pass. destruct (pass_top _ _ _ _ _) as [l1|l1| |] eqn:Et; try done.
  - destruct (encode_keeps_clock l top l1 Et) as (_ & _ & E1). rewrite Hc in E1.
    destruct ev as [| | | |k|[]| |n|]; cbn [select on_command]; try done.
    + destruct (_ || _); [done|]. destruct (_ <? _); [done|]. intros [= <-]. congruence.
    + destruct (drain_until _); [|done]. destruct (_ <? _); [done|].
      intros [-> ?]%check_complete_break. cbn. congruence.
    + unfold on_recv_done. destruct (drain_until _); [|by destruct (_ && _)].
      intros [-> ?]%check_complete_break. cbn. congruence.
    + unfold on_send_done. destruct (_ && _); [|done].
      intros [-> ?]%check_complete_break. cbn. congruence.
    + unfold on_tick. destruct (out_of_time _ _ _ _); [|by destruct (capture _ _ _ _)].
      intros [= <-]. congruence.
    + destruct (byte_budget_test config); [by destruct (_ && _)|done].
    + intros [= <-]. congruence.
    + unfold on_written. destruct (current _); [|done]. by destruct (write_once _ _).
    + by destruct (current _).
  - intros [= <-]. unfold pass_top in Et. destruct (out_of_time _ _ _ _).
    + injection Et as <-. congruence.
    + destruct (current _); [done|]. destruct (pending _); [|done].
      destruct (serialize _); [|done]. by destruct (encode_frame _ _ _).
Qed.

(** A test ends only for a cause: its duration of active time is over,
    the client cancelled it, the control connection is gone, or a transfer
    with an end is complete in every direction it has; a cancel and only a
    cancel marks the test cancelled. *)
Theorem loop_ends_for_cause (top now : Z) (ev : event) (l l' : loop_state) :
  0 <= paused_total (clock l) -> cancelled l = false ->
  pass serialize config start top now ev l = Break l' ->
  (cancelled l' = true -> ev = ECommand CmdCancel) /\
  ((duration config <> 0 /\
     (duration config <= elapsed_at start l' top \/ duration config <= elapsed_at start l' now)) \/
  ev = ECommand CmdCancel /\ cancelled l' = true \/
  ev = EReaderExited \/
  budget_transfer_complete (direction config) (client_finished (ending l'))
    (server_send_done (ending l')) = true).
Proof.
  intros Hp Hc Hb. split; [intros Hl; by eapply pass_cancelled|]. revert Hb. unfold pass. destruct (pass_top _ _ _ _ _) as [l1|l1| |] eqn:Et; try done.
  - destruct (encode_keeps_clock l top l1 Et) as (Ec & _ & _). destruct ev; cbn [select].
    + destruct (Z.eqb_spec (duration config) 0) as [|Hd]; [done|]. cbn [orb].
      destruct (pause_start (clock l1)) eqn:Eps; [done|].
      destruct (Z.ltb_spec now (start + paused_total (clock l1) + duration config)); [done|].
      intros [= <-]. left. split; [done|]. right. unfold elapsed_at, active_elapsed.
      rewrite Eps, Ec in *. unfold saturating_sub. lia.
    + destruct (drain_until _); [|done]. destruct (_ <? _); [done|].
      intros [-> ?]%check_complete_break. by do 3 right.
    + unfold on_recv_done. destruct (drain_until _).
      * intros [-> ?]%check_complete_break. by do 3 right.
      * by destruct (_ && _).
    + unfold on_send_done. destruct (_ && _); [|done].
      intros [-> ?]%check_complete_break. by do 3 right.
    + unfold on_tick. destruct (out_of_time _ _ _ _) eqn:Eo.
      * intros [= <-]. unfold out_of_time in Eo. zbool. left. by split; [|right].
      * by destruct (capture _ _ _ _).
    + destruct c; cbn [on_command]; try done.
      * intros [= <-]. by right; left.
      * destruct (byte_budget_test config); [by destruct (_ && _)|done].
    + intros _. by right; right; left.
    + unfold on_written. destruct (current _); [|done]. by destruct (write_once _ _).
    + by destruct (current _).
  - intros [= <-]. unfold pass_top in Et. destruct (out_of_time _ _ _ _) eqn:Eo.
    + injection Et as <-. unfold out_of_time in Eo. zbool. left. by split; [|left].
    + destruct (current _); [done|]. destruct (pending _); [|done].
      destruct (serialize _); [|done]. by destruct (encode_frame _ _ _).
Qed.

(** The duration a completed [-n] transfer reports is at least one
    millisecond and within a microsecond of the transfer's time rounded up;
    it is shorter than the transfer exactly when the time beyond a whole
    number of milliseconds is under the microsecond that the truncation to
    microseconds drops. *)
Theorem duration_rounds_up (r : Reporting) (e now : Z) :
  r_transfer_end r = Some e -> 0 <= e ->
  1 <= duration_ms r now /\ e - 1000 < duration_ms r now * 1000000 /\
  duration_ms r now * 1000000 < Z.max e 1 + 1000000 /\
  (duration_ms r now * 1000000 < e <-> 1000000 <= e /\ 0 < e mod 1000000 < 1000).
Proof.
  intros He Hp. unfold duration_ms. rewrite He.
  pose proof (Z.div_mod e 1000 ltac:(lia)). pose proof (Z.mod_pos_bound e 1000 ltac:(lia)).
  pose proof (Z.div_mod e 1000000 ltac:(lia)). pose proof (Z.mod_pos_bound e 1000000 ltac:(lia)).
  assert (Hq : 0 <= e / 1000) by (apply Z.div_pos; lia).
  pose proof (div_ceil_spec (e / 1000) 1000 Hq ltac:(lia)). lia.
Qed.
End ending.

Lemma loop_ends_for_cause_witness :
  pass sample_serialize (mkConfig (txt "t") Tcp 5000000000 Upload false false) 0 0 5000000000 EDuration
    (start_loop WriterPlaintext (TestStats.new (txt "t") 1 0))
  = Break (start_loop WriterPlaintext (TestStats.new (txt "t") 1 0)) /\
  (5000000000 <= 0 \/ 5000000000 <= 5000000000).
Proof.
  split; [vm_compute; reflexivity|].
  destruct (loop_ends_for_cause sample_serialize (mkConfig (txt "t") Tcp 5000000000 Upload false false)
    0 0 5000000000 EDuration (start_loop WriterPlaintext (TestStats.new (txt "t") 1 0))
    (start_loop WriterPlaintext (TestStats.new (txt "t") 1 0)))
    as [_ [[_ Ht]|[[Hb _]|[Hb|Hb]]]];
    [vm_compute; discriminate|reflexivity|vm_compute; reflexivity|exact Ht|discriminate..].
Defined.

Definition finished_at (e : Z) : Reporting := mkReporting 0 0 None (Some e) None None None None 0.

Lemma duration_rounds_up_witness :
  duration_ms (finished_at 1000500) 0 = 1 /\ duration_ms (finished_at 1000500) 0 * 1000000 < 1000500.
Proof.
  split; [reflexivity|].
  apply (duration_rounds_up (finished_at 1000500) 1000500 0); [reflexivity|lia|by vm_compute].
Defined.
