(* ===== verification/ClientUdp.v ===== *)
(** * The client's view of UDP measurements (src/src/client.rs)

    Interval deltas and progress from the client's own receive counters, the
    corrections it overlays on the server's rows and results, the filter that
    both progress sources pass through, and the feedback consumer task as a
    function of its ticks. *)
From stdpp Require Import sorting.
From S2P Require Import Prelude Bytes Float Protocol Stats.

(** ** Interval deltas *)
(** The loop over the streams with the baseline slots beside them: a stream
    without a slot has no baseline and leaves none. *)
Fixpoint recv_deltas (streams : list StreamStats) (last_recv_bytes : list Z)
    : list Z * list Z :=
  match streams with
  | [] => ([], last_recv_bytes)
  | s :: streams =>
    let cumulative := bytes_received s in
    match last_recv_bytes with
    | prev :: slots =>
      let '(ds, slots) := recv_deltas streams slots in
      (saturating_sub cumulative prev :: ds, cumulative :: slots)
    | [] => let '(ds, slots) := recv_deltas streams [] in (cumulative :: ds, slots)
    end
  end.

(** The total, the deltas, and the baseline after. *)
Definition udp_recv_interval_deltas (stats : TestStats) (last_recv_bytes : list Z)
    : Z * list Z * list Z :=
  let '(deltas, slots) := recv_deltas (streams stats) last_recv_bytes in
  (sum_u64 deltas, deltas, slots).

(** [id as u8] wraps. *)
Definition local_udp_recv_intervals (deltas : list Z) (stats : TestStats)
    : list StreamInterval :=
  imap (fun id bytes =>
    let jitter_ms :=
      match streams stats !! id with
      | Some s => let j := StreamStats.udp_jitter_ms s in if fgtb j zero then Some j else None
      | None => None
      end in
    mkStreamInterval (wrap 8 (Z.of_nat id)) bytes None jitter_ms None None None None
      None None None None) deltas.

(** ** Local progress *)
Definition add_progress (acc p : UdpIntervalProgress.t) : UdpIntervalProgress.t :=
  UdpIntervalProgress.mk
    (saturating_add 64 (UdpIntervalProgress.packets_received acc)
       (UdpIntervalProgress.packets_received p))
    (saturating_add 64 (UdpIntervalProgress.packets_lost acc)
       (UdpIntervalProgress.packets_lost p)).

Definition udp_local_progress (stats : TestStats) : UdpIntervalProgress.t :=
  fold_left (fun acc s => add_progress acc (udp_progress s)) (streams stats)
    UdpIntervalProgress.default.

Definition is_empty_progress (p : UdpIntervalProgress.t) : bool :=
  (UdpIntervalProgress.packets_received p =? 0) && (UdpIntervalProgress.packets_lost p =? 0).

Definition udp_local_direction_progress (stats : TestStats) : option UdpDirectionProgress :=
  let progress := udp_local_progress stats in
  if is_empty_progress progress then None
  else
    let jitters := map StreamStats.udp_jitter_ms
      (filter (fun s => 0 < UdpIntervalProgress.packets_received (udp_progress s))
         (streams stats)) in
    Some (mkUdpDirectionProgress progress
      (match jitters with
       | [] => None
       | _ => Some (fdiv (fsum jitters) (of_int (Z.of_nat (length jitters))))
       end)).

(** ** Overlays *)
(** [bytes * 8 / secs / 10^6]. *)
Definition secs_mbps (bytes : Z) (secs : f64) : f64 :=
  if fgtb secs zero
  then fdiv (fdiv (fmul (of_int bytes) (of_int 8)) secs) (of_int 1000000) else zero.

Definition overlay_udp_bidir_interval (received : list Z) (duration_secs : f64)
    (s : StreamInterval) : StreamInterval :=
  match received !! Z.to_nat (si_id s) with
  | None => s
  | Some bytes =>
    mkStreamInterval (si_id s)
      (match si_bytes_sent s with Some sent => saturating_add 64 sent bytes | None => si_bytes s end)
      (si_retransmits s) (si_jitter_ms s) (si_lost s) (si_error s) (si_rtt_us s) (si_cwnd s)
      (si_bytes_sent s) (Some bytes) (si_throughput_send_mbps s)
      (Some (secs_mbps bytes duration_secs))
  end.

Definition overlay_udp_bidir_intervals (rows : list StreamInterval) (received : list Z)
    (duration_secs : f64) : list StreamInterval :=
  map (overlay_udp_bidir_interval received duration_secs) rows.

(** The closure [mbps] of both result overlays. *)
Definition ms_mbps (duration_ms bytes : Z) : f64 :=
  if 0 <? duration_ms
  then fdiv (fdiv (fmul (of_int bytes) (of_int 8)) (fdiv (of_int duration_ms) (of_int 1000)))
            (of_int 1000000)
  else zero.

Definition overlay_download_row (duration_ms : Z) (stats : TestStats) (r : StreamResult)
    : StreamResult :=
  match streams stats !! Z.to_nat (sr_id r) with
  | None => r
  | Some local =>
    let bytes := bytes_received local in
    mkStreamResult (sr_id r) bytes (ms_mbps duration_ms bytes) (sr_retransmits r)
      (sr_jitter_ms r) (sr_lost r) (sr_bytes_sent r) (sr_bytes_received r)
      (sr_throughput_send_mbps r) (sr_throughput_recv_mbps r)
  end.

Definition overlay_udp_download_result (r : TestResult) (stats : TestStats) : TestResult :=
  let received := TestStats.total_bytes_received stats in
  mkTestResult (tr_id r) received (tr_duration_ms r) (ms_mbps (tr_duration_ms r) received)
    (map (overlay_download_row (tr_duration_ms r) stats) (tr_streams r)) (tr_tcp_info r)
    (match tr_udp_stats r with Some u => Some u | None => TestStats.aggregate_udp_stats stats end)
    (tr_udp_stats_send r) (tr_udp_stats_recv r) (tr_bytes_sent r) (tr_bytes_received r)
    (tr_throughput_send_mbps r) (tr_throughput_recv_mbps r) (tr_mtu_probe r)
    (tr_server_udp_send_errors r) (tr_client_udp_send_errors r) (tr_zero_byte_streams r).

(** The row of a stream this client has counters for. *)
Definition bidir_row (duration_ms : Z) (local : StreamStats) (r : StreamResult) : StreamResult :=
  let received := bytes_received local in
  let '(bytes, mbps) :=
    match sr_bytes_sent r with
    | Some sent => let b := saturating_add 64 sent received in (b, ms_mbps duration_ms b)
    | None => (sr_bytes r, sr_throughput_mbps r)
    end in
  mkStreamResult (sr_id r) bytes mbps (sr_retransmits r) (sr_jitter_ms r) (sr_lost r)
    (sr_bytes_sent r) (Some received) (sr_throughput_send_mbps r)
    (Some (ms_mbps duration_ms received)).

Definition overlay_bidir_row (duration_ms : Z) (stats : TestStats) (r : StreamResult)
    : StreamResult :=
  match streams stats !! Z.to_nat (sr_id r) with
  | None => r
  | Some local => bidir_row duration_ms local r
  end.

(** [option.filter(observed)]. *)
Definition measured (u : option UdpStats) : option UdpStats :=
  match u with Some x => if TestStats.observed x then Some x else None | None => None end.

Definition overlay_udp_bidir_result (r : TestResult) (stats : TestStats) : TestResult :=
  let received := TestStats.total_bytes_received stats in
  let '(total, mbps) :=
    match tr_bytes_sent r with
    | Some sent => let b := wrapping_add 64 sent received in (b, ms_mbps (tr_duration_ms r) b)
    | None => (tr_bytes_total r, tr_throughput_mbps r)
    end in
  mkTestResult (tr_id r) total (tr_duration_ms r) mbps
    (map (overlay_bidir_row (tr_duration_ms r) stats) (tr_streams r)) (tr_tcp_info r)
    (tr_udp_stats r)
    (match measured (tr_udp_stats_send r) with
     | Some u => Some u
     | None => measured (tr_udp_stats r)
     end)
    (TestStats.aggregate_udp_receiver_stats stats) (tr_bytes_sent r) (Some received)
    (tr_throughput_send_mbps r) (Some (ms_mbps (tr_duration_ms r) received)) (tr_mtu_probe r)
    (tr_server_udp_send_errors r) (tr_client_udp_send_errors r) (tr_zero_byte_streams r).

(** ** The progress filter *)
(** [apply] under its lock: what is let through, and the latest after. *)
Definition apply (latest : option UdpIntervalProgress.t) (p : UdpIntervalProgress.t)
    : option UdpIntervalProgress.t * option UdpIntervalProgress.t :=
  if match latest with
     | Some previous => negb (UdpIntervalProgress.is_at_least_as_fresh_as p previous)
     | None => false
     end
  then (None, latest)
  else (Some p, Some p).

(** ** The feedback consumer *)
Inductive send_status := Sent | Full | Closed.
Inductive consumer_event :=
  (** a tick, the slots it locks and what [try_send] would answer *)
  | ConsumerTick (slots : list UdpIntervalProgress.t) (status : send_status)
  (** another task applies a server report to the shared filter *)
  | ServerReport (p : UdpIntervalProgress.t)
  | ConsumerCancel (stop : bool).

Record consumer := mkConsumer {
  latest : option UdpIntervalProgress.t;
  (** the feedback-only updates delivered *)
  delivered : list UdpIntervalProgress.t
}.

Definition aggregate_slots (slots : list UdpIntervalProgress.t) : UdpIntervalProgress.t :=
  fold_left add_progress slots (UdpIntervalProgress.mk 0 0).

Definition consumer_tick (slots : list UdpIntervalProgress.t) (status : send_status) (c : consumer)
    : bool * consumer :=
  let aggregate := aggregate_slots slots in
  if is_empty_progress aggregate then (false, c)
  else
    match apply (latest c) aggregate with
    | (None, latest') => (false, mkConsumer latest' (delivered c))
    | (Some filtered, latest') =>
      match status with
      | Sent => (false, mkConsumer latest' (delivered c ++ [filtered]))
      | Full => (false, mkConsumer latest' (delivered c))
      | Closed => (true, mkConsumer latest' (delivered c))
      end
    end.

(** Whether the task has ended, and the state after. *)
Fixpoint feedback_consumer (es : list consumer_event) (c : consumer) : bool * consumer :=
  match es with
  | [] => (false, c)
  | e :: es =>
    match e with
    | ConsumerTick slots status =>
      match consumer_tick slots status c with
      | (true, c) => (true, c)
      | (false, c) => feedback_consumer es c
      end
    | ServerReport p => feedback_consumer es (mkConsumer (apply (latest c) p).2 (delivered c))
    | ConsumerCancel stop => if stop then (true, c) else feedback_consumer es c
    end
  end.

(** ** Progress never goes back *)
Lemma apply_spec latest p out latest' :
  apply latest p = (out, latest') ->
  (out = None /\ latest' = latest /\ (exists q, latest = Some q /\ ~ fresher q p)) \/
  (out = Some p /\ latest' = Some p /\ (forall q, latest = Some q -> fresher q p)).
Proof.
  unfold apply. destruct latest as [q|].
  - destruct (UdpIntervalProgress.is_at_least_as_fresh_as p q) eqn:E; cbn [negb]; intros [= <- <-].
    + right. split_and!; [done|done|]. by intros ? [= ->].
    + left. split_and!; [done|done|]. exists q. split; [done|]. unfold fresher. congruence.
  - intros [= <- <-]. by right.
Qed.

(** The delivered updates are in order, and none is fresher than [latest]. *)
Definition consumer_ok (c : consumer) : Prop :=
  StronglySorted fresher (delivered c) /\
  Forall (fun p => exists q, latest c = Some q /\ fresher p q) (delivered c).

(** [c'] has moved forward from [c]. *)
Definition moved_on (c c' : consumer) : Prop :=
  (exists more, delivered c' = delivered c ++ more) /\
  forall q, latest c = Some q -> exists q', latest c' = Some q' /\ fresher q q'.

Lemma moved_on_refl c : moved_on c c.
Proof. split; [exists []; by rewrite app_nil_r|]. intros q Hq. by exists q. Qed.

Lemma moved_on_trans c1 c2 c3 : moved_on c1 c2 -> moved_on c2 c3 -> moved_on c1 c3.
Proof.
  intros [[m1 E1] H1] [[m2 E2] H2]. split.
  - exists (m1 ++ m2). by rewrite E2, E1, app_assoc.
  - intros q Hq. destruct (H1 q Hq) as (q' & Hq' & ?). destruct (H2 q' Hq') as (q'' & ? & ?).
    exists q''. split; [done|]. by etransitivity.
Qed.

#[export] Instance moved_on_preorder : PreOrder moved_on.
Proof. split; [exact moved_on_refl|exact moved_on_trans]. Qed.

Lemma apply_moves l p out l' ds :
  apply l p = (out, l') -> consumer_ok (mkConsumer l ds) ->
  consumer_ok (mkConsumer l' ds) /\ moved_on (mkConsumer l ds) (mkConsumer l' ds) /\
  forall q, out = Some q -> Forall (fun d => fresher d q) ds /\ l' = Some q.
Proof.
  intros E [Hs Hl]. apply apply_spec in E as [(-> & -> & _)|(-> & -> & Hq)].
  - by split_and!.
  - cbn [latest delivered] in *.
    assert (Hd : Forall (fun d => fresher d p) ds).
    { eapply Forall_impl; [exact Hl|]. intros d (q & Eq & Hdq).
      etransitivity; [exact Hdq|]. by apply Hq. }
    split_and!.
    + split; [done|]. eapply Forall_impl; [exact Hd|]. intros d ?. by exists p.
    + split; [exists []; by rewrite app_nil_r|]. intros q Eq. exists p. split; [done|]. by apply Hq.
    + by intros q [= <-].
Qed.

Lemma sorted_snoc (ds : list UdpIntervalProgress.t) q :
  StronglySorted fresher ds -> Forall (fun d => fresher d q) ds -> StronglySorted fresher (ds ++ [q]).
Proof.
  induction 1 as [|d ds _ IH Hd]; intros Hq; [repeat constructor|].
  apply Forall_cons in Hq as [H1 H2]. cbn. constructor; [by apply IH|].
  apply Forall_app. split; [done|]. by constructor.
Qed.

Lemma tick_moves slots status c stop c' :
  consumer_tick slots status c = (stop, c') -> consumer_ok c -> consumer_ok c' /\ moved_on c c'.
Proof.
  unfold consumer_tick. destruct (is_empty_progress _); [by intros [= <- <-]|].
  destruct c as [l ds]. cbn [latest delivered].
  destruct (apply l (aggregate_slots slots)) as [out l'] eqn:E. intros Ht Hok.
  destruct (apply_moves _ _ _ _ ds E Hok) as (Hok' & Hm & Hout).
  destruct out as [q|]; [|by injection Ht as <- <-].
  destruct (Hout q eq_refl) as [Hq ->]. destruct status; injection Ht as <- <-; try by split.
  destruct Hok' as [Hs Hl]. cbn [delivered latest] in *. split; [split; cbn|split].
  - by apply sorted_snoc.
  - apply Forall_app. split; [done|]. constructor; [|done]. exists q. by split.
  - by exists [q].
  - apply Hm.
Qed.

Lemma consumer_moves es c stop c' :
  feedback_consumer es c = (stop, c') -> consumer_ok c -> consumer_ok c' /\ moved_on c c'.
Proof.
  revert c. induction es as [|e es IH]; intros c; cbn [feedback_consumer]; [by intros [= <- <-]|].
  destruct e as [slots status|p|stop'].
  - destruct (consumer_tick slots status c) as [b c1] eqn:E. intros Hr Hok.
    destruct (tick_moves _ _ _ _ _ E Hok) as [Hok1 Hm1].
    destruct b; [by injection Hr as <- <-|].
    destruct (IH c1 Hr Hok1). split; [done|]. by etransitivity.
  - destruct c as [l ds]. cbn [latest delivered]. intros Hr Hok.
    destruct (apply l p) as [out l'] eqn:E.
    destruct (apply_moves _ _ _ _ ds E Hok) as (Hok1 & Hm1 & _).
    destruct (IH _ Hr Hok1). split; [done|]. by etransitivity.
  - destruct stop'; [by intros [= <- <-]|by apply IH].
Qed.

Definition nonempty (p : UdpIntervalProgress.t) : Prop := is_empty_progress p = false.

Lemma delivered_nonempty es c0 stop c :
  Forall nonempty (delivered c0) -> feedback_consumer es c0 = (stop, c) ->
  Forall nonempty (delivered c).
Proof.
  revert c0. induction es as [|e es IH]; intros c0 Hc; cbn [feedback_consumer];
    [by intros [= <- <-]|].
  destruct e as [slots status|p|[]]; [|by apply IH|by intros [= <- <-]|by apply IH].
  unfold consumer_tick. destruct (is_empty_progress (aggregate_slots slots)) eqn:Ee; [by apply IH|].
  destruct (apply (latest c0) (aggregate_slots slots)) as [[q|] l'] eqn:Ea; [|by apply IH].
  apply apply_spec in Ea as [(? & _)|([= ->] & _)]; [done|].
  destruct status; [|by apply IH|by intros [= <- <-]].
  apply IH. cbn [delivered]. apply Forall_app. split; [done|]. by constructor.
Qed.

(** Live UDP progress never goes back: however the server's reports and the
    receivers' feedback race through the filter, whatever arrives late, and
    however often the display's queue is full, the updates delivered are each
    at least as fresh as the ones before -- received and expected packets only
    grow -- and a snapshot once accepted is never displaced by a staler one. *)
Theorem progress_never_goes_back (es : list consumer_event) (first : option UdpIntervalProgress.t)
    (stop : bool) (c : consumer) :
  feedback_consumer es (mkConsumer first []) = (stop, c) ->
  StronglySorted fresher (delivered c) /\
  (forall q, first = Some q ->
     exists q', latest c = Some q' /\ fresher q q') /\
  Forall nonempty (delivered c).
Proof.
  intros H. destruct (consumer_moves _ _ _ _ H) as [[Hs _] [_ Hm]]; [split; constructor|].
  split_and!; [done|exact Hm|]. eapply delivered_nonempty; [|exact H]. constructor.
Qed.

Lemma progress_never_goes_back_witness :
  let p := UdpIntervalProgress.mk in
  let es := [ConsumerTick [p 5 1; p 2 0] Sent; ServerReport (p 10 2); ConsumerTick [p 6 1; p 2 0] Sent;
             ConsumerTick [p 9 1; p 4 0] Full; ConsumerTick [p 9 1; p 4 0] Sent] in
  let '(stop, c) := feedback_consumer es (mkConsumer None []) in
  StronglySorted fresher (delivered c) /\ delivered c = [p 7 1; p 13 1].
Proof.
  cbv zeta. destruct (feedback_consumer _ _) as [stop c] eqn:E.
  destruct (progress_never_goes_back _ None stop c E) as (H & _).
  split; [exact H|]. vm_compute in E. injection E as <- <-. reflexivity.
Defined.

(** ** Deltas add up *)
(** Successive observations by the reporting loop. *)
Fixpoint observe (obs : list TestStats) (slots : list Z) : list (Z * list Z) * list Z :=
  match obs with
  | [] => ([], slots)
  | o :: obs =>
    let '(total, deltas, slots) := udp_recv_interval_deltas o slots in
    let '(log, slots) := observe obs slots in ((total, deltas) :: log, slots)
  end.

Definition received_of (o : TestStats) : list Z := map bytes_received (streams o).

(** Counters only grow, stream by stream. *)
Fixpoint growing (prev : list Z) (obs : list TestStats) : Prop :=
  match obs with
  | [] => True
  | o :: obs => Forall2 Z.le prev (received_of o) /\ zsum (received_of o) < 2 ^ 64 /\
                growing (received_of o) obs
  end.

Lemma recv_deltas_spec ss slots :
  Forall2 Z.le slots (map bytes_received ss) ->
  recv_deltas ss slots = (zip_with (fun s p => bytes_received s - p) ss slots, map bytes_received ss).
Proof.
  revert slots. induction ss as [|s ss IH]; intros slots H.
  - by apply Forall2_nil_inv_r in H as ->.
  - apply Forall2_cons_inv_r in H as (p & slots' & Hp & H & ->). cbn [recv_deltas].
    rewrite (IH slots' H). cbn. rewrite saturating_sub_spec.
    by rewrite (proj2 (Z.ltb_ge (bytes_received s) p) Hp).
Qed.

Lemma deltas_sum ss slots :
  Forall (fun z => 0 <= z) slots -> Forall2 Z.le slots (map bytes_received ss) ->
  Forall (fun z => 0 <= z) (zip_with (fun s p => bytes_received s - p) ss slots) /\
  zsum (zip_with (fun s p => bytes_received s - p) ss slots)
  = zsum (map bytes_received ss) - zsum slots.
Proof.
  intros Hn H. revert slots Hn H. induction ss as [|s ss IH]; intros slots Hn H.
  - by apply Forall2_nil_inv_r in H as ->.
  - apply Forall2_cons_inv_r in H as (p & slots' & Hp & H & ->).
    apply Forall_cons in Hn as [Hp0 Hn]. destruct (IH slots' Hn H) as [F E].
    cbn [zip_with map zsum]. rewrite E. split; [constructor; [lia|done]|lia].
Qed.

Lemma observe_spec obs slots log slots' :
  Forall (fun z => 0 <= z) slots -> growing slots obs -> observe obs slots = (log, slots') ->
  zsum (map fst log) = zsum slots' - zsum slots /\
  Forall (fun e => fst e = zsum (snd e)) log /\
  Forall2 Z.le slots slots' /\
  (forall i z, slots' !! i = Some z ->
     zsum (map (fun e => default 0 (snd e !! i)) log) = z - default 0 (slots !! i)).
Proof.
  revert slots log slots'. induction obs as [|o obs IH]; intros slots log slots' Hn Hg; cbn [observe].
  - intros [= <- <-]. cbn. split_and!; [lia|done|by apply Forall2_same_length_lookup_2; [done|intros;
      simplify_eq; lia]|]. intros i z ->. cbn. lia.
  - destruct Hg as (Hle & Hfit & Hg). unfold udp_recv_interval_deltas.
    unfold received_of in *. rewrite (recv_deltas_spec _ _ Hle).
    destruct (deltas_sum _ _ Hn Hle) as [Fd Ed].
    assert (Hn' : Forall (fun z => 0 <= z) (map bytes_received (streams o))).
    { clear -Hn Hle. induction Hle; [constructor|]. apply Forall_cons in Hn as [? ?].
      constructor; [lia|auto]. }
    destruct (observe obs _) as [log1 slots1] eqn:E. intros [= <- <-].
    destruct (IH _ _ _ Hn' Hg E) as (H1 & H2 & H3 & H4).
    pose proof (zsum_nonneg _ Hn). pose proof (zsum_nonneg _ Fd).
    cbn [map zsum fst snd]. rewrite sum_u64_zsum by (done || lia).
    split_and!; [lia|by constructor|by etransitivity|].
    intros i z Hi. rewrite (H4 i z Hi). rewrite lookup_zip_with.
    rewrite list_lookup_fmap.
    destruct (streams o !! i) as [s|] eqn:Es; cbn.
    + destruct (Forall2_lookup_r _ _ _ _ _ Hle (ltac:(by rewrite list_lookup_fmap, Es))) as (p & -> & _).
      cbn. lia.
    + assert (slots !! i = None) as ->.
      { apply lookup_ge_None. apply Forall2_length in Hle. rewrite Hle, length_map.
        by apply lookup_ge_None. }
      cbn. lia.
Qed.

Lemma growing_app prev obs o : growing prev (obs ++ [o]) ->
  exists mid, growing prev obs /\ Forall2 Z.le mid (received_of o).
Proof.
  revert prev. induction obs as [|x obs IH]; intros prev; cbn.
  - intros (H & _). by exists prev.
  - intros (H1 & H2 & H3). destruct (IH _ H3) as (mid & H4 & H5). by exists mid.
Qed.

Lemma observe_last obs o slots log slots' :
  growing slots (obs ++ [o]) -> observe (obs ++ [o]) slots = (log, slots') ->
  slots' = received_of o.
Proof.
  revert slots log. induction obs as [|x obs IH]; intros slots log; cbn [app observe growing];
    intros (Hle & _ & Hg); unfold udp_recv_interval_deltas; rewrite (recv_deltas_spec _ _ Hle).
  - by intros [= _ <-].
  - destruct (observe (obs ++ [o]) _) as [log1 slots1] eqn:E. intros [= _ <-]. by eapply IH.
Qed.

(** A download's live rows account for every byte the client received exactly
    once: over any sequence of reports each stream's deltas sum to what it has
    received by the last one, each report's total is the sum of its rows, and
    the totals sum to all the bytes received. *)
Theorem deltas_add_up (n : nat) (obs : list TestStats) (o : TestStats) (log : list (Z * list Z))
    (slots : list Z) :
  growing (replicate n 0) (obs ++ [o]) ->
  observe (obs ++ [o]) (replicate n 0) = (log, slots) ->
  zsum (map fst log) = zsum (received_of o) /\
  Forall (fun e => fst e = zsum (snd e)) log /\
  (forall i s, streams o !! i = Some s ->
     zsum (map (fun e => default 0 (snd e !! i)) log) = bytes_received s).
Proof.
  intros Hg Ho. pose proof (observe_last _ _ _ _ _ Hg Ho) as ->.
  destruct (observe_spec _ _ _ _ (Forall_replicate (fun z => 0 <= z) n 0 (Z.le_refl 0)) Hg Ho) as (H1 & H2 & _ & H4).
  assert (Hz : zsum (replicate n 0) = 0) by (clear; induction n; cbn; lia).
  split_and!; [lia|done|]. intros i s Hs.
  rewrite (H4 i (bytes_received s)) by (unfold received_of; by rewrite list_lookup_fmap, Hs).
  assert (default 0 (replicate n 0 !! i) = 0) as ->; [|lia].
  destruct (replicate n 0 !! i) as [z|] eqn:E; [|done].
  by apply lookup_replicate in E as [-> _].
Qed.

(** ** Corrected results *)
(** The server reports one row per stream, in order. *)
Definition rows_aligned (r : TestResult) (stats : TestStats) : Prop :=
  map sr_id (tr_streams r) = map Z.of_nat (seq 0 (length (streams stats))).

Lemma aligned_rows (f : StreamStats -> StreamResult -> StreamResult) rows ss k stats :
  map sr_id rows = map Z.of_nat (seq k (length ss)) ->
  (forall j s, ss !! j = Some s -> streams stats !! (k + j)%nat = Some s) ->
  map (fun r => match streams stats !! Z.to_nat (sr_id r) with
                | Some local => f local r | None => r end) rows
  = zip_with f ss rows.
Proof.
  revert rows k. induction ss as [|s ss IH]; intros [|r rows] k; try done. cbn [length seq map].
  intros [= Hid Hids] Hs. cbn [map zip_with]. rewrite Hid, Nat2Z.id.
  pose proof (Hs 0%nat s eq_refl) as E. rewrite Nat.add_0_r in E. rewrite E. f_equal.
  apply (IH rows (S k)); [done|]. intros j s' Hj. rewrite <- (Hs (S j) s' Hj). f_equal. lia.
Qed.

Lemma download_rows r stats :
  rows_aligned r stats ->
  map sr_bytes (tr_streams (overlay_udp_download_result r stats)) = received_of stats.
Proof.
  intros H. cbn [tr_streams overlay_udp_download_result]. unfold overlay_download_row.
  rewrite (aligned_rows _ _ (streams stats) 0 stats H) by (intros j s Hs; exact Hs).
  unfold received_of, rows_aligned in *. apply (f_equal length) in H.
  rewrite !length_map, length_seq in H. revert H. generalize (tr_streams r).
  induction (streams stats) as [|s ss IH]; intros [|row rows]; try done. intros [= H].
  cbn. f_equal. by apply IH.
Qed.

Lemma bidir_rows r stats :
  rows_aligned r stats ->
  tr_streams (overlay_udp_bidir_result r stats)
  = zip_with (bidir_row (tr_duration_ms r)) (streams stats) (tr_streams r).
Proof.
  intros H. unfold overlay_udp_bidir_result.
  destruct (match tr_bytes_sent r with Some _ => _ | None => _ end). cbn [tr_streams].
  by apply (aligned_rows _ _ (streams stats) 0 stats H).
Qed.

Lemma bidir_row_sums (d : Z) ss rows sents :
  length rows = length ss -> map sr_bytes_sent rows = map Some sents ->
  Forall (fun z => 0 <= z) sents -> Forall (fun s => 0 <= bytes_received s) ss ->
  zsum sents + zsum (map bytes_received ss) < 2 ^ 64 ->
  zsum (map sr_bytes (zip_with (bidir_row d) ss rows)) = zsum sents + zsum (map bytes_received ss) /\
  map sr_bytes_received (zip_with (bidir_row d) ss rows) = map Some (map bytes_received ss).
Proof.
  revert rows sents. induction ss as [|s ss IH]; intros [|row rows] [|x sents]; try done.
  intros [= Hl] [= Hx Hxs] Hs Hr. apply Forall_cons in Hs as [Hx0 Hs].
  apply Forall_cons in Hr as [Hr0 Hr]. cbn [map zsum zip_with]. intros Hfit.
  pose proof (zsum_nonneg _ Hs).
  assert (0 <= zsum (map bytes_received ss)) by (apply zsum_nonneg, Forall_map; done).
  destruct (IH rows sents Hl Hxs Hs Hr) as [-> ->]; [lia|].
  unfold bidir_row. rewrite Hx. cbn [sr_bytes sr_bytes_received]. unfold saturating_add. split; [lia|done].
Qed.

(** The client's corrections are the receiver's truth and add up: a download
    result reports per stream and in total exactly the bytes this client
    received, and a bidirectional one the bytes the server received plus those,
    with rows that sum to the total; the rows of a server that reports no
    upload split keep their own bytes. *)
Theorem corrected_results_add_up (r : TestResult) (stats : TestStats) (sents : list Z) :
  rows_aligned r stats -> Forall (fun s => 0 <= bytes_received s) (streams stats) ->
  Forall (fun z => 0 <= z) sents -> map sr_bytes_sent (tr_streams r) = map Some sents ->
  tr_bytes_sent r = Some (zsum sents) ->
  zsum sents + zsum (received_of stats) < 2 ^ 64 ->
  let down := overlay_udp_download_result r stats in
  let both := overlay_udp_bidir_result r stats in
  map sr_bytes (tr_streams down) = received_of stats /\
  tr_bytes_total down = zsum (map sr_bytes (tr_streams down)) /\
  tr_bytes_total both = zsum sents + zsum (received_of stats) /\
  zsum (map sr_bytes (tr_streams both)) = tr_bytes_total both /\
  tr_bytes_sent both = Some (zsum sents) /\
  tr_bytes_received both = Some (zsum (received_of stats)) /\
  map sr_bytes_received (tr_streams both) = map Some (received_of stats).
Proof.
  intros Hal Hr Hs Hrows Hsent Hfit. cbv zeta.
  assert (Hr' : Forall (fun z => 0 <= z) (received_of stats)) by by apply Forall_map.
  pose proof (zsum_nonneg _ Hs). pose proof (zsum_nonneg _ Hr').
  assert (Htot : TestStats.total_bytes_received stats = zsum (received_of stats))
    by (apply sum_u64_zsum; [done|lia]).
  assert (Hlen : length (tr_streams r) = length (streams stats))
    by (apply (f_equal length) in Hal; by rewrite !length_map, length_seq in Hal).
  rewrite (download_rows _ _ Hal), (bidir_rows _ _ Hal).
  destruct (bidir_row_sums (tr_duration_ms r) _ _ _ Hlen Hrows Hs Hr Hfit) as [-> ->].
  unfold overlay_udp_bidir_result. rewrite Hsent, Htot.
  cbn [tr_bytes_total tr_bytes_sent tr_bytes_received overlay_udp_download_result].
  unfold wrapping_add. rewrite wrap_small by (unfold fits; lia). by split_and!.
Qed.

Definition sample_stream (id received : Z) : StreamStats :=
  StreamStats.with_bytes 0 received (StreamStats.new id 0).
Definition sample_stats (a b : Z) : TestStats :=
  mkTestStats (txt "t") [sample_stream 0 a; sample_stream 1 b] 0 [] [].
Definition sample_row (id sent : Z) : StreamResult :=
  mkStreamResult id 99 zero None None None (Some sent) None None None.
Definition sample_result : TestResult :=
  mkTestResult (txt "t") 99 1000 zero [sample_row 0 3; sample_row 1 4] None None None None
    (Some 7) None None None None None None None.

Lemma corrected_results_add_up_witness :
  tr_bytes_total (overlay_udp_bidir_result sample_result (sample_stats 10 20)) = 37 /\
  map sr_bytes (tr_streams (overlay_udp_download_result sample_result (sample_stats 10 20))) = [10; 20].
Proof.
  destruct (corrected_results_add_up sample_result (sample_stats 10 20) [3; 4])
    as (H1 & _ & H3 & _);
    [reflexivity|repeat constructor; cbn; lia|repeat constructor; lia|reflexivity..|].
  exact (conj H3 H1).
Defined.

Lemma deltas_add_up_witness :
  let '(log, slots) := observe [sample_stats 1 2; sample_stats 5 2] (replicate 2 0) in
  zsum (map fst log) = 7 /\ zsum (map (fun e => default 0 (snd e !! 0%nat)) log) = 5.
Proof.
  destruct (observe [sample_stats 1 2; sample_stats 5 2] (replicate 2 0)) as [log slots] eqn:E.
  destruct (deltas_add_up 2 [sample_stats 1 2] (sample_stats 5 2) log slots) as (H1 & _ & H3).
  - repeat (split; [repeat constructor; cbn; lia|split; [reflexivity|]]). exact I.
  - exact E.
  - split; [exact H1|]. exact (H3 0%nat _ eq_refl).
Defined.
