(* ===== verification/Client.v ===== *)
(** * The client's configuration, ports and control events (src/src/client.rs)

    What is decided without the network: the validation of a configuration,
    the source ports of the control and data connections, timeouts, the pause
    toggle, the bounded line reader of the handshake and the control reader
    task as a function of the lines it reads. *)
From S2P Require Import Prelude Bytes Text UdpWire Ip Auth ControlCrypto Protocol.

(** ** Constants; times are nanoseconds *)
Definition MAX_LINE_LENGTH : Z := 65536.
Definition STREAM_JOIN_TIMEOUT_BASE : Z := 2000000000.
Definition STREAM_JOIN_TIMEOUT_PER_STREAM_MS : Z := 50.
Definition SINGLE_PORT_HANDSHAKE_FANOUT_MAX : Z := 16.
Definition CONTROL_CANCEL_RESULT_TIMEOUT : Z := 3000000000.

Definition stream_join_timeout (streams : Z) : Z :=
  let scaled := saturating_mul 64 streams STREAM_JOIN_TIMEOUT_PER_STREAM_MS * 1000000 in
  if STREAM_JOIN_TIMEOUT_BASE <? scaled then scaled else STREAM_JOIN_TIMEOUT_BASE.

Definition single_port_handshake_parallelism (streams : Z) : Z :=
  clamp 1 SINGLE_PORT_HANDSHAKE_FANOUT_MAX streams.

Definition local_stop_deadline (start duration : Z) : option Z :=
  if duration =? 0 then None else Some (start + duration).

(** The deadline and the pause start after a cancel at [now]. *)
Definition start_control_cancel_wait (now : Z) : Z * option Z :=
  (now + CONTROL_CANCEL_RESULT_TIMEOUT, None).

(** ** Configuration *)
Inductive ZerocopyMode := Off | Auto | Requested.
Definition enabled (z : ZerocopyMode) : bool := match z with Off => false | _ => true end.

Record ClientConfig := mkClientConfig {
  host : str; port : Z; protocol : Protocol; streams : Z; duration : Z; direction : Direction;
  bitrate : option Z; udp_payload_size : option Z; tcp_nodelay : bool;
  tcp_congestion : option str; window_size : option Z; psk : option str;
  address_family : AddressFamily; bind_addr : option SocketAddr; sequential_ports : bool;
  mptcp : bool; random_payload : bool; zerocopy : ZerocopyMode; dscp : option Z;
  mtu_probe : bool; connect_timeout : option Z; byte_budget : option Z
}.

Definition default_config : ClientConfig :=
  mkClientConfig (txt "127.0.0.1") DEFAULT_PORT Tcp 1 10000000000 Upload None None false None None
    None DualStack None false false true Auto None false None None.

Inductive config_error :=
  | BadStreamCount | DurationTooLong | LengthWithProbe | BadPayloadSize | BadPsk (e : psk_error).

(** [anyhow::ensure!]. *)
Definition ensure {E} (b : bool) (e : E) : result unit E := if b then Ok tt else Err e.

Definition validate (c : ClientConfig) : result unit config_error :=
  let? _ := ensure ((1 <=? streams c) && (streams c <=? 128)) BadStreamCount in
  let? _ := ensure (duration c / 1000000000 <=? u32_max) DurationTooLong in
  let? _ := match udp_payload_size c with
            | Some size =>
              let? _ := ensure (negb (mtu_probe c)) LengthWithProbe in
              map_err (fun _ => BadPayloadSize) (validate_payload_size size)
            | None => Ok tt
            end in
  match psk c with
  | Some p => map_err BadPsk (validate_psk (as_bytes p))
  | None => Ok tt
  end.

(** ** Source ports *)
Definition control_bind_addr (c : ClientConfig) : option SocketAddr :=
  if negb (bool_decide (protocol c = Tcp)) then bind_addr c
  else option_map (fun addr => if negb (sa_port addr =? 0) then with_port addr 0 else addr)
         (bind_addr c).

Inductive port_error := NoBindAddr | ZeroBindPort | PortsExceed (first last : Z)
  | ControlPortOverlaps (port first last : Z).

Definition sequential_bind_base (bind_addr : option SocketAddr) (sequential_ports : bool)
    (stream_count : Z) : result (option SocketAddr) port_error :=
  if sequential_ports then
    let? addr := ok_or bind_addr NoBindAddr in
    if sa_port addr =? 0 then Err ZeroBindPort
    else
      let max_port := wrapping_add 32 (sa_port addr) (wrap 32 (saturating_sub stream_count 1)) in
      if u16_max <? max_port then Err (PortsExceed (sa_port addr) max_port)
      else Ok (Some addr)
  else Ok bind_addr.

Definition stream_bind_addr (base_bind_addr : option SocketAddr) (sequential_ports : bool)
    (stream_index : Z) : option SocketAddr :=
  if sequential_ports then
    option_map (fun addr => with_port addr (wrapping_add 16 (sa_port addr) (wrap 16 stream_index)))
      base_bind_addr
  else base_bind_addr.

Definition tcp_data_port_range (c : ClientConfig) : option (Z * Z) :=
  if negb (bool_decide (protocol c = Tcp)) then None
  else
    match bind_addr c with
    | None => None
    | Some bind_addr =>
      if sa_port bind_addr =? 0 then None
      else
        let start := sa_port bind_addr in
        let end_ := if sequential_ports c
                    then saturating_add 16 start (saturating_sub (streams c) 1) else start in
        Some (start, end_)
    end.

Definition validate_tcp_control_port (control_local_addr : SocketAddr) (c : ClientConfig)
    : result unit port_error :=
  match tcp_data_port_range c with
  | Some (start, end_) =>
    let port := sa_port control_local_addr in
    if (start <=? port) && (port <=? end_) then Err (ControlPortOverlaps port start end_) else Ok tt
  | None => Ok tt
  end.

(** ** The pause toggle *)
Inductive PauseResult := Applied | Unsupported | NotReady.

(** [request]: the value of the pause-request channel, and whether its
    receiver is gone; [None] when no run has installed it. *)
Definition pause (server_supports_pause : option bool) (request : option (bool * bool))
    : PauseResult * option (bool * bool) :=
  match server_supports_pause with
  | None => (NotReady, request)
  | Some false => (Unsupported, request)
  | Some true =>
    match request with
    | Some (current, false) => (Applied, Some (negb current, false))
    | Some (_, true) | None => (NotReady, request)
    end
  end.

(** ** The bounded line reader

    The line decoded chunk by chunk, its length in bytes, and the chunks left. *)
Fixpoint read_bounded_line (e : stream_end) (chunks : list (list Z)) (total : Z) (buf : list Z)
    : list (list Z) * result (list Z * Z) read_error :=
  match chunks with
  | [] => ([], match e with Eof => Ok (buf, total) | IoError => Err Io end)
  | [] :: chunks => read_bounded_line e chunks total buf
  | (_ :: _) as bytes :: rest =>
    match newline_pos bytes with
    | Some pos =>
      let to_read := Z.of_nat pos + 1 in
      if MAX_LINE_LENGTH <? total + to_read then (bytes :: rest, Err LineTooLong)
      else (drop (Z.to_nat to_read) bytes :: rest,
            Ok (buf ++ from_utf8_lossy (take (Z.to_nat to_read) bytes), total + to_read))
    | None =>
      let n := len bytes in
      if MAX_LINE_LENGTH <? total + n then (bytes :: rest, Err LineTooLong)
      else read_bounded_line e rest (total + n) (buf ++ from_utf8_lossy bytes)
    end
  end.

(** ** The control reader task *)
Inductive ClientControlEvent := EvMessage (m : ControlMessage) | EvEof | EvReadError | EvParseError.

Section control_reader.
Variable from_str : str -> option ControlMessage.

(** The events it sends for the lines it reads, until it stops. *)
Fixpoint spawn_client_control_reader (lines : list (result str unit)) : list ClientControlEvent :=
  match lines with
  | [] => []
  | Err _ :: _ => [EvReadError]
  | Ok line :: lines =>
    match trim line with
    | [] => [EvEof]
    | trimmed =>
      match deserialize from_str trimmed with
      | Ok msg => EvMessage msg :: spawn_client_control_reader lines
      | Err _ => [EvParseError]
      end
    end
  end.
End control_reader.

(** ** Port properties *)
Lemma sequential_base_ok bind n base :
  sequential_bind_base (Some bind) true n = Ok base -> 1 <= n <= 128 -> fits 16 (sa_port bind) ->
  base = Some bind /\ 0 < sa_port bind /\ sa_port bind + n - 1 <= u16_max.
Proof.
  intros H Hn Hp. unfold sequential_bind_base in H. cbn [ok_or rbind] in H.
  destruct (Z.eqb_spec (sa_port bind) 0); [done|]. unfold fits, saturating_sub in *.
  rewrite (wrap_small 32 (Z.max 0 (n - 1))) in H by (unfold fits; lia).
  unfold wrapping_add in H. rewrite wrap_small in H by (unfold fits; lia).
  destruct (Z.ltb_spec u16_max (sa_port bind + Z.max 0 (n - 1))); [done|].
  injection H as <-. split_and!; [done|lia|lia].
Qed.

Lemma with_port_port a p : sa_port (with_port a p) = p.
Proof. by destruct a. Qed.

Lemma stream_port bind n i :
  fits 16 (sa_port bind) -> 0 <= i < n -> n <= 128 -> sa_port bind + n - 1 <= u16_max ->
  stream_bind_addr (Some bind) true i = Some (with_port bind (sa_port bind + i)).
Proof.
  intros Hp Hi Hn Hfit. unfold stream_bind_addr, u16_max, fits in *. cbn [option_map].
  rewrite (wrap_small 16 i) by (unfold fits; lia).
  unfold wrapping_add. by rewrite wrap_small by (unfold fits; lia).
Qed.

(** Fixed source ports never collide: a TCP client that starts with
    consecutive data ports binds stream [i] to the requested address at port
    base plus [i], always a valid port; two streams never share a port, none
    has the control connection's, and the control connection itself asks for
    an ephemeral port on the same address. *)
Theorem data_ports_distinct (c : ClientConfig) (bind control : SocketAddr)
    (base : option SocketAddr) (i j : Z) :
  protocol c = Tcp -> bind_addr c = Some bind -> sequential_ports c = true ->
  fits 16 (sa_port bind) -> validate c = Ok tt ->
  sequential_bind_base (bind_addr c) (sequential_ports c) (streams c) = Ok base ->
  validate_tcp_control_port control c = Ok tt ->
  0 <= i < streams c -> 0 <= j < streams c ->
  exists a b, stream_bind_addr base (sequential_ports c) i = Some a /\
    stream_bind_addr base (sequential_ports c) j = Some b /\
    sa_ip a = sa_ip bind /\ sa_port a = sa_port bind + i /\ 0 < sa_port a <= u16_max /\
    (sa_port a = sa_port b -> i = j) /\ sa_port a <> sa_port control /\
    control_bind_addr c = Some (with_port bind 0).
Proof.
  intros Ht Hb Hs Hp Hv Hbase Hctl Hi Hj. rewrite Hb, Hs in Hbase. rewrite Hs.
  assert (Hn : 1 <= streams c <= 128).
  { unfold validate in Hv. destruct (_ && _) eqn:E; [|done]. zbool. lia. }
  destruct (sequential_base_ok _ _ _ Hbase Hn Hp) as (-> & Hpos & Hmax).
  rewrite (stream_port bind (streams c) i), (stream_port bind (streams c) j) by (done || lia).
  eexists _, _. split; [done|]. split; [done|]. rewrite !with_port_port, with_port_ip.
  assert (Hr : tcp_data_port_range c = Some (sa_port bind, sa_port bind + streams c - 1)).
  { unfold tcp_data_port_range. rewrite Ht, Hb, Hs. cbn [negb bool_decide].
    destruct (Z.eqb_spec (sa_port bind) 0); [lia|]. do 2 f_equal.
    unfold saturating_add, saturating_sub, u16_max in *. lia. }
  unfold validate_tcp_control_port in Hctl. rewrite Hr in Hctl.
  destruct (_ && _) eqn:Eo; [done|]. apply andb_false_iff in Eo.
  split_and!; try done; try lia.
  unfold control_bind_addr. rewrite Ht, Hb. cbn.
  destruct (Z.eqb_spec (sa_port bind) 0); [lia|done].
Qed.

Definition ported_config : ClientConfig :=
  mkClientConfig (txt "h") 5201 Tcp 3 0 Upload None None false None None None DualStack
    (Some (SaV4 16777343 65533)) true false true Auto None false None None.

Lemma data_ports_distinct_witness :
  stream_bind_addr (bind_addr ported_config) true 2 = Some (SaV4 16777343 65535) /\
  sa_port (SaV4 16777343 65535) <> sa_port (SaV4 16777343 40000).
Proof.
  destruct (data_ports_distinct ported_config (SaV4 16777343 65533) (SaV4 16777343 40000)
    (bind_addr ported_config) 2 0) as (a & b & H1 & _ & _ & _ & _ & _ & H7 & _);
    [reflexivity..|split; [discriminate|reflexivity]|reflexivity|reflexivity|reflexivity
    |split; [discriminate|reflexivity]|split; [discriminate|reflexivity]|].
  split; [reflexivity|]. vm_compute in H1. injection H1 as <-. exact H7.
Defined.
