(* ===== verification/Handshake.v ===== *)
(** * The control handshake (src/src/client.rs run_test, src/src/serve.rs
    handle_client_with_first_message and handle_test_request)

    Both sides as functions of the bytes they read: hello, pre-shared-key
    authentication with the proof over both hellos, the switch to the
    protected transport, the capability checks, the test request and its
    acknowledgement.  Strings are characters; the wire carries their UTF-8.
    JSON, HMAC, HKDF, the AEAD and the congestion check of the system are
    parameters; time limits are not modelled. *)
From S2P Require Import Prelude Bytes Text Fmt UdpWire Ip Auth ControlCrypto Protocol Client.

(** ** A connection and the code that uses it *)
Record conn := mkConn { rdr : reader; out : list Z }.

Definition io (E A : Type) : Type := conn -> conn * result A E.
Definition ret {E A} (a : A) : io E A := fun c => (c, Ok a).
Definition fail {E A} (e : E) : io E A := fun c => (c, Err e).
Definition bind {E A B} (m : io E A) (k : A -> io E B) : io E B :=
  fun c => match m c with (c, Ok a) => k a c | (c, Err e) => (c, Err e) end.
Definition lift {E A} (r : result A E) : io E A := fun c => (c, r).
(** [anyhow::ensure!]. *)
Definition require {E} (b : bool) (e : E) : io E unit := lift (ensure b e).

Declare Scope io_scope.
Delimit Scope io_scope with io.
Notation "'do!' x <- m ;; k" := (bind m (fun x => k))
  (at level 200, x pattern, m at level 99, k at level 200) : io_scope.
#[local] Open Scope io_scope.

Inductive handshake_error :=
  | ReadFailed (e : read_error) | CryptoFailed (e : crypto_error) | BadJson | SerializeFailed
  (** the client's *)
  | IncompatibleVersion (theirs : str) | PskRequired | PskNotUsed | NoProtectedControl
  | AuthRejected (message : str) | UnexpectedAuthResponse | NoServerProof | ProofMismatch
  | NoClientNonce | NoServerNonce | ServerError (message : str) | UnexpectedResponse
  | NoPayloadSizes | NoMtuProbe | NoByteBudget | BadCongestion | ExpectedTestAck
  | NoSinglePortTcp | NoUdpPorts
  (** the server's *)
  | VersionMismatch | ExpectedHello | ClientSentNoPsk | ServerHasNoPsk | PskMismatch
  | ExpectedAuthResponse | BadPayloadRequest | BadStreams | BadTestCongestion | ExpectedTestStart
  (** over QUIC *)
  | NoExporter | NoSessionKey | NoChannelBinding | PayloadOverQuic | ProtocolMismatch.

Definition PROTECTED_CONTROL_CAPABILITY : str := txt "protected_control_v1".

Definition is_some {A} (o : option A) : bool := match o with Some _ => true | None => false end.

Section handshake.
Context `{Aead}.
Variables (hmac_sha256 : list Z -> list Z -> list Z)
  (hkdf : list Z -> list Z -> list Z -> option (list Z)).
Variables (to_json : ControlMessage -> option str) (of_json : str -> option ControlMessage).
(** [tcp::validate_congestion], which asks the kernel. *)
Variable validate_congestion : str -> result unit str.

Definition serialize (m : ControlMessage) : io handshake_error str :=
  lift (ok_or (to_json m) SerializeFailed).
Definition parse (line : str) : io handshake_error ControlMessage :=
  lift (map_err (fun _ => BadJson) (deserialize of_json (trim line))).

(** [write_all(format!("{}\n", json))]. *)
Definition write_line (json : str) : io handshake_error unit :=
  fun c => (mkConn (rdr c) (out c ++ as_bytes json ++ [10]), Ok tt).

(** [read_bounded_line]: the characters of the line. *)
Definition next_line (r : reader) : reader * result str read_error :=
  let '(cs, l) := read_bounded_line (ended r) (chunks r) 0 [] in
  (mkReader cs (ended r), let? l := l in Ok (chars (fst l))).
Definition read_line : io handshake_error str :=
  fun c =>
    let '(r, l) := next_line (rdr c) in (mkConn r (out c), map_err ReadFailed l).

(** Through the transport. *)
Definition write_message (t : ProtectedControl) (json : str) : io handshake_error ProtectedControl :=
  fun c =>
    match control_write_message t (as_bytes json) with
    | (t, Ok frame) => (mkConn (rdr c) (out c ++ frame), Ok t)
    | (_, Err e) => (c, Err (CryptoFailed e))
    end.
Definition read_message (t : ProtectedControl) : io handshake_error (ProtectedControl * str) :=
  fun c =>
    let '(t, r, line) := control_read_message t (rdr c) in
    (mkConn r (out c), map_err ReadFailed (let? l := line in Ok (t, chars l))).

(** [format!("{}\n", msg.serialize()?)], then [write_all]. *)
Definition send (m : ControlMessage) : io handshake_error unit :=
  do! json <- serialize m;; write_line json.

(** ** The client *)
Section client.
Variables (program : str) (config : ClientConfig).
(** The nonce it generated, if it has a key, and the test's UUID. *)
Variables (fresh_nonce test_id : str).

Definition client_nonce : option str :=
  match psk config with Some _ => Some fresh_nonce | None => None end.

Definition client_hello_msg : ControlMessage :=
  match client_nonce with
  | Some n => client_hello_with_nonce program n
  | None => client_hello program
  end.

(** The answer to the challenge, and the check of the server's proof. *)
Definition answer_challenge (client_hello_json raw_server_hello : str)
    (capabilities : option (list str)) (challenge : AuthChallenge) : io handshake_error unit :=
  do! psk <- lift (ok_or (psk config) PskRequired);;
  do! _ <- require (capability_advertised capabilities PROTECTED_CONTROL_CAPABILITY) NoProtectedControl;;
  let response := compute_response hmac_sha256 (as_bytes (challenge_nonce challenge)) (as_bytes psk) in
  do! _ <- send (AuthResponse response);;
  do! line <- read_line;;
  do! msg <- parse line;;
  match msg with
  | AuthSuccess server_proof =>
    do! cn <- lift (ok_or client_nonce NoClientNonce);;
    do! proof <- lift (ok_or server_proof NoServerProof);;
    do! ok <- lift (map_err CryptoFailed
      (verify_server_proof_with_key hkdf hmac_sha256 (as_bytes client_hello_json)
         (as_bytes raw_server_hello) (as_bytes cn) (as_bytes (challenge_nonce challenge))
         (as_bytes psk) (as_bytes proof)));;
    require ok ProofMismatch
  | ErrorMsg message => fail (AuthRejected message)
  | _ => fail UnexpectedAuthResponse
  end.

(** The server's capabilities, its version, and the nonce of its challenge. *)
Definition client_hello_phase : io handshake_error (option (list str) * option str * option str) :=
  do! client_hello_json <- serialize client_hello_msg;;
  do! _ <- write_line client_hello_json;;
  do! line <- read_line;;
  let raw_server_hello := trim line in
  do! msg <- parse line;;
  match msg with
  | Hello version _ server capabilities auth _ =>
    do! _ <- require (versions_compatible version PROTOCOL_VERSION) (IncompatibleVersion version);;
    match auth with
    | Some challenge =>
      do! _ <- answer_challenge client_hello_json raw_server_hello capabilities challenge;;
      ret (capabilities, server, Some (challenge_nonce challenge))
    | None =>
      do! _ <- require (negb (is_some (psk config))) PskNotUsed;;
      ret (capabilities, server, None)
    end
  | ErrorMsg message => fail (ServerError message)
  | _ => fail UnexpectedResponse
  end.

(** The transport of the rest of the session. *)
Definition install_transport (server_nonce : option str) : io handshake_error ProtectedControl :=
  match psk config with
  | None => ret Plaintext
  | Some psk =>
    do! cn <- lift (ok_or client_nonce NoClientNonce);;
    do! sn <- lift (ok_or server_nonce NoServerNonce);;
    do! codecs <- lift (map_err CryptoFailed
      (ControlCodec.derive_pair_with_key hkdf (as_bytes cn) (as_bytes sn) (as_bytes psk)));;
    ret (protected_client (fst codecs) (snd codecs))
  end.

Definition requested_payload_size : option Z :=
  if bool_decide (protocol config = Udp) then udp_payload_size config else None.

(** What the configuration asks of the server must be advertised. *)
Definition check_capabilities (capabilities : option (list str)) : result unit handshake_error :=
  let advertised name := capability_advertised capabilities name in
  let? _ := ensure (negb (is_some requested_payload_size)
                    || advertised UDP_PAYLOAD_SIZE_CAPABILITY) NoPayloadSizes in
  let? _ := ensure (negb (mtu_probe config) || advertised (txt "mtu_probe_v1")) NoMtuProbe in
  let? _ := ensure (negb (is_some (byte_budget config)) || advertised BYTE_BUDGET_CAPABILITY)
              NoByteBudget in
  match tcp_congestion config with
  | Some algo =>
    ensure (negb (bool_decide (protocol config = Tcp)) || is_ok (validate_congestion algo)) BadCongestion
  | None => Ok tt
  end.

Definition test_start : TestStart :=
  mkTestStart test_id (protocol config) (streams config)
    (wrap 32 (duration config / 1000000000)) (direction config) (bitrate config)
    (tcp_congestion config) (mptcp config) (dscp config) (window_size config)
    (bool_decide (protocol config = Tcp) && enabled (zerocopy config)) (mtu_probe config)
    (bool_decide (protocol config = Tcp) && tcp_nodelay config) (byte_budget config)
    requested_payload_size.

(** The token of a single-port UDP test; every other use of an empty port
    list must have been negotiated too. *)
Definition check_ack (capabilities : option (list str)) (data_ports : list Z)
    (udp_token : option str) : result (option (list Z)) handshake_error :=
  let no_ports := match data_ports with [] => true | _ => false end in
  let? _ := ensure (negb (no_ports && bool_decide (protocol config = Tcp))
                    || capability_advertised capabilities (txt "single_port_tcp")) NoSinglePortTcp in
  if bool_decide (protocol config = Udp) && no_ports then
    match udp_token with
    | Some t =>
      match parse_hello_token t with
      | Some token => if capability_advertised capabilities SINGLE_PORT_UDP_CAPABILITY
                      then Ok (Some token) else Err NoUdpPorts
      | None => Err NoUdpPorts
      end
    | None => Err NoUdpPorts
    end
  else Ok None.

Record agreed := mkAgreed {
  transport : ProtectedControl; server_version : option str; supports_pause : bool;
  udp_feedback : bool; ports : list Z; token : option (list Z)
}.

(** From the server's hello on. *)
Definition request_phase (hello : option (list str) * option str * option str)
    : io handshake_error agreed :=
  let '(capabilities, server, server_nonce) := hello in
  do! t <- install_transport server_nonce;;
  do! _ <- lift (check_capabilities capabilities);;
  do! json <- serialize (TestStartMsg test_start);;
  do! t <- write_message t json;;
  do! r <- read_message t;;
  let '(t, line) := r in
  do! msg <- parse line;;
  match msg with
  | TestAck _ data_ports udp_token =>
    do! token <- lift (check_ack capabilities data_ports udp_token);;
    ret (mkAgreed t server (capability_advertised capabilities (txt "pause_resume"))
           (capability_advertised capabilities (txt "udp_feedback_v1")) data_ports token)
  | ErrorMsg message => fail (ServerError message)
  | _ => fail ExpectedTestAck
  end.

Definition client_handshake : io handshake_error agreed :=
  do! hello <- client_hello_phase;; request_phase hello.
End client.

(** ** The server *)
Definition MAX_STREAMS : Z := 128.
Definition MAX_TEST_DURATION : Z := 3600 * 1000000000.

Section server.
Variables (program : str) (server_psk : option str) (capabilities : list str).
Variables (fresh_nonce : str) (server_max_duration : option Z).

(** [explain_psk_hangup]: the line read, or the reason it is missing. *)
Definition explain_psk_hangup (read : result unit handshake_error) (line : str)
    (client_has_psk : bool) : result unit handshake_error :=
  if match read with Err _ => true | Ok _ => match line with [] => true | _ => false end end then
    match client_has_psk, is_some server_psk with
    | false, true => Err ClientSentNoPsk
    | true, false => Err ServerHasNoPsk
    | _, _ => read
    end
  else read.

(** A read whose failure may be explained; a failed read leaves no line. *)
Definition explained (client_has_psk : bool) {A} (line_of : A -> str) (m : io handshake_error A)
    : io handshake_error A :=
  fun c =>
    let '(c, r) := m c in
    (c, match r with
        | Ok a => let? _ := explain_psk_hangup (Ok tt) (line_of a) client_has_psk in Ok a
        | Err e => let? _ := explain_psk_hangup (Err e) [] client_has_psk in Err e
        end).

(** The hello in answer to the client's, and the challenge in it. *)
Definition server_hello_phase (first_msg : ControlMessage)
    : io handshake_error (option (str * str) * option (list str) * option str) :=
  match first_msg with
  | Hello version _ _ client_capabilities _ client_nonce =>
    if negb (versions_compatible version PROTOCOL_VERSION) then
      do! _ <- send (ErrorMsg (txt "Incompatible protocol version: " ++ version
                           ++ txt " (server: " ++ PROTOCOL_VERSION ++ txt ")"));; fail VersionMismatch
    else
      match server_psk with
      | Some _ =>
        if negb (capability_advertised client_capabilities PROTECTED_CONTROL_CAPABILITY) then
          do! _ <- send (ErrorMsg (txt "PSK authentication requires protected_control_v1 capability"));;
          fail NoProtectedControl
        else
          do! server_hello_json <- serialize
            (server_hello_with_auth_and_capabilities program fresh_nonce capabilities);;
          do! _ <- write_line server_hello_json;;
          ret (Some (fresh_nonce, server_hello_json), client_capabilities, client_nonce)
      | None =>
        do! _ <- send (server_hello_with_capabilities program capabilities);;
        ret (None, client_capabilities, client_nonce)
      end
  | _ => fail ExpectedHello
  end.

(** The check of the client's response, and the proof in return. *)
Definition server_auth (raw_client_hello nonce server_hello_json : str) (client_nonce : option str)
    : io handshake_error ProtectedControl :=
  do! line <- explained (is_some client_nonce) (fun l => l) read_line;;
  do! msg <- parse line;;
  match msg with
  | AuthResponse response =>
    do! psk <- lift (ok_or server_psk PskRequired);;
    if negb (verify_response hmac_sha256 (as_bytes nonce) (as_bytes psk) (as_bytes response)) then
      do! _ <- send (ErrorMsg (txt "Authentication failed"));; fail PskMismatch
    else
      do! cn <- lift (ok_or client_nonce NoClientNonce);;
      do! codecs <- lift (map_err CryptoFailed
        (ControlCodec.derive_pair_with_key hkdf (as_bytes cn) (as_bytes nonce) (as_bytes psk)));;
      do! proof <- lift (map_err CryptoFailed
        (compute_server_proof_with_key hkdf hmac_sha256 (as_bytes raw_client_hello)
           (as_bytes server_hello_json) (as_bytes cn) (as_bytes nonce) (as_bytes psk)));;
      do! _ <- send (auth_success_with_proof proof);;
      ret (protected_server (fst codecs) (snd codecs))
  | _ =>
    do! _ <- send (ErrorMsg (txt "Expected auth response"));; fail ExpectedAuthResponse
  end.

Definition effective_duration (duration_secs : Z) : Z :=
  let duration := duration_secs * 1000000000 in
  if duration =? 0 then match server_max_duration with Some m => m | None => 0 end
  else
    let duration := if MAX_TEST_DURATION <? duration then MAX_TEST_DURATION else duration in
    match server_max_duration with
    | Some m => if m <? duration then m else duration
    | None => duration
    end.

(** Tell the client, then give up. *)
Definition refuse {A} (t : ProtectedControl) (message : str) (e : handshake_error)
    : io handshake_error A :=
  do! json <- serialize (ErrorMsg message);;
  do! _ <- write_message t json;;
  fail e.

(** [validation], as the error sent back. *)
Definition payload_request (s : TestStart) : option str :=
  match ts_udp_payload_size s with
  | Some size =>
    if negb (bool_decide (ts_protocol s = Udp)) || ts_mtu_probe s
    then Some (txt "UDP payload size requires a UDP throughput test")
    else if is_ok (validate_payload_size size) then None
    else Some (txt "UDP payload size must be between " ++ dec UDP_HEADER_SIZE ++ txt " and "
               ++ dec MAX_UDP_PAYLOAD_SIZE ++ txt " bytes")
  | None => None
  end.

Definition congestion_request (s : TestStart) : option str :=
  match ts_congestion s with
  | Some algo =>
    if bool_decide (ts_protocol s = Tcp) then
      match validate_congestion algo with
      | Err e => Some (txt "Unsupported congestion control algorithm '" ++ algo ++ txt "': " ++ e)
      | Ok _ => None
      end
    else None
  | None => None
  end.

(** The request that is run, its effective duration and payload size. *)
Definition handle_test_request (client_has_psk : bool) (t : ProtectedControl)
    : io handshake_error (ProtectedControl * TestStart * Z * Z) :=
  do! r <- explained client_has_psk snd (read_message t);;
  let '(t, line) := r in
  do! msg <- parse line;;
  match msg with
  | TestStartMsg s =>
    match payload_request s, congestion_request s with
    | Some error, _ => refuse t error BadPayloadRequest
    | None, congestion =>
      if (ts_streams s =? 0) || (MAX_STREAMS <? ts_streams s) then
        refuse t (txt "Invalid stream count " ++ dec (ts_streams s) ++ txt " (must be 1-"
                  ++ dec MAX_STREAMS ++ txt ")") BadStreams
      else match congestion with
           | Some error => refuse t error BadTestCongestion
           | None => ret (t, s, effective_duration (ts_duration_secs s),
                          match ts_udp_payload_size s with Some n => n | None => UDP_PAYLOAD_SIZE end)
           end
    end
  | _ => refuse t (txt "Expected test_start message") ExpectedTestStart
  end.

Definition server_handshake (first_msg : ControlMessage) (raw_client_hello : str)
    : io handshake_error (ProtectedControl * TestStart * Z * Z) :=
  do! hello <- server_hello_phase first_msg;;
  let '(auth_nonce, client_capabilities, client_nonce) := hello in
  do! t <- match auth_nonce with
        | Some (nonce, server_hello_json) =>
          server_auth raw_client_hello nonce server_hello_json client_nonce
        | None => ret Plaintext
        end;;
  handle_test_request (is_some client_nonce) t.
End server.

(** ** Reasoning about runs *)
Lemma bind_inv {E A B} (m : io E A) (k : A -> io E B) c c' r :
  bind m k c = (c', r) ->
  (exists c1 a, m c = (c1, Ok a) /\ k a c1 = (c', r)) \/ (exists e, m c = (c', Err e) /\ r = Err e).
Proof.
  unfold bind. destruct (m c) as [c1 [a|e]] eqn:Em; [intros Hk; left; eauto|].
  intros [= <- <-]. right. eauto.
Qed.

Lemma bind_ok {E A B} (m : io E A) (k : A -> io E B) c c' b :
  bind m k c = (c', Ok b) -> exists c1 a, m c = (c1, Ok a) /\ k a c1 = (c', Ok b).
Proof. intros [?|(e & _ & ?)]%bind_inv; [done|discriminate]. Qed.

Lemma bind_run {E A B} (m : io E A) (k : A -> io E B) c c1 a :
  m c = (c1, Ok a) -> bind m k c = k a c1.
Proof. unfold bind. by intros ->. Qed.

Lemma bind_lift {E A B} (a : A) (k : A -> io E B) c : bind (lift (Ok a)) k c = k a c.
Proof. done. Qed.

Lemma lift_inv {E A} (x : result A E) c c' r : lift x c = (c', r) -> c' = c /\ x = r.
Proof. by intros [= <- <-]. Qed.

Lemma require_inv {E} b (e : E) c c' r :
  require b e c = (c', r) -> c' = c /\ (r = Ok tt /\ b = true \/ r = Err e /\ b = false).
Proof. unfold require, lift, ensure. destruct b; intros [= <- <-]; auto. Qed.

Lemma ok_or_ok {T E} (o : option T) (e : E) t : ok_or o e = Ok t -> o = Some t.
Proof. destruct o; [|done]. by intros [= ->]. Qed.

Lemma map_err_ok {T E F} (f : E -> F) (r : result T E) t : map_err f r = Ok t -> r = Ok t.
Proof. destruct r; [|done]. by intros [= ->]. Qed.

Lemma ensure_ok {E} b (e : E) u : ensure b e = Ok u -> b = true.
Proof. by destruct b. Qed.

Lemma deserialize_ok (f : str -> option ControlMessage) s m : deserialize f s = Ok m -> f s = Some m.
Proof. unfold deserialize. destruct (f s); [|done]. cbn. destruct (Protocol.validate _); [|done]. by intros [= ->]. Qed.

(** The line on the wire. *)
Definition line_of (json : str) : list Z := as_bytes json ++ [10].

Lemma serialize_inv m c c' r :
  serialize m c = (c', r) -> c' = c /\ forall s, r = Ok s -> to_json m = Some s.
Proof. intros [-> <-]%lift_inv. split; [done|]. by intros s ?%ok_or_ok. Qed.

Lemma send_inv m c c' r :
  send m c = (c', r) ->
  (exists s, to_json m = Some s /\ out c' = out c ++ line_of s /\ rdr c' = rdr c) \/
  (c' = c /\ exists e, r = Err e).
Proof.
  unfold send. intros [(c1 & s & [-> Hs]%serialize_inv & Hw)|(e & [-> _]%serialize_inv & ->)]%bind_inv.
  - left. exists s. injection Hw as <- <-. eauto.
  - eauto.
Qed.

Lemma parse_inv line c c' r :
  parse line c = (c', r) -> c' = c /\ forall m, r = Ok m -> of_json (trim line) = Some m.
Proof. intros [-> <-]%lift_inv. split; [done|]. by intros m ?%map_err_ok%deserialize_ok. Qed.

Lemma read_line_inv c c' r :
  read_line c = (c', r) ->
  out c' = out c /\ forall l, r = Ok l -> next_line (rdr c) = (rdr c', Ok l).
Proof.
  unfold read_line. destruct (next_line (rdr c)) as [rd x] eqn:E. intros [= <- <-].
  split; [done|]. by intros l ->%map_err_ok.
Qed.

Lemma write_message_protected send recv json c c' r :
  write_message (Protected send recv) json c = (c', r) ->
  (c' = c /\ exists e, r = Err e) \/
  exists send' frame, encode_message (WriterProtected send) (as_bytes json) = (WriterProtected send', Ok frame) /\
    out c' = out c ++ frame /\ rdr c' = rdr c /\ r = Ok (Protected send' recv).
Proof.
  unfold write_message, control_write_message, encode_message.
  destruct (ControlCodec.seal send _) as [send' [p|e]]; cbn [rbind]; intros [= <- <-]; [right|left]; eauto 10.
Qed.

Lemma read_message_protected send recv c c' r :
  read_message (Protected send recv) c = (c', r) ->
  out c' = out c /\
  forall t l, r = Ok (t, l) -> exists recv' line, t = Protected send recv' /\ l = chars line /\
    read_frame recv (rdr c) = (recv', rdr c', Ok line).
Proof.
  unfold read_message, control_read_message.
  destruct (read_frame recv (rdr c)) as [[recv' rd] [line|e]] eqn:E; cbn [rbind map_err];
    intros [= <- <-]; (split; [done|]); [|discriminate].
  intros t l [= <- <-]. eauto 10.
Qed.

(** ** The client never downgrades *)
Section client_runs.
Variables (program : str) (config : ClientConfig) (fresh_nonce test_id : str) (key : str).
Hypothesis Hpsk : psk config = Some key.

(** What the client read before it trusted the server: a hello with a
    challenge and the capability, and a proof over both hellos that only the
    holder of the key computes.  [r] is the input at the start. *)
Definition authenticated (r : reader) (hello_json nonce : str) : Prop :=
  exists r1 r2 raw_hello auth_line version client server caps method cn proof,
    next_line r = (r1, Ok raw_hello) /\
    of_json (trim raw_hello)
      = Some (Hello version client server caps (Some (mkAuthChallenge method nonce)) cn) /\
    versions_compatible version PROTOCOL_VERSION = true /\
    capability_advertised caps PROTECTED_CONTROL_CAPABILITY = true /\
    next_line r1 = (r2, Ok auth_line) /\
    of_json (trim auth_line) = Some (AuthSuccess (Some proof)) /\
    verify_server_proof_with_key hkdf hmac_sha256 (as_bytes hello_json)
      (as_bytes (trim raw_hello)) (as_bytes fresh_nonce) (as_bytes nonce) (as_bytes key)
      (as_bytes proof) = Ok true.

Definition response_to (nonce : str) : ControlMessage :=
  AuthResponse (compute_response hmac_sha256 (as_bytes nonce) (as_bytes key)).

Lemma answer_challenge_runs hello raw caps ch c c' r :
  answer_challenge config fresh_nonce hello raw caps ch c = (c', r) ->
  (c' = c /\ exists e, r = Err e) \/
  exists response, to_json (response_to (challenge_nonce ch)) = Some response /\
    out c' = out c ++ line_of response /\
    (r = Ok tt ->
     capability_advertised caps PROTECTED_CONTROL_CAPABILITY = true /\
     exists auth_line proof, next_line (rdr c) = (rdr c', Ok auth_line) /\
       of_json (trim auth_line) = Some (AuthSuccess (Some proof)) /\
       verify_server_proof_with_key hkdf hmac_sha256 (as_bytes hello) (as_bytes raw)
         (as_bytes fresh_nonce) (as_bytes (challenge_nonce ch)) (as_bytes key) (as_bytes proof)
       = Ok true).
Proof.
  unfold answer_challenge. rewrite Hpsk. cbn [ok_or]. rewrite bind_lift. intros Hk.
  apply bind_inv in Hk as [(c1 & [] & [-> [[_ Hcap]|[? _]]]%require_inv & Hk)|(e & [-> _]%require_inv & ->)];
    [|discriminate|eauto].
  apply bind_inv in Hk as [(c1 & [] & Hs & Hk)|(e & Hs & ->)];
    (apply send_inv in Hs as [(j & Hj & Ho & Hr)|(-> & e' & He)]; [|try discriminate; eauto]);
    right; exists j; (split; [done|]).
  2: split; [done|discriminate].
  apply bind_inv in Hk as [(c2 & l & [Ho2 Hl]%read_line_inv & Hk)|(e & [Ho2 _]%read_line_inv & ->)];
    [|split; [congruence|discriminate]].
  specialize (Hl l eq_refl). rewrite Hr in Hl.
  apply bind_inv in Hk as [(c3 & m & [-> Hm]%parse_inv & Hk)|(e & [-> _]%parse_inv & ->)];
    [|split; [congruence|discriminate]].
  specialize (Hm m eq_refl). unfold client_nonce in Hk. rewrite Hpsk in Hk.
  destruct m; try (injection Hk as <- <-; split; [congruence|discriminate]).
  cbn [ok_or] in Hk. rewrite bind_lift in Hk.
  apply bind_inv in Hk as [(c4 & p & [-> Hp%ok_or_ok]%lift_inv & Hk)|(e & [-> _]%lift_inv & ->)];
    [|split; [congruence|discriminate]].
  apply bind_inv in Hk as [(c4 & v & [-> Hv%map_err_ok]%lift_inv & Hk)|(e & [-> _]%lift_inv & ->)];
    [|split; [congruence|discriminate]].
  apply require_inv in Hk as [-> [[-> ->]|[-> _]]]; [|split; [congruence|discriminate]].
  subst. split; [congruence|]. intros _. eauto 10.
Qed.

Lemma hello_phase_runs c c' r :
  client_hello_phase program config fresh_nonce c = (c', r) ->
  (c' = c /\ exists e, r = Err e) \/
  exists hello, to_json (client_hello_msg program config fresh_nonce) = Some hello /\
    ((out c' = out c ++ line_of hello /\ exists e, r = Err e) \/
     exists nonce response, to_json (response_to nonce) = Some response /\
       out c' = out c ++ line_of hello ++ line_of response /\
       forall a, r = Ok a -> a.2 = Some nonce /\ authenticated (rdr c) hello nonce).
Proof.
  unfold client_hello_phase.
  intros [(c1 & hello & [-> Hj]%serialize_inv & Hk)|(e & [-> _]%serialize_inv & ->)]%bind_inv; [|eauto].
  specialize (Hj hello eq_refl). right. exists hello. split; [done|].
  unfold bind at 1, write_line in Hk.
  apply bind_inv in Hk as [(c2 & l & [Ho2 Hl]%read_line_inv & Hk)|(e & [Ho2 _]%read_line_inv & ->)];
    [|left; eauto].
  specialize (Hl l eq_refl).
  apply bind_inv in Hk as [(c3 & m & [-> Hm]%parse_inv & Hk)|(e & [-> _]%parse_inv & ->)]; [|left; eauto].
  specialize (Hm m eq_refl).
  destruct m; try (injection Hk as <- <-; left; eauto).
  apply bind_inv in Hk as [(c3 & [] & [-> [[_ Hv]|[? _]]]%require_inv & Hk)|(e & [-> _]%require_inv & ->)];
    [|discriminate|left; eauto].
  destruct auth as [ch|].
  - apply bind_inv in Hk as [(c3 & [] & Ha & Hk)|(e & Ha & ->)];
      (apply answer_challenge_runs in Ha as [[-> (e' & He)]|(resp & Hr & Ho3 & Hok)]);
      try discriminate; try (left; by eauto); right; exists (challenge_nonce ch), resp;
      (split; [done|]); cbn [out rdr] in *.
    + injection Hk as <- <-. split; [rewrite Ho3, Ho2; by rewrite <- app_assoc|].
      intros a [= <-]. split; [done|]. destruct (Hok eq_refl) as (Hcap & al & proof & ? & ? & ?).
      destruct ch as [method nonce]. cbn [challenge_nonce] in *.
      exists (rdr c2), (rdr c3), l, al. eauto 15.
    + split; [rewrite Ho3, Ho2; by rewrite <- app_assoc|discriminate].
  - rewrite Hpsk in Hk. cbn in Hk. injection Hk as <- <-. left; eauto.
Qed.

Lemma install_transport_runs nonce c c' r :
  install_transport config fresh_nonce (Some nonce) c = (c', r) ->
  c' = c /\ forall t, r = Ok t -> exists c2s s2c, t = Protected c2s s2c /\
    ControlCodec.derive_pair_with_key hkdf (as_bytes fresh_nonce) (as_bytes nonce) (as_bytes key)
    = Ok (c2s, s2c).
Proof.
  unfold install_transport, client_nonce. rewrite Hpsk. cbn [ok_or]. rewrite !bind_lift.
  intros [(c1 & [c2s s2c] & [-> Hp%map_err_ok]%lift_inv & [= <- <-])|(e & [-> _]%lift_inv & ->)]%bind_inv;
    (split; [done|]); [|discriminate].
  intros t [= <-]. eauto.
Qed.

(** What the request phase adds is one sealed frame, or nothing. *)
Definition sealed_request (nonce : str) (frame : list Z) : Prop :=
  exists start c2s s2c,
    to_json (TestStartMsg (test_start config test_id)) = Some start /\
    ControlCodec.derive_pair_with_key hkdf (as_bytes fresh_nonce) (as_bytes nonce)
      (as_bytes key) = Ok (c2s, s2c) /\
    (encode_message (WriterProtected c2s) (as_bytes start)).2 = Ok frame.

Lemma request_phase_runs caps server nonce c c' r :
  request_phase config fresh_nonce test_id (caps, server, Some nonce) c = (c', r) ->
  (out c' = out c /\ exists e, r = Err e) \/
  exists frame, sealed_request nonce frame /\ out c' = out c ++ frame /\
    forall a, r = Ok a -> is_protected (transport a) = true.
Proof.
  unfold request_phase.
  intros [(c2 & t & [-> Ht]%install_transport_runs & Hk)|(e & [-> _]%install_transport_runs & ->)]%bind_inv;
    [|left; eauto].
  destruct (Ht t eq_refl) as (c2s & s2c & -> & Hp).
  apply bind_inv in Hk as [(c2 & [] & [-> _]%lift_inv & Hk)|(e & [-> _]%lift_inv & ->)];
    [|left; eauto].
  apply bind_inv in Hk as [(c2 & start & [-> Hj]%serialize_inv & Hk)|(e & [-> _]%serialize_inv & ->)];
    [|left; eauto].
  specialize (Hj _ eq_refl).
  apply bind_inv in Hk as [(c2 & t & Hw & Hk)|(e & Hw & ->)];
    apply write_message_protected in Hw as [[-> (e' & He)]|(c2s' & frame & He & Ho & _ & Ht')];
    try discriminate; [|left; eauto]. injection Ht' as ->.
  assert (Hs : sealed_request nonce frame) by (exists start, c2s, s2c; by rewrite He).
  right. exists frame. split; [done|].
  apply bind_inv in Hk as [(c3 & [t line] & [Ho3 Hr]%read_message_protected & Hk)
                          |(e & [Ho3 _]%read_message_protected & ->)];
    [|split; [congruence|discriminate]].
  destruct (Hr _ _ eq_refl) as (recv' & l & -> & _ & _). rewrite Ho in Ho3.
  apply bind_inv in Hk as [(c4 & m & [-> _]%parse_inv & Hk)|(e & [-> _]%parse_inv & ->)];
    [|by split].
  destruct m; try (injection Hk as <- <-; by split).
  apply bind_inv in Hk as [(c4 & tok & [-> _]%lift_inv & [= <- <-])|(e & [-> _]%lift_inv & ->)];
    (split; [done|]); [by intros a [= <-]|discriminate].
Qed.

(** C3. A client with a pre-shared key never falls back to an unprotected
    session, whatever the peer or someone in between sends: in the clear it
    writes its hello and the answer to one challenge, nothing else; the test
    request leaves only after the server has proved, over both hellos, that
    it holds the key, and then sealed under the keys derived from it; and a
    handshake that succeeds leaves a protected transport. *)
Theorem client_never_downgrades c c' r :
  client_handshake program config fresh_nonce test_id c = (c', r) ->
  ((exists e, r = Err e) /\
   (out c' = out c \/
    exists hello, to_json (client_hello_msg program config fresh_nonce) = Some hello /\
    (out c' = out c ++ line_of hello \/
     exists nonce response, to_json (response_to nonce) = Some response /\
       out c' = out c ++ line_of hello ++ line_of response))) \/
  exists hello nonce response frame,
    to_json (client_hello_msg program config fresh_nonce) = Some hello /\
    to_json (response_to nonce) = Some response /\
    authenticated (rdr c) hello nonce /\ sealed_request nonce frame /\
    out c' = out c ++ line_of hello ++ line_of response ++ frame /\
    forall a, r = Ok a -> is_protected (transport a) = true.
Proof.
  unfold client_handshake.
  intros [(c1 & [[caps server] sn] & Hh & Hk)|(e & Hh & ->)]%bind_inv;
    apply hello_phase_runs in Hh as [[-> (e' & He)]|(hello & Hj & [[Ho (e' & He)]|(nonce & resp & Hr & Ho & Ha)])];
    try discriminate; [|left; split; eauto 10..].
  destruct (Ha _ eq_refl) as [Hn Hauth]. cbn [snd] in Hn. subst sn. clear Ha.
  apply request_phase_runs in Hk as [[Ho' (e & ->)]|(frame & Hs & Ho' & Hp)].
  - left. split; [eauto|]. right. exists hello. split; [done|]. right. exists nonce, resp.
    split; [done|congruence].
  - right. exists hello, nonce, resp, frame. rewrite Ho', Ho, <- !app_assoc. auto 10.
Qed.
End client_runs.

(** ** The server *)
Lemma explained_inv key_on has_psk {A} (f : A -> str) (m : io handshake_error A) c c' a :
  explained key_on has_psk f m c = (c', Ok a) -> m c = (c', Ok a).
Proof.
  unfold explained. destruct (m c) as [c1 [b|e]].
  - destruct (explain_psk_hangup _ _ _ _); cbn; congruence.
  - unfold explain_psk_hangup. by repeat case_match.
Qed.

Lemma refuse_err {A} t message e c c' (a : A) : refuse t message e c <> (c', Ok a).
Proof. unfold refuse. by intros (c1 & s & _ & (c2 & t2 & _ & [=])%bind_ok)%bind_ok. Qed.

Lemma handle_test_request_inv server_psk max_d has_psk t c c' t' s d n :
  handle_test_request server_psk max_d has_psk t c = (c', Ok (t', s, d, n)) ->
  exists line, read_message t c = (c', Ok (t', line)) /\ of_json (trim line) = Some (TestStartMsg s) /\
    payload_request s = None /\ congestion_request s = None /\
    ts_streams s <> 0 /\ ts_streams s <= MAX_STREAMS /\
    d = effective_duration max_d (ts_duration_secs s) /\
    n = match ts_udp_payload_size s with Some n => n | None => UDP_PAYLOAD_SIZE end.
Proof.
  unfold handle_test_request.
  intros (c1 & [t1 line] & Hr%explained_inv & (c2 & m & [-> Hm]%parse_inv & Hk)%bind_ok)%bind_ok.
  specialize (Hm m eq_refl). exists line.
  destruct m; try by apply refuse_err in Hk.
  destruct (payload_request start) eqn:Hp; [by apply refuse_err in Hk|].
  destruct (_ || _) eqn:Hs; [by apply refuse_err in Hk|].
  destruct (congestion_request start) eqn:Hc; [by apply refuse_err in Hk|].
  injection Hk as <- <- <- <- <-. zbool. auto 10.
Qed.

(** C4. A server with a pre-shared key only comes to a test through a client that
    advertised the protected channel, answered this session's challenge with
    the key, and sent the test request in a frame sealed under the keys
    derived from it; the rest of the session is on that transport. *)
Theorem server_never_downgrades program key caps fresh_nonce max_d first raw c c' t s d n :
  server_handshake program (Some key) caps fresh_nonce max_d first raw c = (c', Ok (t, s, d, n)) ->
  exists version client server client_caps auth cn response_line response r1 c2s s2c c2s' line,
    first = Hello version client server client_caps auth (Some cn) /\
    versions_compatible version PROTOCOL_VERSION = true /\
    capability_advertised client_caps PROTECTED_CONTROL_CAPABILITY = true /\
    next_line (rdr c) = (r1, Ok response_line) /\
    of_json (trim response_line) = Some (AuthResponse response) /\
    verify_response hmac_sha256 (as_bytes fresh_nonce) (as_bytes key) (as_bytes response) = true /\
    ControlCodec.derive_pair_with_key hkdf (as_bytes cn) (as_bytes fresh_nonce) (as_bytes key)
      = Ok (c2s, s2c) /\
    read_frame c2s r1 = (c2s', rdr c', Ok line) /\
    of_json (trim (chars line)) = Some (TestStartMsg s) /\
    t = Protected s2c c2s'.
Proof.
  unfold server_handshake. intros (c1 & [[auth_nonce ccaps] cn] & Hh & Hk)%bind_ok.
  unfold server_hello_phase in Hh. destruct first; try discriminate.
  destruct (versions_compatible _ _) eqn:Hv; cbn [negb] in Hh;
    [|by apply bind_ok in Hh as (? & ? & _ & [=])].
  destruct (capability_advertised capabilities _) eqn:Hcap; cbn [negb] in Hh;
    [|by apply bind_ok in Hh as (? & ? & _ & [=])].
  apply bind_ok in Hh as (c2 & sh & [-> _]%serialize_inv & Hh). unfold bind, write_line, ret in Hh.
  injection Hh as <- <- <- <-.
  apply bind_ok in Hk as (c3 & t1 & Ha & Hk).
  unfold server_auth in Ha. apply bind_ok in Ha as (c4 & rl & Hr%explained_inv & Ha).
  apply read_line_inv in Hr as [_ Hr]. specialize (Hr rl eq_refl).
  apply bind_ok in Ha as (c5 & m & [-> Hm]%parse_inv & Ha). specialize (Hm m eq_refl).
  destruct m; try by apply bind_ok in Ha as (? & ? & _ & [=]).
  cbn [ok_or] in Ha. rewrite bind_lift in Ha.
  destruct (verify_response _ _ _ _) eqn:Hvr; cbn [negb] in Ha;
    [|by apply bind_ok in Ha as (? & ? & _ & [=])].
  apply bind_ok in Ha as (c6 & cn & [-> Hcn%ok_or_ok]%lift_inv & Ha).
  apply bind_ok in Ha as (c6 & [c2s s2c] & [-> Hd%map_err_ok]%lift_inv & Ha).
  apply bind_ok in Ha as (c6 & proof & [-> _]%lift_inv & Ha).
  apply bind_ok in Ha as (c6 & [] & Hs & [= <- <-]).
  apply send_inv in Hs as [(? & _ & _ & Hrdr)|(_ & ? & [=])].
  apply handle_test_request_inv in Hk as (line & Hline & Hj & _). cbn [fst snd] in Hline.
  apply read_message_protected in Hline as [_ Hline].
  destruct (Hline _ _ eq_refl) as (recv' & l & -> & -> & Hf). rewrite Hrdr in Hf. subst.
  repeat eexists; eauto.
Qed.

(** C6. A test that is run is within the server's limits: one to 128 streams,
    a datagram payload that holds the header, and the duration asked for cut
    to an hour and to the server's maximum; without an end only if the client
    asked for none and the server sets none. *)
Theorem accepted_test_bounds server_psk max_d has_psk t c c' t' s d n :
  0 <= ts_streams s -> 0 <= ts_duration_secs s -> (forall m, max_d = Some m -> 0 < m) ->
  handle_test_request server_psk max_d has_psk t c = (c', Ok (t', s, d, n)) ->
  1 <= ts_streams s <= 128 /\ UDP_HEADER_SIZE <= n <= MAX_UDP_PAYLOAD_SIZE /\
  (ts_udp_payload_size s <> None -> ts_protocol s = Udp /\ ts_mtu_probe s = false) /\
  (forall m, max_d = Some m -> 0 < d <= m) /\
  (ts_duration_secs s <> 0 ->
   d = Z.min (Z.min (ts_duration_secs s * 1000000000) MAX_TEST_DURATION)
         (match max_d with Some m => m | None => MAX_TEST_DURATION end)) /\
  (d = 0 <-> ts_duration_secs s = 0 /\ max_d = None).
Proof.
  intros H0 H1 Hm (line & _ & _ & Hp & _ & Hz & Hs & -> & ->)%handle_test_request_inv.
  unfold MAX_STREAMS in Hs. split; [lia|]. split; [|split].
  - unfold payload_request in Hp. destruct (ts_udp_payload_size s) as [z|]; [|by vm_compute].
    destruct (_ || _); [done|]. unfold validate_payload_size in Hp. destruct (_ && _) eqn:E; [|done].
    zbool. lia.
  - unfold payload_request in Hp. destruct (ts_udp_payload_size s) as [z|]; [|done].
    intros _. case_bool_decide; cbn in Hp; [|done]. by destruct (ts_mtu_probe s).
  - unfold effective_duration, MAX_TEST_DURATION. cbv zeta.
    destruct (Z.eqb_spec (ts_duration_secs s * 1000000000) 0),
      (Z.ltb_spec (3600 * 1000000000) (ts_duration_secs s * 1000000000)); destruct max_d as [m|].
    all: try specialize (Hm _ eq_refl).
    all: split; [intros m' [= <-]; repeat zcase; lia || done|].
    all: split; [intros; repeat zcase; lia|].
    all: split; [intros E; split; [revert E; repeat zcase; lia|revert E; repeat zcase; lia || done]|].
    all: intros [E1 E2]; lia || done.
Qed.

(** ** What the client insists on *)
Lemma hello_phase_hello program config fresh_nonce c c' caps server sn :
  client_hello_phase program config fresh_nonce c = (c', Ok (caps, server, sn)) ->
  exists r1 raw version client auth cn,
    next_line (rdr c) = (r1, Ok raw) /\
    of_json (trim raw) = Some (Hello version client server caps auth cn) /\
    versions_compatible version PROTOCOL_VERSION = true /\
    sn = option_map challenge_nonce auth /\ (psk config = None <-> auth = None).
Proof.
  unfold client_hello_phase. intros (c1 & hello & [-> _]%serialize_inv & Hk)%bind_ok.
  unfold bind at 1, write_line in Hk.
  apply bind_ok in Hk as (c2 & l & [_ Hl]%read_line_inv & Hk). specialize (Hl l eq_refl).
  apply bind_ok in Hk as (c3 & m & [-> Hm]%parse_inv & Hk). specialize (Hm m eq_refl).
  destruct m; try discriminate.
  apply bind_ok in Hk as (c4 & [] & [-> [[_ Hv]|[? _]]]%require_inv & Hk); [|discriminate].
  exists (rdr c2), l, version, client. destruct auth as [ch|].
  - apply bind_ok in Hk as (c5 & [] & Ha & [= <- <- <- <-]).
    assert (psk config <> None).
    { intros E. unfold answer_challenge in Ha. rewrite E in Ha. discriminate. }
    exists (Some ch), client_nonce0. cbn. naive_solver.
  - apply bind_ok in Hk as (c5 & [] & [-> [[_ Hn]|[? _]]]%require_inv & [= <- <- <- <-]); [|discriminate].
    assert (psk config = None) by by destruct (psk config).
    exists None, client_nonce0. cbn. naive_solver.
Qed.

Lemma check_ack_ok config caps ports tok r :
  check_ack config caps ports tok = Ok r ->
  (protocol config = Tcp -> ports = [] -> capability_advertised caps (txt "single_port_tcp") = true) /\
  (r = None <-> ~ (protocol config = Udp /\ ports = [])) /\
  (r <> None -> r = tok ≫= parse_hello_token /\
    capability_advertised caps SINGLE_PORT_UDP_CAPABILITY = true).
Proof.
  unfold check_ack. intros ([] & He%ensure_ok & Hk)%rbind_ok. split.
  - intros Ht ->. rewrite Ht in He. exact He.
  - clear He. destruct (bool_decide_reflect (protocol config = Udp)) as [Hu|Hu]; cbn [andb] in Hk;
      [|injection Hk as <-; tauto].
    destruct ports; [|injection Hk as <-; split; [naive_solver|done]].
    destruct tok as [t|]; [|done]. cbn. destruct (parse_hello_token t); [|done].
    destruct (capability_advertised _ _); [|done]. injection Hk as <-. naive_solver.
Qed.

(** A client never runs a test the server did not agree to: when its
    handshake succeeds the server's hello had a compatible version, asked for
    authentication exactly when the client has a key, and advertised every
    feature the request depends on, so that no old server silently answers a
    different question; an empty port list is only accepted in a negotiated
    single-port mode, with a valid token on UDP. *)
Theorem client_terms_advertised program config fresh_nonce test_id c c' a :
  client_handshake program config fresh_nonce test_id c = (c', Ok a) ->
  exists r1 raw version client caps auth cn,
    next_line (rdr c) = (r1, Ok raw) /\
    of_json (trim raw) = Some (Hello version client (server_version a) caps auth cn) /\
    versions_compatible version PROTOCOL_VERSION = true /\
    (psk config = None <-> auth = None) /\
    (protocol config = Udp -> udp_payload_size config <> None ->
     capability_advertised caps UDP_PAYLOAD_SIZE_CAPABILITY = true) /\
    (mtu_probe config = true -> capability_advertised caps (txt "mtu_probe_v1") = true) /\
    (byte_budget config <> None -> capability_advertised caps BYTE_BUDGET_CAPABILITY = true) /\
    (protocol config = Tcp -> ports a = [] ->
     capability_advertised caps (txt "single_port_tcp") = true) /\
    (protocol config = Udp -> ports a = [] -> is_some (token a) = true /\
     capability_advertised caps SINGLE_PORT_UDP_CAPABILITY = true).
Proof.
  unfold client_handshake. intros (c1 & [[caps server] sn] & Hh & Hk)%bind_ok.
  apply hello_phase_hello in Hh as (r1 & raw & version & client & auth & cn & Hr & Hj & Hv & _ & Ha).
  unfold request_phase in Hk.
  apply bind_ok in Hk as (c2 & t & _ & Hk).
  apply bind_ok in Hk as (c3 & [] & [-> Hc]%lift_inv & Hk).
  apply bind_ok in Hk as (c4 & start & [-> _]%serialize_inv & Hk).
  apply bind_ok in Hk as (c5 & t1 & _ & Hk). apply bind_ok in Hk as (c6 & [t2 l] & _ & Hk).
  apply bind_ok in Hk as (c7 & m & _ & Hk). destruct m; try discriminate.
  apply bind_ok in Hk as (c8 & tok & [-> Hack%check_ack_ok]%lift_inv & [= <- <-]).
  destruct Hack as (Htcp & Hnone & Hudp).
  unfold check_capabilities, requested_payload_size in Hc.
  apply rbind_ok in Hc as ([] & H1%ensure_ok & Hc). apply rbind_ok in Hc as ([] & H2%ensure_ok & Hc).
  apply rbind_ok in Hc as ([] & H3%ensure_ok & Hc).
  exists r1, raw, version, client, caps, auth, cn. cbn [server_version ports token].
  split_and!; try done.
  - intros Hp Hu. rewrite bool_decide_true in H1 by done. by destruct (udp_payload_size config).
  - intros Hp. by rewrite Hp in H2.
  - intros Hb. by destruct (byte_budget config).
  - intros Hp Hports. destruct tok as [tk|]; [|exfalso; by apply Hnone]. split; [done|]. by apply Hudp.
Qed.
End handshake.

(** ** Witnesses: a single-port UDP test between two concrete ends *)
Definition demo_config : ClientConfig :=
  mkClientConfig (txt "h") 5201 Udp 2 10000000000 Upload None (Some 1200) false None None
    (Some (txt "secret")) DualStack None false false true Auto None false None None.
Definition demo_hmac (k m : list Z) : list Z := [zsum k mod 256; zsum m mod 256; len m mod 256].
Definition demo_hkdf (salt ikm info : list Z) : option (list Z) :=
  Some (take 32 (ikm ++ info ++ repeat 9 32)).
Definition demo_token : str := txt "000102030405060708090a0b0c0d0e0f".

(** Texts for the handshake's messages, and the reader of those texts. *)
Definition demo_messages (proof : str) : list (str * ControlMessage) :=
  [(txt "{ch}", client_hello_msg (txt "xfr") demo_config (txt "c1"));
   (txt "{sh}", server_hello_with_auth_and_capabilities (txt "xfr") (txt "s1") supported_capabilities);
   (txt "{rj}", response_to demo_hmac (txt "secret") (txt "s1"));
   (txt "{pj}", AuthSuccess (Some proof));
   (txt "{tj}", TestStartMsg (test_start demo_config (txt "id")));
   (txt "{aj}", TestAck (txt "id") [] (Some demo_token))].
Definition demo_to_json (m : ControlMessage) : option str :=
  match m with
  | Hello _ _ None _ _ _ => Some (txt "{ch}")
  | Hello _ _ (Some _) _ _ _ => Some (txt "{sh}")
  | AuthResponse _ => Some (txt "{rj}")
  | AuthSuccess _ => Some (txt "{pj}")
  | TestStartMsg _ => Some (txt "{tj}")
  | TestAck _ _ _ => Some (txt "{aj}")
  | _ => None
  end.
Definition demo_of_json (proof s : str) : option ControlMessage :=
  option_map snd (List.find (fun p => str_eqb s (fst p)) (demo_messages proof)).
Definition demo_proof : str :=
  match compute_server_proof_with_key demo_hkdf demo_hmac (txt "{ch}") (txt "{sh}") (txt "c1")
          (txt "s1") (txt "secret") with Ok p => p | Err _ => [] end.

Definition demo_codecs : ControlCodec * ControlCodec :=
  match ControlCodec.derive_pair_with_key demo_hkdf (txt "c1") (txt "s1") (txt "secret") with
  | Ok p => p
  | Err _ => (toy_codec, toy_codec)
  end.
Definition demo_frame (c : ControlCodec) (m : str) : list Z :=
  match encode_message (WriterProtected c) m with (_, Ok f) => f | _ => [] end.
Definition demo_client_input : reader :=
  mkReader [line_of (txt "{sh}"); line_of (txt "{pj}") ++ demo_frame (snd demo_codecs) (txt "{aj}")] Eof.
Definition demo_server_input : reader :=
  mkReader [line_of (txt "{rj}"); demo_frame (fst demo_codecs) (txt "{tj}")] Eof.
Definition demo_client : conn * result agreed handshake_error :=
  client_handshake demo_hmac demo_hkdf demo_to_json (demo_of_json demo_proof) (fun _ => Ok tt)
    (txt "xfr") demo_config (txt "c1") (txt "id") (mkConn demo_client_input []).
Definition demo_server : conn * result (ProtectedControl * TestStart * Z * Z) handshake_error :=
  server_handshake demo_hmac demo_hkdf demo_to_json (demo_of_json demo_proof) (fun _ => Ok tt)
    (txt "xfr") (Some (txt "secret")) supported_capabilities (txt "s1") (Some 5000000000)
    (client_hello_msg (txt "xfr") demo_config (txt "c1")) (txt "{ch}") (mkConn demo_server_input []).

Lemma client_never_downgrades_witness :
  exists nonce frame a, demo_client.2 = Ok a /\ is_protected (transport a) = true /\
    authenticated demo_hmac demo_hkdf (demo_of_json demo_proof) (txt "c1") (txt "secret")
      demo_client_input (txt "{ch}") nonce /\
    out demo_client.1 = line_of (txt "{ch}") ++ line_of (txt "{rj}") ++ frame.
Proof.
  destruct (client_never_downgrades demo_hmac demo_hkdf demo_to_json (demo_of_json demo_proof)
    (fun _ => Ok tt) (txt "xfr") demo_config (txt "c1") (txt "id") (txt "secret") eq_refl
    (mkConn demo_client_input []) demo_client.1 demo_client.2)
    as [[[e He] _]|(hello & nonce & resp & frame & Hj & Hr & Ha & _ & Ho & Hp)].
  - vm_compute. reflexivity.
  - vm_compute in He. discriminate.
  - injection Hj as <-. injection Hr as <-. exists nonce, frame.
    destruct (demo_client.2) as [a|e] eqn:E; [|vm_compute in E; discriminate].
    exists a. split; [reflexivity|]. split; [exact (Hp a eq_refl)|]. split; [exact Ha|exact Ho].
Defined.

Lemma server_never_downgrades_witness :
  exists t s d n, demo_server.2 = Ok (t, s, d, n) /\ is_protected t = true /\
    s = test_start demo_config (txt "id").
Proof.
  destruct (demo_server.2) as [[[[t s] d] n]|e] eqn:E; [|vm_compute in E; discriminate].
  exists t, s, d, n.
  destruct (server_never_downgrades demo_hmac demo_hkdf demo_to_json (demo_of_json demo_proof)
    (fun _ => Ok tt) (txt "xfr") (txt "secret") supported_capabilities (txt "s1") (Some 5000000000)
    (client_hello_msg (txt "xfr") demo_config (txt "c1")) (txt "{ch}")
    (mkConn demo_server_input []) demo_server.1 t s d n)
    as (? & ? & ? & ? & ? & ? & ? & ? & ? & ? & ? & ? & ? & _ & _ & _ & _ & _ & _ & _ & _ & _ & ->).
  - rewrite <- E. vm_compute. reflexivity.
  - split; [reflexivity|]. split; [reflexivity|]. vm_compute in E. injection E as _ _ <- _ _.
    vm_compute. reflexivity.
Defined.

Lemma accepted_test_bounds_witness :
  exists t s n, handle_test_request demo_to_json (demo_of_json demo_proof) (fun _ => Ok tt)
      (Some (txt "secret")) (Some 5000000000) true Plaintext
      (mkConn (mkReader [line_of (txt "{tj}")] Eof) [])
    = (mkConn (mkReader [[]] Eof) [], Ok (t, s, 5000000000, n)) /\ 16 <= n <= 65507.
Proof.
  exists Plaintext, (test_start demo_config (txt "id")), 1200. split; [vm_compute; reflexivity|].
  apply (accepted_test_bounds demo_to_json (demo_of_json demo_proof) (fun _ => Ok tt)
    (Some (txt "secret")) (Some 5000000000) true Plaintext
    (mkConn (mkReader [line_of (txt "{tj}")] Eof) []) (mkConn (mkReader [[]] Eof) []) Plaintext
    (test_start demo_config (txt "id")) 5000000000 1200).
  - discriminate.
  - discriminate.
  - intros m [= <-]. reflexivity.
  - vm_compute. reflexivity.
Defined.

Lemma client_terms_advertised_witness :
  exists a r1 raw version client caps auth cn, demo_client.2 = Ok a /\
    next_line demo_client_input = (r1, Ok raw) /\
    demo_of_json demo_proof (trim raw)
      = Some (Hello version client (server_version a) caps auth cn) /\
    capability_advertised caps UDP_PAYLOAD_SIZE_CAPABILITY = true.
Proof.
  destruct (demo_client.2) as [a|e] eqn:E; [|vm_compute in E; discriminate]. exists a.
  destruct (client_terms_advertised demo_hmac demo_hkdf demo_to_json (demo_of_json demo_proof)
    (fun _ => Ok tt) (txt "xfr") demo_config (txt "c1") (txt "id") (mkConn demo_client_input [])
    demo_client.1 a) as (r1 & raw & version & client & caps & auth & cn & Hr & Hj & _ & _ & Hu & _).
  - rewrite <- E. vm_compute. reflexivity.
  - exists r1, raw, version, client, caps, auth, cn.
    split; [reflexivity|]. split; [exact Hr|]. split; [exact Hj|]. apply Hu; [reflexivity|discriminate].
Defined.
