(* ===== verification/Session.v ===== *)
(** * Both ends of a handshake together

    An honest client and an honest server with the same key reach the same
    test over two halves of one protected transport, however the network cuts
    their bytes.  JSON enters through the text it produced for the six
    messages of the handshake. *)
From S2P Require Import Prelude Bytes Text UdpWire Ip Auth ControlCrypto Protocol Client Handshake.

(** ** Lines *)

(** One printable JSON object, as serde_json writes it. *)
Definition json_object (s : str) : Prop :=
  (exists body, s = 123 :: body ++ [125]) /\ Forall (fun c => 32 <= c < 127) s /\
  len s + 24 <= Client.MAX_LINE_LENGTH.

Lemma trim_object s tail :
  (exists body, s = 123 :: body ++ [125]) -> Forall (fun c => is_whitespace c = true) tail ->
  trim (s ++ tail) = s.
Proof.
  intros [body ->] Ht. unfold trim, trim_start. cbn [app drop_while].
  change (is_whitespace 123) with false. cbn iota. unfold trim_end.
  assert (E : rev (123 :: (body ++ [125]) ++ tail) = rev tail ++ 125 :: rev body ++ [123]).
  { cbn [rev]. rewrite !rev_app_distr. cbn. by rewrite <- !app_assoc. }
  rewrite E. clear E. apply Forall_rev in Ht. revert Ht. generalize (rev tail). intros l Ht.
  induction Ht as [|x l Hx Hl IH]; cbn [app drop_while].
  - change (is_whitespace 125) with false. cbn. rewrite rev_app_distr. cbn.
    by rewrite rev_involutive.
  - by rewrite Hx.
Qed.

Lemma as_bytes_ascii s : Forall (fun c => 0 <= c < 128) s -> as_bytes s = s.
Proof.
  unfold as_bytes. induction 1 as [|c s Hc _ IH]; [done|]. cbn [map concat]. rewrite IH.
  unfold encode_char. by rewrite (proj2 (Z.ltb_lt c 128)) by lia.
Qed.

Lemma chars_ascii s : Forall (fun c => 0 <= c < 128) s -> chars s = s.
Proof.
  induction 1 as [|c s Hc _ IH]; [done|]. cbn [chars].
  rewrite (proj2 (Z.ltb_lt c 128)) by lia. by rewrite IH.
Qed.

Lemma as_bytes_hex l : bytes_ok l -> as_bytes (hex_encode l) = hex_encode l.
Proof.
  intros Hl. apply as_bytes_ascii. pose proof (hex_encode_ascii l Hl) as Ha.
  pose proof (hex_encode_ok l Hl) as Hb. unfold is_ascii, bytes_ok in *.
  rewrite forallb_forall in Ha. rewrite Forall_forall in Hb |- *. intros x Hx.
  specialize (Ha x ltac:(by apply list_elem_of_In)). specialize (Hb x Hx). unfold is_byte in Hb. lia.
Qed.

Lemma json_ascii s : json_object s -> Forall (fun c => 0 <= c < 128) s.
Proof. intros (_ & H & _). eapply Forall_impl; [exact H|]. cbn. intros. lia. Qed.

Lemma json_is_ascii s : json_object s -> is_ascii s = true.
Proof.
  intros H%json_ascii. apply forallb_forall. intros x Hx. rewrite Forall_forall in H.
  specialize (H x ltac:(by apply list_elem_of_In)). lia.
Qed.

Lemma json_no_newline s : json_object s -> Forall (fun c => c <> 10) s.
Proof. intros (_ & H & _). eapply Forall_impl; [exact H|]. cbn. intros. lia. Qed.

(** The handshake's line reader reads what the session's reader reads, up to
    its own smaller limit. *)
Lemma read_plain_shorter e cs t b cs' l :
  read_plain e cs t b = (cs', Ok l) -> len (concat cs') <= len (concat cs).
Proof.
  unfold len. revert t b. induction cs as [|[|x c] cs IH]; intros t b; cbn [read_plain].
  - by intros [= <- _].
  - apply IH.
  - destruct (newline_pos _) as [pos|]; (destruct (_ <? _); [done|]).
    + intros [<- _]%pair_ok_inv. cbn [concat]. rewrite !length_app, length_drop. lia.
    + intros H%IH. cbn [concat]. rewrite length_app. lia.
Qed.

Lemma read_bounded_plain e cs t b cs' l :
  read_plain e cs t b = (cs', Ok l) ->
  t + len (concat cs) - len (concat cs') <= Client.MAX_LINE_LENGTH ->
  exists n, read_bounded_line e cs t b = (cs', Ok (l, n)).
Proof.
  revert t b. induction cs as [|[|x c] cs IH]; intros t b; cbn [read_plain read_bounded_line].
  - destruct e; [|done]. intros [= <- <-]. eauto.
  - apply IH.
  - destruct (newline_pos _) as [pos|] eqn:Hp; (destruct (_ <? _); [done|]).
    + intros [<- <-]%pair_ok_inv. cbn [concat]. unfold len. rewrite !length_app, length_drop.
      intros Hl. assert ((pos < length (x :: c))%nat).
      { clear -Hp. revert pos Hp. induction (x :: c) as [|y l IH]; [done|]. cbn. intros pos.
        destruct (y =? 10); [intros [= <-]; lia|]. destruct (newline_pos l); [|done].
        intros [= <-]. specialize (IH _ eq_refl). lia. }
      rewrite (proj2 (Z.ltb_ge _ _)) by lia. eauto.
    + intros Hr Hl. pose proof (read_plain_shorter _ _ _ _ _ _ Hr) as Hs.
      cbn [concat] in Hl. unfold len in *. rewrite length_app in Hl.
      rewrite (proj2 (Z.ltb_ge _ _)) by lia. apply IH; [done|lia].
Qed.

Lemma next_line_json s rest cs e :
  json_object s -> concat cs = s ++ 10 :: rest ->
  exists cs', next_line (mkReader cs e) = (mkReader cs' e, Ok (s ++ [10])) /\ concat cs' = rest.
Proof.
  intros Hj Hc. pose proof (proj2 (proj2 Hj)) as Hlen.
  destruct (read_plain_ascii e s rest cs 0 [] (json_no_newline s Hj) (json_is_ascii s Hj))
    as (cs' & Hr & Hrest); [unfold Client.MAX_LINE_LENGTH, ControlCrypto.MAX_LINE_LENGTH in *; lia|done|].
  destruct (read_bounded_plain _ _ _ _ _ _ Hr) as (n & E).
  { rewrite Hc, Hrest. unfold len in *. rewrite length_app. cbn. lia. }
  exists cs'. split; [|done]. unfold next_line. cbn [ended chunks]. rewrite E. cbn.
  rewrite chars_ascii; [done|]. apply Forall_app; split; [by apply json_ascii|]. repeat constructor; lia.
Qed.

(** ** Running the primitives *)
Section session.
Context `{Aead} `{!AeadLaws}.
Variables (hmac_sha256 : list Z -> list Z -> list Z)
  (hkdf : list Z -> list Z -> list Z -> option (list Z)).
Variables (to_json : ControlMessage -> option str) (of_json : str -> option ControlMessage).
Variable validate_congestion : str -> result unit str.

(** [s] is the text of [m] on the wire. *)
Definition wire_text (m : ControlMessage) (s : str) : Prop :=
  to_json m = Some s /\ deserialize of_json s = Ok m /\ json_object s.

Lemma serialize_run m s c : wire_text m s -> serialize to_json m c = (c, Ok s).
Proof. intros (Hj & _). unfold serialize, lift. by rewrite Hj. Qed.

Lemma send_run m s c :
  wire_text m s -> send to_json m c = (mkConn (rdr c) (out c ++ line_of s), Ok tt).
Proof. intros Hm. unfold send. by rewrite (bind_run _ _ _ _ _ (serialize_run m s c Hm)). Qed.

Lemma parse_run m s tail c :
  wire_text m s -> Forall (fun c => is_whitespace c = true) tail ->
  parse of_json (s ++ tail) c = (c, Ok m).
Proof.
  intros (_ & Hd & Ho & _) Ht. unfold parse, lift. by rewrite trim_object, Hd.
Qed.

Lemma line_of_json s : json_object s -> line_of s = s ++ [10].
Proof. intros Hs. unfold line_of. by rewrite as_bytes_ascii by by apply json_ascii. Qed.

Lemma read_line_run s rest c :
  json_object s -> concat (chunks (rdr c)) = line_of s ++ rest ->
  exists r, read_line c = (mkConn r (out c), Ok (s ++ [10])) /\
    concat (chunks r) = rest /\ ended r = ended (rdr c).
Proof.
  intros Hs Hc. rewrite line_of_json, <- app_assoc in Hc by done.
  destruct (next_line_json s rest _ (ended (rdr c)) Hs Hc) as (cs' & Hr & Hrest).
  exists (mkReader cs' (ended (rdr c))). split; [|done]. unfold read_line.
  replace (rdr c) with (mkReader (chunks (rdr c)) (ended (rdr c))) by by destruct (rdr c).
  by rewrite Hr.
Qed.

Lemma json_str s : json_object s -> is_str s.
Proof. intros Hs. by apply ascii_is_str, json_is_ascii. Qed.

(** ** A pair of halves in step *)
Hypothesis Hencrypt : forall k n a m, is_Some (encrypt k n a m).

Definition sealed (c : ControlCodec) (s : str) (c' : ControlCodec) (frame : list Z) : Prop :=
  (forall recv rd o, write_message (Protected c recv) s (mkConn rd o)
     = (mkConn rd (o ++ frame), Ok (Protected c' recv))) /\
  (forall send cs e o rest, concat cs = frame ++ rest ->
     exists cs', read_message (Protected send c) (mkConn (mkReader cs e) o)
       = (mkConn (mkReader cs' e) o, Ok (Protected send c', s)) /\ concat cs' = rest).

Lemma sealed_run c s :
  fits 64 (seq c) -> seq c + 1 < 2 ^ 64 -> json_object s ->
  exists frame, sealed c s (mkCodec (key c) (ControlCrypto.direction c) (seq c + 1)) frame.
Proof.
  intros Hs Hlt Hj. set (c' := mkCodec _ _ _).
  assert (Hseal : exists p, ControlCodec.seal c s = (c', Ok p)).
  { destruct (Hencrypt (key c) (ControlCodec.nonce c) (ControlCodec.aad c) s) as [ct E].
    eexists. unfold ControlCodec.seal. rewrite E, advance_spec.
    by rewrite (proj2 (Z.ltb_lt _ _) Hlt). }
  destruct Hseal as [p Hseal]. exists (to_be_bytes 4 (wrap 32 (len p)) ++ p). split.
  - intros recv rd o. unfold write_message, control_write_message.
    rewrite as_bytes_ascii by by apply json_ascii. by rewrite Hseal.
  - intros send cs e o rest Hc. rewrite <- app_assoc in Hc.
    destruct (read_frame_seal c s c' p cs rest e Hs (json_str s Hj)) as (cs' & Hr & Hrest);
      [|done|done|].
    { destruct Hj as (_ & _ & Hl). unfold Client.MAX_LINE_LENGTH, MAX_FRAME in *. lia. }
    exists cs'. split; [|done]. unfold read_message, control_read_message. cbn [rdr].
    rewrite Hr. cbn. by rewrite chars_ascii by by apply json_ascii.
Qed.

(** ** The whole handshake *)
Lemma explained_run server_psk has_psk {A} (f : A -> str) (m : io handshake_error A) c c' a :
  m c = (c', Ok a) -> f a <> [] -> explained server_psk has_psk f m c = (c', Ok a).
Proof.
  intros Hm Ha. unfold explained. rewrite Hm. unfold explain_psk_hangup. by destruct (f a).
Qed.

Lemma json_nonempty s tail : json_object s -> s ++ tail <> [].
Proof. intros ([b ->] & _). done. Qed.

Variables (program_c program_s : str) (config : ClientConfig) (test_id cnonce snonce k : str)
  (scaps : list str) (max_d : option Z).
Variables (ch sh rj pj tj aj proof ack_id : str) (ports : list Z) (tok : option str)
  (tk : option (list Z)).
Hypothesis Hmac : forall k m, bytes_ok (hmac_sha256 k m).
Hypothesis Hpsk : psk config = Some k.
Hypothesis Hcaps : capability_advertised (Some scaps) PROTECTED_CONTROL_CAPABILITY = true.
(** The six messages, and the proof the server computes over the hellos. *)
Hypothesis Hch : wire_text (client_hello_msg program_c config cnonce) ch.
Hypothesis Hsh : wire_text (server_hello_with_auth_and_capabilities program_s snonce scaps) sh.
Hypothesis Hrj : wire_text (response_to hmac_sha256 k snonce) rj.
Hypothesis Hproof : compute_server_proof_with_key hkdf hmac_sha256 (as_bytes ch) (as_bytes sh)
  (as_bytes cnonce) (as_bytes snonce) (as_bytes k) = Ok proof.
Hypothesis Hpj : wire_text (AuthSuccess (Some proof)) pj.
Hypothesis Htj : wire_text (TestStartMsg (test_start config test_id)) tj.
Hypothesis Haj : wire_text (TestAck ack_id ports tok) aj.
(** Each side can do what the other asks. *)
Hypothesis Hcheck : check_capabilities validate_congestion config (Some scaps) = Ok tt.
Hypothesis Hack : check_ack config (Some scaps) ports tok = Ok tk.
Hypothesis Hpayload : payload_request (test_start config test_id) = None.
Hypothesis Hcong : congestion_request validate_congestion (test_start config test_id) = None.
Hypothesis Hstreams : 1 <= streams config <= MAX_STREAMS.

Definition first_codecs (c2s s2c : ControlCodec) : Prop :=
  ControlCodec.derive_pair_with_key hkdf (as_bytes cnonce) (as_bytes snonce) (as_bytes k)
    = Ok (c2s, s2c) /\ seq c2s = 0 /\ seq s2c = 0.

Lemma codecs_derived : exists c2s s2c, first_codecs c2s s2c.
Proof.
  unfold first_codecs, ControlCodec.derive_pair_with_key. unfold compute_server_proof_with_key in Hproof.
  destruct (derive_keys _ _ _ _) as [[[k1 k2] k3]|]; [|done]. cbn. eauto 10.
Qed.

Lemma proof_bytes : as_bytes proof = proof /\ bytes_ok proof.
Proof.
  unfold compute_server_proof_with_key in Hproof.
  destruct (derive_keys _ _ _ _) as [[[k1 k2] k3]|]; [|done]. cbn in Hproof. injection Hproof as <-.
  split; [apply as_bytes_hex, Hmac|apply hex_encode_ok, Hmac].
Qed.

Lemma hello_msg : client_hello_msg program_c config cnonce = client_hello_with_nonce program_c cnonce.
Proof. unfold client_hello_msg, client_nonce. by rewrite Hpsk. Qed.

Lemma response_accepted :
  verify_response hmac_sha256 (as_bytes snonce) (as_bytes k)
    (as_bytes (compute_response hmac_sha256 (as_bytes snonce) (as_bytes k))) = true.
Proof.
  unfold compute_response, compute_response_with_key. rewrite as_bytes_hex by apply Hmac.
  apply constant_time_eq_spec; [apply hex_encode_ok, Hmac..|done].
Qed.

Lemma server_auth_run c2s s2c r o rest :
  first_codecs c2s s2c -> concat (chunks r) = line_of rj ++ rest ->
  exists r', server_auth hmac_sha256 hkdf to_json of_json (Some k) ch snonce sh (Some cnonce) (mkConn r o)
      = (mkConn r' (o ++ line_of pj), Ok (Protected s2c c2s)) /\
    concat (chunks r') = rest.
Proof.
  intros (Hpair & _ & _) Hc.
  destruct (read_line_run rj rest (mkConn r o) (proj2 (proj2 Hrj)) Hc) as (r' & Hr & Hrest & _).
  exists r'. split; [|done]. unfold server_auth.
  rewrite (bind_run _ _ _ _ _ (explained_run (Some k) true (fun l => l) _ _ _ _ Hr
             (json_nonempty rj _ (proj2 (proj2 Hrj))))).
  rewrite (bind_run _ _ _ _ _ (parse_run _ rj [10] _ Hrj ltac:(by repeat constructor))).
  unfold response_to. cbn [ok_or]. rewrite bind_lift, response_accepted. cbn [negb].
  rewrite bind_lift, Hpair. cbn [map_err]. rewrite bind_lift, Hproof. cbn [map_err].
  rewrite bind_lift. by rewrite (bind_run _ _ _ _ _ (send_run _ pj _ Hpj)).
Qed.

Lemma request_accepted has_psk t t' r r' o :
  read_message t (mkConn r o) = (mkConn r' o, Ok (t', tj)) ->
  handle_test_request to_json of_json validate_congestion (Some k) max_d has_psk t (mkConn r o)
  = (mkConn r' o, Ok (t', test_start config test_id,
       effective_duration max_d (ts_duration_secs (test_start config test_id)),
       match ts_udp_payload_size (test_start config test_id) with
       | Some n => n | None => UDP_PAYLOAD_SIZE end)).
Proof.
  intros Hr. unfold handle_test_request.
  assert (Hne : snd (t', tj) <> []) by (cbn; destruct Htj as (_ & _ & [b ->] & _); done).
  rewrite (bind_run _ _ _ _ _ (explained_run (Some k) has_psk snd _ _ _ _ Hr Hne)).
  pose proof (parse_run _ tj [] (mkConn r' o) Htj ltac:(constructor)) as Hp.
  rewrite app_nil_r in Hp. rewrite (bind_run _ _ _ _ _ Hp), Hpayload, Hcong.
  change (ts_streams (test_start config test_id)) with (streams config).
  rewrite (proj2 (Z.eqb_neq (streams config) 0)) by lia.
  by rewrite (proj2 (Z.ltb_ge MAX_STREAMS (streams config))) by lia.
Qed.

Lemma server_run c2s s2c c2s1 frame cs e o rest :
  first_codecs c2s s2c -> sealed c2s tj c2s1 frame ->
  concat cs = line_of rj ++ frame ++ rest ->
  exists r, server_handshake hmac_sha256 hkdf to_json of_json validate_congestion program_s (Some k)
      scaps snonce max_d (client_hello_msg program_c config cnonce) ch (mkConn (mkReader cs e) o)
    = (mkConn r (o ++ line_of sh ++ line_of pj),
       Ok (Protected s2c c2s1, test_start config test_id,
         effective_duration max_d (ts_duration_secs (test_start config test_id)),
         match ts_udp_payload_size (test_start config test_id) with
         | Some n => n | None => UDP_PAYLOAD_SIZE end)) /\
    concat (chunks r) = rest.
Proof.
  intros Hf [_ Hread] Hc. unfold server_handshake. rewrite hello_msg.
  unfold client_hello_with_nonce, server_hello_phase.
  replace (versions_compatible PROTOCOL_VERSION PROTOCOL_VERSION) with true by by vm_compute.
  replace (capability_advertised (Some supported_capabilities) PROTECTED_CONTROL_CAPABILITY)
    with true by by vm_compute.
  cbn [negb].
  erewrite bind_run; [|by rewrite (bind_run _ _ _ _ _ (serialize_run _ sh _ Hsh))].
  destruct (server_auth_run c2s s2c (mkReader cs e) (o ++ as_bytes sh ++ [10]) (frame ++ rest) Hf Hc)
    as ([cs1 e1] & Ha & Hc1).
  cbn [rdr out]. rewrite (bind_run _ _ _ _ _ Ha).
  destruct (Hread s2c cs1 e1 ((o ++ as_bytes sh ++ [10]) ++ line_of pj) rest Hc1) as (cs2 & Hm & Hc2).
  exists (mkReader cs2 e1). split; [|done]. rewrite (request_accepted _ _ _ _ _ _ Hm).
  unfold line_of. by rewrite <- !app_assoc.
Qed.

Lemma trim_line m s : wire_text m s -> trim (s ++ [10]) = s.
Proof. intros (_ & _ & Ho & _). apply trim_object; [done|]. by repeat constructor. Qed.

Lemma answer_run r o rest :
  concat (chunks r) = line_of pj ++ rest ->
  exists r', answer_challenge hmac_sha256 hkdf to_json of_json config cnonce ch sh (Some scaps)
      (mkAuthChallenge (txt "psk") snonce) (mkConn r o)
      = (mkConn r' (o ++ line_of rj), Ok tt) /\
    concat (chunks r') = rest.
Proof.
  intros Hc. unfold answer_challenge. rewrite Hpsk. cbn [ok_or challenge_nonce]. rewrite bind_lift.
  unfold require. rewrite Hcaps. cbn [ensure]. rewrite bind_lift.
  fold (response_to hmac_sha256 k snonce).
  rewrite (bind_run _ _ _ _ _ (send_run _ rj _ Hrj)). cbn [rdr out].
  destruct (read_line_run pj rest (mkConn r (o ++ line_of rj)) (proj2 (proj2 Hpj)) Hc)
    as (r' & Hr & Hrest & _).
  exists r'. split; [|done]. rewrite (bind_run _ _ _ _ _ Hr).
  rewrite (bind_run _ _ _ _ _ (parse_run _ pj [10] _ Hpj ltac:(by repeat constructor))).
  unfold client_nonce. rewrite Hpsk. cbn [ok_or]. rewrite !bind_lift.
  destruct proof_bytes as [-> Hb]. unfold verify_server_proof_with_key. rewrite Hproof. cbn [rbind].
  rewrite (proj2 (constant_time_eq_spec proof proof Hb Hb) eq_refl). done.
Qed.

Lemma hello_phase_run cs e rest :
  concat cs = line_of sh ++ line_of pj ++ rest ->
  exists r, client_hello_phase hmac_sha256 hkdf to_json of_json program_c config cnonce
      (mkConn (mkReader cs e) [])
    = (mkConn r (line_of ch ++ line_of rj), Ok (Some scaps, Some program_s, Some snonce)) /\
    concat (chunks r) = rest.
Proof.
  intros Hc. unfold client_hello_phase.
  rewrite (bind_run _ _ _ _ _ (serialize_run _ ch _ Hch)).
  change (write_line ch) with (fun c : conn => (mkConn (rdr c) (out c ++ line_of ch), Ok tt : result unit handshake_error)).
  unfold bind at 1. cbn [rdr out app].
  destruct (read_line_run sh (line_of pj ++ rest) (mkConn (mkReader cs e) (line_of ch))
    (proj2 (proj2 Hsh)) Hc) as (r1 & Hr & Hrest & _).
  rewrite (bind_run _ _ _ _ _ Hr).
  rewrite (bind_run _ _ _ _ _ (parse_run _ sh [10] _ Hsh ltac:(by repeat constructor))).
  rewrite (trim_line _ _ Hsh). unfold server_hello_with_auth_and_capabilities.
  unfold require. replace (versions_compatible PROTOCOL_VERSION PROTOCOL_VERSION) with true by by vm_compute.
  cbn [ensure]. rewrite bind_lift.
  destruct (answer_run r1 (line_of ch) rest Hrest) as (r2 & Ha & Hrest2).
  exists r2. split; [|done]. by rewrite (bind_run _ _ _ _ _ Ha).
Qed.

Lemma request_phase_run c2s s2c c2s1 s2c1 frame ack r o rest :
  first_codecs c2s s2c -> sealed c2s tj c2s1 frame -> sealed s2c aj s2c1 ack ->
  concat (chunks r) = ack ++ rest ->
  exists r' a, request_phase hkdf to_json of_json validate_congestion config cnonce test_id
      (Some scaps, Some program_s, Some snonce) (mkConn r o) = (mkConn r' (o ++ frame), Ok a) /\
    transport a = Protected c2s1 s2c1 /\ Handshake.ports a = ports /\ token a = tk /\
    concat (chunks r') = rest.
Proof.
  intros (Hpair & _) [Hw _] [_ Hread] Hc. unfold request_phase, install_transport, client_nonce.
  rewrite Hpsk. cbn [ok_or]. erewrite bind_run; [|by rewrite !bind_lift, Hpair].
  rewrite Hcheck, bind_lift. cbn [fst snd].
  rewrite (bind_run _ _ _ _ _ (serialize_run _ tj _ Htj)).
  change (protected_client c2s s2c) with (Protected c2s s2c).
  rewrite (bind_run _ _ _ _ _ (Hw s2c r o)).
  destruct r as [cs e]. destruct (Hread c2s1 cs e (o ++ frame) rest Hc) as (cs' & Hr & Hrest).
  rewrite (bind_run _ _ _ _ _ Hr).
  pose proof (parse_run _ aj [] (mkConn (mkReader cs' e) (o ++ frame)) Haj ltac:(constructor)) as Hp.
  rewrite app_nil_r in Hp. rewrite (bind_run _ _ _ _ _ Hp), Hack, bind_lift.
  eexists _, _. split; [reflexivity|]. done.
Qed.

(** C5. Two honest ends with the same key reach the same test: whatever pieces
    the network cuts their bytes into, the server, fed what the client sends,
    writes its hello and its proof and takes up exactly the client's request;
    the client, fed what the server sends and the acknowledgement sealed on
    the server's transport, writes exactly those bytes and ends with the
    acknowledged ports and token; the two transports are mirror images, ready
    for the session. *)
Theorem handshake_completes :
  exists request_frame ack_frame c2s s2c s2c1,
    (forall cs e rest, concat cs = line_of rj ++ request_frame ++ rest ->
     exists r, server_handshake hmac_sha256 hkdf to_json of_json validate_congestion program_s
         (Some k) scaps snonce max_d (client_hello_msg program_c config cnonce) ch
         (mkConn (mkReader cs e) [])
       = (mkConn r (line_of sh ++ line_of pj),
          Ok (Protected s2c c2s, test_start config test_id,
              effective_duration max_d (ts_duration_secs (test_start config test_id)),
              match ts_udp_payload_size (test_start config test_id) with
              | Some n => n | None => UDP_PAYLOAD_SIZE end)) /\
       concat (chunks r) = rest) /\
    (forall rd o, write_message (Protected s2c c2s) aj (mkConn rd o)
       = (mkConn rd (o ++ ack_frame), Ok (Protected s2c1 c2s))) /\
    (forall cs e rest, concat cs = line_of sh ++ line_of pj ++ ack_frame ++ rest ->
     exists r a, client_handshake hmac_sha256 hkdf to_json of_json validate_congestion program_c
         config cnonce test_id (mkConn (mkReader cs e) [])
       = (mkConn r (line_of ch ++ line_of rj ++ request_frame), Ok a) /\
       transport a = Protected c2s s2c1 /\ Handshake.ports a = ports /\ token a = tk /\
       concat (chunks r) = rest).
Proof.
  destruct codecs_derived as (c2s & s2c & Hf). pose proof Hf as (_ & Hz1 & Hz2).
  destruct (sealed_run c2s tj) as [frame Hframe];
    [rewrite Hz1; by vm_compute..|apply Htj|].
  destruct (sealed_run s2c aj) as [ack Hackf]; [rewrite Hz2; by vm_compute..|apply Haj|].
  eexists frame, ack, _, s2c, _. split_and!.
  - intros cs e rest Hc. exact (server_run c2s s2c _ frame cs e [] rest Hf Hframe Hc).
  - intros rd o. apply Hackf.
  - intros cs e rest Hc. destruct (hello_phase_run cs e (ack ++ rest) Hc) as (r1 & Hh & Hr1).
    destruct (request_phase_run c2s s2c _ _ frame ack r1 (line_of ch ++ line_of rj) rest
      Hf Hframe Hackf Hr1) as (r2 & a & Hk & Ha & Hp & Ht & Hr2).
    exists r2, a. split; [|done]. unfold client_handshake.
    rewrite (bind_run _ _ _ _ _ Hh), Hk. by rewrite <- app_assoc.
Qed.
End session.

(** ** Witness *)
Ltac demo_text :=
  split; [reflexivity|split; [reflexivity|split; [|split;
    [repeat constructor; discriminate|discriminate]]]]; eexists [_; _]; reflexivity.

Lemma handshake_completes_witness :
  exists frame (ack : list Z) c2s s2c, exists r,
    server_handshake demo_hmac demo_hkdf demo_to_json (demo_of_json demo_proof) (fun _ => Ok tt)
      (txt "xfr") (Some (txt "secret")) supported_capabilities (txt "s1") None
      (client_hello_msg (txt "xfr") demo_config (txt "c1")) (txt "{ch}")
      (mkConn (mkReader [line_of (txt "{rj}"); frame ++ []] Eof) [])
    = (mkConn r (line_of (txt "{sh}") ++ line_of (txt "{pj}")),
       Ok (Protected s2c c2s, test_start demo_config (txt "id"), 10000000000, 1200)) /\
    concat (chunks r) = [].
Proof.
  destruct (handshake_completes demo_hmac demo_hkdf demo_to_json (demo_of_json demo_proof)
    (fun _ => Ok tt) ltac:(eauto) (txt "xfr") (txt "xfr") demo_config (txt "id") (txt "c1") (txt "s1")
    (txt "secret") supported_capabilities None (txt "{ch}") (txt "{sh}") (txt "{rj}") (txt "{pj}")
    (txt "{tj}") (txt "{aj}") demo_proof (txt "id") [] (Some demo_token) (Some (seqZ 0 16)))
    as (frame & ack & c2s & s2c & s2c1 & Hserver & _).
  all: try reflexivity; try demo_text; try (split; discriminate).
  { intros k m. unfold demo_hmac, is_byte. repeat constructor; apply Z.mod_pos_bound; lia. }
  exists frame, ack, c2s, s2c. destruct (Hserver [line_of (txt "{rj}"); frame ++ []] Eof []) as (r & Hr & Hc).
  - cbn [concat]. by rewrite !app_nil_r.
  - exists r. split; [exact Hr|exact Hc].
Defined.
