(* ===== verification/QuicSession.v ===== *)
(** * The control handshake over QUIC (src/src/quic.rs
    derive_psk_session_key, src/src/serve.rs handle_quic_client,
    src/src/client.rs run_quic_session)

    The same negotiation as Handshake.v on the first stream of a QUIC
    connection, with the pre-shared key bound to that connection: both sides
    use a session key derived from the key and what TLS exports, which is a
    parameter.  The server's side starts at the first line and ends with the
    acknowledgement of the test.  Time limits are not modelled. *)
From S2P Require Import Prelude Bytes Text Fmt UdpWire Ip Auth ControlCrypto Protocol Client Handshake Session.
#[local] Open Scope io_scope.

Definition PSK_SESSION_INFO : list Z := txt "xfr-quic-psk-session-v1".

Section quic.
Context `{Aead}.
Variables (hmac_sha256 : list Z -> list Z -> list Z)
  (hkdf : list Z -> list Z -> list Z -> option (list Z)).
Variables (to_json : ControlMessage -> option str) (of_json : str -> option ControlMessage).
(** What TLS exports for this connection under the label of RFC 9266. *)
Variable exporter : option (list Z).

Notation serialize := (Handshake.serialize to_json).
Notation send := (Handshake.send to_json).
Notation parse := (Handshake.parse of_json).

Definition derive_psk_session_key_from_exporter (configured_psk : str) (exporter : list Z)
    : result (list Z) handshake_error :=
  ok_or (hkdf exporter (as_bytes configured_psk) PSK_SESSION_INFO) NoSessionKey.
Definition derive_psk_session_key (configured_psk : str) : result (list Z) handshake_error :=
  let? exporter := ok_or exporter NoExporter in
  derive_psk_session_key_from_exporter configured_psk exporter.

(** ** The client *)
Section client.
Variables (program : str) (config : ClientConfig).
(** The nonce it generated, if it has a key, and the test's UUID. *)
Variables (fresh_nonce test_id : str).

Notation client_nonce := (Handshake.client_nonce config fresh_nonce).

(** The answer to the challenge under the key of this connection, which it
    returns, and the check of the server's proof. *)
Definition answer_quic_challenge (client_hello_json raw_server_hello : str)
    (capabilities : option (list str)) (challenge : AuthChallenge) : io handshake_error (list Z) :=
  do! psk <- lift (ok_or (psk config) PskRequired);;
  do! _ <- require (capability_advertised capabilities PROTECTED_CONTROL_CAPABILITY) NoProtectedControl;;
  do! _ <- require (capability_advertised capabilities QUIC_CHANNEL_BINDING_CAPABILITY) NoChannelBinding;;
  do! session_psk <- lift (derive_psk_session_key psk);;
  let response := compute_response_with_key hmac_sha256 (as_bytes (challenge_nonce challenge)) session_psk in
  do! _ <- send (AuthResponse response);;
  do! line <- read_line;;
  do! msg <- parse line;;
  match msg with
  | AuthSuccess server_proof =>
    do! cn <- lift (ok_or client_nonce NoClientNonce);;
    do! proof <- lift (ok_or server_proof NoServerProof);;
    do! ok <- lift (map_err CryptoFailed
      (verify_server_proof_with_key hkdf hmac_sha256 (as_bytes client_hello_json)
         (as_bytes raw_server_hello) (as_bytes cn) (as_bytes (challenge_nonce challenge))
         session_psk (as_bytes proof)));;
    do! _ <- require ok ProofMismatch;;
    ret session_psk
  | ErrorMsg message => fail (AuthRejected message)
  | _ => fail UnexpectedAuthResponse
  end.

(** The server's capabilities, its version, and, after authentication, the
    nonce of its challenge with the session key. *)
Definition quic_hello_phase : io handshake_error (option (list str) * option str * option (str * list Z)) :=
  do! client_hello_json <- serialize (client_hello_msg program config fresh_nonce);;
  do! _ <- write_line client_hello_json;;
  do! line <- read_line;;
  let raw_server_hello := trim line in
  do! msg <- parse line;;
  match msg with
  | Hello version _ server capabilities auth _ =>
    do! _ <- require (versions_compatible version PROTOCOL_VERSION) (IncompatibleVersion version);;
    match auth with
    | Some challenge =>
      do! session_psk <- answer_quic_challenge client_hello_json raw_server_hello capabilities challenge;;
      ret (capabilities, server, Some (challenge_nonce challenge, session_psk))
    | None =>
      do! _ <- require (negb (is_some (psk config))) PskNotUsed;;
      ret (capabilities, server, None)
    end
  | ErrorMsg message => fail (ServerError message)
  | _ => fail UnexpectedResponse
  end.

(** The transport of the rest of the session. *)
Definition install_quic_transport (authenticated : option (str * list Z)) : io handshake_error ProtectedControl :=
  if is_some (psk config) then
    do! session_psk <- lift (ok_or (option_map snd authenticated) NoSessionKey);;
    do! cn <- lift (ok_or client_nonce NoClientNonce);;
    do! sn <- lift (ok_or (option_map fst authenticated) NoServerNonce);;
    do! codecs <- lift (map_err CryptoFailed
      (ControlCodec.derive_pair_with_key hkdf (as_bytes cn) (as_bytes sn) session_psk));;
    ret (protected_client (fst codecs) (snd codecs))
  else ret Plaintext.

Definition quic_test_start : TestStart :=
  mkTestStart test_id Quic (streams config) (wrap 32 (duration config / 1000000000)) (direction config)
    (bitrate config) None false None None false false false (byte_budget config) None.

Record quic_agreed := mkQuicAgreed {
  q_transport : ProtectedControl; q_server_version : option str; q_supports_pause : bool
}.

Definition client_quic_handshake : io handshake_error quic_agreed :=
  do! hello <- quic_hello_phase;;
  let '(capabilities, server, authenticated) := hello in
  do! t <- install_quic_transport authenticated;;
  do! _ <- require (negb (is_some (byte_budget config)) || capability_advertised capabilities BYTE_BUDGET_CAPABILITY)
         NoByteBudget;;
  do! json <- serialize (TestStartMsg quic_test_start);;
  do! t <- write_message t json;;
  do! r <- read_message t;;
  let '(t, line) := r in
  do! msg <- parse line;;
  match msg with
  | TestAck _ _ _ => ret (mkQuicAgreed t server (capability_advertised capabilities (txt "pause_resume")))
  | ErrorMsg message => fail (ServerError message)
  | _ => fail ExpectedTestAck
  end.
End client.

(** ** The server *)
Section server.
Variables (program : str) (server_psk : option str) (capabilities : list str).
Variables (fresh_nonce : str) (server_max_duration : option Z).

(** Tell the client in the clear, then give up. *)
Definition turn_away {A} (message : str) (e : handshake_error) : io handshake_error A :=
  do! _ <- send (ErrorMsg message);; fail e.

(** The hello in answer to the client's, the challenge in it, and the client's
    nonce. *)
Definition quic_server_hello (msg : ControlMessage)
    : io handshake_error (option (str * str) * option str) :=
  match msg with
  | Hello version _ _ client_capabilities _ client_nonce =>
    if negb (versions_compatible version PROTOCOL_VERSION) then
      turn_away (txt "Incompatible protocol version: " ++ version
                 ++ txt " (server: " ++ PROTOCOL_VERSION ++ txt ")") VersionMismatch
    else
      match server_psk with
      | Some _ =>
        if negb (capability_advertised client_capabilities PROTECTED_CONTROL_CAPABILITY) then
          turn_away (txt "PSK authentication requires protected_control_v1 capability") NoProtectedControl
        else if negb (capability_advertised client_capabilities QUIC_CHANNEL_BINDING_CAPABILITY) then
          turn_away (txt "QUIC PSK authentication requires quic_channel_binding_v1 capability") NoChannelBinding
        else
          do! server_hello_json <- serialize
            (server_hello_with_auth_and_capabilities program fresh_nonce capabilities);;
          do! _ <- write_line server_hello_json;;
          ret (Some (fresh_nonce, server_hello_json), client_nonce)
      | None =>
        do! _ <- send (server_hello_with_capabilities program capabilities);;
        ret (None, client_nonce)
      end
  | _ => turn_away (txt "Expected hello message") ExpectedHello
  end.

(** The check of the client's response, and the proof in return. *)
Definition quic_server_auth (session_psk : option (list Z)) (raw_client_hello nonce server_hello_json : str)
    (client_nonce : option str) : io handshake_error ProtectedControl :=
  do! line <- explained server_psk (is_some client_nonce) (fun l => l) read_line;;
  do! msg <- parse line;;
  match msg with
  | AuthResponse response =>
    do! session_psk <- lift (ok_or session_psk NoSessionKey);;
    if negb (verify_response_with_key hmac_sha256 (as_bytes nonce) session_psk (as_bytes response)) then
      turn_away (txt "Authentication failed") PskMismatch
    else
      do! cn <- lift (ok_or client_nonce NoClientNonce);;
      do! codecs <- lift (map_err CryptoFailed
        (ControlCodec.derive_pair_with_key hkdf (as_bytes cn) (as_bytes nonce) session_psk));;
      do! proof <- lift (map_err CryptoFailed
        (compute_server_proof_with_key hkdf hmac_sha256 (as_bytes raw_client_hello)
           (as_bytes server_hello_json) (as_bytes cn) (as_bytes nonce) session_psk));;
      do! _ <- send (auth_success_with_proof proof);;
      ret (protected_server (fst codecs) (snd codecs))
  | _ => turn_away (txt "Expected auth response") ExpectedAuthResponse
  end.

(** The request that is acknowledged, and its effective duration. *)
Definition handle_quic_request (client_has_psk : bool) (t : ProtectedControl)
    : io handshake_error (ProtectedControl * TestStart * Z) :=
  do! r <- explained server_psk client_has_psk snd (read_message t);;
  let '(t, line) := r in
  do! msg <- parse line;;
  match msg with
  | TestStartMsg s =>
    if is_some (ts_udp_payload_size s) then
      refuse to_json t (txt "UDP payload size requires a UDP throughput test") PayloadOverQuic
    else if negb (bool_decide (ts_protocol s = Quic)) then
      refuse to_json t (txt "Expected QUIC protocol for QUIC connection") ProtocolMismatch
    else if (ts_streams s =? 0) || (MAX_STREAMS <? ts_streams s) then
      refuse to_json t (txt "Invalid stream count " ++ dec (ts_streams s) ++ txt " (must be 1-"
                ++ dec MAX_STREAMS ++ txt ")") BadStreams
    else
      do! ack <- serialize (TestAck (ts_id s) [] None);;
      do! t <- write_message t ack;;
      ret (t, s, effective_duration server_max_duration (ts_duration_secs s))
  | _ => refuse to_json t (txt "Expected test_start message") ExpectedTestStart
  end.

(** [handle_quic_client] up to the test it runs. *)
Definition server_quic_handshake : io handshake_error (ProtectedControl * TestStart * Z) :=
  do! session_psk <- lift (match server_psk with
                           | Some psk => let? k := derive_psk_session_key psk in Ok (Some k)
                           | None => Ok None
                           end);;
  do! line <- read_line;;
  let raw_client_hello := trim line in
  do! msg <- parse line;;
  do! hello <- quic_server_hello msg;;
  let '(auth_nonce, client_nonce) := hello in
  do! t <- match auth_nonce with
        | Some (nonce, server_hello_json) =>
          quic_server_auth session_psk raw_client_hello nonce server_hello_json client_nonce
        | None => ret Plaintext
        end;;
  handle_quic_request (is_some client_nonce) t.
End server.
End quic.

(** ** Who gets through *)
Section runs.
Context `{Aead}.
Context (hmac_sha256 : list Z -> list Z -> list Z)
  (hkdf : list Z -> list Z -> list Z -> option (list Z))
  (to_json : ControlMessage -> option str) (of_json : str -> option ControlMessage).

Lemma session_key_ok exporter key session :
  derive_psk_session_key hkdf exporter key = Ok session ->
  exists e, exporter = Some e /\ hkdf e (as_bytes key) PSK_SESSION_INFO = Some session.
Proof. intros (e & ->%ok_or_ok & He%ok_or_ok)%rbind_ok. eauto. Qed.

Lemma turn_away_err {A} message e c c' (a : A) : turn_away to_json message e c <> (c', Ok a).
Proof. unfold turn_away. by intros (c1 & [] & _ & [=])%bind_ok. Qed.

Lemma quic_answer_ok exporter config nonce0 hello raw caps ch key session c c' :
  psk config = Some key ->
  answer_quic_challenge hmac_sha256 hkdf to_json of_json exporter config nonce0 hello raw caps ch c = (c', Ok session) ->
  derive_psk_session_key hkdf exporter key = Ok session /\
  capability_advertised caps PROTECTED_CONTROL_CAPABILITY = true /\
  capability_advertised caps QUIC_CHANNEL_BINDING_CAPABILITY = true /\
  exists response auth_line proof,
    to_json (AuthResponse (compute_response_with_key hmac_sha256 (as_bytes (challenge_nonce ch)) session)) = Some response /\
    out c' = out c ++ line_of response /\
    next_line (rdr c) = (rdr c', Ok auth_line) /\ of_json (trim auth_line) = Some (AuthSuccess (Some proof)) /\
    verify_server_proof_with_key hkdf hmac_sha256 (as_bytes hello) (as_bytes raw) (as_bytes nonce0)
      (as_bytes (challenge_nonce ch)) session (as_bytes proof) = Ok true.
Proof.
  intros Hk. unfold answer_quic_challenge, client_nonce. rewrite Hk. cbn [ok_or]. rewrite bind_lift.
  intros (c1 & [] & [-> [[_ H1]|[? _]]]%require_inv & Hr)%bind_ok; [|done].
  apply bind_ok in Hr as (c1 & [] & [-> [[_ H2]|[? _]]]%require_inv & Hr); [|done].
  apply bind_ok in Hr as (c1 & s & [-> Hs]%lift_inv & Hr).
  apply bind_ok in Hr as (c2 & [] & [(resp & Hj & Ho & Hrd)|(_ & ? & [=])]%send_inv & Hr).
  apply bind_ok in Hr as (c3 & l & [Ho3 Hl]%read_line_inv & Hr). specialize (Hl l eq_refl).
  apply bind_ok in Hr as (c4 & m & [-> Hm]%parse_inv & Hr). specialize (Hm m eq_refl).
  destruct m; try discriminate. rewrite bind_lift in Hr.
  apply bind_ok in Hr as (c4 & p & [-> ->%ok_or_ok]%lift_inv & Hr).
  apply bind_ok in Hr as (c4 & v & [-> Hv%map_err_ok]%lift_inv & Hr).
  apply bind_ok in Hr as (c4 & [] & [-> [[_ ->]|[? _]]]%require_inv & [= <- <-]); [|done].
  split; [done|]. split; [done|]. split; [done|]. exists resp, l, p. rewrite Hrd in Hl.
  split_and!; try done. by rewrite Ho3.
Qed.

(** A client with a key completes a handshake over QUIC only with a server
    that shares its TLS session: the server advertised the protected channel
    and the channel binding, and proved over both hellos that it holds the key
    derived from this client's key and what TLS exported to this client; the
    request left sealed under keys derived from that session key, and so did
    everything after it. *)
Lemma quic_client_run exporter program config nonce0 test_id key c c' a :
  psk config = Some key ->
  client_quic_handshake hmac_sha256 hkdf to_json of_json exporter program config nonce0 test_id c = (c', Ok a) ->
  exists e session hello response start frame r1 r2 raw version client caps method nonce cn auth_line proof c2s s2c,
    exporter = Some e /\ hkdf e (as_bytes key) PSK_SESSION_INFO = Some session /\
    next_line (rdr c) = (r1, Ok raw) /\
    of_json (trim raw) = Some (Hello version client (q_server_version a) caps (Some (mkAuthChallenge method nonce)) cn) /\
    capability_advertised caps PROTECTED_CONTROL_CAPABILITY = true /\
    capability_advertised caps QUIC_CHANNEL_BINDING_CAPABILITY = true /\
    next_line r1 = (r2, Ok auth_line) /\ of_json (trim auth_line) = Some (AuthSuccess (Some proof)) /\
    to_json (client_hello_msg program config nonce0) = Some hello /\
    verify_server_proof_with_key hkdf hmac_sha256 (as_bytes hello) (as_bytes (trim raw)) (as_bytes nonce0)
      (as_bytes nonce) session (as_bytes proof) = Ok true /\
    to_json (AuthResponse (compute_response_with_key hmac_sha256 (as_bytes nonce) session)) = Some response /\
    to_json (TestStartMsg (quic_test_start config test_id)) = Some start /\
    ControlCodec.derive_pair_with_key hkdf (as_bytes nonce0) (as_bytes nonce) session = Ok (c2s, s2c) /\
    (encode_message (WriterProtected c2s) (as_bytes start)).2 = Ok frame /\
    out c' = out c ++ line_of hello ++ line_of response ++ frame /\ is_protected (q_transport a) = true.
Proof.
  intros Hk (c1 & [[caps server] au] & Hh & Hr)%bind_ok.
  apply bind_ok in Hh as (c2 & hello & [-> Hj]%serialize_inv & Hh). specialize (Hj hello eq_refl).
  unfold bind at 1, write_line in Hh.
  apply bind_ok in Hh as (c3 & raw & [Ho3 Hl]%read_line_inv & Hh). specialize (Hl raw eq_refl).
  apply bind_ok in Hh as (c4 & m & [-> Hm]%parse_inv & Hh). specialize (Hm m eq_refl).
  destruct m; try discriminate.
  apply bind_ok in Hh as (c4 & [] & [-> _]%require_inv & Hh).
  destruct auth as [[method nonce]|]; [|by rewrite Hk in Hh].
  apply bind_ok in Hh as (c4 & session & Ha & [= <- <- <- <-]).
  apply (quic_answer_ok exporter config nonce0 hello (trim raw) _ _ key) in Ha; [|done].
  destruct Ha as ((e & -> & He)%session_key_ok & H1 & H2 & resp & al & proof & Hrj & Ho4 & Hal & Haj & Hv).
  cbn [challenge_nonce out rdr] in *.
  apply bind_ok in Hr as (c5 & t & Ht & Hr). unfold install_quic_transport, Handshake.client_nonce in Ht. rewrite Hk in Ht.
  cbn [is_some option_map ok_or fst snd] in Ht. rewrite !bind_lift in Ht.
  apply bind_ok in Ht as (c6 & [c2s s2c] & [-> Hd%map_err_ok]%lift_inv & [= <- <-]).
  apply bind_ok in Hr as (c6 & [] & [-> _]%require_inv & Hr).
  apply bind_ok in Hr as (c6 & start & [-> Hs]%serialize_inv & Hr). specialize (Hs start eq_refl).
  apply bind_ok in Hr as (c7 & t1 & Hw & Hr).
  apply write_message_protected in Hw as [(_ & ? & [=])|(c2s' & frame & Hf & Ho7 & Hr7 & [= ->])].
  apply bind_ok in Hr as (c8 & [t2 l] & [Ho8 Ht2]%read_message_protected & Hr).
  destruct (Ht2 _ _ eq_refl) as (recv' & line & -> & _ & _).
  apply bind_ok in Hr as (c9 & m & [-> _]%parse_inv & Hr). destruct m; try discriminate. injection Hr as <- <-.
  exists e, session, hello, resp, start, frame, (rdr c3), (rdr c4), raw, version, client, capabilities, method, nonce, client_nonce, al, proof, c2s, s2c.
  split_and!; try done; [by rewrite Hf|]. rewrite Ho8, Ho7, Ho4, Ho3. unfold line_of. by rewrite <- !app_assoc.
Qed.

Lemma handle_quic_request_ok server_psk max_d has_psk t c c' t' s d :
  handle_quic_request to_json of_json server_psk max_d has_psk t c = (c', Ok (t', s, d)) ->
  exists t1 line ack, read_message t c = (mkConn (rdr c') (out c), Ok (t1, line)) /\
    of_json (trim line) = Some (TestStartMsg s) /\ to_json (TestAck (ts_id s) [] None) = Some ack /\
    write_message t1 ack (mkConn (rdr c') (out c)) = (c', Ok t') /\
    ts_udp_payload_size s = None /\ ts_protocol s = Quic /\ 
    ts_streams s <> 0 /\ ts_streams s <= MAX_STREAMS /\ d = effective_duration max_d (ts_duration_secs s).
Proof.
  unfold handle_quic_request. intros (c1 & [t1 line] & Hr%explained_inv & Hk)%bind_ok.
  apply bind_ok in Hk as (c2 & m & [-> Hm]%parse_inv & Hk). specialize (Hm m eq_refl).
  destruct m as [| | |s0| | | | | | | | | |]; try by apply refuse_err in Hk.
  destruct (ts_udp_payload_size s0) eqn:Hp; cbn [is_some] in Hk; [by apply refuse_err in Hk|].
  destruct (bool_decide_reflect (ts_protocol s0 = Quic)) as [Hq|]; cbn [negb] in Hk; [|by apply refuse_err in Hk].
  destruct (_ || _) eqn:Hs; [by apply refuse_err in Hk|]. zbool.
  apply bind_ok in Hk as (c3 & ack & [-> Ha]%serialize_inv & Hk). specialize (Ha ack eq_refl).
  apply bind_ok in Hk as (c4 & t2 & Hw & [= <- <- <- <-]).
  assert (Ho : out c1 = out c).
  { unfold read_message in Hr. destruct (control_read_message t (rdr c)) as [[? ?] ?]. by injection Hr as <- _. }
  assert (Hd : rdr c4 = rdr c1).
  { unfold write_message in Hw. destruct (control_write_message t1 _) as [? []]; by injection Hw as <- _. }
  assert (Ec : mkConn (rdr c4) (out c) = c1) by (rewrite Hd, <- Ho; by destruct c1).
  exists t1, line, ack. rewrite Ec. auto 15.
Qed.

(** A server with a key serves a test over QUIC only to a client that shares
    its TLS session: the client advertised both capabilities, answered this
    session's challenge under the key derived from the configured key and what
    TLS exported to this server, and sent the request sealed under keys
    derived from that; the request is for QUIC, within the limits, and
    acknowledged on the same transport. *)
Lemma quic_server_bound exporter program key caps nonce max_d c c' t s d :
  server_quic_handshake hmac_sha256 hkdf to_json of_json exporter program (Some key) caps nonce max_d c = (c', Ok (t, s, d)) ->
  exists e session r1 r2 raw rl response version client server ccaps auth cn c2s s2c c2s' s2c' line,
    exporter = Some e /\ hkdf e (as_bytes key) PSK_SESSION_INFO = Some session /\
    next_line (rdr c) = (r1, Ok raw) /\
    of_json (trim raw) = Some (Hello version client server ccaps auth (Some cn)) /\
    versions_compatible version PROTOCOL_VERSION = true /\
    capability_advertised ccaps PROTECTED_CONTROL_CAPABILITY = true /\
    capability_advertised ccaps QUIC_CHANNEL_BINDING_CAPABILITY = true /\
    next_line r1 = (r2, Ok rl) /\ of_json (trim rl) = Some (AuthResponse response) /\
    verify_response_with_key hmac_sha256 (as_bytes nonce) session (as_bytes response) = true /\
    ControlCodec.derive_pair_with_key hkdf (as_bytes cn) (as_bytes nonce) session = Ok (c2s, s2c) /\
    read_frame c2s r2 = (c2s', rdr c', Ok line) /\ of_json (trim (chars line)) = Some (TestStartMsg s) /\
    t = Protected s2c' c2s' /\ ts_protocol s = Quic /\ ts_streams s <> 0 /\ ts_streams s <= MAX_STREAMS /\
    d = effective_duration max_d (ts_duration_secs s).
Proof.
  unfold server_quic_handshake. intros (c1 & sk & [-> Hsk]%lift_inv & Hk)%bind_ok.
  apply rbind_ok in Hsk as (session & (e & -> & He)%session_key_ok & [= <-]).
  apply bind_ok in Hk as (c2 & raw & [_ Hraw]%read_line_inv & Hk). specialize (Hraw raw eq_refl).
  apply bind_ok in Hk as (c3 & first & [-> Hj]%parse_inv & Hk). specialize (Hj first eq_refl).
  apply bind_ok in Hk as (c4 & [an cn] & Hh & Hk).
  unfold quic_server_hello in Hh. destruct first; try by apply turn_away_err in Hh.
  destruct (versions_compatible _ _) eqn:Hv; cbn [negb] in Hh; [|by apply turn_away_err in Hh].
  destruct (capability_advertised _ PROTECTED_CONTROL_CAPABILITY) eqn:H1; cbn [negb] in Hh; [|by apply turn_away_err in Hh].
  destruct (capability_advertised _ QUIC_CHANNEL_BINDING_CAPABILITY) eqn:H2; cbn [negb] in Hh; [|by apply turn_away_err in Hh].
  apply bind_ok in Hh as (c5 & sh & [-> _]%serialize_inv & Hh). unfold bind, write_line, ret in Hh.
  injection Hh as <- <- <-.
  apply bind_ok in Hk as (c6 & t1 & Ha & Hk). unfold quic_server_auth in Ha.
  apply bind_ok in Ha as (c7 & rl & Hr%explained_inv & Ha).
  apply read_line_inv in Hr as [_ Hr]. specialize (Hr rl eq_refl).
  apply bind_ok in Ha as (c8 & m & [-> Hm]%parse_inv & Ha). specialize (Hm m eq_refl).
  destruct m; try by apply turn_away_err in Ha. cbn [ok_or] in Ha. rewrite bind_lift in Ha.
  destruct (verify_response_with_key _ _ _ _) eqn:Hvr; cbn [negb] in Ha; [|by apply turn_away_err in Ha].
  apply bind_ok in Ha as (c8 & cn & [-> ->%ok_or_ok]%lift_inv & Ha).
  apply bind_ok in Ha as (c8 & [c2s s2c] & [-> Hd%map_err_ok]%lift_inv & Ha).
  apply bind_ok in Ha as (c8 & proof & [-> _]%lift_inv & Ha).
  apply bind_ok in Ha as (c8 & [] & [(? & _ & _ & Hrd)|(_ & ? & [=])]%send_inv & [= <- <-]).
  apply handle_quic_request_ok in Hk as (t2 & line & ack & Hl & Hs & _ & Hw & _ & Hq & Hn & Hm' & Hdur).
  apply read_message_protected in Hl as [_ Hl]. destruct (Hl _ _ eq_refl) as (recv' & l & -> & -> & Hf).
  apply write_message_protected in Hw as [(_ & ? & [=])|(s2c' & frame & _ & _ & _ & [= ->])].
  cbn [fst snd rdr] in *. rewrite Hrd in Hf. repeat eexists; eauto.
Qed.

(** What the two primitives return: HKDF fills a buffer of 32 bytes, and a
    MAC is a string of bytes.  Nothing is assumed about collisions: the
    theorem below names the exact one an attacker would need. *)
Hypothesis hkdf_bytes : forall s i f k, hkdf s i f = Some k -> bytes_ok k /\ length k = 32%nat.
Hypothesis hmac_bytes : forall k m, bytes_ok k -> bytes_ok (hmac_sha256 k m).

(** Two different keys of the same length give one message the same MAC. *)
Definition hmac_clash (k1 k2 m : list Z) : Prop :=
  length k1 = length k2 /\ k1 <> k2 /\ hmac_sha256 k1 m = hmac_sha256 k2 m.
(** Two different inputs of the same lengths give the same derived key. *)
Definition hkdf_clash (s1 i1 s2 i2 info : list Z) : Prop :=
  length s1 = length s2 /\ length i1 = length i2 /\ (s1, i1) <> (s2, i2) /\
  exists k, hkdf s1 i1 info = Some k /\ hkdf s2 i2 info = Some k.

Notation AUTH_INFO := (txt "xfr-protected-control-s2c-auth").
(** The proof keys of two sessions over the same nonces are one key, or give
    the same MAC of the transcript. *)
Definition proof_clash (salt sc ss transcript : list Z) : Prop :=
  hkdf_clash salt sc salt ss AUTH_INFO \/
  exists kc ks, hkdf salt sc AUTH_INFO = Some kc /\ hkdf salt ss AUTH_INFO = Some ks /\
    hmac_clash kc ks transcript.

Lemma hmac_same k1 k2 m :
  length k1 = length k2 -> hmac_sha256 k1 m = hmac_sha256 k2 m -> k1 = k2 \/ hmac_clash k1 k2 m.
Proof. intros Hl Hm. destruct (decide (k1 = k2)); [auto|]. right. by split_and!. Qed.

Lemma hex_encode_inj a b : bytes_ok a -> bytes_ok b -> hex_encode a = hex_encode b -> a = b.
Proof.
  intros Ha. revert b. induction Ha as [|x a Hx _ IH]; intros [|y b] Hb E; try done.
  apply Forall_cons in Hb as [Hy Hb]. rewrite !hex_encode_cons in E. injection E as E1 E2 E. f_equal; [|by apply IH].
  apply from_str_radix_hex_byte in Hx, Hy. rewrite E1, E2, Hy in Hx. congruence.
Qed.

Lemma as_bytes_hex_encode l : bytes_ok l -> as_bytes (hex_encode l) = hex_encode l.
Proof. apply Session.as_bytes_hex. Qed.

(** A response made under one session key is accepted under another only
    when their MACs clash. *)
Lemma response_bound nonce sc ss :
  bytes_ok sc -> bytes_ok ss -> length sc = length ss ->
  verify_response_with_key hmac_sha256 nonce ss (as_bytes (compute_response_with_key hmac_sha256 nonce sc)) = true ->
  sc = ss \/ hmac_clash sc ss nonce.
Proof using hmac_bytes.
  intros Bc Bs Hl. unfold verify_response_with_key, compute_response_with_key.
  rewrite as_bytes_hex_encode by auto. intros Hv.
  apply constant_time_eq_spec in Hv; [|apply hex_encode_ok; auto..].
  apply hex_encode_inj in Hv; [|auto..]. by apply hmac_same.
Qed.

(** And so for the server's proof. *)
Lemma proof_accepted hello raw cn sn sc ss proof :
  length sc = length ss ->
  compute_server_proof_with_key hkdf hmac_sha256 hello raw cn sn ss = Ok proof ->
  verify_server_proof_with_key hkdf hmac_sha256 hello raw cn sn sc (as_bytes proof) = Ok true ->
  sc = ss \/ proof_clash (cn ++ sn) sc ss (hello ++ raw).
Proof using hkdf_bytes hmac_bytes.
  intros Hl Hproof Hv. unfold verify_server_proof_with_key in Hv. apply rbind_ok in Hv as (actual & Ha & [= Hv]).
  unfold compute_server_proof_with_key, derive_keys in Ha, Hproof.
  apply rbind_ok in Ha as ([[k1 k2] k3] & (? & _ & (? & _ & (kc & Hkc%ok_or_ok & [= <- <- <-])%rbind_ok)%rbind_ok)%rbind_ok & [= <-]).
  apply rbind_ok in Hproof as ([[k1' k2'] k3'] & (? & _ & (? & _ & (ks & Hks%ok_or_ok & [= <- <- <-])%rbind_ok)%rbind_ok)%rbind_ok & [= <-]).
  destruct (hkdf_bytes _ _ _ _ Hkc) as [B1 L1], (hkdf_bytes _ _ _ _ Hks) as [B2 L2].
  rewrite as_bytes_hex_encode in Hv by auto. apply constant_time_eq_spec in Hv; [|apply hex_encode_ok; auto..].
  apply hex_encode_inj in Hv; [|auto..]. destruct (decide (sc = ss)) as [|Hne]; [by left|]. right.
  apply hmac_same in Hv as [<-|Hc]; [left|right; eauto|congruence].
  split_and!; [done|done|congruence|eauto].
Qed.

(** C7. An active relay that ends the TLS session of a client and opens its own to
    the server gets nothing by passing the authentication through, even though
    both ends hold the same key, short of breaking a primitive on exactly
    these values: a server serves a test on the response a client made for
    another TLS session only if the two exports give the same session key, or
    the two session keys give this nonce the same MAC; and a client completes
    on the proof a server made, over the same hellos and nonces, for another
    TLS session only if the two exports give the same session key, or the two
    proof keys are the same or give this transcript the same MAC.  Nothing is
    assumed of HKDF and HMAC but that they return bytes, HKDF 32 of them. *)
Theorem quic_relay_refused (ec es sc ss : list Z) (key nonce : str) :
  length ec = length es -> ec <> es ->
  hkdf ec (as_bytes key) PSK_SESSION_INFO = Some sc -> hkdf es (as_bytes key) PSK_SESSION_INFO = Some ss ->
  (forall program caps max_d c c' t s d r1 r2 raw rl,
     next_line (rdr c) = (r1, Ok raw) -> next_line r1 = (r2, Ok rl) ->
     of_json (trim rl) = Some (AuthResponse (compute_response_with_key hmac_sha256 (as_bytes nonce) sc)) ->
     server_quic_handshake hmac_sha256 hkdf to_json of_json (Some es) program (Some key) caps nonce max_d c
     = (c', Ok (t, s, d)) ->
     hkdf_clash ec (as_bytes key) es (as_bytes key) PSK_SESSION_INFO \/ hmac_clash sc ss (as_bytes nonce)) /\
  (forall program config nonce0 test_id c c' a r1 r2 raw al version client server caps method cn hello proof,
     psk config = Some key -> to_json (client_hello_msg program config nonce0) = Some hello ->
     next_line (rdr c) = (r1, Ok raw) ->
     of_json (trim raw) = Some (Hello version client server caps (Some (mkAuthChallenge method nonce)) cn) ->
     next_line r1 = (r2, Ok al) -> of_json (trim al) = Some (AuthSuccess (Some proof)) ->
     compute_server_proof_with_key hkdf hmac_sha256 (as_bytes hello) (as_bytes (trim raw)) (as_bytes nonce0)
       (as_bytes nonce) ss = Ok proof ->
     client_quic_handshake hmac_sha256 hkdf to_json of_json (Some ec) program config nonce0 test_id c = (c', Ok a) ->
     hkdf_clash ec (as_bytes key) es (as_bytes key) PSK_SESSION_INFO \/
     proof_clash (as_bytes nonce0 ++ as_bytes nonce) sc ss (as_bytes hello ++ as_bytes (trim raw))).
Proof using hkdf_bytes hmac_bytes.
  intros Hlen Hne Hsc Hss.
  assert (Hk : sc = ss -> hkdf_clash ec (as_bytes key) es (as_bytes key) PSK_SESSION_INFO)
    by (intros <-; split_and!; [done|done|congruence|eauto]).
  destruct (hkdf_bytes _ _ _ _ Hsc) as [Bc Lc], (hkdf_bytes _ _ _ _ Hss) as [Bs Ls]. split.
  - intros program caps max_d c c' t s d r1 r2 raw rl H1 H2 Hj Hrun. apply quic_server_bound in Hrun
      as (e & session & q1 & q2 & raw' & rl' & response & version & client & server & ccaps & auth & cn & c2s & s2c & c2s' & s2c' & line
          & [= <-] & He & Hq1 & _ & _ & _ & _ & Hq2 & Hr & Hv & _).
    rewrite Hq1 in H1. injection H1 as <- <-. rewrite Hq2 in H2. injection H2 as <- <-. rewrite Hr in Hj. injection Hj as ->.
    rewrite Hss in He. injection He as <-. apply response_bound in Hv as [?|?]; auto; congruence.
  - intros program config nonce0 test_id c c' a r1 r2 raw al version client server caps method cn hello proof
      Hpsk Hh H1 Hj H2 Hp Hproof Hrun.
    eapply quic_client_run in Hrun; [|exact Hpsk].
    destruct Hrun as (e & session & hello' & resp & start & frame & q1 & q2 & raw' & version' & client' & caps' & method' & nonce' & cn'
          & al' & proof' & c2s & s2c & [= <-] & He & Hq1 & Hj' & _ & _ & Hq2 & Hp' & Hh' & Hv & _).
    rewrite Hq1 in H1. injection H1 as <- <-. rewrite Hq2 in H2. injection H2 as <- <-. rewrite Hj in Hj'. injection Hj' as <- <- _ <- <- <- <-.
    rewrite Hp in Hp'. injection Hp' as <-. rewrite Hh in Hh'. injection Hh' as <-. rewrite Hsc in He. injection He as <-.
    eapply proof_accepted in Hv as [?|?]; eauto; congruence.
Qed.
End runs.

(** ** Witness: two TLS sessions of one key *)
Definition toy_hkdf (salt ikm info : list Z) : option (list Z) :=
  Some (map (fun b => b mod 256) (take 32 (salt ++ ikm ++ repeat 0 32))).
Definition toy_hmac (k m : list Z) : list Z := k.

Lemma bytes_map_mod l : bytes_ok (map (fun b => b mod 256) l).
Proof. apply Forall_map, Forall_forall. intros b _. cbn. apply Z.mod_pos_bound. lia. Qed.

Definition client_tls : list Z := repeat 1 32.
Definition server_tls : list Z := repeat 2 32.
Definition session_of (e : list Z) : list Z := default [] (toy_hkdf e (txt "secret") PSK_SESSION_INFO).
Definition quic_config : ClientConfig :=
  mkClientConfig (txt "h") 5201 Quic 2 10000000000 Upload None None false None None
    (Some (txt "secret")) DualStack None false false true Auto None false None None.
Definition quic_messages (session : list Z) : list (str * ControlMessage) :=
  [(txt "{ch}", client_hello_msg (txt "xfr") quic_config (txt "c1"));
   (txt "{sh}", server_hello_with_auth_and_capabilities (txt "xfr") (txt "s1") supported_capabilities);
   (txt "{rj}", AuthResponse (compute_response_with_key toy_hmac (txt "s1") session));
   (txt "{tj}", TestStartMsg (quic_test_start quic_config (txt "id")))].
Definition quic_of_json (session : list Z) (s : str) : option ControlMessage :=
  option_map snd (List.find (fun p => str_eqb s (fst p)) (quic_messages session)).
(** The request sealed by a client whose session key is [session]. *)
Definition quic_input (session : list Z) : reader :=
  match ControlCodec.derive_pair_with_key toy_hkdf (txt "c1") (txt "s1") session with
  | Ok (c2s, _) => mkReader [line_of (txt "{ch}"); line_of (txt "{rj}") ++ demo_frame c2s (txt "{tj}")] Eof
  | Err _ => mkReader [] Eof
  end.
(** The server's end of a connection that exports [es], on what a client made
    for a connection that exports [ec]. *)
Definition quic_server (ec es : list Z) : conn * result (ProtectedControl * TestStart * Z) handshake_error :=
  server_quic_handshake toy_hmac toy_hkdf demo_to_json (quic_of_json (session_of ec)) (Some es) (txt "xfr")
    (Some (txt "secret")) supported_capabilities (txt "s1") None (mkConn (quic_input (session_of ec)) []).

Lemma toy_hkdf_bytes s i f k : toy_hkdf s i f = Some k -> bytes_ok k /\ length k = 32%nat.
Proof.
  intros [= <-]. split; [apply bytes_map_mod|].
  rewrite length_map, length_take, !length_app. cbn [length repeat]. lia.
Qed.

Lemma quic_relay_refused_witness :
  is_ok (quic_server server_tls server_tls).2 = true /\ forall r, (quic_server client_tls server_tls).2 <> Ok r.
Proof.
  split; [vm_compute; reflexivity|]. intros [[t s] d] E.
  destruct (quic_relay_refused toy_hmac toy_hkdf demo_to_json (quic_of_json (session_of client_tls)))
    with (ec := client_tls) (es := server_tls) (sc := session_of client_tls) (ss := session_of server_tls)
         (key := txt "secret") (nonce := txt "s1") as [Hserver _].
  - apply toy_hkdf_bytes.
  - by intros k m Hk.
  - reflexivity.
  - discriminate.
  - reflexivity.
  - reflexivity.
  - destruct (next_line (quic_input (session_of client_tls))) as [r1 [raw|]] eqn:E1; [|vm_compute in E1; discriminate].
    destruct (next_line r1) as [r2 [rl|]] eqn:E2;
      [|vm_compute in E1; injection E1 as <- <-; vm_compute in E2; discriminate].
    destruct (Hserver (txt "xfr") supported_capabilities None (mkConn (quic_input (session_of client_tls)) [])
      (quic_server client_tls server_tls).1 t s d r1 r2 raw rl E1 E2)
      as [(_ & _ & _ & k & H1 & H2)|(_ & _ & Hm)].
    + vm_compute in E1. injection E1 as <- <-. vm_compute in E2. injection E2 as <- <-. vm_compute. reflexivity.
    + unfold quic_server in E |- *. by rewrite <- E, <- surjective_pairing.
    + vm_compute in H1, H2. rewrite <- H2 in H1. discriminate.
    + vm_compute in Hm. discriminate.
Defined.
