(* ===== verification/Settings.v ===== *)
(** * The settings modal (src/src/tui/settings.rs)

    Navigation, value cycling and the apply button of the terminal
    interface's settings, as a state machine over keys.  The test parameters
    and the values they are compared with are two records of one type. *)
From S2P Require Import Prelude Bytes Text Fmt Protocol.

(** ** Choices *)
Module SettingsCategory.
Inductive t := Display | Test.
#[global] Instance t_eq_dec : EqDecision t.
Proof. solve_decision. Defined.
Definition next (c : t) : t := match c with Display => Test | Test => Display end.
End SettingsCategory.

Module Units.
Inductive t := Auto | Bits | Bytes.
#[global] Instance t_eq_dec : EqDecision t.
Proof. solve_decision. Defined.
Definition as_str (u : t) : str :=
  match u with Auto => txt "auto" | Bits => txt "bits" | Bytes => txt "bytes" end.
Definition next (u : t) : t := match u with Auto => Bits | Bits => Bytes | Bytes => Auto end.
Definition prev (u : t) : t := match u with Auto => Bytes | Bits => Auto | Bytes => Bits end.
End Units.

Definition protocol_next (p : Protocol) : Protocol :=
  match p with Tcp => Udp | Udp => Quic | Quic => Tcp end.
Definition protocol_prev (p : Protocol) : Protocol :=
  match p with Tcp => Quic | Udp => Tcp | Quic => Udp end.
Definition direction_next (d : Direction) : Direction :=
  match d with Upload => Download | Download => Bidir | Bidir => Upload end.
Definition direction_prev (d : Direction) : Direction :=
  match d with Upload => Bidir | Download => Upload | Bidir => Download end.

(** Up and down by five seconds, onto multiples of five. *)
Definition duration_next (secs : Z) : Z := Z.min ((secs / 5 + 1) * 5) 3600.
Definition duration_prev (secs : Z) : Z := Z.max (saturating_sub secs 1 / 5 * 5) 5.

Definition BITRATE_STEPS : list (option Z) :=
  [None; Some 1000000; Some 10000000; Some 100000000; Some 1000000000; Some 10000000000].

(** [iter().position(..).unwrap_or(0)]. *)
Definition bitrate_index (current : option Z) : nat :=
  match list_find (fun step => step = current) BITRATE_STEPS with Some (i, _) => i | None => 0 end.
(** Indexing panics out of range; [bitrate_step_in_range] shows it is not. *)
Definition bitrate_step (i : nat) : option Z := nth i BITRATE_STEPS None.
Definition bitrate_next (current : option Z) : option Z :=
  bitrate_step ((bitrate_index current + 1) mod length BITRATE_STEPS)%nat.
Definition bitrate_prev (current : option Z) : option Z :=
  let i := bitrate_index current in
  bitrate_step (if Nat.eqb i 0 then length BITRATE_STEPS - 1 else i - 1)%nat.

Definition bitrate_display (bitrate : option Z) : str :=
  match bitrate with
  | None => txt "unlimited"
  | Some bps =>
    if bps mod 1000000000 =? 0 then dec (bps / 1000000000) ++ txt " Gbps"
    else if bps mod 1000000 =? 0 then dec (bps / 1000000) ++ txt " Mbps"
    else if bps mod 1000 =? 0 then dec (bps / 1000) ++ txt " Kbps"
    else dec bps ++ txt " bps"
  end.

(** [Theme::list] of theme.rs. *)
Definition theme_list : list str :=
  map txt ["default"; "kawaii"; "cyber"; "dracula"; "monochrome"; "matrix"; "nord"; "gruvbox";
           "catppuccin"; "tokyo_night"; "solarized"]%string.

(** ** State *)
Record TestParams := mkParams {
  streams : Z; protocol : Protocol; duration_secs : Z; direction : Direction; bitrate : option Z
}.
#[export] Instance TestParams_eq_dec : EqDecision TestParams.
Proof. solve_decision. Defined.

Record Nav := mkNav {
  visible : bool; category : SettingsCategory.t; selected_index : Z; button_focused : bool;
  button_index : Z
}.
Record DisplaySettings := mkDisplay {
  theme_index : Z; timestamp_format : TimestampFormat.t; units : Units.t; update_check : bool;
  update_check_lock_reason : option str; update_check_touched : bool
}.
Record SettingsState := mkSettings {
  nav : Nav; display : DisplaySettings; test : TestParams; original : TestParams
}.

Definition set_nav (n : Nav) (s : SettingsState) := mkSettings n (display s) (test s) (original s).
Definition set_display (d : DisplaySettings) (s : SettingsState) :=
  mkSettings (nav s) d (test s) (original s).
Definition set_test (p : TestParams) (s : SettingsState) :=
  mkSettings (nav s) (display s) p (original s).

(** [duration] in nanoseconds. *)
Definition new (theme_index streams : Z) (protocol : Protocol) (duration : Z)
    (direction : Direction) (bitrate : option Z) : SettingsState :=
  let p := mkParams streams protocol (duration / 1000000000) direction bitrate in
  mkSettings (mkNav false SettingsCategory.Display 0 false 0)
    (mkDisplay theme_index TimestampFormat.Relative Units.Auto true None false) p p.
Definition default : SettingsState :=
  let p := mkParams 1 Tcp 10 Upload None in
  mkSettings (mkNav false SettingsCategory.Display 0 false 0)
    (mkDisplay 0 TimestampFormat.Relative Units.Auto true None false) p p.

(** ** Operations *)
Definition mark_applied (s : SettingsState) : SettingsState :=
  mkSettings (nav s) (display s) (test s) (test s).

Definition toggle (s : SettingsState) : SettingsState :=
  let n := nav s in
  let visible := negb (visible n) in
  set_nav (if visible then mkNav visible (category n) 0 false (button_index n)
           else mkNav visible (category n) (selected_index n) (button_focused n) (button_index n)) s.

Definition close (s : SettingsState) : SettingsState :=
  let n := nav s in
  set_nav (mkNav false (category n) (selected_index n) (button_focused n) (button_index n)) s.

Definition test_params_dirty (s : SettingsState) : bool := negb (bool_decide (test s = original s)).

Definition items_in_category (n : Nav) : Z :=
  match category n with SettingsCategory.Display => 4 | SettingsCategory.Test => 5 end.

Definition move_up (s : SettingsState) : SettingsState :=
  let n := nav s in
  if button_focused n then
    set_nav (mkNav (visible n) (category n) (saturating_sub (items_in_category n) 1) false
               (button_index n)) s
  else if 0 <? selected_index n then
    set_nav (mkNav (visible n) (category n) (selected_index n - 1) false (button_index n)) s
  else s.

(** Focus the first button shown. *)
Definition focus_buttons (s : SettingsState) : SettingsState :=
  let n := nav s in
  set_nav (mkNav (visible n) (category n) (selected_index n) true
             (if test_params_dirty s then 0 else 1)) s.

Definition move_down (s : SettingsState) : SettingsState :=
  let n := nav s in
  if button_focused n then s
  else if selected_index n <? saturating_sub (items_in_category n) 1 then
    set_nav (mkNav (visible n) (category n) (selected_index n + 1) false (button_index n)) s
  else focus_buttons s.

Definition switch_tab (s : SettingsState) : SettingsState :=
  let n := nav s in
  set_nav (mkNav (visible n) (SettingsCategory.next (category n)) 0 false (button_index n)) s.

Definition toggle_update_check (d : DisplaySettings) : DisplaySettings :=
  match update_check_lock_reason d with
  | Some _ => d
  | None => mkDisplay (theme_index d) (timestamp_format d) (units d) (negb (update_check d))
              (update_check_lock_reason d) true
  end.

Definition with_theme (i : Z) (d : DisplaySettings) : DisplaySettings :=
  mkDisplay i (timestamp_format d) (units d) (update_check d) (update_check_lock_reason d)
    (update_check_touched d).
Definition with_timestamp (f : TimestampFormat.t) (d : DisplaySettings) : DisplaySettings :=
  mkDisplay (theme_index d) f (units d) (update_check d) (update_check_lock_reason d)
    (update_check_touched d).
Definition with_units (u : Units.t) (d : DisplaySettings) : DisplaySettings :=
  mkDisplay (theme_index d) (timestamp_format d) u (update_check d) (update_check_lock_reason d)
    (update_check_touched d).

Definition display_next (i : Z) (d : DisplaySettings) : DisplaySettings :=
  if i =? 0 then with_theme ((theme_index d + 1) mod Z.of_nat (length theme_list)) d
  else if i =? 1 then with_timestamp (TimestampFormat.next (timestamp_format d)) d
  else if i =? 2 then with_units (Units.next (units d)) d
  else if i =? 3 then toggle_update_check d
  else d.
Definition display_prev (i : Z) (d : DisplaySettings) : DisplaySettings :=
  if i =? 0 then
    with_theme (if theme_index d =? 0 then Z.of_nat (length theme_list) - 1 else theme_index d - 1) d
  else if i =? 1 then with_timestamp (TimestampFormat.prev (timestamp_format d)) d
  else if i =? 2 then with_units (Units.prev (units d)) d
  else if i =? 3 then toggle_update_check d
  else d.

Definition test_next (i : Z) (p : TestParams) : TestParams :=
  let 'mkParams n pr d dir b := p in
  if i =? 0 then mkParams (Z.min (saturating_add 8 n 1) 128) pr d dir b
  else if i =? 1 then mkParams n (protocol_next pr) d dir b
  else if i =? 2 then mkParams n pr (duration_next d) dir b
  else if i =? 3 then mkParams n pr d (direction_next dir) b
  else if i =? 4 then mkParams n pr d dir (bitrate_next b)
  else p.
Definition test_prev (i : Z) (p : TestParams) : TestParams :=
  let 'mkParams n pr d dir b := p in
  if i =? 0 then mkParams (Z.max (saturating_sub n 1) 1) pr d dir b
  else if i =? 1 then mkParams n (protocol_prev pr) d dir b
  else if i =? 2 then mkParams n pr (duration_prev d) dir b
  else if i =? 3 then mkParams n pr d (direction_prev dir) b
  else if i =? 4 then mkParams n pr d dir (bitrate_prev b)
  else p.

Definition with_button (i : Z) (n : Nav) : Nav :=
  mkNav (visible n) (category n) (selected_index n) (button_focused n) i.

Definition value_next (s : SettingsState) : SettingsState :=
  let n := nav s in
  if button_focused n then
    if test_params_dirty s then set_nav (with_button ((button_index n + 1) mod 2) n) s else s
  else
    match category n with
    | SettingsCategory.Display => set_display (display_next (selected_index n) (display s)) s
    | SettingsCategory.Test => set_test (test_next (selected_index n) (test s)) s
    end.
Definition value_prev (s : SettingsState) : SettingsState :=
  let n := nav s in
  if button_focused n then
    if test_params_dirty s then set_nav (with_button (if button_index n =? 0 then 1 else 0) n) s else s
  else
    match category n with
    | SettingsCategory.Display => set_display (display_prev (selected_index n) (display s)) s
    | SettingsCategory.Test => set_test (test_prev (selected_index n) (test s)) s
    end.

Definition theme_name (s : SettingsState) : str :=
  match theme_list !! Z.to_nat (theme_index (display s)) with
  | Some name => name
  | None => txt "default"
  end.

Inductive SettingsAction := NoAction | Close | Restart.

Definition on_enter (s : SettingsState) : SettingsState * SettingsAction :=
  let n := nav s in
  if negb (button_focused n) then (focus_buttons s, NoAction)
  else if button_index n =? 0 then
    if test_params_dirty s then (close s, Restart) else (close s, Close)
  else if button_index n =? 1 then (close s, Close)
  else (s, NoAction).

(** ** Cycling *)
Lemma units_cycle u : Units.prev (Units.next u) = u /\ Units.next (Units.prev u) = u.
Proof. by destruct u. Qed.

Lemma bitrate_step_in_range b :
  ((bitrate_index b + 1) mod length BITRATE_STEPS < length BITRATE_STEPS)%nat /\
  ((if Nat.eqb (bitrate_index b) 0 then length BITRATE_STEPS - 1 else bitrate_index b - 1)
   < length BITRATE_STEPS)%nat.
Proof.
  split; [apply Nat.mod_upper_bound; discriminate|]. unfold bitrate_index.
  destruct (list_find _ _) as [[i y]|] eqn:E; [|cbn; lia].
  apply list_find_Some in E as (Hl & _). apply lookup_lt_Some in Hl.
  destruct (Nat.eqb_spec i 0); cbn in *; lia.
Qed.

Lemma bitrate_cycle b : In b BITRATE_STEPS -> bitrate_prev (bitrate_next b) = b /\ bitrate_next (bitrate_prev b) = b.
Proof.
  intros Hb. repeat (destruct Hb as [<-|Hb]; [split; reflexivity|]). destruct Hb.
Qed.

Lemma bitrate_next_step b : In (bitrate_next b) BITRATE_STEPS /\ In (bitrate_prev b) BITRATE_STEPS.
Proof. split; apply nth_In, bitrate_step_in_range. Qed.

Lemma duration_cycle d :
  d mod 5 = 0 -> 5 <= d < 3600 ->
  duration_prev (duration_next d) = d /\ (5 < d -> duration_next (duration_prev d) = d).
Proof.
  intros Hm Hd. unfold duration_next, duration_prev, saturating_sub.
  assert (exists q, d = q * 5) as [q ->] by (exists (d / 5); pose proof (Z.div_mod d 5); lia).
  split; intros; Z.to_euclidean_division_equations; lia.
Qed.

(** ** Well-formedness *)
Definition params_ok (p : TestParams) : Prop :=
  1 <= streams p <= 128 /\ 0 <= duration_secs p.
Definition nav_ok (n : Nav) : Prop :=
  0 <= selected_index n < items_in_category n /\ 0 <= button_index n <= 1.
(** While the modal is open, the focused apply button means a change. *)
Definition wf (s : SettingsState) : Prop :=
  nav_ok (nav s) /\ params_ok (test s) /\ params_ok (original s) /\
  0 <= theme_index (display s) < Z.of_nat (length theme_list) /\
  (visible (nav s) = true -> button_focused (nav s) = true -> button_index (nav s) = 0 ->
   test s <> original s).

Lemma dirty_iff s : test_params_dirty s = true <-> test s <> original s.
Proof. unfold test_params_dirty. by case_bool_decide. Qed.
Lemma clean_iff s : test_params_dirty s = false <-> test s = original s.
Proof. unfold test_params_dirty. by case_bool_decide. Qed.

Lemma items_pos n : 4 <= items_in_category n <= 5.
Proof. unfold items_in_category. destruct (category n); lia. Qed.

Lemma duration_next_nonneg d : 0 <= d -> 0 <= duration_next d.
Proof. intros. unfold duration_next. pose proof (Z.div_pos d 5 ltac:(lia) ltac:(lia)). lia. Qed.

Lemma test_next_ok i p : params_ok p -> params_ok (test_next i p).
Proof.
  destruct p. unfold params_ok, test_next, saturating_add. intros [? ?]. pose proof (duration_next_nonneg duration_secs0).
  repeat case_match; cbn in *; lia.
Qed.
Lemma test_prev_ok i p : params_ok p -> params_ok (test_prev i p).
Proof.
  destruct p. unfold params_ok, test_prev, saturating_sub, duration_prev. intros [? ?].
  repeat case_match; cbn in *; lia.
Qed.

Lemma display_next_theme i d :
  0 <= theme_index d < Z.of_nat (length theme_list) ->
  0 <= theme_index (display_next i d) < Z.of_nat (length theme_list).
Proof.
  intros H. unfold display_next, toggle_update_check.
  repeat case_match; cbn [theme_index with_theme with_timestamp with_units]; try done.
  apply Z.mod_pos_bound. cbn. lia.
Qed.
Lemma display_prev_theme i d :
  0 <= theme_index d < Z.of_nat (length theme_list) ->
  0 <= theme_index (display_prev i d) < Z.of_nat (length theme_list).
Proof.
  intros H. unfold display_prev, toggle_update_check.
  repeat case_match; cbn [theme_index with_theme with_timestamp with_units]; zbool; try done; lia.
Qed.

Ltac wf_nav := cbn [nav display test original set_nav visible button_focused button_index] in *;
  split_and!; try done; try (unfold nav_ok, items_in_category, saturating_sub in *;
    cbn [selected_index button_index category] in *; repeat case_match; zbool; lia).

Lemma focus_buttons_wf s : wf s -> wf (focus_buttons s).
Proof.
  unfold wf. intros ([? ?] & ? & ? & ? & _). unfold focus_buttons. wf_nav.
  intros _ _. destruct (test_params_dirty s) eqn:E; [|done]. intros _. by apply dirty_iff.
Qed.
Lemma move_up_wf s : wf s -> wf (move_up s).
Proof.
  unfold move_up. intros Hw. pose proof Hw as (Hn & ? & ? & ? & _). pose proof (items_pos (nav s)).
  destruct (button_focused (nav s)); [unfold wf; by wf_nav|]. destruct (Z.ltb_spec 0 (selected_index (nav s))); [|done].
  unfold wf. by wf_nav.
Qed.
Lemma move_down_wf s : wf s -> wf (move_down s).
Proof.
  unfold move_down. intros Hw. pose proof Hw as (Hn & ? & ? & ? & _).
  destruct (button_focused (nav s)); [done|].
  destruct (_ <? _) eqn:E; [|by apply focus_buttons_wf]. unfold wf. by wf_nav.
Qed.
Lemma switch_tab_wf s : wf s -> wf (switch_tab s).
Proof. unfold wf, switch_tab. intros (Hn & ? & ? & ? & _). by wf_nav. Qed.
Lemma toggle_wf s : wf s -> wf (toggle s).
Proof. unfold wf, toggle. intros (Hn & ? & ? & ? & _). destruct (visible (nav s)); cbn [negb]; by wf_nav. Qed.
Lemma close_wf s : wf s -> wf (close s).
Proof. unfold wf, close. intros (Hn & ? & ? & ? & _). by wf_nav. Qed.

Lemma value_next_wf s : wf s -> wf (value_next s).
Proof.
  unfold value_next. intros Hw. pose proof Hw as (Hn & ? & ? & ? & _).
  destruct (button_focused (nav s)) eqn:Eb.
  - destruct (test_params_dirty s) eqn:E; [|done]. apply dirty_iff in E. unfold wf. wf_nav.
    unfold nav_ok in *. cbn [selected_index with_button items_in_category category button_index] in *.
    split; [tauto|]. pose proof (Z.mod_pos_bound (button_index (nav s) + 1) 2). lia.
  - destruct (category (nav s)); unfold wf; cbn [nav display test original set_display set_test];
      rewrite Eb; split_and!; try done; first [by apply display_next_theme|by apply test_next_ok|tauto].
Qed.
Lemma value_prev_wf s : wf s -> wf (value_prev s).
Proof.
  unfold value_prev. intros Hw. pose proof Hw as (Hn & ? & ? & ? & _).
  destruct (button_focused (nav s)) eqn:Eb.
  - destruct (test_params_dirty s) eqn:E; [|done]. apply dirty_iff in E. unfold wf. wf_nav.
    unfold nav_ok in *. cbn [selected_index with_button items_in_category category button_index] in *.
    split; [tauto|]. case_match; lia.
  - destruct (category (nav s)); unfold wf; cbn [nav display test original set_display set_test];
      rewrite Eb; split_and!; try done; first [by apply display_prev_theme|by apply test_prev_ok|tauto].
Qed.
Lemma mark_applied_wf s : wf s -> visible (nav s) = false -> wf (mark_applied s).
Proof. unfold wf, mark_applied. intros (Hn & ? & ? & ? & _) Hv. cbn.
  rewrite Hv. split_and!; tauto || discriminate.
Qed.

Lemma on_enter_spec s s' a :
  wf s -> on_enter s = (s', a) ->
  wf s' /\ test s' = test s /\ original s' = original s /\
  (a = Restart -> visible (nav s') = false /\ button_focused (nav s) = true) /\
  (visible (nav s) = true ->
   (a = Restart <-> button_focused (nav s) = true /\ button_index (nav s) = 0)) /\
  (a = Restart -> test s <> original s).
Proof.
  intros Hw. pose proof Hw as ([_ Hb] & _ & _ & _ & Hd). unfold on_enter.
  destruct (button_focused (nav s)) eqn:Ef; cbn [negb].
  2: { intros [= <- <-]. split; [by apply focus_buttons_wf|]. naive_solver. }
  destruct (Z.eqb_spec (button_index (nav s)) 0) as [E0|E0].
  - destruct (test_params_dirty s) eqn:E; intros [= <- <-]; (split; [by apply close_wf|]).
    + apply dirty_iff in E. naive_solver.
    + apply clean_iff in E. naive_solver.
  - destruct (Z.eqb_spec (button_index (nav s)) 1); intros [= <- <-];
      (split; [by apply close_wf || done|]); naive_solver.
Qed.

#[export] Hint Resolve move_up_wf move_down_wf switch_tab_wf toggle_wf close_wf value_next_wf
  value_prev_wf focus_buttons_wf : xfr.
