(* ===== verification/App.v ===== *)
(** * The client's terminal application (src/src/tui/app.rs)

    The state behind the client's screen as a state machine: progress,
    results, errors, pause, restart, clock ticks and settings, with the loop's
    key decisions of src/src/main.rs.  Instants and durations are nanoseconds;
    a call reads the clock once.  Colour themes are their names; the
    absolute timestamp formats come from a calendar library and are a
    parameter.  [render_fingerprint] and the drawing are in Screen.v. *)
From coqutil Require Import Datatypes.RecordSettersUsingExistingGetters.
From Stdlib Require Import SpecFloat.
From S2P Require Import Prelude Bytes Text Float Fmt Protocol Stats Settings Client.

Definition SPARKLINE_HISTORY : nat := 60.
Definition LOG_HISTORY : nat := 100.
Definition JITTER_HISTORY_SAMPLES : nat := 10.
Definition BAR_INTERVAL : Z := 1000000000.
Definition BAR_STALL_AFTER : Z := 2000000000.

Inductive AppState := Connecting | Running | Paused | Completed | Error.
#[export] Instance AppState_eq_dec : EqDecision AppState.
Proof. solve_decision. Defined.

Definition app_state_str (s : AppState) : str :=
  match s with
  | Connecting => txt "Connecting..." | Running => txt "Running..." | Paused => txt "Paused"
  | Completed => txt "Complete" | Error => txt "Error"
  end.

Record StreamData := mkStreamData {
  sd_id : Z; sd_bytes : Z; sd_throughput_mbps : f64; sd_retransmits : Z;
  sd_jitter_ms : option f64; sd_send_mbps : option f64; sd_recv_mbps : option f64
}.
Definition new_stream (id : Z) : StreamData := mkStreamData id 0 zero 0 None None None.

(** [TestProgress] of client.rs. *)
Record TestProgress := mkTestProgress {
  tp_elapsed_ms : Z; tp_total_bytes : Z; tp_throughput_mbps : f64; tp_streams : list StreamInterval;
  tp_rtt_us : option Z; tp_cwnd : option Z; tp_total_retransmits : option Z;
  tp_bytes_sent : option Z; tp_bytes_received : option Z;
  tp_send_mbps : option f64; tp_recv_mbps : option f64;
  tp_udp_progress : option UdpIntervalProgress.t; tp_udp_feedback_only : bool;
  tp_udp_send : option UdpDirectionProgress; tp_udp_recv : option UdpDirectionProgress
}.

(** ** One direction's measurements *)
Record UdpDirectionState := mkUdpDirectionState {
  ds_progress : option UdpIntervalProgress.t; ds_jitter_ms : option f64
}.
Definition no_direction : UdpDirectionState := mkUdpDirectionState None None.
Definition direction_lost_percent (d : UdpDirectionState) : option f64 :=
  ds_progress d ≫= UdpIntervalProgress.lost_percent.

Definition stale (m : UdpIntervalProgress.t) (previous : option UdpIntervalProgress.t) : bool :=
  match previous with
  | Some p => negb (UdpIntervalProgress.is_at_least_as_fresh_as m p)
  | None => false
  end.

Definition update (self : UdpDirectionState) (m : UdpDirectionProgress) : UdpDirectionState :=
  if stale (udp_dir_progress m) (ds_progress self) then self
  else mkUdpDirectionState (Some (udp_dir_progress m))
         (match udp_dir_jitter_ms m with Some j => Some j | None => ds_jitter_ms self end).
Definition update_from (self : UdpDirectionState) (m : option UdpDirectionProgress) :=
  match m with Some m => update self m | None => self end.

Definition from_result (stats : option UdpStats) : UdpDirectionState :=
  match stats with
  | None => no_direction
  | Some s => mkUdpDirectionState
      (Some (UdpIntervalProgress.mk (us_packets_received s) (us_lost s)))
      (if 0 <? us_packets_received s then Some (us_jitter_ms s) else None)
  end.

(** ** Samples and log entries *)
Record ThroughputSample := mkSample { mbps : f64; lost_packets : Z; interval_packets : Z }.
Definition loss_rate_percent (s : ThroughputSample) : option f64 :=
  if interval_packets s =? 0 then None
  else Some (fmul (fdiv (of_int (lost_packets s)) (of_int (interval_packets s))) (of_int 100)).

Record LogEntry := mkLogEntry { timestamp : str; message : str; le_elapsed : Z; recorded_at : Z }.

Section clock.
(** [TimestampFormat::format] of a reading, for the anchor's two clocks. *)
Variable format : TimestampFormat.t -> Z -> Z -> Z -> str.

Definition format_timestamp (e : LogEntry) (f : TimestampFormat.t) (clock : Z * Z) : str :=
  let secs := le_elapsed e / 1000000000 in
  match f with
  | TimestampFormat.Relative =>
    zero_pad 2 (dec (secs / 3600)) ++ txt ":" ++ zero_pad 2 (dec (secs mod 3600 / 60)) ++ txt ":"
    ++ zero_pad 2 (dec (secs mod 60))
  | _ => format f (fst clock) (recorded_at e) (snd clock)
  end.

(** ** The application

    [App]'s fields in three groups: the test's parameters, what belongs to
    one run, and what outlives a restart. *)
Record Setup := mkSetup {
  app_host : str; app_port : Z; app_protocol : Protocol; app_direction : Direction;
  streams_count : Z; app_duration : Z; app_bitrate : option Z; app_byte_budget : option Z
}.
Record Run := mkRun {
  state : AppState; elapsed : Z; total_bytes : Z; current_throughput_mbps : f64;
  throughput_history : list ThroughputSample; jitter_history : list f64;
  run_streams : list StreamData;
  bidir_bytes_sent : Z; bidir_bytes_received : Z;
  throughput_send_mbps : f64; throughput_recv_mbps : f64;
  total_retransmits : Z; retransmits_are_authoritative : bool; rtt_us : Z; cwnd : Z;
  udp_jitter_ms : f64; udp_lost_percent : option f64; udp_packets_sent : Z; udp_packets_lost : Z;
  udp_send : UdpDirectionState; udp_recv : UdpDirectionState;
  run_result : option TestResult; run_error : option str; cancel_deadline : option Z;
  start_time : option Z; show_help : bool; show_streams : bool;
  average_throughput_mbps : f64; throughput_count : Z; peak_throughput_mbps : f64;
  prev_retransmits : Z; prev_udp_lost : Z;
  prev_udp_progress : option UdpIntervalProgress.t;
  latest_udp_progress : option UdpIntervalProgress.t;
  last_bar_at : option Z; run_server_version : option str; pause_started_at : option Z
}.
Record Session := mkSession {
  help_scroll : Z; app_timestamp_format : TimestampFormat.t; theme : str; app_theme_index : Z;
  theme_touched : bool; settings : SettingsState; history : list LogEntry;
  history_clock : Z * Z; update_available : option str
}.
Record App := mkApp { setup : Setup; run : Run; session : Session }.

Definition u8_ids (n : Z) : list Z := seqZ 0 n.

(** What [App::new] starts a run with.  The constructor knows no byte budget;
    the terminal loop assigns it ([set_byte_budget]). *)
Definition new_run (streams : Z) : Run :=
  mkRun Connecting 0 0 zero [] [] (map new_stream (u8_ids streams)) 0 0 zero zero 0 false 0 0
    zero None 0 0 no_direction no_direction None None None None false false zero 0 zero 0 0 None None
    None None None.

Definition new (now system : Z) (s : Setup) (tf : TimestampFormat.t) (theme : str) : App :=
  let st := Settings.new 0 (streams_count s) (app_protocol s) (app_duration s) (app_direction s)
              (app_bitrate s) in
  mkApp (s <| app_byte_budget := None |>) (new_run (streams_count s))
    (mkSession 0 tf theme 0 false (set_display (with_timestamp tf (display st)) st) []
       (now, system) None).

Definition set_byte_budget (b : option Z) (a : App) : App :=
  a <| setup ::= fun s => s <| app_byte_budget := b |> |>.

Definition log (now : Z) (msg : str) (a : App) : App :=
  let e := mkLogEntry [] msg
             (match start_time (run a) with Some s => saturating_sub now s | None => 0 end) now in
  let e := mkLogEntry (format_timestamp e (app_timestamp_format (session a))
                         (history_clock (session a))) msg (le_elapsed e) now in
  let h := e :: history (session a) in
  a <| session ::= fun s => s <| history := if Nat.ltb LOG_HISTORY (length h) then removelast h else h |> |>.

Definition set_timestamp_format (f : TimestampFormat.t) (a : App) : App :=
  let s := session a in
  let s := if bool_decide (app_timestamp_format s = f) then s
           else s <| app_timestamp_format := f |>
                  <| history := map (fun e => mkLogEntry (format_timestamp e f (history_clock s))
                                  (message e) (le_elapsed e) (recorded_at e)) (history s) |> in
  a <| session := s <| settings ::= fun st => set_display (with_timestamp f (display st)) st |> |>.

(** [Theme::by_name] and [Theme::name]. *)
Definition theme_by_name (name : str) : str :=
  let n := to_lowercase name in
  let one names := existsb (str_eqb n) (map txt names) in
  if one ["kawaii"]%string then txt "kawaii"
  else if one ["cyber"; "futuristic"]%string then txt "cyber"
  else if one ["monochrome"; "mono"]%string then txt "monochrome"
  else if one ["dracula"]%string then txt "dracula"
  else if one ["matrix"; "hacker"]%string then txt "matrix"
  else if one ["nord"]%string then txt "nord"
  else if one ["gruvbox"]%string then txt "gruvbox"
  else if one ["catppuccin"; "mocha"]%string then txt "catppuccin"
  else if one ["tokyo_night"; "tokyo"; "tokyonight"]%string then txt "tokyo_night"
  else if one ["solarized"]%string then txt "solarized"
  else txt "default".

Definition theme_position (name : str) : Z :=
  match list_find (fun n => n = name) theme_list with Some (i, _) => Z.of_nat i | None => 0 end.

Definition with_theme_name (now system : Z) (s : Setup) (tf : TimestampFormat.t) (name : str) : App :=
  let t := theme_by_name name in
  let i := theme_position t in
  let a := new now system s tf t in
  a <| session ::= fun s => s <| app_theme_index := i |>
         <| settings ::= fun st => set_display (with_theme i (display st)) st |> |>.

(** The index is checked by the callers or taken modulo the length. *)
Definition theme_at (i : Z) : str := nth (Z.to_nat i) theme_list [].

Definition cycle_theme (a : App) : App :=
  let i := (app_theme_index (session a) + 1) mod Z.of_nat (length theme_list) in
  a <| session ::= fun s => s <| app_theme_index := i |> <| theme := theme_by_name (theme_at i) |>
         <| settings ::= fun st => set_display (with_theme i (display st)) st |>
         <| theme_touched := true |> |>.

Definition set_theme_index (i : Z) (a : App) : App :=
  if i <? Z.of_nat (length theme_list) then
    a <| session ::= fun s => s
           <| theme_touched := theme_touched s || negb (app_theme_index s =? i) |>
           <| app_theme_index := i |> <| theme := theme_by_name (theme_at i) |>
           <| settings ::= fun st => set_display (with_theme i (display st)) st |> |>
  else a.

Definition changed_theme_name (a : App) : option str :=
  if theme_touched (session a) then Some (theme (session a)) else None.

Definition on_connected (now : Z) (a : App) : App :=
  log now (txt "Connecting to server...")
    (a <| run ::= fun r => r <| state := Running |> <| start_time := Some now |> |>).

Definition apply_test_params (p : Protocol) (d : Direction) (streams duration : Z)
    (bitrate : option Z) (a : App) : App :=
  a <| setup ::= fun s => s <| app_protocol := p |> <| app_direction := d |>
         <| streams_count := streams |> <| app_duration := duration |> <| app_bitrate := bitrate |> |>
    <| run ::= fun r => r <| run_streams := map new_stream (u8_ids streams) |> |>
    <| session ::= fun s => s <| settings ::= mark_applied |> |>.

Definition reset_stream (s : StreamData) : StreamData :=
  mkStreamData (sd_id s) 0 zero 0 None None None.

(** Field by field, in the order of the code. *)
Definition reset_for_restart (now : Z) (a : App) : App :=
  let a := a <| run ::= fun r => r
    <| state := Connecting |> <| elapsed := 0 |> <| total_bytes := 0 |>
    <| current_throughput_mbps := zero |> <| throughput_history := [] |> <| jitter_history := [] |>
    <| run_streams ::= map reset_stream |>
    <| bidir_bytes_sent := 0 |> <| bidir_bytes_received := 0 |>
    <| throughput_send_mbps := zero |> <| throughput_recv_mbps := zero |>
    <| total_retransmits := 0 |> <| retransmits_are_authoritative := false |>
    <| rtt_us := 0 |> <| cwnd := 0 |>
    <| udp_jitter_ms := zero |> <| udp_lost_percent := None |> <| udp_packets_sent := 0 |>
    <| udp_packets_lost := 0 |> <| udp_send := no_direction |> <| udp_recv := no_direction |>
    <| run_result := None |> <| run_error := None |> <| cancel_deadline := None |>
    <| start_time := None |> <| show_help := false |> <| show_streams := false |>
    <| peak_throughput_mbps := zero |> <| prev_retransmits := 0 |> <| prev_udp_lost := 0 |>
    <| prev_udp_progress := None |> <| latest_udp_progress := None |> <| last_bar_at := None |>
    <| pause_started_at := None |> <| run_server_version := None |>
    <| average_throughput_mbps := zero |> <| throughput_count := 0 |> |> in
  log now (txt "Test restarting...") a.

(** ** Sparkline bars *)
Definition push_throughput_sample (s : ThroughputSample) (r : Run) : Run :=
  let h := throughput_history r ++ [s] in
  r <| throughput_history := if Nat.ltb SPARKLINE_HISTORY (length h) then tail h else h |>.

(** Packets and losses between the snapshot already drawn and the newest. *)
Definition bar_delta (r : Run) : Z * Z :=
  match latest_udp_progress r, prev_udp_progress r with
  | Some curr, Some prev =>
    let lost := saturating_sub (UdpIntervalProgress.packets_lost curr)
                  (UdpIntervalProgress.packets_lost prev) in
    let expected := saturating_add 64 (UdpIntervalProgress.packets_received curr)
                      (UdpIntervalProgress.packets_lost curr) in
    let previous := saturating_add 64 (UdpIntervalProgress.packets_received prev)
                      (UdpIntervalProgress.packets_lost prev) in
    (saturating_sub expected previous, lost)
  | _, _ => (0, 0)
  end.

Definition append_bar (mbps : f64) (at_ : Z) (r : Run) : Run :=
  let '(interval_packets, interval_lost) := bar_delta r in
  let r := push_throughput_sample (mkSample mbps interval_lost interval_packets) r in
  let r := match latest_udp_progress r with
           | Some latest => r <| prev_udp_progress := Some latest |>
           | None => r
           end in
  r <| last_bar_at := Some at_ |>.

Definition maybe_append_stalled_bar (now : Z) (r : Run) : Run :=
  match (match last_bar_at r with Some t => Some t | None => start_time r end) with
  | None => r
  | Some last =>
    if saturating_sub now last <? BAR_STALL_AFTER then r
    else
      let advanced := last + BAR_INTERVAL in
      append_bar (current_throughput_mbps r)
        (if BAR_STALL_AFTER <=? saturating_sub now advanced then now else advanced) r
  end.

Definition tick (now : Z) (a : App) : App :=
  match state (run a), start_time (run a) with
  | Running, Some start =>
    a <| run ::= fun r => maybe_append_stalled_bar now (r <| elapsed := saturating_sub now start |>) |>
  | _, _ => a
  end.

(** ** The server's version *)
Definition VERSION_MAX_LEN : nat := 32.
Definition sanitize_server_version (raw : str) : str :=
  match take VERSION_MAX_LEN (List.filter (fun c => negb (is_control c)) raw) with
  | [] => txt "(unknown)"
  | cleaned => cleaned
  end.

Definition set_server_version (now : Z) (version : str) (a : App) : App :=
  let a := match run_server_version (run a) with
           | None => log now (txt "Connected to server.") a
           | Some _ => a
           end in
  a <| run ::= fun r => r <| run_server_version := Some (sanitize_server_version version) |> |>.

(** ** Progress *)
Definition stream_mbps (p : TestProgress) (i : StreamInterval) : f64 :=
  match si_throughput_send_mbps i, si_throughput_recv_mbps i with
  | Some send, Some recv => fadd send recv
  | _, _ =>
    if 0 <? tp_total_bytes p then
      fdiv (fmul (tp_throughput_mbps p) (of_int (si_bytes i))) (of_int (tp_total_bytes p))
    else zero
  end.

Definition stream_progress (p : TestProgress) (i : StreamInterval) (s : StreamData) : StreamData :=
  mkStreamData (sd_id s) (si_bytes i) (stream_mbps p i)
    (match si_retransmits i with Some n => n | None => 0 end) (si_jitter_ms i)
    (si_throughput_send_mbps i) (si_throughput_recv_mbps i).

(** [streams.get_mut(id)]: a report of an unknown stream is skipped. *)
Definition update_streams (p : TestProgress) (ss : list StreamData) : list StreamData :=
  fold_left (fun ss i => alter (stream_progress p i) (Z.to_nat (si_id i)) ss) (tp_streams p) ss.

(** Sum and count of the jitters, and the sum of the losses, of the rows. *)
Definition interval_jitter (p : TestProgress) : f64 * Z :=
  fold_left (fun acc i => match si_jitter_ms i with
                          | Some j => (fadd (fst acc) j, snd acc + 1)
                          | None => acc end) (tp_streams p) (zero, 0).
Definition interval_lost (p : TestProgress) : Z :=
  fold_left (fun acc i => match si_lost i with
                          | Some l => saturating_add 64 acc l
                          | None => acc end) (tp_streams p) 0.
Definition interval_retransmits (p : TestProgress) : Z :=
  wrap 64 (zsum (map (fun i => match si_retransmits i with Some n => n | None => 0 end) (tp_streams p))).

Definition bidir_progress (p : TestProgress) (r : Run) : Run :=
  match tp_bytes_sent p, tp_bytes_received p, tp_send_mbps p, tp_recv_mbps p with
  | Some sent, Some recv, Some ts, Some tr =>
    r <| bidir_bytes_sent ::= fun b => wrapping_add 64 b sent |>
      <| bidir_bytes_received ::= fun b => wrapping_add 64 b recv |>
      <| throughput_send_mbps := ts |> <| throughput_recv_mbps := tr |>
  | _, _, _, _ => r
  end.

Definition retransmit_progress (p : TestProgress) (r : Run) : Run :=
  match tp_total_retransmits p with
  | Some total => r <| total_retransmits := total |> <| retransmits_are_authoritative := true |>
  | None =>
    if retransmits_are_authoritative r then r
    else r <| total_retransmits ::= fun n => saturating_add 64 n (interval_retransmits p) |>
  end.

Definition jitter_progress (s : Setup) (p : TestProgress) (r : Run) : Run :=
  let '(total, count) := interval_jitter p in
  if 0 <? count then
    let j := fdiv total (of_int count) in
    let r := r <| udp_jitter_ms := j |> in
    let r := if bool_decide (app_protocol s = Udp) && bool_decide (app_direction s = Bidir)
                && (match ds_progress (udp_send r) with None => true | Some _ => false end)
             then r <| udp_send ::= fun d => mkUdpDirectionState (ds_progress d) (Some j) |> else r in
    let h := jitter_history r ++ [j] in
    r <| jitter_history := if Nat.ltb JITTER_HISTORY_SAMPLES (length h) then tail h else h |>
  else r.

Definition bar_progress (now : Z) (p : TestProgress) (r : Run) : Run :=
  let due := match last_bar_at r with
             | None => true
             | Some last => BAR_INTERVAL / 2 <=? saturating_sub now last
             end in
  if due then append_bar (tp_throughput_mbps p) now r else r.

Definition average_progress (p : TestProgress) (r : Run) : Run :=
  let r := r <| throughput_count ::= fun n => wrapping_add 64 n 1 |> in
  let secs := fdiv (of_int (tp_elapsed_ms p)) (of_int 1000) in
  if fgtb secs zero then
    r <| average_throughput_mbps :=
      fdiv (fdiv (fmul (of_int (total_bytes r)) (of_int 8)) secs) (of_int 1000000) |>
  else r.

Definition or_keep {A} (n : option A) (old : A) : A := match n with Some x => x | None => old end.

(** The newest snapshot of the event, unless a fresher one was seen. *)
Definition fresh_progress (p : TestProgress) (r : Run) : option UdpIntervalProgress.t :=
  match tp_udp_progress p with
  | Some c => if stale c (latest_udp_progress r) then None else Some c
  | None => None
  end.

Definition note_progress (f : option UdpIntervalProgress.t) (r : Run) : Run :=
  match f with Some c => r <| latest_udp_progress := Some c |> | None => r end.
Definition note_percent (f : option UdpIntervalProgress.t) (r : Run) : Run :=
  match f ≫= UdpIntervalProgress.lost_percent with
  | Some x => r <| udp_lost_percent := Some x |>
  | None => r
  end.

Definition lost_progress (p : TestProgress) (r : Run) : Run :=
  r <| udp_packets_lost := match latest_udp_progress r with
         | Some q => UdpIntervalProgress.packets_lost q
         | None => saturating_add 64 (udp_packets_lost r) (interval_lost p)
         end |>.

(** 1.1 *)
Definition peak_factor : f64 := fdiv (of_int 11) (of_int 10).

Definition detect_events (now : Z) (thr : f64) (a : App) : App :=
  let r := run a in
  let a :=
    if (2 <? throughput_count r) && fgtb thr (fmul (peak_throughput_mbps r) peak_factor) then
      log now (txt "Peak: " ++ fixed 0 thr ++ txt " Mbps")
        (a <| run ::= fun r => r <| peak_throughput_mbps := thr |> |>)
    else if fgtb thr (peak_throughput_mbps r) then
      a <| run ::= fun r => r <| peak_throughput_mbps := thr |> |>
    else a in
  let delta := total_retransmits r - prev_retransmits r in
  let a := if (prev_retransmits r <? total_retransmits r) && (10 <=? delta)
           then log now (txt "Retransmits: +" ++ dec delta) a else a in
  let a := a <| run ::= fun r => r <| prev_retransmits := total_retransmits r |> |> in
  if prev_udp_lost r <? udp_packets_lost r then
    let delta := udp_packets_lost r - prev_udp_lost r in
    let a := if 5 <=? delta then log now (txt "UDP loss: +" ++ dec delta ++ txt " packets") a else a in
    a <| run ::= fun r => r <| prev_udp_lost := udp_packets_lost r |> |>
  else a.

Definition byte_progress (p : TestProgress) (r : Run) : Run :=
  r <| total_bytes ::= fun b => saturating_add 64 b (tp_total_bytes p) |>
    <| current_throughput_mbps := tp_throughput_mbps p |>.
Definition rows_progress (p : TestProgress) (r : Run) : Run := r <| run_streams ::= update_streams p |>.
Definition tcp_progress (p : TestProgress) (r : Run) : Run :=
  r <| rtt_us ::= or_keep (tp_rtt_us p) |> <| cwnd ::= or_keep (tp_cwnd p) |>.

Definition full_progress (now : Z) (s : Setup) (p : TestProgress)
    (f : option UdpIntervalProgress.t) (r : Run) : Run :=
  let r := note_progress f (rows_progress p (bidir_progress p (byte_progress p r))) in
  let r := tcp_progress p (retransmit_progress p (bar_progress now p r)) in
  average_progress p (note_percent f (lost_progress p (jitter_progress s p r))).

Definition on_progress (now : Z) (p : TestProgress) (a : App) : App :=
  let a := a <| run ::= fun r => r <| udp_send ::= fun d => update_from d (tp_udp_send p) |>
                               <| udp_recv ::= fun d => update_from d (tp_udp_recv p) |> |> in
  let f := fresh_progress p (run a) in
  if tp_udp_feedback_only p then a <| run ::= fun r => note_percent f (note_progress f r) |>
  else
    let a := a <| run ::= full_progress now (setup a) p f |> in
    detect_events now (tp_throughput_mbps p) a.

(** ** Results and errors *)
Definition stream_result (i : StreamResult) (s : StreamData) : StreamData :=
  mkStreamData (sd_id s) (sr_bytes i) (sr_throughput_mbps i)
    (match sr_retransmits i with Some n => n | None => 0 end)
    (match sr_jitter_ms i with Some j => Some j | None => sd_jitter_ms s end)
    (sr_throughput_send_mbps i) (sr_throughput_recv_mbps i).

Definition is_infinite (s : Setup) : bool := app_duration s =? 0.

Definition udp_result (u : UdpStats) (r : Run) : Run :=
  r <| udp_jitter_ms := us_jitter_ms u |> <| udp_lost_percent := Some (us_lost_percent u) |>
    <| udp_packets_sent := us_packets_sent u |> <| udp_packets_lost := us_lost u |>.

Definition bidir_result (t : TestResult) (r : Run) : Run :=
  match tr_bytes_sent t, tr_bytes_received t, tr_throughput_send_mbps t, tr_throughput_recv_mbps t with
  | Some sent, Some recv, Some ts, Some tr =>
    r <| bidir_bytes_sent := sent |> <| bidir_bytes_received := recv |>
      <| throughput_send_mbps := ts |> <| throughput_recv_mbps := tr |>
  | _, _, _, _ => r
  end.

Definition describe_errors (side : str) (e : UdpSendErrors) : str :=
  side ++ txt " reported " ++ dec (count e) ++ txt " UDP send error"
  ++ (if count e =? 1 then [] else txt "s") ++ txt " (last: " ++ last_error e ++ txt ")".

Definition describe_zero_byte_streams (t : TestResult) : option str :=
  match tr_zero_byte_streams t with
  | Some n =>
    if 0 <? n then
      Some (dec n ++ txt " of " ++ dec (Z.of_nat (length (tr_streams t)))
            ++ txt " streams carried no data; the totals cover only the rest")
    else None
  | None => None
  end.

Definition log_opt (now : Z) (m : option str) (a : App) : App :=
  match m with Some m => log now m a | None => a end.

Definition result_run (s : Setup) (t : TestResult) (r : Run) : Run :=
  let r := r <| state := Completed |>
             <| elapsed := if is_infinite s then tr_duration_ms t * 1000000 else app_duration s |>
             <| total_bytes := tr_bytes_total t |>
             <| run_streams ::= fun ss => fold_left
                  (fun ss i => alter (stream_result i) (Z.to_nat (sr_id i)) ss) (tr_streams t) ss |>
             <| udp_send := from_result (tr_udp_stats_send t) |>
             <| udp_recv := from_result (tr_udp_stats_recv t) |>
             <| average_throughput_mbps := tr_throughput_mbps t |>
             <| total_retransmits := wrap 64 (zsum (omap sr_retransmits (tr_streams t))) |> in
  let r := match tr_tcp_info t with
           | Some i => r <| rtt_us := tcp_rtt_us i |> <| cwnd := tcp_cwnd i |>
           | None => r
           end in
  let r := match tr_udp_stats t with Some u => udp_result u r | None => r end in
  bidir_result t r.

Definition on_result (now : Z) (t : TestResult) (a : App) : App :=
  let a := a <| run ::= result_run (setup a) t |> in
  let a := log now (txt "Test completed. Avg: " ++ fixed 0 (average_throughput_mbps (run a))
                    ++ txt " Mbps.") a in
  let a := log_opt now (option_map (describe_errors (txt "Server")) (tr_server_udp_send_errors t)) a in
  let a := log_opt now (option_map (describe_errors (txt "Client")) (tr_client_udp_send_errors t)) a in
  let a := log_opt now (describe_zero_byte_streams t) a in
  a <| run ::= fun r => r <| run_result := Some t |> |>.

Definition on_error (now : Z) (error : str) (a : App) : App :=
  let a := log now (txt "Error: " ++ error) (a <| run ::= fun r => r <| state := Error |> |>) in
  a <| run ::= fun r => r <| run_error := Some error |> |>.

(** ** Pause and toggles *)
Definition resume_clock (now : Z) (r : Run) : Run :=
  let r' := r <| pause_started_at := None |> in
  match pause_started_at r, start_time r with
  | Some paused_at, Some start => r' <| start_time := Some (start + saturating_sub now paused_at) |>
  | _, _ => r'
  end.

Definition toggle_pause (now : Z) (a : App) : App :=
  match state (run a) with
  | Running =>
    log now (txt "Test paused")
      (a <| run ::= fun r => r <| state := Paused |> <| pause_started_at := Some now |> |>)
  | Paused =>
    log now (txt "Test resumed") (a <| run ::= fun r => resume_clock now r <| state := Running |> |>)
  | _ => a
  end.

Definition toggle_help (a : App) : App :=
  a <| run ::= fun r => r <| show_help ::= negb |> |> <| session ::= fun s => s <| help_scroll := 0 |> |>.
Definition toggle_streams (a : App) : App :=
  if 1 <? streams_count (setup a) then a <| run ::= fun r => r <| show_streams ::= negb |> |> else a.

(** ** Readings *)
Definition fmin (x y : f64) : f64 :=
  if is_nan x then y else if is_nan y then x else if fltb y x then y else x.

Definition progress_percent (a : App) : f64 :=
  match (match app_byte_budget (setup a) with
         | Some b => if 0 <? b then Some b else None
         | None => None
         end) with
  | Some budget =>
    fmin (fmul (fdiv (of_int (total_bytes (run a))) (of_int budget)) (of_int 100)) (of_int 100)
  | None =>
    if is_infinite (setup a) then zero
    else fmin (fmul (fdiv (as_secs_f64 (elapsed (run a))) (as_secs_f64 (app_duration (setup a))))
                 (of_int 100)) (of_int 100)
  end.

Definition time_remaining (a : App) : Z :=
  if is_infinite (setup a) then 0 else saturating_sub (app_duration (setup a)) (elapsed (run a)).

Definition max_throughput (r : Run) : f64 := fold_left fmax (map mbps (throughput_history r)) zero.
Definition avg_jitter_ms (r : Run) : f64 :=
  match jitter_history r with
  | [] => zero
  | h => fdiv (fsum h) (of_int (Z.of_nat (length h)))
  end.
Definition jitter_display (r : Run) : f64 * option f64 :=
  if bool_decide (state r = Completed) then (udp_jitter_ms r, None)
  else (udp_jitter_ms r, Some (avg_jitter_ms r)).

(** [as_secs_f64().ceil() as u64]. *)
Definition cancel_wait_secs (now : Z) (r : Run) : option Z :=
  option_map (fun d =>
    let x := as_secs_f64 (saturating_sub d now) in
    match trunc x with
    | Some z => Z.min (if is_integral x then z else z + 1) u64_max
    | None => 0
    end) (cancel_deadline r).

(** ** The loop's key decisions (main.rs) *)
Inductive KeyCode :=
  | Esc | Up | Down | Left | Right | Tab | Enter | F1 | PageUp | PageDown | Home | End_
  | Char (c : Z) | OtherKey.
#[export] Instance KeyCode_eq_dec : EqDecision KeyCode.
Proof. solve_decision. Defined.
Record KeyEvent := mkKey { code : KeyCode; control : bool }.

Definition is_char (c : Z) (k : KeyCode) : bool := bool_decide (k = Char c).
Definition is_ctrl_c (k : KeyEvent) : bool :=
  (is_char 99 (code k) && control k) || is_char 3 (code k).
Definition settings_captures_key (settings_visible : bool) (k : KeyEvent) : bool :=
  settings_visible && negb (is_ctrl_c k).
Definition server_tui_quit_key (k : KeyEvent) : bool := is_char 113 (code k) || is_ctrl_c k.

Definition on_settings (f : SettingsState -> SettingsState) (a : App) : App :=
  a <| session ::= fun s => s <| settings ::= f |> |>.
(** After a value changed: the theme and the time format follow. *)
Definition follow_settings (a : App) : App :=
  let a := set_theme_index (theme_index (display (settings (session a)))) a in
  set_timestamp_format (timestamp_format (display (settings (session a)))) a.

Definition handle_tui_settings_key (a : App) (k : KeyEvent) : App * SettingsAction :=
  let c := code k in
  if bool_decide (c = Esc) || is_char 115 c then (on_settings close a, Close)
  else if bool_decide (c = Up) || is_char 107 c then (on_settings move_up a, NoAction)
  else if bool_decide (c = Down) || is_char 106 c then (on_settings move_down a, NoAction)
  else if bool_decide (c = Left) || is_char 104 c then
    (follow_settings (on_settings value_prev a), NoAction)
  else if bool_decide (c = Right) || is_char 108 c then
    (follow_settings (on_settings value_next a), NoAction)
  else if bool_decide (c = Tab) then (on_settings switch_tab a, NoAction)
  else if bool_decide (c = Enter) then
    let '(s, action) := on_enter (settings (session a)) in (on_settings (fun _ => s) a, action)
  else (a, NoAction).

Definition apply_tui_settings (config : ClientConfig) (a : App) : ClientConfig * App :=
  let t := test (settings (session a)) in
  let config := config <| Client.streams := Settings.streams t |>
    <| Client.protocol := Settings.protocol t |>
    <| Client.duration := duration_secs t * 1000000000 |>
    <| Client.direction := Settings.direction t |> <| Client.bitrate := Settings.bitrate t |> in
  (config, apply_test_params (Client.protocol config) (Client.direction config)
             (Client.streams config) (Client.duration config) (Client.bitrate config) a).

Definition poll_update_check (message : option (option str)) (disconnected done : bool) (a : App)
    : App * bool :=
  if done then (a, true)
  else
    match message with
    | Some (Some version) => (a <| session ::= fun s => s <| update_available := Some version |> |>, true)
    | Some None => (a, true)
    | None => (a, disconnected)
    end.

Inductive TuiQuitAction := Noop | ExitOk | ExitError | StartCancel | ForceExit | Ignore.

Definition tui_quit_action (k : KeyEvent) (st : AppState) (cancel_pending run_active : bool)
    : TuiQuitAction :=
  if negb (is_char 113 (code k) || is_ctrl_c k) then Noop
  else if bool_decide (st = Error) then ExitError
  else if bool_decide (st = Completed) || negb run_active then ExitOk
  else if cancel_pending then if is_ctrl_c k then ForceExit else Ignore
  else StartCancel.

(** ** Loss bars *)

(** What the bars depend on. *)
Definition bars_state (r : Run) :=
  (prev_udp_progress r, latest_udp_progress r, throughput_history r, last_bar_at r).

Lemma bidir_progress_bars p r : bars_state (bidir_progress p r) = bars_state r.
Proof. unfold bidir_progress. by repeat case_match. Qed.
Lemma retransmit_progress_bars p r : bars_state (retransmit_progress p r) = bars_state r.
Proof. unfold retransmit_progress. by repeat case_match. Qed.
Lemma jitter_progress_bars s p r : bars_state (jitter_progress s p r) = bars_state r.
Proof. unfold jitter_progress. by repeat case_match. Qed.
Lemma note_percent_bars f r : bars_state (note_percent f r) = bars_state r.
Proof. unfold note_percent. by case_match. Qed.
Lemma average_progress_bars p r : bars_state (average_progress p r) = bars_state r.
Proof. unfold average_progress. by case_match. Qed.

Lemma tcp_progress_bars p r : bars_state (tcp_progress p r) = bars_state r.
Proof. done. Qed.
Lemma lost_progress_bars p r : bars_state (lost_progress p r) = bars_state r.
Proof. done. Qed.

Lemma note_progress_bars f r r' :
  bars_state r = bars_state r' -> bars_state (note_progress f r) = bars_state (note_progress f r').
Proof. unfold bars_state. intros [= E1 E2 E3 E4]. destruct f; cbn; congruence. Qed.

Lemma full_progress_bars now s p f r :
  exists r1, bars_state r1 = bars_state (note_progress f r) /\
    bars_state (full_progress now s p f r) = bars_state (bar_progress now p r1).
Proof.
  unfold full_progress. rewrite average_progress_bars, note_percent_bars, lost_progress_bars,
    jitter_progress_bars, tcp_progress_bars, retransmit_progress_bars.
  eexists. split; [|reflexivity]. apply note_progress_bars.
  change (bars_state (rows_progress p ?x)) with (bars_state x). by rewrite bidir_progress_bars.
Qed.

Definition expected (p : UdpIntervalProgress.t) : Z :=
  saturating_add 64 (UdpIntervalProgress.packets_received p) (UdpIntervalProgress.packets_lost p).

Lemma fresher_expected p q : fresher p q -> expected p <= expected q.
Proof. unfold fresher, UdpIntervalProgress.is_at_least_as_fresh_as, expected. intros H. zbool. lia. Qed.

(** The snapshot already drawn is not newer than the newest. *)
Definition drawn_ok (r : Run) : Prop :=
  forall p, prev_udp_progress r = Some p -> exists q, latest_udp_progress r = Some q /\ fresher p q.

Definition last_bars (l : list ThroughputSample) : list ThroughputSample :=
  drop (length l - SPARKLINE_HISTORY) l.

(** [r'] follows [r] having drawn the bars [bs]: together they show the packets
    between the two drawn snapshots, each once, and every loss among them. *)
Definition drew (bs : list ThroughputSample) (r r' : Run) : Prop :=
  drawn_ok r' /\
  throughput_history r' = last_bars (throughput_history r ++ bs) /\
  (forall q, latest_udp_progress r = Some q ->
     exists q', latest_udp_progress r' = Some q' /\ fresher q q') /\
  match prev_udp_progress r, prev_udp_progress r' with
  | Some p, Some q =>
    fresher p q /\ zsum (map interval_packets bs) = expected q - expected p /\
    UdpIntervalProgress.packets_lost q - UdpIntervalProgress.packets_lost p
      <= zsum (map lost_packets bs)
  | None, Some q =>
    exists p, fresher p q /\ zsum (map interval_packets bs) = expected q - expected p /\
      UdpIntervalProgress.packets_lost q - UdpIntervalProgress.packets_lost p
        <= zsum (map lost_packets bs)
  | None, None => zsum (map interval_packets bs) = 0 /\ zsum (map lost_packets bs) = 0
  | Some _, None => False
  end.

Lemma last_bars_short l : (length l <= SPARKLINE_HISTORY)%nat -> last_bars l = l.
Proof. intros H. unfold last_bars. by replace (length l - SPARKLINE_HISTORY)%nat with 0%nat by lia. Qed.

Lemma length_last_bars l : (length (last_bars l) <= SPARKLINE_HISTORY)%nat.
Proof. unfold last_bars. rewrite length_drop. lia. Qed.

Lemma last_bars_app l1 l2 : last_bars (last_bars l1 ++ l2) = last_bars (l1 ++ l2).
Proof.
  unfold last_bars. rewrite <- drop_app_le, drop_drop, !length_drop, !length_app by lia.
  f_equal. lia.
Qed.

Lemma push_last_bars s r :
  (length (throughput_history r) <= SPARKLINE_HISTORY)%nat ->
  throughput_history (push_throughput_sample s r) = last_bars (throughput_history r ++ [s]).
Proof.
  intros H. unfold push_throughput_sample, last_bars. cbn [throughput_history].
  change (throughput_history (_ <| throughput_history := ?x |>)) with x.
  rewrite length_app. cbn [length].
  destruct (Nat.ltb_spec SPARKLINE_HISTORY (length (throughput_history r) + 1)).
  - replace (length (throughput_history r) + 1 - SPARKLINE_HISTORY)%nat with 1%nat by lia.
    by destruct (throughput_history r).
  - by replace (length (throughput_history r) + 1 - SPARKLINE_HISTORY)%nat with 0%nat by lia.
Qed.

Lemma drew_refl r : drawn_ok r -> (length (throughput_history r) <= SPARKLINE_HISTORY)%nat -> drew [] r r.
Proof.
  intros Hd Hl. split; [done|]. split; [rewrite app_nil_r; by rewrite last_bars_short|].
  split; [intros q Hq; by exists q|]. destruct (prev_udp_progress r); [|done].
  split; [done|]. cbn. lia.
Qed.

Lemma drew_trans bs1 bs2 r1 r2 r3 : drew bs1 r1 r2 -> drew bs2 r2 r3 -> drew (bs1 ++ bs2) r1 r3.
Proof.
  intros (Hd1 & Ht1 & Hf1 & Hs1) (Hd2 & Ht2 & Hf2 & Hs2). split; [done|].
  split; [by rewrite Ht2, Ht1, last_bars_app, app_assoc|]. split.
  { intros q Hq. destruct (Hf1 q Hq) as (q1 & Hq1 & ?). destruct (Hf2 q1 Hq1) as (q2 & ? & ?).
    exists q2. split; [done|]. by etransitivity. }
  rewrite !map_app, !zsum_app.
  destruct (prev_udp_progress r1) as [p1|], (prev_udp_progress r2) as [p2|],
    (prev_udp_progress r3) as [p3|]; try tauto.
  - destruct Hs1 as (? & ? & ?), Hs2 as (? & ? & ?). split; [by etransitivity|]. lia.
  - destruct Hs1 as (p & ? & ? & ?), Hs2 as (? & ? & ?). exists p. split; [by etransitivity|]. lia.
  - destruct Hs1 as (? & ?), Hs2 as (p & ? & ? & ?). exists p. split; [done|]. lia.
  - destruct Hs1, Hs2. lia.
Qed.

Lemma drew_bars bs r r1 r' r1' :
  bars_state r = bars_state r1 -> bars_state r' = bars_state r1' -> drew bs r r' -> drew bs r1 r1'.
Proof.
  unfold bars_state, drew, drawn_ok. intros [= E1 E2 E3 _] [= F1 F2 F3 _].
  by rewrite E1, E2, E3, F1, F2, F3.
Qed.

Lemma append_bar_drew m t r :
  drawn_ok r -> (length (throughput_history r) <= SPARKLINE_HISTORY)%nat ->
  exists b, drew [b] r (append_bar m t r).
Proof.
  intros Hd Hl. unfold append_bar. destruct (bar_delta r) as [n l] eqn:E. exists (mkSample m l n).
  unfold drew. cbn [map zsum interval_packets lost_packets].
  assert (Ht : throughput_history (append_bar m t r) = last_bars (throughput_history r ++ [mkSample m l n])).
  { unfold append_bar. rewrite E, <- push_last_bars by done.
    change (latest_udp_progress (push_throughput_sample _ r)) with (latest_udp_progress r).
    by destruct (latest_udp_progress r). }
  unfold append_bar in Ht. rewrite E in Ht. split; [|split; [exact Ht|split]]; clear Ht.
  - change (latest_udp_progress (push_throughput_sample _ r)) with (latest_udp_progress r).
    unfold drawn_ok in *. destruct (latest_udp_progress r) as [q|] eqn:El; cbn; rewrite El; [|done].
    intros p [= <-]. by exists q.
  - change (latest_udp_progress (push_throughput_sample _ r)) with (latest_udp_progress r).
    intros q Hq. rewrite Hq. cbn. by exists q.
  - change (latest_udp_progress (push_throughput_sample _ r)) with (latest_udp_progress r).
    unfold bar_delta in E. destruct (latest_udp_progress r) as [q|] eqn:El; cbn.
    + destruct (prev_udp_progress r) as [p|] eqn:Ep.
      * destruct (Hd p Ep) as (q' & Hq' & Hf). rewrite El in Hq'. injection Hq' as <-.
        injection E as <- <-. pose proof (fresher_expected _ _ Hf). unfold expected in *.
        split; [done|]. unfold saturating_sub. lia.
      * injection E as <- <-. exists q. split; [done|]. lia.
    + destruct (prev_udp_progress r) as [p|] eqn:Ep; [|by injection E as <- <-].
      destruct (Hd p Ep) as (q' & Hq' & _). congruence.
Qed.

Lemma note_progress_drew p r :
  drawn_ok r -> (length (throughput_history r) <= SPARKLINE_HISTORY)%nat ->
  drew [] r (note_progress (fresh_progress p r) r).
Proof.
  intros Hd Hl. unfold fresh_progress. destruct (tp_udp_progress p) as [c|]; [|by apply drew_refl].
  unfold stale. destruct (latest_udp_progress r) as [q|] eqn:El.
  - destruct (UdpIntervalProgress.is_at_least_as_fresh_as c q) eqn:E; cbn [negb note_progress];
      [|by apply drew_refl].
    assert (Hf : fresher q c) by done.
    destruct (drew_refl r Hd Hl) as (_ & Ht & _ & Hs). split; [|split; [exact Ht|split; [|exact Hs]]].
    + intros x Hx. destruct (Hd x Hx) as (y & Hy & ?). rewrite El in Hy. injection Hy as <-.
      exists c. split; [done|]. by etransitivity.
    + rewrite El. intros y [= <-]. by exists c.
  - destruct (drew_refl r Hd Hl) as (_ & Ht & _ & Hs). split; [|split; [exact Ht|split; [|exact Hs]]].
    + intros x Hx. destruct (Hd x Hx) as (y & Hy & _). congruence.
    + by rewrite El.
Qed.

Lemma drew_length bs r r' : drew bs r r' -> (length (throughput_history r') <= SPARKLINE_HISTORY)%nat.
Proof. intros (_ & -> & _). apply length_last_bars. Qed.

Lemma bar_progress_drew now p r :
  drawn_ok r -> (length (throughput_history r) <= SPARKLINE_HISTORY)%nat ->
  exists bs, drew bs r (bar_progress now p r).
Proof.
  intros Hd Hl. unfold bar_progress. destruct (match last_bar_at r with Some _ => _ | None => _ end).
  - destruct (append_bar_drew (tp_throughput_mbps p) now r Hd Hl) as [b Hb]. by exists [b].
  - exists []. by apply drew_refl.
Qed.

Lemma stalled_bar_drew now r :
  drawn_ok r -> (length (throughput_history r) <= SPARKLINE_HISTORY)%nat ->
  exists bs, drew bs r (maybe_append_stalled_bar now r).
Proof.
  intros Hd Hl. unfold maybe_append_stalled_bar.
  destruct (match last_bar_at r with Some _ => _ | None => _ end) as [last|];
    [|exists []; by apply drew_refl].
  destruct (_ <? BAR_STALL_AFTER); [exists []; by apply drew_refl|].
  edestruct append_bar_drew as [b Hb]; [exact Hd|exact Hl|]. exists [b]. exact Hb.
Qed.

Lemma log_run now m a : run (log now m a) = run a.
Proof. done. Qed.

Lemma detect_events_bars now thr a : bars_state (run (detect_events now thr a)) = bars_state (run a).
Proof. unfold detect_events. repeat case_match; done. Qed.

Lemma on_progress_drew now p a :
  drawn_ok (run a) -> (length (throughput_history (run a)) <= SPARKLINE_HISTORY)%nat ->
  exists bs, drew bs (run a) (run (on_progress now p a)).
Proof.
  intros Hd Hl. unfold on_progress.
  set (a1 := a <| run ::= _ |>). assert (E1 : bars_state (run a1) = bars_state (run a)) by done.
  assert (Hd1 : drawn_ok (run a1)) by exact Hd.
  assert (Hl1 : (length (throughput_history (run a1)) <= SPARKLINE_HISTORY)%nat) by exact Hl.
  pose proof (note_progress_drew p (run a1) Hd1 Hl1) as Hn.
  destruct (tp_udp_feedback_only p).
  - exists []. refine (drew_bars _ _ _ _ _ E1 _ Hn). symmetry. apply note_percent_bars.
  - destruct (full_progress_bars now (setup a1) p (fresh_progress p (run a1)) (run a1)) as (r1 & Er & Ef).
    assert (Hn1 : drew [] (run a1) r1) by (refine (drew_bars _ _ _ _ _ eq_refl (eq_sym Er) Hn)).
    destruct (bar_progress_drew now p r1 (proj1 Hn1) (drew_length _ _ _ Hn1)) as [bs Hb].
    exists bs. refine (drew_bars _ _ _ _ _ E1 _ (drew_trans _ _ _ _ _ Hn1 Hb)).
    rewrite detect_events_bars. by symmetry.
Qed.

Lemma tick_drew now a :
  drawn_ok (run a) -> (length (throughput_history (run a)) <= SPARKLINE_HISTORY)%nat ->
  exists bs, drew bs (run a) (run (tick now a)).
Proof.
  intros Hd Hl. unfold tick.
  destruct (state (run a)) eqn:Es, (start_time (run a)) as [start|] eqn:Et;
    try (exists []; by apply drew_refl).
  set (r1 := (run a) <| elapsed := saturating_sub now start |>).
  destruct (stalled_bar_drew now r1 Hd Hl) as [bs Hb]. exists bs. exact Hb.
Qed.

(** What happens to a run between its start and its result. *)
Inductive event := Progressed (p : TestProgress) | Ticked.
Definition on_event (a : App) (e : Z * event) : App :=
  match e with
  | (now, Progressed p) => on_progress now p a
  | (now, Ticked) => tick now a
  end.
Definition on_events (a : App) (es : list (Z * event)) : App := fold_left on_event es a.

Lemma events_drew es a :
  drawn_ok (run a) -> (length (throughput_history (run a)) <= SPARKLINE_HISTORY)%nat ->
  exists bs, drew bs (run a) (run (on_events a es)).
Proof.
  revert a. induction es as [|[now e] es IH]; intros a Hd Hl; [exists []; by apply drew_refl|].
  assert (exists bs, drew bs (run a) (run (on_event a (now, e)))) as [bs Hb]
    by (destruct e; [by apply on_progress_drew|by apply tick_drew]).
  destruct (IH (on_event a (now, e)) (proj1 Hb) (drew_length _ _ _ Hb)) as [bs' Hb'].
  exists (bs ++ bs'). by apply (drew_trans _ _ _ _ _ Hb Hb').
Qed.

(** The sparkline shows every packet of the run once: however full reports,
    feedback and clock ticks interleave -- a report late, a channel stalled
    and its backlog flushed at once -- the history is the last sixty of the
    bars drawn; their packet counts add up to the packets between the first
    and the last snapshot drawn, with no loss among them left out; and the
    newest snapshot never goes back. *)
Theorem bars_telescope (now system : Z) (s : Setup) (tf : TimestampFormat.t) (th : str)
    (es : list (Z * event)) :
  let a := on_connected now (new now system s tf th) in
  exists bs, throughput_history (run (on_events a es)) = last_bars bs /\
    match prev_udp_progress (run (on_events a es)) with
    | None => zsum (map interval_packets bs) = 0 /\ zsum (map lost_packets bs) = 0
    | Some q => exists p, fresher p q /\
        zsum (map interval_packets bs) = expected q - expected p /\
        UdpIntervalProgress.packets_lost q - UdpIntervalProgress.packets_lost p
          <= zsum (map lost_packets bs) /\
        exists l, latest_udp_progress (run (on_events a es)) = Some l /\ fresher q l
    end.
Proof.
  intros a. destruct (events_drew es a) as (bs & Hd & Ht & _ & Hs).
  - by intros p.
  - cbn. unfold SPARKLINE_HISTORY. lia.
  - exists bs. split; [exact Ht|]. change (prev_udp_progress (run a)) with (@None UdpIntervalProgress.t) in Hs.
    destruct (prev_udp_progress (run (on_events a es))) as [q|] eqn:Eq; [|done].
    destruct Hs as (p & ? & ? & ?). exists p. split_and!; try done. apply (Hd q Eq).
Qed.

(** ** Restart *)

(** Everything but the run survives a restart; the run is a new one. *)
Definition streams_ok (a : App) : Prop :=
  map sd_id (run_streams (run a)) = u8_ids (streams_count (setup a)).

Lemma reset_streams ss : map reset_stream ss = map new_stream (map sd_id ss).
Proof. rewrite map_map. done. Qed.

Lemma alter_ids (f : StreamData -> StreamData) (ss : list StreamData) i :
  (forall s, sd_id (f s) = sd_id s) -> map sd_id (alter f i ss) = map sd_id ss.
Proof.
  intros Hf. revert i. induction ss as [|s ss IH]; intros [|i]; cbn; try done.
  - by rewrite Hf.
  - f_equal. apply IH.
Qed.

Lemma fold_alter_ids {B} (g : B -> StreamData -> StreamData) (k : B -> nat) (rows : list B) ss :
  (forall i s, sd_id (g i s) = sd_id s) ->
  map sd_id (fold_left (fun ss i => alter (g i) (k i) ss) rows ss) = map sd_id ss.
Proof.
  intros Hg. revert ss. induction rows as [|i rows IH]; intros ss; [done|]. cbn. rewrite IH.
  by apply alter_ids.
Qed.

(** ** The whole application *)
Inductive app_event :=
  | EProgress (p : TestProgress) | ETick | EResult (t : TestResult) | EError (e : str) | EPause
  | EVersion (v : str) | EHelp | EStreams | ETheme | ESettings | ESettingsKey (k : KeyEvent)
  | ERestart | EByteBudget (b : option Z).

Definition restart (now : Z) (a : App) : App := on_connected now (reset_for_restart now a).

(** A settings key; the apply button restarts with the parameters chosen. *)
Definition settings_key (now : Z) (config : ClientConfig) (k : KeyEvent) (a : App)
    : ClientConfig * App :=
  match handle_tui_settings_key a k with
  | (a, Restart) => let '(config, a) := apply_tui_settings config a in (config, restart now a)
  | (a, _) => (config, a)
  end.

Definition app_step (ca : ClientConfig * App) (e : Z * app_event) : ClientConfig * App :=
  let '(config, a) := ca in
  let '(now, e) := e in
  match e with
  | EProgress p => (config, on_progress now p a)
  | ETick => (config, tick now a)
  | EResult t => (config, on_result now t a)
  | EError m => (config, on_error now m a)
  | EPause => (config, toggle_pause now a)
  | EVersion v => (config, set_server_version now v a)
  | EHelp => (config, toggle_help a)
  | EStreams => (config, toggle_streams a)
  | ETheme => (config, cycle_theme a)
  | ESettings => (config, on_settings toggle a)
  | ESettingsKey k => settings_key now config k a
  | ERestart => (config, restart now a)
  | EByteBudget b => (config, set_byte_budget b a)
  end.
Definition app_steps (ca : ClientConfig * App) (es : list (Z * app_event)) : ClientConfig * App :=
  fold_left app_step es ca.

Definition run_ok (n : Z) (r : Run) : Prop :=
  (length (throughput_history r) <= SPARKLINE_HISTORY)%nat /\
  (length (jitter_history r) <= JITTER_HISTORY_SAMPLES)%nat /\
  map sd_id (run_streams r) = u8_ids n /\ drawn_ok r.
Definition params_of (u : Setup) : TestParams :=
  mkParams (streams_count u) (app_protocol u) (app_duration u / 1000000000) (app_direction u)
    (app_bitrate u).
(** The log is bounded and printed in the chosen format, the theme is the one
    of the index, and the settings compare with the parameters that run. *)
Definition screen_ok (u : Setup) (s : Session) : Prop :=
  (length (history s) <= LOG_HISTORY)%nat /\
  Forall (fun e => timestamp e = format_timestamp e (app_timestamp_format s) (history_clock s)) (history s) /\
  0 <= app_theme_index s < Z.of_nat (length theme_list) /\ theme s = theme_at (app_theme_index s) /\
  Settings.wf (settings s) /\ original (settings s) = params_of u.
(** The settings panel shows the theme and the time format in use. *)
Definition in_sync (s : Session) : Prop :=
  theme_index (display (settings s)) = app_theme_index s /\
  timestamp_format (display (settings s)) = app_timestamp_format s.
Definition session_ok (u : Setup) (s : Session) : Prop := screen_ok u s /\ in_sync s.
Definition app_ok (a : App) : Prop :=
  run_ok (streams_count (setup a)) (run a) /\ session_ok (setup a) (session a).

Lemma capped_log_length {A} (h : list A) e :
  (length h <= LOG_HISTORY)%nat ->
  (length (if Nat.ltb LOG_HISTORY (length (e :: h)) then removelast (e :: h) else e :: h) <= LOG_HISTORY)%nat.
Proof.
  intros H. destruct (Nat.ltb_spec LOG_HISTORY (length (e :: h))); [|done].
  rewrite removelast_firstn_len, length_take. cbn [length] in *. lia.
Qed.
Lemma capped_log_forall {A} (P : A -> Prop) (h : list A) e b :
  P e -> Forall P h -> Forall P (if b : bool then removelast (e :: h) else e :: h).
Proof.
  intros He Hh. assert (H : Forall P (e :: h)) by by constructor. destruct b; [|done].
  rewrite removelast_firstn_len. by apply Forall_take.
Qed.

Lemma log_session_ok u now m a : session_ok u (session a) -> session_ok u (session (log now m a)).
Proof.
  intros [(Hh & Hf & Hs) Hy]. split; [|exact Hy]. split; [by apply capped_log_length|].
  split; [|exact Hs]. by apply capped_log_forall.
Qed.
Lemma log_ok now m a : app_ok a -> app_ok (log now m a).
Proof. intros [Hr Hs]. split; [exact Hr|]. apply (log_session_ok (setup a)), Hs. Qed.

Lemma new_run_ok n : run_ok n (new_run n).
Proof.
  split_and!; cbn; try (unfold SPARKLINE_HISTORY, JITTER_HISTORY_SAMPLES; lia); [|by intros p].
  rewrite map_map. cbn. by rewrite map_id.
Qed.

Lemma reset_is_new now a :
  streams_ok a -> run (reset_for_restart now a) = new_run (streams_count (setup a)).
Proof. unfold streams_ok. intros Hs. unfold new_run. rewrite <- Hs, <- reset_streams. done. Qed.

Lemma restart_ok now a : app_ok a -> app_ok (restart now a).
Proof.
  intros [Hr Hs]. assert (Hst : streams_ok a) by apply Hr. unfold restart, on_connected. apply log_ok.
  assert (H1 : app_ok (reset_for_restart now a)).
  { unfold reset_for_restart. apply log_ok. split; [|exact Hs].
    pose proof (reset_is_new now a Hst) as E. unfold reset_for_restart in E. rewrite log_run in E.
    rewrite E. apply new_run_ok. }
  revert H1. generalize (reset_for_restart now a). intros a1 [H1 H2]. split; [exact H1|exact H2].
Qed.

(** ** Settings *)
Lemma with_theme_wf i s :
  Settings.wf s -> 0 <= i < Z.of_nat (length theme_list) -> Settings.wf (set_display (with_theme i (display s)) s).
Proof. intros (H1 & H2 & H3 & _ & H5) Hi. exact (conj H1 (conj H2 (conj H3 (conj Hi H5)))). Qed.

Lemma with_timestamp_wf f s : Settings.wf s -> Settings.wf (set_display (with_timestamp f (display s)) s).
Proof. intros H. exact H. Qed.

Lemma theme_at_by_name i :
  0 <= i < Z.of_nat (length theme_list) -> theme_by_name (theme_at i) = theme_at i.
Proof.
  change (Z.of_nat (length theme_list)) with 11. intros Hi.
  assert (H : Forall (fun j => theme_by_name (theme_at j) = theme_at j) (seqZ 0 11))
    by (vm_compute; repeat constructor).
  rewrite Forall_forall in H. apply H, elem_of_seqZ. lia.
Qed.
Lemma theme_by_name_listed name :
  0 <= theme_position (theme_by_name name) < Z.of_nat (length theme_list) /\
  theme_at (theme_position (theme_by_name name)) = theme_by_name name.
Proof.
  unfold theme_by_name. cbv zeta.
  repeat match goal with |- context [if ?b then _ else _] => destruct b end; vm_compute; by split_and!.
Qed.

Lemma on_settings_ok f a :
  app_ok a -> Settings.wf (f (settings (session a))) ->
  original (f (settings (session a))) = original (settings (session a)) ->
  display (f (settings (session a))) = display (settings (session a)) -> app_ok (on_settings f a).
Proof.
  intros [Hr ((Hh & Hf & Hi & Ht & _ & Ho) & Hy)] Hw Eo Ed. split; [exact Hr|]. unfold session_ok, in_sync.
  change (settings (session (on_settings f a))) with (f (settings (session a))). rewrite Ed. split; [|exact Hy].
  split_and!; [exact Hh|exact Hf|apply Hi|apply Hi|exact Ht|exact Hw|].
  change (original (f (settings (session a))) = params_of (setup a)). by rewrite Eo.
Qed.

Lemma set_theme_index_screen i a :
  screen_ok (setup a) (session a) -> 0 <= i < Z.of_nat (length theme_list) ->
  screen_ok (setup a) (session (set_theme_index i a)).
Proof.
  intros (Hh & Hf & _ & _ & Hw & Ho) Hi. unfold set_theme_index.
  rewrite (proj2 (Z.ltb_lt i _)) by apply Hi.
  split_and!; [exact Hh|exact Hf|apply Hi|apply Hi|exact (theme_at_by_name i Hi)|by apply with_theme_wf|exact Ho].
Qed.

Lemma set_timestamp_format_screen f a :
  screen_ok (setup a) (session a) -> screen_ok (setup a) (session (set_timestamp_format f a)).
Proof.
  intros (Hh & Hf & Hi & Ht & Hw & Ho). unfold set_timestamp_format. case_bool_decide;
    (split; [|split; [|split; [exact Hi|split; [exact Ht|split; [by apply with_timestamp_wf|exact Ho]]]]]).
  - exact Hh.
  - exact Hf.
  - refine (eq_ind_r (fun n => (n <= LOG_HISTORY)%nat) Hh (length_map _ (history (session a)))).
  - apply Forall_map. by apply Forall_true.
Qed.

Lemma follow_settings_ok a :
  run_ok (streams_count (setup a)) (run a) -> screen_ok (setup a) (session a) -> app_ok (follow_settings a).
Proof.
  intros Hr Hs. pose proof Hs as (_ & _ & _ & _ & (_ & _ & _ & Hi & _) & _). unfold follow_settings.
  pose proof (set_theme_index_screen _ a Hs Hi) as H1.
  set (a1 := set_theme_index _ a) in *.
  assert (E1 : run a1 = run a /\ setup a1 = setup a /\
               theme_index (display (settings (session a1))) = app_theme_index (session a1)).
  { unfold a1, set_theme_index. by rewrite (proj2 (Z.ltb_lt _ _)) by apply Hi. }
  destruct E1 as (Er & Eu & Ey). clearbody a1. rewrite <- Eu in H1, Hr. rewrite <- Er in Hr.
  pose proof (set_timestamp_format_screen (timestamp_format (display (settings (session a1)))) a1 H1) as H2.
  unfold set_timestamp_format in *. destruct (bool_decide _) eqn:Eb;
    (split; [exact Hr|split; [exact H2|split; [exact Ey|]]]); [|done].
  apply bool_decide_eq_true in Eb. symmetry. exact Eb.
Qed.

(** What progress does to the rows and the jitter history. *)
Definition rows_and_jitter (r : Run) := (run_streams r, jitter_history r).

Lemma bidir_progress_rows p r : rows_and_jitter (bidir_progress p r) = rows_and_jitter r.
Proof. unfold bidir_progress. by repeat case_match. Qed.
Lemma note_progress_rows f r : rows_and_jitter (note_progress f r) = rows_and_jitter r.
Proof. unfold note_progress. by case_match. Qed.
Lemma note_percent_rows f r : rows_and_jitter (note_percent f r) = rows_and_jitter r.
Proof. unfold note_percent. by case_match. Qed.
Lemma append_bar_rows m t r : rows_and_jitter (append_bar m t r) = rows_and_jitter r.
Proof. unfold append_bar. destruct (bar_delta r). by repeat case_match. Qed.
Lemma bar_progress_rows now p r : rows_and_jitter (bar_progress now p r) = rows_and_jitter r.
Proof. unfold bar_progress. repeat case_match; try done; apply append_bar_rows. Qed.
Lemma stalled_bar_rows now r : rows_and_jitter (maybe_append_stalled_bar now r) = rows_and_jitter r.
Proof. unfold maybe_append_stalled_bar. repeat case_match; try done; apply append_bar_rows. Qed.
Lemma retransmit_progress_rows p r : rows_and_jitter (retransmit_progress p r) = rows_and_jitter r.
Proof. unfold retransmit_progress. by repeat case_match. Qed.
Lemma average_progress_rows p r : rows_and_jitter (average_progress p r) = rows_and_jitter r.
Proof. unfold average_progress. by case_match. Qed.
Lemma lost_progress_rows p r : rows_and_jitter (lost_progress p r) = rows_and_jitter r.
Proof. done. Qed.
Lemma tcp_progress_rows p r : rows_and_jitter (tcp_progress p r) = rows_and_jitter r.
Proof. done. Qed.

Lemma jitter_progress_ok s p r :
  run_streams (jitter_progress s p r) = run_streams r /\
  ((length (jitter_history r) <= JITTER_HISTORY_SAMPLES)%nat ->
   (length (jitter_history (jitter_progress s p r)) <= JITTER_HISTORY_SAMPLES)%nat).
Proof.
  unfold jitter_progress. destruct (interval_jitter p) as [total count]. destruct (0 <? count); [|done].
  split; [by destruct (_ && _)|]. intros H.
  set (j := fdiv total (of_int count)). set (b := _ && _).
  enough (length (let h := jitter_history r ++ [j] in
            if Nat.ltb JITTER_HISTORY_SAMPLES (length h) then tail h else h) <= JITTER_HISTORY_SAMPLES)%nat
    by (by destruct b).
  cbv zeta. destruct (Nat.ltb_spec JITTER_HISTORY_SAMPLES (length (jitter_history r ++ [j]))) as [Hl|Hl]; [|done].
  rewrite length_app in Hl. cbn [length] in Hl.
  assert (Ht : forall (l : list f64), length (tail l) = (length l - 1)%nat) by (intros [|? l]; cbn; lia).
  rewrite Ht, length_app. cbn [length]. lia.
Qed.

Lemma full_progress_rows now s p f r :
  map sd_id (run_streams (full_progress now s p f r)) = map sd_id (run_streams r) /\
  ((length (jitter_history r) <= JITTER_HISTORY_SAMPLES)%nat ->
   (length (jitter_history (full_progress now s p f r)) <= JITTER_HISTORY_SAMPLES)%nat).
Proof.
  unfold full_progress. set (r1 := rows_progress p _). set (r2 := retransmit_progress p _).
  assert (E1 : rows_and_jitter r2 = rows_and_jitter r1)
    by (unfold r2; by rewrite retransmit_progress_rows, bar_progress_rows, note_progress_rows).
  assert (E2 : run_streams r1 = update_streams p (run_streams r) /\ jitter_history r1 = jitter_history r).
  { pose proof (bidir_progress_rows p (byte_progress p r)) as [= E Ej]. split; [|exact Ej].
    unfold r1. change (run_streams (rows_progress p ?x)) with (update_streams p (run_streams x)).
    by rewrite E. }
  clearbody r2. clearbody r1. destruct E2 as [Es Ej]. injection E1 as E1s E1j.
  destruct (jitter_progress_ok s p (tcp_progress p r2)) as [Hs Hj].
  pose proof (average_progress_rows p (note_percent f (lost_progress p (jitter_progress s p (tcp_progress p r2))))) as E.
  rewrite note_percent_rows, lost_progress_rows in E. injection E as Ers Erj. rewrite Ers, Erj, Hs.
  change (run_streams (tcp_progress p r2)) with (run_streams r2).
  change (jitter_history (tcp_progress p r2)) with (jitter_history r2) in Hj.
  rewrite E1s, Es. rewrite E1j, Ej in Hj. split; [|exact Hj]. by apply fold_alter_ids.
Qed.

Lemma detect_events_rows now thr a : rows_and_jitter (run (detect_events now thr a)) = rows_and_jitter (run a).
Proof. unfold detect_events. repeat case_match; done. Qed.
Lemma detect_events_ok u now thr a :
  session_ok u (session a) -> session_ok u (session (detect_events now thr a)).
Proof.
  pose proof (log_session_ok u now) as Hl.
  intros H. unfold detect_events. cbv zeta.
  set (a1 := if (2 <? _) && _ then _ else _).
  assert (H1 : session_ok u (session a1)).
  { unfold a1. destruct (_ && _); [apply Hl; exact H|]. destruct (fgtb _ _); exact H. }
  clearbody a1. set (a2 := if _ && (10 <=? _) then _ else _).
  assert (H2 : session_ok u (session a2)) by (unfold a2; destruct (_ && _); [by apply Hl|done]).
  clearbody a2. destruct (_ <? _); [|exact H2]. destruct (5 <=? _); [|exact H2].
  set (a3 := a2 <| run ::= _ |>). assert (H3 : session_ok u (session a3)) by exact H2.
  clearbody a3. apply (Hl _ a3 H3).
Qed.

(** ** Every event keeps the application well formed *)
Lemma on_progress_ok now p a : app_ok a -> app_ok (on_progress now p a).
Proof.
  intros [(Ht & Hj & Hs & Hd) Hk].
  destruct (on_progress_drew now p a Hd Ht) as (bs & Hd' & Ht' & _).
  assert (E : setup (on_progress now p a) = setup a).
  { unfold on_progress, detect_events. by repeat case_match. }
  assert (Hrows : map sd_id (run_streams (run (on_progress now p a))) = map sd_id (run_streams (run a)) /\
                  (length (jitter_history (run (on_progress now p a))) <= JITTER_HISTORY_SAMPLES)%nat /\
                  session_ok (setup a) (session (on_progress now p a))).
  { unfold on_progress. set (a1 := a <| run ::= _ |>). set (f := fresh_progress _ _).
    assert (E1 : rows_and_jitter (run a1) = rows_and_jitter (run a)) by done.
    assert (Hk1 : session_ok (setup a) (session a1)) by exact Hk.
    clearbody a1. clearbody f. injection E1 as Er Ej. rewrite <- Er. rewrite <- Ej in Hj.
    destruct (tp_udp_feedback_only p).
    - pose proof (note_percent_rows f (note_progress f (run a1))) as E2. rewrite note_progress_rows in E2.
      injection E2 as E2s E2j. split; [exact (f_equal (map sd_id) E2s)|].
      split; [exact (eq_ind_r (fun l => (length l <= JITTER_HISTORY_SAMPLES)%nat) Hj E2j)|exact Hk1].
    - destruct (full_progress_rows now (setup a1) p f (run a1)) as [F1 F2].
      set (a2 := a1 <| run ::= _ |>).
      assert (Hk2 : session_ok (setup a) (session a2)) by exact Hk1.
      change (full_progress now (setup a1) p f (run a1)) with (run a2) in *. clearbody a2.
      pose proof (detect_events_rows now (tp_throughput_mbps p) a2) as E2. injection E2 as E2s E2j.
      rewrite E2s, E2j. split; [exact F1|]. split; [by apply F2|]. by apply detect_events_ok. }
  destruct Hrows as (Hr1 & Hr2 & Hr3). split; [|by rewrite E]. rewrite E.
  split_and!; [rewrite Ht'; apply length_last_bars|done|by rewrite Hr1|done].
Qed.

Lemma tick_ok now a : app_ok a -> app_ok (tick now a).
Proof.
  intros Ha. pose proof Ha as [(Ht & Hj & Hs & Hd) Hk].
  destruct (tick_drew now a Hd Ht) as (bs & Hd' & Ht' & _). unfold tick in *.
  destruct (state (run a)), (start_time (run a)) as [start|]; try exact Ha. split; [|exact Hk].
  set (r1 := (run a) <| elapsed := saturating_sub now start |>) in *.
  pose proof (stalled_bar_rows now r1) as E. injection E as Es Ej.
  change (run_ok (streams_count (setup a)) (maybe_append_stalled_bar now r1)).
  change (drawn_ok (maybe_append_stalled_bar now r1)) in Hd'.
  change (throughput_history (maybe_append_stalled_bar now r1)
          = last_bars (throughput_history (run a) ++ bs)) in Ht'.
  split_and!; [rewrite Ht'; apply length_last_bars|by rewrite Ej|by rewrite Es|done].
Qed.

Lemma result_run_rows s t r :
  map sd_id (run_streams (result_run s t r)) = map sd_id (run_streams r) /\
  jitter_history (result_run s t r) = jitter_history r /\
  bars_state (result_run s t r) = bars_state r.
Proof.
  unfold result_run, bidir_result, udp_result. repeat case_match; (split; [|done]); by apply fold_alter_ids.
Qed.

(** A change of the run that the invariant does not see. *)
Lemma run_change_ok f a :
  map sd_id (run_streams (f (run a))) = map sd_id (run_streams (run a)) ->
  jitter_history (f (run a)) = jitter_history (run a) -> bars_state (f (run a)) = bars_state (run a) ->
  app_ok a -> app_ok (a <| run ::= f |>).
Proof.
  intros Es Ej [= E1 E2 E3 _] [(Ht & Hj & Hs & Hd) Hk]. split; [|exact Hk].
  change (run_ok (streams_count (setup a)) (f (run a))).
  split_and!; [by rewrite E3|by rewrite Ej|by rewrite Es|]. unfold drawn_ok in *. by rewrite E1, E2.
Qed.

Lemma log_opt_ok now m a : app_ok a -> app_ok (log_opt now m a).
Proof. destruct m; [apply log_ok|done]. Qed.

Lemma on_result_ok now t a : app_ok a -> app_ok (on_result now t a).
Proof.
  intros Ha. unfold on_result. cbv zeta. apply run_change_ok; try done.
  do 3 apply log_opt_ok. apply log_ok. destruct (result_run_rows (setup a) t (run a)) as (? & ? & ?).
  by apply run_change_ok.
Qed.
Lemma on_error_ok now e a : app_ok a -> app_ok (on_error now e a).
Proof.
  intros Ha. unfold on_error. cbv zeta. apply run_change_ok; try done. apply log_ok. by apply run_change_ok.
Qed.
Lemma toggle_pause_ok now a : app_ok a -> app_ok (toggle_pause now a).
Proof.
  intros Ha. unfold toggle_pause. destruct (state (run a)); try exact Ha; apply log_ok, run_change_ok;
    try done; unfold resume_clock; by repeat case_match.
Qed.
Lemma set_server_version_ok now v a : app_ok a -> app_ok (set_server_version now v a).
Proof.
  intros Ha. unfold set_server_version. cbv zeta. apply run_change_ok; try done.
  destruct (run_server_version (run a)); [exact Ha|by apply log_ok].
Qed.
Lemma toggle_help_ok a : app_ok a -> app_ok (toggle_help a).
Proof. intros [Hr Hs]. split; [exact Hr|exact Hs]. Qed.
Lemma toggle_streams_ok a : app_ok a -> app_ok (toggle_streams a).
Proof. intros Ha. unfold toggle_streams. destruct (1 <? _); [by apply run_change_ok|exact Ha]. Qed.

Lemma cycle_theme_ok a : app_ok a -> app_ok (cycle_theme a).
Proof.
  intros [Hr [(Hh & Hf & Hi & Ht & Hw & Ho) [_ Hy]]]. unfold cycle_theme.
  set (i := (app_theme_index (session a) + 1) mod Z.of_nat (length theme_list)).
  assert (Hb : 0 <= i < Z.of_nat (length theme_list)) by (apply Z.mod_pos_bound; cbn; lia). clearbody i.
  split; [exact Hr|]. split; [|split; [reflexivity|exact Hy]].
  split_and!; [exact Hh|exact Hf|apply Hb|apply Hb|exact (theme_at_by_name i Hb)|by apply with_theme_wf|exact Ho].
Qed.

Lemma move_frame (f : SettingsState -> SettingsState) s :
  In f [close; move_up; move_down; switch_tab; toggle] ->
  original (f s) = original s /\ display (f s) = display s /\ test (f s) = test s.
Proof.
  intros H. repeat (destruct H as [<-|H]; [|]); [..|done];
    unfold close, move_up, move_down, switch_tab, toggle, focus_buttons; by repeat case_match.
Qed.
Lemma move_ok f a :
  In f [close; move_up; move_down; switch_tab; toggle] -> app_ok a -> app_ok (on_settings f a).
Proof.
  intros Hf Ha. pose proof (move_frame f (settings (session a)) Hf) as (Eo & Ed & _).
  apply on_settings_ok; try done. destruct Ha as (_ & (_ & _ & _ & _ & Hw & _) & _).
  repeat (destruct Hf as [<-|Hf]; [auto with xfr|]). done.
Qed.

Lemma value_change_ok f a :
  In f [value_next; value_prev] -> app_ok a -> app_ok (follow_settings (on_settings f a)).
Proof.
  intros Hf [Hr ((Hh & Hl & Hi & Ht & Hw & Ho) & _)]. apply follow_settings_ok; [exact Hr|].
  split_and!; [exact Hh|exact Hl|apply Hi|apply Hi|exact Ht|..].
  - change (wf (f (settings (session a)))). repeat (destruct Hf as [<-|Hf]; [auto with xfr|]). done.
  - change (original (f (settings (session a))) = params_of (setup a)). rewrite <- Ho.
    repeat (destruct Hf as [<-|Hf]; [unfold value_next, value_prev; by repeat case_match|]). done.
Qed.

Lemma on_enter_frame s : display (fst (on_enter s)) = display s /\ original (fst (on_enter s)) = original s.
Proof. unfold on_enter. by repeat case_match. Qed.

(** The key handler: its result is well formed, and it asks for a restart
    only by closing the panel over parameters that differ from those running. *)
Lemma handle_key_ok a k a' act :
  app_ok a -> handle_tui_settings_key a k = (a', act) ->
  app_ok a' /\
  (act = Restart -> visible (nav (settings (session a'))) = false /\
     setup a' = setup a /\ test (settings (session a')) = test (settings (session a)) /\
     test (settings (session a')) <> params_of (setup a)).
Proof.
  intros Ha. unfold handle_tui_settings_key. cbv zeta.
  destruct (_ || is_char 115 _); [intros [= <- <-]; split; [apply move_ok; [cbn; tauto|done]|done]|].
  destruct (_ || is_char 107 _); [intros [= <- <-]; split; [apply move_ok; [cbn; tauto|done]|done]|].
  destruct (_ || is_char 106 _); [intros [= <- <-]; split; [apply move_ok; [cbn; tauto|done]|done]|].
  destruct (_ || is_char 104 _); [intros [= <- <-]; split; [apply value_change_ok; [cbn; tauto|done]|done]|].
  destruct (_ || is_char 108 _); [intros [= <- <-]; split; [apply value_change_ok; [cbn; tauto|done]|done]|].
  destruct (bool_decide (_ = Tab)); [intros [= <- <-]; split; [apply move_ok; [cbn; tauto|done]|done]|].
  destruct (bool_decide (_ = Enter)); [|by intros [= <- <-]].
  pose proof (on_enter_frame (settings (session a))) as [Ed Eo].
  destruct (on_enter (settings (session a))) as [s' x] eqn:E. intros [= <- <-].
  pose proof Ha as (_ & (_ & _ & _ & _ & Hw & Ho) & _).
  destruct (on_enter_spec _ _ _ Hw E) as (Hw' & Et & _ & Hv & _ & Hd).
  split; [by apply on_settings_ok|]. intros ->. split; [apply Hv; done|]. split; [done|]. split; [exact Et|].
  change (test s' <> params_of (setup a)). rewrite Et, <- Ho. by apply Hd.
Qed.

Lemma apply_settings_ok config a :
  app_ok a -> visible (nav (settings (session a))) = false -> app_ok (snd (apply_tui_settings config a)).
Proof.
  intros [(Ht & Hj & _ & Hd) ((Hh & Hl & Hi & Hth & Hw & _) & Hy)] Hv.
  split; [split; [exact Ht|split; [exact Hj|split; [|exact Hd]]]|].
  - refine (proj1 (proj2 (proj2 (new_run_ok (Settings.streams (test (settings (session a))))))) ).
  - split; [|exact Hy].
    split_and!; [exact Hh|exact Hl|apply Hi|apply Hi|exact Hth|exact (mark_applied_wf _ Hw Hv)|].
    unfold params_of, apply_tui_settings. cbn [snd].
    change (test (settings (session a)) = mkParams (Settings.streams (test (settings (session a))))
      (Settings.protocol (test (settings (session a))))
      (duration_secs (test (settings (session a))) * 1000000000 / 1000000000)
      (Settings.direction (test (settings (session a)))) (Settings.bitrate (test (settings (session a))))).
    rewrite Z.div_mul by lia. by destruct (test (settings (session a))).
Qed.

Lemma settings_key_ok now config k a : app_ok a -> app_ok (snd (settings_key now config k a)).
Proof.
  intros Ha. unfold settings_key. destruct (handle_tui_settings_key a k) as [a' act] eqn:E.
  destruct (handle_key_ok a k a' act Ha E) as [Ha' Hr]. destruct act; try exact Ha'.
  destruct (Hr eq_refl) as [Hv _]. pose proof (apply_settings_ok config a' Ha' Hv) as H.
  destruct (apply_tui_settings config a') as [c a2]. apply restart_ok, H.
Qed.

Lemma app_step_ok ca e : app_ok (snd ca) -> app_ok (snd (app_step ca e)).
Proof.
  destruct ca as [config a], e as [now e]. cbn [snd]. intros Ha.
  destruct e; cbn [app_step snd];
    auto using on_progress_ok, tick_ok, on_result_ok, on_error_ok, toggle_pause_ok, set_server_version_ok,
      toggle_help_ok, toggle_streams_ok, cycle_theme_ok, settings_key_ok, restart_ok.
  apply move_ok; [cbn; tauto|exact Ha].
Qed.

Lemma app_steps_ok es ca : app_ok (snd ca) -> app_ok (snd (app_steps ca es)).
Proof. revert ca. induction es as [|e es IH]; intros ca H; [exact H|]. by apply IH, app_step_ok. Qed.

Lemma new_app_ok now system s tf th :
  1 <= streams_count s <= 128 -> 0 <= app_duration s -> app_ok (with_theme_name now system s tf th).
Proof.
  intros Hs Hd. destruct (theme_by_name_listed th) as [Hi Ht]. unfold with_theme_name.
  set (i := theme_position _) in *. split; [apply new_run_ok|]. split; [|done].
  assert (Hp : params_ok (params_of s)) by (split; [exact Hs|apply Z.div_pos; cbn; lia]).
  split_and!; [cbn; unfold LOG_HISTORY; lia|constructor|apply Hi|apply Hi|by symmetry| |done].
  split; [unfold nav_ok; cbn; lia|]. split; [exact Hp|]. split; [exact Hp|]. split; [exact Hi|done].
Qed.

(** C40. Whatever happens -- progress, ticks, results, errors, pauses, every key of
    the settings panel, restarts with other parameters -- the application stays
    well formed: one row per stream of the running test, with its number; at
    most sixty bars, ten jitter samples and a hundred log lines, every line
    printed in the chosen time format; the theme is the one of the index; and
    the settings panel shows the theme and format in use and compares with the
    parameters that run. *)
Theorem app_reachable_ok (now system : Z) (s : Setup) (tf : TimestampFormat.t) (th : str)
    (config : ClientConfig) (es : list (Z * app_event)) :
  1 <= streams_count s <= 128 -> 0 <= app_duration s ->
  app_ok (snd (app_steps (config, with_theme_name now system s tf th) es)).
Proof. intros Hs Hd. apply app_steps_ok. by apply new_app_ok. Qed.

(** A restart forgets everything of the run: after any history, resetting the
    application field by field gives the run that [App::new] would start for
    the streams now set, with the parameters, the settings, the theme and the
    log kept. *)
Theorem restart_is_fresh (now0 system : Z) (s : Setup) (tf : TimestampFormat.t) (th : str)
    (config : ClientConfig) (es : list (Z * app_event)) (now : Z) :
  1 <= streams_count s <= 128 -> 0 <= app_duration s ->
  let a := snd (app_steps (config, with_theme_name now0 system s tf th) es) in
  reset_for_restart now a
  = log now (txt "Test restarting...") (mkApp (setup a) (new_run (streams_count (setup a))) (session a)).
Proof.
  intros Hs Hd a. assert (Ha : streams_ok a) by (apply app_steps_ok, (new_app_ok _ _ _ _ th Hs Hd)).
  clearbody a. unfold streams_ok in Ha. unfold new_run. rewrite <- Ha, <- reset_streams. done.
Qed.

(** The apply button of the settings panel restarts the test exactly with the
    parameters shown: only when they differ from those running, and then both
    the connection and the application use them, with one fresh row per stream
    and the change taken as the new baseline. *)
Theorem settings_restart_applies (now0 system : Z) (s : Setup) (tf : TimestampFormat.t) (th : str)
    (config : ClientConfig) (es : list (Z * app_event)) (now : Z) (k : KeyEvent) (a' : App) :
  1 <= streams_count s <= 128 -> 0 <= app_duration s ->
  let '(c, a) := app_steps (config, with_theme_name now0 system s tf th) es in
  handle_tui_settings_key a k = (a', Restart) ->
  let p := test (settings (session a)) in
  let '(c', a'') := settings_key now c k a in
  p <> params_of (setup a) /\ params_of (setup a'') = p /\
  Client.streams c' = Settings.streams p /\ Client.protocol c' = Settings.protocol p /\
  Client.duration c' = duration_secs p * 1000000000 /\ Client.direction c' = Settings.direction p /\
  Client.bitrate c' = Settings.bitrate p /\
  run a'' = (new_run (Settings.streams p)) <| state := Running |> <| start_time := Some now |> /\
  test_params_dirty (settings (session a'')) = false.
Proof.
  intros Hs Hd. pose proof (app_steps_ok es (config, with_theme_name now0 system s tf th)
    (new_app_ok _ _ _ _ th Hs Hd)) as Ha. destruct (app_steps _ es) as [c a]. cbn [snd] in Ha.
  intros E p. unfold settings_key. rewrite E. destruct (handle_key_ok a k a' _ Ha E) as [Ha' Hr].
  destruct (Hr eq_refl) as (Hv & Eu & Et & Hn). pose proof (apply_settings_ok c a' Ha' Hv) as H.
  assert (Ep : test (settings (session (snd (apply_tui_settings c a')))) = p) by exact Et.
  assert (Ec : fst (apply_tui_settings c a') = c <| Client.streams := Settings.streams p |>
    <| Client.protocol := Settings.protocol p |> <| Client.duration := duration_secs p * 1000000000 |>
    <| Client.direction := Settings.direction p |> <| Client.bitrate := Settings.bitrate p |>)
    by (unfold p; rewrite <- Et; reflexivity).
  assert (Eo : original (settings (session (snd (apply_tui_settings c a')))) = p) by exact Et.
  destruct (apply_tui_settings c a') as [c' a2]. cbn [fst snd] in *. subst c'.
  rewrite Et in Hn. fold p in Hn. clearbody p. destruct H as [Hrun ((_ & _ & _ & _ & _ & Ho) & _)]. rewrite Eo in Ho.
  split; [exact Hn|]. split; [by symmetry|]. do 5 (split; [reflexivity|]). split.
  - pose proof (reset_is_new now a2 ltac:(apply Hrun)) as E2. unfold restart, on_connected. rewrite log_run.
    replace (Settings.streams p) with (streams_count (setup a2)) by (by rewrite Ho).
    rewrite <- E2. generalize (reset_for_restart now a2). done.
  - apply clean_iff. transitivity p; [exact Ep|by symmetry].
Qed.

(** ** Pauses *)
Definition clock_view (r : Run) := (state r, start_time r, pause_started_at r).

Lemma append_bar_clock m t r : clock_view (append_bar m t r) = clock_view r.
Proof. unfold append_bar. destruct (bar_delta r). by repeat case_match. Qed.
Lemma bar_progress_clock now p r : clock_view (bar_progress now p r) = clock_view r.
Proof. unfold bar_progress. repeat case_match; try done; apply append_bar_clock. Qed.
Lemma stalled_bar_clock now r : clock_view (maybe_append_stalled_bar now r) = clock_view r.
Proof. unfold maybe_append_stalled_bar. repeat case_match; try done; apply append_bar_clock. Qed.
Lemma note_clock f r :
  clock_view (note_progress f r) = clock_view r /\ clock_view (note_percent f r) = clock_view r.
Proof. unfold note_progress, note_percent. split; by case_match. Qed.
Lemma bidir_progress_clock p r : clock_view (bidir_progress p r) = clock_view r.
Proof. unfold bidir_progress. by repeat case_match. Qed.
Lemma full_progress_clock now s p f r : clock_view (full_progress now s p f r) = clock_view r.
Proof.
  unfold full_progress. set (r1 := rows_progress p _). set (r2 := retransmit_progress p _).
  assert (E1 : clock_view r1 = clock_view r) by apply (bidir_progress_clock p (byte_progress p r)).
  clearbody r1.
  assert (E2 : clock_view r2 = clock_view r).
  { transitivity (clock_view (bar_progress now p (note_progress f r1))).
    - unfold r2, retransmit_progress. by repeat case_match.
    - by rewrite bar_progress_clock, (proj1 (note_clock f r1)). }
  clearbody r2. unfold average_progress.
  transitivity (clock_view (note_percent f (lost_progress p (jitter_progress s p (tcp_progress p r2)))));
    [by case_match|]. rewrite (proj2 (note_clock f _)).
  transitivity (clock_view (jitter_progress s p (tcp_progress p r2))); [done|].
  unfold jitter_progress. repeat case_match; exact E2.
Qed.

Lemma on_progress_clock now p a : clock_view (run (on_progress now p a)) = clock_view (run a).
Proof.
  unfold on_progress. set (a1 := a <| run ::= _ |>). set (f := fresh_progress _ _).
  assert (E1 : clock_view (run a1) = clock_view (run a)) by done. clearbody a1 f. rewrite <- E1.
  destruct (tp_udp_feedback_only p).
  - transitivity (clock_view (note_progress f (run a1))); apply note_clock.
  - transitivity (clock_view (full_progress now (setup a1) p f (run a1))); [|apply full_progress_clock].
    set (a2 := a1 <| run ::= _ |>).
    change (full_progress now (setup a1) p f (run a1)) with (run a2). clearbody a2.
    unfold detect_events. by repeat case_match.
Qed.
Lemma tick_clock now a : clock_view (run (tick now a)) = clock_view (run a).
Proof.
  unfold tick. destruct (state (run a)), (start_time (run a)) as [start|]; try done.
  set (r1 := (run a) <| elapsed := saturating_sub now start |>).
  change (clock_view (maybe_append_stalled_bar now r1) = clock_view r1). apply stalled_bar_clock.
Qed.

(** A stop watch: the reference for the elapsed time. *)
Record StopWatch := mkStopWatch { ticking : bool; since : Z; measured : Z }.
Definition press (now : Z) (w : StopWatch) : StopWatch :=
  if ticking w then mkStopWatch false now (measured w + (now - since w))
  else mkStopWatch true now (measured w).
Definition reading (now : Z) (w : StopWatch) : Z :=
  if ticking w then measured w + (now - since w) else measured w.
Definition watch_step (w : StopWatch) (e : Z * app_event) : StopWatch :=
  match e with (now, EPause) => press now w | _ => w end.

(** The events of a test under way, and the times they happen. *)
Definition under_way (e : app_event) : bool :=
  match e with
  | EProgress _ | ETick | EPause | EVersion _ | EHelp | EStreams | ETheme | ESettings => true
  | _ => false
  end.
Fixpoint in_order (t : Z) (es : list (Z * app_event)) : Prop :=
  match es with
  | [] => True
  | (now, e) :: es => t <= now /\ under_way e = true /\ in_order now es
  end.
Definition last_time (t : Z) (es : list (Z * app_event)) : Z := List.last (map fst es) t.

Definition watched (w : StopWatch) (t : Z) (r : Run) : Prop :=
  (0 <= measured w /\ since w <= t) /\
  clock_view r = if ticking w then (Running, Some (since w - measured w), None)
                 else (Paused, Some (since w - measured w), Some (since w)).

Lemma watched_later w t t' r : watched w t r -> t <= t' -> watched w t' r.
Proof. intros [H E] Ht. split; [lia|exact E]. Qed.

Lemma toggle_pause_watched now w a :
  watched w now (run a) -> watched (press now w) now (run (toggle_pause now a)).
Proof.
  destruct w as [b s m], a as [u r ss]. unfold watched, toggle_pause, press, clock_view. cbn [ticking since measured].
  change (run (mkApp u r ss)) with r. intros [Hs E].
  destruct b; injection E as E1 E2 E3; rewrite E1, log_run; cbn [ticking since measured].
  - split; [lia|]. cbn. rewrite E2. by replace (now - (m + (now - s))) with (s - m) by lia.
  - split; [lia|]. unfold resume_clock. cbn. rewrite E2, E3. cbn.
    by replace (s - m + saturating_sub now s) with (now - m) by (unfold saturating_sub; lia).
Qed.

Lemma step_watched now e w config a :
  under_way e = true -> watched w now (run a) ->
  watched (watch_step w (now, e)) now (run (snd (app_step (config, a) (now, e)))).
Proof.
  intros He [Hs E]. destruct e; try discriminate He; cbn [app_step watch_step snd].
  - split; [exact Hs|]. by rewrite on_progress_clock.
  - split; [exact Hs|]. by rewrite tick_clock.
  - by apply toggle_pause_watched.
  - split; [exact Hs|]. unfold set_server_version. destruct (run_server_version (run a)); exact E.
  - split; [exact Hs|exact E].
  - split; [exact Hs|]. unfold toggle_streams. destruct (1 <? _); exact E.
  - split; [exact Hs|exact E].
  - split; [exact Hs|exact E].
Qed.

Lemma steps_watched es w t config a :
  in_order t es -> watched w t (run a) ->
  watched (fold_left watch_step es w) (last_time t es) (run (snd (app_steps (config, a) es))).
Proof.
  revert w t config a. induction es as [|[now e] es IH]; intros w t config a; [done|].
  cbn [in_order]. intros (Ht & He & Hes) Hw.
  pose proof (step_watched now e w config a He (watched_later _ _ _ _ Hw Ht)) as H.
  change (app_steps (config, a) ((now, e) :: es)) with (app_steps (app_step (config, a) (now, e)) es).
  destruct (app_step (config, a) (now, e)) as [config' a'].
  assert (E : last_time t ((now, e) :: es) = last_time now es).
  { unfold last_time. cbn [map fst]. destruct (map fst es) as [|x l] eqn:E; [done|].
    change (List.last (x :: l) t = List.last (x :: l) now). clear. revert x.
    induction l as [|y l IH]; intros x; [done|]. apply (IH y). }
  rewrite E. by apply (IH _ now).
Qed.

(** Pauses do not count: however progress, ticks, pauses and resumes
    interleave during a test, the screen agrees with a stop watch pressed at
    every pause and resume -- running exactly when the watch runs, and every
    tick while running shows the reading of the watch. *)
Theorem elapsed_excludes_pauses (t0 system : Z) (s : Setup) (tf : TimestampFormat.t) (th : str)
    (config : ClientConfig) (es : list (Z * app_event)) (now : Z) :
  in_order t0 es -> last_time t0 es <= now ->
  let a := snd (app_steps (config, on_connected t0 (with_theme_name t0 system s tf th)) es) in
  let w := fold_left watch_step es (mkStopWatch true t0 0) in
  state (run a) = (if ticking w then Running else Paused) /\
  (ticking w = true -> elapsed (run (tick now a)) = reading now w) /\
  (ticking w = false -> tick now a = a).
Proof.
  intros Ho Hn a w.
  assert (H0 : watched (mkStopWatch true t0 0) t0 (run (on_connected t0 (with_theme_name t0 system s tf th)))).
  { split; [cbn; lia|]. cbn [ticking since measured]. by replace (t0 - 0) with t0 by lia. }
  destruct (steps_watched es _ _ config _ Ho H0) as [Hm E]. fold w a in E, Hm. clearbody a w.
  unfold clock_view in E. unfold tick, reading.
  destruct (ticking w); injection E as E1 E2 _; rewrite E1, ?E2; split; try done; split; try done. intros _.
  set (r1 := (run a) <| elapsed := saturating_sub now (since w - measured w) |>).
  assert (Es : elapsed (maybe_append_stalled_bar now r1) = elapsed r1).
  { unfold maybe_append_stalled_bar, append_bar. destruct (bar_delta r1). by repeat case_match. }
  transitivity (elapsed r1); [exact Es|]. change (elapsed r1) with (saturating_sub now (since w - measured w)).
  unfold saturating_sub. lia.
Qed.
End clock.

(** ** A concrete application *)
Definition demo_format (f : TimestampFormat.t) (base at_ system : Z) : str := dec (system + (at_ - base)).
Definition demo_setup : Setup := mkSetup (txt "host") 5201 Tcp Upload 1 10000000000 None None.
Definition demo_keys (ks : list KeyCode) : list (Z * app_event) :=
  map (fun k => (5, ESettingsKey (mkKey k false))) ks.
(** One more stream, then down to the apply button. *)
Definition demo_change : list (Z * app_event) :=
  (4, ESettings) :: demo_keys [Tab; Right; Down; Down; Down; Down; Down].
Definition demo_app : App := with_theme_name 0 0 demo_setup TimestampFormat.Iso8601 (txt "mocha").
Definition demo_pauses : list (Z * app_event) :=
  [(2, ETick); (5, EPause); (9, ETick); (11, EPause); (12, EHelp)].

Lemma app_reachable_ok_witness :
  1 <= streams_count demo_setup <= 128 /\ 0 <= app_duration demo_setup /\
  app_ok demo_format (snd (app_steps demo_format (default_config, demo_app) demo_change)).
Proof.
  split; [cbn; lia|]. split; [cbn; lia|]. unfold demo_app. apply app_reachable_ok; cbn; lia.
Defined.

Lemma restart_is_fresh_witness :
  let a := snd (app_steps demo_format (default_config, demo_app) demo_pauses) in
  reset_for_restart demo_format 20 a
  = log demo_format 20 (txt "Test restarting...") (mkApp (setup a) (new_run 1) (session a)).
Proof.
  intros a. assert (E : streams_count (setup a) = 1) by reflexivity. rewrite <- E. unfold a, demo_app.
  apply restart_is_fresh; cbn; lia.
Defined.

Lemma settings_restart_applies_witness :
  exists a', handle_tui_settings_key demo_format (snd (app_steps demo_format (default_config, demo_app) demo_change))
               (mkKey Enter false) = (a', Restart) /\
  let '(c, a) := app_steps demo_format (default_config, demo_app) demo_change in
  let '(c', a'') := settings_key demo_format 7 c (mkKey Enter false) a in
  params_of (setup a'') = test (settings (session a)).
Proof.
  pose proof (settings_restart_applies demo_format 0 0 demo_setup TimestampFormat.Iso8601 (txt "mocha")
    default_config demo_change 7 (mkKey Enter false)) as H.
  fold demo_app in H.
  assert (E : exists a', handle_tui_settings_key demo_format
    (snd (app_steps demo_format (default_config, demo_app) demo_change)) (mkKey Enter false) = (a', Restart))
    by (vm_compute; by eexists).
  destruct E as [a' E]. exists a'. split; [exact E|].
  specialize (H a' ltac:(cbn; lia) ltac:(cbn; lia)).
  destruct (app_steps demo_format (default_config, demo_app) demo_change) as [c a].
  specialize (H E). cbv zeta in H. destruct (settings_key demo_format 7 c _ a) as [c' a'']. apply H.
Defined.

Lemma elapsed_excludes_pauses_witness :
  let a := snd (app_steps demo_format (default_config, on_connected demo_format 0 demo_app) demo_pauses) in
  elapsed (run (tick 13 a)) = 7.
Proof.
  pose proof (elapsed_excludes_pauses demo_format 0 0 demo_setup TimestampFormat.Iso8601 (txt "mocha")
    default_config demo_pauses 13 ltac:(cbn; lia) ltac:(cbn; lia)) as (_ & H & _).
  exact (H eq_refl).
Defined.
