(* ===== verification/Target.v ===== *)
(** * Addresses as text (src/src/net.rs, src/src/main.rs)

    What the user types for a server or a bind address: the standard
    library's IP address parser, zones, bracketed hosts, [host:port], and the
    connection attempts over the addresses a name has.  The interface lookup,
    the resolver and the kernel are parameters. *)
From S2P Require Import Prelude Bytes Text Fmt Ip Protocol.

Inductive error_kind := InvalidInput | NotFound | NotConnected | AddrNotAvailable | OtherKind.
Record io_error := mkError { kind : error_kind; text : str }.

(** ** The standard library's address parser

    A reader takes a prefix of the text and leaves the rest. *)
Definition reader (A : Type) : Type := str -> option (A * str).

Definition read_given_char (c : Z) : reader unit := fun s =>
  match s with x :: s => if x =? c then Some (tt, s) else None | [] => None end.

(** [read_number(radix, Some(max_digits), allow_zero_prefix)]. *)
Fixpoint read_digits (radix : Z) (room : nat) (acc : Z) (count : nat) (s : str)
    {struct s} : option (Z * nat * str) :=
  match s with
  | c :: s' =>
    match to_digit radix c with
    | Some d =>
      match room with
      | O => None
      | S room => read_digits radix room (acc * radix + d) (S count) s'
      end
    | None => Some (acc, count, s)
    end
  | [] => Some (acc, count, [])
  end.
Definition read_number (radix max : Z) (max_digits : nat) (allow_zero_prefix : bool) : reader Z := fun s =>
  let has_leading_zero := match s with 48 :: _ => true | _ => false end in
  match read_digits radix max_digits 0 0 s with
  | Some (n, count, rest) =>
    if Nat.eqb count 0 then None
    else if negb allow_zero_prefix && has_leading_zero && Nat.ltb 1 count then None
    else if n <=? max then Some (n, rest) else None
  | None => None
  end.

(** [read_separator]: the separator goes before every item but the first. *)
Definition read_separator {A} (sep : Z) (index : nat) (f : reader A) : reader A := fun s =>
  if Nat.eqb index 0 then f s
  else match read_given_char sep s with Some (_, s) => f s | None => None end.

Definition read_octet (index : nat) : reader Z := read_separator 46 index (read_number 10 255 3 false).

Definition read_ipv4_addr : reader Z := fun s =>
  match read_octet 0 s with
  | Some (a, s) =>
    match read_octet 1 s with
    | Some (b, s) =>
      match read_octet 2 s with
      | Some (c, s) =>
        match read_octet 3 s with
        | Some (d, s) => Some (((a * 256 + b) * 256 + c) * 256 + d, s)
        | None => None
        end
      | None => None
      end
    | None => None
    end
  | None => None
  end.

(** [read_groups]: up to [limit] groups of 16 bits, the last two perhaps as an
    IPv4 address; also whether they were. *)
Fixpoint read_groups (room limit i : nat) (s : str) : list Z * bool * str :=
  match room with
  | O => ([], false, s)
  | S room =>
    match (if Nat.ltb i (limit - 1) then read_separator 58 i read_ipv4_addr s else None) with
    | Some (v4, s) => ([v4 / 65536; v4 mod 65536], true, s)
    | None =>
      match read_separator 58 i (read_number 16 65535 4 true) s with
      | Some (g, s) =>
        let '(gs, v4, s) := read_groups room limit (S i) s in (g :: gs, v4, s)
      | None => ([], false, s)
      end
    end
  end.

Definition of_groups (gs : list Z) : Z := fold_left (fun acc g => acc * 65536 + g) gs 0.

Definition read_ipv6_addr : reader Z := fun s =>
  let '(head, head_ipv4, s) := read_groups 8 8 0 s in
  if Nat.eqb (length head) 8 then Some (of_groups head, s)
  else if head_ipv4 then None
  else match read_given_char 58 s with
       | None => None
       | Some (_, s) =>
         match read_given_char 58 s with
         | None => None
         | Some (_, s) =>
           let limit := (8 - (length head + 1))%nat in
           let '(tail, _, s) := read_groups limit limit 0 s in
           Some (of_groups (head ++ repeat 0 (8 - length head - length tail) ++ tail), s)
         end
       end.

Definition parse_ip (s : str) : option IpAddr :=
  match read_ipv4_addr s with
  | Some (a, []) => Some (V4 a)
  | Some _ => None
  | None => match read_ipv6_addr s with Some (a, []) => Some (V6 a) | _ => None end
  end.
(** [Ipv6Addr::from_str] and [Ipv4Addr::from_str] are not used. *)

(** [Ipv6Addr::is_unicast_link_local]: fe80::/10. *)
Definition is_unicast_link_local (a : Z) : bool := a / 2 ^ 118 =? 1018.

(** [Ipv4Addr]'s [Display]. *)
Definition show_ipv4 (a : Z) : str :=
  dec (a / 16777216) ++ [46] ++ dec (a / 65536 mod 256) ++ [46] ++ dec (a / 256 mod 256) ++ [46]
  ++ dec (a mod 256).

(** [{:x}] and [Ipv6Addr]'s [Display]. *)
Fixpoint hex_aux (fuel : nat) (z : Z) : str :=
  match fuel with
  | O => []
  | S fuel => (if z <? 16 then [] else hex_aux fuel (z / 16)) ++ [hex_digit (z mod 16)]
  end.
(** A group has at most four digits. *)
Definition show_group (g : Z) : str := hex_aux 4 g.
Definition segments (a : Z) : list Z := map (fun i => a / 2 ^ (112 - 16 * i) mod 65536) (seqZ 0 8).

(** The first longest run of zero groups, as start and length. *)
Definition longest_zeroes (gs : list Z) : nat * nat :=
  fst (fold_left (fun '(longest, current, i) g =>
    if g =? 0 then
      let current := ((if Nat.eqb (snd current) 0 then i else fst current), S (snd current)) in
      ((if Nat.ltb (snd longest) (snd current) then current else longest), current, S i)
    else (longest, (0, 0)%nat, S i)) gs ((0, 0)%nat, (0, 0)%nat, 0%nat)).1.
Definition show_groups (gs : list Z) : str :=
  match map show_group gs with
  | [] => []
  | g :: gs => g ++ concat (map (fun g => 58 :: g) gs)
  end.
Definition show_ipv6 (a : Z) : str :=
  match to_ipv4_mapped a with
  | Some v4 => txt "::ffff:" ++ show_ipv4 v4
  | None =>
    let gs := segments a in
    let '(start, len) := longest_zeroes gs in
    if Nat.ltb 1 len then show_groups (take start gs) ++ txt "::" ++ show_groups (drop (start + len) gs)
    else show_groups gs
  end.

(** [host:port] as the socket address prints it, and as typed. *)
Definition host_port (host : str) (port : Z) : str :=
  let host := trim_end_matches 93 (trim_start_matches 91 host) in
  if contains_char 58 host then txt "[" ++ host ++ txt "]:" ++ dec port
  else host ++ txt ":" ++ dec port.

Definition bracketed (s : str) : option str :=
  match strip_prefix [91] s with Some r => strip_suffix [93] r | None => None end.

Inductive target_error := InvalidPort (port s : str) | BadAddress (e : io_error) | InvalidBindAddress (s : str).

Definition split_host_port (s : str) : result (str * option Z) target_error :=
  match bracketed s with
  | Some host => Ok (host, None)
  | None =>
    let split :=
      match (match strip_prefix [91] s with Some r => split_once (txt "]:") r | None => None end) with
      | Some split => Some split
      | None =>
        match split_once [58] s with
        | Some (host, port) => if negb (contains_char 58 port) then Some (host, port) else None
        | None => None
        end
      end in
    match split with
    | None => Ok (s, None)
    | Some (host, port) =>
      match parse_uint u16_max port with
      | Some p => Ok (host, Some p)
      | None => Err (InvalidPort port s)
      end
    end
  end.

(** ** Zones, name lookup, connecting *)
Section environment.
(** [if_nametoindex], 0 for an unknown interface, on a name without NUL. *)
Variable if_nametoindex : str -> Z.

Definition zone_to_scope_id (zone : str) : result Z io_error :=
  match parse_uint u32_max zone with
  | Some index => Ok index
  | None =>
    let index := if contains_char 0 zone then 0 else if_nametoindex zone in
    if negb (index =? 0) then Ok index
    else Err (mkError NotFound (txt "IPv6 zone '%" ++ zone ++ txt "': no such interface"))
  end.

(** [Ok None]: not an IP literal, a name to look up. *)
Definition parse_ip_literal (host : str) (port : Z) : result (option SocketAddr) io_error :=
  let host := match bracketed host with Some h => h | None => host end in
  let '(ip, zone) := match split_once [37] host with
                     | Some (ip, zone) => (ip, Some zone)
                     | None => (host, None)
                     end in
  match parse_ip ip, zone with
  | Some (V6 a), None =>
    if is_unicast_link_local a
    then Err (mkError InvalidInput (txt "link-local address " ++ show_ipv6 a
              ++ txt " needs an interface zone, e.g. " ++ show_ipv6 a ++ txt "%eth0"))
    else Ok (Some (sa_new (V6 a) port))
  | Some a, None => Ok (Some (sa_new a port))
  | Some (V6 a), Some zone =>
    let? scope := zone_to_scope_id zone in
    Ok (Some (SaV6 a port 0 scope))
  | None, None => Ok None
  | _, Some _ => Err (mkError InvalidInput (host ++ txt ": a %zone is only valid on an IPv6 address (e.g. fe80::1%eth0)"))
  end.

Definition parse_bind_address (s : str) : result SocketAddr target_error :=
  let? split := split_host_port s in
  let? addr := map_err BadAddress
                 (parse_ip_literal (fst split) (match snd split with Some p => p | None => 0 end)) in
  match addr with
  | Some addr => Ok addr
  | None => Err (InvalidBindAddress s)
  end.

(** The system resolver on a name, and one connection attempt, the [n]-th. *)
Variables (lookup_host : str -> Z -> result (list SocketAddr) io_error) (stream : Type)
          (connect : nat -> SocketAddr -> option SocketAddr -> bool -> result stream io_error).

(** [AddressFamily::from_str] and [Display]. *)
Definition family_from_str (s : str) : option AddressFamily :=
  let s := to_lowercase s in
  let one names := existsb (str_eqb s) (map txt names) in
  if one ["4"; "v4"; "ipv4"; "v4only"; "ipv4-only"]%string then Some V4Only
  else if one ["6"; "v6"; "ipv6"; "v6only"; "ipv6-only"]%string then Some V6Only
  else if one ["dual"; "dualstack"; "dual-stack"; "both"]%string then Some DualStack
  else None.
Definition show_family (f : AddressFamily) : str :=
  match f with V4Only => txt "IPv4" | V6Only => txt "IPv6" | DualStack => txt "dual-stack" end.

Definition resolve_host (host : str) (port : Z) (family : AddressFamily)
    : result (list SocketAddr) io_error :=
  let? literal := parse_ip_literal host port in
  let? addrs := match literal with Some addr => Ok [addr] | None => lookup_host host port end in
  match addrs with
  | [] => Err (mkError NotFound (txt "Could not resolve host: " ++ host))
  | _ =>
    match family_filter family addrs with
    | [] => Err (mkError AddrNotAvailable (txt "No " ++ show_family family ++ txt " addresses found for host: " ++ host))
    | filtered => Ok filtered
    end
  end.

Fixpoint try_connect (bind_addr : option SocketAddr) (mptcp : bool) (n : nat)
    (addrs : list SocketAddr) (last_err : option io_error) : result (stream * SocketAddr) io_error :=
  match addrs with
  | [] => Err (match last_err with
               | Some e => e
               | None => mkError NotConnected (txt "No addresses to connect to")
               end)
  | addr :: addrs =>
    let local_bind := option_map (fun local => match_bind_family local addr) bind_addr in
    match connect n addr local_bind mptcp with
    | Ok s => Ok (s, addr)
    | Err e => try_connect bind_addr mptcp (S n) addrs (Some e)
    end
  end.

Definition connect_tcp (host : str) (port : Z) (family : AddressFamily)
    (bind_addr : option SocketAddr) (mptcp : bool) : result (stream * SocketAddr) io_error :=
  let? addrs := resolve_host host port family in
  try_connect bind_addr mptcp 0 addrs None.
End environment.

(** ** UDP buffer sizes *)
Definition c_int_max : Z := 2 ^ 31 - 1.
Definition validate_udp_buffer_size (size : Z) : result Z io_error :=
  if c_int_max <? size then
    Err (mkError InvalidInput (txt "window size " ++ dec size ++ txt " exceeds platform maximum ("
                               ++ dec c_int_max ++ txt " bytes)"))
  else if size <=? 0 then Err (mkError InvalidInput (txt "window size must be greater than zero"))
  else Ok size.

Definition combine_udp_buffer_errors (snd rcv : option io_error) : result unit io_error :=
  match snd, rcv with
  | None, None => Ok tt
  | Some e, None => Err (mkError (kind e) (txt "SO_SNDBUF: " ++ text e))
  | None, Some e => Err (mkError (kind e) (txt "SO_RCVBUF: " ++ text e))
  | Some snd, Some rcv =>
    Err (mkError OtherKind (txt "SO_SNDBUF: " ++ text snd ++ txt "; SO_RCVBUF: " ++ text rcv))
  end.

Inductive buffer := SndBuf | RcvBuf.
(** The closure threads the state it mutates. *)
Definition set_udp_buffer_size_with {S} (size : Z) (set : buffer -> Z -> S -> option io_error * S) (s : S)
    : result unit io_error * S :=
  match validate_udp_buffer_size size with
  | Err e => (Err e, s)
  | Ok size_c =>
    let '(snd_err, s) := set SndBuf size_c s in
    let '(rcv_err, s) := set RcvBuf size_c s in
    (combine_udp_buffer_errors snd_err rcv_err, s)
  end.

(** ** Facts *)
Lemma dec_no_char c z : 0 <= z -> c < 48 \/ 57 < c -> Forall (fun x => x <> c) (dec z).
Proof. intros Hz Hc. apply (Forall_impl _ _ _ (dec_digits z Hz)). cbn. intros x Hx. lia. Qed.

Lemma dec_last z : 0 <= z -> exists d s, dec z = s ++ [d] /\ 48 <= d <= 57.
Proof.
  intros Hz. pose proof (dec_digits z Hz) as Hd. destruct (dec z) as [|c l] eqn:E using rev_ind.
  - by destruct (dec_nonempty z).
  - exists c, l. split; [done|]. apply Forall_app in Hd as [_ Hd]. by apply Forall_cons in Hd as [Hd _].
Qed.

Lemma strip_suffix_last c d s : c <> d -> strip_suffix [c] (s ++ [d]) = None.
Proof.
  intros H. unfold strip_suffix, strip_prefix. rewrite rev_app_distr. cbn.
  by replace (c =? d) with false by lia.
Qed.

Lemma contains_char_false c s : contains_char c s = false <-> Forall (fun x => x <> c) s.
Proof.
  unfold contains_char. induction s as [|x s IH]; cbn; [by split; [constructor|]|].
  rewrite orb_false_iff, Forall_cons, IH, Z.eqb_neq. intuition.
Qed.

Lemma split_once_pair c d a b :
  Forall (fun x => x <> c) a -> split_once [c; d] (a ++ c :: d :: b) = Some (a, b).
Proof.
  induction 1 as [|x a Hx _ IH]; cbn [app split_once starts_with].
  - by rewrite !Z.eqb_refl.
  - replace (c =? x) with false by lia. cbn [andb]. by rewrite IH.
Qed.

Lemma trimmed_head c s r : drop_while (Z.eqb c) s = c :: r -> False.
Proof. intros H. apply drop_while_head in H. lia. Qed.

Lemma strip_prefix_head c x s : c <> x -> strip_prefix [c] (x :: s) = None.
Proof. intros H. unfold strip_prefix. cbn. by replace (c =? x) with false by lia. Qed.

(** The host without the brackets the printer drops. *)
Definition unbracketed (host : str) : str := trim_end_matches 93 (trim_start_matches 91 host).

Lemma trim_end_prefix c s : exists r, s = trim_end_matches c s ++ r.
Proof.
  unfold trim_end_matches. pose proof (rev_involutive s) as E. revert E. generalize (rev s). intros l <-.
  induction l as [|x l [r IH]]; [by exists []|]. cbn. destruct (c =? x).
  - exists (r ++ [x]). rewrite app_assoc. by rewrite <- IH.
  - exists []. cbn. by rewrite app_nil_r.
Qed.
Lemma unbracketed_head host r : unbracketed host = 91 :: r -> False.
Proof.
  unfold unbracketed. intros H. destruct (trim_end_prefix 93 (trim_start_matches 91 host)) as [q E].
  rewrite H in E. exact (trimmed_head 91 host (r ++ q) E).
Qed.

(** What the printer writes is split again. *)
Lemma split_host_port_printed (host : str) (port : Z) :
  0 <= port <= u16_max -> Forall (fun c => c <> 93) (unbracketed host) ->
  split_host_port (host_port host port) = Ok (unbracketed host, Some port).
Proof.
  intros Hp Hc. unfold host_port. fold (unbracketed host).
  pose proof (unbracketed_head host) as Hh. generalize dependent (unbracketed host). clear host. intros h Hc Hh.
  destruct (dec_last port ltac:(lia)) as (d & s & Ed & Hd).
  pose proof (dec_parse u16_max port ltac:(lia)) as Ep. unfold split_host_port, bracketed.
  destruct (contains_char 58 h) eqn:Eh.
  - assert (E1 : strip_prefix [91] (txt "[" ++ h ++ txt "]:" ++ dec port) = Some (h ++ txt "]:" ++ dec port)) by done.
    rewrite E1. replace (strip_suffix [93] (h ++ txt "]:" ++ dec port)) with (@None str)
      by (rewrite Ed, !app_assoc; symmetry; apply strip_suffix_last; lia).
    change (txt "]:" ++ dec port) with (93 :: 58 :: dec port). change (txt "]:") with [93; 58].
    rewrite split_once_pair by done. by rewrite Ep.
  - apply contains_char_false in Eh.
    assert (E1 : strip_prefix [91] (h ++ txt ":" ++ dec port) = None).
    { destruct h as [|x h]; [by apply strip_prefix_head|]. apply strip_prefix_head. intros <-. by apply (Hh h). }
    rewrite E1. change (txt ":" ++ dec port) with (58 :: dec port). rewrite split_once_char by done.
    rewrite (proj2 (contains_char_false 58 (dec port))) by (apply dec_no_char; lia). cbn [negb]. by rewrite Ep.
Qed.

Lemma read_digits_stop radix room acc n ds rest :
  Forall (fun c => to_digit radix c <> None) ds ->
  match rest with [] => True | c :: _ => to_digit radix c = None end ->
  read_digits radix room acc n (ds ++ rest)
  = match read_digits radix room acc n ds with Some (x, k, _) => Some (x, k, rest) | None => None end.
Proof.
  intros Hd Hr. revert room acc n. induction Hd as [|c ds Hc _ IH]; intros room acc n; cbn [app read_digits].
  - destruct rest as [|c rest]; [done|]. cbn. by rewrite Hr.
  - destruct (to_digit radix c); [|done]. destruct room; [done|]. apply IH.
Qed.

(** An octet is read back, whatever follows that is not a digit. *)
Lemma read_octet_dec d rest :
  0 <= d <= 255 -> match rest with [] => True | c :: _ => to_digit 10 c = None end ->
  read_number 10 255 3 false (dec d ++ rest) = Some (d, rest).
Proof.
  intros Hd Hr.
  assert (H : forallb (fun d => bool_decide (read_number 10 255 3 false (dec d) = Some (d, []))) (seqZ 0 256)
              = true) by (vm_compute; done).
  rewrite forallb_forall in H. specialize (H d ltac:(apply list_elem_of_In, elem_of_seqZ; lia)).
  apply bool_decide_eq_true in H as H1. clear H.
  assert (H2 : Forall (fun c => to_digit 10 c <> None) (dec d)).
  { apply (Forall_impl _ _ _ (dec_digits d ltac:(lia))). intros c Hc.
    replace c with (48 + (c - 48)) by lia. rewrite to_digit_dec by lia. done. }
  pose proof (dec_nonempty d) as H3.
  unfold read_number in *. rewrite read_digits_stop by done.
  replace (match dec d ++ rest with 48 :: _ => true | _ => false end)
    with (match dec d with 48 :: _ => true | _ => false end) by (by destruct (dec d)).
  destruct (read_digits 10 3 0 0 (dec d)) as [[[x k] r]|]; [|done]. destruct (Nat.eqb k 0); [done|].
  destruct (negb false && _ && _); [done|]. destruct (x <=? 255); [|done]. by injection H1 as -> _.
Qed.

Lemma parse_show_ipv4 a : 0 <= a <= u32_max -> parse_ip (show_ipv4 a) = Some (V4 a).
Proof.
  unfold u32_max. intros Ha.
  assert (Hb : (0 <= a / 16777216 <= 255) /\ (0 <= a / 65536 mod 256 <= 255) /\ (0 <= a / 256 mod 256 <= 255) /\
               (0 <= a mod 256 <= 255) /\
               ((a / 16777216 * 256 + a / 65536 mod 256) * 256 + a / 256 mod 256) * 256 + a mod 256 = a)
    by (Z.to_euclidean_division_equations; lia).
  destruct Hb as (H1 & H2 & H3 & H4 & E). unfold parse_ip, read_ipv4_addr, show_ipv4, read_octet, read_separator.
  cbn [Nat.eqb]. rewrite read_octet_dec by done. cbn [app read_given_char Z.eqb Pos.eqb].
  rewrite read_octet_dec by done. cbn [app read_given_char Z.eqb Pos.eqb].
  rewrite read_octet_dec by done. cbn [app read_given_char Z.eqb Pos.eqb].
  rewrite <- (app_nil_r (dec (a mod 256))). rewrite read_octet_dec by done. by rewrite E.
Qed.

Lemma show_ipv4_chars a :
  0 <= a -> Forall (fun c => 46 <= c <= 57 /\ c <> 47) (show_ipv4 a).
Proof.
  intros Ha. unfold show_ipv4.
  assert (H : forall z, 0 <= z -> Forall (fun c => 46 <= c <= 57 /\ c <> 47) (dec z)).
  { intros z Hz. apply (Forall_impl _ _ _ (dec_digits z Hz)). cbn. lia. }
  pose proof (Z.mod_pos_bound (a / 65536) 256). pose proof (Z.mod_pos_bound (a / 256) 256).
  pose proof (Z.mod_pos_bound a 256).
  rewrite !Forall_app. split_and!; first [by (apply H; first [lia | apply Z.div_pos; lia])|repeat constructor; lia].
Qed.

Lemma drop_while_none p s : Forall (fun c => p c = false) s -> drop_while p s = s.
Proof. destruct 1; [done|]. cbn. by rewrite H. Qed.
Lemma unbracketed_id s : Forall (fun c => c <> 91 /\ c <> 93) s -> unbracketed s = s.
Proof.
  intros H. unfold unbracketed, trim_start_matches, trim_end_matches. rewrite (drop_while_none (Z.eqb 91) s).
  - rewrite drop_while_none; [apply rev_involutive|]. apply Forall_rev. apply (Forall_impl _ _ _ H). intros x [? ?]. apply Z.eqb_neq. lia.
  - apply (Forall_impl _ _ _ H). intros x [? ?]. apply Z.eqb_neq. lia.
Qed.

(** Printing a server for the user and typing it back gives the host and the
    port again, for names, IPv4 and IPv6 literals with or without a zone: the
    brackets put around a literal with colons are the ones taken off.  An IPv4
    address and port so printed are the bind address they name. *)
Theorem host_port_roundtrip (if_nametoindex : str -> Z) (host : str) (a port : Z) :
  0 <= port <= u16_max -> 0 <= a <= u32_max -> Forall (fun c => c <> 93) (unbracketed host) ->
  split_host_port (host_port host port) = Ok (unbracketed host, Some port) /\
  parse_bind_address if_nametoindex (host_port (show_ipv4 a) port) = Ok (SaV4 a port).
Proof.
  intros Hp Ha Hc. split; [by apply split_host_port_printed|].
  pose proof (show_ipv4_chars a ltac:(lia)) as Hs.
  assert (Eu : unbracketed (show_ipv4 a) = show_ipv4 a)
    by (apply unbracketed_id; apply (Forall_impl _ _ _ Hs); cbn; lia).
  unfold parse_bind_address. rewrite split_host_port_printed; [|done|].
  2: { rewrite Eu. apply (Forall_impl _ _ _ Hs). cbn. lia. }
  rewrite Eu. cbn [rbind fst snd]. unfold parse_ip_literal, bracketed.
  assert (E1 : strip_prefix [91] (show_ipv4 a) = None).
  { destruct (show_ipv4 a) as [|x l]; [done|]. apply strip_prefix_head. apply Forall_cons in Hs as [Hx _]. lia. }
  rewrite E1. rewrite split_once_none by (apply (Forall_impl _ _ _ Hs); cbn; lia).
  by rewrite parse_show_ipv4.
Qed.

(** A bare address with several colons is all host. *)
Lemma bare_host_kept (a b c : str) :
  Forall (fun x => x <> 58) a -> (forall r, a <> 91 :: r) ->
  split_host_port (a ++ [58] ++ b ++ [58] ++ c) = Ok (a ++ [58] ++ b ++ [58] ++ c, None).
Proof.
  intros Ha Hb. unfold split_host_port, bracketed.
  assert (E1 : strip_prefix [91] (a ++ [58] ++ b ++ [58] ++ c) = None).
  { destruct a as [|x a]; [by apply strip_prefix_head|]. apply strip_prefix_head. intros <-. by apply (Hb a). }
  rewrite E1. change ([58] ++ b ++ [58] ++ c) with (58 :: b ++ [58] ++ c).
  rewrite split_once_char by done.
  replace (contains_char 58 (b ++ [58] ++ c)) with true; [done|].
  symmetry. unfold contains_char. rewrite existsb_app. cbn. by rewrite orb_true_r.
Qed.

(** ** Connecting *)
Section connecting.
Context (stream : Type) (connect : nat -> SocketAddr -> option SocketAddr -> bool -> result stream io_error).
Context (bind_addr : option SocketAddr) (mptcp : bool).

Notation attempt n addr := (connect n addr (option_map (fun local => match_bind_family local addr) bind_addr) mptcp).

Lemma try_connect_ok n addrs e s a :
  try_connect stream connect bind_addr mptcp n addrs e = Ok (s, a) <->
  exists i, addrs !! i = Some a /\ attempt (n + i)%nat a = Ok s /\
    forall j b, (j < i)%nat -> addrs !! j = Some b -> exists e', attempt (n + j)%nat b = Err e'.
Proof.
  revert n e. induction addrs as [|b addrs IH]; intros n e; cbn [try_connect].
  - split; [done|]. by intros (i & H & _).
  - destruct (attempt n b) as [x|e'] eqn:E.
    + split.
      * intros [= -> ->]. exists 0%nat. split_and!; [done|by rewrite Nat.add_0_r|lia].
      * intros ([|i] & Hl & Ha & Hj); cbn in Hl.
        -- injection Hl as ->. rewrite Nat.add_0_r in Ha. by rewrite E in Ha; injection Ha as ->.
        -- destruct (Hj 0%nat b ltac:(lia) eq_refl) as [e'' He]. rewrite Nat.add_0_r in He. congruence.
    + rewrite IH. split.
      * intros (i & Hl & Ha & Hj). exists (S i). split; [done|]. rewrite Nat.add_succ_r. split; [done|].
        intros [|j] c Hlt Hc; cbn in Hc; [injection Hc as ->; rewrite Nat.add_0_r; by exists e'|].
        rewrite Nat.add_succ_r. apply (Hj j); [lia|done].
      * intros ([|i] & Hl & Ha & Hj); cbn in Hl.
        -- injection Hl as ->. rewrite Nat.add_0_r in Ha. congruence.
        -- exists i. rewrite Nat.add_succ_r in Ha. split; [done|]. split; [done|]. intros j c Hlt Hc.
           specialize (Hj (S j) c ltac:(lia) Hc). by rewrite Nat.add_succ_r in Hj.
Qed.

Lemma try_connect_err n addrs e :
  (forall i a, addrs !! i = Some a -> exists e', attempt (n + i)%nat a = Err e') ->
  exists e', try_connect stream connect bind_addr mptcp n addrs e = Err e'.
Proof.
  revert n e. induction addrs as [|b addrs IH]; intros n e H; cbn [try_connect]; [by eexists|].
  destruct (H 0%nat b eq_refl) as [e' E]. rewrite Nat.add_0_r in E. rewrite E. apply IH. intros i a Ha.
  specialize (H (S i) a Ha). by rewrite Nat.add_succ_r in H.
Qed.
End connecting.

Definition of_family (f : AddressFamily) (a : SocketAddr) : bool :=
  match f with V4Only => is_ipv4 a | V6Only => is_ipv6 a | DualStack => true end.

Lemma family_filter_spec f addrs : family_filter f addrs = List.filter (of_family f) addrs.
Proof.
  destruct f; try done. cbn. induction addrs as [|a addrs IH]; [done|]. cbn. by rewrite <- IH.
Qed.

(** A connection goes to the first address of the host, in resolver order and
    of the family asked for, that accepts: every earlier one was tried and
    refused.  The client binds its own address, except that an unspecified
    one takes the family of the address it connects to. *)
Theorem connect_takes_first (if_nametoindex : str -> Z)
    (lookup_host : str -> Z -> result (list SocketAddr) io_error) (stream : Type)
    (connect : nat -> SocketAddr -> option SocketAddr -> bool -> result stream io_error)
    (host : str) (port : Z) (f : AddressFamily) (bind : option SocketAddr) (mptcp : bool)
    (s : stream) (a : SocketAddr) :
  connect_tcp if_nametoindex lookup_host stream connect host port f bind mptcp = Ok (s, a) <->
  exists addrs i,
    match parse_ip_literal if_nametoindex host port with
    | Ok (Some addr) => addrs = [addr]
    | Ok None => lookup_host host port = Ok addrs
    | Err _ => False
    end /\
    let tried := List.filter (of_family f) addrs in
    let local := fun b => option_map (fun l => match_bind_family l b) bind in
    tried !! i = Some a /\ connect i a (local a) mptcp = Ok s /\
    forall j b, (j < i)%nat -> tried !! j = Some b -> exists e, connect j b (local b) mptcp = Err e.
Proof.
  unfold connect_tcp, resolve_host. rewrite rbind_ok. split.
  - intros (addrs & Hr & Hc). apply rbind_ok in Hr as (lit & El & Hr). apply rbind_ok in Hr as (all & Ea & Hr).
    apply try_connect_ok in Hc as (i & Hi & Hc). exists all, i. rewrite El. split.
    + destruct lit as [x|]; [by injection Ea|done].
    + destruct all as [|x all]; [done|]. rewrite family_filter_spec in Hr.
      destruct (List.filter (of_family f) (x :: all)) as [|y l] eqn:E; [done|]. injection Hr as <-.
      split; [exact Hi|]. exact Hc.
  - intros (addrs & i & Hl & Ht & Hc). destruct (parse_ip_literal if_nametoindex host port) as [lit|]; [|done].
    exists (List.filter (of_family f) addrs). split; [|apply try_connect_ok; by exists i].
    cbn [rbind]. replace (match lit with Some addr => Ok [addr] | None => lookup_host host port end)
      with (@Ok _ io_error addrs) by (destruct lit; by subst). cbn [rbind].
    destruct addrs as [|x addrs]; [done|]. rewrite family_filter_spec.
    by destruct (List.filter (of_family f) (x :: addrs)).
Qed.

(** ** Concrete inputs *)
Lemma host_port_roundtrip_witness :
  split_host_port (host_port (txt "[fe80::1%eth0]") 5201) = Ok (txt "fe80::1%eth0", Some 5201) /\
  parse_bind_address (fun _ => 0) (txt "10.0.0.1:5201") = Ok (SaV4 167772161 5201).
Proof.
  apply (host_port_roundtrip (fun _ => 0) (txt "[fe80::1%eth0]") 167772161 5201); try done.
  vm_compute. repeat constructor; discriminate.
Defined.
