(* ===== verification/IpText.v ===== *)
(** * IPv6 addresses as text (src/src/net.rs, src/src/discover.rs)

    What the standard library prints for an IPv6 address its parser reads
    back, the compressed run of zero groups and the IPv4-mapped form
    included: the lemmas behind every address the program prints for the user
    to type again. *)
From S2P Require Import Prelude Bytes Text Fmt Ip Protocol Target.

(** ** Groups *)
Lemma of_groups_segments a : 0 <= a <= u128_max -> of_groups (segments a) = a.
Proof.
  unfold u128_max. intros Ha.
  assert (H : forall j k, 0 <= k -> j = k + 16 -> a / 2 ^ j * 65536 + a / 2 ^ k mod 65536 = a / 2 ^ k).
  { intros j k Hk ->. rewrite Z.pow_add_r, <- Z.div_div by lia. change (2 ^ 16) with 65536.
    generalize (a / 2 ^ k). intros q. Z.to_euclidean_division_equations; lia. }
  assert (H7 : a / 2 ^ 112 mod 65536 = a / 2 ^ 112)
    by (apply Z.mod_small; split; [apply Z.div_pos; lia|apply Z.div_lt_upper_bound; lia]).
  change (of_groups (segments a)) with
    ((((((((0 * 65536 + a / 2 ^ 112 mod 65536) * 65536 + a / 2 ^ 96 mod 65536) * 65536 + a / 2 ^ 80 mod 65536) * 65536
      + a / 2 ^ 64 mod 65536) * 65536 + a / 2 ^ 48 mod 65536) * 65536 + a / 2 ^ 32 mod 65536) * 65536
      + a / 2 ^ 16 mod 65536) * 65536 + a / 2 ^ 0 mod 65536).
  rewrite H7, Z.mul_0_l, Z.add_0_l. rewrite (H 112 96), (H 96 80), (H 80 64), (H 64 48), (H 48 32), (H 32 16), (H 16 0) by lia. apply Z.div_1_r.
Qed.
Lemma segments_length a : length (segments a) = 8%nat.
Proof. done. Qed.
Lemma segments_bound a : Forall (fun g => 0 <= g <= 65535) (segments a).
Proof. unfold segments. apply Forall_map, Forall_true. intros i. cbn. pose proof (Z.mod_pos_bound (a / 2 ^ (112 - 16 * i)) 65536). lia. Qed.

(** A text the reader of a group stops at. *)
Definition stops (rest : str) : Prop := match rest with c :: _ => c = 58 | [] => True end.

Lemma read_digits_rest room acc n rest : stops rest ->
  read_digits 16 room acc n rest = Some (acc, n, rest).
Proof. destruct rest as [|c rest]; [done|]. cbn [stops]. intros ->. done. Qed.

Lemma read_group_shown g rest : 0 <= g <= 65535 -> stops rest ->
  read_number 16 65535 4 true (show_group g ++ rest) = Some (g, rest).
Proof.
  intros Hg Hr. unfold show_group, read_number. cbn [negb andb].
  assert (E : read_digits 16 4 0 0 (hex_aux 4 g ++ rest) = Some (g, length (hex_aux 4 g), rest)).
  { assert (Hd : forall x, to_digit 16 (hex_digit (x mod 16)) = Some (x mod 16))
      by (intros x; apply to_digit_hex_digit, Z.mod_pos_bound; lia).
    cbn [hex_aux]. destruct (Z.ltb_spec g 16); [|destruct (Z.ltb_spec (g / 16) 16);
      [|destruct (Z.ltb_spec (g / 16 / 16) 16); [|destruct (Z.ltb_spec (g / 16 / 16 / 16) 16)]]];
      cbn [app read_digits length]; rewrite ?Hd, ?read_digits_rest by done;
      first [do 3 f_equal; Z.to_euclidean_division_equations; lia|exfalso; Z.to_euclidean_division_equations; lia]. }
  rewrite E. cbn [hex_aux]. rewrite length_app. cbn [length]. rewrite Nat.add_comm. cbn [Nat.add Nat.eqb].
  by rewrite (proj2 (Z.leb_le g 65535)) by lia.
Qed.

(** ** No IPv4 address is read where there is no dot *)
Definition dotless (s : str) : Prop := Forall (fun c => c <> 46) s.

Lemma read_digits_suffix radix room acc n s v m rest :
  read_digits radix room acc n s = Some (v, m, rest) -> exists p, s = p ++ rest.
Proof.
  revert room acc n. induction s as [|c s IH]; intros room acc n; cbn [read_digits].
  - intros [= _ _ <-]. by exists [].
  - destruct (to_digit radix c); [|by intros [= _ _ <-]; exists []]. destruct room; [done|].
    intros H. apply IH in H as [p ->]. by exists (c :: p).
Qed.
Lemma read_number_suffix radix max k z s v rest : read_number radix max k z s = Some (v, rest) -> exists p, s = p ++ rest.
Proof.
  unfold read_number. destruct (read_digits radix k 0 0 s) as [[[n count] r]|] eqn:E; [|done].
  intros H. apply (read_digits_suffix radix k 0 0 s n count r) in E as [p ->]. exists p. f_equal.
  revert H. destruct (Nat.eqb count 0); [done|]. destruct (negb z && _ && _); [done|]. destruct (n <=? max); [|done].
  by intros [= _ <-].
Qed.
Lemma dotless_no_ipv4 s : dotless s -> read_ipv4_addr s = None.
Proof.
  intros Hd. unfold read_ipv4_addr. destruct (read_octet 0 s) as [[v rest]|] eqn:E; [|done].
  unfold read_octet, read_separator in E. cbn [Nat.eqb] in E. apply read_number_suffix in E as [p ->].
  apply Forall_app in Hd as [_ Hd]. assert (E1 : read_octet 1 rest = None); [|by rewrite E1].
  unfold read_octet, read_separator. cbn [Nat.eqb]. destruct Hd as [|c rest Hc Hd]; [done|]. cbn [read_given_char].
  by rewrite (proj2 (Z.eqb_neq c 46) Hc).
Qed.

Lemma show_group_chars g : 0 <= g -> Forall (fun c => 48 <= c <= 57 \/ 97 <= c <= 102) (show_group g).
Proof.
  intros Hg. unfold show_group.
  assert (Hd : forall x, 48 <= hex_digit (x mod 16) <= 57 \/ 97 <= hex_digit (x mod 16) <= 102).
  { intros x. unfold hex_digit. pose proof (Z.mod_pos_bound x 16 ltac:(lia)). destruct (Z.ltb_spec (x mod 16) 10); lia. }
  generalize 4%nat. intros n. revert g Hg. induction n as [|n IH]; intros g Hg; cbn [hex_aux]; [done|].
  apply Forall_app. split; [|constructor; [apply Hd|constructor]]. destruct (g <? 16); [done|]. apply IH. by apply Z.div_pos.
Qed.

(** ** Reading groups back *)
Definition shown_rest (gs : list Z) : str := concat (map (fun g => 58 :: show_group g) gs).
Definition groups (gs : list Z) : Prop := Forall (fun g => 0 <= g <= 65535) gs.

Lemma show_groups_cons g gs : show_groups (g :: gs) = show_group g ++ shown_rest gs.
Proof. unfold show_groups, shown_rest. cbn [map]. by rewrite map_map. Qed.
Lemma shown_rest_stops gs rest : stops rest -> stops (shown_rest gs ++ rest).
Proof. by destruct gs. Qed.
Lemma shown_rest_chars gs : groups gs -> Forall (fun c => 48 <= c <= 58 \/ 97 <= c <= 102) (shown_rest gs).
Proof.
  induction 1 as [|g gs Hg _ IH]; [constructor|]. unfold shown_rest. cbn [map concat]. apply Forall_app. split; [|done].
  constructor; [lia|]. apply (Forall_impl _ _ _ (show_group_chars g ltac:(lia))). lia.
Qed.

Lemma show_groups_chars gs : groups gs -> Forall (fun c => 48 <= c <= 58 \/ 97 <= c <= 102) (show_groups gs).
Proof.
  destruct 1 as [|g gs Hg Hgs]; [constructor|]. rewrite show_groups_cons. apply Forall_app. split; [|by apply shown_rest_chars].
  apply (Forall_impl _ _ _ (show_group_chars g ltac:(lia))). lia.
Qed.

(** No group follows. *)
Definition ends (i : nat) (rest : str) : Prop :=
  read_separator 58 i (read_number 16 65535 4 true) rest = None.

Lemma no_ipv4_here limit i s : dotless s ->
  (if Nat.ltb i (limit - 1) then read_separator 58 i read_ipv4_addr s else None) = None.
Proof.
  intros Hd. destruct (Nat.ltb i (limit - 1)); [|done]. unfold read_separator.
  destruct (Nat.eqb i 0); [by apply dotless_no_ipv4|]. destruct Hd as [|c s Hc Hd]; [done|]. cbn [read_given_char].
  destruct (c =? 58); [by apply dotless_no_ipv4|done].
Qed.

Lemma read_groups_rest limit gs rest : forall room i,
  groups gs -> dotless (shown_rest gs ++ rest) -> stops rest -> (forall i, (0 < i)%nat -> ends i rest) ->
  (0 < i)%nat -> (length gs <= room)%nat ->
  read_groups room limit i (shown_rest gs ++ rest) = (gs, false, rest).
Proof.
  induction gs as [|g gs IH]; intros room i Hg Hd Hs He Hi Hl.
  - destruct room as [|room]; [done|]. cbn [read_groups]. rewrite no_ipv4_here by done. cbn [shown_rest map concat app] in *.
    by rewrite (He i Hi).
  - destruct room as [|room]; [cbn in Hl; lia|]. cbn [read_groups]. rewrite no_ipv4_here by done.
    apply Forall_cons in Hg as [Hg Hgs].
    change (shown_rest (g :: gs)) with ((58 :: show_group g) ++ shown_rest gs) in *.
    assert (E : read_separator 58 i (read_number 16 65535 4 true) (((58 :: show_group g) ++ shown_rest gs) ++ rest)
                = Some (g, shown_rest gs ++ rest)).
    { unfold read_separator. destruct i as [|i]; [lia|]. cbn [Nat.eqb app read_given_char Z.eqb Pos.eqb].
      rewrite <- app_assoc. apply read_group_shown; [done|]. by apply shown_rest_stops. }
    rewrite E, IH; [done|done| |done|done|lia|cbn in Hl; lia].
    unfold dotless in *. rewrite <- app_assoc in Hd. by apply Forall_app in Hd as [_ Hd].
Qed.

Lemma read_groups_shown limit gs rest room :
  groups gs -> dotless (show_groups gs ++ rest) -> stops rest -> (forall i, ends i rest) ->
  (length gs <= room)%nat ->
  read_groups room limit 0 (show_groups gs ++ rest) = (gs, false, rest).
Proof.
  intros Hg Hd Hs He Hl. destruct gs as [|g gs].
  - destruct room as [|room]; [done|]. cbn [read_groups]. rewrite no_ipv4_here by done. cbn [show_groups map app].
    by rewrite (He 0%nat).
  - destruct room as [|room]; [cbn in Hl; lia|]. cbn [read_groups]. rewrite no_ipv4_here by done.
    apply Forall_cons in Hg as [Hg Hgs]. rewrite show_groups_cons, <- app_assoc in *.
    assert (E : read_separator 58 0 (read_number 16 65535 4 true) (show_group g ++ shown_rest gs ++ rest)
                = Some (g, shown_rest gs ++ rest)).
    { unfold read_separator. cbn [Nat.eqb]. apply read_group_shown; [done|]. by apply shown_rest_stops. }
    rewrite E, read_groups_rest; [done|done| |done|by intros|lia|cbn in Hl; lia].
    unfold dotless in *. by apply Forall_app in Hd as [_ Hd].
Qed.

(** ** The compressed run *)
Definition zero_run (pre : list Z) (run : nat * nat) : Prop :=
  (fst run + snd run <= length pre)%nat /\ forall k, (fst run <= k < fst run + snd run)%nat -> pre !! k = Some 0.

Lemma zero_run_snoc pre run g : zero_run pre run -> zero_run (pre ++ [g]) run.
Proof.
  intros [H1 H2]. split; [rewrite length_app; lia|]. intros k Hk. rewrite lookup_app_l by lia. by apply H2.
Qed.
Lemma zero_run_none pre : zero_run pre (0, 0)%nat.
Proof. split; cbn; lia. Qed.
Lemma zero_run_longer pre run : zero_run pre run -> (snd run = 0 \/ fst run + snd run = length pre)%nat ->
  let longer := ((if Nat.eqb (snd run) 0 then length pre else fst run), S (snd run)) in
  zero_run (pre ++ [0]) longer /\ (fst longer + snd longer = length (pre ++ [0%Z]))%nat.
Proof.
  destruct run as [s l]. cbn. intros [H1 H2] He. cbn in *. rewrite length_app. cbn.
  destruct (Nat.eqb_spec l 0) as [->|Hl].
  - split; [|lia]. split; cbn; [rewrite length_app; cbn; lia|]. intros k Hk.
    replace k with (length pre + 0)%nat by lia. by rewrite lookup_app_r, Nat.add_sub_swap, Nat.sub_diag by lia.
  - split; [|lia]. split; cbn; [rewrite length_app; cbn; lia|]. intros k Hk.
    destruct (Nat.eq_dec k (length pre)) as [->|Hn]; [by rewrite lookup_app_r, Nat.sub_diag by lia|].
    rewrite lookup_app_l by lia. apply H2. lia.
Qed.

Lemma longest_zeroes_run gs : zero_run gs (longest_zeroes gs).
Proof.
  unfold longest_zeroes. match goal with |- context [fold_left ?F gs _] => set (f := F) end.
  assert (H : let '(longest, current, i) := fold_left f gs ((0, 0)%nat, (0, 0)%nat, 0%nat) in
    zero_run gs longest /\ zero_run gs current /\ (snd current = 0 \/ fst current + snd current = length gs)%nat /\
    i = length gs).
  { induction gs as [|g gs IH] using rev_ind.
    - cbn. split_and!; [apply zero_run_none..|by left|done].
    - rewrite fold_left_app. cbn [fold_left]. destruct (fold_left f gs _) as [[longest current] i].
      destruct IH as (H1 & H2 & H3 & ->). unfold f. destruct (Z.eqb_spec g 0) as [->|Hg].
      + destruct (zero_run_longer gs current H2 H3) as [Hl He]. split_and!; [|done|by right|].
        * destruct (Nat.ltb _ _); [done|by apply zero_run_snoc].
        * rewrite length_app. cbn. lia.
      + split_and!; [by apply zero_run_snoc|apply zero_run_none|by left|]. rewrite length_app. cbn. lia. }
  destruct (fold_left f gs _) as [[longest current] i]. apply H.
Qed.

Lemma repeat_replicate {A} (x : A) n : repeat x n = replicate n x.
Proof. induction n as [|n IH]; [done|]. cbn. by rewrite IH. Qed.
Lemma zero_run_split gs start len : zero_run gs (start, len) ->
  gs = take start gs ++ repeat 0 len ++ drop (start + len) gs /\ (start + len <= length gs)%nat.
Proof.
  intros [H1 H2]. cbn in *. split; [|done].
  assert (E : take len (drop start gs) = repeat 0 len).
  { rewrite repeat_replicate. apply list_eq. intros k. destruct (decide (k < len)%nat) as [Hk|Hk].
    - rewrite lookup_take_lt, lookup_drop, H2 by lia. symmetry. by apply lookup_replicate_2.
    - rewrite lookup_take_ge by lia. symmetry. apply lookup_replicate_None. lia. }
  rewrite <- E, <- drop_drop, take_drop. by rewrite take_drop.
Qed.

(** ** The round trip *)
Lemma ends_nil i : ends i [].
Proof. unfold ends, read_separator. by destruct (Nat.eqb i 0). Qed.
Lemma ends_colons i rest : ends i (58 :: 58 :: rest).
Proof. unfold ends, read_separator. by destruct (Nat.eqb i 0). Qed.

Lemma groups_dotless gs rest : groups gs -> dotless rest -> dotless (show_groups gs ++ rest).
Proof.
  intros Hg Hr. apply Forall_app. split; [|done]. apply (Forall_impl _ _ _ (show_groups_chars gs Hg)). lia.
Qed.

Lemma shown_dotless gs : groups gs -> dotless (show_groups gs).
Proof. intros H. rewrite <- (app_nil_r (show_groups gs)). apply groups_dotless; [done|constructor]. Qed.

Lemma read_shown_groups gs : groups gs -> length gs = 8%nat ->
  read_ipv6_addr (show_groups gs) = Some (of_groups gs, []).
Proof.
  intros Hg Hl. unfold read_ipv6_addr. rewrite <- (app_nil_r (show_groups gs)).
  rewrite read_groups_shown; [by rewrite Hl|done| |done|apply ends_nil|lia].
  apply groups_dotless; [done|constructor].
Qed.

Lemma read_compressed head tail : groups head -> groups tail -> (length head + length tail <= 6)%nat ->
  read_ipv6_addr (show_groups head ++ txt "::" ++ show_groups tail)
  = Some (of_groups (head ++ repeat 0 (8 - length head - length tail) ++ tail), []).
Proof.
  intros Hh Ht Hl. unfold read_ipv6_addr. change (txt "::" ++ show_groups tail) with (58 :: 58 :: show_groups tail).
  assert (Hd : dotless (show_groups tail)) by by apply shown_dotless.
  rewrite read_groups_shown; [|done| |done|intros; apply ends_colons|lia].
  2: { apply groups_dotless; [done|]. by do 2 (constructor; [lia|]). }
  rewrite (proj2 (Nat.eqb_neq (length head) 8)) by lia. cbn [read_given_char Z.eqb Pos.eqb].
  rewrite <- (app_nil_r (show_groups tail)).
  rewrite read_groups_shown; [done|done|by rewrite app_nil_r|done|intros; apply ends_nil|lia].
Qed.

Lemma some_fst (a b : Z) (s : str) : a = b -> Some (a, s) = Some (b, s).
Proof. by intros ->. Qed.

(** An IPv4 address in the last two groups. *)
Lemma read_mapped v4 : 0 <= v4 <= u32_max ->
  read_ipv6_addr (txt "::ffff:" ++ show_ipv4 v4) = Some (65535 * 2 ^ 32 + v4, []).
Proof.
  unfold u32_max. intros Hv.
  assert (E : read_ipv4_addr (show_ipv4 v4) = Some (v4, [])).
  { pose proof (parse_show_ipv4 v4 Hv) as H. unfold parse_ip in H.
    destruct (read_ipv4_addr (show_ipv4 v4)) as [[a [|c r]]|]; [by injection H as ->|done|].
    destruct (read_ipv6_addr _) as [[b [|c r]]|]; done. }
  change (txt "::ffff:" ++ show_ipv4 v4) with ([58; 58; 102; 102; 102; 102; 58] ++ show_ipv4 v4).
  assert (H1 : read_groups 8 8 0 ([58; 58; 102; 102; 102; 102; 58] ++ show_ipv4 v4)
               = ([], false, [58; 58; 102; 102; 102; 102; 58] ++ show_ipv4 v4)) by done.
  unfold read_ipv6_addr. rewrite H1. cbn [length Nat.eqb app read_given_char Z.eqb Pos.eqb Nat.add Nat.sub].
  cbn [read_groups Nat.ltb Nat.leb Nat.sub]. unfold read_separator at 1. cbn [Nat.eqb].
  assert (H2 : read_ipv4_addr (102 :: 102 :: 102 :: 102 :: 58 :: show_ipv4 v4) = None) by done.
  assert (H3 : read_separator 58 0 (read_number 16 65535 4 true) (102 :: 102 :: 102 :: 102 :: 58 :: show_ipv4 v4)
               = Some (65535, 58 :: show_ipv4 v4)) by done.
  rewrite H2, H3. unfold read_separator at 1. cbn [Nat.eqb read_given_char Z.eqb Pos.eqb]. rewrite E.
  cbn -[Z.div Z.modulo]. apply some_fst. Z.to_euclidean_division_equations; lia.
Qed.

(** What is printed for an IPv6 address is read back as that address. *)
Lemma parse_show_ipv6 a : 0 <= a <= u128_max -> parse_ip (show_ipv6 a) = Some (V6 a).
Proof.
  intros Ha. assert (Hr : read_ipv6_addr (show_ipv6 a) = Some (a, []) /\ read_ipv4_addr (show_ipv6 a) = None).
  { unfold show_ipv6. destruct (to_ipv4_mapped a) as [v4|] eqn:Em.
    - unfold to_ipv4_mapped in Em. destruct (Z.eqb_spec (a / 2 ^ 32) 65535) as [Ea|]; [|done]. injection Em as <-.
      pose proof (Z.mod_pos_bound a (2 ^ 32) ltac:(lia)). pose proof (Z.div_mod a (2 ^ 32) ltac:(lia)).
      rewrite read_mapped by (unfold u32_max; lia). split; [apply some_fst; lia|done].
    - pose proof (of_groups_segments a Ha) as Ho. pose proof (segments_bound a) as Hg.
      pose proof (segments_length a) as Hl. pose proof (longest_zeroes_run (segments a)) as Hz.
      generalize dependent (segments a). intros gs Ho Hg Hl Hz. destruct (longest_zeroes gs) as [start len].
      destruct (zero_run_split gs start len Hz) as [Es Hb]. destruct (Nat.ltb_spec 1 len) as [H|H].
      + assert (Ht : groups (take start gs)) by by apply Forall_take.
        assert (Hd : groups (drop (start + len) gs)) by by apply Forall_drop.
        split.
        * rewrite read_compressed; [|done|done|rewrite length_take, length_drop; lia]. apply some_fst. rewrite <- Ho.
          rewrite length_take, length_drop. replace (8 - _ - _)%nat with len by lia. by rewrite <- Es.
        * apply dotless_no_ipv4, groups_dotless; [done|]. change (txt "::") with [58; 58]. do 2 (constructor; [lia|]).
          by apply shown_dotless.
      + split; [rewrite read_shown_groups by done; by rewrite Ho|]. by apply dotless_no_ipv4, shown_dotless. }
  unfold parse_ip. destruct Hr as [H6 H4]. by rewrite H4, H6.
Qed.

Lemma show_ipv6_chars a : 0 <= a -> Forall (fun c => 46 <= c <= 58 \/ 97 <= c <= 102) (show_ipv6 a).
Proof.
  intros Ha. assert (Hg : forall gs, groups gs -> Forall (fun c => 46 <= c <= 58 \/ 97 <= c <= 102) (show_groups gs))
    by (intros gs H; apply (Forall_impl _ _ _ (show_groups_chars gs H)); lia).
  unfold show_ipv6. destruct (to_ipv4_mapped a) as [v4|] eqn:Em.
  - change (txt "::ffff:") with [58; 58; 102; 102; 102; 102; 58].
    apply Forall_app. split; [repeat (constructor; [lia|]); constructor|]. unfold to_ipv4_mapped in Em.
    destruct (a / 2 ^ 32 =? 65535); [|done]. injection Em as <-.
    apply (Forall_impl _ _ _ (show_ipv4_chars (a mod 2 ^ 32) (proj1 (Z.mod_pos_bound a (2 ^ 32) eq_refl)))). lia.
  - pose proof (segments_bound a) as Hs. destruct (longest_zeroes (segments a)) as [start len].
    destruct (Nat.ltb 1 len); [|by apply Hg]. rewrite !Forall_app. split; [by apply Hg, Forall_take|].
    split; [change (txt "::") with [58; 58]; repeat (constructor; [lia|]); constructor|by apply Hg, Forall_drop].
Qed.

(** There is always a colon in it. *)
Lemma contains_char_app c a b : contains_char c (a ++ b) = contains_char c a || contains_char c b.
Proof. apply existsb_app. Qed.
Lemma show_ipv6_colon a : contains_char 58 (show_ipv6 a) = true.
Proof.
  unfold show_ipv6. destruct (to_ipv4_mapped a); [by rewrite contains_char_app|].
  assert (H : contains_char 58 (show_groups (segments a)) = true).
  { change (show_groups (segments a)) with (show_groups (hd 0 (segments a) :: nth 1 (segments a) 0 :: drop 2 (segments a))).
    rewrite show_groups_cons, contains_char_app. apply orb_true_iff. by right. }
  destruct (longest_zeroes (segments a)) as [start len]. destruct (Nat.ltb 1 len); [|done].
  rewrite !contains_char_app. change (contains_char 58 (txt "::")) with true. by rewrite orb_true_r.
Qed.
