(* ===== verification/Diff.v ===== *)
(** * Comparing two results (src/src/diff.rs)

    The percentage changes, the regression verdict and its printed report,
    with IEEE arithmetic.  Reading the two files is a parameter. *)
From Stdlib Require Import SpecFloat.
From S2P Require Import Prelude Bytes Text Float Fmt Protocol Stats.

Definition DEFAULT_DIFF_THRESHOLD_PERCENT : f64 := of_int 5.
Definition infinity : f64 := S754_infinity false.
Definition fopp : f64 -> f64 := SFopp.

Definition validate (threshold_percent : f64) : result unit str :=
  if is_finite threshold_percent && fgeb threshold_percent zero then Ok tt
  else Err (txt "Regression threshold must be finite and non-negative").

Record DiffResult := mkDiffResult {
  baseline : TestResult; current : TestResult;
  throughput_change_percent : f64; retransmit_change_percent : f64; rtt_change_percent : f64;
  threshold_percent : f64; is_regression : bool
}.

(** [((c - b) / b) * 100.0]. *)
Definition change_percent (b c : f64) : f64 := fmul (fdiv (fsub c b) b) (of_int 100).

(** The change of a TCP counter, infinite when it appears. *)
Definition tcp_change (field : TcpInfoSnapshot -> Z) (b c : option TcpInfoSnapshot) : f64 :=
  match b, c with
  | Some b, Some c =>
    if 0 <? field b then change_percent (of_int (field b)) (of_int (field c))
    else if (field b =? 0) && (0 <? field c) then infinity
    else zero
  | _, _ => zero
  end.

Definition compare (baseline current : TestResult) (threshold : f64) : DiffResult :=
  let throughput := if fgtb (tr_throughput_mbps baseline) zero
                    then change_percent (tr_throughput_mbps baseline) (tr_throughput_mbps current)
                    else zero in
  let retransmits := tcp_change tcp_retransmits (tr_tcp_info baseline) (tr_tcp_info current) in
  let rtt := tcp_change tcp_rtt_us (tr_tcp_info baseline) (tr_tcp_info current) in
  mkDiffResult baseline current throughput retransmits rtt threshold
    (fltb throughput (fopp threshold) || fgtb retransmits threshold || fgtb rtt threshold).

Section files.
(** Reading a file as JSON, with its error text. *)
Variables (path : Type) (load_result : path -> result TestResult str).
Definition run_diff (baseline_path current_path : path) (threshold : f64) : result DiffResult str :=
  let? _ := validate threshold in
  let? baseline := load_result baseline_path in
  let? current := load_result current_path in
  Ok (compare baseline current threshold).
End files.

(** ** The report *)
Inductive label := NoLabel | OkLabel | Warn | Fail.
Definition label_text (l : label) : str :=
  match l with NoLabel => [] | OkLabel => txt " [OK]" | Warn => txt " [WARN]" | Fail => txt " [FAIL]" end.

Definition throughput_label (d : DiffResult) : label :=
  if fltb (throughput_change_percent d) (fopp (threshold_percent d)) then Fail
  else if fltb (throughput_change_percent d) zero then Warn else OkLabel.
Definition tcp_label (change threshold : f64) : label :=
  if fgtb change threshold then Fail else if fgtb change zero then Warn else NoLabel.

Definition arrow : str := [32; 8594; 32].
Definition ms2 (us : Z) : str := fixed 2 (fdiv (of_int us) (of_int 1000)) ++ txt " ms".

(** The lines of the report with their labels. *)
Definition report_lines (d : DiffResult) : list (str * label) :=
  (txt "Throughput: " ++ fixed 1 (normalize_for_display (tr_throughput_mbps (baseline d)) 1)
   ++ txt " Mbps" ++ arrow ++ fixed 1 (normalize_for_display (tr_throughput_mbps (current d)) 1)
   ++ txt " Mbps (" ++ fixed_sign true 1 (normalize_for_display (throughput_change_percent d) 1)
   ++ txt "%)", throughput_label d)
  :: match tr_tcp_info (baseline d), tr_tcp_info (current d) with
     | Some b, Some c =>
       [(txt "Retransmits: " ++ dec (tcp_retransmits b) ++ arrow ++ dec (tcp_retransmits c)
         ++ txt " (" ++ fixed_sign true 1 (retransmit_change_percent d) ++ txt "%)",
         tcp_label (retransmit_change_percent d) (threshold_percent d));
        (txt "RTT: " ++ ms2 (tcp_rtt_us b) ++ arrow ++ ms2 (tcp_rtt_us c)
         ++ txt " (" ++ fixed_sign true 1 (rtt_change_percent d) ++ txt "%)",
         tcp_label (rtt_change_percent d) (threshold_percent d))]
     | _, _ => []
     end.

Definition verdict (d : DiffResult) : str :=
  if is_regression d then txt "Verdict: REGRESSION DETECTED" else txt "Verdict: OK".

Definition format_plain (d : DiffResult) : str :=
  concat (map (fun '(line, l) => line ++ label_text l ++ [10]) (report_lines d)) ++ [10]
  ++ verdict d ++ [10].

(** ** Properties *)
Lemma label_fail (a b : bool) l : l <> Fail -> (if a then Fail else if b then Warn else l) = Fail <-> a = true.
Proof. intros H. destruct a, b; naive_solver. Qed.

Lemma fgtb_zero_valid t : validate t = Ok tt -> fgtb zero t = false.
Proof.
  unfold validate. destruct t as [s|s| |s m e]; cbn; try done. by destruct s.
Qed.

Lemma fsub_self x : is_finite x = true -> fsub x x = zero.
Proof.
  destruct x as [s|s| |s m e]; try done; [by destruct s|]. intros _. unfold fsub, SFsub.
  rewrite Z.min_id, Z.sub_diag. by destruct s; cbn; rewrite ?Pos2Z.add_pos_neg, ?Z.pos_sub_diag.
Qed.

(** A change of a number to itself is a zero or not a number. *)
Lemma change_percent_self x : change_percent x x = S754_nan \/ exists s, change_percent x x = S754_zero s.
Proof.
  unfold change_percent. destruct x as [s|[]| |s m e]; [left; by destruct s|by left..|].
  rewrite fsub_self by done. right. by destruct s; eexists.
Qed.
Lemma no_change_verdict x t :
  (x = S754_nan \/ exists s, x = S754_zero s) -> validate t = Ok tt ->
  fltb x (fopp t) = false /\ fgtb x t = false.
Proof.
  intros [->|[s ->]]; [by destruct t as [[]|[]| |[] ? ?]|]. by destruct t as [[]|[]| |[] ? ?].
Qed.
Lemma tcp_change_self field b : tcp_change field b b = zero \/ exists x, tcp_change field b b = change_percent x x.
Proof.
  unfold tcp_change. destruct b as [b|]; [|by left]. destruct (Z.ltb_spec 0 (field b)); [right; by eexists|].
  rewrite andb_false_r. by left.
Qed.

Definition fails (d : DiffResult) : bool := existsb (fun l => match snd l with Fail => true | _ => false end) (report_lines d).

(** With a threshold the program accepts, the verdict printed last is exactly
    what the lines above it say -- a regression when, and only when, one of
    them is marked as failed -- and comparing a result with itself finds no
    regression, whatever numbers it holds. *)
Theorem diff_verdict (b c : TestResult) (t : f64) :
  validate t = Ok tt ->
  is_regression (compare b c t) = fails (compare b c t) /\
  is_regression (compare b b t) = false.
Proof.
  intros Ht. split.
  - unfold fails, compare, report_lines. cbn [is_regression baseline current existsb snd].
    unfold throughput_label. cbn [throughput_change_percent retransmit_change_percent rtt_change_percent threshold_percent].
    assert (H : forall x, match (if fgtb x t then Fail else if fgtb x zero then Warn else NoLabel) with
                          Fail => true | _ => false end = fgtb x t) by (intros x; by repeat case_match).
    rewrite <- orb_assoc. f_equal; [by repeat case_match|].
    destruct (tr_tcp_info b) as [i|], (tr_tcp_info c) as [j|]; cbn [existsb snd tcp_change];
      try (by rewrite (fgtb_zero_valid t Ht)).
    unfold tcp_label. by rewrite !H, orb_false_r.
  - unfold compare. cbn [is_regression].
    assert (H0 : fltb zero (fopp t) = false /\ fgtb zero t = false)
      by (apply no_change_verdict; [right; by eexists|done]).
    assert (Hf : forall field, fgtb (tcp_change field (tr_tcp_info b) (tr_tcp_info b)) t = false).
    { intros field. destruct (tcp_change_self field (tr_tcp_info b)) as [->|[x ->]]; [apply H0|].
      by apply no_change_verdict; [apply change_percent_self|]. }
    rewrite !Hf, !orb_false_r. destruct (fgtb _ zero); [|apply H0].
    exact (proj1 (no_change_verdict _ t (change_percent_self _) Ht)).
Qed.

Definition demo_result (mbps retransmits : Z) : TestResult :=
  mkTestResult (txt "t") 0 10000 (of_int mbps) [] (Some (mkTcpInfoSnapshot retransmits 1000 100 65535 None))
    None None None None None None None None None None None.
Lemma diff_verdict_witness :
  is_regression (compare (demo_result 1000 0) (demo_result 1000 20) DEFAULT_DIFF_THRESHOLD_PERCENT) = true /\
  is_regression (compare (demo_result 1000 0) (demo_result 1000 0) DEFAULT_DIFF_THRESHOLD_PERCENT) = false.
Proof.
  split; [reflexivity|].
  by apply (diff_verdict (demo_result 1000 0) (demo_result 1000 20) DEFAULT_DIFF_THRESHOLD_PERCENT).
Defined.
