(* ===== verification/Persistence.v ===== *)
(** * Saving files (src/src/persistence.rs)

    [write_with] against a file system: every system call may fail, and the
    disk after each one is recorded, so a crash at any point is one of the
    recorded disks.  Paths are opaque to the code apart from the parent
    directory; the temporary file's name comes from the tempfile crate. *)
From S2P Require Import Prelude Bytes Text Protocol.

Inductive error_kind := NotFound | NotADirectory | IsADirectory | PermissionDenied | ReadOnlyFilesystem
  | OtherKind (description : str).
#[export] Instance error_kind_eq_dec : EqDecision error_kind.
Proof. solve_decision. Defined.

(** An error of [cannot_save], of a dangling link, or a bare system error. *)
Inductive save_error :=
  | CannotSave (kind : error_kind) (path reason : str)
  | DanglingLink (path : str)
  | System (kind : error_kind).

Definition path := str.

(** ** The disk *)
Inductive node :=
  | Regular (content : list Z) (mode : Z) (writable : bool)
  | Directory (writable : bool)
  | Device
  | Symlink (target : path).
Notation disk := (gmap path node).

(** Following links, as the kernel bounds it; the path reached and its node. *)
Fixpoint follow (fuel : nat) (d : disk) (p : path) : option (path * node) :=
  match d !! p with
  | Some (Symlink q) => match fuel with O => None | S fuel => follow fuel d q end
  | Some n => Some (p, n)
  | None => None
  end.
Definition MAX_LINKS : nat := 40.
Definition lookup_path (d : disk) (p : path) : option (path * node) := follow MAX_LINKS d p.

(** ** System calls *)
Record sys := mkSys { fs : disk; faults : list (option error_kind); trace : list disk }.
Definition M (A : Type) : Type := sys -> result A save_error * sys.

Definition ret {A} (a : A) : M A := fun s => (Ok a, s).
Definition raise {A} (e : save_error) : M A := fun s => (Err e, s).
Definition bind {A B} (m : M A) (k : A -> M B) : M B := fun s =>
  match m s with (Ok a, s) => k a s | (Err e, s) => (Err e, s) end.
Notation "'let!' x := m 'in' k" := (bind m (fun x => k))
  (at level 200, x pattern, m at level 200, k at level 200) : xfr_scope.

(** [match call { Ok(a) => .., Err(kind) => .. }]: the call's own result. *)
Definition sys_call {A} (f : disk -> result A error_kind * disk) : M (result A error_kind) := fun s =>
  match faults s with
  | Some k :: rest => (Ok (Err k), mkSys (fs s) rest (trace s))
  | faults =>
    let '(r, d) := f (fs s) in (Ok r, mkSys d (tail faults) (trace s ++ [d]))
  end.
Definition on_err {A} (r : result A error_kind) (f : error_kind -> save_error) : M A :=
  match r with Ok a => ret a | Err k => raise (f k) end.

Definition metadata (p : path) : M (result node error_kind) :=
  sys_call (fun d => (match lookup_path d p with Some (_, n) => Ok n | None => Err NotFound end, d)).
Definition symlink_metadata (p : path) : M (result node error_kind) :=
  sys_call (fun d => (match d !! p with Some n => Ok n | None => Err NotFound end, d)).
Definition canonicalize (p : path) : M (result path error_kind) :=
  sys_call (fun d => (match lookup_path d p with Some (q, _) => Ok q | None => Err NotFound end, d)).

(** Opening for writing: the path of the open file. *)
Definition open_write (truncate : bool) (p : path) : M (result path error_kind) :=
  sys_call (fun d =>
    match lookup_path d p with
    | Some (q, Regular c m true) => (Ok q, if truncate then <[q := Regular [] m true]> d else d)
    | Some (_, Regular _ _ false) => (Err PermissionDenied, d)
    | Some (q, Device) => (Ok q, d)
    | Some (_, Directory _) => (Err IsADirectory, d)
    | _ => (Err NotFound, d)
    end).

(** A chunk of the buffered writer reaching the open file; a device takes it
    without the disk changing. *)
Definition append (q : path) (chunk : list Z) : M (result unit error_kind) :=
  sys_call (fun d =>
    match d !! q with
    | Some (Regular c m w) => (Ok tt, <[q := Regular (c ++ chunk) m w]> d)
    | _ => (Ok tt, d)
    end).
Definition set_permissions (q : path) (mode : Z) : M (result unit error_kind) :=
  sys_call (fun d =>
    match d !! q with
    | Some (Regular c _ w) => (Ok tt, <[q := Regular c mode w]> d)
    | _ => (Ok tt, d)
    end).
Definition nothing : M (result unit error_kind) := sys_call (fun d => (Ok tt, d)).

Definition cannot_save (p : path) (kind : error_kind) (subject : string) : save_error :=
  CannotSave kind p
    match kind with
    | NotFound => txt "directory does not exist"
    | NotADirectory => txt "parent is not a directory"
    | IsADirectory => txt "is a directory"
    | PermissionDenied => txt subject ++ txt " is not writable"
    | ReadOnlyFilesystem => txt "file system is read-only"
    | OtherKind description => description
    end.

(** ** Every disk a save goes through *)
Definition triple {A} (P : sys -> Prop) (m : M A) (Q : A -> sys -> Prop) (E : sys -> Prop) : Prop :=
  forall s, P s -> match m s with (Ok a, s') => Q a s' | (Err _, s') => E s' end.

Lemma triple_bind {A B} P (m : M A) Q E (k : A -> M B) R :
  triple P m Q E -> (forall a, triple (Q a) (k a) R E) -> triple P (bind m k) R E.
Proof.
  intros Hm Hk s Hs. unfold bind. specialize (Hm s Hs). destruct (m s) as [[a|e] s']; [|exact Hm].
  exact (Hk a s' Hm).
Qed.
Lemma triple_ret {A} (a : A) (P : sys -> Prop) (Q : A -> sys -> Prop) E :
  (forall s, P s -> Q a s) -> triple P (ret a) Q E.
Proof. intros H s Hs. by apply H. Qed.
Lemma triple_raise {A} e (P : sys -> Prop) (Q : A -> sys -> Prop) (E : sys -> Prop) :
  (forall s, P s -> E s) -> triple P (raise e) Q E.
Proof. intros H s Hs. by apply H. Qed.
Lemma triple_weaken {A} (P P' : sys -> Prop) (m : M A) (Q Q' : A -> sys -> Prop) (E E' : sys -> Prop) :
  triple P m Q E -> (forall s, P' s -> P s) -> (forall a s, Q a s -> Q' a s) -> (forall s, E s -> E' s) ->
  triple P' m Q' E'.
Proof.
  intros Hm HP HQ HE s Hs. specialize (Hm s (HP s Hs)). destruct (m s) as [[a|e] s']; [by apply HQ|by apply HE].
Qed.
Lemma triple_on_err {A} (r : result A error_kind) f (P : sys -> Prop) (Q : A -> sys -> Prop) (E : sys -> Prop) :
  (forall a s, r = Ok a -> P s -> Q a s) -> (forall k s, r = Err k -> P s -> E s) -> triple P (on_err r f) Q E.
Proof. intros H1 H2. destruct r as [a|k]; [apply triple_ret; intros s; by apply H1|]. apply triple_raise. intros s. by apply (H2 k). Qed.

Section save.
(** [path.parent()], [.] for a bare name, the temporary file's name and the
    permission bits the process masks on creation. *)
Context (parent_dir : path -> path) (temp_name : path) (umask : Z).
(** What the writer writes, as its buffer passes it to the system: the chunks,
    then perhaps an error of the caller. *)
Context (chunks : list (list Z)) (failure : option error_kind).

(** ** [inspect] *)
Inductive Destination := Special | File (mode : Z) | New.

Definition inspect (p : path) : M Destination :=
  let! m := metadata p in
  match m with
  | Ok (Directory _) => raise (cannot_save p IsADirectory "file")
  | Ok (Regular _ mode writable) =>
    (* readonly(): no write bit at all *)
    if Z.land mode 146 =? 0 then raise (cannot_save p PermissionDenied "file")
    else
      let! r := open_write false p in
      let! _ := on_err r (fun k => cannot_save p k "file") in
      ret (File mode)
  | Ok _ => ret Special
  | Err NotFound =>
    let! l := symlink_metadata p in
    match l with
    | Ok (Symlink _) => raise (DanglingLink p)
    | _ => ret New
    end
  | Err k => raise (cannot_save p k "directory")
  end.

(** [access(parent, W_OK | X_OK)]. *)
Definition access (dir : path) : M (result unit error_kind) :=
  sys_call (fun d =>
    (match lookup_path d dir with
     | Some (_, Directory true) => Ok tt
     | Some (_, Directory false) => Err PermissionDenied
     | Some _ => Err NotADirectory
     | None => Err NotFound
     end, d)).

Definition check_destination (p : path) : M unit :=
  let! dest := inspect p in
  match dest with
  | New =>
    let parent := parent_dir p in
    let! m := metadata parent in
    match m with
    | Ok (Directory _) =>
      let! a := access parent in on_err a (fun k => cannot_save p k "directory")
    | Ok _ => raise (cannot_save p NotADirectory "directory")
    | Err k => raise (cannot_save p k "directory")
    end
  | _ => ret tt
  end.

(** ** Writing *)

(** [write(&mut buffered)?; buffered.flush()?]. *)
Fixpoint write_chunks (q : path) (cs : list (list Z)) : M unit :=
  match cs with
  | [] => match failure with Some k => raise (System k) | None => ret tt end
  | c :: cs =>
    let! r := append q c in
    let! _ := on_err r System in
    write_chunks q cs
  end.

Definition write_in_place (p : path) : M unit :=
  let! r := open_write true p in
  let! q := on_err r (fun k => cannot_save p k "file") in
  write_chunks q chunks.

(** [tempfile_in]: a new file with the given permission bits. *)
Definition tempfile_in (dir : path) (mode : Z) : M (result unit error_kind) :=
  sys_call (fun d =>
    match lookup_path d dir with
    | Some (_, Directory true) => (Ok tt, <[temp_name := Regular [] (Z.land mode (wnot 9 umask)) true]> d)
    | Some (_, Directory false) => (Err PermissionDenied, d)
    | Some _ => (Err NotADirectory, d)
    | None => (Err NotFound, d)
    end).

(** Renaming the temporary file over the target. *)
Definition persist (target : path) : M (result unit error_kind) :=
  sys_call (fun d =>
    match d !! temp_name with
    | Some n => (Ok tt, <[target := n]> (delete temp_name d))
    | None => (Err NotFound, d)
    end).

(** Dropping the temporary file removes it; a failure is ignored. *)
Definition drop_temp {A} (m : M A) : M A := fun s =>
  match m s with
  | (Ok a, s) => (Ok a, s)
  | (Err e, s) =>
    let '(_, s) := sys_call (fun d => (Ok tt, delete temp_name d)) s in (Err e, s)
  end.

(** From the new temporary file to its name. *)
Definition fill_and_persist (p target : path) (permissions : option Z) : M unit :=
  let! _ := match permissions with
            | Some mode => let! r := set_permissions temp_name mode in on_err r System
            | None => ret tt
            end in
  let! _ := write_chunks temp_name chunks in
  let! r := nothing (* sync_all *) in
  let! _ := on_err r System in
  let! r := persist target in
  on_err r (fun k => cannot_save p k "directory").

Definition write_with (p : path) : M unit :=
  let! dest := inspect p in
  match dest with
  | Special => write_in_place p
  | _ =>
    let permissions := match dest with File mode => Some mode | _ => None end in
    let! l := symlink_metadata p in
    let! resolved :=
      match l with
      | Ok (Symlink _) => let! r := canonicalize p in let! q := on_err r System in ret (Some q)
      | Ok _ => ret None
      | Err NotFound => ret None
      | Err k => raise (System k)
      end in
    let target := match resolved with Some q => q | None => p end in
    let! t := tempfile_in (parent_dir target)
                (match permissions with Some mode => mode | None => 438 end) in
    match t, permissions with
    | Err PermissionDenied, Some _ => write_in_place target
    | Err k, _ => raise (cannot_save p k "directory")
    | Ok _, _ =>
      let! _ := drop_temp (fill_and_persist p target permissions) in
      let! _ := nothing (* the directory's sync, its error dropped *) in
      ret tt
    end
  end.

(** What holds of the disk, while the disks gone through are all good.  A call
    may fail for any reason, except that the disk alone says what exists;
    [denied]: whether one is refused permission. *)
Context (denied : Prop).
Definition possible (f : option error_kind) : Prop :=
  f <> Some NotFound /\ (f = Some PermissionDenied -> denied).
Definition tracked (good P : disk -> Prop) (s : sys) : Prop :=
  P (fs s) /\ Forall good (trace s) /\ Forall possible (faults s).

Lemma triple_call {A} (f : disk -> result A error_kind * disk) (good P : disk -> Prop)
    (Q : result A error_kind -> disk -> Prop) (E : sys -> Prop) :
  (forall d k, P d -> possible (Some k) -> Q (Err k) d) ->
  (forall d, P d -> Q (fst (f d)) (snd (f d)) /\ good (snd (f d))) ->
  triple (tracked good P) (sys_call f) (fun r => tracked good (Q r)) E.
Proof.
  intros He Hf s (Hp & Hg & Hn). unfold sys_call.
  assert (H : tracked good (Q (fst (f (fs s)))) (mkSys (snd (f (fs s))) (tail (faults s)) (trace s ++ [snd (f (fs s))]))).
  { destruct (Hf _ Hp). split; [done|]. split; [apply Forall_app; by repeat constructor|].
    by destruct Hn; [constructor|]. }
  destruct (f (fs s)) as [r d]. destruct (faults s) as [|[k|] rest] eqn:E'; [done| |done].
  cbn. apply Forall_cons in Hn as [Hk Hn]. split; [|by split]. by apply He.
Qed.

(** ** Replacing a regular file *)
Section replace.
Context (d : disk) (p t : path) (old : list Z) (mode : Z) (w : bool) (home : path) (wd : bool).
Context (Hp : lookup_path d p = Some (t, Regular old mode w)) (Ht : temp_name <> t) (Hf : d !! temp_name = None)
        (Hd : lookup_path d (parent_dir t) = Some (home, Directory wd)).

Definition holding (c : list Z) (m : option Z) (d' : disk) : Prop :=
  exists m', (match m with Some m => m' = m | None => True end) /\ d' = <[temp_name := Regular c m' true]> d.
Definition replaced (d' : disk) : Prop :=
  failure = None /\ d' = <[t := Regular (concat chunks) mode true]> d.
Definition untouched (d' : disk) : Prop := forall q, q <> temp_name -> d' !! q = d !! q.

Lemma holding_untouched c m d' : holding c m d' -> untouched d'.
Proof. intros (m' & _ & ->) q Hq. by rewrite lookup_insert_ne. Qed.

Lemma follow_target fuel q r n : follow fuel d q = Some (r, n) -> d !! r = Some n.
Proof.
  revert q. induction fuel as [|fuel IH]; intros q; cbn; destruct (d !! q) as [[| | |q']|] eqn:E; try done;
    try (by intros [= <- <-]). apply IH.
Qed.
Lemma target_old : d !! t = Some (Regular old mode w).
Proof. exact (follow_target _ _ _ _ Hp). Qed.
Lemma follow_direct fuel q : match d !! q with Some (Symlink _) => False | _ => True end ->
  follow fuel d q = option_map (fun n => (q, n)) (d !! q).
Proof. intros H. destruct fuel; cbn; destruct (d !! q) as [[| | |q']|]; done. Qed.

(** Every disk an atomic save goes through: the old contents or all the new
    ones, and nothing else changed but the temporary file. *)
Definition old_or_new (d' : disk) : Prop :=
  (d' !! t = Some (Regular old mode w) \/ d' !! t = Some (Regular (concat chunks) mode true)) /\
  forall q, q <> t -> q <> temp_name -> d' !! q = d !! q.
Lemma good_untouched d' : untouched d' -> old_or_new d'.
Proof. intros H. split; [left; by rewrite H, target_old|intros q _ Hq; by apply H]. Qed.
Lemma good_replaced d' : replaced d' -> old_or_new d'.
Proof.
  intros [_ ->]. split; [right; apply lookup_insert_eq|]. intros q Hq _. by rewrite lookup_insert_ne.
Qed.

Notation good := old_or_new.
Definition failed (s : sys) : Prop := Forall good (trace s) /\ untouched (fs s).
Lemma tracked_failed (P : disk -> Prop) s : (forall d', P d' -> untouched d') -> tracked good P s -> failed s.
Proof. intros H (? & ? & _). split; [done|by apply H]. Qed.

Lemma untouched_same : untouched d.
Proof. by intros q _. Qed.
Lemma good_holding c m d' : holding c m d' -> good d'.
Proof. intros H. apply good_untouched. by apply (holding_untouched c m). Qed.

Lemma append_triple c0 m c :
  triple (tracked good (holding c0 m)) (append temp_name c)
    (fun r => tracked good (fun d' => match r with Ok _ => holding (c0 ++ c) m d' | Err _ => holding c0 m d' end)) failed.
Proof.
  apply triple_call; [by intros|]. intros d' (m' & Hm & ->). cbv beta. rewrite lookup_insert_eq. cbn [fst snd].
  assert (H : holding (c0 ++ c) m (<[temp_name:=Regular (c0 ++ c) m' true]> (<[temp_name:=Regular c0 m' true]> d)))
    by (exists m'; split; [done|apply insert_insert_eq]).
  split; [exact H|]. exact (good_holding _ _ _ H).
Qed.

Lemma write_chunks_triple cs c0 m :
  triple (tracked good (holding c0 m)) (write_chunks temp_name cs)
    (fun _ s => failure = None /\ tracked good (holding (c0 ++ concat cs) m) s) failed.
Proof.
  revert c0. induction cs as [|c cs IH]; intros c0; cbn [write_chunks concat].
  - rewrite app_nil_r. destruct failure; [|by apply triple_ret].
    apply triple_raise. intros s. apply tracked_failed, holding_untouched.
  - eapply triple_bind; [apply append_triple|]. intros r.
    apply (triple_bind _ _ (fun _ => tracked good (holding (c0 ++ c) m))); [|intros _; rewrite app_assoc; apply IH].
    apply triple_on_err; [intros a s E H; rewrite E in H; exact H|].
    intros k s _. apply tracked_failed. intros d'. destruct r; apply holding_untouched.
Qed.

Lemma fill_triple :
  triple (tracked good (holding [] None)) (fill_and_persist p t (Some mode)) (fun _ => tracked good replaced) failed.
Proof.
  unfold fill_and_persist.
  apply (triple_bind _ _ (fun _ => tracked good (holding [] (Some mode)))).
  - eapply (triple_bind _ _ (fun r => tracked good (fun d' => match r with Ok _ => holding [] (Some mode) d' | Err _ => holding [] None d' end))).
    + apply triple_call; [by intros|]. intros d' (m' & _ & ->). cbv beta. rewrite lookup_insert_eq. cbn [fst snd].
      assert (H : holding [] (Some mode) (<[temp_name:=Regular [] mode true]> (<[temp_name:=Regular [] m' true]> d)))
        by (exists mode; split; [done|apply insert_insert_eq]).
      split; [exact H|exact (good_holding _ _ _ H)].
    + intros r. apply triple_on_err; [intros a s E; by rewrite E|]. intros k s _. apply tracked_failed.
      intros d'. destruct r; apply holding_untouched.
  - intros _. eapply triple_bind; [apply (write_chunks_triple chunks [])|].
    intros _ s0 [Hfail Hs0]. revert s0 Hs0. cbn [app].
    apply (triple_bind _ _ (fun _ => tracked good (holding (concat chunks) (Some mode)))).
    { apply triple_call; [by intros|]. intros d' H. split; [exact H|exact (good_holding _ _ _ H)]. }
    intros r. apply (triple_bind _ _ (fun _ => tracked good (holding (concat chunks) (Some mode)))).
    { apply triple_on_err; [intros a s _ H; exact H|]. intros k s _. apply tracked_failed, holding_untouched. }
    intros _. apply (triple_bind _ _ (fun r => tracked good (fun d' => match r with Ok _ => replaced d' | Err _ => untouched d' end))).
    + apply triple_call; [intros d' k H _; exact (holding_untouched _ _ _ H)|].
      intros d' (m' & -> & ->). cbv beta. rewrite lookup_insert_eq. cbn [fst snd].
      assert (H : replaced (<[t:=Regular (concat chunks) mode true]> (delete temp_name (<[temp_name:=Regular (concat chunks) mode true]> d)))).
      { split; [done|]. by rewrite delete_insert_eq, delete_id. }
      split; [exact H|]. by apply good_replaced.
    + intros x. apply triple_on_err.
      * intros a s E. by rewrite E.
      * intros k s E. rewrite E. by apply tracked_failed.
Qed.

Lemma drop_temp_triple (m : M unit) (P Q : sys -> Prop) :
  triple P m (fun _ => Q) failed -> triple P (drop_temp m) (fun _ => Q) failed.
Proof.
  intros Hm s Hs. specialize (Hm s Hs). unfold drop_temp. destruct (m s) as [[[]|e] s']; [done|].
  destruct Hm as [Hg Hu]. unfold sys_call.
  assert (H : untouched (delete temp_name (fs s'))) by (intros q Hq; rewrite lookup_delete_ne by done; by apply Hu).
  assert (Hg' : failed (mkSys (delete temp_name (fs s')) (tail (faults s')) (trace s' ++ [delete temp_name (fs s')]))).
  { split; [|exact H]. apply Forall_app. split; [done|]. constructor; [by apply good_untouched|constructor]. }
  destruct (faults s') as [|[k|] rest]; [exact Hg'|by split|exact Hg'].
Qed.

(** *** In place *)
(** The disks of a save in place: the old contents, then a growing beginning of
    the new ones; there is no temporary file. *)
Definition partly (d' : disk) : Prop :=
  d' = d \/ exists c rest, concat chunks = c ++ rest /\ d' = <[t := Regular c mode true]> d.
Definition written (c : list Z) (d' : disk) : Prop := d' = <[t := Regular c mode true]> d.
Definition torn (s : sys) : Prop := Forall partly (trace s) /\ partly (fs s).

Lemma partly_written c rest d' : concat chunks = c ++ rest -> written c d' -> partly d'.
Proof. intros H Hw. right. by exists c, rest. Qed.

Lemma append_in_place c0 c rest :
  concat chunks = c0 ++ c ++ rest ->
  triple (tracked partly (written c0)) (append t c)
    (fun r => tracked partly (written (match r with Ok _ => c0 ++ c | Err _ => c0 end))) torn.
Proof.
  intros Hc. apply triple_call; [by intros|]. intros d' Hw. unfold written in Hw. subst d'.
  cbv beta. rewrite lookup_insert_eq. cbn [fst snd].
  assert (H : written (c0 ++ c) (<[t:=Regular (c0 ++ c) mode true]> (<[t:=Regular c0 mode true]> d)))
    by apply insert_insert_eq.
  split; [exact H|]. apply (partly_written (c0 ++ c) rest); [by rewrite <- app_assoc|exact H].
Qed.

Lemma write_chunks_in_place cs c0 :
  concat chunks = c0 ++ concat cs ->
  triple (tracked partly (written c0)) (write_chunks t cs)
    (fun _ s => failure = None /\ tracked partly (written (concat chunks)) s) torn.
Proof.
  assert (Htorn : forall c rest s, concat chunks = c ++ rest -> tracked partly (written c) s -> torn s).
  { intros c rest s Hc (H & Hg & _). split; [done|by apply (partly_written c rest)]. }
  revert c0. induction cs as [|c cs IH]; intros c0 Hc; cbn [write_chunks concat] in *.
  - rewrite app_nil_r in Hc. rewrite Hc. destruct failure; [|by apply triple_ret].
    apply triple_raise. intros s. apply (Htorn c0 []). by rewrite app_nil_r.
  - eapply triple_bind; [by apply (append_in_place c0 c (concat cs))|]. intros r.
    apply (triple_bind _ _ (fun _ => tracked partly (written (c0 ++ c)))); [|intros _; apply IH; by rewrite <- app_assoc].
    apply triple_on_err; [intros a s E H; rewrite E in H; exact H|].
    intros k s E H. rewrite E in H. by apply (Htorn c0 (c ++ concat cs)).
Qed.

(** *** Before anything is written *)
Notation steady := (tracked (eq d) (eq d)).
Definition halted (s : sys) : Prop := Forall (eq d) (trace s) /\ d = fs s.
Lemma steady_halted s : steady s -> halted s.
Proof. by intros (H & Hg & _). Qed.

Lemma call_triple {A} (f : disk -> result A error_kind * disk) (r : result A error_kind) :
  f d = (r, d) ->
  triple steady (sys_call f)
    (fun r' => tracked (eq d) (fun d' => d = d' /\ (r' = r \/ exists k, r' = Err k /\ possible (Some k)))) halted.
Proof.
  intros E. apply triple_call.
  - intros d' k <- Hk. split; [done|]. right. by exists k.
  - intros d' <-. rewrite E. split; [by split; [|left]|done].
Qed.
Lemma call_bind {A B : Type} (f : disk -> result A error_kind * disk) (r : result A error_kind)
    (k : result A error_kind -> M B) (Q : B -> sys -> Prop) :
  f d = (r, d) ->
  triple steady (k r) Q halted ->
  (forall e, possible (Some e) -> triple steady (k (Err e)) Q halted) ->
  triple steady (bind (sys_call f) k) Q halted.
Proof.
  intros E Hr He. eapply triple_bind; [by apply call_triple|]. intros r' s (H & Hg & Hn).
  destruct H as [H [->|(e & -> & Hs)]]; [by apply Hr|by apply He].
Qed.
Lemma raise_same {A} e (Q : A -> sys -> Prop) : triple steady (raise e) Q halted.
Proof. apply triple_raise. intros s. apply steady_halted. Qed.

(** A file that may be inspected is a file that may be written. *)
Lemma inspect_triple :
  triple steady (inspect p) (fun a s => a = File mode /\ w = true /\ steady s) halted.
Proof.
  assert (Hr : forall e, triple steady (let! _ := on_err (@Err path error_kind e) (fun k => cannot_save p k "file") in ret (File mode))
                 (fun a s => a = File mode /\ w = true /\ steady s) halted).
  { intros e. cbn [on_err]. apply (triple_bind _ _ (fun _ _ => False)); [apply raise_same|by intros x s []]. }
  unfold inspect. apply (call_bind _ (Ok (Regular old mode w))); [by rewrite Hp|..].
  - destruct (_ =? 0); [apply raise_same|].
    apply (call_bind _ (if w then Ok t else Err PermissionDenied)); [rewrite Hp; by destruct w|..].
    + destruct w; [intros s Hs; by split|apply Hr].
    + intros e _. apply Hr.
  - intros [] [He1 He2]; try done; apply raise_same.
Qed.

(** *** The two ways *)
(** The directory refuses the temporary file. *)
Definition refused : Prop := wd = false \/ denied.
Definition saved (s : sys) : Prop :=
  tracked good replaced s \/
  refused /\ Forall partly (trace s) /\ failure = None /\ written (concat chunks) (fs s).
Definition not_saved (s : sys) : Prop := failed s \/ refused /\ torn s.

Lemma halted_not_saved s : halted s -> not_saved s.
Proof.
  intros [Hg Hs]. left. split; [|rewrite <- Hs; apply untouched_same]. eapply Forall_impl; [exact Hg|].
  intros d' <-. apply good_untouched, untouched_same.
Qed.

Lemma tempfile_triple m :
  triple steady (tempfile_in (parent_dir t) m)
    (fun x s => match x with
                | Ok _ => tracked good (holding [] None) s
                | Err k => steady s /\ (k = PermissionDenied -> refused)
                end) not_saved.
Proof.
  intros s (H & Hg & Hn). unfold tempfile_in.
  match goal with |- context [sys_call ?g] => set (f := g) end.
  assert (Hgood : Forall good (trace s)).
  { eapply Forall_impl; [exact Hg|]. intros d' <-. apply good_untouched, untouched_same. }
  assert (Hrest : Forall possible (tail (faults s))) by (by destruct Hn; [constructor|]).
  assert (Hdo : match f (fs s) with
    | (Ok _, d') => tracked good (holding [] None) (mkSys d' (tail (faults s)) (trace s ++ [d']))
    | (Err k, d') => steady (mkSys d' (tail (faults s)) (trace s ++ [d'])) /\ (k = PermissionDenied -> refused)
    end).
  { unfold f. rewrite <- H, Hd. destruct wd eqn:Ew.
    - assert (Hh : holding [] None (<[temp_name := Regular [] (Z.land m (wnot 9 umask)) true]> d)) by by eexists.
      split; [exact Hh|]. split; [|done]. apply Forall_app. split; [done|].
      constructor; [by apply (good_holding [] None)|constructor].
    - split; [|by left]. split; [done|]. split; [apply Forall_app; by repeat constructor|done]. }
  clearbody f. unfold sys_call. destruct (faults s) as [|[k|] rest].
  - by destruct (f (fs s)) as [[[]|k] d'].
  - apply Forall_cons in Hn as [[_ Hk] Hn]. split; [by split|]. intros ->. right. by apply Hk.
  - by destruct (f (fs s)) as [[[]|k] d'].
Qed.

Lemma write_in_place_triple :
  w = true -> refused -> triple steady (write_in_place t) (fun _ => saved) not_saved.
Proof.
  intros Hw Hr. pose proof target_old as Hold. unfold write_in_place.
  assert (Hlook : lookup_path d t = Some (t, Regular old mode w))
    by (unfold lookup_path; rewrite follow_direct; by rewrite Hold).
  apply (triple_bind _ _ (fun r => tracked partly (match r with
    | Ok q => fun d' => q = t /\ written [] d' | Err _ => eq d end))).
  - intros s (H & Hg & Hn). apply (triple_call _ partly (eq d)).
    + by intros.
    + intros d' <-. rewrite Hlook, Hw. cbn [fst snd]. split; [by split|].
      right. by exists [], (concat chunks).
    + split; [done|]. split; [|done]. eapply Forall_impl; [exact Hg|]. intros d' <-. by left.
  - intros r. apply (triple_bind _ _ (fun q s => q = t /\ tracked partly (written []) s)).
    + apply triple_on_err; intros a s -> (H & Hg & Hn).
      * destruct H as [-> H]. by split.
      * right. split; [done|]. split; [done|]. left. by rewrite H.
    + intros q s [-> Hs]. revert s Hs. eapply triple_weaken; [by apply (write_chunks_in_place chunks [])|done|..].
      * intros a s (Hfail & H & Hg & _). right. by split_and!.
      * intros s H. by right.
Qed.

(** From the resolved target on. *)
Lemma target_triple :
  w = true ->
  triple steady
    (let! x := tempfile_in (parent_dir t) mode in
     match x, Some mode with
     | Err PermissionDenied, Some _ => write_in_place t
     | Err k, _ => raise (cannot_save p k "directory")
     | Ok _, _ =>
       let! _ := drop_temp (fill_and_persist p t (Some mode)) in
       let! _ := nothing in
       ret tt
     end) (fun _ => saved) not_saved.
Proof.
  intros Hw. eapply triple_bind; [apply tempfile_triple|]. intros [[]|k].
  - eapply (triple_weaken _ _ _ (fun _ => tracked good replaced) _ failed).
    + apply (triple_bind _ _ (fun _ => tracked good replaced)); [apply drop_temp_triple, fill_triple|].
      intros _. apply (triple_bind _ _ (fun _ => tracked good replaced)); [|intros _; by apply triple_ret].
      apply triple_call; [done|]. intros d' H. split; [exact H|]. by apply good_replaced.
    + done.
    + intros a s H. by left.
    + intros s H. by left.
  - intros s [Hs Hk]. destruct k; try (by apply halted_not_saved, steady_halted).
    by apply write_in_place_triple; [|apply Hk|].
Qed.

Lemma write_with_triple : triple steady (write_with p) (fun _ => saved) not_saved.
Proof.
  assert (Hweak : forall A (m : M A) Q, triple steady m Q halted -> triple steady m Q not_saved).
  { intros A m Q H. eapply triple_weaken; [exact H|done|done|]. intros s. apply halted_not_saved. }
  unfold write_with. eapply triple_bind; [apply Hweak, inspect_triple|].
  intros a s (-> & Hw & Hs). revert s Hs. cbv zeta.
  destruct (d !! p) as [n|] eqn:Ep.
  2: { exfalso. unfold lookup_path in Hp. cbn in Hp. by rewrite Ep in Hp. }
  assert (Hn : (exists q, n = Symlink q) \/ p = t /\ forall q, n <> Symlink q).
  { unfold lookup_path in Hp. destruct n as [| | |q]; [..|left; by exists q]; right;
      (rewrite follow_direct in Hp by (by rewrite Ep)); rewrite Ep in Hp; by injection Hp as <-. }
  apply (triple_bind _ _ (fun l s => steady s /\ (l = Ok n \/ exists e, l = Err e /\ possible (Some e)))).
  { apply Hweak. eapply triple_weaken; [apply (call_triple _ (Ok n)); by rewrite Ep|done| |done].
    by intros l s ((H & Hl) & Hg & Hf'). }
  intros l s [Hs Hl]. revert s Hs.
  apply (triple_bind _ _ (fun r s => match r with Some q => q | None => p end = t /\ steady s));
    [|intros r s [-> Hs]; by apply target_triple].
  apply Hweak. destruct Hl as [->|(e & -> & He)].
  - destruct Hn as [[q ->]|[<- Hn]].
    + apply (call_bind _ (Ok t)); [by rewrite Hp|..].
      * intros s Hs. by split.
      * intros e He. apply (triple_bind _ _ (fun _ _ => False)); [apply raise_same|by intros x s []].
    + destruct n; try (by destruct (Hn target)); intros s Hs; by split.
  - destruct e; try apply raise_same. by destruct He.
Qed.
End replace.
End save.

(** C31. Saving over an existing file is atomic unless the directory refuses a
    temporary file, and then it is in place.  Calls may fail for any reason and
    the program may be killed anywhere, as long as a file that exists is not
    reported missing.  Either every disk gone through holds at the file's place
    the old contents or all of the new ones, with the permission bits of the old
    file, and no other file has changed but the temporary one; success means the
    new contents are in place, an error means nothing changed.  Or permission
    was denied -- the directory is not writable, or a call failed with that --
    and every disk gone through is the old one, or has in the file's place a
    beginning of the new contents, with the old permission bits and no temporary
    file; success means all of them are in place. *)
Theorem save_is_atomic (parent_dir : path -> path) (temp_name : path) (umask : Z)
    (chunks : list (list Z)) (failure : option error_kind) (d : disk)
    (faults : list (option error_kind)) (p t home : path) (old : list Z) (mode : Z) (w wd : bool) :
  lookup_path d p = Some (t, Regular old mode w) -> d !! temp_name = None ->
  lookup_path d (parent_dir t) = Some (home, Directory wd) -> Forall (fun f => f <> Some NotFound) faults ->
  let '(r, s) := write_with parent_dir temp_name umask chunks failure p (mkSys d faults []) in
  (Forall (fun d' => (d' !! t = Some (Regular old mode w) \/ d' !! t = Some (Regular (concat chunks) mode true)) /\
                     forall q, q <> t -> q <> temp_name -> d' !! q = d !! q) (trace s) /\
   match r with
   | Ok _ => failure = None /\ fs s = <[t := Regular (concat chunks) mode true]> d
   | Err _ => forall q, q <> temp_name -> fs s !! q = d !! q
   end) \/
  ((wd = false \/ Some PermissionDenied ∈ faults) /\
   Forall (fun d' => d' = d \/ exists c rest, concat chunks = c ++ rest /\ d' = <[t := Regular c mode true]> d)
     (trace s ++ [fs s]) /\
   (is_ok r = true -> failure = None /\ fs s = <[t := Regular (concat chunks) mode true]> d)).
Proof.
  intros Hp Hf Hd Hs. pose proof (target_old d p t old mode w Hp) as Ht.
  assert (Hn : temp_name <> t) by (intros ->; congruence).
  pose proof (write_with_triple parent_dir temp_name umask chunks failure (Some PermissionDenied ∈ faults)
    d p t old mode w home wd Hp Hn Hf Hd (mkSys d faults [])) as H.
  assert (Hstart : tracked (Some PermissionDenied ∈ faults) (eq d) (eq d) (mkSys d faults [])).
  { split; [done|]. split; [constructor|]. cbn [Persistence.faults]. apply Forall_forall.
    intros f Hin. rewrite Forall_forall in Hs. split; [by apply Hs|]. by intros <-. }
  specialize (H Hstart). destruct (write_with _ _ _ _ _ p _) as [[[]|e] s]; unfold saved, not_saved, torn in H.
  - destruct H as [(H1 & H2 & _)|(Hr & Hg & Hfail & Hw)]; [by left|]. right.
    split; [done|]. split; [|done]. apply Forall_app. split; [exact Hg|]. constructor; [|constructor].
    right. exists (concat chunks), []. by rewrite app_nil_r.
  - destruct H as [[H1 H2]|(Hr & Hg & Hw)]; [by left|]. right.
    split; [done|]. split; [|done]. apply Forall_app. split; [exact Hg|]. by constructor.
Qed.

(** ** The check before a long test *)
Section agree.
Context (parent_dir : path -> path) (temp_name : path) (umask : Z) (chunks : list (list Z)).

Lemma call_run {A B : Type} (f : disk -> result A error_kind * disk) (k : result A error_kind -> M B) d tr :
  bind (sys_call f) k (mkSys d [] tr) = k (fst (f d)) (mkSys (snd (f d)) [] (tr ++ [snd (f d)])).
Proof. unfold bind, sys_call. cbn [faults fs trace]. by destruct (f d). Qed.

Lemma bind_case {A B : Type} (m : M A) (k : A -> M B) s r s' :
  m s = (r, s') -> bind m k s = match r with Ok a => k a s' | Err e => (Err e, s') end.
Proof. intros E. unfold bind. by rewrite E. Qed.

Lemma write_chunks_ok q cs d tr c m w :
  d !! q = Some (Regular c m w) ->
  exists tr', write_chunks None q cs (mkSys d [] tr)
              = (Ok tt, mkSys (<[q := Regular (c ++ concat cs) m w]> d) [] tr').
Proof.
  revert d tr c. induction cs as [|x cs IH]; intros d tr c Hq; cbn [write_chunks concat].
  - rewrite app_nil_r, insert_id by done. by eexists.
  - unfold append. rewrite call_run. rewrite Hq. cbn [fst snd on_err].
    destruct (IH (<[q:=Regular (c ++ x) m w]> d) (tr ++ [<[q:=Regular (c ++ x) m w]> d]) (c ++ x)) as [tr' E];
      [by rewrite lookup_insert_eq|].
    exists tr'. cbn. rewrite E. by rewrite insert_insert_eq, app_assoc.
Qed.
Lemma write_chunks_device q cs d tr :
  match d !! q with Some (Regular _ _ _) => False | _ => True end ->
  exists tr', write_chunks None q cs (mkSys d [] tr) = (Ok tt, mkSys d [] tr').
Proof.
  intros Hq. revert tr. induction cs as [|x cs IH]; intros tr; cbn [write_chunks]; [by eexists|].
  unfold append. rewrite call_run. destruct (d !! q) as [[]|]; try done; destruct (IH (tr ++ [d])) as [tr' E]; exists tr'; exact E.
Qed.

Lemma write_in_place_ok d tr p q n :
  lookup_path d p = Some (q, n) -> match n with Regular _ _ w => w = true | Device => True | _ => False end ->
  exists s, write_in_place chunks None p (mkSys d [] tr) = (Ok tt, s).
Proof.
  intros Hp Hn. pose proof (follow_target d _ _ _ _ Hp) as Hq. unfold write_in_place, open_write.
  rewrite call_run, Hp. destruct n as [c m []|w| |t]; try done; cbn [fst snd on_err].
  - destruct (write_chunks_ok q chunks (<[q:=Regular [] m true]> d) (tr ++ [<[q:=Regular [] m true]> d]) [] m true)
      as [tr' E]; [by rewrite lookup_insert_eq|]. eexists. exact E.
  - destruct (write_chunks_device q chunks d (tr ++ [d])) as [tr' E]; [by rewrite Hq|]. eexists. exact E.
Qed.

Lemma fill_and_persist_ok d tr p target permissions m :
  d !! temp_name = Some (Regular [] m true) ->
  exists d' tr', fill_and_persist temp_name chunks None p target permissions (mkSys d [] tr) = (Ok tt, mkSys d' [] tr').
Proof.
  intros Ht. unfold fill_and_persist.
  assert (H : exists d1 tr1 m1,
    (match permissions with
     | Some mode => let! r := set_permissions temp_name mode in on_err r System
     | None => ret tt end) (mkSys d [] tr) = (Ok tt, mkSys d1 [] tr1) /\ d1 !! temp_name = Some (Regular [] m1 true)).
  { destruct permissions as [mode|]; [|by exists d, tr, m].
    exists (<[temp_name:=Regular [] mode true]> d), (tr ++ [<[temp_name:=Regular [] mode true]> d]), mode.
    unfold set_permissions. rewrite call_run, Ht. cbn. split; [done|apply lookup_insert_eq]. }
  destruct H as (d1 & tr1 & m1 & E & H1). unfold bind at 1. rewrite E.
  destruct (write_chunks_ok temp_name chunks d1 tr1 [] m1 true H1) as [tr2 E2]. unfold bind at 1. rewrite E2.
  unfold nothing. rewrite call_run. cbn [fst snd on_err]. unfold bind at 1, ret. unfold persist. rewrite call_run.
  rewrite lookup_insert_eq. cbn [fst snd on_err]. unfold ret. by eexists _, _.
Qed.

(** The result of saving from the resolved target on. *)
Lemma target_runs d tr p target permissions :
  fst ((let! x := tempfile_in temp_name umask (parent_dir target)
                    (match permissions with Some mode => mode | None => 438 end) in
        match x, permissions with
        | Err PermissionDenied, Some _ => write_in_place chunks None target
        | Err k, _ => raise (cannot_save p k "directory")
        | Ok _, _ =>
          let! _ := drop_temp temp_name (fill_and_persist temp_name chunks None p target permissions) in
          let! _ := nothing in
          ret tt
        end) (mkSys d [] tr))
  = match lookup_path d (parent_dir target) with
    | Some (_, Directory true) => Ok tt
    | Some (_, Directory false) =>
      match permissions with
      | Some _ => fst (write_in_place chunks None target (mkSys d [] (tr ++ [d])))
      | None => Err (cannot_save p PermissionDenied "directory")
      end
    | Some _ => Err (cannot_save p NotADirectory "directory")
    | None => Err (cannot_save p NotFound "directory")
    end.
Proof.
  unfold tempfile_in. rewrite call_run.
  destruct (lookup_path d (parent_dir target)) as [[r [c m w|[]| |q]]|]; cbn [fst snd]; try done;
    [|by destruct permissions].
  unfold bind at 1, drop_temp.
  edestruct fill_and_persist_ok as (d' & tr' & E); [by apply lookup_insert_eq|]. rewrite E.
  unfold nothing. by rewrite call_run.
Qed.

Definition inspect_result (d : disk) (p : path) : result Destination save_error :=
  match lookup_path d p with
  | Some (_, Directory _) => Err (cannot_save p IsADirectory "file")
  | Some (_, Regular _ mode w) =>
    if (Z.land mode 146 =? 0) || negb w then Err (cannot_save p PermissionDenied "file") else Ok (File mode)
  | Some _ => Ok Special
  | None => match d !! p with Some (Symlink _) => Err (DanglingLink p) | _ => Ok New end
  end.
Lemma inspect_runs d tr p : exists tr', inspect p (mkSys d [] tr) = (inspect_result d p, mkSys d [] tr').
Proof.
  unfold inspect, metadata, inspect_result. rewrite call_run.
  destruct (lookup_path d p) as [[q [c m w|b| |x]]|] eqn:Ep; cbn [fst snd]; try by eexists.
  - destruct (Z.land m 146 =? 0); [by eexists|]. unfold open_write. rewrite call_run, Ep.
    destruct w; cbn [fst snd negb orb]; by eexists.
  - unfold symlink_metadata. rewrite call_run. destruct (d !! p) as [[]|]; by eexists.
Qed.
End agree.

Lemma follow_no_link fuel d q r x : follow fuel d q = Some (r, Symlink x) -> False.
Proof.
  revert q. induction fuel as [|fuel IH]; intros q; cbn; destruct (d !! q) as [[| | |q']|]; try done. apply IH.
Qed.

(** The directory of every file exists. *)
Definition sane (parent_dir : path -> path) (d : disk) : Prop :=
  forall p t c m w, lookup_path d p = Some (t, Regular c m w) ->
    exists home b, lookup_path d (parent_dir t) = Some (home, Directory b).

(** The check made before a long test promises exactly what the save will do:
    on a disk that then works, it accepts a destination when, and only when,
    saving there succeeds, reports the same error otherwise, and changes
    nothing. *)
Theorem check_matches_save (parent_dir : path -> path) (temp_name : path) (umask : Z)
    (chunks : list (list Z)) (d : disk) (p : path) :
  sane parent_dir d ->
  let '(checked, s) := check_destination parent_dir p (mkSys d [] []) in
  checked = fst (write_with parent_dir temp_name umask chunks None p (mkSys d [] [])) /\ fs s = d.
Proof.
  intros Hsane. unfold check_destination, write_with. destruct (inspect_runs d [] p) as [tr E0].
  rewrite (bind_case _ _ _ _ _ E0), (bind_case _ _ _ _ _ E0). clear E0. unfold inspect_result.
  destruct (lookup_path d p) as [[q [c m w|b| |x]]|] eqn:Ep; [| by split | | | ].
  - destruct (_ || negb w) eqn:Ew; [by split|]. apply orb_false_iff in Ew as [_ ->%negb_false_iff].
    unfold ret at 1. split; [|done]. destruct (Hsane p q c m true Ep) as (home & b & Hh).
    unfold symlink_metadata. rewrite call_run. pose proof (follow_target d _ _ _ _ Ep) as Hq.
    assert (Hd : lookup_path d q = Some (q, Regular c m true))
      by (unfold lookup_path; rewrite follow_direct; by rewrite Hq).
    assert (Hp : (exists x, d !! p = Some (Symlink x)) \/ p = q /\ d !! p = Some (Regular c m true)).
    { unfold lookup_path in Ep. destruct (d !! p) as [[| | |x]|] eqn:E; [..|left; by exists x|];
        try (rewrite follow_direct in Ep by (by rewrite E); rewrite E in Ep; cbn in Ep; try done).
      - right. by injection Ep as -> -> -> ->. }
    assert (Hend : forall tr0, fst (write_in_place chunks None q (mkSys d [] tr0)) = Ok tt).
    { intros tr0. destruct (write_in_place_ok chunks d tr0 q q (Regular c m true) Hd eq_refl) as [s' ->]. done. }
    destruct Hp as [[x Hx]|[<- Hx]]; rewrite Hx; cbn [fst snd].
    + erewrite (bind_case _ _ _ (Ok (Some q))) by (unfold canonicalize; rewrite call_run, Ep; reflexivity).
      rewrite (target_runs parent_dir temp_name umask chunks d _ p q (Some m)). rewrite Hh.
      destruct b; [done|]. by rewrite Hend.
    + erewrite (bind_case _ _ _ (Ok None)) by reflexivity.
      rewrite (target_runs parent_dir temp_name umask chunks d _ p p (Some m)). rewrite Hh.
      destruct b; [done|]. by rewrite Hend.
  - unfold ret at 1. split; [|done].
    destruct (write_in_place_ok chunks d tr p q Device Ep I) as [s' ->]. done.
  - by destruct (follow_no_link _ _ _ _ _ Ep).
  - destruct (d !! p) as [[]|] eqn:E; try (by split);
      try (unfold lookup_path in Ep; rewrite follow_direct in Ep by (by rewrite E); by rewrite E in Ep).
    unfold metadata at 1. rewrite call_run. unfold symlink_metadata. rewrite call_run, E. cbn [fst snd].
    erewrite (bind_case _ _ _ (Ok None)) by reflexivity.
    rewrite (target_runs parent_dir temp_name umask chunks d _ p p None).
    destruct (lookup_path d (parent_dir p)) as [[r [| b | |]]|] eqn:Er; try (by split).
    unfold access. rewrite call_run, Er. by destruct b; split.
Qed.

(** ** A concrete disk *)
Definition demo_disk : disk := {[ txt "r.json" := Regular [1; 2] 420 true; txt "." := Directory true ]}.
Definition demo_parent (_ : path) : path := txt ".".

(** In a directory that is not writable the file is emptied and written in
    place. *)
Definition locked_disk : disk := {[ txt "r.json" := Regular [1; 2] 420 true; txt "." := Directory false ]}.
Lemma locked_save :
  let '(r, s) := write_with demo_parent (txt ".xfr-1") 18 [[3]; [4; 5]] None (txt "r.json") (mkSys locked_disk [] []) in
  is_ok r = true /\ Forall (fun d => d !! txt ".xfr-1" = None) (trace s) /\
  omap (lookup (txt "r.json")) (trace s) = repeat (Regular [1; 2] 420 true) 4 ++
    [Regular [] 420 true; Regular [3] 420 true; Regular [3; 4; 5] 420 true].
Proof. vm_compute. split; [done|]. split; [|done]. by repeat constructor. Qed.

(** A call fails, and the save is still atomic. *)
Lemma save_is_atomic_witness :
  let '(r, s) := write_with demo_parent (txt ".xfr-1") 18 [[3]; [4; 5]] None (txt "r.json")
                   (mkSys demo_disk [None; Some (OtherKind (txt "io"))] []) in
  Forall (fun d' => (d' !! txt "r.json" = Some (Regular [1; 2] 420 true) \/
                     d' !! txt "r.json" = Some (Regular [3; 4; 5] 420 true)) /\
                    forall q, q <> txt "r.json" -> q <> txt ".xfr-1" -> d' !! q = demo_disk !! q) (trace s) /\
  match r with
  | Ok _ => @None error_kind = None /\ fs s = <[txt "r.json" := Regular [3; 4; 5] 420 true]> demo_disk
  | Err _ => forall q, q <> txt ".xfr-1" -> fs s !! q = demo_disk !! q
  end.
Proof.
  pose proof (save_is_atomic demo_parent (txt ".xfr-1") 18 [[3]; [4; 5]] None demo_disk
    [None; Some (OtherKind (txt "io"))] (txt "r.json") (txt "r.json") (txt ".") [1; 2] 420 true true
    eq_refl eq_refl eq_refl ltac:(by repeat constructor)) as H.
  destruct (write_with _ _ _ _ _ _ _) as [r s]. destruct H as [H|[[H|H] _]]; [exact H|discriminate|].
  apply list_elem_of_In in H. destruct H as [H|[H|[]]]; discriminate.
Defined.

Lemma check_matches_save_witness :
  sane demo_parent demo_disk /\
  fst (check_destination demo_parent (txt "new.json") (mkSys demo_disk [] []))
  = fst (write_with demo_parent (txt ".xfr-1") 18 [[3]] None (txt "new.json") (mkSys demo_disk [] [])).
Proof.
  assert (H : sane demo_parent demo_disk) by (intros p t c m w _; by exists (txt "."), true).
  split; [exact H|]. pose proof (check_matches_save demo_parent (txt ".xfr-1") 18 [[3]] demo_disk (txt "new.json") H) as E.
  destruct (check_destination demo_parent (txt "new.json") (mkSys demo_disk [] [])). apply E.
Defined.
