(* ===== verification/Config.v ===== *)
(** * Configuration and preferences (src/src/config.rs, src/src/prefs.rs)

    Which configuration file is used and when it is refused, and the saved
    preferences.  TOML and what the system says about a path are parameters. *)
From S2P Require Import Prelude Bytes Text Float Protocol Auth.

(** Fields that carry no decision in the code modelled (log files, push
    labels) are kept as text. *)
Record ClientDefaults := mkClientDefaults {
  push_gateway : option str; push_labels : list (str * str); push_job : option str;
  duration_secs : option Z; parallel_streams : option Z; port : option Z; tcp_nodelay : option bool;
  window_size : option str; bitrate : option str; congestion : option str; dscp : option str;
  interval_secs : option f64; json_output : option bool; no_tui : option bool;
  no_update_check : option bool; timestamp_format : option TimestampFormat.t;
  log_file : option str; log_level : option str; client_psk : option str; theme : option str;
  address_family : option str; bind : option str; cport : option Z; omit_secs : option Z
}.
Record ServerDefaults := mkServerDefaults {
  server_port : option Z; one_off : option bool; prometheus_port : option Z;
  server_push_gateway : option str; server_push_labels : list (str * str);
  server_log_file : option str; server_log_level : option str; server_psk : option str;
  rate_limit : option Z; rate_limit_window : option Z; allow : option (list str);
  deny : option (list str); acl_file : option str; server_address_family : option str;
  no_mdns : option bool
}.
Record ServerPreset := mkServerPreset {
  name : str; bandwidth_limit : option str; allowed_clients : option (list str);
  max_duration_secs : option Z
}.
Record Config := mkConfig { client : ClientDefaults; server : ServerDefaults; presets : list ServerPreset }.

Definition default_client : ClientDefaults :=
  mkClientDefaults None [] None None None None None None None None None None None None None None None
    None None None None None None None.
Definition default_server : ServerDefaults :=
  mkServerDefaults None None None None [] None None None None None None None None None None.
Definition default : Config := mkConfig default_client default_server [].

(** A path: its components. *)
Definition path := list str.
(** [Path::ancestors]: the path, its parent, and so on. *)
Fixpoint prefixes (fuel : nat) (p : path) : list path :=
  p :: match fuel with O => [] | S fuel => match p with [] => [] | _ => prefixes fuel (removelast p) end end.
Definition ancestors (p : path) : list path := prefixes (length p) p.

Inductive config_error :=
  | DoesNotExist (p : path) (source : str)
  | DanglingSymlink (p link : path)
  | NotPermitted (p : path)
  | IoError (p : path) (permission_denied : bool)
  | ParseError (p : path)
  | BroadPermissions (mode : Z).

(** What the system says when the file is opened: the mode and the text read
    through the handle ([None] with the denial flag when that fails). *)
Inductive open_result :=
  | Opened (mode : Z) (contents : result str bool)
  | Missing
  | Refused (permission_denied : bool).

Section load.
Variables (open : path -> open_result) (is_symlink exists_ : path -> bool)
          (from_toml : str -> option Config).

Definition load_from (p : path) : result (option Config) config_error :=
  match open p with
  | Missing =>
    match List.find (fun q => is_symlink q && negb (exists_ q)) (ancestors p) with
    | Some link => Err (DanglingSymlink p link)
    | None => Ok None
    end
  | Refused denied => Err (IoError p denied)
  | Opened mode contents =>
    let? contents := map_err (IoError p) contents in
    let? config := ok_or (from_toml contents) (ParseError p) in
    let has_psk := match client_psk (client config), server_psk (server config) with
                   | None, None => false | _, _ => true end in
    let? _ := if has_psk
              then map_err (fun e => match e with BadPermissions m => BroadPermissions m | _ => BroadPermissions mode end)
                     (require_owner_only_permissions mode)
              else Ok tt in
    Ok (Some config)
  end.

Fixpoint search (candidates : list path) (skip_unreadable : bool) (skipped : list path)
    : result (Config * option path * list path) config_error :=
  match candidates with
  | [] => Ok (default, None, skipped)
  | p :: candidates =>
    match load_from p with
    | Ok (Some config) => Ok (config, Some p, skipped)
    | Ok None => search candidates skip_unreadable skipped
    | Err (IoError _ true) =>
      if negb skip_unreadable then Err (NotPermitted p)
      else search candidates skip_unreadable (skipped ++ [p])
    | Err e => Err e
    end
  end.

Definition resolve (explicit : option (path * str)) (candidates : list path) (skip_unreadable : bool)
    : result (Config * option path * list path) config_error :=
  match explicit with
  | Some (p, source) =>
    let? loaded := load_from p in
    let? config := ok_or loaded (DoesNotExist p source) in
    Ok (config, Some p, [])
  | None => search candidates skip_unreadable []
  end.

(** On Unix. *)
Definition search_paths_from (config_dir : option path) : list path :=
  match config_dir with Some dir => [dir ++ [txt "xfr"; txt "config.toml"]] | None => [] end
  ++ [[txt "etc"; txt "xfr"; txt "config.toml"]].

Definition load_with (config_dir : option path) (explicit : option (path * str)) (skip_unreadable : bool) :=
  resolve explicit (search_paths_from config_dir) skip_unreadable.
End load.

Definition get_preset (c : Config) (n : str) : option ServerPreset :=
  List.find (fun p => str_eqb (name p) n) (presets c).

(** ** Preferences *)
Record Prefs := mkPrefs {
  pref_theme : option str; last_server : option str; pref_streams : option Z;
  show_help_on_start : option bool; disable_update_check : option bool
}.
Definition default_prefs : Prefs := mkPrefs None None None None None.

(** Missing or invalid text gives the defaults. *)
Definition load_prefs (of_toml : str -> option Prefs) (text : option str) : Prefs :=
  match text ≫= of_toml with Some p => p | None => default_prefs end.

Definition with_theme (t : option str) (p : Prefs) : Prefs :=
  mkPrefs t (last_server p) (pref_streams p) (show_help_on_start p) (disable_update_check p).
Definition with_overrides (cli_theme config_theme : option str) (p : Prefs) : Prefs :=
  match cli_theme, config_theme with
  | Some t, _ => with_theme (Some t) p
  | None, Some t => with_theme (Some t) p
  | None, None => p
  end.
Definition effective_theme_name (p : Prefs) (no_color : bool) : str :=
  match pref_theme p with
  | Some t => t
  | None => if no_color then txt "monochrome" else txt "default"
  end.

(** ** Which file is used *)
Lemma load_from_none open is_symlink exists_ from_toml p :
  load_from open is_symlink exists_ from_toml p = Ok None -> open p = Missing.
Proof.
  unfold load_from. destruct (open p) as [m c| |d]; [|done|done]. intros H.
  apply rbind_ok in H as (? & _ & H). apply rbind_ok in H as (? & _ & H). by apply rbind_ok in H as (? & _ & ?).
Qed.
Lemma load_from_denied open is_symlink exists_ from_toml p p' b :
  load_from open is_symlink exists_ from_toml p = Err (IoError p' b) -> open p <> Missing.
Proof. unfold load_from. destruct (open p); [done| |done]. by destruct (List.find _ _). Qed.

Lemma search_spec open is_symlink exists_ from_toml candidates skip acc c q s :
  search open is_symlink exists_ from_toml candidates skip acc = Ok (c, q, s) ->
  exists before after, candidates = before ++ after /\
    s = acc ++ List.filter (fun p => match open p with Missing => false | _ => true end) before /\
    Forall (fun p => load_from open is_symlink exists_ from_toml p = Ok None \/
                     skip = true /\ exists p', load_from open is_symlink exists_ from_toml p = Err (IoError p' true)) before /\
    match q with
    | Some p => hd_error after = Some p /\ load_from open is_symlink exists_ from_toml p = Ok (Some c)
    | None => after = [] /\ c = default
    end.
Proof.
  revert acc. induction candidates as [|p ps IH]; intros acc; cbn [search].
  - intros [= <- <- <-]. exists [], []. split_and!; try done. by rewrite app_nil_r.
  - destruct (load_from open is_symlink exists_ from_toml p) as [[config|]|e] eqn:E.
    + intros [= <- <- <-]. exists [], (p :: ps). split_and!; try done. by rewrite app_nil_r.
    + intros H. destruct (IH acc H) as (b & a & -> & -> & Hb & Hq). exists (p :: b), a.
      split; [done|]. split; [|split; [constructor; [by left|done]|done]]. f_equal. cbn.
      by rewrite (load_from_none _ _ _ _ _ E).
    + destruct e; try done. destruct permission_denied; [|done]. destruct skip; [|done]. cbn [negb]. intros H.
      destruct (IH (acc ++ [p]) H) as (b & a & -> & -> & Hb & Hq). exists (p :: b), a.
      split; [done|]. split; [|split; [constructor; [right; split; [done|by eexists]|done]|done]].
      rewrite <- app_assoc. f_equal. cbn.
      pose proof (load_from_denied _ _ _ _ _ _ _ E). by destruct (open p).
Qed.

Lemma load_from_psk open is_symlink exists_ from_toml p c :
  load_from open is_symlink exists_ from_toml p = Ok (Some c) ->
  exists mode text, open p = Opened mode (Ok text) /\ from_toml text = Some c /\
    (client_psk (client c) <> None \/ server_psk (server c) <> None -> Z.land mode 63 = 0).
Proof.
  unfold load_from. destruct (open p) as [m [t|d]| |d]; [|done|by destruct (List.find _ _)|done]. cbn.
  destruct (from_toml t) as [c'|] eqn:Et; [|done]. cbn. intros H. apply rbind_ok in H as (? & H & [= <-]).
  exists m, t. split_and!; [done|done|]. intros Hk.
  assert (Ek : (match client_psk (client c'), server_psk (server c') with None, None => false | _, _ => true end) = true).
  { destruct (client_psk (client c')), (server_psk (server c')); try done. by destruct Hk. }
  rewrite Ek in H. unfold require_owner_only_permissions in H.
  destruct (Z.eqb_spec (Z.land (Z.land m 511) 63) 0) as [E|]; [|done].
  by rewrite <- Z.land_assoc in E.
Qed.

(** The configuration in force comes from exactly one file: the one asked for
    explicitly, or else the first of the search path that exists, the ones
    before it missing or -- only on request -- unreadable and reported; with
    none, the defaults.  A file that holds a pre-shared key is only ever used
    when nobody but its owner can access it. *)
Theorem config_comes_from_one_file (open : path -> open_result) (is_symlink exists_ : path -> bool)
    (from_toml : str -> option Config) (explicit : option (path * str)) (config_dir : option path)
    (skip : bool) (c : Config) (q : option path) (skipped : list path) :
  load_with open is_symlink exists_ from_toml config_dir explicit skip = Ok (c, q, skipped) ->
  match q with
  | None => c = default /\ explicit = None
  | Some p =>
    (exists mode text, open p = Opened mode (Ok text) /\ from_toml text = Some c /\
       (client_psk (client c) <> None \/ server_psk (server c) <> None -> Z.land mode 63 = 0)) /\
    match explicit with
    | Some (p', _) => p = p' /\ skipped = []
    | None => exists before after, search_paths_from config_dir = before ++ p :: after /\
                Forall (fun p' => open p' = Missing \/ skip = true /\ In p' skipped) before
    end
  end.
Proof.
  unfold load_with, resolve. destruct explicit as [[p source]|].
  - intros H. apply rbind_ok in H as (l & Hl & H). apply rbind_ok in H as (c' & Hc & [= <- <- <-]).
    destruct l; [|done]. injection Hc as ->. split; [|done]. by apply load_from_psk in Hl.
  - intros H. apply search_spec in H as (before & after & E & -> & Hb & Hq). destruct q as [p|]; [|by destruct Hq].
    destruct Hq as [Hh Hl]. split; [by apply load_from_psk in Hl|].
    destruct after as [|p' after]; [done|]. injection Hh as ->. exists before, after. split; [done|].
    rewrite Forall_forall in Hb |- *. intros x Hx.
    destruct (Hb x Hx) as [H|[-> [p' H]]]; [left; by apply load_from_none in H|].
    right. split; [done|]. cbn. apply filter_In. split; [by apply list_elem_of_In|].
    pose proof (load_from_denied _ _ _ _ _ _ _ H). by destruct (open x).
Qed.

Lemma config_comes_from_one_file_witness :
  let open := fun p => if decide (p = [txt "etc"; txt "xfr"; txt "config.toml"]) then Opened 420 (Ok []) else Missing in
  let of_toml := fun _ : str => Some default in
  load_with open (fun _ => false) (fun _ => false) of_toml (Some [txt "home"]) None false
  = Ok (default, Some [txt "etc"; txt "xfr"; txt "config.toml"], []) /\
  exists before after, search_paths_from (Some [txt "home"])
                       = before ++ [txt "etc"; txt "xfr"; txt "config.toml"] :: after.
Proof.
  intros open of_toml.
  assert (E : load_with open (fun _ => false) (fun _ => false) of_toml (Some [txt "home"]) None false
              = Ok (default, Some [txt "etc"; txt "xfr"; txt "config.toml"], [])) by reflexivity.
  split; [exact E|].
  destruct (config_comes_from_one_file open (fun _ => false) (fun _ => false) of_toml None (Some [txt "home"])
    false _ _ _ E) as [_ (b & a & H & _)]. by exists b, a.
Defined.
