(* ===== verification/Cli.v ===== *)
(** * Command-line values (src/src/main.rs)

    The parsers of flag values, the precedence between the command line, the
    environment and the configuration file, and the checks on what they give.
    Durations are nanoseconds; the parser of durations with units (the
    humantime crate) is a parameter.  Declarative flag definitions are not
    modelled. *)
From Stdlib Require Import SpecFloat.
From S2P Require Import Prelude Bytes Text Float Fmt Ip Protocol Stats Client RateLimit App Target Config Diff.

Definition SECOND : Z := 1000000000.

(** ** Durations *)
Section durations.
Variable humantime : str -> result Z str.

Definition parse_duration (s : str) : result Z str :=
  match parse_uint u64_max s with
  | Some secs => Ok (secs * SECOND)
  | None => humantime s
  end.
Definition parse_nonzero_duration (s : str) : result Z str :=
  let? d := parse_duration s in
  if d =? 0 then Err (txt "Duration must be greater than 0") else Ok d.
Definition parse_rate_limit_window (s : str) : result Z str :=
  let? d := parse_nonzero_duration s in
  if negb (d mod SECOND =? 0)
  then Err (txt "Rate limit window must be a whole number of seconds (at least 1 second)")
  else Ok (d / SECOND).
Definition parse_test_duration (s : str) : result Z str :=
  let? d := parse_duration s in
  if d =? 0 then Ok 0
  else if d <? SECOND then Err (txt "Minimum test duration is 1 second (use 0 for infinite)")
  else if u32_max <? d / SECOND
  then Err (txt "Maximum test duration is " ++ dec u32_max ++ txt " seconds (use 0 for infinite)")
  else Ok d.
End durations.

Definition resolve_rate_limit_window (cli config : option Z) : result Z str :=
  let window := match cli, config with
                | Some w, _ | None, Some w => w
                | None, None => window_secs RateLimit.default_config
                end in
  if window =? 0 then Err (txt "server.rate_limit_window must be at least 1 second") else Ok window.

(** [Duration::try_from_secs_f64] fails on a negative number, on NaN and from
    2^64 seconds on. *)
Definition duration_ok (x : f64) : bool :=
  fltb x (of_decimal false (2 ^ 64) 0) && negb (fltb x zero).
Definition validate_report_interval (seconds : f64) : result f64 str :=
  if negb (is_finite seconds) || negb (fgtb seconds zero)
  then Err (txt "Report interval must be finite and greater than zero")
  else if negb (duration_ok (fmul (fmax seconds (of_int 1)) (of_decimal false 19 (-1))))
  then Err (txt "Report interval is too large")
  else Ok seconds.
Definition parse_report_interval (value : str) : result f64 str :=
  let? x := parse_f64 value in validate_report_interval x.

(** ** Sizes and rates *)

(** What the suffix multiplies by, and the digits before it: every trailing
    copy of the suffix is trimmed. *)
Definition trimmed_suffix (kilo : Z) (s : str) : str * Z :=
  if ends_with_char 71 s then (trim_end_matches 71 s, kilo * kilo * kilo)
  else if ends_with_char 77 s then (trim_end_matches 77 s, kilo * kilo)
  else if ends_with_char 75 s then (trim_end_matches 75 s, kilo)
  else (s, 1).

Definition parse_scaled (kilo : Z) (what : str) (s : str) : result Z str :=
  let s := to_uppercase s in
  let '(num, suffix) := trimmed_suffix kilo s in
  let? n := parse_uint_text u64_max num in
  ok_or (checked_mul 64 n suffix) (what ++ txt " overflow: " ++ s).
Definition parse_bitrate (s : str) : result Z str := parse_scaled 1000 (txt "Bitrate") s.
Definition parse_size (s : str) : result Z str := parse_scaled 1024 (txt "Size") s.

Definition stripped_suffix (upper : str) : str * Z :=
  match strip_suffix [71] upper with
  | Some rest => (rest, 1024 * 1024 * 1024)
  | None =>
    match strip_suffix [77] upper with
    | Some rest => (rest, 1024 * 1024)
    | None => match strip_suffix [75] upper with Some rest => (rest, 1024) | None => (upper, 1) end
    end
  end.
Definition parse_byte_budget (s : str) : result Z str :=
  let '(num, suffix) := stripped_suffix (to_uppercase s) in
  let? n := ok_or (parse_uint u64_max num) (txt "Invalid byte count: " ++ s) in
  let? total := ok_or (checked_mul 64 n suffix) (txt "Byte count overflow: " ++ s) in
  if total =? 0 then Err (txt "Byte count must be greater than zero") else Ok total.

(** ** Traffic classes *)
Definition DSCP_NAMES : list (string * Z) :=
  [("CS0", 0); ("CS1", 32); ("CS2", 64); ("CS3", 96); ("CS4", 128); ("CS5", 160); ("CS6", 192); ("CS7", 224);
   ("AF11", 40); ("AF12", 48); ("AF13", 56); ("AF21", 72); ("AF22", 80); ("AF23", 88); ("AF31", 104);
   ("AF32", 112); ("AF33", 120); ("AF41", 136); ("AF42", 144); ("AF43", 152); ("EF", 184); ("VA", 172)]%string.
Definition dscp_name (s : str) : option Z :=
  option_map snd (List.find (fun '(n, _) => str_eqb (txt n) s) DSCP_NAMES).
Definition parse_dscp (s : str) : result Z str :=
  match parse_uint u32_max s with
  | Some n => if 255 <? n then Err (txt "TOS value " ++ dec n ++ txt " exceeds 255") else Ok n
  | None =>
    ok_or (dscp_name (to_uppercase s))
      (txt "Unknown DSCP name '" ++ s ++ txt "'. Use a number (0-255) or a name: EF, AF11-AF43, CS0-CS7")
  end.

(** ** Precedence *)
Definition or_default {A} (o : option A) (d : A) : A := match o with Some x => x | None => d end.
Definition or_else {A} (a b : option A) : option A := match a with Some _ => a | None => b end.

Definition resolve_server_max_duration (cli : option Z) (preset : option ServerPreset) : option Z :=
  or_else cli (option_map (fun s => s * SECOND) (preset ≫= max_duration_secs)).
Definition resolve_server_port (cli config : option Z) : Z := or_default (or_else cli config) DEFAULT_PORT.

(** The flags that choose output and payload. *)
Record Flags := mkFlags {
  json : bool; json_stream : bool; csv : bool; no_tui : bool; quiet : bool; probe_mtu : bool;
  random : bool; zeros : bool; zerocopy : bool; no_zerocopy : bool
}.

Definition client_json_output (cli : Flags) (file : Config) : bool :=
  json cli || (negb (json_stream cli) && negb (csv cli) && or_default (json_output (client file)) false).
Definition client_uses_tui (cli : Flags) (file : Config) (terminal : bool) : bool :=
  terminal && negb (no_tui cli || or_default (Config.no_tui (client file)) false
                    || client_json_output cli file || json_stream cli || csv cli || quiet cli || probe_mtu cli).

Definition resolve_client_duration (cli_time : option Z) (probe : bool) (byte_budget : option Z) (file : Config) : Z :=
  match cli_time with
  | Some d => d
  | None =>
    if probe then 60 * SECOND
    else match byte_budget with
         | Some _ => 0
         | None => or_default (option_map (fun s => s * SECOND) (duration_secs (client file))) (10 * SECOND)
         end
  end.

Definition resolve_parallel_streams (cli config : option Z) : result Z str :=
  let streams := or_default (or_else cli config) 1 in
  if (1 <=? streams) && (streams <=? 128) then Ok streams
  else Err (txt "client.parallel_streams must be between 1 and 128 (got " ++ dec streams ++ txt ")").

(** The first port given, with where it comes from. *)
Definition first_port (target cli env config : option Z) : Z * str :=
  or_default
    (head (omap (fun '(p, source) => option_map (fun p => (p, source)) p)
            [(target, txt "the target"); (cli, txt "-p/--port"); (env, txt "XFR_PORT"); (config, txt "client.port")]))
    (DEFAULT_PORT, txt "the default").
Definition resolve_client_port (target cli env config : option Z) : result Z str :=
  let? _ := match target, cli with
            | Some t, Some c =>
              if t =? c then Ok tt
              else Err (txt "target port " ++ dec t ++ txt " conflicts with -p/--port " ++ dec c)
            | _, _ => Ok tt
            end in
  let '(port, source) := first_port target cli env config in
  if port =? 0 then Err (txt "port must be between 1 and 65535 (got 0 from " ++ source ++ txt ")") else Ok port.

(** [{:?}] of a text with nothing to escape. *)
Definition quoted (s : str) : str := [34] ++ s ++ [34].
Definition resolve_window_size (cli : option Z) (config : option str) : result (option Z) str :=
  match cli with
  | Some w => Ok (Some w)
  | None =>
    match config with
    | None => Ok None
    | Some value =>
      let? n := map_err (fun e => txt "invalid client.window_size " ++ quoted value ++ txt ": " ++ e) (parse_size value) in Ok (Some n)
    end
  end.

Record ResolvedClientNetworkOptions := mkResolved {
  r_bitrate : option Z; r_congestion : option str; r_dscp : option str; r_interval_secs : f64;
  r_bind : option str; r_cport : option Z
}.
Definition resolve_client_network_options (cli_bitrate : option Z) (cli_congestion cli_dscp : option str)
    (cli_interval : option f64) (cli_bind : option str) (cli_cport : option Z) (defaults : ClientDefaults)
    : result ResolvedClientNetworkOptions str :=
  let? bitrate := match cli_bitrate, Config.bitrate defaults with
                  | Some b, _ => Ok (Some b)
                  | None, None => Ok None
                  | None, Some text =>
                    let? b := map_err (fun e => txt "bitrate: " ++ e) (parse_bitrate text) in Ok (Some b)
                  end in
  let? interval := map_err (fun e => txt "interval_secs: " ++ e)
                     (validate_report_interval (or_default (or_else cli_interval (interval_secs defaults)) (of_int 1))) in
  Ok (mkResolved bitrate (or_else cli_congestion (Config.congestion defaults))
        (or_else cli_dscp (Config.dscp defaults)) interval (or_else cli_bind (Config.bind defaults))
        (or_else cli_cport (Config.cport defaults))).

(** ** Addresses *)
Definition resolve_address_family (ipv4_only ipv6_only : bool) (config_value : option str) (config_key : str)
    : result AddressFamily str :=
  if ipv4_only then Ok V4Only
  else if ipv6_only then Ok V6Only
  else match config_value with
       | Some value =>
         ok_or (family_from_str value)
           (txt "invalid " ++ config_key ++ txt ": " ++ quoted value ++ txt "; expected ipv4, ipv6, or dual")
       | None => Ok DualStack
       end.

Definition show_ip (ip : IpAddr) : str := match ip with V4 a => show_ipv4 a | V6 a => show_ipv6 a end.
Definition is_v4 (ip : IpAddr) : bool := match ip with V4 _ => true | V6 _ => false end.

Definition resolve_server_address_family (bind : option IpAddr) (ipv4_only ipv6_only : bool)
    (config_value : option str) : result AddressFamily str :=
  match bind with
  | Some ip =>
    if is_unspecified ip then
      Err (txt "--bind " ++ show_ip ip
           ++ txt " is an unspecified address; use -4/-6 instead to control address family")
    else if ipv4_only && negb (is_v4 ip)
    then Err (txt "--bind " ++ show_ip ip ++ txt " is IPv6 but -4/--ipv4 forces IPv4")
    else if ipv6_only && is_v4 ip
    then Err (txt "--bind " ++ show_ip ip ++ txt " is IPv4 but -6/--ipv6 forces IPv6")
    else Ok (if is_v4 ip then V4Only else V6Only)
  | None => resolve_address_family ipv4_only ipv6_only config_value (txt "server.address_family")
  end.

Inductive bind_error := PortWithTcp (addr : SocketAddr) | PortWithStreams (addr : SocketAddr) (streams : Z).
Definition validate_bind_address (bind_addr : option SocketAddr) (protocol : Protocol) (streams : Z)
    (has_cport : bool) : result unit bind_error :=
  match bind_addr with
  | Some addr =>
    if negb (sa_port addr =? 0) then
      if bool_decide (protocol = Tcp) && negb has_cport then Err (PortWithTcp addr)
      else if (1 <? streams) && negb has_cport then Err (PortWithStreams addr streams)
      else Ok tt
    else Ok tt
  | None => Ok tt
  end.

(** ** Payload and zero copy *)
Definition effective_random_payload (cli : Flags) : bool := negb (zeros cli).

Definition random_payload_notice (protocol : Protocol) (direction : Direction) (random zeros : bool) : option str :=
  if bool_decide (protocol = Quic) then
    if random then Some (txt "random payloads are ignored with QUIC (payload is already encrypted)") else None
  else if zeros && (bool_decide (direction = Download) || bool_decide (direction = Bidir)) then
    Some (txt "--zeros only affects client-sent traffic; server payload mode is not negotiated")
  else None.

Definition effective_zerocopy (cli : Flags) : ZerocopyMode :=
  if no_zerocopy cli then Off else if zerocopy cli then Requested else Auto.
Definition zerocopy_notice (linux : bool) (z : ZerocopyMode) (direction : Direction) : option str :=
  match z with
  | Requested =>
    if linux then None
    else match direction with
         | Download => None
         | _ => Some (txt "--zerocopy requires Linux sendfile(2); client-sent traffic will use regular writes")
         end
  | _ => None
  end.

(** ** What the printing loop keeps between intervals *)
Definition cache_udp_direction (cache update : option UdpDirectionProgress)
    : option UdpDirectionProgress * option UdpDirectionProgress :=
  match update with
  | None => (cache, None)
  | Some u =>
    if stale (udp_dir_progress u) (option_map udp_dir_progress cache) then (cache, None)
    else
      let u := mkUdpDirectionProgress (udp_dir_progress u)
                 (or_else (udp_dir_jitter_ms u) (cache ≫= udp_dir_jitter_ms)) in
      (Some u, Some u)
  end.

Definition interval_retransmits (p : TestProgress) (last_retransmits : Z) : option Z * Z :=
  match tp_total_retransmits p with
  | Some cumulative => (Some (saturating_sub cumulative last_retransmits), cumulative)
  | None =>
    if existsb (fun i => match si_retransmits i with Some _ => true | None => false end) (tp_streams p)
    then (Some (wrap 64 (zsum (omap si_retransmits (tp_streams p)))), last_retransmits)
    else (None, last_retransmits)
  end.

Definition parse_diff_threshold (value : str) : result f64 str :=
  let? threshold := parse_f64 value in
  let? _ := Diff.validate threshold in
  Ok threshold.

(** ** Sizes *)
Lemma upper_dec z : 0 <= z -> to_uppercase (dec z) = dec z.
Proof.
  intros Hz. unfold to_uppercase. rewrite <- (map_id (dec z)) at 2. apply map_ext_in. intros c Hc.
  pose proof (dec_digits z Hz) as H. rewrite Forall_forall in H. specialize (H c (proj2 (list_elem_of_In _ _) Hc)).
  unfold upper_char. cbn in H.
  replace ((97 <=? c) && (c <=? 122)) with false by lia.
  replace (c =? 305) with false by lia. by replace (c =? 383) with false by lia.
Qed.

(** A unit: its letter (either case) and the power of the kilo. *)
Definition unit_of (letter : Z) : option Z :=
  if (letter =? 71) || (letter =? 103) then Some 3
  else if (letter =? 77) || (letter =? 109) then Some 2
  else if (letter =? 75) || (letter =? 107) then Some 1
  else None.

Lemma ends_with_char_app c d s : ends_with_char c (s ++ [d]) = (d =? c).
Proof. unfold ends_with_char. by rewrite rev_app_distr. Qed.
Lemma trim_end_dec c z n : 0 <= z -> 57 < c -> trim_end_matches c (dec z ++ repeat c n) = dec z.
Proof.
  intros Hz Hc. unfold trim_end_matches. rewrite rev_app_distr, drop_while_all.
  - rewrite drop_while_none; [apply rev_involutive|]. apply Forall_rev.
    apply (Forall_impl _ _ _ (dec_digits z Hz)). intros x Hx. cbn in Hx. apply Z.eqb_neq. lia.
  - apply Forall_rev. apply Forall_forall. intros x Hx. apply list_elem_of_In, repeat_spec in Hx as ->.
    apply Z.eqb_refl.
Qed.

Lemma unit_upper c k : unit_of c = Some k ->
  (upper_char c = 71 /\ k = 3) \/ (upper_char c = 77 /\ k = 2) \/ (upper_char c = 75 /\ k = 1).
Proof.
  unfold unit_of. destruct (_ || _) eqn:E1.
  { intros [= <-]. apply orb_true_iff in E1 as [->%Z.eqb_eq| ->%Z.eqb_eq]; left; by split. }
  destruct ((c =? 77) || _) eqn:E2.
  { intros [= <-]. apply orb_true_iff in E2 as [->%Z.eqb_eq| ->%Z.eqb_eq]; right; left; by split. }
  destruct ((c =? 75) || _) eqn:E3; [|done].
  intros [= <-]. apply orb_true_iff in E3 as [->%Z.eqb_eq| ->%Z.eqb_eq]; right; right; by split.
Qed.

Lemma upper_scaled n c j : 0 <= n ->
  to_uppercase (dec n ++ repeat c j) = dec n ++ repeat (upper_char c) j.
Proof.
  intros Hn. unfold to_uppercase. rewrite map_app. change (map upper_char (dec n)) with (to_uppercase (dec n)).
  rewrite upper_dec by done. f_equal. induction j as [|j IH]; [done|]. cbn. by rewrite IH.
Qed.

Lemma repeat_snoc {A} (x : A) n : repeat x (S n) = repeat x n ++ [x].
Proof. induction n as [|n IH]; [done|]. cbn [repeat app] in *. by rewrite <- IH. Qed.

Lemma trimmed_suffix_spec kilo n c k j : 0 <= n -> unit_of c = Some k ->
  trimmed_suffix kilo (dec n ++ repeat (upper_char c) (S j)) = (dec n, kilo ^ k).
Proof.
  intros Hn Hu. unfold trimmed_suffix. rewrite repeat_snoc, app_assoc, !ends_with_char_app, <- app_assoc, <- repeat_snoc.
  destruct (unit_upper c k Hu) as [[-> ->]|[[-> ->]|[-> ->]]]; cbn [Z.eqb Pos.eqb];
    rewrite trim_end_dec by lia; f_equal; lia.
Qed.

Lemma parse_scaled_spec kilo what n c k j :
  0 <= n <= u64_max -> 0 < kilo -> unit_of c = Some k ->
  ok (parse_scaled kilo what (dec n ++ repeat c (S j))) = checked_mul 64 n (kilo ^ k).
Proof.
  intros Hn Hk Hu. unfold parse_scaled. rewrite upper_scaled, (trimmed_suffix_spec kilo n c k j) by (done || lia).
  rewrite parse_uint_text_dec by lia. cbn [rbind]. by destruct (checked_mul 64 n (kilo ^ k)).
Qed.

Lemma stripped_suffix_spec n c k s : unit_of c = Some k ->
  stripped_suffix ((dec n ++ s) ++ [upper_char c]) = (dec n ++ s, 1024 ^ k).
Proof.
  intros Hu. unfold stripped_suffix.
  destruct (unit_upper c k Hu) as [[-> ->]|[[-> ->]|[-> ->]]]; rewrite ?strip_suffix_last by lia;
    by rewrite strip_suffix_app.
Qed.

Lemma from_str_radix_cases max l :
  from_str_radix max 10 l = None \/ from_str_radix max 10 l = parse_digits 10 max 0 l \/
  exists l', l = 43 :: l' /\ l' <> [] /\ from_str_radix max 10 l = parse_digits 10 max 0 l'.
Proof.
  unfold from_str_radix. repeat case_match; subst; auto; right; right; eexists; split_and!; reflexivity || done.
Qed.

(** A text that ends in no digit is no number. *)
Lemma letter_no_number max s c : to_digit 10 c = None -> parse_uint max (s ++ [c]) = None.
Proof.
  intros Hc. assert (Hd : forall t, parse_digits 10 max 0 (t ++ [c]) = None)
    by (intros t; rewrite parse_digits_snoc; destruct (parse_digits 10 max 0 t); [by rewrite Hc|done]).
  unfold parse_uint. destruct (from_str_radix_cases max (s ++ [c])) as [H|[H|(l & El & Hl & H)]]; [done|by rewrite H, Hd|].
  rewrite H. destruct s as [|x s]; [cbn in El; injection El as -> <-; done|].
  injection El as -> <-. apply Hd.
Qed.

(** Sizes and rates typed with a unit: [n] and a letter of either case is [n]
    times the unit -- decimal for a rate, binary for a size -- refused when it
    does not fit 64 bits, and for a byte budget when it is zero.  The letter
    may be repeated in a rate or a size without changing it, which a byte
    budget refuses. *)
Theorem sizes_read (n c k : Z) (j : nat) :
  0 <= n <= u64_max -> unit_of c = Some k ->
  ok (parse_bitrate (dec n ++ repeat c (S j))) = checked_mul 64 n (1000 ^ k) /\
  ok (parse_size (dec n ++ repeat c (S j))) = checked_mul 64 n (1024 ^ k) /\
  ok (parse_byte_budget (dec n ++ [c])) = (if 0 <? n then checked_mul 64 n (1024 ^ k) else None) /\
  ok (parse_byte_budget (dec n ++ repeat c (S (S j)))) = None.
Proof.
  intros Hn Hu. split; [by apply parse_scaled_spec|]. split; [by apply parse_scaled_spec|].
  assert (Hk : 0 < 1024 ^ k) by (destruct (unit_upper c k Hu) as [[_ ->]|[[_ ->]|[_ ->]]]; lia).
  assert (Hd : to_digit 10 (upper_char c) = None) by (destruct (unit_upper c k Hu) as [[-> _]|[[-> _]|[-> _]]]; done).
  split.
  - unfold parse_byte_budget. change [c] with (repeat c 1). rewrite upper_scaled by lia.
    pose proof (stripped_suffix_spec n c k [] Hu) as Hs. rewrite app_nil_r in Hs. cbn [repeat] in *. rewrite Hs.
    rewrite dec_parse by lia. cbn [ok_or rbind]. unfold checked_mul. destruct (Z.ltb_spec 0 n).
    + destruct (_ <? _) eqn:E; [|done]. cbn [ok_or rbind]. by rewrite (proj2 (Z.eqb_neq (n * 1024 ^ k) 0)) by nia.
    + replace n with 0 by lia. done.
  - unfold parse_byte_budget. rewrite upper_scaled by lia. rewrite repeat_snoc, app_assoc.
    rewrite (stripped_suffix_spec n c k _ Hu). rewrite repeat_snoc, app_assoc, letter_no_number by done. done.
Qed.

(** What an accepted test duration is: endless, or at least a second and at
    most the number of seconds the wire carries. *)
Lemma test_duration_bounds humantime s d :
  parse_test_duration humantime s = Ok d -> d = 0 \/ SECOND <= d /\ d / SECOND <= u32_max.
Proof.
  unfold parse_test_duration. intros H. apply rbind_ok in H as (x & _ & H).
  destruct (Z.eqb_spec x 0); [left; by injection H|]. destruct (Z.ltb_spec x SECOND); [done|].
  destruct (Z.ltb_spec u32_max (x / SECOND)); [done|]. injection H as ->. by right.
Qed.

Lemma first_port_fst target cli env config :
  fst (first_port target cli env config) = or_default (or_else target (or_else cli (or_else env config))) DEFAULT_PORT.
Proof. by destruct target, cli, env, config. Qed.

(** The port a client connects to: the first of the target's, the command
    line's, the environment's and the file's, never 0, and an explicit port is
    never silently overruled by the target. *)
Theorem client_port_precedence (target cli env config : option Z) (p : Z) :
  resolve_client_port target cli env config = Ok p <->
  p = or_default (or_else target (or_else cli (or_else env config))) DEFAULT_PORT /\ p <> 0 /\
  forall t c, target = Some t -> cli = Some c -> t = c.
Proof.
  rewrite <- first_port_fst. unfold resolve_client_port. destruct (first_port target cli env config) as [q source].
  cbn [fst]. split.
  - intros H. apply rbind_ok in H as (u & Hc & H). destruct (Z.eqb_spec q 0); [done|]. injection H as <-.
    split_and!; try done. intros t c -> ->. by destruct (Z.eqb_spec t c).
  - intros (-> & Hp & Hk). rewrite (proj2 (Z.eqb_neq q 0) Hp).
    destruct target as [t|]; [|done]. destruct cli as [c|]; [|done]. by rewrite (Hk t c), Z.eqb_refl.
Qed.

Lemma sizes_read_witness :
  ok (parse_bitrate (txt "10m")) = Some 10000000 /\ ok (parse_size (txt "10mmm")) = Some 10485760 /\
  ok (parse_byte_budget (txt "10m")) = Some 10485760 /\ ok (parse_byte_budget (txt "10mm")) = None.
Proof.
  destruct (sizes_read 10 109 2 0 ltac:(vm_compute; split; discriminate) eq_refl) as (H1 & _ & H3 & H4).
  destruct (sizes_read 10 109 2 2 ltac:(vm_compute; split; discriminate) eq_refl) as (_ & H2 & _).
  exact (conj H1 (conj H2 (conj H3 H4))).
Defined.
