(* ===== verification/ClientLoop.v ===== *)
(** * The client's control loop (src/src/client.rs)

    [run_test] from the started streams to the result: the loop's [select!]
    as a step function over the arm that fires, its clocks, the progress it
    emits, the messages it writes, and the corrections made to the result.
    Which ready arm fires, what the kernel and the counters show, whether a
    write or a progress send goes through are inputs; joining the stream tasks
    is not modelled.  Times are nanoseconds. *)
From coqutil Require Import Datatypes.RecordSettersUsingExistingGetters.
From Stdlib Require Import SpecFloat.
From S2P Require Import Prelude App.
From S2P Require Import Bytes Text Float Protocol Stats ClientUdp Client.

Inductive loop_error :=
  | ClosedWithoutResult | ControlRead | ControlParse | ServerSaid (message : str)
  | SerializeCancel | SerializePause | ResponseTimeout.

(** What the loop can see when an arm fires. *)
Record observed := mkObserved {
  now : Z; stats : TestStats; kernel : StreamStats.kernel;
  (** the write goes through; the progress channel takes the update before a
      cancellation; it has room at once *)
  wrote : bool; taken : bool; room : bool;
  (** what other users of the shared filter left in it *)
  filter_state : option UdpIntervalProgress.t
}.

Inductive loop_event :=
  | Control (e : option ClientControlEvent)
  | CancelChanged (v : option bool)
  | PauseChanged (v : option bool)
  | LocalEnd | SendingDone | LocalTick | DeadlineHit.

Inductive output :=
  | Wrote (m : ControlMessage) | StopStreams | PauseStreams (paused : bool) | Progress (p : TestProgress)
  | FilterNow (latest : option UdpIntervalProgress.t).

Record loop_state := mkLoop {
  deadline : Z; local_end_deadline : option Z; local_stop_sent : bool; loop_pause_started : option Z;
  paused_total : Z; last_recv_bytes : list Z; last_recv_instant : Z;
  cancel_request_open : bool; pause_request_open : bool; finish_sent : bool
}.

Inductive outcome :=
  | Continue (s : loop_state) (outs : list output)
  | Ended (r : result TestResult loop_error) (outs : list output).

Definition SECOND : Z := 1000000000.
(** The wait for the result of a cancelled test starts. *)
Definition cancel_wait (now : Z) (s : loop_state) : loop_state :=
  s <| deadline := (start_control_cancel_wait now).1 |> <| loop_pause_started := (start_control_cancel_wait now).2 |>.

Section control_loop.
Variable to_json : ControlMessage -> option str.
Variables (config : ClientConfig) (test_id : str) (supports_pause finish_on_budget has_consumer : bool)
          (progress_start : Z).

Definition response_timeout : Z :=
  if duration config =? 0 then 365 * 24 * 3600 * SECOND else duration config + 30 * SECOND.
Definition udp_download : bool :=
  bool_decide (protocol config = Udp) && bool_decide (direction config = Download).
Definition udp_bidir : bool := bool_decide (protocol config = Udp) && bool_decide (direction config = Bidir).
Definition is_sender : bool := bool_decide (direction config = Upload) || bool_decide (direction config = Bidir).

Definition start_loop (now : Z) (stats : TestStats) : loop_state :=
  mkLoop (now + response_timeout) (local_stop_deadline now (duration config)) false None 0
    (repeat 0 (length (Stats.streams stats))) now true true false.

(** [send_progress_until_cancelled]. *)
Definition send_progress (o : observed) (p : TestProgress) : list output := if taken o then [Progress p] else [].

(** The update a server interval becomes; the shared filter after it. *)
Definition interval_progress (o : observed) (elapsed_ms : Z) (rows : list StreamInterval)
    (a : AggregateInterval) (s : loop_state) : TestProgress * option UdpIntervalProgress.t * loop_state :=
  let '(rtt_us, cwnd, total_retransmits) :=
    match (if is_sender then TestStats.poll_local_tcp_info (kernel o) (stats o) else None) with
    | Some (rtt, retrans, cw) => (Some rtt, Some cw, Some retrans)
    | None => (ai_rtt_us a, ai_cwnd a, None)
    end in
  let '(rows, bytes_received, recv_mbps, total_bytes, mbps, s) :=
    if udp_bidir then
      let dt := as_secs_f64 (saturating_sub (now o) (last_recv_instant s)) in
      let '(interval_recv, deltas, slots) := udp_recv_interval_deltas (stats o) (last_recv_bytes s) in
      let recv_mbps := secs_mbps interval_recv dt in
      let '(total, total_mbps) :=
        match ai_bytes_sent a, ai_throughput_send_mbps a with
        | Some sent, Some send_mbps => (wrapping_add 64 sent interval_recv, fadd send_mbps recv_mbps)
        | _, _ => (ai_bytes a, ai_throughput_mbps a)
        end in
      (overlay_udp_bidir_intervals rows deltas dt, Some interval_recv, Some recv_mbps, total, total_mbps,
       s <| last_recv_bytes := slots |> <| last_recv_instant := now o |>)
    else (rows, ai_bytes_received a, ai_throughput_recv_mbps a, ai_bytes a, ai_throughput_mbps a, s) in
  let '(progress, filter) :=
    match ai_udp_progress a with
    | Some p => apply (filter_state o) p
    | None => (None, filter_state o)
    end in
  (mkTestProgress elapsed_ms total_bytes mbps rows rtt_us cwnd total_retransmits (ai_bytes_sent a)
     bytes_received (ai_throughput_send_mbps a) recv_mbps progress false
     (if udp_bidir then option_map (fun p => mkUdpDirectionProgress p (ai_jitter_ms a)) progress else None)
     (if udp_bidir then udp_local_direction_progress (stats o) else None), filter, s).

Definition on_interval (o : observed) (elapsed_ms : Z) (rows : list StreamInterval) (a : AggregateInterval)
    (s : loop_state) : loop_state * list output :=
  if negb udp_download && has_consumer then
    let '(p, filter, s) := interval_progress o elapsed_ms rows a s in
    (s, FilterNow filter :: send_progress o p)
  else (s, []).

Definition with_retransmits (n : Z) (r : StreamResult) : StreamResult := r <| sr_retransmits := Some n |>.

(** The sender's own kernel numbers replace the receiver's zeros. *)
Definition overlay_tcp_info (o : observed) (r : TestResult) : TestResult :=
  if is_sender then
    let r := r <| tr_streams ::= imap (fun i row =>
               match Stats.streams (stats o) !! i ≫= StreamStats.get_final_tcp_info (kernel o) with
               | Some info => with_retransmits (tcp_retransmits info) row
               | None => row
               end) |> in
    match TestStats.final_local_tcp_info (kernel o) (stats o) with
    | Some info => r <| tr_tcp_info := Some info |>
    | None => r
    end
  else r.

Definition on_message (o : observed) (m : ControlMessage) (s : loop_state) : outcome :=
  match m with
  | Interval _ elapsed_ms rows a => let '(s, outs) := on_interval o elapsed_ms rows a s in Continue s outs
  | ResultMsg r => Ended (Ok (overlay_tcp_info o r)) []
  | ErrorMsg message => Ended (Err (ServerSaid message)) []
  | Cancelled _ => Continue (cancel_wait (now o) s) []
  | _ => Continue s []
  end.

Definition user_cancel : ControlMessage := Cancel test_id (txt "User requested cancellation").

(** [send_control_cancel] stops the streams before it writes. *)
Definition on_cancel_changed (o : observed) (v : option bool) (s : loop_state) : outcome :=
  match v with
  | None => Continue (s <| cancel_request_open := false |>) []
  | Some false => Continue s []
  | Some true =>
    match to_json user_cancel with
    | None => Ended (Err SerializeCancel) []
    | Some _ =>
      Continue (cancel_wait (now o) s)
        (StopStreams :: if wrote o then [Wrote user_cancel] else [])
    end
  end.

Definition pause_clock (o : observed) (paused : bool) (s : loop_state) : loop_state :=
  if paused then
    match loop_pause_started s with
    | None => s <| loop_pause_started := Some (now o) |>
    | Some _ => s
    end
  else
    match loop_pause_started s with
    | Some started =>
      let paused_for := saturating_sub (now o) started in
      s <| loop_pause_started := None |> <| deadline ::= fun d => d + paused_for |>
        <| local_end_deadline ::= option_map (fun d => d + paused_for) |>
        <| paused_total ::= fun t => t + paused_for |>
    | None => s
    end.

Definition on_pause_changed (o : observed) (v : option bool) (s : loop_state) : outcome :=
  match v with
  | None => Continue (s <| pause_request_open := false |>) []
  | Some paused =>
    let s := pause_clock o paused s in
    if supports_pause then
      let msg := if paused then Pause test_id else Resume test_id in
      match to_json msg with
      | None => Ended (Err SerializePause) [PauseStreams paused]
      | Some _ => Continue s (PauseStreams paused :: if wrote o then [Wrote msg] else [])
      end
    else Continue s [PauseStreams paused]
  end.

Definition on_sending_done (o : observed) (s : loop_state) : outcome :=
  Continue (s <| finish_sent := true |>)
    (match to_json (Finish test_id) with
     | Some _ => if wrote o then [Wrote (Finish test_id)] else []
     | None => []
     end).

Definition loop_elapsed_ms (o : observed) (s : loop_state) : Z :=
  wrap 64 (saturating_sub (saturating_sub (now o) progress_start) (paused_total s) / 1000000).

Definition on_local_tick (o : observed) (s : loop_state) : outcome :=
  if negb has_consumer then Continue s []
  else if udp_bidir then
    Continue s
      (if room o then
         [Progress (mkTestProgress (loop_elapsed_ms o s) 0 zero [] None None None None None None None None
                      true None (udp_local_direction_progress (stats o)))]
       else [])
  else
    let dt := as_secs_f64 (saturating_sub (now o) (last_recv_instant s)) in
    let '(total, deltas, slots) := udp_recv_interval_deltas (stats o) (last_recv_bytes s) in
    let '(progress, filter) := apply (filter_state o) (udp_local_progress (stats o)) in
    Continue (s <| last_recv_bytes := slots |> <| last_recv_instant := now o |>)
      (FilterNow filter ::
       send_progress o (mkTestProgress (loop_elapsed_ms o s) total (secs_mbps total dt)
         (local_udp_recv_intervals deltas (stats o)) None None None None None None None progress false None None)).

(** The arms' preconditions, and the instants of the timers. *)
Definition enabled (t : Z) (e : loop_event) (s : loop_state) : bool :=
  let unpaused := match loop_pause_started s with None => true | Some _ => false end in
  match e with
  | Control _ => true
  | CancelChanged _ => cancel_request_open s
  | PauseChanged _ => pause_request_open s
  | LocalEnd =>
    negb (local_stop_sent s) && unpaused
    && match local_end_deadline s with Some d => d <=? t | None => false end
  | SendingDone => finish_on_budget && negb (finish_sent s)
  | LocalTick => (udp_download || udp_bidir) && negb (local_stop_sent s) && unpaused
  | DeadlineHit => unpaused && (deadline s <=? t)
  end.

Definition loop_step (o : observed) (e : loop_event) (s : loop_state) : outcome :=
  match e with
  | Control None | Control (Some EvEof) => Ended (Err ClosedWithoutResult) []
  | Control (Some EvReadError) => Ended (Err ControlRead) []
  | Control (Some EvParseError) => Ended (Err ControlParse) []
  | Control (Some (EvMessage m)) => on_message o m s
  | CancelChanged v => on_cancel_changed o v s
  | PauseChanged v => on_pause_changed o v s
  | LocalEnd => Continue (s <| local_stop_sent := true |>) [StopStreams]
  | SendingDone => on_sending_done o s
  | LocalTick => on_local_tick o s
  | DeadlineHit => Ended (Err ResponseTimeout) []
  end.

(** A run of the loop over the arms that fire, while they are enabled: its
    state or its end, and all it put out. *)
Fixpoint run_loop (es : list (observed * loop_event)) (s : loop_state)
    : option (loop_state + result TestResult loop_error) * list output :=
  match es with
  | [] => (Some (inl s), [])
  | (o, e) :: es =>
    if enabled (now o) e s then
      match loop_step o e s with
      | Continue s outs => let '(r, outs') := run_loop es s in (r, outs ++ outs')
      | Ended r outs => (Some (inr r), outs)
      end
    else (None, [])
  end.

(** After the loop: the streams are told to stop, then the result is
    corrected by what the client counted. *)
Definition finish_result (stats : TestStats) (r : TestResult) : TestResult :=
  let r := if udp_download then overlay_udp_download_result r stats else r in
  let r := if udp_bidir then overlay_udp_bidir_result r stats else r in
  let r := r <| tr_server_udp_send_errors ::= option_map (fun e =>
                  mkUdpSendErrors (count e) (sanitize_message (last_error e))) |>
             <| tr_client_udp_send_errors := TestStats.all_udp_send_errors stats |> in
  if bool_decide (protocol config = Tcp) && match byte_budget config with None => true | Some _ => false end
  then
    let n := count_zero_byte_streams r in
    r <| tr_zero_byte_streams := if 0 <? n then Some n else None |>
  else r.
End control_loop.

(** ** The clocks *)
Section clocks.
Context (to_json : ControlMessage -> option str) (config : ClientConfig) (test_id : str)
        (supports_pause finish_on_budget has_consumer : bool) (progress_start : Z).

Notation step := (loop_step to_json config test_id supports_pause has_consumer progress_start).
Notation run := (run_loop to_json config test_id supports_pause finish_on_budget has_consumer progress_start).

(** What an arm leaves of the clocks. *)
Definition clocks (s : loop_state) :=
  (deadline s, local_end_deadline s, loop_pause_started s, paused_total s).
Definition cancels (e : loop_event) : bool :=
  match e with CancelChanged (Some true) | Control (Some (EvMessage (Cancelled _))) => true | _ => false end.
Definition clocks_after (t : Z) (e : loop_event) (s : loop_state) : loop_state :=
  if cancels e then cancel_wait t s
  else match e with PauseChanged (Some b) => pause_clock (mkObserved t (mkTestStats [] [] 0 [] []) (fun _ => None) true true true None) b s | _ => s end.

Lemma pause_clock_clocks o o' b s s' :
  now o = now o' -> clocks s = clocks s' -> clocks (pause_clock o b s) = clocks (pause_clock o' b s').
Proof.
  unfold clocks. intros Hn [= E1 E2 E3 E4]. unfold pause_clock. rewrite E3, Hn.
  destruct b, (loop_pause_started s') eqn:E; cbn; by rewrite ?E1, ?E2, ?E3, ?E4, ?E.
Qed.

Lemma interval_progress_clocks o el rows a s p f s' :
  interval_progress config o el rows a s = (p, f, s') -> clocks s' = clocks s.
Proof.
  unfold interval_progress.
  destruct (match (if is_sender config then _ else _) with Some _ => _ | None => _ end) as [[rtt cw] tot].
  destruct (udp_bidir config).
  - destruct (udp_recv_interval_deltas _ _) as [[ir ds] sl].
    destruct (match ai_bytes_sent a with Some _ => _ | None => _ end) as [t m].
    destruct (match ai_udp_progress a with Some _ => _ | None => _ end) as [pr fi]. by intros [= <- <- <-].
  - destruct (match ai_udp_progress a with Some _ => _ | None => _ end) as [pr fi]. by intros [= <- <- <-].
Qed.

Lemma step_clocks o e s s' outs :
  step o e s = Continue s' outs -> clocks s' = clocks (clocks_after (now o) e s).
Proof.
  unfold loop_step, clocks_after. destruct e as [[[m| | |]|]|[[]|]|[b|]| | | |]; try done; cbn [cancels].
  - destruct m; try done; cbn [on_message]; try (by intros [= <- _]).
    unfold on_interval. destruct (_ && has_consumer); [|by intros [= <- _]].
    destruct (interval_progress _ _ _ _ _ _) as [[p f] s1] eqn:E. intros [= <- _].
    exact (interval_progress_clocks _ _ _ _ _ _ _ _ E).
  - unfold on_cancel_changed. destruct (to_json _); [|done]. by intros [= <- _].
  - by intros [= <- _].
  - by intros [= <- _].
  - unfold on_pause_changed. destruct supports_pause.
    + destruct (to_json _); [|done]. intros [= <- _]. by apply pause_clock_clocks.
    + intros [= <- _]. by apply pause_clock_clocks.
  - by intros [= <- _].
  - by intros [= <- _].
  - unfold on_sending_done. by intros [= <- _].
  - unfold on_local_tick. destruct has_consumer; [|by intros [= <- _]]. cbn [negb].
    destruct (udp_bidir config); [by intros [= <- _]|].
    destruct (udp_recv_interval_deltas _ _) as [[t ds] sl]. destruct (apply _ _) as [pr f]. by intros [= <- _].
Qed.

Lemma clocks_enabled t s s' : clocks s = clocks s' -> enabled config finish_on_budget t DeadlineHit s = enabled config finish_on_budget t DeadlineHit s'.
Proof. unfold clocks. intros [= E1 _ E3 _]. unfold enabled. by rewrite E1, E3. Qed.

(** Times of a run, in order. *)
Fixpoint loop_in_order (t : Z) (es : list (observed * loop_event)) : Prop :=
  match es with [] => True | (o, _) :: es => t <= now o /\ loop_in_order (now o) es end.
Definition loop_last (t : Z) (es : list (observed * loop_event)) : Z := fold_left (fun _ e => now (fst e)) es t.

(** ** A stop watch pressed at every pause and resume that takes effect *)
Definition loop_watch (w : StopWatch) (e : observed * loop_event) : StopWatch :=
  match snd e with
  | PauseChanged (Some b) => if Bool.eqb b (ticking w) then press (now (fst e)) w else w
  | _ => w
  end.

Definition timed (w : StopWatch) (t t0 : Z) (s : loop_state) : Prop :=
  0 <= App.measured w /\ since w <= t /\ t0 <= since w - App.measured w /\
  let base := since w - App.measured w in
  clocks s = (base + response_timeout config, local_stop_deadline base (duration config),
              if ticking w then None else Some (since w), base - t0).

Lemma timed_step o e s w t t0 s' outs :
  timed w t t0 s -> t <= now o -> cancels e = false -> step o e s = Continue s' outs ->
  timed (loop_watch w (o, e)) (now o) t0 s'.
Proof.
  intros (Hm & Hs & Hb & Hc) Ht He H. apply step_clocks in H. unfold clocks_after in H. rewrite He in H.
  assert (Hsame : clocks s' = clocks s -> timed w (now o) t0 s')
    by (intros E; split; [done|split; [lia|split; [done|by rewrite E]]]).
  unfold loop_watch. cbn [fst snd].
  destruct e as [| |[b|]| | | |]; try (by apply Hsame).
  unfold clocks in Hc. destruct w as [tick si me]. cbn [ticking since App.measured] in *.
  injection Hc as E1 E2 E3 E4. unfold pause_clock in H. cbn [now] in H. rewrite E3 in H.
  destruct b, tick; cbn [Bool.eqb]; unfold press, timed; cbn [ticking since App.measured].
  - split; [lia|]. split; [lia|]. split; [lia|]. rewrite H. unfold clocks. cbn. rewrite E1, E2, E4.
    by replace (now o - (me + (now o - si))) with (si - me) by lia.
  - apply Hsame, H.
  - apply Hsame, H.
  - split; [lia|]. split; [lia|]. split; [lia|]. rewrite H. unfold clocks. cbn. rewrite E1, E2, E4. unfold saturating_sub, local_stop_deadline.
    rewrite Z.max_r by lia. destruct (duration config =? 0); cbn [option_map];
      repeat match goal with |- (_, _) = (_, _) => apply f_equal2 end; try done; try (apply f_equal; lia); lia.
Qed.

Lemma timed_run es w t t0 s s' outs :
  timed w t t0 s -> loop_in_order t es -> Forall (fun e => cancels (snd e) = false) es ->
  run es s = (Some (inl s'), outs) -> timed (fold_left loop_watch es w) (loop_last t es) t0 s'.
Proof.
  revert w t s outs. induction es as [|[o e] es IH]; intros w t s outs Hw Ho Hc H.
  - cbn in H. by injection H as <- <-.
  - cbn [run_loop] in H. destruct Ho as [Ht Ho]. apply Forall_cons in Hc as [He Hc].
    destruct (enabled _ _ _ _ _); [|done]. destruct (step o e s) as [s1 o1|] eqn:E; [|done].
    destruct (run es s1) as [r o2] eqn:Er. injection H as -> <-.
    apply (IH (loop_watch w (o, e)) (now o) s1 o2); try done. by apply (timed_step _ _ _ _ _ _ _ _ Hw Ht He E).
Qed.

(** The instant of the last cancellation, the user's or the server's. *)
Definition cancel_instant (t : Z) (es : list (observed * loop_event)) : Z :=
  fold_left (fun t e => if cancels (snd e) then now (fst e) else t) es t.
Definition pauses (e : loop_event) : bool := match e with PauseChanged (Some true) => true | _ => false end.

Definition waiting (t : Z) (s : loop_state) : Prop :=
  deadline s = t + CONTROL_CANCEL_RESULT_TIMEOUT /\ loop_pause_started s = None.

Lemma waiting_run es t s s' outs :
  waiting t s -> Forall (fun e => pauses (snd e) = false) es ->
  run es s = (Some (inl s'), outs) -> waiting (cancel_instant t es) s'.
Proof.
  revert t s outs. induction es as [|[o e] es IH]; intros t s outs Hw Hp H.
  - cbn in H. by injection H as <- <-.
  - cbn [run_loop] in H. apply Forall_cons in Hp as [He Hp].
    destruct (enabled _ _ _ _ _); [|done]. destruct (step o e s) as [s1 o1|] eqn:E; [|done].
    destruct (run es s1) as [r o2] eqn:Er. injection H as -> <-.
    apply (IH _ s1 o2); try done. apply step_clocks in E. unfold clocks_after in E. cbn [fst snd].
    unfold clocks in E. destruct (cancels e); [by injection E as E1 _ E3 _; split|].
    destruct Hw as [Hd Hl].
    destruct e as [| |[[]|]| | | |]; try done; unfold pause_clock in E; rewrite ?Hl in E;
      injection E as E1 _ E3 _; by split; congruence.
Qed.
End clocks.

(** C39. Pauses cost nothing: over any run of the loop without a cancellation --
    messages, pauses and resumes repeated or not, ticks -- the response timeout
    fires exactly when the time spent unpaused reaches the timeout, the local
    end exactly when it reaches the test's duration, neither during a pause,
    and the elapsed time of the display is the unpaused time. *)
Theorem loop_clocks_exact (to_json : ControlMessage -> option str) (config : ClientConfig) (test_id : str)
    (supports_pause finish_on_budget has_consumer : bool) (t0 : Z) (stats0 : TestStats)
    (es : list (observed * loop_event)) (s : loop_state) (outs : list output) (o : observed) :
  loop_in_order t0 es -> Forall (fun e => cancels (snd e) = false) es -> loop_last t0 es <= now o ->
  run_loop to_json config test_id supports_pause finish_on_budget has_consumer t0 es (start_loop config t0 stats0)
    = (Some (inl s), outs) ->
  let w := fold_left loop_watch es (mkStopWatch true t0 0) in
  let on := fun e => enabled config finish_on_budget (now o) e s in
  on DeadlineHit = ticking w && (response_timeout config <=? reading (now o) w) /\
  on LocalEnd = negb (local_stop_sent s) && ticking w
                && negb (duration config =? 0) && (duration config <=? reading (now o) w) /\
  (ticking w = true -> loop_elapsed_ms t0 o s = wrap 64 (reading (now o) w / 1000000)).
Proof.
  intros Ho Hc Hn H w on.
  assert (H0 : timed config (mkStopWatch true t0 0) t0 t0 (start_loop config t0 stats0)).
  { split; [done|]. split; [done|]. split; [cbn; lia|]. cbn [since App.measured ticking]. unfold clocks, start_loop. cbn.
    by rewrite !Z.sub_0_r, Z.sub_diag. }
  pose proof (timed_run to_json config test_id supports_pause finish_on_budget has_consumer t0 es _ t0 t0 _ s outs H0 Ho Hc H)
    as (Hm & Hs & Hb & E). fold w in Hm, Hs, Hb, E. clearbody w. unfold clocks in E. injection E as E1 E2 E3 E4.
  subst on. unfold enabled, reading, loop_elapsed_ms. rewrite E1, E2, E3, E4.
  destruct w as [b si me]. cbn [ticking since App.measured] in *. destruct b; cbn [andb]; rewrite ?andb_false_r; split_and!; try done.
  - apply eq_true_iff_eq. rewrite !Z.leb_le. lia.
  - unfold local_stop_deadline. destruct (duration config =? 0); cbn [negb andb]; rewrite ?andb_true_r, ?andb_false_r; [done|].
    f_equal. apply eq_true_iff_eq. rewrite !Z.leb_le. lia.
  - intros _. f_equal. f_equal. unfold saturating_sub. lia.
Qed.

(** A cancelled test ends: the user's cancel stops the local streams at once,
    whatever becomes of the message to the server, and from then on -- whatever
    arrives -- the loop gives up three seconds after the last cancellation, the
    user's or the server's acknowledgement.  But only if the user does not
    press pause again: a pause after the cancel freezes that wait, and no
    instant ends it. *)
Theorem cancel_wait_bounded (to_json : ControlMessage -> option str) (config : ClientConfig) (test_id : str)
    (supports_pause finish_on_budget has_consumer : bool) (t0 : Z) (o : observed)
    (es : list (observed * loop_event)) (s s' : loop_state) (outs : list output) :
  let run := run_loop to_json config test_id supports_pause finish_on_budget has_consumer t0 in
  run ((o, CancelChanged (Some true)) :: es) s = (Some (inl s'), outs) ->
  (exists rest, outs = StopStreams :: rest) /\
  (Forall (fun e => pauses (snd e) = false) es -> forall t,
     enabled config finish_on_budget t DeadlineHit s'
     = (cancel_instant (now o) es + CONTROL_CANCEL_RESULT_TIMEOUT <=? t)) /\
  ((exists o', es = [(o', PauseChanged (Some true))]) ->
     forall t, enabled config finish_on_budget t DeadlineHit s' = false).
Proof.
  intros run H. subst run. cbn [run_loop fst] in H.
  destruct (enabled config finish_on_budget (now o) (CancelChanged (Some true)) s); [|done].
  cbn [loop_step on_cancel_changed] in H. destruct (to_json _); [|done].
  destruct (run_loop to_json config test_id supports_pause finish_on_budget has_consumer t0 es _) as [r o2] eqn:Er.
  injection H as -> <-. split; [cbn; by eexists|]. split.
  - intros Hp t. destruct (waiting_run to_json config test_id supports_pause finish_on_budget has_consumer t0
      es (now o) (cancel_wait (now o) s) s' o2 (conj eq_refl eq_refl) Hp Er) as [Hd Hl]. unfold enabled. by rewrite Hl, Hd.
  - intros [o' ->] t. cbn [run_loop] in Er. destruct (enabled _ _ _ _ _); [|done].
    destruct (loop_step to_json config test_id supports_pause has_consumer t0 o' (PauseChanged (Some true)) _)
      as [s1 o1|] eqn:E; [|done]. cbn in Er. injection Er as <- _. apply step_clocks in E.
    unfold clocks, clocks_after, pause_clock in E. cbn in E. injection E as _ _ E _. unfold enabled. by rewrite E.
Qed.

(** ** A concrete run *)
Definition demo_stats : TestStats := mkTestStats (txt "t") [] 0 [] [].
Definition demo_obs (t : Z) : observed := mkObserved t demo_stats (fun _ => None) true true true None.
Definition demo_json (m : ControlMessage) : option str := Some [].
Definition demo_pause_run : list (observed * loop_event) :=
  [(demo_obs 5, PauseChanged (Some true)); (demo_obs 7, PauseChanged (Some true));
   (demo_obs 9, PauseChanged (Some false)); (demo_obs 11, Control (Some (EvMessage (Resume (txt "t")))))].

Lemma loop_clocks_exact_witness :
  exists s outs, run_loop demo_json default_config (txt "t") true false true 0 demo_pause_run
                   (start_loop default_config 0 demo_stats) = (Some (inl s), outs) /\
    enabled default_config false 10000000004 LocalEnd s = true /\
    enabled default_config false 10000000003 LocalEnd s = false.
Proof.
  eexists _, _. split; [reflexivity|].
  split;
    (match goal with |- enabled _ _ ?t _ ?s = _ =>
       pose proof (loop_clocks_exact demo_json default_config (txt "t") true false true 0 demo_stats demo_pause_run s _ (demo_obs t)
         ltac:(vm_compute; repeat split; discriminate) ltac:(repeat constructor) ltac:(vm_compute; discriminate) eq_refl) as (_ & H & _)
     end; exact H).
Defined.

Lemma cancel_wait_bounded_witness :
  exists s outs, run_loop demo_json default_config (txt "t") true false true 0
      [(demo_obs 5, CancelChanged (Some true)); (demo_obs 8, Control (Some (EvMessage (Cancelled (txt "t")))))]
      (start_loop default_config 0 demo_stats) = (Some (inl s), StopStreams :: outs) /\
    enabled default_config false 3000000008 DeadlineHit s = true.
Proof.
  eexists _, _. split; [reflexivity|].
  match goal with |- enabled _ _ ?t _ ?s = _ =>
    destruct (cancel_wait_bounded demo_json default_config (txt "t") true false true 0 (demo_obs 5)
      [(demo_obs 8, Control (Some (EvMessage (Cancelled (txt "t")))))] (start_loop default_config 0 demo_stats) s _ eq_refl) as (_ & H & _)
  end.
  exact (H ltac:(repeat constructor) 3000000008).
Defined.
