(* ===== verification/TcpStream.v ===== *)
(** * TCP data streams (src/src/tcp.rs, src/src/zerocopy.rs)

    The send loop, whole or on the write half of a bidirectional stream, with
    its teardown, and the receive loop with its drain.  A loop is a function
    of what it observes: the cancel and pause channels, which arm of its
    [select!] fired, the clock, what each system call returned.  Times are
    nanoseconds.  Platform branches are those of Linux.  The byte budget is
    the stream's own view of the counter; sharing it is the subject of
    Budget.v. *)
From coqutil Require Import Datatypes.RecordSettersUsingExistingGetters.
From Stdlib Require Import SpecFloat.
From S2P Require Import Prelude Bytes Float Budget Protocol Stats.

Definition DEFAULT_BUFFER_SIZE : Z := 128 * 1024.
Definition SEND_TEARDOWN_GRACE : Z := 250000000.
Definition RECEIVE_CANCEL_DRAIN_GRACE : Z := 200000000.
Definition ACK_WAIT_CAP : Z := 5000000000.

(** [std::io::ErrorKind], as far as the loops look at it. *)
Inductive ErrorKind :=
  | ConnectionReset | BrokenPipe | ConnectionAborted | WouldBlock | WriteZero
  | Unsupported | InvalidInput | Interrupted | OtherError.

Definition is_peer_closed_error (e : ErrorKind) : bool :=
  match e with ConnectionReset | BrokenPipe | ConnectionAborted => true | _ => false end.

Definition should_end_receive_after_error (e : ErrorKind) (cancel_requested expected_teardown : bool) : bool :=
  cancel_requested || (expected_teardown && is_peer_closed_error e).

(** Whether the deadline is reached, and whether it is near. *)
Definition receive_teardown_window (start now duration : Z) : bool * bool :=
  if duration =? 0 then (false, false)
  else
    let deadline := start + duration in
    let deadline_reached := deadline <=? now in
    (deadline_reached,
     negb deadline_reached && (SEND_TEARDOWN_GRACE <? duration)
     && (saturating_sub deadline now <=? SEND_TEARDOWN_GRACE)).

Definition clamp_bytes_sent_to_acked (info : TcpInfoSnapshot) (s : StreamStats) : StreamStats :=
  match tcp_bytes_acked info with
  | Some acked => if acked <? bytes_sent s then StreamStats.with_bytes acked (bytes_received s) s else s
  | None => s
  end.

Record TcpConfig := mkTcpConfig {
  buffer_size : Z; nodelay : bool; window_size : option Z; congestion : option str;
  random_payload : bool; zerocopy : bool
}.
Definition default_config : TcpConfig := mkTcpConfig DEFAULT_BUFFER_SIZE false None None false false.

(** ** Socket options *)

Inductive sockopt :=
  | TcpNodelay (v : bool) | SndBuf (v : Z) | RcvBuf (v : Z) | TcpCongestion (algo : str)
  | MaxPacingRate (v : Z) | LingerZero.

Definition c_int_max : Z := 2 ^ 31 - 1.

Section options.
(** [setsockopt], asked of the kernel: its error. *)
Variable setsockopt : sockopt -> option ErrorKind.
Definition set (o : sockopt) : result unit ErrorKind :=
  match setsockopt o with Some e => Err e | None => Ok tt end.

(** The options set, in order; failures to size the buffers are only logged. *)
Definition configure_socket_buffers (size : Z) : list sockopt * result unit ErrorKind :=
  if c_int_max <? size then ([], Err InvalidInput)
  else if size <=? 0 then ([], Err InvalidInput)
  else ([SndBuf size; RcvBuf size], Ok tt).

(** [k] once the options before it went through. *)
Definition and_then (r k : list sockopt * result unit ErrorKind) : list sockopt * result unit ErrorKind :=
  match r.2 with Ok _ => (r.1 ++ k.1, k.2) | Err _ => r end.

Definition configure_stream (c : TcpConfig) : list sockopt * result unit ErrorKind :=
  and_then ([TcpNodelay (nodelay c)], set (TcpNodelay (nodelay c)))
    (and_then (match window_size c with Some w => configure_socket_buffers w | None => ([], Ok tt) end)
       (match congestion c with
        | Some algo => ([TcpCongestion algo], set (TcpCongestion algo))
        | None => ([], Ok tt)
        end)).

Definition pacing_rate_bytes_per_sec (bitrate_bps : Z) : Z :=
  if bitrate_bps =? 0 then 0 else Z.min (saturating_add 64 bitrate_bps 7 / 8) u64_max.

Definition kernel_pacing (bitrate : option Z) : bool :=
  match bitrate with
  | Some bps => (0 <? bps) && is_ok (set (MaxPacingRate (pacing_rate_bytes_per_sec bps)))
  | None => false
  end.
End options.

(** The chunk a rate-limited stream writes at once. *)
Definition send_buffer_size (c : TcpConfig) (bitrate : option Z) : Z :=
  match bitrate with
  | Some bps => if 0 <? bps then Z.min (buffer_size c) (Z.max (bps / 8 / 10) 1) else buffer_size c
  | None => buffer_size c
  end.

(** ** One write *)

(** What a system call that queues bytes does: it takes as many as there is
    room for, at most those offered; it fails; or a signal interrupts it, with
    the outcome of calling it again. *)
Inductive sys_write := Accepts (room : nat) | Fails (e : ErrorKind) | Eintr (again : sys_write).

Definition offered (len : Z) (room : nat) : Z := Z.min (Z.of_nat room) len.

(** [sendfile_once] calls again after a signal. *)
Fixpoint sendfile_call (remaining : Z) (w : sys_write) : result Z ErrorKind :=
  match w with
  | Accepts room => Ok (offered remaining room)
  | Fails e => Err e
  | Eintr again => sendfile_call remaining again
  end.
Definition sendfile_once (payload_len offset max_len : Z) (w : sys_write) : result Z ErrorKind :=
  let remaining := Z.min (saturating_sub payload_len offset) max_len in
  if remaining =? 0 then Ok 0 else sendfile_call remaining w.
Definition or_would_block (r : result Z ErrorKind) : result Z ErrorKind :=
  match r with Err WouldBlock => Ok 0 | r => r end.
Definition send_chunk (payload_len offset max_len : Z) (ready : option ErrorKind) (w : sys_write)
    : result Z ErrorKind :=
  match ready with
  | Some e => Err e
  | None => or_would_block (sendfile_once payload_len offset max_len w)
  end.

Definition try_write (len : Z) (w : sys_write) : result Z ErrorKind :=
  match w with Accepts room => Ok (offered len room) | Fails e => Err e | Eintr _ => Err Interrupted end.

(** [len] bytes at [offset] of a payload; [ready] is the error of waiting for
    the socket. *)
Definition write_chunk (zerocopy : bool) (payload_len len offset : Z) (ready : option ErrorKind)
    (w : sys_write) : result Z ErrorKind :=
  if zerocopy then send_chunk payload_len offset len ready w
  else
    match ready with
    | Some e => Err e
    | None =>
      match try_write len w with
      | Ok n => if (n =? 0) && negb (len =? 0) then Err WriteZero else Ok n
      | r => or_would_block r
      end
    end.

(** ** The send loop *)

Inductive sleep_end := SleepCancelled | SleepPauseChanged | SleptEnough.

(** The arm of the [select!] that fired.  A write comes with what waiting for
    the socket and the call gave, the clock and the end of the nap for pacing,
    and, for its failure, the cancel flag, the clock and the kernel's
    TCP_INFO. *)
Inductive send_arm :=
  | CancelChanged | PauseChanged | DeadlineReached
  | Write (ready : option ErrorKind) (w : sys_write) (paced_at : Z) (nap : sleep_end)
      (cancelled : bool) (failed_at : Z) (info : option TcpInfoSnapshot).

Inductive send_obs :=
  | Cancelled
  | Paused (cancelled : bool) (paused resumed_at : Z)
  | Pass (now : Z) (a : send_arm).

Record sender := mkSender {
  budget : option Z; deadline : Z; pace_start : Z; pace_bytes_offset : Z; chunk_offset : Z;
  use_zerocopy : bool; send_stats : StreamStats;
  (** the bytes the kernel queued *)
  wire : list Z
}.

Inductive send_end :=
  | Running
  | StoppedByCancel | StoppedAtDeadline | StoppedBudgetSpent | StoppedByTeardown (e : ErrorKind)
  | SendFailed (e : ErrorKind).

Section send.
Variables (buffer : list Z) (is_infinite paced_by_kernel : bool) (bitrate : option Z).
Definition buffer_len : Z := Z.of_nat (length buffer).

(** How long the stream is ahead of its rate, in seconds. *)
Definition overshoot (paced_at : Z) (s : sender) : option f64 :=
  match bitrate with
  | Some bps =>
    if negb paced_by_kernel && (0 <? bps) then
      let bytes_per_sec := fdiv (of_int bps) (of_int 8) in
      let expected := fmul (as_secs_f64 (saturating_sub paced_at (pace_start s))) bytes_per_sec in
      let total := of_int (wrapping_sub 64 (bytes_sent (send_stats s)) (pace_bytes_offset s)) in
      if fgtb total expected then Some (fdiv (fsub total expected) bytes_per_sec) else None
    else None
  | None => None
  end.

Definition advance_chunk (n : Z) (s : sender) : Z :=
  let offset := chunk_offset s + n in
  if buffer_len <=? offset then 0 else offset.

(** [n] of the [claimed] bytes were queued. *)
Definition wrote (claimed n : Z) (s : sender) : sender :=
  s <| budget ::= fun b => ByteBudget.refund_unwritten b claimed n |>
    <| send_stats ::= StreamStats.add_bytes_sent n |>
    <| wire ::= fun w => w ++ take (Z.to_nat n) (drop (Z.to_nat (chunk_offset s)) buffer) |>
    <| chunk_offset := advance_chunk n s |>.

Definition unwritten (claimed : Z) (s : sender) : sender :=
  s <| budget ::= fun b => ByteBudget.refund_unwritten b claimed 0 |>.

Definition clamp_sent (info : option TcpInfoSnapshot) (s : sender) : sender :=
  match info with
  | Some info => s <| send_stats ::= clamp_bytes_sent_to_acked info |>
  | None => s
  end.

(** A write failed after the claim went back. *)
Definition write_failed (e : ErrorKind) (cancelled : bool) (now : Z) (info : option TcpInfoSnapshot)
    (s : sender) : send_end * sender :=
  let deadline_reached := negb is_infinite && (deadline s <=? now) in
  let near_deadline := negb is_infinite && (deadline s <=? now + SEND_TEARDOWN_GRACE) in
  if cancelled || deadline_reached || (is_peer_closed_error e && near_deadline)
  then (StoppedByTeardown e, s)
  else (SendFailed e, clamp_sent info s).

Definition demotes (e : ErrorKind) : bool :=
  match e with Unsupported | InvalidInput => true | _ => false end.

(** The rest of a pass once [claimed] bytes are reserved. *)
Definition send_arm_step (claimed : Z) (a : send_arm) (s : sender) : send_end * sender :=
  match a with
  | CancelChanged => (StoppedByCancel, unwritten claimed s)
  | PauseChanged => (Running, unwritten claimed s)
  | DeadlineReached => (StoppedAtDeadline, unwritten claimed s)
  | Write ready w paced_at nap cancelled failed_at info =>
    match write_chunk (use_zerocopy s) buffer_len claimed (chunk_offset s) ready w with
    | Ok n =>
      let s := wrote claimed n s in
      match overshoot paced_at s, nap with
      | Some _, SleepCancelled => (StoppedByCancel, s)
      | _, _ => (Running, s)
      end
    | Err e =>
      let s := unwritten claimed s in
      if use_zerocopy s && demotes e then (Running, s <| use_zerocopy := false |>)
      else write_failed e cancelled failed_at info s
    end
  end.

Definition send_pass (o : send_obs) (s : sender) : send_end * sender :=
  match o with
  | Cancelled => (StoppedByCancel, s)
  | Paused true _ _ => (StoppedByCancel, s)
  | Paused false paused resumed_at =>
    (Running, s <| deadline ::= fun d => d + paused |> <| pace_start := resumed_at |>
                <| pace_bytes_offset := bytes_sent (send_stats s) |>)
  | Pass now a =>
    if negb is_infinite && (deadline s <=? now) then (StoppedAtDeadline, s)
    else
      let '(b, claimed) := ByteBudget.claim_or_full (budget s) (buffer_len - chunk_offset s) in
      let s := s <| budget := b |> in
      if claimed =? 0 then (StoppedBudgetSpent, s) else send_arm_step claimed a s
  end.

Fixpoint send_loop (os : list send_obs) (s : sender) : send_end * sender :=
  match os with
  | [] => (Running, s)
  | o :: os =>
    match send_pass o s with
    | (Running, s) => send_loop os s
    | r => r
    end
  end.
End send.

(** ** After the send loop *)

(** One look at the send queue: what the kernel says is queued, if it says,
    the cancel flag, the clock, and whether the cancel channel changes during
    the millisecond that follows. *)
Record ack_poll := mkAckPoll {
  queued : option Z; poll_cancelled : bool; poll_now : Z; cancel_changes : bool
}.

(** Whether the wait has returned, [deadline] being the cap. *)
Fixpoint wait_for_send_queue_acked (deadline : Z) (polls : list ack_poll) : bool :=
  match polls with
  | [] => false
  | p :: polls =>
    match queued p with
    | None => true
    | Some q =>
      (q <=? 0) || poll_cancelled p || (deadline <=? poll_now p) || cancel_changes p
      || wait_for_send_queue_acked deadline polls
    end
  end.

Definition refresh_after_ack_wait (before after : option TcpInfoSnapshot) (s : StreamStats)
    : option TcpInfoSnapshot * StreamStats :=
  match after with
  | None => (before, s)
  | Some a =>
    let counted := match before with Some b => tcp_retransmits b | None => 0 end in
    (Some a, StreamStats.add_retransmits (saturating_sub (tcp_retransmits a) counted) s)
  end.

(** The snapshot to report and the counters, from what the kernel says after
    the loop and again after the wait.  A byte-budget test closes gracefully
    and waits; a timed one is reset when the socket is dropped, so its count
    falls back to what was acknowledged. *)
Definition finish_send (has_budget : bool) (info after : option TcpInfoSnapshot) (s : StreamStats)
    : option TcpInfoSnapshot * StreamStats :=
  let s :=
    match info with
    | Some i =>
      let s := StreamStats.add_retransmits (tcp_retransmits i) s in
      if has_budget then s else clamp_bytes_sent_to_acked i s
    | None => s
    end in
  if has_budget then refresh_after_ack_wait info after s else (info, s).

Definition start_sender (b : option Z) (start duration : Z) (zerocopy_ready : bool) (s : StreamStats) : sender :=
  mkSender b (start + duration) start 0 0 zerocopy_ready s [].

Definition is_some {A} (o : option A) : bool := match o with Some _ => true | None => false end.

(** [send_data_half], and [send_data] after its socket options: [None] while
    the loop runs. *)
Definition send_data_half (buffer : list Z) (paced_by_kernel zerocopy_ready : bool) (bitrate b : option Z)
    (start duration : Z) (os : list send_obs) (info after : option TcpInfoSnapshot) (s : StreamStats)
    : option (result (option TcpInfoSnapshot) ErrorKind) * sender :=
  let '(e, x) := send_loop buffer (duration =? 0) paced_by_kernel bitrate os
                   (start_sender b start duration zerocopy_ready s) in
  match e with
  | Running => (None, x)
  | SendFailed e => (Some (Err e), x)
  | _ =>
    let '(report, s) := finish_send (is_some b) info after (send_stats x) in
    (Some (Ok report), x <| send_stats := s |>)
  end.

Definition send_data (setsockopt : sockopt -> option ErrorKind) (c : TcpConfig) (buffer : list Z)
    (zerocopy_ready : bool) (bitrate b : option Z) (start duration : Z) (os : list send_obs)
    (info after : option TcpInfoSnapshot) (s : StreamStats)
    : option (result (option TcpInfoSnapshot) ErrorKind) * sender :=
  match (configure_stream setsockopt c).2 with
  | Err e => (Some (Err e), start_sender b start duration zerocopy_ready s)
  | Ok _ =>
    send_data_half buffer (kernel_pacing setsockopt bitrate) zerocopy_ready bitrate b start duration os
      info after s
  end.

(** ** The receive loop *)

Inductive recv_obs :=
  | ReadBytes (n : Z)
  | ReadFailed (e : ErrorKind) (cancelled : bool) (now : Z)
  | RecvCancelChanged (dropped value : bool).

Inductive recv_end := Receiving | EndOfStream | RecvCancelled | RecvTeardown | RecvFailed (e : ErrorKind).

Definition recv_step (start duration : Z) (o : recv_obs) (s : StreamStats) : recv_end * StreamStats :=
  match o with
  | ReadBytes n => if n =? 0 then (EndOfStream, s) else (Receiving, StreamStats.add_bytes_received n s)
  | ReadFailed WouldBlock _ _ => (Receiving, s)
  | ReadFailed e cancelled now =>
    let '(deadline_reached, near_deadline) := receive_teardown_window start now duration in
    if should_end_receive_after_error e cancelled (deadline_reached || near_deadline)
    then (if cancelled then RecvCancelled else RecvTeardown, s)
    else (RecvFailed e, s)
  | RecvCancelChanged dropped value => if dropped || value then (RecvCancelled, s) else (Receiving, s)
  end.

Fixpoint receive_loop (start duration : Z) (os : list recv_obs) (s : StreamStats)
    : recv_end * StreamStats * list recv_obs :=
  match os with
  | [] => (Receiving, s, [])
  | o :: os =>
    match recv_step start duration o s with
    | (Receiving, s) => receive_loop start duration os s
    | (e, s) => (e, s, os)
    end
  end.

(** One read of the drain, with the clock before it; a read that outlasts the
    window is [None]. *)
Fixpoint drain_after_cancel (deadline : Z) (os : list (Z * option (result Z ErrorKind))) (drained : Z) : Z :=
  match os with
  | [] => drained
  | (now, r) :: os =>
    if deadline <=? now then drained
    else
      match r with
      | Some (Ok n) => if n =? 0 then drained
                       else drain_after_cancel deadline os (wrapping_add 64 drained n)
      | Some (Err WouldBlock) => drain_after_cancel deadline os drained
      | Some (Err _) | None => drained
      end
  end.

(** [receive_data_half], and [receive_data] after its socket options: [None]
    while the loop runs.  What is drained after a cancel is not counted. *)
Definition receive_data_half (start duration : Z) (os : list recv_obs) (s : StreamStats)
    : option (result unit ErrorKind) * StreamStats :=
  let '(e, s, _) := receive_loop start duration os s in
  match e with
  | Receiving => (None, s)
  | RecvFailed e => (Some (Err e), s)
  | _ => (Some (Ok tt), s)
  end.

Definition receive_data (setsockopt : sockopt -> option ErrorKind) (c : TcpConfig) (start duration : Z)
    (os : list recv_obs) (info : option TcpInfoSnapshot) (s : StreamStats)
    : option (result (option TcpInfoSnapshot) ErrorKind) * StreamStats :=
  match (configure_stream setsockopt c).2 with
  | Err e => (Some (Err e), s)
  | Ok _ =>
    match receive_data_half start duration os s with
    | (Some (Ok _), s) =>
      (Some (Ok info), match info with
                       | Some i => StreamStats.add_retransmits (tcp_retransmits i) s
                       | None => s
                       end)
    | (Some (Err e), s) => (Some (Err e), s)
    | (None, s) => (None, s)
    end
  end.

(** ** What is written *)

Lemma offered_bound len room : 0 <= len -> 0 <= offered len room <= len.
Proof. unfold offered. lia. Qed.

Lemma sendfile_call_bound remaining w n :
  0 <= remaining -> sendfile_call remaining w = Ok n -> 0 <= n <= remaining.
Proof. intros H. induction w as [room|e|w IH]; cbn; [intros [= <-]; by apply offered_bound|done|done]. Qed.

Lemma or_would_block_ok r n : or_would_block r = Ok n -> r = Ok n \/ n = 0.
Proof. destruct r as [m|[]]; cbn; auto. intros [= <-]. auto. Qed.

(** A write queues at most what it was offered, on either path. *)
Lemma write_chunk_bound zc payload_len len offset ready w n :
  0 <= len -> write_chunk zc payload_len len offset ready w = Ok n -> 0 <= n <= len.
Proof.
  intros Hl. unfold write_chunk, send_chunk. destruct zc, ready as [e|]; try done.
  - intros H. apply or_would_block_ok in H as [H| ->]; [|lia]. unfold sendfile_once in H.
    destruct (_ =? 0); [injection H as <-; lia|]. unfold saturating_sub in H.
    apply sendfile_call_bound in H; lia.
  - unfold try_write. destruct w as [room|e|w]; cbn.
    + pose proof (offered_bound len room Hl). destruct (_ && _); [done|]. by intros [= <-].
    + destruct e; cbn; try done. intros [= <-]. lia.
    + done.
Qed.

Section wire.
Variables (buffer : list Z) (is_infinite paced_by_kernel : bool) (bitrate : option Z)
          (total : option Z) (sent0 : Z).
Hypotheses (Hbuf : buffer <> []) (Htotal : match total with Some t => fits 64 t | None => True end).

(** The wire holds the buffer over and over, cut anywhere; the budget and the
    wire make up the total. *)
Definition queued_ok (s : sender) : Prop :=
  (forall i, (i < length (wire s))%nat -> wire s !! i = buffer !! (i mod length buffer)%nat) /\
  chunk_offset s = Z.of_nat (length (wire s) mod length buffer) /\
  match total with
  | Some t => exists rest, budget s = Some rest /\ 0 <= rest /\ Z.of_nat (length (wire s)) + rest = t
  | None => budget s = None
  end.
Definition counted (s : sender) : Prop :=
  bytes_sent (send_stats s) = wrapping_add 64 sent0 (Z.of_nat (length (wire s))).

Lemma buffer_pos : (0 < length buffer)%nat.
Proof using Hbuf. destruct buffer; [done|cbn; lia]. Qed.

Lemma wrote_ok s n :
  queued_ok s -> 0 <= n <= Z.of_nat (length buffer) - chunk_offset s ->
  let w' := wire s ++ take (Z.to_nat n) (drop (Z.to_nat (chunk_offset s)) buffer) in
  length w' = (length (wire s) + Z.to_nat n)%nat /\
  (forall i, (i < length w')%nat -> w' !! i = buffer !! (i mod length buffer)%nat) /\
  advance_chunk buffer n s = Z.of_nat (length w' mod length buffer).
Proof using Hbuf.
  intros (Hw & Ho & _) Hn w'. pose proof buffer_pos as HL. rewrite Ho in Hn.
  pose proof (Nat.mod_upper_bound (length (wire s)) (length buffer) ltac:(lia)) as Hm.
  set (o := (length (wire s) mod length buffer)%nat) in *.
  assert (El : length w' = (length (wire s) + Z.to_nat n)%nat)
    by (unfold w'; rewrite length_app, length_take, length_drop, Ho; lia).
  assert (Em : forall j, ((length (wire s) + j) mod length buffer = (o + j) mod length buffer)%nat)
    by (intros j; unfold o; by rewrite Nat.Div0.add_mod_idemp_l).
  split; [exact El|]. split.
  - intros i Hi. rewrite El in Hi. unfold w'. destruct (Nat.lt_ge_cases i (length (wire s))) as [H|H].
    + rewrite lookup_app_l by done. by apply Hw.
    + rewrite lookup_app_r by done. rewrite Ho, Nat2Z.id, lookup_take_lt, lookup_drop by lia.
      f_equal. replace i with (length (wire s) + (i - length (wire s)))%nat at 2 by lia. rewrite Em.
      rewrite Nat.mod_small; lia.
  - rewrite El, Em. unfold advance_chunk, buffer_len. rewrite Ho. fold o. zcase.
    + replace (o + Z.to_nat n)%nat with (length buffer) by lia. by rewrite Nat.Div0.mod_same.
    + rewrite Nat.mod_small by lia. lia.
Qed.

Definition fine (r : send_end * sender) : Prop :=
  queued_ok r.2 /\
  match r.1 with
  | SendFailed _ => True
  | StoppedBudgetSpent => counted r.2 /\ total = Some (Z.of_nat (length (wire r.2)))
  | _ => counted r.2
  end.

(** Handing a claim back, and writing part of it. *)
Lemma claim_ok s b' claimed n :
  queued_ok s -> ByteBudget.claim_or_full (budget s) (buffer_len buffer - chunk_offset s) = (b', claimed) ->
  0 <= n <= claimed ->
  0 <= claimed <= Z.of_nat (length buffer) - chunk_offset s /\
  (claimed = 0 -> total = Some (Z.of_nat (length (wire s)))) /\
  match total with
  | Some t => exists rest, ByteBudget.refund_unwritten b' claimed n = Some rest /\ 0 <= rest /\
                Z.of_nat (length (wire s)) + n + rest = t
  | None => ByteBudget.refund_unwritten b' claimed n = None
  end.
Proof using Hbuf Htotal.
  intros (Hw & Ho & Hb) Hc Hn. unfold buffer_len in Hc. pose proof buffer_pos as HL.
  pose proof (Nat.mod_upper_bound (length (wire s)) (length buffer) ltac:(lia)) as Hm. rewrite Ho in Hc |- *.
  destruct total as [t|]; [destruct Hb as (rest & Eb & Hr & Et)|].
  - rewrite Eb in Hc. unfold fits in Htotal.
    assert (Hx : rest < 2 ^ 64) by lia.
    destruct (refund_claim (Some rest) (Z.of_nat (length buffer) - Z.of_nat (length (wire s) mod length buffer)) b' claimed n ltac:(lia) (conj Hr Hx) Hc Hn) as (E1 & E2 & E3).
    split; [lia|]. split; [intros Hz; specialize (E3 Hz ltac:(lia)) as [= ->]; f_equal; lia|].
    rewrite E1. cbn. eexists. split; [done|]. assert (n <= rest); [|lia].
    cbn in Hc. unfold ByteBudget.claim, ByteBudget.claim_iter in Hc. rewrite Z.eqb_refl in Hc. cbn in Hc.
    destruct (_ =? 0); injection Hc as <- <-; lia.
  - rewrite Hb in Hc. destruct (refund_claim None (Z.of_nat (length buffer) - Z.of_nat (length (wire s) mod length buffer)) b' claimed n ltac:(lia) I Hc Hn) as (E1 & E2 & E3).
    split; [lia|]. split; [intros Hz; by specialize (E3 Hz ltac:(lia))|]. by rewrite E1.
Qed.

Lemma unwritten_ok s b' claimed :
  queued_ok s -> ByteBudget.claim_or_full (budget s) (buffer_len buffer - chunk_offset s) = (b', claimed) ->
  0 <= claimed -> queued_ok (unwritten claimed (s <| budget := b' |>)).
Proof using Hbuf Htotal.
  intros Hs Hc H0. destruct (claim_ok s b' claimed 0 Hs Hc ltac:(lia)) as (_ & _ & Hb).
  destruct Hs as (Hw & Ho & _). split; [exact Hw|]. split; [exact Ho|]. cbn. by rewrite Z.add_0_r in Hb.
Qed.

Lemma clamp_sent_queued info s : queued_ok s -> queued_ok (clamp_sent info s).
Proof. by destruct info. Qed.

Lemma write_failed_fine e c now info s : queued_ok s -> counted s -> fine (write_failed is_infinite e c now info s).
Proof. intros Hq Hs. unfold write_failed. destruct (_ || _); split; try done. by apply clamp_sent_queued. Qed.

Lemma arm_fine s b' claimed a :
  queued_ok s -> counted s ->
  ByteBudget.claim_or_full (budget s) (buffer_len buffer - chunk_offset s) = (b', claimed) -> 0 <= claimed ->
  fine (send_arm_step buffer is_infinite paced_by_kernel bitrate claimed a (s <| budget := b' |>)).
Proof using Hbuf Htotal.
  intros Hq Hs Hc H0. pose proof (unwritten_ok s b' claimed Hq Hc H0) as Hu.
  destruct a as [| | |ready w paced_at nap c at_ info]; try by split.
  cbn [send_arm_step]. destruct (write_chunk _ _ _ _ _ _) as [n|e] eqn:Ew.
  - apply (write_chunk_bound _ _ _ _ _ _ _ H0) in Ew.
    destruct (claim_ok s b' claimed n Hq Hc Ew) as (Hcl & _ & Hb).
    destruct (wrote_ok s n Hq ltac:(lia)) as (El & Hw & Ha).
    assert (Hq' : queued_ok (wrote buffer claimed n (s <| budget := b' |>))).
    { split; [exact Hw|]. split; [exact Ha|]. revert Hb. cbn [budget wire wrote]. cbn. rewrite El.
      destruct total as [t|]; [|done]. intros (rest & Eb & Hr & Et). exists rest. split; [done|]. lia. }
    assert (Hs' : counted (wrote buffer claimed n (s <| budget := b' |>))).
    { unfold counted in *. cbn in El |- *. rewrite El, Hs. unfold wrapping_add, wrap.
      rewrite Zplus_mod_idemp_l. f_equal. lia. }
    generalize dependent (wrote buffer claimed n (s <| budget := b' |>)). intros s' Hq' Hs'.
    destruct (overshoot _ _ _ _); [destruct nap|]; by split.
  - destruct (_ && _); [by split|]. by apply write_failed_fine.
Qed.

Lemma pass_fine o s : queued_ok s -> counted s -> fine (send_pass buffer is_infinite paced_by_kernel bitrate o s).
Proof using Hbuf Htotal.
  intros Hq Hs. destruct o as [|[] paused at_|now a]; try by split. cbn [send_pass].
  destruct (_ && _); [by split|].
  destruct (ByteBudget.claim_or_full _ _) as [b' claimed] eqn:Ec.
  assert (H0 : 0 <= claimed).
  { destruct Hq as (_ & Ho & Hb). pose proof buffer_pos as HL.
    pose proof (Nat.mod_upper_bound (length (wire s)) (length buffer) ltac:(lia)) as Hm. unfold buffer_len in Ec.
    destruct total as [t|]; [destruct Hb as (r & Eb & Hr & _)|]; [rewrite Eb in Ec|rewrite Hb in Ec; cbn in Ec; injection Ec as <- <-; lia].
    cbn in Ec. unfold ByteBudget.claim, ByteBudget.claim_iter in Ec. rewrite Z.eqb_refl in Ec. cbn in Ec.
    destruct (_ =? 0); injection Ec as <- <-; lia. }
  destruct (Z.eqb_spec claimed 0) as [Hz|Hz].
  - destruct (claim_ok s b' claimed 0 Hq Ec ltac:(lia)) as (_ & Ht & _).
    pose proof (unwritten_ok s b' claimed Hq Ec H0) as (Hw & Ho & Hb). split; [|split; [done|by apply Ht]].
    split; [exact Hw|]. split; [exact Ho|]. revert Hb. rewrite Hz. cbn. by destruct b' as [r|].
  - by apply arm_fine.
Qed.

Lemma loop_fine os s : queued_ok s -> counted s -> fine (send_loop buffer is_infinite paced_by_kernel bitrate os s).
Proof using Hbuf Htotal.
  revert s. induction os as [|o os IH]; intros s Hq Hs; [by split|]. cbn [send_loop].
  pose proof (pass_fine o s Hq Hs) as Hf. destruct (send_pass _ _ _ _ o s) as [[] s']; try exact Hf.
  destruct Hf as [Hq' Hs']. by apply IH.
Qed.
End wire.

(** C14. A TCP stream repeats its payload without a gap: however writes are cut
    short, interrupted by signals, blocked, paused or moved from sendfile to
    plain writes, the bytes queued are the payload over and over, the counter
    is their number, and a byte budget is never overdrawn -- and is delivered
    to the last byte when the loop ends because it is spent. *)
Theorem tcp_wire_exact (buffer : list Z) (paced_by_kernel zerocopy_ready : bool) (bitrate b : option Z)
    (start duration : Z) (os : list send_obs) (s : StreamStats) :
  buffer <> [] -> match b with Some t => fits 64 t | None => True end -> fits 64 (bytes_sent s) ->
  let '(e, x) := send_loop buffer (duration =? 0) paced_by_kernel bitrate os
                   (start_sender b start duration zerocopy_ready s) in
  let n := Z.of_nat (length (wire x)) in
  (forall i, (i < length (wire x))%nat -> wire x !! i = buffer !! (i mod length buffer)%nat) /\
  match b with Some t => exists rest, budget x = Some rest /\ 0 <= rest /\ n + rest = t | None => budget x = None end /\
  (e = StoppedBudgetSpent -> b = Some n) /\
  ((forall k, e <> SendFailed k) -> bytes_sent (send_stats x) = wrapping_add 64 (bytes_sent s) n).
Proof.
  intros Hb Ht Hs.
  destruct (loop_fine buffer (duration =? 0) paced_by_kernel bitrate b (bytes_sent s) Hb Ht os
    (start_sender b start duration zerocopy_ready s)) as [(Hw & _ & Hbud) He].
  - split; [intros i Hi; by inversion Hi|]. split; [cbn; by rewrite Nat.Div0.mod_0_l|].
    cbn. destruct b as [t|]; [|done]. exists t. unfold fits in Ht. split_and!; [done|lia..].
  - unfold counted. cbn. unfold wrapping_add. by rewrite Z.add_0_r, wrap_small.
  - destruct (send_loop _ _ _ _ os _) as [e x]. cbn [fst snd] in *. split; [exact Hw|]. split; [exact Hbud|].
    unfold counted in He. split; [intros ->; apply He|]. intros Hk. destruct e as [| | | | |k]; try apply He. by destruct (Hk k).
Qed.

(** What a sender reports is what arrived: a timed stream, cut off by a reset,
    reports no more than the bytes the kernel saw acknowledged -- on the error
    path too --, while a byte-budget stream, closed gracefully, keeps its
    count; and the retransmits added are those of the last snapshot, once,
    however many came in between. *)
Theorem sender_reports_delivered (buffer : list Z) (paced_by_kernel zerocopy_ready : bool) (bitrate b : option Z)
    (start duration : Z) (os : list send_obs) (i : TcpInfoSnapshot) (after : option TcpInfoSnapshot)
    (s : StreamStats) (report : option TcpInfoSnapshot) (x y : sender) (e : send_end) :
  send_loop buffer (duration =? 0) paced_by_kernel bitrate os (start_sender b start duration zerocopy_ready s) = (e, x) ->
  send_data_half buffer paced_by_kernel zerocopy_ready bitrate b start duration os (Some i) after s
    = (Some (Ok report), y) ->
  bytes_sent (send_stats y)
  = match b, tcp_bytes_acked i with
    | None, Some acked => Z.min acked (bytes_sent (send_stats x))
    | _, _ => bytes_sent (send_stats x)
    end /\
  report = (if is_some b then match after with Some j => Some j | None => Some i end else Some i) /\
  (0 <= tcp_retransmits i -> retransmits_total (send_stats y)
   = wrapping_add 64 (retransmits_total (send_stats x))
       (match b, after with
        | Some _, Some j => Z.max (tcp_retransmits i) (tcp_retransmits j)
        | _, _ => tcp_retransmits i
        end)).
Proof.
  unfold send_data_half. intros -> H.
  assert (E : exists report', finish_send (is_some b) (Some i) after (send_stats x) = (report', send_stats y) /\ report = report').
  { destruct e; try done; destruct (finish_send _ _ _ _) as [r' s'] eqn:Ef; injection H as <- <-; by exists r'. }
  destruct E as (r' & Ef & ->). clear H. unfold finish_send in Ef. destruct b as [t|]; cbn [is_some] in *.
  - destruct after as [j|]; cbn in Ef; injection Ef as <- <-; split_and!; try done.
    intros Hi. cbn. unfold wrapping_add, wrap, saturating_sub. rewrite Zplus_mod_idemp_l. f_equal. lia.
  - injection Ef as <- <-. unfold clamp_bytes_sent_to_acked. destruct (tcp_bytes_acked i) as [acked|]; [|by split_and!].
    cbn. destruct (Z.ltb_spec acked (bytes_sent (send_stats x))); cbn; split_and!; try done; lia.
Qed.

Lemma quiet_end_spec start duration now e (cancelled : bool) :
  0 <= duration ->
  should_end_receive_after_error e cancelled
    ((receive_teardown_window start now duration).1 || (receive_teardown_window start now duration).2)
  = cancelled || (is_peer_closed_error e && (0 <? duration) &&
      ((start + duration <=? now) ||
       (SEND_TEARDOWN_GRACE <? duration) && (start + duration - now <=? SEND_TEARDOWN_GRACE))).
Proof.
  intros Hd. unfold should_end_receive_after_error, receive_teardown_window. f_equal.
  destruct (is_peer_closed_error e); [|by rewrite andb_false_r]. rewrite andb_true_r. cbn [andb].
  destruct (Z.eqb_spec duration 0) as [->|]; [done|]. rewrite (proj2 (Z.ltb_lt 0 duration)) by lia. cbn [fst snd andb].
  destruct (Z.leb_spec (start + duration) now) as [|Hn]; [done|]. cbn [orb negb andb]. f_equal. unfold saturating_sub.
  apply eq_true_iff_eq. rewrite !Z.leb_le. unfold SEND_TEARDOWN_GRACE in *. lia.
Qed.

Lemma receive_reads start duration bs os s :
  Forall (fun n => 0 < n) bs -> fits 64 (bytes_received s) -> exists s',
    receive_data_half start duration (map ReadBytes bs ++ os) s = receive_data_half start duration os s' /\
    bytes_received s' = wrapping_add 64 (bytes_received s) (zsum bs).
Proof.
  revert s. induction bs as [|n bs IH]; intros s H Hs.
  - exists s. split; [done|]. cbn. unfold wrapping_add. by rewrite Z.add_0_r, wrap_small.
  - apply Forall_cons in H as [Hn H].
    destruct (IH (StreamStats.add_bytes_received n s) H) as (s' & E & Es); [by apply wrap_fits|].
    exists s'. split.
    + rewrite <- E. unfold receive_data_half. cbn [map app receive_loop recv_step].
      by rewrite (proj2 (Z.eqb_neq n 0)) by lia.
    + rewrite Es. cbn. unfold wrapping_add, wrap. rewrite Zplus_mod_idemp_l. f_equal. lia.
Qed.

(** A receiver mistakes no failure for the end: a connection the peer closes
    abruptly ends the stream quietly only after a cancel, or once the test's
    duration is over or -- for tests longer than that -- in its last quarter
    of a second; any other error is reported unless the test was cancelled.
    Up to there every byte read is counted, and none of those drained after. *)
Theorem receive_end_exact (start duration : Z) (before : list Z) (e : ErrorKind) (cancelled : bool) (now : Z)
    (rest : list recv_obs) (s : StreamStats) :
  Forall (fun n => 0 < n) before -> e <> WouldBlock -> 0 <= duration -> fits 64 (bytes_received s) ->
  let r := receive_data_half start duration (map ReadBytes before ++ ReadFailed e cancelled now :: rest) s in
  r.1 = Some (if cancelled || (is_peer_closed_error e && (0 <? duration) &&
                 ((start + duration <=? now) ||
                  (SEND_TEARDOWN_GRACE <? duration) && (start + duration - now <=? SEND_TEARDOWN_GRACE)))
              then Ok tt else Err e) /\
  bytes_received r.2 = wrapping_add 64 (bytes_received s) (zsum before).
Proof.
  intros Hp He Hd Hs r. subst r.
  destruct (receive_reads start duration before (ReadFailed e cancelled now :: rest) s Hp Hs) as (s' & -> & <-).
  pose proof (quiet_end_spec start duration now e cancelled Hd) as Ew.
  assert (E : recv_step start duration (ReadFailed e cancelled now) s' =
    let '(d, n) := receive_teardown_window start now duration in
    if should_end_receive_after_error e cancelled (d || n) then (if cancelled then RecvCancelled else RecvTeardown, s')
    else (RecvFailed e, s')) by by destruct e.
  unfold receive_data_half. cbn [receive_loop]. rewrite E.
  destruct (receive_teardown_window start now duration) as [d n]. cbn [fst snd] in Ew. rewrite Ew.
  generalize dependent (cancelled || (is_peer_closed_error e && (0 <? duration) &&
      ((start + duration <=? now) || (SEND_TEARDOWN_GRACE <? duration) && (start + duration - now <=? SEND_TEARDOWN_GRACE)))).
  intros [] _; [by destruct cancelled|done].
Qed.

(** The wait for the last acknowledgement is bounded: polled every
    millisecond or later, it returns within five seconds and one poll,
    whatever the peer does. *)
Theorem ack_wait_bounded (t0 : Z) (polls : list ack_poll) :
  (forall i p q, polls !! i = Some p -> polls !! S i = Some q -> poll_now p + 1000000 <= poll_now q) ->
  (forall p, polls !! 0%nat = Some p -> t0 <= poll_now p) -> (5000 < length polls)%nat ->
  wait_for_send_queue_acked (t0 + ACK_WAIT_CAP) polls = true.
Proof.
  intros Hstep H0 Hlen.
  assert (G : forall ps k t, (forall i p q, ps !! i = Some p -> ps !! S i = Some q -> poll_now p + 1000000 <= poll_now q) ->
    (forall p, ps !! 0%nat = Some p -> t <= poll_now p) -> (k < length ps)%nat -> t0 + ACK_WAIT_CAP <= t + 1000000 * Z.of_nat k ->
    wait_for_send_queue_acked (t0 + ACK_WAIT_CAP) ps = true).
  { clear. induction ps as [|p ps IH]; intros k t Hs H0 Hk Ht; [cbn in Hk; lia|]. cbn.
    destruct (queued p); [|done]. specialize (H0 p eq_refl).
    destruct (Z.leb_spec (t0 + ACK_WAIT_CAP) (poll_now p)) as [|Hn]; [by rewrite orb_true_r|].
    rewrite (IH (Nat.pred k) (t + 1000000)); [by rewrite !orb_true_r| | | |].
    - intros i x y Hx Hy. by apply (Hs (S i)).
    - intros q Hq. specialize (Hs 0%nat p q eq_refl Hq). lia.
    - cbn in Hk. lia.
    - lia. }
  apply (G polls 5000%nat t0 Hstep H0 Hlen). unfold ACK_WAIT_CAP. lia.
Qed.

(** ** Concrete streams *)
Definition demo_stats : StreamStats := StreamStats.new 0 0.
Definition demo_write (w : sys_write) : send_obs := Pass 1 (Write None w 1 SleptEnough false 1 None).
(** Short writes, a full socket, sendfile refused, a pause: then the budget is
    spent. *)
Definition demo_passes : list send_obs :=
  [demo_write (Eintr (Accepts 2)); demo_write (Fails WouldBlock); demo_write (Fails InvalidInput);
   Paused false 5 6; demo_write (Accepts 9); demo_write (Accepts 9); demo_write (Accepts 9); demo_write (Accepts 9)].
Example demo_wire :
  let '(e, x) := send_loop [1; 2; 3] true false None demo_passes (start_sender (Some 7) 0 0 true demo_stats) in
  e = StoppedBudgetSpent /\ wire x = [1; 2; 3; 1; 2; 3; 1] /\ use_zerocopy x = false.
Proof. by vm_compute. Qed.
Example demo_overshoot :
  overshoot false (Some 8000) 1000000000
    (start_sender None 0 0 false (StreamStats.add_bytes_sent 3000 demo_stats)) = Some (of_int 2).
Proof. by vm_compute. Qed.

Definition demo_info (retransmits acked : Z) : TcpInfoSnapshot := mkTcpInfoSnapshot retransmits 0 0 0 (Some acked).

Lemma tcp_wire_exact_witness :
  (send_loop [1; 2; 3] true false None demo_passes (start_sender (Some 7) 0 0 true demo_stats)).1 = StoppedBudgetSpent /\
  Z.of_nat (length (wire (send_loop [1; 2; 3] true false None demo_passes
                            (start_sender (Some 7) 0 0 true demo_stats)).2)) = 7.
Proof.
  pose proof (tcp_wire_exact [1; 2; 3] false true None (Some 7) 0 0 demo_passes demo_stats ltac:(discriminate)
    ltac:(split; [discriminate|reflexivity]) ltac:(split; [discriminate|reflexivity])) as H.
  change (0 =? 0) with true in H. revert H.
  assert (E : (send_loop [1; 2; 3] true false None demo_passes (start_sender (Some 7) 0 0 true demo_stats)).1
              = StoppedBudgetSpent) by (vm_compute; reflexivity).
  destruct (send_loop _ _ _ _ _ _) as [e x]. cbn [fst snd] in *. intros (_ & _ & H & _).
  split; [exact E|]. specialize (H E). by injection H.
Defined.

Lemma sender_reports_delivered_witness :
  let os := [Pass 0 (Write None (Accepts 9) 0 SleptEnough false 0 None); Pass 1 DeadlineReached] in
  bytes_sent (send_stats (send_data_half [1; 2; 3] false false None None 0 1 os (Some (demo_info 4 2)) None demo_stats).2) = 2.
Proof.
  intros os.
  pose proof (sender_reports_delivered [1; 2; 3] false false None None 0 1 os (demo_info 4 2) None demo_stats
    (Some (demo_info 4 2)) _ _ _ eq_refl eq_refl) as [H _].
  etransitivity; [exact H|]. vm_compute. reflexivity.
Defined.

Lemma receive_end_exact_witness :
  receive_data_half 0 10000000000 [ReadBytes 5; ReadFailed ConnectionReset false 3] demo_stats
  = (Some (Err ConnectionReset), StreamStats.add_bytes_received 5 demo_stats).
Proof.
  pose proof (receive_end_exact 0 10000000000 [5] ConnectionReset false 3 [] demo_stats
    ltac:(repeat constructor) ltac:(discriminate) ltac:(discriminate) ltac:(split; [discriminate|reflexivity])) as [H1 _].
  cbn [map app] in H1. revert H1.
  destruct (receive_data_half _ _ _ _) as [r s] eqn:E. vm_compute in E. injection E as <- <-. intros _. reflexivity.
Defined.

Lemma ack_wait_bounded_witness :
  wait_for_send_queue_acked ACK_WAIT_CAP
    (map (fun i => mkAckPoll (Some 1) false (1000000 * Z.of_nat i) false) (seq 0 5001)) = true.
Proof.
  apply (ack_wait_bounded 0).
  - intros i p q Hp Hq. rewrite list_lookup_fmap in Hp, Hq.
    destruct (seq 0 5001 !! i) as [a|] eqn:Ea; [|discriminate]. destruct (seq 0 5001 !! S i) as [b|] eqn:Eb; [|discriminate].
    apply lookup_seq in Ea as [-> _], Eb as [-> _]. apply (inj Some) in Hp as <-, Hq as <-. cbn [poll_now]. rewrite !Nat2Z.inj_add, Nat2Z.inj_succ. lia.
  - intros p Hp. cbn in Hp. injection Hp as <-. cbn. lia.
  - apply Nat.ltb_lt. vm_compute. reflexivity.
Defined.
