(* ===== verification/Quic.v ===== *)
(** * QUIC data streams and the shared server socket (src/src/quic.rs)

    The send and receive loops of a QUIC stream, the binding of a pre-shared
    key to one TLS session, and the filter that shares the server's socket
    between QUIC and the single-port UDP hellos.  A loop is a function of
    what it observes, as in TcpStream.v; endpoints, certificates and TLS are
    quinn's and rustls's.  Times are nanoseconds. *)
From coqutil Require Import Datatypes.RecordSettersUsingExistingGetters.
From Stdlib Require Import SpecFloat.
From S2P Require Import Prelude Bytes Text Float Budget Ip UdpWire Protocol Stats TcpStream.

Definition DEFAULT_BUFFER_SIZE : Z := 128 * 1024.
Definition MAX_CONCURRENT_DATA_STREAMS : Z := 128.
Definition MAX_DIVERT_ITERATIONS : nat := 16.
Definition SEND_TEARDOWN_GRACE : Z := 250000000.

(** ** The send loop *)

(** [quinn::WriteError], as far as the loop looks at it. *)
Inductive WriteError := Stopped | ConnectionLost | OtherWriteError.
Definition peer_closed (e : WriteError) : bool :=
  match e with Stopped | ConnectionLost => true | OtherWriteError => false end.

(** The arm of the [select!] that fired.  A write takes as many bytes as flow
    control has room for, or fails; it comes with the clock and the end of the
    nap for pacing, and, for its failure, the cancel flag and the clock. *)
Inductive send_arm :=
  | CancelChanged (dropped value : bool)
  | PauseChanged
  | DeadlineReached
  | Write (w : result nat WriteError) (paced_at : Z) (nap : sleep_end) (cancelled : bool) (failed_at : Z).

Inductive send_obs :=
  | Cancelled
  | Paused (cancelled : bool) (paused resumed_at : Z)
  | Pass (now : Z) (a : send_arm).

Record sender := mkSender {
  budget : option Z; deadline : Z; pace_start : Z; pace_bytes_offset : Z; send_stats : StreamStats;
  (** the writes the stream took, by their size *)
  writes : list Z
}.

Inductive send_end :=
  | Running
  | StoppedByCancel | StoppedAtDeadline | StoppedBudgetSpent | StoppedByTeardown (e : WriteError)
  | SendFailed (e : WriteError).

(** The chunk a rate-limited stream writes at once. *)
Definition send_buffer_size (bitrate : option Z) : Z :=
  match bitrate with
  | Some bps => if 0 <? bps then Z.min DEFAULT_BUFFER_SIZE (Z.max (bps / 8 / 10) 1) else DEFAULT_BUFFER_SIZE
  | None => DEFAULT_BUFFER_SIZE
  end.

Section send.
Variables (is_infinite : bool) (bitrate : option Z).

(** How long the stream is ahead of its rate, in seconds. *)
Definition overshoot (paced_at : Z) (s : sender) : option f64 :=
  match bitrate with
  | Some bps =>
    if 0 <? bps then
      let bytes_per_sec := fdiv (of_int bps) (of_int 8) in
      let expected := fmul (as_secs_f64 (saturating_sub paced_at (pace_start s))) bytes_per_sec in
      let total := of_int (wrapping_sub 64 (bytes_sent (send_stats s)) (pace_bytes_offset s)) in
      if fgtb total expected then Some (fdiv (fsub total expected) bytes_per_sec) else None
    else None
  | None => None
  end.

Definition wrote (claimed n : Z) (s : sender) : sender :=
  s <| budget ::= fun b => ByteBudget.refund_unwritten b claimed n |>
    <| send_stats ::= StreamStats.add_bytes_sent n |>
    <| writes ::= fun w => w ++ [n] |>.

Definition unwritten (claimed : Z) (s : sender) : sender :=
  s <| budget ::= fun b => ByteBudget.refund_unwritten b claimed 0 |>.

Definition write_failed (e : WriteError) (cancelled : bool) (now : Z) (s : sender) : send_end :=
  let deadline_reached := negb is_infinite && (deadline s <=? now) in
  let near_deadline := negb is_infinite && (deadline s <=? now + SEND_TEARDOWN_GRACE) in
  if cancelled || deadline_reached || (peer_closed e && near_deadline)
  then StoppedByTeardown e else SendFailed e.

(** The rest of a pass once [claimed] bytes are reserved. *)
Definition send_arm_step (claimed : Z) (a : send_arm) (s : sender) : send_end * sender :=
  match a with
  | CancelChanged dropped value =>
    (if dropped || value then StoppedByCancel else Running, unwritten claimed s)
  | PauseChanged => (Running, unwritten claimed s)
  | DeadlineReached => (StoppedAtDeadline, unwritten claimed s)
  | Write (Ok room) paced_at nap _ _ =>
    let s := wrote claimed (offered claimed room) s in
    match overshoot paced_at s, nap with
    | Some _, SleepCancelled => (StoppedByCancel, s)
    | _, _ => (Running, s)
    end
  | Write (Err e) _ _ cancelled failed_at =>
    let s := unwritten claimed s in (write_failed e cancelled failed_at s, s)
  end.

Definition send_pass (o : send_obs) (s : sender) : send_end * sender :=
  match o with
  | Cancelled => (StoppedByCancel, s)
  | Paused true _ _ => (StoppedByCancel, s)
  | Paused false paused resumed_at =>
    (Running, s <| deadline ::= fun d => d + paused |> <| pace_start := resumed_at |>
                <| pace_bytes_offset := bytes_sent (send_stats s) |>)
  | Pass now a =>
    if negb is_infinite && (deadline s <=? now) then (StoppedAtDeadline, s)
    else
      let '(b, claimed) := ByteBudget.claim_or_full (budget s) (send_buffer_size bitrate) in
      let s := s <| budget := b |> in
      if claimed =? 0 then (StoppedBudgetSpent, s) else send_arm_step claimed a s
  end.

Fixpoint send_loop (os : list send_obs) (s : sender) : send_end * sender :=
  match os with
  | [] => (Running, s)
  | o :: os =>
    match send_pass o s with
    | (Running, s) => send_loop os s
    | r => r
    end
  end.
End send.

Definition start_sender (b : option Z) (start duration : Z) (s : StreamStats) : sender :=
  mkSender b (start + duration) start 0 s [].

(** The end of the wait for the peer's last acknowledgement. *)
Inductive ack_end := PeerAcked | AckCancelled | AckTimedOut.

(** [send_quic_data]: [None] while the loop runs; otherwise its result, with
    the end of the wait when there was one.  [cancelled] is the cancel flag
    after the loop. *)
Definition send_quic_data (start duration : Z) (bitrate b : option Z) (os : list send_obs)
    (cancelled : bool) (ack : ack_end) (s : StreamStats)
    : option (result (option ack_end) WriteError) * sender :=
  let '(e, x) := send_loop (duration =? 0) bitrate os (start_sender b start duration s) in
  match e with
  | Running => (None, x)
  | SendFailed e => (Some (Err e), x)
  | _ => (Some (Ok (if is_some b && negb cancelled then Some ack else None)), x)
  end.

(** ** The receive loop *)
Inductive CancelAction := Continue | Stop.
Definition handle_cancel_change (dropped value : bool) : CancelAction :=
  if dropped then Stop else if value then Stop else Continue.

Inductive recv_obs := Read (r : result (option Z) unit) | RecvCancelChanged (dropped value : bool).

(** [None] while the loop runs. *)
Fixpoint receive_quic_data (os : list recv_obs) (s : StreamStats) : option (result unit unit) * StreamStats :=
  match os with
  | [] => (None, s)
  | Read (Ok (Some n)) :: os => receive_quic_data os (StreamStats.add_bytes_received n s)
  | Read (Ok None) :: _ => (Some (Ok tt), s)
  | Read (Err e) :: _ => (Some (Err e), s)
  | RecvCancelChanged dropped value :: os =>
    match handle_cancel_change dropped value with
    | Stop => (Some (Ok tt), s)
    | Continue => receive_quic_data os s
    end
  end.

(** ** The shared socket *)

(** A slot of the receive batch: quinn's buffer and what the inner socket says
    about the datagram in it. *)
Record slot := mkSlot { buf : list Z; meta_len : Z; meta_addr : SocketAddr }.

Inductive inner_poll := InnerPending | InnerFailed | InnerReady (slots : list slot) (n : nat).
Inductive tee_poll := TeePending (woken : bool) | TeeFailed | TeeReady (slots : list slot) (kept : nat).

Notation XfrHelloDatagram := (list Z * SocketAddr)%type.

Definition datagram_len (s : slot) : nat := Z.to_nat (Z.min (meta_len s) (len (buf s))).
Definition datagram (s : slot) : list Z := take (datagram_len s) (buf s).

Section tee.
(** Whether the hello channel has room for the datagram of a slot. *)
Variable has_room : slot -> bool.

(** Slot [i] of a batch, [kept] QUIC datagrams being in front. *)
Definition tee_step (i : nat) (slots : list slot) (kept : nat) (hellos : list XfrHelloDatagram)
    : list slot * nat * list XfrHelloDatagram :=
  match slots !! i with
  | None => (slots, kept, hellos)
  | Some s =>
    match classify_shared_datagram (datagram s) with
    | UdpWire.Quic =>
      if Nat.eqb kept i then (slots, S kept, hellos)
      else
        match slots !! kept with
        | None => (slots, kept, hellos)
        | Some front =>
          if (length (buf front) <? datagram_len s)%nat then (slots, kept, hellos)
          else (<[kept := mkSlot (splice 0 (datagram s) (buf front)) (meta_len s) (meta_addr s)]> slots,
                S kept, hellos)
        end
    | XfrHello => (slots, kept, if has_room s then hellos ++ [(datagram s, meta_addr s)] else hellos)
    | XfrStray => (slots, kept, hellos)
    end
  end.

(** The loop over the batch, slots [i] to [i + n - 1]. *)
Fixpoint compact (n i : nat) (slots : list slot) (kept : nat) (hellos : list XfrHelloDatagram)
    : list slot * nat * list XfrHelloDatagram :=
  match n with
  | O => (slots, kept, hellos)
  | S n => let '(slots, kept, hellos) := tee_step i slots kept hellos in compact n (S i) slots kept hellos
  end.

(** [poll_recv], over the answers of the inner socket; [None] only when there
    are no more of them. *)
Fixpoint poll_recv (polls : list inner_poll) (divert_iterations : nat) (hellos : list XfrHelloDatagram)
    : option tee_poll * list XfrHelloDatagram :=
  match polls with
  | [] => (None, hellos)
  | InnerPending :: _ => (Some (TeePending false), hellos)
  | InnerFailed :: _ => (Some TeeFailed, hellos)
  | InnerReady slots n :: polls =>
    let '(slots, kept, hellos) := compact n 0 slots 0 hellos in
    if (0 <? kept)%nat || Nat.eqb n 0 then (Some (TeeReady slots kept), hellos)
    else
      let divert_iterations := S divert_iterations in
      if (MAX_DIVERT_ITERATIONS <=? divert_iterations)%nat then (Some (TeePending true), hellos)
      else poll_recv polls divert_iterations hellos
  end.
End tee.

(** ** What is sent *)
Section sent.
Variables (is_infinite : bool) (bitrate total : option Z) (sent0 : Z).
Hypothesis Htotal : match total with Some t => fits 64 t | None => True end.

Lemma send_buffer_size_pos : 0 < send_buffer_size bitrate.
Proof. unfold send_buffer_size, DEFAULT_BUFFER_SIZE. destruct bitrate; [zcase|]; lia. Qed.

Definition accounted (s : sender) : Prop :=
  Forall (fun n => 0 <= n <= send_buffer_size bitrate) (writes s) /\
  bytes_sent (send_stats s) = wrapping_add 64 sent0 (zsum (writes s)) /\
  match total with
  | Some t => exists rest, budget s = Some rest /\ 0 <= rest /\ zsum (writes s) + rest = t
  | None => budget s = None
  end.
Definition fine (r : send_end * sender) : Prop :=
  accounted r.2 /\ (r.1 = StoppedBudgetSpent -> total = Some (zsum (writes r.2))).

(** What claiming and using [n] bytes of the claim leaves. *)
Lemma quic_claim_ok s b' claimed n :
  accounted s -> ByteBudget.claim_or_full (budget s) (send_buffer_size bitrate) = (b', claimed) -> 0 <= n <= claimed ->
  0 <= claimed <= send_buffer_size bitrate /\ (claimed = 0 -> total = Some (zsum (writes s))) /\
  match total with
  | Some t => exists rest, ByteBudget.refund_unwritten b' claimed n = Some rest /\ 0 <= rest /\
                zsum (writes s) + n + rest = t
  | None => ByteBudget.refund_unwritten b' claimed n = None
  end.
Proof using Htotal.
  intros (Hw & _ & Hb) Hc Hn. pose proof send_buffer_size_pos as HL.
  assert (H0 : 0 <= zsum (writes s)) by (apply zsum_nonneg; eapply Forall_impl; [exact Hw|]; cbn; lia).
  destruct total as [t|].
  - destruct Hb as (rest & Eb & Hr & Et). rewrite Eb in Hc. unfold fits in Htotal.
    assert (Hx : rest < 2 ^ 64) by lia.
    destruct (refund_claim (Some rest) (send_buffer_size bitrate) b' claimed n ltac:(lia) (conj Hr Hx) Hc Hn)
      as (E1 & E2 & E3).
    split; [lia|]. split; [intros Hz; specialize (E3 Hz HL) as [= ->]; f_equal; lia|].
    exists (rest - n). rewrite E1. split; [done|]. pose proof (claim_within rest _ _ _ Hc). lia.
  - rewrite Hb in Hc. destruct (refund_claim None (send_buffer_size bitrate) b' claimed n ltac:(lia) I Hc Hn)
      as (E1 & E2 & E3).
    split; [lia|]. split; [intros Hz; by specialize (E3 Hz HL)|]. by rewrite E1.
Qed.

Lemma quic_unwritten_ok s b' claimed :
  accounted s -> ByteBudget.claim_or_full (budget s) (send_buffer_size bitrate) = (b', claimed) -> 0 <= claimed ->
  accounted (unwritten claimed (s <| budget := b' |>)).
Proof using Htotal.
  intros Hs Hc H0. destruct (quic_claim_ok s b' claimed 0 Hs Hc ltac:(lia)) as (_ & _ & Hb).
  destruct Hs as (Hw & Hk & _). split; [exact Hw|]. split; [exact Hk|]. cbn. by rewrite Z.add_0_r in Hb.
Qed.

Lemma quic_arm_fine s b' claimed a :
  accounted s -> ByteBudget.claim_or_full (budget s) (send_buffer_size bitrate) = (b', claimed) -> 0 <= claimed ->
  fine (send_arm_step is_infinite bitrate claimed a (s <| budget := b' |>)).
Proof using Htotal.
  intros Hs Hc H0. pose proof (quic_unwritten_ok s b' claimed Hs Hc H0) as Hu.
  destruct a as [[] []| | |[room|e] paced_at nap c at_]; try by split.
  - cbn [send_arm_step]. pose proof (offered_bound claimed room H0) as Hn.
    set (n := offered claimed room) in *.
    destruct (quic_claim_ok s b' claimed n Hs Hc Hn) as (Hcl & _ & Hb).
    assert (Hs' : accounted (wrote claimed n (s <| budget := b' |>))).
    { destruct Hs as (Hw & Hk & _). split_and!.
      - cbn. apply Forall_app. split; [exact Hw|]. constructor; [lia|constructor].
      - cbn. rewrite zsum_app, Hk. unfold wrapping_add, wrap. rewrite Zplus_mod_idemp_l. f_equal. cbn. lia.
      - cbn. rewrite zsum_app. cbn. rewrite Z.add_0_r. exact Hb. }
    generalize dependent (wrote claimed n (s <| budget := b' |>)). intros s' Hs'.
    destruct (overshoot _ _ _); [destruct nap|]; by split.
  - cbn [send_arm_step]. unfold write_failed. by destruct (_ || _).
Qed.

Lemma quic_pass_fine o s : accounted s -> fine (send_pass is_infinite bitrate o s).
Proof using Htotal.
  intros Hs. destruct o as [|[] paused at_|now a]; try by split. cbn [send_pass].
  destruct (_ && _); [by split|].
  destruct (ByteBudget.claim_or_full _ _) as [b' claimed] eqn:Ec.
  assert (H0 : 0 <= claimed).
  { destruct Hs as (_ & _ & Hb). pose proof send_buffer_size_pos.
    destruct total as [t|]; [destruct Hb as (r & Eb & Hr & _); rewrite Eb in Ec|].
    - pose proof (claim_within r _ _ _ Ec). lia.
    - rewrite Hb in Ec. injection Ec as <- <-. lia. }
  destruct (Z.eqb_spec claimed 0) as [Hz|Hz]; [|by apply quic_arm_fine].
  destruct (quic_claim_ok s b' claimed 0 Hs Ec ltac:(lia)) as (_ & Ht & _).
  pose proof (quic_unwritten_ok s b' claimed Hs Ec H0) as Hu. split; [|intros _; by apply Ht].
  destruct Hu as (Hw & Hk & Hb). split; [exact Hw|]. split; [exact Hk|]. revert Hb. rewrite Hz. cbn.
  by destruct b' as [r|].
Qed.

Lemma quic_loop_fine os s : accounted s -> fine (send_loop is_infinite bitrate os s).
Proof using Htotal.
  revert s. induction os as [|o os IH]; intros s Hs; [by split|]. cbn [send_loop].
  pose proof (quic_pass_fine o s Hs) as Hf. destruct (send_pass _ _ o s) as [[] s']; try exact Hf.
  destruct Hf as [Hs' _]. by apply IH.
Qed.
End sent.

(** However writes are cut short, blocked, refused, paused or raced by a
    cancel that turns out not to be one, a QUIC stream counts exactly the bytes
    it queued, never queues more than its chunk at once, never overdraws a
    byte budget, and ends because the budget is spent only when every byte of
    it is queued; after that, and only for a byte budget that was not
    cancelled, it waits for the peer's acknowledgement. *)
Theorem quic_send_exact (start duration : Z) (bitrate b : option Z) (os : list send_obs) (cancelled : bool)
    (ack : ack_end) (s : StreamStats) :
  match b with Some t => fits 64 t | None => True end -> fits 64 (bytes_sent s) ->
  let '(e, _) := send_loop (duration =? 0) bitrate os (start_sender b start duration s) in
  let '(r, x) := send_quic_data start duration bitrate b os cancelled ack s in
  let queued := zsum (writes x) in
  Forall (fun n => 0 <= n <= send_buffer_size bitrate) (writes x) /\
  bytes_sent (send_stats x) = wrapping_add 64 (bytes_sent s) queued /\
  match b with Some t => exists rest, budget x = Some rest /\ 0 <= rest /\ queued + rest = t | None => budget x = None end /\
  (e = StoppedBudgetSpent -> b = Some queued) /\
  (r = None <-> e = Running) /\ (forall k, r = Some (Err k) <-> e = SendFailed k) /\
  (forall w, r = Some (Ok w) -> w = if is_some b && negb cancelled then Some ack else None).
Proof.
  intros Hb Hs. unfold send_quic_data.
  assert (H0 : accounted bitrate b (bytes_sent s) (start_sender b start duration s)).
  { split_and!; [constructor| |].
    - cbn. unfold wrapping_add. by rewrite Z.add_0_r, wrap_small.
    - cbn. destruct b as [t|]; [|done]. exists t. unfold fits in Hb. split_and!; [done|lia..]. }
  pose proof (quic_loop_fine (duration =? 0) bitrate b (bytes_sent s) Hb os _ H0) as [(Hw & Hk & Hbud) He].
  destruct (send_loop _ _ os _) as [e x]. cbn [fst snd] in *.
  destruct e; split_and!; try done; try (by intros w [= <-]); split; congruence.
Qed.

Definition demo_writes : list send_obs :=
  [Pass 0 (Write (Ok 700%nat) 0 SleptEnough false 0); Pass 1 (CancelChanged false false);
   Pass 2 (Write (Ok 900%nat) 0 SleptEnough false 0); Pass 3 PauseChanged].
Definition demo_sent : option (result (option ack_end) WriteError) * sender :=
  send_quic_data 0 0 None (Some 1000) demo_writes false PeerAcked (StreamStats.new 0 0).

Lemma quic_send_exact_witness :
  fits 64 1000 /\ fits 64 (bytes_sent (StreamStats.new 0 0)) /\
  demo_sent.1 = Some (Ok (Some PeerAcked)) /\ writes demo_sent.2 = [700; 300] /\
  bytes_sent (send_stats demo_sent.2) = wrapping_add 64 0 (zsum (writes demo_sent.2)).
Proof.
  assert (H1 : fits 64 1000) by (split; [discriminate|reflexivity]).
  assert (H2 : fits 64 (bytes_sent (StreamStats.new 0 0))) by (split; [discriminate|reflexivity]).
  split; [exact H1|]. split; [exact H2|]. split; [vm_compute; reflexivity|]. split; [vm_compute; reflexivity|].
  pose proof (quic_send_exact 0 0 None (Some 1000) demo_writes false PeerAcked (StreamStats.new 0 0) H1 H2) as H.
  unfold demo_sent. destruct (send_loop _ _ _ _) as [e y]. destruct (send_quic_data _ _ _ _ _ _ _ _) as [r x]. apply H.
Defined.

(** ** What the receiver counts *)
Definition bytes_read (o : recv_obs) : Z := match o with Read (Ok (Some n)) => n | _ => 0 end.

(** Every byte read until the stream ends, fails or the test is cancelled is
    counted. *)
Lemma receive_counts os s r s' :
  fits 64 (bytes_received s) -> receive_quic_data os s = (r, s') ->
  exists read rest, os = read ++ rest /\ (r = None -> rest = []) /\
    bytes_received s' = wrapping_add 64 (bytes_received s) (zsum (map bytes_read read)).
Proof.
  revert s. induction os as [|o os IH]; intros s Hs H.
  - injection H as <- <-. exists [], []. cbn. unfold wrapping_add. rewrite Z.add_0_r, wrap_small by done. auto.
  - assert (Hstop : forall r', (r', s) = (r, s') -> r' <> None ->
      exists read rest, o :: os = read ++ rest /\ (r = None -> rest = []) /\
        bytes_received s' = wrapping_add 64 (bytes_received s) (zsum (map bytes_read read))).
    { intros r' [= -> <-] Hr. exists [], (o :: os). cbn. unfold wrapping_add.
      rewrite Z.add_0_r, wrap_small by done. naive_solver. }
    assert (Hgo : forall n, bytes_read o = n ->
      receive_quic_data os (StreamStats.add_bytes_received n s) = (r, s') \/ n = 0 /\ receive_quic_data os s = (r, s') ->
      exists read rest, o :: os = read ++ rest /\ (r = None -> rest = []) /\
        bytes_received s' = wrapping_add 64 (bytes_received s) (zsum (map bytes_read read))).
    { intros n Ho [E|[-> E]]; apply IH in E as (read & rest & -> & Hr & Hb); try done; try by apply wrap_fits.
      - exists (o :: read), rest. split; [done|]. split; [done|]. rewrite Hb. cbn. rewrite Ho.
        unfold wrapping_add, wrap. rewrite Zplus_mod_idemp_l. f_equal. lia.
      - exists (o :: read), rest. split; [done|]. split; [done|]. rewrite Hb. cbn. by rewrite Ho. }
    destruct o as [[[n|]|e]|[] []]; cbn in H.
    + apply (Hgo n); auto.
    + by apply (Hstop (Some (Ok tt))).
    + by apply (Hstop (Some (Err e))).
    + by apply (Hstop (Some (Ok tt))).
    + by apply (Hstop (Some (Ok tt))).
    + by apply (Hstop (Some (Ok tt))).
    + apply (Hgo 0); auto.
Qed.

(** ** The shared socket delivers *)
Definition entry (s : slot) : XfrHelloDatagram := (datagram s, meta_addr s).
Definition is_quic (s : slot) : bool := match classify_shared_datagram (datagram s) with UdpWire.Quic => true | _ => false end.
Definition is_hello (s : slot) : bool := match classify_shared_datagram (datagram s) with XfrHello => true | _ => false end.
(** The first [n] datagrams of a batch for QUIC, and those for the dispatcher. *)
Definition quics (n : nat) (slots : list slot) : list XfrHelloDatagram :=
  map entry (List.filter is_quic (take n slots)).
Definition hellos_of (has_room : slot -> bool) (n : nat) (slots : list slot) : list XfrHelloDatagram :=
  map entry (List.filter (fun s => is_hello s && has_room s) (take n slots)).

(** Quinn's receive buffers are of one size, and the socket fills no more
    slots than there are. *)
Definition batch_ok (size : nat) (p : inner_poll) : Prop :=
  match p with
  | InnerReady slots n => (n <= length slots)%nat /\ Forall (fun s => length (buf s) = size) slots
  | _ => True
  end.
Definition diverted (p : inner_poll) : Prop :=
  match p with InnerReady slots n => (0 < n)%nat /\ quics n slots = [] | _ => False end.
Definition hellos_in (has_room : slot -> bool) (p : inner_poll) : list XfrHelloDatagram :=
  match p with InnerReady slots n => hellos_of has_room n slots | _ => [] end.

Lemma datagram_moved (front s : slot) :
  length (buf front) = length (buf s) ->
  entry (mkSlot (splice 0 (datagram s) (buf front)) (meta_len s) (meta_addr s)) = entry s /\
  length (splice 0 (datagram s) (buf front)) = length (buf s).
Proof.
  intros Hl. assert (Hd : length (datagram s) = datagram_len s).
  { unfold datagram. rewrite length_take. unfold datagram_len, len. lia. }
  assert (Hb : length (splice 0 (datagram s) (buf front)) = length (buf s)).
  { rewrite length_splice; [done|]. rewrite Hd. unfold datagram_len, len. lia. }
  split; [|done]. unfold entry. cbn [meta_addr]. f_equal. unfold datagram at 1. cbn [buf].
  assert (E : datagram_len (mkSlot (splice 0 (datagram s) (buf front)) (meta_len s) (meta_addr s)) = datagram_len s)
    by (unfold datagram_len, len; cbn [buf meta_len]; by rewrite Hb).
  rewrite E, splice_first. by rewrite take_app_length' by done.
Qed.

Lemma take_S_lookup {A} n (l : list A) x : l !! n = Some x -> take (S n) l = take n l ++ [x].
Proof. intros H. by apply take_S_r. Qed.

(** [slots] is the batch [orig] with its first [i] slots handled. *)
Record compacted (has_room : slot -> bool) (size : nat) (orig : list slot) (i : nat) (h0 : list XfrHelloDatagram)
    (r : list slot * nat * list XfrHelloDatagram) : Prop := {
  comp_kept : map entry (take r.1.2 r.1.1) = quics i orig;
  comp_le : (r.1.2 <= i)%nat;
  comp_rest : forall j, (i <= j)%nat -> r.1.1 !! j = orig !! j;
  comp_size : Forall (fun s => length (buf s) = size) r.1.1;
  comp_length : length r.1.1 = length orig;
  comp_hellos : r.2 = h0 ++ hellos_of has_room i orig
}.

Lemma tee_step_compacted has_room size orig i h0 slots kept h :
  (i < length orig)%nat -> compacted has_room size orig i h0 (slots, kept, h) ->
  compacted has_room size orig (S i) h0 (tee_step has_room i slots kept h).
Proof.
  intros Hi [Hk Hle Hr Hsz Hlen Hh]. cbn [fst snd] in *.
  destruct (lookup_lt_is_Some_2 orig i Hi) as [s Hs].
  assert (Hs' : slots !! i = Some s) by by rewrite Hr.
  assert (Eq : quics (S i) orig = quics i orig ++ if is_quic s then [entry s] else []).
  { unfold quics. rewrite (take_S_lookup _ _ _ Hs), List.filter_app, map_app. cbn. by destruct (is_quic s). }
  assert (Eh : hellos_of has_room (S i) orig = hellos_of has_room i orig ++ if is_hello s && has_room s then [entry s] else []).
  { unfold hellos_of. rewrite (take_S_lookup _ _ _ Hs), List.filter_app, map_app. cbn. by destruct (_ && _). }
  unfold tee_step. rewrite Hs'. unfold is_quic, is_hello in Eq, Eh.
  assert (Hrest : forall j, (S i <= j)%nat -> slots !! j = orig !! j) by (intros j Hj; apply Hr; lia).
  destruct (classify_shared_datagram (datagram s)); cbn [andb] in Eq, Eh; rewrite ?app_nil_r in Eq; rewrite ?app_nil_r in Eh.
  - split; cbn [fst snd]; try done; try lia; try by rewrite Eq. rewrite Eh, Hh.
    destruct (has_room s); by rewrite ?app_nil_r, <- ?app_assoc.
  - destruct (Nat.eqb_spec kept i) as [->|Hne].
    + split; cbn [fst snd]; try done; try by rewrite Eh.
      by rewrite Eq, (take_S_lookup _ _ _ Hs'), map_app, Hk.
    + destruct (lookup_lt_is_Some_2 slots kept ltac:(lia)) as [front Hf]. rewrite Hf.
      pose proof (Forall_lookup_1 _ _ _ _ Hsz Hf) as E1. pose proof (Forall_lookup_1 _ _ _ _ Hsz Hs') as E2.
      cbn in E1, E2. destruct (datagram_moved front s ltac:(congruence)) as [Ee El].
      assert (Hnot : (length (buf front) <? datagram_len s)%nat = false).
      { apply Nat.ltb_ge. rewrite E1, <- E2. unfold datagram_len, len. lia. }
      rewrite Hnot. split; cbn [fst snd]; [|lia| | |by rewrite length_insert|by rewrite Eh].
      * rewrite Eq, (take_S_lookup kept _ _ (list_lookup_insert_eq slots kept _ ltac:(lia))), map_app.
        rewrite take_insert_ge by lia. by rewrite Hk, <- Ee.
      * intros j Hj. rewrite list_lookup_insert_ne by lia. by apply Hrest.
      * apply Forall_insert; [done|]. cbn. by rewrite El.
  - split; cbn [fst snd]; try done; try lia; first [by rewrite Eq|by rewrite Eh].
Qed.

Lemma compact_compacted has_room size orig n i h0 slots kept h :
  (i + n <= length orig)%nat -> compacted has_room size orig i h0 (slots, kept, h) ->
  compacted has_room size orig (i + n) h0 (compact has_room n i slots kept h).
Proof.
  revert i slots kept h. induction n as [|n IH]; intros i slots kept h Hi H; [by rewrite Nat.add_0_r|].
  cbn [compact]. apply (tee_step_compacted has_room size orig i) in H; [|lia].
  destruct (tee_step _ _ _ _ _) as [[slots' kept'] h']. rewrite <- Nat.add_succ_comm. apply IH; [lia|done].
Qed.

Lemma compact_exact has_room size slots n h :
  (n <= length slots)%nat -> Forall (fun s => length (buf s) = size) slots ->
  let '(out, kept, h') := compact has_room n 0 slots 0 h in
  map entry (take kept out) = quics n slots /\ kept = length (quics n slots) /\
  h' = h ++ hellos_of has_room n slots.
Proof.
  intros Hn Hs. assert (H0 : compacted has_room size slots 0 h (slots, 0%nat, h)) by (by split; cbn; rewrite ?app_nil_r).
  apply (compact_compacted _ _ _ n) in H0; [|done]. destruct (compact _ _ _ _ _ _) as [[out kept] h'].
  destruct H0 as [Hk Hle _ _ Hl Hh]. cbn [fst snd Nat.add] in *. split_and!; [done| |done].
  rewrite <- Hk, length_map, length_take. lia.
Qed.

(** What a poll amounts to, [before] being the batches diverted so far. *)
Definition tee_result (has_room : slot -> bool) (polls : list inner_poll) (k : nat) (r : option tee_poll) : Prop :=
  match r with
  | None => k = length polls /\ Forall diverted polls
  | Some (TeePending true) => k = MAX_DIVERT_ITERATIONS /\ Forall diverted (take k polls)
  | Some r =>
    exists last before, take k polls = before ++ [last] /\ Forall diverted before /\
      match last, r with
      | InnerReady slots n, TeeReady out kept =>
        map entry (take kept out) = quics n slots /\ kept = length (quics n slots) /\ (kept = 0%nat -> n = 0%nat)
      | InnerPending, TeePending woken => woken = false
      | InnerFailed, TeeFailed => True
      | _, _ => False
      end
  end.

Lemma poll_recv_from has_room size ps before h :
  Forall (batch_ok size) ps -> Forall diverted before -> (length before < MAX_DIVERT_ITERATIONS)%nat ->
  h = concat (map (hellos_in has_room) before) ->
  let '(r, hellos) := poll_recv has_room ps (length before) h in
  exists k, (k <= MAX_DIVERT_ITERATIONS)%nat /\
    hellos = concat (map (hellos_in has_room) (take k (before ++ ps))) /\ tee_result has_room (before ++ ps) k r.
Proof.
  revert before h. induction ps as [|p ps IH]; intros before h Hok Hb Hl Hh; cbn [poll_recv].
  { exists (length before). rewrite app_nil_r, firstn_all. by split_and!; [lia| |]. }
  assert (Hk : forall q, take (S (length before)) (before ++ q :: ps) = before ++ [q])
    by (intros q; rewrite (cons_middle q), app_assoc; apply take_app_length'; rewrite length_app; cbn; lia).
  assert (Hc : forall q, concat (map (hellos_in has_room) (before ++ [q])) = h ++ hellos_in has_room q)
    by (intros q; by rewrite map_app, concat_app, <- Hh; cbn; rewrite app_nil_r).
  apply Forall_cons in Hok as [Hp Hps]. destruct p as [| |slots n].
  1,2: exists (S (length before)); rewrite Hk, Hc; cbn [hellos_in]; rewrite app_nil_r; (split; [lia|]); (split; [done|]);
    cbn [tee_result]; eexists _, before; by rewrite Hk.
  destruct Hp as [Hn Hs]. pose proof (compact_exact has_room size slots n h Hn Hs) as Hx.
  destruct (compact _ _ _ _ _ _) as [[out kept] h']. destruct Hx as (Hq & Hkept & Hh').
  destruct ((0 <? kept)%nat || Nat.eqb n 0) eqn:Edone.
  { exists (S (length before)). rewrite Hk, Hc. split; [lia|]. split; [exact Hh'|]. cbn [tee_result].
    exists (InnerReady slots n), before. rewrite Hk. split_and!; try done. intros ->. by apply Nat.eqb_eq in Edone. }
  apply orb_false_iff in Edone as [E1%Nat.ltb_ge E2%Nat.eqb_neq].
  assert (Hd : Forall diverted (before ++ [InnerReady slots n])).
  { apply Forall_app. split; [done|]. constructor; [|constructor]. split; [lia|]. apply length_zero_iff_nil. lia. }
  destruct (Nat.leb_spec MAX_DIVERT_ITERATIONS (S (length before))) as [Hm|Hm].
  - exists (S (length before)). rewrite Hk, Hc. split; [lia|]. split; [exact Hh'|]. cbn [tee_result].
    split; [lia|]. by rewrite Hk.
  - assert (El : length (before ++ [InnerReady slots n]) = S (length before)) by (rewrite length_app; cbn; lia).
    specialize (IH (before ++ [InnerReady slots n]) h' Hps Hd ltac:(lia) ltac:(by rewrite Hc, Hh')).
    rewrite El, <- app_assoc in IH. exact IH.
Qed.

(** C15. The shared socket delivers: of every batch quinn gets exactly the
    datagrams that can be QUIC's, whole, with their addresses and in order, in
    the front of its own buffers; the dispatcher gets the hellos its channel
    has room for, in order; no empty batch is ever handed over unless the
    socket gave one; and a flood of other datagrams holds the task for sixteen
    batches at most, after which it yields and has itself woken. *)
Theorem tee_exact (has_room : slot -> bool) (size : nat) (polls : list inner_poll) :
  Forall (batch_ok size) polls ->
  let '(r, hellos) := poll_recv has_room polls 0 [] in
  exists k, (k <= MAX_DIVERT_ITERATIONS)%nat /\ hellos = concat (map (hellos_in has_room) (take k polls)) /\
    tee_result has_room polls k r.
Proof.
  intros Hok. apply (poll_recv_from has_room size polls [] []); [done|constructor|unfold MAX_DIVERT_ITERATIONS; cbn; lia|done].
Qed.

Definition demo_slot (b : list Z) : slot := mkSlot (b ++ repeat 0 (30 - length b)) (len b) (sa_new (V4 2130706433) 9).
Definition demo_hello_slot : slot :=
  demo_slot (UdpHelloPacket.encode (UdpHelloPacket.mk UDP_HELLO_KIND_HELLO 1 (repeat 7 16))).
Definition demo_polls : list inner_poll :=
  [InnerReady [demo_hello_slot; demo_slot [1; 2]] 2; InnerReady [demo_hello_slot; demo_slot [192; 5]; demo_slot [64; 6; 7]] 3].

Lemma tee_exact_witness :
  Forall (batch_ok 30) demo_polls /\
  exists out, poll_recv (fun _ => true) demo_polls 0 [] = (Some (TeeReady out 2), [entry demo_hello_slot; entry demo_hello_slot]) /\
    map (fun e => e.1) (map entry (take 2 out)) = [[192; 5]; [64; 6; 7]] /\
    exists k, (k <= MAX_DIVERT_ITERATIONS)%nat /\ tee_result (fun _ => true) demo_polls k (Some (TeeReady out 2)).
Proof.
  assert (H : Forall (batch_ok 30) demo_polls) by (repeat constructor).
  split; [exact H|]. pose proof (tee_exact (fun _ => true) 30 demo_polls H) as Hx.
  destruct (poll_recv (fun _ => true) demo_polls 0 []) as [r hs] eqn:E. vm_compute in E. injection E as <- <-.
  destruct Hx as (k & Hk & _ & Ht). eexists. split; [reflexivity|]. split; [reflexivity|].
  exists k. split; [exact Hk|exact Ht].
Defined.
