(* ===== verification/QuicLoop.v ===== *)
(** * The client's control loop over QUIC (src/src/client.rs run_quic_session)

    The loop that reads intervals and the result of a QUIC test, as a step
    function over the arm that fires, and its agreement with the loop of the
    other transports (ClientLoop.v), whose inputs and outputs it shares.
    There is no local end, no local progress and no correction of the result
    here.  Times are nanoseconds. *)
From coqutil Require Import Datatypes.RecordSettersUsingExistingGetters.
From S2P Require Import Prelude App.
From S2P Require Import Bytes Text Ip Protocol Stats ClientUdp Client ClientLoop.

Record quic_loop := mkQuicLoop {
  q_deadline : Z; q_pause_started : option Z; q_cancel_open : bool; q_pause_open : bool; q_finish_sent : bool
}.

Inductive quic_outcome :=
  | QContinue (s : quic_loop) (outs : list output)
  | QEnded (r : result TestResult loop_error) (outs : list output).

Section quic_control_loop.
Variable to_json : ControlMessage -> option str.
Variables (config : ClientConfig) (test_id : str) (supports_pause has_consumer : bool).

Definition finish_on_budget : bool :=
  match byte_budget config with Some _ => true | None => false end && negb (bool_decide (direction config = Download)).

(** The share of one stream; zero stays unlimited. *)
Definition quic_stream_bitrate : option Z :=
  option_map (fun b => if b =? 0 then 0 else Z.max (b / streams config) 1) (bitrate config).

Definition quic_start (now : Z) : quic_loop := mkQuicLoop (now + response_timeout config) None true true false.

Definition quic_cancel_wait (now : Z) (s : quic_loop) : quic_loop :=
  let '(d, p) := start_control_cancel_wait now in s <| q_deadline := d |> <| q_pause_started := p |>.

(** The update a server interval becomes. *)
Definition quic_progress (elapsed_ms : Z) (rows : list StreamInterval) (a : AggregateInterval) : TestProgress :=
  mkTestProgress elapsed_ms (ai_bytes a) (ai_throughput_mbps a) rows (ai_rtt_us a) (ai_cwnd a) None
    (ai_bytes_sent a) (ai_bytes_received a) (ai_throughput_send_mbps a) (ai_throughput_recv_mbps a)
    (ai_udp_progress a) false None None.

Definition quic_message (o : observed) (m : ControlMessage) (s : quic_loop) : quic_outcome :=
  match m with
  | Interval _ elapsed_ms rows a =>
    QContinue s (if has_consumer then send_progress o (quic_progress elapsed_ms rows a) else [])
  | ResultMsg r => QEnded (Ok r) [StopStreams]
  | ErrorMsg message => QEnded (Err (ServerSaid message)) [StopStreams]
  | Cancelled _ => QContinue (quic_cancel_wait (now o) s) [StopStreams]
  | _ => QContinue s []
  end.

Definition quic_cancel_changed (o : observed) (v : option bool) (s : quic_loop) : quic_outcome :=
  match v with
  | None => QContinue (s <| q_cancel_open := false |>) []
  | Some false => QContinue s []
  | Some true =>
    match to_json (user_cancel test_id) with
    | None => QEnded (Err SerializeCancel) [StopStreams]
    | Some _ =>
      QContinue (quic_cancel_wait (now o) s) (StopStreams :: if wrote o then [Wrote (user_cancel test_id)] else [])
    end
  end.

Definition quic_pause_clock (now : Z) (paused : bool) (s : quic_loop) : quic_loop :=
  if paused then
    match q_pause_started s with None => s <| q_pause_started := Some now |> | Some _ => s end
  else
    match q_pause_started s with
    | Some started =>
      s <| q_pause_started := None |> <| q_deadline ::= fun d => d + saturating_sub now started |>
    | None => s
    end.

Definition quic_pause_changed (o : observed) (v : option bool) (s : quic_loop) : quic_outcome :=
  match v with
  | None => QContinue (s <| q_pause_open := false |>) []
  | Some paused =>
    let s := quic_pause_clock (now o) paused s in
    if supports_pause then
      let msg := if paused then Pause test_id else Resume test_id in
      match to_json msg with
      | None => QEnded (Err SerializePause) [PauseStreams paused; StopStreams]
      | Some _ => QContinue s (PauseStreams paused :: if wrote o then [Wrote msg] else [])
      end
    else QContinue s [PauseStreams paused]
  end.

Definition quic_sending_done (o : observed) (s : quic_loop) : quic_outcome :=
  QContinue (s <| q_finish_sent := true |>)
    (match to_json (Finish test_id) with
     | Some _ => if wrote o then [Wrote (Finish test_id)] else []
     | None => []
     end).

(** The arms' preconditions; there is no arm for a local end or tick. *)
Definition quic_enabled (t : Z) (e : loop_event) (s : quic_loop) : bool :=
  match e with
  | Control _ => true
  | CancelChanged _ => q_cancel_open s
  | PauseChanged _ => q_pause_open s
  | SendingDone => finish_on_budget && negb (q_finish_sent s)
  | DeadlineHit => match q_pause_started s with None => q_deadline s <=? t | Some _ => false end
  | LocalEnd | LocalTick => false
  end.

Definition quic_step (o : observed) (e : loop_event) (s : quic_loop) : quic_outcome :=
  match e with
  | Control None | Control (Some EvEof) => QEnded (Err ClosedWithoutResult) [StopStreams]
  | Control (Some EvReadError) => QEnded (Err ControlRead) [StopStreams]
  | Control (Some EvParseError) => QEnded (Err ControlParse) [StopStreams]
  | Control (Some (EvMessage m)) => quic_message o m s
  | CancelChanged v => quic_cancel_changed o v s
  | PauseChanged v => quic_pause_changed o v s
  | SendingDone => quic_sending_done o s
  | DeadlineHit => QEnded (Err ResponseTimeout) [StopStreams]
  | LocalEnd | LocalTick => QContinue s []
  end.

Fixpoint quic_run (es : list (observed * loop_event)) (s : quic_loop)
    : option (quic_loop + result TestResult loop_error) * list output :=
  match es with
  | [] => (Some (inl s), [])
  | (o, e) :: es =>
    if quic_enabled (now o) e s then
      match quic_step o e s with
      | QContinue s outs => let '(r, outs') := quic_run es s in (r, outs ++ outs')
      | QEnded r outs => (Some (inr r), outs)
      end
    else (None, [])
  end.
End quic_control_loop.

(** ** Agreement with the other transports' loop *)

(** What the server and the streams are told, the stop at the end apart. *)
Definition told (outs : list output) : list output :=
  List.filter (fun o => match o with Wrote _ | PauseStreams _ => true | _ => false end) outs.
Definition as_quic (s : loop_state) : quic_loop :=
  mkQuicLoop (deadline s) (loop_pause_started s) (cancel_request_open s) (pause_request_open s) (finish_sent s).
(** The result, when there is one, before the sender's TCP figures are laid
    over it. *)
Definition same_end (o : observed) (config : ClientConfig) (r r' : result TestResult loop_error) : Prop :=
  match r' with Ok x => r = Ok (overlay_tcp_info config o x) | Err e => r = Err e end.

Lemma told_app a b : told (a ++ b) = told a ++ told b.
Proof. apply List.filter_app. Qed.

Section agreement.
Context (to_json : ControlMessage -> option str) (config : ClientConfig) (test_id : str)
        (supports_pause has_consumer : bool) (start : Z).
Notation fob := (finish_on_budget config).
Notation step := (loop_step to_json config test_id supports_pause has_consumer start).
Notation qstep := (quic_step to_json test_id supports_pause has_consumer).
Notation is_local e := (match e with LocalEnd | LocalTick => true | _ => false end).

Lemma enabled_agree t e s :
  is_local e = false -> quic_enabled config t e (as_quic s) = enabled config fob t e s.
Proof.
  intros He. destruct e; try done. cbn. by destruct (loop_pause_started s).
Qed.

Lemma interval_agree o el rows a s s' outs :
  protocol config = Quic -> on_interval config has_consumer o el rows a s = (s', outs) ->
  as_quic s' = as_quic s /\ told outs = [].
Proof.
  intros Hp. unfold on_interval. destruct (_ && has_consumer); [|by intros [= <- <-]].
  unfold interval_progress, udp_bidir. rewrite Hp. rewrite bool_decide_false by done. cbn [andb].
  destruct (match (if is_sender config then _ else _) with Some _ => _ | None => _ end) as [[rtt cw] tot].
  destruct (match ai_udp_progress a with Some _ => _ | None => _ end) as [pr fi].
  intros [= <- <-]. split; [done|]. unfold send_progress. by destruct (taken o).
Qed.

Definition agree (o : observed) (a : outcome) (b : quic_outcome) : Prop :=
  match a, b with
  | Continue s' outs, QContinue q outs' => q = as_quic s' /\ told outs' = told outs
  | Ended r outs, QEnded r' outs' => same_end o config r r' /\ told outs' = told outs /\ In StopStreams outs'
  | _, _ => False
  end.

Lemma pause_clock_agree o b s : quic_pause_clock (now o) b (as_quic s) = as_quic (pause_clock o b s).
Proof.
  unfold quic_pause_clock, pause_clock. cbn. by destruct b, (loop_pause_started s).
Qed.

Lemma step_agree o e s :
  protocol config = Quic -> is_local e = false -> agree o (step o e s) (qstep o e (as_quic s)).
Proof.
  intros Hp He. destruct e as [[[m| | |]|]|[[]|]|[b|]| | | |]; try done; cbn; try (by repeat split; left).
  - destruct m; cbn; try done; try (by repeat split; left).
    destruct (on_interval _ _ _ _ _ _ _) as [s' outs] eqn:E. destruct (interval_agree _ _ _ _ _ _ _ Hp E) as [Hs Ht].
    split; [by rewrite Hs|]. rewrite Ht. unfold send_progress. by destruct has_consumer, (taken o).
  - destruct (to_json _); cbn; [by destruct (wrote o)|]. by repeat split; left.
  - rewrite pause_clock_agree. destruct supports_pause; [|done].
    destruct (to_json _); cbn; [by destruct b, (wrote o)|]. repeat split. right. by left.
Qed.
End agreement.

(** C16. Over QUIC the client obeys its user and the server exactly as over the
    other transports: for the same arms firing at the same instants the two
    loops are enabled alike, keep the same response deadline and pause clock,
    write the same messages, pause the streams alike and end together with
    the same error or the same result -- up to the TCP figures a TCP sender
    lays over it -- and the QUIC loop never ends without having told the
    streams to stop. *)
Theorem quic_loop_agrees (to_json : ControlMessage -> option str) (config : ClientConfig) (test_id : str)
    (supports_pause has_consumer : bool) (t0 : Z) (stats0 : TestStats) (es : list (observed * loop_event)) :
  protocol config = Quic ->
  Forall (fun e => match snd e with LocalEnd | LocalTick => False | _ => True end) es ->
  let '(r, outs) := run_loop to_json config test_id supports_pause (finish_on_budget config) has_consumer t0 es
                      (start_loop config t0 stats0) in
  let '(q, outs') := quic_run to_json config test_id supports_pause has_consumer es (quic_start config t0) in
  told outs' = told outs /\
  match r, q with
  | Some (inl s), Some (inl s') => s' = as_quic s
  | Some (inr x), Some (inr x') => (exists o, same_end o config x x') /\ In StopStreams outs'
  | None, None => True
  | _, _ => False
  end.
Proof.
  intros Hp. change (quic_start config t0) with (as_quic (start_loop config t0 stats0)).
  generalize (start_loop config t0 stats0). induction es as [|[o e] es IH]; intros s He; [by split|].
  apply Forall_cons in He as [He Hes]. cbn [snd] in He. cbn [run_loop quic_run].
  rewrite (enabled_agree config (now o) e s) by by destruct e.
  destruct (enabled _ _ _ _ _); [|by split].
  pose proof (step_agree to_json config test_id supports_pause has_consumer t0 o e s Hp ltac:(by destruct e)) as Ha.
  destruct (loop_step _ _ _ _ _ _ _ e s) as [s1 o1|r1 o1], (quic_step _ _ _ _ _ e _) as [q1 p1|q1 p1]; try done.
  - destruct Ha as [-> Ht]. specialize (IH s1 Hes).
    destruct (run_loop _ _ _ _ _ _ _ es s1) as [r outs], (quic_run _ _ _ _ _ es _) as [q outs'].
    destruct IH as [Ht' IH]. split; [by rewrite !told_app, Ht, Ht'|].
    destruct r as [[]|], q as [[]|]; try done. destruct IH as [IH Hin]. split; [done|]. apply in_or_app. by right.
  - destruct Ha as (Hr & Ht & Hin). split; [done|]. split; [by exists o|done].
Qed.

Definition quic_demo_config : ClientConfig :=
  mkClientConfig (txt "h") 5201 Quic 2 10000000000 Upload None None false None None
    None DualStack None false false true Auto None false None None.

Lemma quic_loop_agrees_witness :
  let es := [(demo_obs 5, PauseChanged (Some true)); (demo_obs 9, PauseChanged (Some false));
             (demo_obs 11, CancelChanged (Some true)); (demo_obs 3000000011, DeadlineHit)] in
  let '(q, outs) := quic_run demo_json quic_demo_config (txt "t") true true es (quic_start quic_demo_config 0) in
  q = Some (inr (Err ResponseTimeout)) /\ In StopStreams outs.
Proof.
  intros es. pose proof (quic_loop_agrees demo_json quic_demo_config (txt "t") true true 0 demo_stats es eq_refl
    ltac:(repeat constructor)) as H.
  destruct (quic_run _ _ _ _ _ _ _) as [q outs] eqn:E. split; [vm_compute in E; by injection E as <- _|].
  destruct (run_loop _ _ _ _ _ _ _ _ _) as [r outs'] eqn:E'. vm_compute in E'. injection E' as <- _.
  destruct H as [_ H]. destruct q as [[]|]; try done. apply H.
Defined.
