(* ===== verification/Report.v ===== *)
(** * Results and intervals as text (src/src/output/plain.rs, csv.rs, json.rs,
    the human-readable numbers of src/src/stats.rs)

    What is printed, character by character; for JSON the object that is
    printed, its encoding being serde_json's, a parameter.  Strings are
    characters. *)
From S2P Require Import Prelude Bytes Text Float Fmt Ip Protocol Probe Stats.

(** ** Numbers for people *)
Definition KB : Z := 1024.
Definition MB : Z := KB * 1024.
Definition GB : Z := MB * 1024.
Definition TB : Z := GB * 1024.

Definition bytes_to_human (bytes : Z) : str :=
  let unit n name := fixed 2 (fdiv (of_int bytes) (of_int n)) ++ name in
  if TB <=? bytes then unit TB (txt " TB")
  else if GB <=? bytes then unit GB (txt " GB")
  else if MB <=? bytes then unit MB (txt " MB")
  else if KB <=? bytes then unit KB (txt " KB")
  else dec bytes ++ txt " B".

Definition mbps_to_human (mbps : f64) : str :=
  let rounded_1dp := normalize_for_display mbps 1 in
  if fgeb rounded_1dp (of_int 1000)
  then fixed 2 (normalize_for_display (fdiv mbps (of_int 1000)) 2) ++ txt " Gbps"
  else fixed 1 rounded_1dp ++ txt " Mbps".

Definition describe (e : UdpSendErrors) (side : str) : str :=
  side ++ txt " reported " ++ dec (count e) ++ txt " UDP send error" ++ (if count e =? 1 then [] else txt "s")
  ++ txt " (last: " ++ last_error e ++ txt ")".
Definition describe_zero_byte_streams (r : TestResult) : option str :=
  match tr_zero_byte_streams r with
  | Some n =>
    if 0 <? n then Some (dec n ++ txt " of " ++ dec (Z.of_nat (length (tr_streams r)))
                         ++ txt " streams carried no data; the totals cover only the rest")
    else None
  | None => None
  end.

(** ** CSV *)
Definition or_empty {A} (f : A -> str) (o : option A) : str := match o with Some a => f a | None => [] end.
Definition unwrap_or {A} (o : option A) (d : A) : A := match o with Some a => a | None => d end.

Definition UDP_DIRECTION_COLUMNS : str :=
  txt "udp_send_packets_received,udp_send_packets_lost,udp_send_lost_percent,udp_send_jitter_ms,udp_recv_packets_received,udp_recv_packets_lost,udp_recv_lost_percent,udp_recv_jitter_ms".

(** Values joined by commas, as the format strings do. *)
Fixpoint columns (l : list str) : str :=
  match l with [] => [] | [s] => s | s :: l => s ++ [44] ++ columns l end.

Definition direction_columns (measurement : option UdpDirectionProgress) : str :=
  match measurement with
  | Some m =>
    columns [dec (UdpIntervalProgress.packets_received (udp_dir_progress m));
             dec (UdpIntervalProgress.packets_lost (udp_dir_progress m));
             or_empty (fixed 2) (UdpIntervalProgress.lost_percent (udp_dir_progress m));
             or_empty (fixed 3) (udp_dir_jitter_ms m)]
  | None => txt ",,,"
  end.
Definition final_direction_columns (stats : option UdpStats) : str :=
  match stats with
  | Some s => columns [dec (us_packets_received s); dec (us_lost s); fixed 2 (us_lost_percent s); fixed 2 (us_jitter_ms s)]
  | None => txt ",,,"
  end.

Definition csv_header : str :=
  txt "test_id,duration_secs,transfer_bytes,throughput_mbps,retransmits,jitter_ms,lost,lost_percent,bytes_sent,bytes_received,throughput_send_mbps,throughput_recv_mbps,"
  ++ UDP_DIRECTION_COLUMNS ++ [10].
Definition csv_row (r : TestResult) : str :=
  columns
    [tr_id r; fixed 2 (fdiv (of_int (tr_duration_ms r)) (of_int 1000)); dec (tr_bytes_total r);
     fixed 2 (tr_throughput_mbps r); dec (unwrap_or (option_map tcp_retransmits (tr_tcp_info r)) 0);
     fixed 2 (unwrap_or (option_map us_jitter_ms (tr_udp_stats r)) zero);
     dec (unwrap_or (option_map us_lost (tr_udp_stats r)) 0);
     fixed 2 (unwrap_or (option_map us_lost_percent (tr_udp_stats r)) zero);
     or_empty dec (tr_bytes_sent r); or_empty dec (tr_bytes_received r);
     or_empty (fixed 2) (tr_throughput_send_mbps r); or_empty (fixed 2) (tr_throughput_recv_mbps r);
     final_direction_columns (tr_udp_stats_send r); final_direction_columns (tr_udp_stats_recv r)]
  ++ [10].
Definition output_csv (r : TestResult) : str := csv_header ++ csv_row r.

(** What one line about an interval is made from. *)
Record interval_line := mkIntervalLine {
  il_timestamp : str; il_elapsed_secs : f64; il_throughput_mbps : f64; il_bytes : Z;
  il_retransmits : option Z; il_jitter_ms : option f64; il_lost : option Z; il_rtt_us : option Z; il_cwnd : option Z;
  il_bytes_sent : option Z; il_bytes_received : option Z;
  il_throughput_send_mbps : option f64; il_throughput_recv_mbps : option f64;
  il_udp_send : option UdpDirectionProgress; il_udp_recv : option UdpDirectionProgress
}.

Definition csv_interval_header : str :=
  txt "timestamp,elapsed_secs,bytes,throughput_mbps,retransmits,jitter_ms,lost,rtt_us,cwnd,bytes_sent,bytes_received,throughput_send_mbps,throughput_recv_mbps,"
  ++ UDP_DIRECTION_COLUMNS ++ [10].
(** [output_interval_csv_with_udp_directions]; [output_interval_csv] has
    neither direction. *)
Definition output_interval_csv (i : interval_line) : str :=
  columns
    [il_timestamp i; fixed 2 (il_elapsed_secs i); dec (il_bytes i); fixed 2 (il_throughput_mbps i);
     dec (unwrap_or (il_retransmits i) 0); display_f64 (unwrap_or (il_jitter_ms i) zero);
     dec (unwrap_or (il_lost i) 0); or_empty dec (il_rtt_us i); or_empty dec (il_cwnd i);
     or_empty dec (il_bytes_sent i); or_empty dec (il_bytes_received i);
     or_empty (fixed 2) (il_throughput_send_mbps i); or_empty (fixed 2) (il_throughput_recv_mbps i);
     direction_columns (il_udp_send i); direction_columns (il_udp_recv i)]
  ++ [10].

(** ** Plain text *)
Definition unline (lines : list str) : str := concat (map (fun l => l ++ [10]) lines).
Definition REPORT_SEPARATOR : str := repeat 9472 60.
Definition ARROW : str := [8594].
Definition UP : str := [8593].
Definition DOWN : str := [8595].
Definition ALMOST : str := [8776].

Definition udp_stats_lines (title : str) (stats : option UdpStats) : list str :=
  (txt "  " ++ title ++ txt ":") ::
  match stats with
  | Some s =>
    [txt "    Packets Sent:     " ++ dec (us_packets_sent s);
     txt "    Packets Received: " ++ dec (us_packets_received s);
     txt "    Lost:             " ++ dec (us_lost s) ++ txt " (" ++ fixed 2 (us_lost_percent s) ++ txt "%)";
     txt "    Jitter:           " ++ fixed 2 (us_jitter_ms s) ++ txt "ms"]
    ++ match us_jitter_max_ms s with
       | Some max => [txt "    Jitter Max:       " ++ fixed 2 max ++ txt "ms"] | None => [] end
    ++ [txt "    Out of Order:     " ++ dec (us_out_of_order s)]
    ++ match us_packet_size s with
       | Some size => [txt "    Packet Size:      " ++ dec size ++ txt " bytes"] | None => [] end
    ++ [[]]
  | None => [txt "    Not reported"; []]
  end.

Definition format_verdict (verdict : SizeVerdict) (ok attempts : Z) : str :=
  match verdict with
  | Pass => txt "pass (" ++ dec ok ++ txt "/" ++ dec attempts ++ txt ")"
  | Fail => txt "BLOCKED (0/" ++ dec attempts ++ txt ")"
  | LocalLimit => txt "local MTU limit"
  | Untested => txt "untested"
  end.

Definition largest (direction : str) (payload mtu : option Z) (none : str) : str :=
  txt "  Largest payload " ++ direction ++ txt ": " ++
  match payload, mtu with
  | Some p, Some m => dec p ++ txt " bytes  (path MTU " ++ ALMOST ++ txt " " ++ dec m ++ txt ")"
  | _, _ => none
  end.
Definition TO_SERVER : str := txt "client " ++ ARROW ++ txt " server".
Definition TO_CLIENT : str := txt "server " ++ ARROW ++ txt " client".

Definition format_mtu_probe (p : MtuProbeReport) : str :=
  unline
    ([REPORT_SEPARATOR; txt "  xfr Path MTU Probe"; REPORT_SEPARATOR; [];
      txt "  Address family: " ++ (if ipv6 p then txt "IPv6" else txt "IPv4") ++ txt " (" ++ dec (ip_overhead (ipv6 p))
        ++ txt " bytes IP+UDP overhead)"; [];
      txt "  Payload      " ++ TO_SERVER ++ txt "    " ++ TO_CLIENT]
     ++ map (fun s => txt "  " ++ pad_left 7 (dec (payload s)) ++ txt "      "
               ++ pad_right 18 (format_verdict (forward s) (forward_ok s) (attempts s)) ++ txt " "
               ++ format_verdict (reverse s) (reverse_ok s) (attempts s)) (sizes p)
     ++ [[]; largest TO_SERVER (forward_max_payload p) (forward_path_mtu p) (txt "none survived");
         largest TO_CLIENT (reverse_max_payload p) (reverse_path_mtu p) (txt "none observed");
         txt "  (" ++ TO_CLIENT ++ txt " is a lower bound, capped by the " ++ TO_SERVER ++ txt " path)";
         REPORT_SEPARATOR]).

Definition stream_lines (s : StreamResult) : list str :=
  (txt "    [" ++ dec (sr_id s) ++ txt "] " ++ bytes_to_human (sr_bytes s) ++ txt " @ " ++ mbps_to_human (sr_throughput_mbps s)
   ++ match sr_retransmits s with Some rtx => txt "  rtx: " ++ dec rtx | None => [] end) ::
  match sr_bytes_sent s, sr_bytes_received s, sr_throughput_send_mbps s, sr_throughput_recv_mbps s with
  | Some sent, Some recv, Some send_rate, Some recv_rate =>
    [txt "        Upload: " ++ bytes_to_human sent ++ txt " @ " ++ mbps_to_human send_rate
     ++ txt "  Download: " ++ bytes_to_human recv ++ txt " @ " ++ mbps_to_human recv_rate]
  | _, _, _, _ => []
  end.

Definition transfer_lines (r : TestResult) : list str :=
  match tr_bytes_sent r, tr_bytes_received r, tr_throughput_send_mbps r, tr_throughput_recv_mbps r with
  | Some sent, Some recv, Some ts_send, Some ts_recv =>
    [txt "  Transfer:    Send: " ++ bytes_to_human sent ++ txt "    Recv: " ++ bytes_to_human recv
       ++ txt "    (Total: " ++ bytes_to_human (tr_bytes_total r) ++ txt ")";
     txt "  Throughput:  Send: " ++ mbps_to_human ts_send ++ txt "  Recv: " ++ mbps_to_human ts_recv
       ++ txt "  (Total: " ++ mbps_to_human (tr_throughput_mbps r) ++ txt ")"]
  | _, _, _, _ =>
    [txt "  Transfer:    " ++ bytes_to_human (tr_bytes_total r);
     txt "  Throughput:  " ++ mbps_to_human (tr_throughput_mbps r)]
  end.

Definition ms (us : Z) : str := fixed 2 (fdiv (of_int us) (of_int 1000)) ++ txt "ms".

Definition is_some {A} (o : option A) : bool := match o with Some _ => true | None => false end.

Definition output_plain (r : TestResult) (mptcp : bool) : str :=
  match tr_mtu_probe r with
  | Some probe => format_mtu_probe probe
  | None =>
    let decimals := if tr_duration_ms r <? 1000 then 3%nat else 2%nat in
    let warning m := [txt "  Warning: " ++ m; []] in
    unline
      ([REPORT_SEPARATOR; txt "  xfr Test Results"; REPORT_SEPARATOR; [];
        txt "  Duration:    " ++ fixed decimals (fdiv (of_int (tr_duration_ms r)) (of_int 1000)) ++ txt "s"]
       ++ transfer_lines r ++ [[]]
       ++ match tr_tcp_info r with
          | Some i =>
            [if mptcp then txt "  Sender TCP Info (initial subflow):" else txt "  Sender TCP Info:";
             txt "    Retransmits: " ++ dec (tcp_retransmits i);
             txt "    RTT:         " ++ ms (tcp_rtt_us i);
             txt "    RTT Var:     " ++ ms (tcp_rtt_var_us i);
             txt "    Cwnd:        " ++ dec (tcp_cwnd i / 1024) ++ txt " KB"; []]
          | None => []
          end
       ++ (if is_some (tr_udp_stats_send r) || is_some (tr_udp_stats_recv r) then
             udp_stats_lines (txt "Upload UDP Stats") (tr_udp_stats_send r)
             ++ udp_stats_lines (txt "Download UDP Stats") (tr_udp_stats_recv r)
           else match tr_udp_stats r with
                | Some s => udp_stats_lines (txt "UDP Stats") (Some s) | None => [] end)
       ++ match tr_server_udp_send_errors r with Some e => warning (describe e (txt "Server")) | None => [] end
       ++ match tr_client_udp_send_errors r with Some e => warning (describe e (txt "Client")) | None => [] end
       ++ match describe_zero_byte_streams r with Some m => warning m | None => [] end
       ++ (if (1 <? Z.of_nat (length (tr_streams r)))
              || existsb (fun s => is_some (sr_bytes_sent s) || is_some (sr_bytes_received s)) (tr_streams r)
           then txt "  Per-Stream Results:" :: concat (map stream_lines (tr_streams r)) ++ [[]] else [])
       ++ [REPORT_SEPARATOR])
  end.

(** [output_interval_plain]. *)
Definition output_interval_plain (i : interval_line) : str :=
  txt "[" ++ il_timestamp i ++ txt "]  " ++ pad_left 11 (mbps_to_human (il_throughput_mbps i)) ++ txt "  "
  ++ pad_left 10 (bytes_to_human (il_bytes i))
  ++ match il_jitter_ms i with
     | Some jitter =>
       txt "  jitter: " ++ pad_left 7 (fixed 2 jitter) ++ txt "ms"
       ++ match il_lost i with Some l => txt "  lost: " ++ dec l | None => [] end
     | None =>
       match il_retransmits i with Some rtx => txt "  rtx: " ++ pad_left 5 (dec rtx) | None => [] end
       ++ match il_rtt_us i with Some rtt => txt "  rtt: " ++ ms rtt | None => [] end
     end
  ++ [10].

Definition output_feedback_plain (timestamp : str) (packets_lost : Z) (lost_percent : option f64) : str :=
  txt "[" ++ timestamp ++ txt "]  (reports stalled)  lost so far: " ++ dec packets_lost
  ++ match lost_percent with Some pct => txt " (" ++ fixed 1 pct ++ txt "%)" | None => [] end ++ [10].

Definition loss_column (m : option UdpDirectionProgress) : str :=
  match m ≫= (fun m => UdpIntervalProgress.lost_percent (udp_dir_progress m)) with
  | Some percent => pad_left 5 (fixed 1 percent) ++ txt "%"
  | None => pad_left 6 (txt "--%")
  end.
Definition jitter_column (jitter : option f64) : str :=
  match jitter with Some j => pad_left 5 (fixed 2 j) ++ txt "ms" | None => pad_left 7 (txt "--ms") end.
Definition directional_quality (udp_send udp_recv : option UdpDirectionProgress) (upload_jitter_fallback : option f64)
    : str :=
  txt "  loss " ++ UP ++ loss_column udp_send ++ txt " " ++ DOWN ++ loss_column udp_recv
  ++ txt "  jitter " ++ UP
  ++ jitter_column (match udp_send ≫= udp_dir_jitter_ms with Some j => Some j | None => upload_jitter_fallback end)
  ++ txt " " ++ DOWN ++ jitter_column (udp_recv ≫= udp_dir_jitter_ms).

(** [output.pop()]. *)
Definition output_interval_plain_with_udp_directions (i : interval_line) : str :=
  match il_udp_send i, il_udp_recv i with
  | None, None => output_interval_plain i
  | _, _ =>
    removelast (output_interval_plain
      (mkIntervalLine (il_timestamp i) (il_elapsed_secs i) (il_throughput_mbps i) (il_bytes i) None None None None None
         None None None None None None))
    ++ directional_quality (il_udp_send i) (il_udp_recv i) (il_jitter_ms i) ++ [10]
  end.
Definition output_directional_feedback_plain (timestamp : str) (udp_send udp_recv : option UdpDirectionProgress) : str :=
  txt "[" ++ timestamp ++ txt "]  (reports stalled)" ++ directional_quality udp_send udp_recv None ++ [10].

(** ** JSON lines *)
Inductive json := JStr (s : str) | JInt (z : Z) | JNum (x : f64) | JObj (fields : list (str * json)).

(** Optional fields are left out, and flattened records bring theirs. *)
Definition field {A} (name : str) (f : A -> json) (o : option A) : list (str * json) :=
  match o with Some a => [(name, f a)] | None => [] end.
Definition snapshot_json (m : UdpDirectionProgress) : json :=
  JObj ([(txt "packets_received", JInt (UdpIntervalProgress.packets_received (udp_dir_progress m)));
         (txt "packets_lost", JInt (UdpIntervalProgress.packets_lost (udp_dir_progress m)))]
        ++ field (txt "jitter_ms") JNum (udp_dir_jitter_ms m)
        ++ field (txt "lost_percent") JNum (UdpIntervalProgress.lost_percent (udp_dir_progress m))).
Definition directions_json (udp_send udp_recv : option UdpDirectionProgress) : list (str * json) :=
  field (txt "udp_send") snapshot_json udp_send ++ field (txt "udp_recv") snapshot_json udp_recv.

(** [output_interval_json_with_udp_directions]; [output_interval_json] has
    neither direction. *)
Definition interval_json (i : interval_line) : json :=
  JObj ([(txt "timestamp", JStr (il_timestamp i)); (txt "elapsed_secs", JNum (il_elapsed_secs i));
         (txt "bytes", JInt (il_bytes i)); (txt "throughput_mbps", JNum (il_throughput_mbps i))]
        ++ field (txt "retransmits") JInt (il_retransmits i) ++ field (txt "jitter_ms") JNum (il_jitter_ms i)
        ++ field (txt "lost") JInt (il_lost i) ++ field (txt "rtt_us") JInt (il_rtt_us i)
        ++ field (txt "cwnd") JInt (il_cwnd i) ++ directions_json (il_udp_send i) (il_udp_recv i)).
Definition directional_feedback_json (timestamp : str) (elapsed_secs : f64)
    (udp_send udp_recv : option UdpDirectionProgress) : json :=
  JObj ([(txt "event", JStr (txt "udp_feedback")); (txt "timestamp", JStr timestamp);
         (txt "elapsed_secs", JNum elapsed_secs)] ++ directions_json udp_send udp_recv).
Definition feedback_json (timestamp : str) (elapsed_secs : f64) (packets_received packets_lost : Z)
    (lost_percent : option f64) : json :=
  JObj ([(txt "event", JStr (txt "udp_feedback")); (txt "timestamp", JStr timestamp);
         (txt "elapsed_secs", JNum elapsed_secs); (txt "packets_received", JInt packets_received);
         (txt "packets_lost", JInt packets_lost)] ++ field (txt "lost_percent") JNum lost_percent).

(** ** The columns of a row *)
Definition occurrences (c : Z) (s : str) : nat := length (List.filter (Z.eqb c) s).

Lemma occurrences_app c a b : occurrences c (a ++ b) = (occurrences c a + occurrences c b)%nat.
Proof. unfold occurrences. by rewrite List.filter_app, length_app. Qed.

(** A comma or a newline. *)
Definition delimiter (c : Z) : Prop := c = 44 \/ c = 10.

Lemma numeric_occurrences c s : delimiter c -> Forall numeric s -> occurrences c s = 0%nat.
Proof.
  intros Hc. unfold occurrences. induction 1 as [|x s Hx _ IH]; [done|]. cbn.
  destruct (Z.eqb_spec c x) as [->|]; [exfalso|done].
  destruct Hc as [->| ->], Hx as [H|[H|[H|H]]]; try lia; cbn in H; lia.
Qed.
Lemma or_empty_occurrences {A} c (f : A -> str) o :
  delimiter c -> (forall a, Forall numeric (f a)) -> occurrences c (or_empty f o) = 0%nat.
Proof. intros Hc Hf. destruct o as [a|]; cbn [or_empty]; [exact (numeric_occurrences c _ Hc (Hf a))|reflexivity]. Qed.

Lemma dec_occurrences c z : delimiter c -> occurrences c (dec z) = 0%nat.
Proof. intros Hc. by apply numeric_occurrences, dec_numeric. Qed.
Lemma fixed_occurrences c n x : delimiter c -> occurrences c (fixed n x) = 0%nat.
Proof. intros Hc. by apply numeric_occurrences, fixed_numeric. Qed.
Lemma display_occurrences c x : delimiter c -> occurrences c (display_f64 x) = 0%nat.
Proof. intros Hc. by apply numeric_occurrences, display_numeric. Qed.

(** Joining adds the commas between. *)
Lemma columns_occurrences c l :
  occurrences c (columns l) = (list_sum (map (occurrences c) l) + if (c =? 44)%Z then pred (length l) else 0)%nat.
Proof.
  induction l as [|s l IH]; [by destruct (c =? 44)|].
  destruct l as [|t l]; [cbn [columns map list_sum fold_right length pred]; destruct (c =? 44)%Z; lia|].
  change (columns (s :: t :: l)) with (s ++ [44] ++ columns (t :: l)). rewrite !occurrences_app, IH.
  cbn [map list_sum fold_right length pred]. unfold occurrences at 2. cbn [List.filter].
  destruct (c =? 44)%Z; cbn [length]; lia.
Qed.

Ltac count_columns c Hc :=
  rewrite ?occurrences_app, ?columns_occurrences; cbn [map list_sum fold_right length];
  rewrite ?(dec_occurrences c), ?(fixed_occurrences c), ?(display_occurrences c) by exact Hc;
  rewrite ?(or_empty_occurrences c) by eauto with xfr.

Lemma direction_columns_occurrences c m :
  delimiter c -> occurrences c (direction_columns m) = if c =? 44 then 3%nat else 0%nat.
Proof.
  intros Hc. destruct m as [m|]; cbn [direction_columns]; [|by destruct Hc as [->| ->]].
  count_columns c Hc. by destruct Hc as [->| ->].
Qed.
Lemma final_direction_columns_occurrences c m :
  delimiter c -> occurrences c (final_direction_columns m) = if c =? 44 then 3%nat else 0%nat.
Proof.
  intros Hc. destruct m as [m|]; cbn [final_direction_columns]; [|by destruct Hc as [->| ->]].
  count_columns c Hc. by destruct Hc as [->| ->].
Qed.

(** A row has the columns of its header: whatever is measured -- absent
    directions, missing readings, infinities included -- the summary row and
    every interval row have the commas of their header and one line end, and
    no more than the commas and line ends the test's identifier or the
    timestamp brings along unquoted. *)
Theorem csv_rows_align (r : TestResult) (i : interval_line) :
  let commas := occurrences 44 in
  let line_ends := occurrences 10 in
  commas (csv_row r) = (commas csv_header + commas (tr_id r))%nat /\
  line_ends (csv_row r) = S (line_ends (tr_id r)) /\
  commas (output_interval_csv i) = (commas csv_interval_header + commas (il_timestamp i))%nat /\
  line_ends (output_interval_csv i) = S (line_ends (il_timestamp i)).
Proof.
  assert (H1 : delimiter 44) by by left. assert (H2 : delimiter 10) by by right.
  cbv zeta. unfold csv_row, output_interval_csv. split_and!.
  - count_columns 44 H1. rewrite !final_direction_columns_occurrences by done.
    replace (occurrences 44 csv_header) with 19%nat by (vm_compute; reflexivity). cbv [occurrences]; cbn [List.filter Z.eqb Pos.eqb length]; lia.
  - count_columns 10 H2. rewrite !final_direction_columns_occurrences by done. cbv [occurrences]; cbn [List.filter Z.eqb Pos.eqb length]; lia.
  - count_columns 44 H1. rewrite !direction_columns_occurrences by done.
    replace (occurrences 44 csv_interval_header) with 20%nat by (vm_compute; reflexivity). cbv [occurrences]; cbn [List.filter Z.eqb Pos.eqb length]; lia.
  - count_columns 10 H2. rewrite !direction_columns_occurrences by done. cbv [occurrences]; cbn [List.filter Z.eqb Pos.eqb length]; lia.
Qed.
