(* ===== verification/Spawn.v ===== *)
(** * The client's data streams and the MTU probe (src/src/client.rs)

    How [spawn_tcp_streams] lays out the streams of a test (the UDP ones are in
    [UdpSpawn]), what each TCP stream task does with its socket, on every path,
    how many connect at once, and the exchange of --probe-mtu with its use of
    the control channel.  Sockets and the data loops (their own components) are
    outcomes here: a task is the sequence of what it does. *)
From S2P Require Import Prelude Bytes Text Fmt UdpWire Ip Auth ControlCrypto Protocol Client Probe Handshake Session.
From S2P Require Import Report Target.

(** ** Shares and layout *)
Definition share_of (bitrate streams : Z) : Z := if bitrate =? 0 then 0 else Z.max (bitrate / streams) 1.
Definition tcp_stream_bitrate (c : ClientConfig) : option Z :=
  option_map (fun b => share_of b (streams c)) (bitrate c).

(** [-n] and the client sends: the end of its send loops ends the test. *)
Definition finish_on_budget (c : ClientConfig) : bool :=
  match byte_budget c with Some _ => true | None => false end && negb (bool_decide (direction c = Download)).

Inductive spawn_error :=
  PortCount (ports streams : Z) | BindPorts (e : port_error) | SocketFailed (stream : Z) | NoHandshake (stream : Z).

(** Where a stream connects, from which address, and the number it announces
    when all streams share the control port. *)
Record stream_plan := mkPlan {
  remote : SocketAddr; local : option SocketAddr; announced : option Z }.

Definition plan_stream (c : ClientConfig) (base : option SocketAddr) (server_addr : SocketAddr) (port : Z)
    (single_port : bool) (i : Z) : stream_plan :=
  let addr := with_port server_addr port in
  mkPlan addr
    (option_map (fun local => match_bind_family local addr) (stream_bind_addr base (sequential_ports c) i))
    (if single_port then Some (wrap 16 i) else None).

Definition tcp_plans (c : ClientConfig) (data_ports : list Z) (server_addr : SocketAddr)
    : result (list stream_plan) spawn_error :=
  let single_port_mode := bool_decide (data_ports = []) in
  if negb single_port_mode && negb (len data_ports =? streams c) then Err (PortCount (len data_ports) (streams c))
  else
    let? base := map_err BindPorts (sequential_bind_base (bind_addr c) (sequential_ports c) (streams c)) in
    Ok (map (fun i => plan_stream c base server_addr
                        (if single_port_mode then port c else nth (Z.to_nat i) data_ports 0) single_port_mode i)
            (seqZ 0 (streams c))).

(** ** A TCP stream *)
Inductive tcp_action :=
  | AcquirePermit | ReleasePermit
  | Connect (addr : SocketAddr) (local : option SocketAddr) (mptcp : bool)
  | SetTos (tos : Z) | WriteHello (stream_index : Z)
  | SetTcpInfoFd | ClearTcpInfoFd | ConfigureStream
  | SendData (bitrate : option Z) | ReceiveData | BothHalves (bitrate : option Z)
  | SetFinalTcpInfo (info : TcpInfoSnapshot) | LogError | DropSendingDone.

(** What its calls return. *)
Record tcp_outcome := mkOutcome {
  limiter_open : bool; connected : bool; hello_serialized : bool; hello_written : bool; configured : bool;
  sent : result (option TcpInfoSnapshot) unit; received : bool }.

Definition sends (d : Direction) : bool := negb (bool_decide (d = Download)).

(** The [match direction] of the task. *)
Definition tcp_data (c : ClientConfig) (o : tcp_outcome) : list tcp_action :=
  let bitrate := tcp_stream_bitrate c in
  match direction c with
  | Upload =>
    SendData bitrate ::
    (match sent o with
     | Ok (Some info) => [SetFinalTcpInfo info]
     | Ok None => []
     | Err _ => [LogError]
     end) ++ [ClearTcpInfoFd]
  | Download => ReceiveData :: (if received o then [] else [LogError]) ++ [ClearTcpInfoFd]
  | Bidir =>
    ConfigureStream ::
    (if configured o then
       BothHalves bitrate ::
       (match sent o with Err _ => [LogError] | Ok _ => [] end) ++
       (if received o then [] else [LogError]) ++
       (match sent o, received o with Ok (Some info), true => [SetFinalTcpInfo info] | _, _ => [] end) ++
       [ClearTcpInfoFd]
     else [LogError; ClearTcpInfoFd])
  end.

(** The task; leaving it drops the permit it holds, then the sender. *)
Definition tcp_task (c : ClientConfig) (p : stream_plan) (o : tcp_outcome) : list tcp_action :=
  let single := match announced p with Some _ => true | None => false end in
  let permit := if single then [ReleasePermit] else [] in
  if single && negb (limiter_open o) then [LogError; DropSendingDone]
  else
    (if single then [AcquirePermit] else []) ++ Connect (remote p) (local p) (mptcp c) ::
    (if negb (connected o) then LogError :: permit ++ [DropSendingDone]
     else
       (match dscp c with Some tos => [SetTos tos] | None => [] end) ++
       (match announced p with
        | Some i =>
          if negb (hello_serialized o) then LogError :: permit ++ [DropSendingDone]
          else WriteHello i ::
               (if negb (hello_written o) then LogError :: permit ++ [DropSendingDone]
                else permit ++ (if sends (direction c) then [SetTcpInfoFd] else [])
                     ++ tcp_data c o ++ [DropSendingDone])
        | None => (if sends (direction c) then [SetTcpInfoFd] else []) ++ tcp_data c o ++ [DropSendingDone]
        end)).

(** ** All TCP streams at once

    Each task with what it has done and what it still does; the semaphore of
    the handshakes lets [AcquirePermit] pass while a permit is free. *)
Record task := mkTask { past : list tcp_action; future : list tcp_action }.
Record spawned := mkSpawned { permits : Z; tasks : list task }.

Definition advance (t : task) : task :=
  match future t with [] => t | a :: rest => mkTask (past t ++ [a]) rest end.
Definition take_turn (i : nat) (s : spawned) : spawned :=
  match tasks s !! i with
  | None => s
  | Some t =>
    match future t with
    | [] => s
    | AcquirePermit :: _ =>
      if 0 <? permits s then mkSpawned (permits s - 1) (<[i := advance t]> (tasks s)) else s
    | ReleasePermit :: _ => mkSpawned (permits s + 1) (<[i := advance t]> (tasks s))
    | _ :: _ => mkSpawned (permits s) (<[i := advance t]> (tasks s))
    end
  end.
Definition spawn_tcp (c : ClientConfig) (plans : list stream_plan) (outcomes : list tcp_outcome) : spawned :=
  mkSpawned (single_port_handshake_parallelism (streams c))
            (map (fun '(p, o) => mkTask [] (tcp_task c p o)) (zip plans outcomes)).
Definition run_turns : list nat -> spawned -> spawned := fold_left (fun s i => take_turn i s).

(** ** The MTU probe

    The exchange of [run_mtu_probe_exchange]: it reads and writes the control
    connection itself.  The socket, the hello and the probe (Probe.run_probe)
    are outcomes; [reads] reads finish before the deadline of ten seconds. *)
Inductive probe_error :=
  NoUdpPort | SocketError | HelloFailed | ProbeFailed | NotSent | BadRead (e : handshake_error) | ProbeTimeout
  | ClosedEarly | ServerSaid (message : str).
Definition with_err {E F A} (f : E -> F) (m : io E A) : io F A := fun c => let '(c, r) := m c in (c, map_err f r).

Record probe_outcome := mkProbeOutcome { socket_ok : bool; hello_ok : bool; report : option MtuProbeReport; reads : nat }.

Definition probe_port (c : ClientConfig) (token : option (list Z)) (data_ports : list Z) : result Z probe_error :=
  match token, data_ports with
  | Some _, _ => Ok (port c)
  | None, p :: _ => Ok p
  | None, [] => Err NoUdpPort
  end.

Section probe.
Variables (to_json : ControlMessage -> option str) (of_json : str -> option ControlMessage).
#[local] Open Scope io_scope.

(** The messages read up to the result; others are passed over. *)
Fixpoint await_result (reads : nat) : io probe_error TestResult :=
  match reads with
  | O => fail ProbeTimeout
  | S reads =>
    do! line <- with_err BadRead read_line;;
    if bool_decide (line = []) then fail ClosedEarly
    else
      do! msg <- with_err BadRead (parse of_json line);;
      match msg with
      | ResultMsg r => ret r
      | ErrorMsg m => fail (ServerSaid m)
      | _ => await_result reads
      end
  end.

Definition with_probe (r : TestResult) (report : MtuProbeReport) : TestResult :=
  mkTestResult (tr_id r) (tr_bytes_total r) (tr_duration_ms r) (tr_throughput_mbps r) (tr_streams r) (tr_tcp_info r)
    (tr_udp_stats r) (tr_udp_stats_send r) (tr_udp_stats_recv r) (tr_bytes_sent r) (tr_bytes_received r)
    (tr_throughput_send_mbps r) (tr_throughput_recv_mbps r) (Some report)
    (tr_server_udp_send_errors r) (tr_client_udp_send_errors r) (tr_zero_byte_streams r).

Definition probe_cancel (test_id : str) : ControlMessage := Cancel test_id (txt "MTU probe complete").

Definition run_mtu_probe_exchange (c : ClientConfig) (token : option (list Z)) (data_ports : list Z) (test_id : str)
    (o : probe_outcome) : io probe_error TestResult :=
  do! _ <- lift (probe_port c token data_ports);;
  do! _ <- require (socket_ok o) SocketError;;
  do! _ <- require (match token with Some _ => hello_ok o | None => true end) HelloFailed;;
  do! rep <- lift (ok_or (report o) ProbeFailed);;
  do! json <- lift (ok_or (to_json (probe_cancel test_id)) NotSent);;
  do! _ <- with_err BadRead (write_line json);;
  do! result <- await_result (reads o);;
  ret (with_probe result rep).
End probe.

(** ** A QUIC stream *)
Inductive quic_action :=
  | OpenUni | AcceptUni | OpenBi | SendQuic (bitrate : option Z) | ReceiveQuic | BothQuic (bitrate : option Z)
  | LogStreamError | DropQuicSendingDone.
(** Whether the stream opens, and how its loops end. *)
Definition quic_task (c : ClientConfig) (opened sent_ok received_ok : bool) : list quic_action :=
  let bitrate := tcp_stream_bitrate c in
  let logged (ok : bool) := if ok then [] else [LogStreamError] in
  match direction c with
  | Upload => OpenUni :: if opened then SendQuic bitrate :: logged sent_ok else [LogStreamError]
  | Download => AcceptUni :: if opened then ReceiveQuic :: logged received_ok else [LogStreamError]
  | Bidir => OpenBi :: if opened then BothQuic bitrate :: logged sent_ok ++ logged received_ok else [LogStreamError]
  end ++ [DropQuicSendingDone].

(** ** A UDP setup that failed *)
Section failed_setup.
Context `{Aead}.
Variables (to_json : ControlMessage -> option str) (of_json : str -> option ControlMessage).

Definition setup_cancel (test_id : str) : ControlMessage := Cancel test_id (txt "UDP stream setup failed").

(** The errors of the first result the server sends, within the time of
    [reads] reads; whatever else arrives is skipped. *)
Fixpoint fetch_errors (reads : nat) (t : ProtectedControl) (c : conn) : conn * option UdpSendErrors :=
  match reads with
  | O => (c, None)
  | S reads =>
    match read_message t c with
    | (c, Err _) => (c, None)
    | (c, Ok (t, line)) =>
      if bool_decide (line = []) then (c, None)
      else match deserialize of_json (trim line) with
           | Ok (ResultMsg r) => (c, tr_server_udp_send_errors r)
           | _ => fetch_errors reads t c
           end
    end
  end.

Definition sanitize_errors (e : UdpSendErrors) : UdpSendErrors :=
  mkUdpSendErrors (count e) (sanitize_message (last_error e)).

(** [cancel_and_fetch_server_udp_send_errors]. *)
Definition cancel_and_fetch (t : ProtectedControl) (test_id : str) (reads : nat) (c : conn) : conn * option UdpSendErrors :=
  match to_json (setup_cancel test_id) with
  | None => (c, None)
  | Some json =>
    match write_message t json c with
    | (c, Err _) => (c, None)
    | (c, Ok t) => let '(c, e) := fetch_errors reads t c in (c, option_map sanitize_errors e)
    end
  end.

(** The error of the run: why the setup failed, and what the server says. *)
Definition setup_failed_text (e : str) (server : option UdpSendErrors) : str :=
  match server with Some errors => e ++ txt " " ++ describe errors (txt "Server") | None => e end.
End failed_setup.

(** ** The run up to its control connection *)
Inductive run_warning := CongestionIgnored (p : Protocol) | LengthIgnored (p : Protocol).
Definition run_warnings (c : ClientConfig) : list run_warning :=
  (if negb (bool_decide (protocol c = Tcp)) && Handshake.is_some (tcp_congestion c) then [CongestionIgnored (protocol c)] else []) ++
  (if negb (bool_decide (protocol c = Udp)) && Handshake.is_some (udp_payload_size c) then [LengthIgnored (protocol c)] else []).

Inductive run_error := Invalid (e : config_error) | ConnectTimedOut (target : str) (limit : Z) | ConnectFailed | PortOverlap (e : port_error).
(** A connect that takes [took], to its local and the peer's address, or fails. *)
Definition timed_connect (c : ClientConfig) (took : Z) (r : option (SocketAddr * SocketAddr))
    : result (SocketAddr * SocketAddr) run_error :=
  match connect_timeout c with
  | Some limit =>
    if limit <? took then Err (ConnectTimedOut (host_port (host c) (port c)) limit) else ok_or r ConnectFailed
  | None => ok_or r ConnectFailed
  end.
Inductive connection := OverQuic | OverTcp (peer : SocketAddr).
Definition start_run (c : ClientConfig) (took : Z) (r : option (SocketAddr * SocketAddr)) : result connection run_error :=
  let? _ := map_err Invalid (validate c) in
  if bool_decide (protocol c = Quic) then Ok OverQuic
  else
    let? addrs := timed_connect c took r in
    let? _ := if bool_decide (protocol c = Tcp)
              then map_err PortOverlap (validate_tcp_control_port (fst addrs) c) else Ok tt in
    Ok (OverTcp (snd addrs)).

(** A silent server, however the session noticed. *)
Inductive quic_end (E : Type) := ServerSilent | SessionError (e : E).
Arguments ServerSilent {E}.
Arguments SessionError {E} e.
Definition quic_run_result {T E} (closed_by_timeout : bool) (r : result T E) : result T (quic_end E) :=
  match r with
  | Err _ => if closed_by_timeout then Err ServerSilent else map_err SessionError r
  | Ok v => Ok v
  end.

(** ** What every TCP stream task respects

    A watcher of the trace of one task: what it holds, what it has done, and
    which action is allowed when. *)
Record watcher := mkWatcher { w_permit : bool; w_connected : bool; w_hello : bool; w_fd : bool; w_done : bool }.
Definition allow (b : bool) (w : watcher) : option watcher := if b then Some w else None.

Section watching.
Context (single sending : bool).

(** Ready for data: connected, announced where that is needed, permit given back. *)
Definition ready (w : watcher) : bool := w_connected w && negb (w_permit w) && Bool.eqb (w_hello w) single && negb (w_done w).
Definition watch (w : watcher) (a : tcp_action) : option watcher :=
  let '(mkWatcher permit conn hello fd fin) := w in
  match a with
  | AcquirePermit => allow (single && negb permit && negb conn && negb fin) (mkWatcher true conn hello fd fin)
  | ReleasePermit => allow permit (mkWatcher false conn hello fd fin)
  | Connect _ _ _ => allow (Bool.eqb permit single && negb conn && negb fin) (mkWatcher permit true hello fd fin)
  | SetTos _ => allow (conn && negb fin) w
  | WriteHello _ => allow (single && permit && conn && negb hello && negb fin) (mkWatcher permit conn true fd fin)
  | SetTcpInfoFd => allow (ready w && sending && negb fd) (mkWatcher permit conn hello true fin)
  | ConfigureStream => allow (ready w) w
  | SendData _ | BothHalves _ => allow (ready w && fd) w
  | ReceiveData => allow (ready w) w
  | SetFinalTcpInfo _ => allow (ready w && fd) w
  | ClearTcpInfoFd => allow (ready w) (mkWatcher permit conn hello false fin)
  | LogError => allow (negb fin) w
  | DropSendingDone => allow (negb permit && negb fd && negb fin) (mkWatcher permit conn hello fd true)
  end.
Fixpoint watch_all (w : watcher) (l : list tcp_action) : option watcher :=
  match l with [] => Some w | a :: l => match watch w a with Some w => watch_all w l | None => None end end.
End watching.

Definition fresh_watcher : watcher := mkWatcher false false false false false.
Definition announces (p : stream_plan) : bool := match announced p with Some _ => true | None => false end.

Lemma watch_app single sending w l1 l2 :
  watch_all single sending w (l1 ++ l2)
  = match watch_all single sending w l1 with Some w => watch_all single sending w l2 | None => None end.
Proof. revert w. induction l1 as [|a l1 IH]; intros w; [done|]. cbn. by destruct (watch _ _ w a). Qed.

(** The data phase, from a connected stream to the end. *)
Lemma tcp_data_watched c o single :
  watch_all single (sends (direction c)) (mkWatcher false true single false false)
    ((if sends (direction c) then [SetTcpInfoFd] else []) ++ tcp_data c o ++ [DropSendingDone])
  = Some (mkWatcher false true single false true).
Proof.
  unfold tcp_data, sends. destruct (direction c), single, (sent o) as [[info|]|[]], (received o); try reflexivity;
    destruct (configured o); reflexivity.
Qed.

(** C26. On every path, whatever the calls return, a stream task connects under a
    handshake permit if all streams share a port, announces itself before any
    data, gives the permit back before the data phase and on every error,
    never leaves the socket of a closed stream to be polled, and drops its
    sender of "sending done" last, once. *)
Theorem tcp_task_tidy (c : ClientConfig) (p : stream_plan) (o : tcp_outcome) :
  exists w, watch_all (announces p) (sends (direction c)) fresh_watcher (tcp_task c p o) = Some w /\
    w_permit w = false /\ w_fd w = false /\ w_done w = true /\
    (w_hello w = true -> announces p = true) /\
    (limiter_open o = true -> connected o = true -> hello_serialized o = true -> hello_written o = true ->
     w_hello w = announces p /\ incl (tcp_data c o) (tcp_task c p o)).
Proof.
  unfold tcp_task, announces.
  destruct (announced p) as [i|]; cbn [andb].
  - destruct (limiter_open o); cbn [negb]; [|by eexists; split_and!].
    destruct (connected o); cbn [negb]; [|by eexists; split_and!].
    destruct (hello_serialized o); cbn [negb]; [|by destruct (dscp c); eexists; split_and!].
    destruct (hello_written o); cbn [negb]; [|by destruct (dscp c); eexists; split_and!].
    exists (mkWatcher false true true false true). split_and!; try done.
    + pose proof (tcp_data_watched c o true) as H. destruct (dscp c); exact H.
    + intros _ _ _ _. split; [done|]. intros a Ha. rewrite !in_app_iff. cbn [In]. rewrite !in_app_iff. cbn [In]. rewrite !in_app_iff. tauto.
  - destruct (connected o); cbn [negb app]; [|by eexists; split_and!].
    exists (mkWatcher false true false false true). split_and!; try done.
    + pose proof (tcp_data_watched c o false) as H. destruct (dscp c); exact H.
    + intros _ _ _ _. split; [done|]. intros a Ha. cbn [In]. rewrite !in_app_iff. tauto.
Qed.

(** ** All streams at once *)
Definition is_acquire (a : tcp_action) : bool := match a with AcquirePermit => true | _ => false end.
Definition is_release (a : tcp_action) : bool := match a with ReleasePermit => true | _ => false end.
Definition is_drop (a : tcp_action) : bool := match a with DropSendingDone => true | _ => false end.
Definition none (p : tcp_action -> bool) (l : list tcp_action) : Prop := existsb p l = false.

(** A task between taking its permit and giving it back. *)
Definition in_handshake (t : task) : bool := existsb is_acquire (past t) && negb (existsb is_release (past t)).
Definition handshakes (s : spawned) : Z := zsum (map (fun t => if in_handshake t then 1 else 0) (tasks s)).
Definition finished (t : task) : Prop := future t = [].
(** The receiver of "sending done" sees the channel closed. *)
Definition channel_closed (s : spawned) : Prop := Forall (fun t => existsb is_drop (past t) = true) (tasks s).

(** The shape of the rest of a task: nothing of the permit left, the permit
    held and given back once, or the permit still to be taken. *)
Definition free_rest (l : list tcp_action) : Prop := none is_acquire l /\ none is_release l.
Definition held_rest (l : list tcp_action) : Prop :=
  exists pre post, l = pre ++ ReleasePermit :: post /\ free_rest pre /\ free_rest post.
Definition task_shape (t : task) : Prop :=
  (free_rest (future t) /\ in_handshake t = false) \/
  (held_rest (future t) /\ existsb is_acquire (past t) = true /\ none is_release (past t)) \/
  (exists l, future t = AcquirePermit :: l /\ held_rest l /\ none is_acquire (past t) /\ none is_release (past t)).
Definition drop_shape (t : task) : Prop :=
  (exists l, future t = l ++ [DropSendingDone] /\ none is_drop l /\ none is_drop (past t)) \/
  (future t = [] /\ existsb is_drop (past t) = true).

Lemma none_app p l1 l2 : none p (l1 ++ l2) <-> none p l1 /\ none p l2.
Proof. unfold none. rewrite existsb_app, orb_false_iff. done. Qed.
Lemma none_cons p a l : none p (a :: l) <-> p a = false /\ none p l.
Proof. unfold none. cbn. by rewrite orb_false_iff. Qed.
Lemma free_app l1 l2 : free_rest (l1 ++ l2) <-> free_rest l1 /\ free_rest l2.
Proof. unfold free_rest. rewrite !none_app. tauto. Qed.

Lemma free_cons a l : free_rest (a :: l) <-> free_rest [a] /\ free_rest l.
Proof. apply (free_app [a] l). Qed.
(** Splits a claim about a list into claims about its parts. *)
Ltac split_rest :=
  lazymatch goal with
  | |- none _ (_ ++ _) => apply none_app; split; split_rest
  | |- none _ (_ :: _) => apply none_cons; split; [done|split_rest]
  | |- free_rest (_ ++ _) => apply free_app; split; split_rest
  | |- free_rest [_] => done
  | |- free_rest (_ :: _) => apply free_cons; split; [done|split_rest]
  | |- _ => done
  end.

(** One turn of one task. *)
Definition permit_change (a : tcp_action) : Z := match a with AcquirePermit => 1 | ReleasePermit => -1 | _ => 0 end.
Definition held (t : task) : Z := if in_handshake t then 1 else 0.

Lemma advance_past a l t : future t = a :: l -> past (advance t) = past t ++ [a] /\ future (advance t) = l.
Proof. unfold advance. by intros ->. Qed.
Lemma in_handshake_snoc l a f :
  in_handshake (mkTask (l ++ [a]) f) =
  (existsb is_acquire l || is_acquire a) && negb (existsb is_release l || is_release a).
Proof. unfold in_handshake. cbn [past]. rewrite !existsb_app. cbn. by rewrite !orb_false_r. Qed.

Lemma advance_shape t a l : task_shape t -> future t = a :: l ->
  task_shape (advance t) /\ held (advance t) = held t + permit_change a.
Proof.
  intros Hs Hf. unfold advance, held. rewrite Hf. unfold task_shape. cbn [past future]. rewrite in_handshake_snoc.
  destruct Hs as [[Hr Hi]|[((pre & post & E & Hp & Hq) & Ha & Hn)|(l' & E & Hh & Ha & Hn)]]; rewrite Hf in *.
  - destruct Hr as [[Hx1 Hr1]%none_cons [Hx2 Hr2]%none_cons]. unfold in_handshake in *. rewrite Hx1, Hx2, !orb_false_r, Hi.
    split; [by left|]. by destruct a.
  - unfold in_handshake. rewrite Ha, Hn. cbn [orb andb negb]. destruct pre as [|b pre]; injection E as -> ->.
    + split; [by left|done].
    + destruct Hp as [[Hx1 Hp1]%none_cons [Hx2 Hp2]%none_cons]. rewrite Hx2. split; [|by destruct b].
      right. left. split; [by exists pre, post|]. split; [by rewrite existsb_app, Ha|]. apply none_app. split; [done|].
      by apply none_cons.
  - injection E as -> ->. unfold in_handshake. rewrite Ha, Hn. cbn. split; [|done]. right. left. split; [done|].
    split; [by rewrite existsb_app, orb_true_r|]. by apply none_app.
Qed.

Lemma advance_drop t a l : drop_shape t -> future t = a :: l -> drop_shape (advance t).
Proof.
  intros Hs Hf. unfold advance. rewrite Hf. destruct Hs as [(l' & E & Hl & Hn)|[E _]]; [|by rewrite Hf in E].
  rewrite Hf in E. destruct l' as [|b l']; injection E as -> ->.
  - right. split; [done|]. cbn. by rewrite existsb_app, orb_true_r.
  - left. apply none_cons in Hl as [Hb Hl]. exists l'. split_and!; [done..|]. apply none_app. split; [done|]. by apply none_cons.
Qed.

(** What holds of a set of tasks that share [K] permits. *)
Definition balanced (K : Z) (s : spawned) : Prop :=
  Forall task_shape (tasks s) /\ Forall drop_shape (tasks s) /\ 0 <= permits s /\ permits s + handshakes s = K.

Lemma handshakes_nonneg s : 0 <= handshakes s.
Proof. apply zsum_nonneg. apply Forall_map, Forall_true. intros t. unfold compose. destruct (in_handshake t); lia. Qed.

(** A turn is nothing, or one action of one task within the permits. *)
Inductive turn (i : nat) (s : spawned) : spawned -> Prop :=
  | turn_idle : turn i s s
  | turn_acts t a l : tasks s !! i = Some t -> future t = a :: l -> (a = AcquirePermit -> 0 < permits s) ->
      turn i s (mkSpawned (permits s - permit_change a) (<[i := advance t]> (tasks s))).
Lemma take_turn_turn i s : turn i s (take_turn i s).
Proof.
  unfold take_turn. destruct (tasks s !! i) as [t|] eqn:Et; [|constructor]. destruct (future t) as [|a l] eqn:Ef; [constructor|].
  pose proof (turn_acts i s t a l Et Ef) as Ht.
  destruct a; cbn [permit_change] in Ht; rewrite ?Z.sub_0_r in Ht; try by apply Ht.
  destruct (Z.ltb_spec 0 (permits s)); [by apply Ht|constructor].
Qed.

Lemma turn_balanced K i s s' : turn i s s' -> balanced K s -> balanced K s'.
Proof.
  intros [|t a l Et Ef Ha] (Hs & Hd & Hp & Hk); [done|]. unfold balanced, handshakes in *. cbn [tasks permits].
  pose proof (proj1 (Forall_lookup _ _) Hs i t Et) as Hst. pose proof (proj1 (Forall_lookup _ _) Hd i t Et) as Hdt.
  destruct (advance_shape t a l Hst Ef) as [Hsh Hh].
  rewrite (zsum_insert _ _ i t (advance t) Et). fold (held t) (held (advance t)). rewrite Hh.
  split_and!; [apply Forall_insert; done|apply Forall_insert; [done|by eapply advance_drop]| |lia].
  destruct a; cbn; try lia. specialize (Ha eq_refl). lia.
Qed.

Lemma run_balanced K turns s : balanced K s -> balanced K (run_turns turns s).
Proof.
  revert s. induction turns as [|i turns IH]; intros s Hb; [done|]. cbn. apply IH. eapply turn_balanced; [apply take_turn_turn|done].
Qed.

(** ** Progress *)
Definition work_left (s : spawned) : nat := sum_list (map (fun t => length (future t)) (tasks s)).

Lemma sum_insert (f : task -> nat) l i x y : l !! i = Some x ->
  (sum_list (map f (<[i := y]> l)) + f x = sum_list (map f l) + f y)%nat.
Proof.
  revert i. induction l as [|z l IH]; intros [|i] E; try done.
  - injection E as ->. cbn. lia.
  - change (<[S i := y]> (z :: l)) with (z :: <[i := y]> l). cbn in *. specialize (IH i E). lia.
Qed.

Lemma acts_less i s t a l : tasks s !! i = Some t -> future t = a :: l ->
  (work_left (mkSpawned (permits s - permit_change a) (<[i := advance t]> (tasks s))) < work_left s)%nat.
Proof.
  intros Et Ef. unfold work_left. cbn [tasks].
  pose proof (sum_insert (fun t => length (future t)) (tasks s) i t (advance t) Et) as H. cbn beta in H.
  destruct (advance_past a l t Ef) as [_ Ea]. rewrite Ea, Ef in H. cbn [length] in H. lia.
Qed.

Definition unfinished (t : task) : bool := match future t with [] => false | _ => true end.
Definition unblocked (t : task) : bool := match future t with [] | AcquirePermit :: _ => false | _ => true end.

(** Unless all tasks are over, some task can take its turn. *)
Lemma some_turn K s : 0 < K -> balanced K s -> Exists (fun t => unfinished t = true) (tasks s) ->
  exists i, (work_left (take_turn i s) < work_left s)%nat.
Proof.
  intros HK (Hs & _ & _ & Hk) Hex.
  destruct (decide (Exists (fun t => unblocked t = true) (tasks s))) as [Hy|Hn].
  - apply Exists_exists in Hy as (t & Hin & Ht). apply list_elem_of_lookup in Hin as [i Et]. exists i. unfold take_turn. rewrite Et.
    unfold unblocked in Ht. destruct (future t) as [|a l] eqn:Ef; [done|]. pose proof (acts_less i s t a l Et Ef) as Hl.
    destruct a; try done; cbn [permit_change] in Hl; rewrite ?Z.sub_0_r in Hl; exact Hl.
  - assert (H0 : handshakes s = 0).
    { unfold handshakes. rewrite <- Forall_Exists_neg in Hn. clear Hk Hex HK.
      induction (tasks s) as [|t ts IH]; [done|]. apply Forall_cons in Hs as [Ht Hs], Hn as [Hn Hns]. cbn. rewrite IH by done.
      destruct Ht as [[_ ->]|[((pre & post & E & Hp & _) & _)|(l & E & _ & Ha & _)]]; [done|exfalso|].
      - destruct Hn. unfold unblocked. rewrite E. destruct pre as [|b pre]; [done|]. destruct Hp as [[Hb _]%none_cons _]. by destruct b.
      - unfold in_handshake. by rewrite Ha. }
    apply Exists_exists in Hex as (t & Hin & Ht). apply list_elem_of_lookup in Hin as [i Et]. exists i. unfold take_turn. rewrite Et.
    assert (Hf : exists l, future t = AcquirePermit :: l).
    { rewrite <- Forall_Exists_neg in Hn. pose proof (proj1 (Forall_lookup _ _) Hn i t Et) as Hnt. cbn in Hnt.
      unfold unfinished in Ht. unfold unblocked in Hnt. destruct (future t) as [|a l]; [done|]. exists l.
      by destruct a; try destruct (Hnt eq_refl). }
    destruct Hf as [l Ef]. rewrite Ef. rewrite (proj2 (Z.ltb_lt 0 (permits s))) by lia.
    exact (acts_less i s t AcquirePermit l Et Ef).
Qed.

Lemma run_to_end K s : 0 < K -> balanced K s -> exists more, Forall finished (tasks (run_turns more s)).
Proof.
  intros HK. remember (work_left s) as n eqn:En. revert s En. induction n as [n IH] using lt_wf_ind. intros s -> Hb.
  destruct (decide (Exists (fun t => unfinished t = true) (tasks s))) as [Hex|Hno].
  - destruct (some_turn K s HK Hb Hex) as [i Hl].
    destruct (IH _ Hl (take_turn i s) eq_refl (turn_balanced K i s _ (take_turn_turn i s) Hb)) as [more Hm].
    by exists (i :: more).
  - exists []. cbn. rewrite <- Forall_Exists_neg in Hno. apply (Forall_impl _ _ _ Hno). intros t Ht. unfold finished. unfold unfinished in Ht.
    destruct (future t); [done|]. by destruct Ht.
Qed.

(** ** The streams of a test *)
Lemma free_data c o : free_rest (tcp_data c o) /\ none is_drop (tcp_data c o).
Proof.
  unfold free_rest, none, tcp_data. destruct (direction c), (sent o) as [[info|]|[]], (received o); try done; by destruct (configured o).
Qed.

(** The end of a task that got through its handshake. *)
Definition data_phase (c : ClientConfig) (o : tcp_outcome) : list tcp_action :=
  (if sends (direction c) then [SetTcpInfoFd] else []) ++ tcp_data c o.
Lemma data_phase_free c o : free_rest (data_phase c o) /\ none is_drop (data_phase c o).
Proof.
  destruct (free_data c o) as [Hf Hd]. unfold data_phase. rewrite free_app, none_app. by destruct (sends _).
Qed.

Lemma held_shape pre post : free_rest pre -> free_rest post ->
  task_shape (mkTask [] (AcquirePermit :: pre ++ ReleasePermit :: post)).
Proof. intros Hp Hq. right. right. eexists. split; [done|]. split; [by exists pre, post|]. done. Qed.
Lemma ends_with_drop l : none is_drop l -> drop_shape (mkTask [] (l ++ [DropSendingDone])).
Proof. intros Hl. left. by exists l. Qed.

(** A task is its error path, or connects and goes through its data phase. *)
Lemma tcp_task_paths c p o :
  (exists l, tcp_task c p o = l ++ [DropSendingDone] /\ free_rest l /\ none is_drop l) \/
  (exists pre post, tcp_task c p o = AcquirePermit :: pre ++ ReleasePermit :: post ++ [DropSendingDone] /\
    free_rest pre /\ free_rest post /\ none is_drop (pre ++ post)).
Proof.
  destruct (data_phase_free c o) as [Hf Hd]. unfold tcp_task. destruct (announced p) as [i|]; cbn [andb].
  - destruct (limiter_open o); cbn [negb]; [right|left; by exists [LogError]].
    destruct (connected o); cbn [negb]; [|by exists [Connect (remote p) (local p) (mptcp c); LogError], []].
    set (tos := match dscp c with Some tos => [SetTos tos] | None => [] end).
    assert (Ht : free_rest tos /\ none is_drop tos) by (unfold tos; by destruct (dscp c)). destruct Ht as [Ht Htd].
    destruct (hello_serialized o); cbn [negb].
    2: { exists (Connect (remote p) (local p) (mptcp c) :: tos ++ [LogError]), []. cbn [app]. rewrite <- !app_assoc, app_nil_r.
         split_and!; [done|split_rest..]. }
    destruct (hello_written o); cbn [negb].
    2: { exists (Connect (remote p) (local p) (mptcp c) :: tos ++ [WriteHello i; LogError]), []. cbn [app]. rewrite <- !app_assoc, app_nil_r.
         split_and!; [done|split_rest..]. }
    exists (Connect (remote p) (local p) (mptcp c) :: tos ++ [WriteHello i]), (data_phase c o).
    split_and!; [by unfold data_phase; cbn [app]; rewrite <- !app_assoc|split_rest..].
  - left. destruct (connected o); cbn [negb app]; [|by exists [Connect (remote p) (local p) (mptcp c); LogError]].
    exists (Connect (remote p) (local p) (mptcp c) :: match dscp c with Some tos => [SetTos tos] | None => [] end ++ data_phase c o).
    unfold data_phase at 1. cbn [app]. rewrite <- !app_assoc. destruct (dscp c); split_and!; try done; split_rest.
Qed.

Lemma tcp_task_shapes c p o : task_shape (mkTask [] (tcp_task c p o)) /\ drop_shape (mkTask [] (tcp_task c p o)).
Proof.
  destruct (tcp_task_paths c p o) as [(l & -> & Hf & Hd)|(pre & post & -> & Hp & Hq & Hd)].
  - split; [|by apply ends_with_drop]. left. split; [|done]. by apply free_app.
  - split; [apply held_shape; [done|by apply free_app]|].
    change (AcquirePermit :: pre ++ ReleasePermit :: post ++ [DropSendingDone])
      with ((AcquirePermit :: pre) ++ (ReleasePermit :: post) ++ [DropSendingDone]). rewrite app_assoc. apply ends_with_drop.
    apply none_app in Hd as [Hd1 Hd2]. rewrite none_app, !none_cons. done.
Qed.

Lemma spawn_balanced c plans outcomes :
  balanced (single_port_handshake_parallelism (streams c)) (spawn_tcp c plans outcomes).
Proof.
  unfold balanced, spawn_tcp, handshakes. cbn [tasks permits].
  assert (HK : 0 <= single_port_handshake_parallelism (streams c)).
  { unfold single_port_handshake_parallelism. pose proof (clamp_bounds 1 SINGLE_PORT_HANDSHAKE_FANOUT_MAX (streams c) ltac:(done)). lia. }
  split_and!; [| |done|].
  - apply Forall_map, Forall_true. intros [p o]. apply tcp_task_shapes.
  - apply Forall_map, Forall_true. intros [p o]. apply tcp_task_shapes.
  - rewrite map_map. enough (E : zsum (map (fun x => if in_handshake (let '(p, o) := x in mkTask [] (tcp_task c p o)) then 1 else 0)
      (zip plans outcomes)) = 0) by lia. induction (zip plans outcomes) as [|[p o] l IH]; [done|]. cbn. by rewrite IH.
Qed.

(** C27. Whatever turns the stream tasks of a test take: at most the number of
    handshakes allowed, never more than 16, are under way at once; "sending
    done" is closed exactly when every task is over; each task has done a
    prefix of its trace; and no order of turns can keep the tasks from all
    coming to their end. *)
Theorem spawn_tcp_sound (c : ClientConfig) (plans : list stream_plan) (outcomes : list tcp_outcome) (turns : list nat) :
  let s := run_turns turns (spawn_tcp c plans outcomes) in
  handshakes s <= single_port_handshake_parallelism (streams c) <= SINGLE_PORT_HANDSHAKE_FANOUT_MAX /\
  (channel_closed s <-> Forall finished (tasks s)) /\
  map (fun t => past t ++ future t) (tasks s) = map (fun '(p, o) => tcp_task c p o) (zip plans outcomes) /\
  exists more, Forall finished (tasks (run_turns (turns ++ more) (spawn_tcp c plans outcomes))).
Proof.
  intros s. pose proof (run_balanced _ turns _ (spawn_balanced c plans outcomes)) as Hb. fold s in Hb.
  pose proof (clamp_bounds 1 SINGLE_PORT_HANDSHAKE_FANOUT_MAX (streams c) ltac:(done)) as HK.
  fold (single_port_handshake_parallelism (streams c)) in HK. destruct (Hb) as (_ & Hd & Hp & Hk). split_and!; [lia|lia|..].
  - unfold channel_closed. rewrite !Forall_forall in *. split; intros H t Ht; specialize (H t Ht);
      destruct (Hd t Ht) as [(l & E & _ & Hn)|[E Hdr]]; try done; unfold finished, none in *; [congruence|].
    rewrite E in H. by destruct l.
  - unfold s. generalize (spawn_balanced c plans outcomes). intros _.
    assert (H0 : map (fun t => past t ++ future t) (tasks (spawn_tcp c plans outcomes))
                 = map (fun '(p, o) => tcp_task c p o) (zip plans outcomes)).
    { cbn. rewrite map_map. apply map_ext. by intros []. }
    rewrite <- H0. clear. generalize (spawn_tcp c plans outcomes). induction turns as [|i turns IH]; intros s; [done|].
    cbn. unfold run_turns in IH. rewrite IH. destruct (take_turn_turn i s) as [|t a l Et Ef _]; [done|]. cbn [tasks].
    apply list_eq. intros j. rewrite !list_lookup_fmap. destruct (decide (i = j)) as [<-|Hj].
    + rewrite list_lookup_insert_eq, Et by (by eapply lookup_lt_Some). cbn.
      destruct (advance_past a l t Ef) as [-> ->]. by rewrite Ef, <- app_assoc.
    + by rewrite list_lookup_insert_ne.
  - unfold run_turns. setoid_rewrite fold_left_app. apply (run_to_end (single_port_handshake_parallelism (streams c))); [lia|done].
Qed.

(** ** The MTU probe and the protected control channel *)
Lemma drop_while_snoc p l c : p c = false -> exists l', drop_while p (l ++ [c]) = l' ++ [c].
Proof.
  intros Hc. induction l as [|x l [l' IH]]; cbn; [rewrite Hc; by exists []|].
  destruct (p x); [by exists l'|by exists (x :: l)].
Qed.
(** A character that is no white space stays first. *)
Lemma trim_first c s : is_whitespace c = false -> exists s', trim (c :: s) = c :: s'.
Proof.
  intros Hc. unfold trim, trim_start, trim_end. cbn [drop_while]. rewrite Hc. cbn [List.rev].
  destruct (drop_while_snoc is_whitespace (List.rev s) c Hc) as [l' ->]. rewrite rev_app_distr. by exists (List.rev l').
Qed.

Lemma read_bounded_prefix e cs : forall t b cs' l n,
  read_bounded_line e cs t b = (cs', Ok (l, n)) -> exists l', l = b ++ l'.
Proof.
  induction cs as [|[|x c] cs IH]; intros t b cs' l n; cbn [read_bounded_line].
  - destruct e; [|done]. intros [= _ <- _]. exists []. by rewrite app_nil_r.
  - apply IH.
  - destruct (newline_pos (x :: c)) as [pos|]; (destruct (_ <? _); [done|]).
    + intros [= _ <- _]. by eexists.
    + intros H. apply IH in H as [l' ->]. rewrite <- app_assoc. by eexists.
Qed.

(** The NUL a frame starts with starts the line that is read instead. *)
Lemma read_bounded_nul e cs rest : forall cs' l n t,
  concat cs = 0 :: rest -> read_bounded_line e cs t [] = (cs', Ok (l, n)) -> exists l', l = 0 :: l'.
Proof.
  induction cs as [|[|x c] cs IH]; intros cs' l n t Hc; cbn [read_bounded_line]; [done|by apply IH|].
  cbn in Hc. injection Hc as -> _.
  destruct (newline_pos (0 :: c)) as [pos|]; (destruct (_ <? _); [done|]).
  - intros [= _ <- _]. replace (Z.to_nat (Z.of_nat pos + 1)) with (S pos) by lia. by eexists.
  - intros H. apply read_bounded_prefix in H as [l' ->]. by eexists.
Qed.

Lemma frame_starts_nul z : 0 <= z < 2 ^ 24 -> exists l, to_be_bytes 4 z = 0 :: l.
Proof.
  intros Hz.
  assert (E : z / 256 / 256 / 256 mod 256 = 0) by (Z.to_euclidean_division_equations; lia).
  exists [z / 256 / 256 mod 256; z / 256 mod 256; z mod 256].
  change (to_be_bytes 4 z) with [z / 256 / 256 / 256 mod 256; z / 256 / 256 mod 256; z / 256 mod 256; z mod 256].
  by rewrite E.
Qed.

Section lost.
Context `{Aead} `{!AeadLaws}.
Variables (to_json : ControlMessage -> option str) (of_json : str -> option ControlMessage).
(** No JSON text begins with NUL. *)
Hypothesis json_nul : forall s, of_json (0 :: s) = None.

Lemma await_nul reads c rest : concat (chunks (rdr c)) = 0 :: rest ->
  exists c' e, await_result of_json reads c = (c', Err e) /\ out c' = out c.
Proof.
  intros Hc. destruct reads as [|reads]; [by eexists _, _|]. cbn [await_result]. unfold bind, with_err, read_line, next_line.
  destruct (read_bounded_line (ended (rdr c)) (chunks (rdr c)) 0 []) as [cs' [[l n]|e]] eqn:Er; [|by eexists _, _].
  destruct (read_bounded_nul _ _ rest _ _ _ _ Hc Er) as [l' ->]. cbn [rbind fst map_err].
  change (chars (0 :: l')) with (0 :: chars l'). rewrite bool_decide_eq_false_2 by done.
  unfold parse, lift. destruct (trim_first 0 (chars l') eq_refl) as [s' ->]. unfold deserialize. rewrite json_nul. by eexists _, _.
Qed.
Lemma await_nothing reads c : concat (chunks (rdr c)) = [] ->
  exists c' e, await_result of_json reads c = (c', Err e) /\ out c' = out c.
Proof.
  intros Hc. destruct reads as [|reads]; [by eexists _, _|]. cbn [await_result]. unfold bind, with_err, read_line, next_line.
  assert (E : forall cs, concat cs = [] -> read_bounded_line (ended (rdr c)) cs 0 [] = ([], match ended (rdr c) with Eof => Ok ([], 0) | IoError => Err Io end))
    by (induction cs as [|[|x y] cs IH]; [done|apply IH|done]).
  rewrite (E _ Hc). destruct (ended (rdr c)); by eexists _, _.
Qed.

(** A line of JSON, read as a frame, announces more than a frame may hold. *)
Lemma json_is_no_frame recv j e : json_object j ->
  is_ok (snd (read_frame recv (mkReader [line_of j] e))) = false.
Proof.
  intros Hj. rewrite (line_of_json j Hj). destruct Hj as ([body ->] & Hc & _). unfold read_frame. cbn [chunks ended read_exact].
  apply Forall_cons in Hc as [_ Hc]. cbn [app] in *.
  destruct (Nat.leb_spec 4 (length (123 :: (body ++ [125]) ++ [10]))) as [Hl|Hl].
  - destruct ((body ++ [125]) ++ [10]) as [|a [|b [|d r]]] eqn:El; try (cbn in Hl; lia).
    assert (Hb : Forall (fun x => 0 <= x) (a :: b :: d :: r)).
    { rewrite <- El. apply Forall_app. split; [|by constructor]. apply (Forall_impl _ _ _ Hc). lia. }
    inversion Hb as [|? ? Ha Hb1]; subst. inversion Hb1 as [|? ? Hb' Hb2]; subst. inversion Hb2 as [|? ? Hd _]; subst.
    change (take 4 (123 :: a :: b :: d :: r)) with [123; a; b; d].
    assert (E : MAX_FRAME <? from_be_bytes [123; a; b; d] = true).
    { apply Z.ltb_lt. change (from_be_bytes [123; a; b; d]) with (d + 256 * (b + 256 * (a + 256 * (123 + 256 * 0)))).
      unfold MAX_FRAME. lia. }
    by rewrite E.
  - destruct (4 - _)%nat as [|n] eqn:En; [lia|]. destruct e; done.
Qed.

Lemma ok_inj {T E} (a b : T) : @Ok T E a = Ok b -> a = b.
Proof. by intros [=]. Qed.

(** A frame of less than sixteen megabytes begins with NUL. *)
Lemma sealed_starts_nul server s frame : is_protected server = true -> len s + 24 < 2 ^ 24 ->
  snd (control_write_message server s) = Ok frame -> exists l, frame = 0 :: l.
Proof.
  intros Hp Hlen. destruct server as [|send recv]; [done|]. unfold control_write_message, ControlCodec.seal.
  destruct (encrypt _ _ _ s) as [ct|] eqn:Ee; [|done]. pose proof (aead_len _ _ _ _ _ Ee) as Hct.
  destruct (ControlCodec.advance send) as [send'|]; [|done]. cbn [snd rbind]. intros <-%ok_inj.
  destruct (frame_starts_nul (wrap 32 (len (to_le_bytes 8 (seq send) ++ ct)))) as [l ->]; [|by eexists].
  unfold wrap, len in *. rewrite length_app, length_to_le_bytes, Hct. rewrite Z.mod_small; lia.
Qed.
Lemma await_lost reads c : concat (chunks (rdr c)) = [] \/ (exists l, concat (chunks (rdr c)) = 0 :: l) ->
  exists c' e, await_result of_json reads c = (c', Err e) /\ out c' = out c.
Proof. intros [Hc|[l Hc]]; [by apply await_nothing|by apply (await_nul _ _ l)]. Qed.

(** C29. --probe-mtu over a session with a pre-shared key: the exchange reads and
    writes the control connection outside the protected transport, so it never
    returns a result, whatever the server seals and however well the probe
    went, and what it sends is refused by the server. *)
Theorem probe_lost_under_psk (c : ClientConfig) (token : option (list Z)) (data_ports : list Z) (test_id : str)
    (o : probe_outcome) (server : ProtectedControl) (reply j : str) (frame rest : list Z) (cn : conn) :
  is_protected server = true -> len (as_bytes reply) + 24 < 2 ^ 24 ->
  snd (control_write_message server (as_bytes reply)) = Ok frame ->
  concat (chunks (rdr cn)) = [] \/ concat (chunks (rdr cn)) = frame ++ rest ->
  to_json (probe_cancel test_id) = Some j -> json_object j ->
  let r := run_mtu_probe_exchange to_json of_json c token data_ports test_id o cn in
  is_ok (snd r) = false /\ (out (fst r) = out cn \/ out (fst r) = out cn ++ line_of j) /\
  forall recv e, is_ok (snd (read_frame recv (mkReader [line_of j] e))) = false.
Proof.
  intros Hp Hlen Hw Hin Hj Ho r. destruct (sealed_starts_nul _ _ _ Hp Hlen Hw) as [l ->].
  assert (Haw : exists c' e, await_result of_json (reads o) (mkConn (rdr cn) (out cn ++ line_of j)) = (c', Err e) /\
                             out c' = out cn ++ line_of j).
  { apply await_lost. cbn [rdr]. destruct Hin as [Hin|Hin]; [by left|right]. by exists (l ++ rest). }
  destruct Haw as (c' & e & Haw & E).
  assert (Hr : is_ok (snd r) = false /\ (out (fst r) = out cn \/ out (fst r) = out cn ++ line_of j)).
  { unfold r, run_mtu_probe_exchange, bind, lift, require, ensure, with_err, write_line.
    destruct (probe_port c token data_ports); [|by split; [|left]]. destruct (socket_ok o); [|by split; [|left]].
    destruct (match token with Some _ => hello_ok o | None => true end); [|by split; [|left]].
    destruct (report o); [|by split; [|left]]. cbn [ok_or]. rewrite Hj. cbn [ok_or map_err]. unfold lift. fold (line_of j).
    rewrite Haw. split; [done|by right]. }
  destruct Hr as [Hr1 Hr2]. split_and!; [done..|]. intros recv e'. by apply json_is_no_frame.
Qed.
End lost.

(** ** Without a key the probe comes home *)
Section plain.
Context `{Aead} `{!AeadLaws}.
Variables (to_json : ControlMessage -> option str) (of_json : str -> option ControlMessage).

(** Messages that are neither a result nor an error. *)
Definition passing (m : ControlMessage) : Prop := match m with ResultMsg _ | ErrorMsg _ => False | _ => True end.

Lemma await_reads ms ss r sr rest : forall reads c,
  Forall2 (fun m s => wire_text to_json of_json m s /\ passing m) ms ss -> wire_text to_json of_json (ResultMsg r) sr ->
  concat (chunks (rdr c)) = concat (map line_of ss) ++ line_of sr ++ rest -> (length ss < reads)%nat ->
  exists c', await_result of_json reads c = (c', Ok r) /\ out c' = out c.
Proof.
  intros reads c Hm. revert reads c. induction Hm as [|m s ms ss [Hw Hp] Hm IH]; intros reads c Hr Hc Hl;
    (destruct reads as [|reads]; [cbn in Hl; lia|]); cbn [await_result]; unfold bind, with_err.
  - destruct (read_line_run sr rest c (proj2 (proj2 Hr)) Hc) as (r' & E & _). rewrite E. cbn [map_err].
    rewrite bool_decide_eq_false_2 by (by destruct sr). rewrite (parse_run _ _ _ _ [10] _ Hr) by by repeat constructor.
    by eexists.
  - cbn [map concat] in Hc. rewrite <- app_assoc in Hc.
    destruct (read_line_run s _ c (proj2 (proj2 Hw)) Hc) as (r' & E & Hr' & _). rewrite E. cbn [map_err].
    rewrite bool_decide_eq_false_2 by (by destruct s). rewrite (parse_run _ _ _ _ [10] _ Hw) by by repeat constructor.
    cbn [map_err]. destruct (IH reads (mkConn r' (out c)) Hr Hr' ltac:(cbn in Hl; lia)) as (c' & E' & Ho).
    exists c'. by destruct m.
Qed.

(** Over the plaintext channel the report rides home on the server's result:
    intervals and acknowledgements before it are passed over. *)
Lemma probe_completes c token data_ports test_id o ms ss r sr j rep rest cn :
  is_ok (probe_port c token data_ports) = true -> socket_ok o = true -> hello_ok o = true -> report o = Some rep ->
  to_json (probe_cancel test_id) = Some j ->
  Forall2 (fun m s => wire_text to_json of_json m s /\ passing m) ms ss -> wire_text to_json of_json (ResultMsg r) sr ->
  concat (chunks (rdr cn)) = concat (map line_of ss) ++ line_of sr ++ rest -> (length ss < reads o)%nat ->
  exists cn', run_mtu_probe_exchange to_json of_json c token data_ports test_id o cn
    = (cn', Ok (with_probe r rep)) /\ out cn' = out cn ++ line_of j.
Proof.
  intros Hp Hs Hh Hrep Hj Hm Hr Hc Hl.
  destruct (await_reads ms ss r sr rest (reads o) (mkConn (rdr cn) (out cn ++ line_of j)) Hm Hr Hc Hl) as (c' & E & Ho).
  exists c'. split; [|exact Ho]. unfold run_mtu_probe_exchange, bind, lift, require, ensure, with_err, write_line.
  destruct (probe_port c token data_ports); [|done]. rewrite Hs, Hrep, Hj, Hh. destruct token; unfold lift; cbn [ok_or map_err].
  all: fold (line_of j); by rewrite E.
Qed.

(** What is fetched from a server is fit for the terminal. *)
Lemma fetched_is_clean t id n c c' e : cancel_and_fetch to_json of_json t id n c = (c', Some e) ->
  (length (last_error e) <= MAX_ERROR_LEN)%nat /\ Forall (fun x => is_control x = false) (last_error e).
Proof.
  unfold cancel_and_fetch. destruct (to_json _) as [json|]; [|done]. destruct (write_message t json c) as [c1 [t'|]]; [|done].
  destruct (fetch_errors of_json n t' c1) as [c2 [e'|]]; [|done]. intros [= _ <-]. cbn [last_error sanitize_errors].
  destruct (sanitize_spec (last_error e')) as (H1 & H2 & _). done.
Qed.
End plain.

(** ** Witnesses *)
Definition two_streams (d : Direction) : ClientConfig :=
  mkClientConfig (txt "h") 5201 Tcp 2 10000000000 d None None false None None None DualStack None false false true Auto
    (Some 8) false None (Some 1000).
Definition good_outcome : tcp_outcome := mkOutcome true true true true true (Ok None) true.
Lemma spawn_examples :
  tcp_plans (two_streams Upload) [] (SaV4 1 5201) = Ok [mkPlan (SaV4 1 5201) None (Some 0); mkPlan (SaV4 1 5201) None (Some 1)] /\
  tcp_plans (two_streams Upload) [7] (SaV4 1 5201) = Err (PortCount 1 2) /\
  tcp_task (two_streams Upload) (mkPlan (SaV4 1 5201) None (Some 1)) good_outcome
  = [AcquirePermit; Connect (SaV4 1 5201) None false; SetTos 8; WriteHello 1; ReleasePermit; SetTcpInfoFd; SendData None;
     ClearTcpInfoFd; DropSendingDone] /\
  tcp_stream_bitrate (two_streams Upload) = None /\
  share_of 3 8 = 1 /\ share_of 0 8 = 0.
Proof. by vm_compute. Qed.

Definition probe_json (m : ControlMessage) : option str :=
  match m with Cancel _ _ => Some (txt "{c}") | _ => None end.
Definition demo_frame : list Z :=
  match snd (control_write_message (Protected toy_codec toy_codec) (as_bytes (txt "{r}"))) with Ok f => f | Err _ => [] end.
Lemma probe_lost_under_psk_witness :
  let o := mkProbeOutcome true true (Some (mkReport (Some 1472) None (Some 1500) None false [])) 5 in
  is_ok (snd (run_mtu_probe_exchange probe_json (fun _ => None) default_config None [4000] (txt "id") o
                (mkConn (mkReader [demo_frame] Eof) []))) = false.
Proof.
  intros o.
  apply (probe_lost_under_psk probe_json (fun _ => None) (fun _ => eq_refl) default_config None [4000] (txt "id") o
    (Protected toy_codec toy_codec) (txt "{r}") (txt "{c}")
    demo_frame [] (mkConn (mkReader [demo_frame] Eof) [])).
  - reflexivity.
  - by vm_compute.
  - by vm_compute.
  - by right.
  - reflexivity.
  - split; [by exists [99]|]. split; [repeat constructor; discriminate|discriminate].
Defined.
