(* ===== verification/PushGateway.v ===== *)
(** * Push Gateway delivery (src/src/output/push_gateway.rs)

    The labels an operator may set, the grouping key of a push as the path of
    its URL, the text that is pushed, and the attempts to deliver it.  URLs
    (the url crate), the base64 crate and the HTTP client are parameters: a
    URL is what it parses to, how the path is extended and printed, and a
    request has an outcome.  Strings are characters, times nanoseconds. *)
From coqutil Require Import Datatypes.RecordSettersUsingExistingGetters.
From S2P Require Import Prelude Cli.
From S2P Require Import Bytes Text Float Fmt Ip Protocol Stats Target Report.

Definition DELIVERY_DEADLINE : Z := 5000000000.

(** ** Labels *)

(** [BTreeMap<String, String>] as its entries in the order of the keys. *)
Fixpoint str_ltb (a b : str) : bool :=
  match a, b with
  | [], [] => false
  | [], _ => true
  | _, [] => false
  | x :: a, y :: b => (x <? y) || ((x =? y) && str_ltb a b)
  end.
Fixpoint bt_insert (k v : str) (m : list (str * str)) : list (str * str) :=
  match m with
  | [] => [(k, v)]
  | (k', v') :: m' =>
    if bool_decide (k = k') then (k, v) :: m'
    else if str_ltb k k' then (k, v) :: m else (k', v') :: bt_insert k v m'
  end.
Definition bt_get (k : str) (m : list (str * str)) : option str :=
  option_map snd (List.find (fun p => bool_decide (fst p = k)) m).

Inductive label_error := InvalidName (name : str) | NotKeyValue (label : str) | DuplicateName (name : str).

Definition RESERVED : list str :=
  map txt ["job"; "role"; "server"; "client"; "protocol"; "test_direction"; "direction"; "view"; "test_id";
           "stream_id"]%string.
Definition is_alphabetic (c : Z) : bool := in_range 65 90 c || in_range 97 122 c.
Definition is_digit (c : Z) : bool := in_range 48 57 c.
Definition label_name_ok (name : str) : bool :=
  match name with
  | [] => false
  | c :: rest =>
    (is_alphabetic c || (c =? 95)) && forallb (fun c => is_alphabetic c || (c =? 95) || is_digit c) rest
    && negb (starts_with (txt "__") name) && negb (starts_with (txt "U__") name)
    && negb (existsb (fun r => bool_decide (name = r)) RESERVED)
  end.

Fixpoint validate_push_labels (labels : list (str * str)) : result unit label_error :=
  match labels with
  | [] => Ok tt
  | (name, _) :: labels => if label_name_ok name then validate_push_labels labels else Err (InvalidName name)
  end.

Fixpoint read_overrides (cli : list str) (overrides : list (str * str)) : result (list (str * str)) label_error :=
  match cli with
  | [] => Ok overrides
  | label :: cli =>
    let? kv := ok_or (split_once [61] label) (NotKeyValue label) in
    if is_some (bt_get (fst kv) overrides) then Err (DuplicateName (fst kv))
    else read_overrides cli (bt_insert (fst kv) (snd kv) overrides)
  end.
Definition extend (labels more : list (str * str)) : list (str * str) :=
  fold_left (fun m p => bt_insert (fst p) (snd p) m) more labels.
Definition merge_push_labels (labels : list (str * str)) (cli : list str) : result (list (str * str)) label_error :=
  let? overrides := read_overrides cli [] in
  let labels := extend labels overrides in
  let? _ := validate_push_labels labels in
  Ok labels.

(** ** The URL as it may be shown *)
Fixpoint find (p s : str) : option nat :=
  if starts_with p s then Some O else match s with [] => None | _ :: s => option_map S (find p s) end.
Fixpoint rfind_char (c : Z) (s : str) : option nat :=
  match s with
  | [] => None
  | x :: s => match rfind_char c s with Some i => Some (S i) | None => if x =? c then Some O else None end
  end.
Definition shown_url (url : str) : str :=
  match rfind_char 64 url with
  | Some at_ =>
    let start := Nat.min (match find (txt "://") url with Some i => (i + 3)%nat | None => O end) at_ in
    take start url ++ txt "***" ++ drop at_ url
  | None => url
  end.

(** ** The client *)
Section client.
Context {Url : Type} (parse_url : str -> result Url str) (scheme : Url -> str) (has_host : Url -> bool).
(** The path without a trailing empty segment, then the segments. *)
Variable push_segments : Url -> list str -> option Url.
(** URL-safe base64 without padding. *)
Variable base64 : list Z -> str.

Inductive url_error := InvalidUrl (shown : str) (e : str) | NotHttp | NoHttpClient | CannotBeABase.

Record PushGatewayClient := mkPushClient {
  url : Url; grouping_labels : list (str * str); test : option (Protocol * Direction);
  labels : list (str * str); job : option str
}.

(** The HTTP client may fail to build. *)
Definition new (text : str) (client_ok : bool) : result PushGatewayClient url_error :=
  let? u := map_err (InvalidUrl (shown_url text)) (parse_url text) in
  if (bool_decide (scheme u = txt "http") || bool_decide (scheme u = txt "https")) && has_host u then
    if client_ok then Ok (mkPushClient u [] None [] None) else Err NoHttpClient
  else Err NotHttp.

Definition with_test (protocol : Protocol) (direction : Direction) (self : PushGatewayClient) : PushGatewayClient :=
  self <| test := Some (protocol, direction) |>.
Definition with_labels (l : list (str * str)) (self : PushGatewayClient) : result PushGatewayClient label_error :=
  let? _ := validate_push_labels l in Ok (self <| labels := l |>).
Inductive job_error := EmptyJob | NoInstance | NoContext.
Definition with_job (j : str) (self : PushGatewayClient) : result PushGatewayClient job_error :=
  match trim j with [] => Err EmptyJob | _ => Ok (self <| job := Some j |>) end.
Definition with_endpoint (name value role : str) (self : PushGatewayClient) : PushGatewayClient :=
  self <| grouping_labels := [(txt "role", role); (name, value)] |>.
Definition with_server (host : str) (port : Z) (self : PushGatewayClient) : PushGatewayClient :=
  with_endpoint (txt "server") (host_port host port) (txt "client") self.

Definition validate (self : PushGatewayClient) : result unit job_error :=
  match job self with
  | None => Ok tt
  | Some _ =>
    if negb (match bt_get (txt "instance") (labels self) with Some v => negb (bool_decide (trim v = [])) | None => false end)
    then Err NoInstance
    else if is_some (test self)
            && existsb (fun p => bool_decide (p = (txt "role", txt "client"))) (grouping_labels self)
            && existsb (fun p => bool_decide (fst p = txt "server")) (grouping_labels self)
    then Ok tt else Err NoContext
  end.

(** ** The grouping key *)
Definition direction_label (d : Direction) : str :=
  match d with Upload => txt "upload" | Download => txt "download" | Bidir => txt "bidir" end.
(** [protocol.to_string().to_ascii_lowercase()]. *)
Definition protocol_label (p : Protocol) : str := to_ascii_lowercase (protocol_name p).

(** Job and labels in the order of the path; a stable job without a test
    panics, which [validate] rules out. *)
Definition grouping_key (test_id : str) (self : PushGatewayClient) : list (str * str) :=
  let context := match job self, test self with
                 | Some _, Some (p, d) =>
                   [(txt "protocol", protocol_label p); (txt "test_direction", direction_label d)]
                 | _, _ => []
                 end in
  (txt "job", match job self with Some j => j | None => txt "xfr_test_" ++ test_id end)
  :: grouping_labels self ++ context ++ labels self.

Definition needs_base64 (value : str) : bool :=
  bool_decide (value = []) || contains_char 47 value || bool_decide (value = txt ".") || bool_decide (value = txt "..").
Definition key_segments (p : str * str) : list str :=
  if needs_base64 (snd p)
  then [fst p ++ txt "@base64"; if bool_decide (snd p = []) then txt "=" else base64 (as_bytes (snd p))]
  else [fst p; snd p].

Definition path_segments (test_id : str) (self : PushGatewayClient) : list str :=
  txt "metrics" :: concat (map key_segments (grouping_key test_id self)).
Definition push_url (test_id : str) (self : PushGatewayClient) : result Url url_error :=
  ok_or (push_segments (url self) (path_segments test_id self)) CannotBeABase.
End client.

(** ** The text of a push *)

(** A line of the exposition format. *)
Inductive item :=
  | Comment (text : str)
  | Help (name help : str)
  | TypeOf (name metric_type : str)
  | Sample (name labels value : str).
Definition item_text (i : item) : str :=
  match i with
  | Comment text => txt "# " ++ text
  | Help name help => txt "# HELP " ++ name ++ txt " " ++ help
  | TypeOf name t => txt "# TYPE " ++ name ++ txt " " ++ t
  | Sample name labels value => name ++ labels ++ txt " " ++ value
  end.
Definition exposition (items : list item) : str := unline (map item_text items).

Definition quote_char (c : Z) : str :=
  if c =? 92 then [92; 92] else if c =? 34 then [92; 34] else if c =? 10 then [92; 110] else [c].
(** The three replacements; none touches what another made. *)
Definition escape_label (s : str) : str := concat (map quote_char s).

Definition write_family_header (name help metric_type : str) : list item := [Help name help; TypeOf name metric_type].
Definition family (name help metric_type : str) (value : f64) : list item :=
  write_family_header name help metric_type ++ [Sample name [] (display_f64 value)].

Record stream_sample := mkStreamSample { ss_id : Z; ss_bytes : Z; ss_mbps : f64; ss_retransmits : Z }.
Definition stream_labels (test_id : str) (s : stream_sample) : str :=
  txt "{test_id=" ++ [34] ++ test_id ++ [34] ++ txt ",stream_id=" ++ [34] ++ dec (ss_id s) ++ [34] ++ txt "}".
Definition stream_family (name help metric_type : str) (value : stream_sample -> f64) (test_id : str)
    (streams : list stream_sample) : list item :=
  write_family_header name help metric_type
  ++ map (fun s => Sample name (stream_labels test_id s) (display_f64 (value s))) streams.

Definition udp_samples (udp : list UdpStats) : list item :=
  match udp with
  | [] => []
  | _ =>
    let sum f := fold_left (fun acc u => saturating_add 64 acc (f u)) udp 0 in
    let max_jitter := fold_left (fun acc u => fmax acc (us_jitter_ms u)) udp zero in
    let lost_percent := if 0 <? sum us_packets_sent
                        then fmul (fdiv (of_int (sum us_lost)) (of_int (sum us_packets_sent))) (of_int 100) else zero in
    family (txt "xfr_udp_packets_sent") (txt "UDP packets sent") (txt "counter") (of_int (sum us_packets_sent))
    ++ family (txt "xfr_udp_packets_received") (txt "UDP packets received") (txt "counter") (of_int (sum us_packets_received))
    ++ family (txt "xfr_udp_packets_lost") (txt "UDP packets lost") (txt "counter") (of_int (sum us_lost))
    ++ family (txt "xfr_udp_jitter_ms") (txt "UDP jitter in milliseconds") (txt "gauge") max_jitter
    ++ family (txt "xfr_udp_lost_percent") (txt "UDP packet loss percentage") (txt "gauge") lost_percent
  end.

Definition format_samples (test_id : str) (elapsed_ms bytes_total : Z) (throughput_mbps : f64) (streams : list stream_sample)
    (tcp_info : option TcpInfoSnapshot) (udp_stats : list UdpStats) : list item :=
  let test_id := escape_label test_id in
  [Comment (txt "Test ID: " ++ test_id)]
  ++ family (txt "xfr_bytes_total") (txt "Total bytes transferred") (txt "counter") (of_int bytes_total)
  ++ family (txt "xfr_throughput_mbps") (txt "Average throughput in Mbps") (txt "gauge") throughput_mbps
  ++ family (txt "xfr_duration_seconds") (txt "Test duration in seconds") (txt "gauge")
       (fdiv (of_int elapsed_ms) (of_int 1000))
  ++ match streams with
     | [] => []
     | _ =>
       stream_family (txt "xfr_stream_bytes_total") (txt "Per-stream total bytes transferred") (txt "counter")
         (fun s => of_int (ss_bytes s)) test_id streams
       ++ stream_family (txt "xfr_stream_throughput_mbps") (txt "Per-stream average throughput in Mbps") (txt "gauge")
            ss_mbps test_id streams
       ++ stream_family (txt "xfr_stream_retransmits_total") (txt "Per-stream TCP retransmits") (txt "counter")
            (fun s => of_int (ss_retransmits s)) test_id streams
     end
  ++ match tcp_info with
     | Some i =>
       family (txt "xfr_tcp_rtt_microseconds") (txt "TCP round-trip time in microseconds") (txt "gauge") (of_int (tcp_rtt_us i))
       ++ family (txt "xfr_tcp_retransmits_total") (txt "TCP retransmits") (txt "counter") (of_int (tcp_retransmits i))
       ++ family (txt "xfr_tcp_cwnd_bytes") (txt "TCP congestion window in bytes") (txt "gauge") (of_int (tcp_cwnd i))
     | None => []
     end
  ++ udp_samples udp_stats.

(** ** Directional UDP samples *)
Record DirectionalUdp := mkDirectional {
  du_direction : str; du_view : str; du_bytes : option Z; du_throughput_mbps : option f64; du_quality : option UdpStats
}.

Definition measured (s : DirectionalUdp) : option UdpStats :=
  match du_quality s with
  | Some q => if (0 <? us_packets_received q) || (0 <? us_lost q) then Some q else None
  | None => None
  end.
(** The metrics in order: name, help, whether the view is a label, the value. *)
Definition directional_metrics : list (str * str * bool * (DirectionalUdp -> option str)) :=
  [(txt "bytes", txt "UDP bytes for this direction and measurement view", true, fun s => option_map dec (du_bytes s));
   (txt "throughput_mbps", txt "UDP throughput in Mbps for this direction and measurement view", true,
    fun s => option_map display_f64 (du_throughput_mbps s));
   (txt "packets_expected", txt "UDP packets expected from receiver sequence observations", false,
    fun s => option_map (fun q => dec (us_packets_sent q)) (measured s));
   (txt "packets_received", txt "UDP packets received", false,
    fun s => option_map (fun q => dec (us_packets_received q)) (measured s));
   (txt "packets_lost", txt "UDP packets lost according to the receiver", false,
    fun s => option_map (fun q => dec (us_lost q)) (measured s));
   (txt "lost_percent", txt "UDP packet loss percentage measured by the receiver", false,
    fun s => option_map (fun q => display_f64 (us_lost_percent q)) (measured s));
   (txt "jitter_ms", txt "UDP jitter in milliseconds measured by the receiver", false,
    fun s => match measured s with
             | Some q => if 0 <? us_packets_received q then Some (display_f64 (us_jitter_ms q)) else None
             | None => None end)].

Definition attribute (name value : str) : str := name ++ txt "=" ++ [34] ++ value ++ [34].
Definition directional_labels (with_view : bool) (s : DirectionalUdp) : str :=
  txt "{" ++ attribute (txt "direction") (du_direction s)
  ++ (if with_view then txt "," ++ attribute (txt "view") (du_view s) else []) ++ txt "}".

(** The loop over the samples of one metric; the header goes before the first
    value. *)
Fixpoint directional_samples (name help : str) (with_view : bool) (value : DirectionalUdp -> option str) (header : bool)
    (samples : list DirectionalUdp) : list item :=
  match samples with
  | [] => []
  | s :: samples =>
    match value s with
    | None => directional_samples name help with_view value header samples
    | Some v =>
      (if header then [] else write_family_header name help (txt "gauge"))
      ++ [Sample name (directional_labels with_view s) v]
      ++ directional_samples name help with_view value true samples
    end
  end.
Definition append_udp_directions_named (prefix : str) (samples : list DirectionalUdp) : list item :=
  concat (map (fun '(metric, help, with_view, value) =>
    directional_samples (prefix ++ txt "_" ++ metric) help with_view value false samples) directional_metrics).
Definition append_udp_directions : list DirectionalUdp -> list item := append_udp_directions_named (txt "xfr_udp_direction").

Definition result_directions (r : TestResult) (direction : Direction) : list DirectionalUdp :=
  match direction with
  | Bidir =>
    [mkDirectional (txt "upload") (txt "receiver") (tr_bytes_sent r) (tr_throughput_send_mbps r) (tr_udp_stats_send r);
     mkDirectional (txt "download") (txt "receiver") (tr_bytes_received r) (tr_throughput_recv_mbps r)
       (tr_udp_stats_recv r)]
  | d => [mkDirectional (direction_label d) (txt "receiver") (Some (tr_bytes_total r)) (Some (tr_throughput_mbps r))
            (tr_udp_stats r)]
  end.

Definition format_result (test : option (Protocol * Direction)) (r : TestResult) : list item :=
  format_samples (tr_id r) (tr_duration_ms r) (tr_bytes_total r) (tr_throughput_mbps r)
    (map (fun s => mkStreamSample (sr_id s) (sr_bytes s) (sr_throughput_mbps s) (unwrap_or (sr_retransmits s) 0)) (tr_streams r))
    (tr_tcp_info r) (option_list (tr_udp_stats r))
  ++ match test with
     | Some (Udp, direction) => append_udp_directions (result_directions r direction)
     | _ => []
     end.

(** ** Snapshots of the last test *)
Definition snapshot_name (metric : str) : str := txt "xfr_last_test_" ++ metric.
Definition has_header (name : str) (output : list item) : bool :=
  existsb (fun i => match i with TypeOf n _ => bool_decide (n = name) | _ => false end) output.
Definition snapshot_gauge (metric labels value : str) (output : list item) : list item :=
  output
  ++ (if has_header (snapshot_name metric) output then []
      else write_family_header (snapshot_name metric) (txt "Most recently pushed test snapshot " ++ metric) (txt "gauge"))
  ++ [Sample (snapshot_name metric) labels value].

Definition flag (b : bool) : str := if b then txt "1" else txt "0".
Definition available (s : DirectionalUdp) : bool := is_some (du_bytes s) && is_some (du_throughput_mbps s).
Definition availability : list (str * bool * (DirectionalUdp -> bool)) :=
  [(txt "udp_direction_available", true, available);
   (txt "udp_direction_quality_available", false, fun s => is_some (measured s));
   (txt "udp_direction_jitter_available", false,
    fun s => match du_quality s with Some q => 0 <? us_packets_received q | None => false end)].
Definition availability_labels (with_view : bool) (s : DirectionalUdp) : str :=
  txt "{" ++ attribute (txt "direction") (du_direction s)
  ++ (if with_view then txt "," ++ attribute (txt "view") (txt "receiver") else []) ++ txt "}".

Definition snapshot_directions (samples : list DirectionalUdp) (output : list item) : list item :=
  let output := fold_left (fun output '(metric, with_view, f) =>
    fold_left (fun output s => snapshot_gauge metric (availability_labels with_view s) (flag (f s)) output)
      samples output) availability output in
  let samples := map (fun s => if available s then s
                               else mkDirectional (du_direction s) (du_view s) None None (du_quality s)) samples in
  output ++ append_udp_directions_named (txt "xfr_last_test_udp_direction") samples.

Definition format_snapshot (test : option (Protocol * Direction)) (r : TestResult) : list item :=
  let gauge metric value output := snapshot_gauge (txt metric) [] value output in
  let output := gauge "bytes"%string (dec (tr_bytes_total r)) [] in
  let output := gauge "throughput_mbps"%string (display_f64 (tr_throughput_mbps r)) output in
  let output := gauge "duration_seconds"%string (display_f64 (fdiv (of_int (tr_duration_ms r)) (of_int 1000))) output in
  let output := gauge "streams"%string (dec (Z.of_nat (length (tr_streams r)))) output in
  let output := gauge "tcp_info_available"%string (flag (is_some (tr_tcp_info r))) output in
  let output := match tr_tcp_info r with
                | Some i =>
                  gauge "tcp_cwnd_bytes"%string (dec (tcp_cwnd i))
                    (gauge "tcp_retransmits"%string (dec (tcp_retransmits i))
                       (gauge "tcp_rtt_microseconds"%string (dec (tcp_rtt_us i)) output))
                | None => output
                end in
  match test with
  | Some (Udp, direction) => snapshot_directions (result_directions r direction) output
  | _ => output
  end.

(** ** The server's counters *)
Definition elapsed_ms (now : Z) (s : TestStats) : Z := wrap 64 (saturating_sub now (test_start_time s) / 1000000).
Definition format_metrics (test : option (Protocol * Direction)) (k : StreamStats.kernel) (now : Z) (s : TestStats) : list item :=
  let ms := elapsed_ms now s in
  let duration_secs := fdiv (of_int ms) (of_int 1000) in
  let throughput bytes :=
    if 0 <? ms then fdiv (fdiv (fmul (of_int bytes) (of_int 8)) duration_secs) (of_int 1000000) else zero in
  format_samples (test_id s) ms (TestStats.total_bytes s) (throughput (TestStats.total_bytes s))
    (map (fun x => mkStreamSample (stream_id x) (StreamStats.total_bytes x) (StreamStats.throughput_mbps now x)
                     (retransmits_total x)) (Stats.streams s))
    (TestStats.final_local_tcp_info k s) (Stats.udp_stats s)
  ++ match test with
     | Some (Udp, direction) =>
       append_udp_directions
         ((if bool_decide (direction = Download) then []
           else [mkDirectional (txt "upload") (txt "receiver") (Some (TestStats.total_bytes_received s))
                   (Some (throughput (TestStats.total_bytes_received s))) (TestStats.aggregate_udp_receiver_stats s)])
          ++ (if bool_decide (direction = Upload) then []
              else [mkDirectional (txt "download") (txt "sender") (Some (TestStats.total_bytes_sent s))
                      (Some (throughput (TestStats.total_bytes_sent s))) None]))
     | _ => []
     end.

(** ** Delivery *)
Section delivery.
Context {Url : Type} (parse_url : str -> result Url str) (scheme : Url -> str) (has_host : Url -> bool).
Variable push_segments : Url -> list str -> option Url.
Variable base64 : list Z -> str.

Inductive push_error := BadJob (e : job_error) | BadUrl (e : url_error).

(** One request: PUT replaces a stable job, POST adds to the group. *)
Inductive http_method := Put | Post.
Definition method (self : @PushGatewayClient Url) : http_method := if is_some (job self) then Put else Post.

(** [push_attempts]: three at most, the wait growing; the outcome of each
    attempt is given. *)
Fixpoint attempts_from (outcome : Z -> result unit str) (retries : nat) (attempt : Z) : result unit str * list Z :=
  match outcome attempt with
  | Ok _ => (Ok tt, [])
  | Err e =>
    match retries with
    | O => (Err e, [])
    | S retries =>
      let '(r, waits) := attempts_from outcome retries (attempt + 1) in (r, 100000000 * attempt :: waits)
    end
  end.
Definition push_attempts (outcome : Z -> result unit str) : result unit str * list Z := attempts_from outcome 2 1.
(** [push_metrics]: [spent] is the time the attempts took together. *)
Definition push_metrics (outcome : Z -> result unit str) (spent : Z) : result unit (option str) :=
  if DELIVERY_DEADLINE <? spent then Err None else map_err Some (fst (push_attempts outcome)).

(** What is sent for a finished result. *)
Definition push_test_result (self : PushGatewayClient) (r : TestResult) : result (http_method * Url * str) push_error :=
  let? _ := map_err BadJob (validate self) in
  let items := if is_some (job self) then format_snapshot (test self) r else format_result (test self) r in
  let? u := map_err BadUrl (push_url push_segments base64 (tr_id r) self) in
  Ok (method self, u, exposition items).
(** And for the server's counters: a stable job needs a finished result. *)
Definition push_test_metrics (self : PushGatewayClient) (k : StreamStats.kernel) (now : Z) (s : TestStats)
    : option (result (http_method * Url * str) push_error) :=
  if is_some (job self) then None
  else Some (let? u := map_err BadUrl (push_url push_segments base64 (test_id s) self) in
             Ok (method self, u, exposition (format_metrics (test self) k now s))).

(** [maybe_push_metrics_for_peer]: the client of the server's own pushes;
    [None]: nothing is pushed. *)
Definition client_for_peer (gateway : option str) (client_ok : bool) (peer : option IpAddr)
    (test : option (Protocol * Direction)) (l : list (str * str)) : option PushGatewayClient :=
  match gateway with
  | None => None
  | Some text =>
    match new parse_url scheme has_host text client_ok with
    | Err _ => None
    | Ok c =>
      let c := match peer with
               | Some ip => with_endpoint (txt "client") (show_ip (normalize_ip ip)) (txt "server") c
               | None => c
               end in
      let c := match test with Some (p, d) => with_test p d c | None => c end in
      match with_labels l c with Ok c => Some c | Err _ => None end
    end
  end.
End delivery.

(** ** Labels that are read back *)
Lemma bt_get_cons k a b m : bt_get k ((a, b) :: m) = if bool_decide (a = k) then Some b else bt_get k m.
Proof. unfold bt_get. cbn. by case_bool_decide. Qed.

Lemma bt_get_insert k v k' m : bt_get k' (bt_insert k v m) = if bool_decide (k = k') then Some v else bt_get k' m.
Proof.
  induction m as [|[a b] m IH]; cbn [bt_insert]; [by rewrite bt_get_cons|].
  destruct (bool_decide_reflect (k = a)) as [->|Hk]; [rewrite !bt_get_cons; by case_bool_decide|].
  destruct (str_ltb k a); [by rewrite bt_get_cons|]. rewrite !bt_get_cons, IH.
  repeat case_bool_decide; congruence.
Qed.

Lemma bt_keys_insert k v m x : In x (map fst (bt_insert k v m)) <-> x = k \/ In x (map fst m).
Proof.
  induction m as [|[a b] m IH]; cbn [bt_insert]; [cbn; naive_solver|].
  destruct (bool_decide_reflect (k = a)) as [->|Hk]; [cbn; naive_solver|].
  destruct (str_ltb k a); cbn; [naive_solver|]. cbn in IH. rewrite IH. naive_solver.
Qed.

(** Sorted by key, each once. *)
Fixpoint bt_ok (m : list (str * str)) : Prop :=
  match m with [] => True | (k, _) :: m => Forall (fun p => str_ltb k (fst p) = true) m /\ bt_ok m end.

Lemma str_ltb_irrefl a : str_ltb a a = false.
Proof. induction a as [|x a IH]; cbn; [done|]. rewrite IH, andb_false_r, orb_false_r. lia. Qed.
Lemma str_ltb_trans a b c : str_ltb a b = true -> str_ltb b c = true -> str_ltb a c = true.
Proof.
  revert b c. induction a as [|x a IH]; intros [|y b] [|z c]; cbn; try done. intros H1 H2.
  apply orb_true_iff in H1, H2. apply orb_true_iff.
  destruct H1 as [H1|[H1 H1']%andb_true_iff], H2 as [H2|[H2 H2']%andb_true_iff]; try (left; lia).
  right. apply andb_true_iff. split; [lia|]. by apply (IH b).
Qed.
Lemma str_ltb_total a b : a <> b -> str_ltb a b = false -> str_ltb b a = true.
Proof.
  revert b. induction a as [|x a IH]; intros [|y b]; cbn; try done. intros Hn H. apply orb_true_iff.
  apply orb_false_iff in H as [H1 H2]. destruct (Z.eqb_spec x y) as [->|]; [|left; lia].
  right. rewrite Z.eqb_refl. cbn in *. apply IH; [congruence|done].
Qed.

Lemma bt_ok_insert k v m : bt_ok m -> bt_ok (bt_insert k v m).
Proof.
  induction m as [|[a b] m IH]; cbn [bt_insert bt_ok]; [by repeat constructor|]. intros [Hm Hok].
  destruct (bool_decide_reflect (k = a)) as [->|Hk]; [done|].
  destruct (str_ltb k a) eqn:E; cbn [bt_ok fst].
  - split; [|done]. constructor; [done|]. eapply Forall_impl; [exact Hm|]. intros p Hp. by apply (str_ltb_trans k a).
  - split; [|by apply IH]. apply Forall_forall. intros p Hp. apply list_elem_of_In in Hp.
    apply (in_map fst) in Hp. apply bt_keys_insert in Hp as [->|Hp]; [by apply str_ltb_total|].
    apply in_map_iff in Hp as (q & <- & Hq). rewrite Forall_forall in Hm. apply Hm. by apply list_elem_of_In.
Qed.
Lemma bt_ok_NoDup m : bt_ok m -> NoDup (map fst m).
Proof.
  induction m as [|[a b] m IH]; cbn [bt_ok map]; [constructor|]. intros [Hm Hok]. constructor; [|by apply IH].
  intros Hi. apply list_elem_of_In, in_map_iff in Hi as (q & Hq & Hi). rewrite Forall_forall in Hm.
  apply list_elem_of_In in Hi. apply Hm in Hi. cbn in Hq. rewrite Hq, str_ltb_irrefl in Hi. done.
Qed.

Lemma extend_ok more m : bt_ok m -> bt_ok (extend m more).
Proof. revert m. induction more as [|p more IH]; intros m Hm; [done|]. by apply IH, bt_ok_insert. Qed.

(** An override wins, every other entry stays. *)
Lemma extend_get more m k : bt_ok more ->
  bt_get k (extend m more) = match bt_get k more with Some v => Some v | None => bt_get k m end.
Proof.
  revert m. induction more as [|[a b] more IH]; intros m; [done|]. intros [Hm Hok]. unfold extend. cbn [fold_left fst snd].
  fold (extend (bt_insert a b m) more). rewrite IH, bt_get_insert, bt_get_cons by done.
  destruct (bool_decide_reflect (a = k)) as [->|]; [|done].
  destruct (bt_get k more) eqn:E; [|done]. exfalso. unfold bt_get in E.
  destruct (List.find _ more) as [q|] eqn:Ef; [|done]. apply List.find_some in Ef as [Hi Hq].
  apply bool_decide_eq_true in Hq. rewrite Forall_forall in Hm. apply list_elem_of_In in Hi. apply Hm in Hi. cbn in Hi.
  by rewrite Hq, str_ltb_irrefl in Hi.
Qed.

(** ** The grouping key that is read back *)
Section gateway.
Context {Url : Type} (base64 : list Z -> str) (decode : str -> option (list Z)).

(** What the gateway makes of the path after [metrics]. *)
Definition read_value (name value : str) : option (str * str) :=
  match strip_suffix (txt "@base64") name with
  | Some name => option_map (fun b => (name, chars b)) (decode (trim_end_matches 61 value))
  | None => Some (name, value)
  end.
Fixpoint read_key (segments : list str) : option (list (str * str)) :=
  match segments with
  | [] => Some []
  | name :: value :: segments =>
    match read_value name value, read_key segments with
    | Some p, Some key => Some (p :: key)
    | _, _ => None
    end
  | [_] => None
  end.

(** A segment that stays one segment: not empty, no slash, no dot segment. *)
Definition segment_ok (s : str) : Prop := s <> [] /\ Forall (fun c => c <> 47) s /\ s <> txt "." /\ s <> txt "..".
#[local] Instance segment_ok_dec s : Decision (segment_ok s) := _.
Lemma needs_base64_spec s : needs_base64 s = negb (bool_decide (segment_ok s)).
Proof.
  assert (Hc : contains_char 47 s = negb (bool_decide (Forall (fun c => c <> 47) s))).
  { unfold contains_char. induction s as [|c s IH]; [done|]. cbn [existsb]. rewrite IH.
    rewrite (bool_decide_ext _ _ (Forall_cons (fun c => c <> 47) c s)), bool_decide_and, negb_andb. f_equal.
    destruct (Z.eqb_spec 47 c); [rewrite (bool_decide_false (c <> 47)) by lia|rewrite (bool_decide_true (c <> 47)) by lia]; done. }
  unfold needs_base64. rewrite Hc. unfold segment_ok. repeat case_bool_decide; naive_solver.
Qed.
Lemma plain_segment s : needs_base64 s = false <-> segment_ok s.
Proof. rewrite needs_base64_spec, negb_false_iff. apply bool_decide_eq_true. Qed.

(** The url crate drops tab, LF and CR from what is pushed and percent-encodes
    the rest; the gateway splits the path at its slashes and decodes each
    segment.  [base_path] is the path of the URL given, without a trailing empty
    segment, [decoded_path] what the gateway sees. *)
Variables (push_segments : Url -> list str -> option Url) (base_path decoded_path : Url -> list str).
Definition is_break (c : Z) : bool := (c =? 9) || (c =? 10) || (c =? 13).
Definition unbroken (s : str) : str := List.filter (fun c => negb (is_break c)) s.
Hypothesis push_decoded : forall u segments u', push_segments u segments = Some u' ->
  Forall (fun s => segment_ok (unbroken s)) segments ->
  decoded_path u' = base_path u ++ map unbroken segments.

Hypothesis decode_base64 : forall b, bytes_ok b -> decode (base64 b) = Some b.
(** Letters, digits, minus and underscore. *)
Definition url_safe (c : Z) : bool := is_alphabetic c || is_digit c || (c =? 45) || (c =? 95).
Hypothesis base64_alphabet : forall b, bytes_ok b -> Forall (fun c => url_safe c = true) (base64 b).
Hypothesis base64_empty : forall b, base64 b = [] <-> b = [].

(** A name of the key: a word. *)
Definition name_ok (name : str) : Prop := name <> [] /\ Forall (fun c => is_alphabetic c || is_digit c || (c =? 95) = true) name.

Lemma as_bytes_ok s : Forall is_char s -> bytes_ok (as_bytes s).
Proof.
  induction 1 as [|c s Hc _ IH]; [constructor|]. unfold as_bytes. cbn. apply Forall_app. split; [|exact IH].
  unfold is_char, encode_char in *. repeat case_match; repeat apply Forall_cons_2; try apply Forall_nil_2; unfold is_byte;
    Z.to_euclidean_division_equations; lia.
Qed.

Lemma name_no_at name : name_ok name -> strip_suffix (txt "@base64") name = None.
Proof.
  intros [_ Hn]. destruct (strip_suffix (txt "@base64") name) as [r|] eqn:E; [|done].
  apply strip_suffix_spec in E as ->. apply Forall_app in Hn as [_ Hn].
  change (txt "@base64") with (64 :: txt "base64") in Hn. apply Forall_cons in Hn as [Hx _]. discriminate Hx.
Qed.

Lemma trimmed_base64 b : bytes_ok b -> trim_end_matches 61 (base64 b) = base64 b.
Proof.
  intros Hb. unfold trim_end_matches. rewrite drop_while_none, rev_involutive; [done|]. apply Forall_rev.
  eapply Forall_impl; [by apply base64_alphabet|]. intros c Hc. apply Z.eqb_neq. intros <-. discriminate Hc.
Qed.

Lemma read_segments (p : str * str) rest : name_ok (fst p) -> Forall is_char (snd p) ->
  read_key (key_segments base64 p ++ rest) = option_map (cons p) (read_key rest).
Proof.
  intros Hn Hv. destruct p as [name value]. unfold key_segments. cbn [fst snd] in *.
  destruct (needs_base64 value); cbn [app read_key]; unfold read_value.
  - rewrite strip_suffix_app. destruct (bool_decide_reflect (value = [])) as [->|Hne].
    + assert (E : decode [] = Some []).
      { rewrite <- (proj2 (base64_empty []) eq_refl) at 1. apply decode_base64. constructor. }
      change (trim_end_matches 61 (txt "=")) with (@nil Z). rewrite E. cbn. by destruct (read_key rest).
    + rewrite trimmed_base64, decode_base64 by by apply as_bytes_ok. cbn. rewrite chars_as_bytes by done.
      by destruct (read_key rest).
  - rewrite name_no_at by done. by destruct (read_key rest).
Qed.

Lemma word_segment_ok s : s <> [] -> Forall (fun c => c <> 47 /\ c <> 46) s -> segment_ok s.
Proof.
  intros Hne Hs. apply Forall_and in Hs as [H1 H2]. split_and!; try done; intros ->; apply Forall_cons in H2 as [H _]; by destruct (H eq_refl).
Qed.

Lemma key_segments_ok (p : str * str) : name_ok (fst p) -> Forall is_char (snd p) -> Forall segment_ok (key_segments base64 p).
Proof.
  intros [Hne Hn] Hv0. assert (Hw : Forall (fun c => c <> 47 /\ c <> 46) (fst p)).
  { eapply Forall_impl; [exact Hn|]. cbn. intros c Hc. split; intros ->; discriminate Hc. }
  unfold key_segments. destruct (needs_base64 (snd p)) eqn:E; repeat apply Forall_cons_2; try apply Forall_nil_2.
  - apply word_segment_ok; [by destruct (fst p)|]. apply Forall_app. split; [done|]. by repeat constructor.
  - destruct (bool_decide_reflect (snd p = [])) as [|Hv]; [by apply plain_segment|]. apply word_segment_ok.
    + rewrite base64_empty. destruct (snd p) as [|c v]; [done|]. unfold as_bytes, encode_char. cbn.
      by repeat case_match.
    + eapply Forall_impl; [by apply base64_alphabet, as_bytes_ok|]. cbn. intros c Hc. split; intros ->; discriminate Hc.
  - by apply word_segment_ok.
  - by apply plain_segment.
Qed.

(** The clients that the code builds. *)
Inductive built : @PushGatewayClient Url -> Prop :=
  | BuiltNew u : built (mkPushClient u [] None [] None)
  | BuiltTest p d c : built c -> built (with_test p d c)
  | BuiltLabels l c c' : bt_ok l -> built c -> with_labels l c = Ok c' -> built c'
  | BuiltJob j c c' : built c -> with_job j c = Ok c' -> built c'
  | BuiltEndpoint name value role c :
      name = txt "server" \/ name = txt "client" -> built c -> built (with_endpoint name value role c).

Record client_ok (c : @PushGatewayClient Url) : Prop := {
  ok_grouping : grouping_labels c = [] \/ exists name value role,
    (name = txt "server" \/ name = txt "client") /\ grouping_labels c = [(txt "role", role); (name, value)];
  ok_names : Forall (fun p => label_name_ok (fst p) = true) (labels c);
  ok_sorted : bt_ok (labels c)
}.
Lemma validate_spec l : validate_push_labels l = Ok tt -> Forall (fun p => label_name_ok (fst p) = true) l.
Proof.
  induction l as [|[n v] l IH]; [constructor|]. cbn. destruct (label_name_ok n) eqn:E; [|done].
  intros H. constructor; [done|by apply IH].
Qed.
Lemma built_ok c : built c -> client_ok c.
Proof.
  induction 1 as [u|p d c _ IH|l c c' Hl _ IH E|j c c' _ IH E|name value role c Hn _ IH].
  - split; [by left|constructor|done].
  - by destruct IH; split.
  - unfold with_labels in E. destruct (validate_push_labels l) as [[]|] eqn:Ev; [|done]. injection E as <-.
    destruct IH; split; [done|by apply validate_spec|done].
  - unfold with_job in E. destruct (trim j); [done|]. injection E as <-. by destruct IH; split.
  - destruct IH; split; [|done|done]. right. by exists name, value, role.
Qed.

Lemma label_name_spec name : label_name_ok name = true -> name_ok name /\ ~ In name RESERVED.
Proof.
  unfold label_name_ok. destruct name as [|c rest]; [done|]. rewrite !andb_true_iff, !negb_true_iff.
  intros [[[[Hc Hr] _] _] Hn]. split; [split; [done|]|].
  - constructor.
    + by destruct (is_alphabetic c), (is_digit c).
    + apply Forall_forall. intros x Hx. apply list_elem_of_In in Hx. rewrite forallb_forall in Hr.
      specialize (Hr x Hx). by destruct (is_alphabetic x), (is_digit x), (x =? 95).
  - intros Hi. apply not_true_iff_false in Hn. apply Hn. apply existsb_exists. exists (c :: rest).
    split; [done|]. by apply bool_decide_eq_true.
Qed.

(** The names the exporter adds itself. *)
Definition own_names (c : @PushGatewayClient Url) : list str :=
  txt "job" :: map fst (grouping_labels c)
  ++ match job c, test c with Some _, Some _ => [txt "protocol"; txt "test_direction"] | _, _ => [] end.
Lemma own_names_ok c : client_ok c ->
  NoDup (own_names c) /\ Forall name_ok (own_names c) /\ incl (own_names c) RESERVED.
Proof.
  intros [Hg _ _]. unfold own_names.
  assert (H : map fst (grouping_labels c) = [] \/ map fst (grouping_labels c) = [txt "role"; txt "server"] \/
              map fst (grouping_labels c) = [txt "role"; txt "client"]).
  { destruct Hg as [->|(n & v & r & [-> | ->] & ->)]; [by left|by right; left|by right; right]. }
  set (context := match job c with Some _ => _ | None => _ end).
  assert (Hc : context = [] \/ context = [txt "protocol"; txt "test_direction"])
    by (unfold context; destruct (job c), (test c); auto). clearbody context.
  destruct H as [->|[->| ->]], Hc as [->| ->].
  all: split; [apply (bool_decide_unpack _); vm_compute; exact I|]; split.
  all: try (intros x Hx; cbn in Hx; unfold RESERVED; cbn; tauto).
  all: repeat apply Forall_cons_2; try apply Forall_nil_2; (split; [done|]); by repeat constructor.
Qed.

Lemma key_names id c : map fst (grouping_key id c) = own_names c ++ map fst (labels c).
Proof.
  unfold grouping_key, own_names. cbn. f_equal. rewrite !map_app. rewrite <- app_assoc. f_equal. f_equal.
  destruct (job c), (test c) as [[p d]|]; done.
Qed.

Lemma key_names_ok id c : client_ok c ->
  NoDup (map fst (grouping_key id c)) /\ Forall name_ok (map fst (grouping_key id c)).
Proof.
  intros Hc. destruct (own_names_ok c Hc) as (H1 & H2 & H3). rewrite key_names.
  assert (Hl : Forall (fun n => name_ok n /\ ~ In n RESERVED) (map fst (labels c))).
  { apply Forall_map. eapply Forall_impl; [apply (ok_names c Hc)|]. intros p Hp. by apply label_name_spec. }
  split.
  - apply NoDup_app. split; [done|]. split; [|apply bt_ok_NoDup, (ok_sorted c Hc)].
    intros n Hn Hi. rewrite Forall_forall in Hl. destruct (Hl n Hi) as [_ Hr]. apply Hr, H3. by apply list_elem_of_In.
  - apply Forall_app. split; [done|]. eapply Forall_impl; [exact Hl|]. by intros n [? _].
Qed.

Lemma read_pairs (key : list (str * str)) : Forall (fun p => name_ok (fst p) /\ Forall is_char (snd p)) key ->
  read_key (concat (map (key_segments base64) key)) = Some key /\
  Forall segment_ok (concat (map (key_segments base64) key)).
Proof.
  induction 1 as [|p key [Hn Hv] _ [IH1 IH2]]; [done|]. cbn [map concat].
  rewrite read_segments, IH1 by done. split; [done|]. apply Forall_app. split; [by apply key_segments_ok|done].
Qed.

(** How a pair of the key arrives: a value sent as it is loses its breaks. *)
Definition arrives (p : str * str) : str * str := (fst p, if decide (segment_ok (snd p)) then unbroken (snd p) else snd p).
(** Dropping the breaks does not leave an empty or a dot segment. *)
Definition settled (v : str) : Prop := segment_ok v -> segment_ok (unbroken v).

Lemma unbroken_id s : Forall (fun c => is_break c = false) s -> unbroken s = s.
Proof. induction 1 as [|c s Hc _ IH]; [done|]. unfold unbroken in *. cbn. by rewrite Hc, IH. Qed.
Lemma unbroken_chars s : Forall is_char s -> Forall is_char (unbroken s).
Proof. induction 1 as [|c s Hc _ IH]; [constructor|]. unfold unbroken in *. cbn. destruct (negb _); [by constructor|done]. Qed.
Lemma word_unbroken s : Forall (fun c => url_safe c || (c =? 64) || (c =? 61) = true) s -> unbroken s = s.
Proof.
  intros Hs. apply unbroken_id. eapply Forall_impl; [exact Hs|]. cbn. intros c Hc. unfold is_break.
  apply not_true_iff_false. intros H. apply orb_true_iff in H as [[->%Z.eqb_eq| ->%Z.eqb_eq]%orb_true_iff| ->%Z.eqb_eq];
    discriminate Hc.
Qed.

(** The segments of a pair, as they arrive, are those of the pair that arrives. *)
Lemma key_segments_arrive (p : str * str) : name_ok (fst p) -> Forall is_char (snd p) -> settled (snd p) ->
  map unbroken (key_segments base64 p) = key_segments base64 (arrives p).
Proof.
  intros [_ Hn] Hv Hs. unfold arrives, key_segments. cbn [fst snd].
  assert (Hname : Forall (fun c => url_safe c || (c =? 64) || (c =? 61) = true) (fst p)).
  { eapply Forall_impl; [exact Hn|]. cbn. unfold url_safe. intros c Hc.
    by destruct (is_alphabetic c), (is_digit c), (c =? 95), (c =? 45). }
  destruct (needs_base64 (snd p)) eqn:E.
  - rewrite decide_False by (rewrite <- plain_segment; congruence). rewrite E. cbn [map]. f_equal; [apply word_unbroken, Forall_app; split; [done|by repeat constructor]|].
    f_equal. destruct (bool_decide (snd p = [])); [done|]. apply word_unbroken.
    eapply Forall_impl; [by apply base64_alphabet, as_bytes_ok|]. cbn. by intros c ->.
  - apply plain_segment in E. rewrite decide_True by done. apply Hs, plain_segment in E. rewrite E. cbn [map].
    by rewrite (word_unbroken _ Hname).
Qed.

Lemma arrives_id (p : str * str) : (segment_ok (snd p) -> Forall (fun c => is_break c = false) (snd p)) -> arrives p = p.
Proof. unfold arrives. destruct p as [n v]. cbn [fst snd]. intros Hb. case_decide; [|done]. by rewrite unbroken_id by auto. Qed.

(** C37. The path of a push names exactly its group.  For every client the code
    can build, whatever the values -- empty ones, slashes and dots included --
    what the gateway makes of the decoded path after [metrics] is the job and
    the labels, each under its own name: no name occurs twice, and an operator's
    label never collides with one of the exporter.  The url crate drops tabs and
    line breaks: a value that is not encoded in base64 arrives without them, and
    the key is read back as it is when there are none.  Not covered are values
    that without those characters become empty, [.] or [..]. *)
Theorem grouping_key_read_back (id : str) (c : @PushGatewayClient Url) (u : Url) :
  built c -> Forall (fun p => Forall is_char (snd p) /\ settled (snd p)) (grouping_key id c) ->
  push_url push_segments base64 id c = Ok u ->
  exists segments, decoded_path u = base_path (url c) ++ txt "metrics" :: segments /\
    read_key segments = Some (map arrives (grouping_key id c)) /\
    NoDup (map fst (grouping_key id c)) /\
    (Forall (fun p => segment_ok (snd p) -> Forall (fun c => is_break c = false) (snd p)) (grouping_key id c) ->
     read_key segments = Some (grouping_key id c)).
Proof.
  intros Hb Hv Hu. destruct (key_names_ok id c (built_ok c Hb)) as [Hd Hn]. rewrite Forall_map in Hn.
  unfold push_url in Hu. destruct (push_segments _ _) as [u'|] eqn:Hpush; [|done]. injection Hu as ->. set (key := grouping_key id c) in *.
  assert (Hkey : Forall (fun p => name_ok (fst p) /\ Forall is_char (snd p) /\ settled (snd p)) key).
  { rewrite Forall_forall in *. intros p Hp. split; [by apply Hn|by apply Hv]. }
  assert (Hseg : map unbroken (concat (map (key_segments base64) key)) = concat (map (key_segments base64) (map arrives key))).
  { clear -Hkey base64_alphabet decode_base64. induction Hkey as [|p key (H1 & H2 & H3) _ IH]; [done|].
    cbn [map concat]. by rewrite map_app, key_segments_arrive, IH. }
  destruct (read_pairs (map arrives key)) as [Hread Hok].
  { apply Forall_map. eapply Forall_impl; [exact Hkey|]. intros p (H1 & H2 & _). split; [done|].
    unfold arrives. cbn [snd]. case_decide; [by apply unbroken_chars|done]. }
  exists (concat (map (key_segments base64) (map arrives key))). split_and!; try done.
  - rewrite (push_decoded _ _ _ Hpush); unfold path_segments; fold key; cbn [map]; [by rewrite Hseg|].
    constructor; [by apply plain_segment|]. rewrite <- Hseg in Hok. exact (proj1 (Forall_map _ _ _) Hok).
  - intros Hbr. rewrite Hread. f_equal. clear -Hbr. induction Hbr as [|p key Hp _ IH]; [done|].
    cbn. by rewrite arrives_id, IH.
Qed.
End gateway.

(** A concrete encoding for the witness: hexadecimal digits. *)
Fixpoint hex_decode (s : str) : option (list Z) :=
  match s with
  | [] => Some []
  | a :: b :: s =>
    match to_digit 16 a, to_digit 16 b, hex_decode s with
    | Some x, Some y, Some l => Some (16 * x + y :: l)
    | _, _, _ => None
    end
  | [_] => None
  end.
Lemma hex_digit_spec d : 0 <= d < 16 -> to_digit 16 (hex_digit d) = Some d /\ url_safe (hex_digit d) = true.
Proof.
  intros H. assert (Hi : In d (seqZ 0 16)) by (apply list_elem_of_In, elem_of_seqZ; lia).
  clear H. revert d Hi. apply List.Forall_forall. by repeat constructor.
Qed.
Lemma hex_decode_encode b : bytes_ok b -> hex_decode (hex_encode b) = Some b.
Proof.
  induction 1 as [|x b Hx _ IH]; [done|]. rewrite hex_encode_cons. cbn [hex_decode]. unfold is_byte in Hx.
  rewrite (proj1 (hex_digit_spec (x / 16) ltac:(Z.to_euclidean_division_equations; lia))).
  rewrite (proj1 (hex_digit_spec (x mod 16) ltac:(Z.to_euclidean_division_equations; lia))), IH.
  do 2 f_equal. Z.to_euclidean_division_equations; lia.
Qed.

Lemma hex_alphabet b : bytes_ok b -> Forall (fun c => url_safe c = true) (hex_encode b).
Proof.
  induction 1 as [|x b Hx _ IH]; [constructor|]. rewrite hex_encode_cons. unfold is_byte in Hx.
  repeat apply Forall_cons_2; try exact IH; apply hex_digit_spec; Z.to_euclidean_division_equations; lia.
Qed.

Lemma chars_checked (key : list (str * str)) :
  forallb (fun p => forallb (fun c => (0 <=? c) && (c <? 2097152)) (snd p)) key = true ->
  Forall (fun p => Forall is_char (snd p)) key.
Proof.
  intros H. rewrite forallb_forall in H. apply List.Forall_forall. intros p Hp. specialize (H p Hp).
  rewrite forallb_forall in H. apply List.Forall_forall. intros c Hc. specialize (H c Hc). unfold is_char. lia.
Qed.

(** URLs as their decoded path. *)
Definition demo_push (u : list str) (segments : list str) : option (list str) := Some (u ++ map unbroken segments).
Definition demo_client (job : str) : @PushGatewayClient (list str) :=
  with_test Udp Bidir (with_server (txt "lab/1") 5201 (mkPushClient [txt "gateway"] [] None [] (Some job))).
Theorem grouping_key_read_back_witness :
  exists u, push_url demo_push hex_encode (txt "7") (demo_client [97; 9; 98]) = Ok u /\
  exists segments, u = [txt "gateway"; txt "metrics"] ++ segments /\
    read_key hex_decode segments = Some ((txt "job", txt "ab") :: tail (grouping_key (txt "7") (demo_client [97; 9; 98]))).
Proof.
  assert (Hpush : forall u segments u', demo_push u segments = Some u' ->
    Forall (fun s => segment_ok (unbroken s)) segments -> id u' = id u ++ map unbroken segments)
    by (by intros u segments u' [= <-] _).
  assert (Hempty : forall b, hex_encode b = [] <-> b = []) by (intros [|x b]; [done|]; by rewrite hex_encode_cons).
  assert (Hb : built (demo_client [97; 9; 98])).
  { apply BuiltTest, BuiltEndpoint; [by left|]. apply (BuiltJob [97; 9; 98] (mkPushClient [txt "gateway"] [] None [] None));
      [apply BuiltNew|vm_compute; reflexivity]. }
  assert (Hv : Forall (fun p => Forall is_char (snd p) /\ settled (snd p)) (grouping_key (txt "7") (demo_client [97; 9; 98]))).
  { apply Forall_and. split; [apply chars_checked; vm_compute; reflexivity|].
    unfold settled, segment_ok. apply (bool_decide_unpack _). vm_compute. exact I. }
  eexists. split; [reflexivity|].
  destruct (grouping_key_read_back hex_encode hex_decode demo_push id id Hpush hex_decode_encode hex_alphabet Hempty
    (txt "7") _ _ Hb Hv eq_refl) as (segments & H1 & H2 & _).
  exists segments. split; [exact H1|]. rewrite H2. vm_compute. reflexivity.
Defined.

(** ** The text is well formed *)
Record block := mkBlock { b_name : str; b_help : str; b_type : str; b_samples : list (str * str) }.
Definition block_items (b : block) : list item :=
  write_family_header (b_name b) (b_help b) (b_type b) ++ map (fun p => Sample (b_name b) (fst p) (snd p)) (b_samples b).
(** Every family once: its header, then its samples. *)
Definition grouped (names : list str) (items : list item) : Prop :=
  exists blocks, items = concat (map block_items blocks) /\ map b_name blocks = names.

Lemma grouped_app n1 n2 a b : grouped n1 a -> grouped n2 b -> grouped (n1 ++ n2) (a ++ b).
Proof.
  intros (x & -> & <-) (y & -> & <-). exists (x ++ y). by rewrite !map_app, concat_app.
Qed.
Lemma grouped_nil : grouped [] [].
Proof. by exists []. Qed.
Lemma family_grouped name help t v : grouped [name] (family name help t v).
Proof. exists [mkBlock name help t [([], display_f64 v)]]. by split. Qed.
Lemma stream_family_grouped name help t f id streams : grouped [name] (stream_family name help t f id streams).
Proof.
  exists [mkBlock name help t (map (fun s => (stream_labels id s, display_f64 (f s))) streams)]. split; [|done].
  unfold stream_family, block_items. cbn. by rewrite app_nil_r, map_map.
Qed.

Lemma directional_grouped name help v value samples :
  grouped (if existsb (fun s => is_some (value s)) samples then [name] else [])
    (directional_samples name help v value false samples).
Proof.
  assert (Ht : forall l, directional_samples name help v value true l =
    map (fun p => Sample name (fst p) (snd p)) (omap (fun s => option_map (pair (directional_labels v s)) (value s)) l)).
  { induction l as [|s l IH]; [done|]. cbn. destruct (value s); cbn; by rewrite IH. }
  induction samples as [|s l IH]; cbn; [apply grouped_nil|]. destruct (value s) as [x|]; cbn; [|exact IH].
  exists [mkBlock name help (txt "gauge") ((directional_labels v s, x) ::
    omap (fun s => option_map (pair (directional_labels v s)) (value s)) l)].
  split; [|done]. unfold block_items. cbn. by rewrite app_nil_r, Ht.
Qed.

Lemma directional_all prefix samples : exists names,
  sublist names (map (fun '(metric, _, _, _) => prefix ++ txt "_" ++ metric) directional_metrics) /\
  grouped names (append_udp_directions_named prefix samples).
Proof.
  unfold append_udp_directions_named. induction directional_metrics as [|[[[metric help] v] value] l IH]; cbn [map concat].
  - exists []. by split; [|apply grouped_nil].
  - destruct IH as (names & Hs & Hg). eexists. split; [|by apply grouped_app; [apply directional_grouped|exact Hg]].
    destruct (existsb _ samples); cbn; [by apply sublist_skip|by apply sublist_cons].
Qed.

(** The families in their order. *)
Definition SAMPLE_NAMES : list str :=
  map txt ["xfr_bytes_total"; "xfr_throughput_mbps"; "xfr_duration_seconds"; "xfr_stream_bytes_total";
           "xfr_stream_throughput_mbps"; "xfr_stream_retransmits_total"; "xfr_tcp_rtt_microseconds";
           "xfr_tcp_retransmits_total"; "xfr_tcp_cwnd_bytes"; "xfr_udp_packets_sent"; "xfr_udp_packets_received";
           "xfr_udp_packets_lost"; "xfr_udp_jitter_ms"; "xfr_udp_lost_percent"]%string.
Definition direction_names (prefix : str) : list str :=
  map (fun '(metric, _, _, _) => prefix ++ txt "_" ++ metric) directional_metrics.

Lemma grouped_families l : grouped (map (fun '(n, _, _, _) => n) l) (concat (map (fun '(n, h, t, v) => family n h t v) l)).
Proof.
  induction l as [|[[[n h] t] v] l IH]; [apply grouped_nil|]. exact (grouped_app [n] _ _ _ (family_grouped n h t v) IH).
Qed.

(** Part of the families, in order. *)
Definition part_of (all : list str) (items : list item) : Prop := exists names, sublist names all /\ grouped names items.
Lemma part_app a1 a2 x y : part_of a1 x -> part_of a2 y -> part_of (a1 ++ a2) (x ++ y).
Proof.
  intros (n1 & Hs1 & H1) (n2 & Hs2 & H2). exists (n1 ++ n2). split; [by apply sublist_app|by apply grouped_app].
Qed.
Lemma part_nil all : part_of all [].
Proof. exists []. split; [apply sublist_nil_l|apply grouped_nil]. Qed.
Lemma part_all names items : grouped names items -> part_of names items.
Proof. by exists names. Qed.

Lemma samples_grouped id ms bytes mbps streams tcp udp : exists rest,
  format_samples id ms bytes mbps streams tcp udp = Comment (txt "Test ID: " ++ escape_label id) :: rest /\
  part_of SAMPLE_NAMES rest.
Proof.
  unfold format_samples. eexists. split; [reflexivity|].
  refine (part_app (take 1 SAMPLE_NAMES) (drop 1 SAMPLE_NAMES) _ _ (part_all _ _ (family_grouped _ _ _ _)) _).
  refine (part_app (take 1 (drop 1 SAMPLE_NAMES)) (drop 2 SAMPLE_NAMES) _ _ (part_all _ _ (family_grouped _ _ _ _)) _).
  refine (part_app (take 1 (drop 2 SAMPLE_NAMES)) (drop 3 SAMPLE_NAMES) _ _ (part_all _ _ (family_grouped _ _ _ _)) _).
  refine (part_app (take 3 (drop 3 SAMPLE_NAMES)) (drop 6 SAMPLE_NAMES) _ _ _ (part_app (take 3 (drop 6 SAMPLE_NAMES))
    (drop 9 SAMPLE_NAMES) _ _ _ _)).
  - destruct streams as [|s streams]; [apply part_nil|]. apply part_all.
    apply (grouped_app [_] [_; _]); [apply stream_family_grouped|]. apply (grouped_app [_] [_]); apply stream_family_grouped.
  - destruct tcp as [t|]; [|apply part_nil]. apply part_all.
    apply (grouped_app [_] [_; _]); [apply family_grouped|]. apply (grouped_app [_] [_]); apply family_grouped.
  - unfold udp_samples. destruct udp as [|u udp]; [apply part_nil|]. cbv zeta. apply part_all.
    apply (grouped_app [_] [_; _; _; _]); [apply family_grouped|]. apply (grouped_app [_] [_; _; _]); [apply family_grouped|].
    apply (grouped_app [_] [_; _]); [apply family_grouped|]. apply (grouped_app [_] [_]); apply family_grouped.
Qed.

(** ** Snapshots *)
Lemma has_header_block name b : has_header name (block_items b) = bool_decide (b_name b = name).
Proof.
  unfold block_items. cbn. destruct (bool_decide _); [done|]. cbn.
  induction (b_samples b) as [|p l IH]; [done|]. exact IH.
Qed.
Lemma has_header_app name a b : has_header name (a ++ b) = has_header name a || has_header name b.
Proof. apply existsb_app. Qed.
Lemma has_header_grouped name names items : grouped names items -> has_header name items = bool_decide (name ∈ names).
Proof.
  intros (blocks & -> & <-). induction blocks as [|b blocks IH]; [done|]. cbn [map concat].
  rewrite has_header_app, has_header_block, IH. repeat case_bool_decide; set_solver.
Qed.

(** The samples of one metric, one after the other. *)
Lemma gauges_block {A} metric (labels value : A -> str) samples out b :
  b_name b = snapshot_name metric ->
  exists b', b_name b' = snapshot_name metric /\
    fold_left (fun out s => snapshot_gauge metric (labels s) (value s) out) samples (out ++ block_items b)
    = out ++ block_items b'.
Proof.
  revert b. induction samples as [|s samples IH]; intros b Hb; [by exists b|]. cbn [fold_left].
  assert (E : snapshot_gauge metric (labels s) (value s) (out ++ block_items b)
    = out ++ block_items (mkBlock (b_name b) (b_help b) (b_type b) (b_samples b ++ [(labels s, value s)]))).
  { unfold snapshot_gauge. rewrite has_header_app, has_header_block, bool_decide_true, orb_true_r by done.
    unfold block_items. cbn. rewrite map_app, Hb. cbn. by rewrite <- !app_assoc. }
  rewrite E. by apply IH.
Qed.
Lemma gauges_grouped {A} metric (labels value : A -> str) samples names out :
  grouped names out -> snapshot_name metric ∉ names ->
  grouped (names ++ match samples with [] => [] | _ => [snapshot_name metric] end)
    (fold_left (fun out s => snapshot_gauge metric (labels s) (value s) out) samples out).
Proof.
  intros Hg Hn. destruct samples as [|s samples]; cbn [fold_left]; [by rewrite app_nil_r|].
  set (b := mkBlock (snapshot_name metric) (txt "Most recently pushed test snapshot " ++ metric) (txt "gauge")
    [(labels s, value s)]).
  assert (E : snapshot_gauge metric (labels s) (value s) out = out ++ block_items b).
  { unfold snapshot_gauge. by rewrite (has_header_grouped _ names), bool_decide_false by done. }
  rewrite E. destruct (gauges_block metric labels value samples out b eq_refl) as (b' & Hb & ->).
  destruct Hg as (blocks & -> & <-). exists (blocks ++ [b']). rewrite !map_app, concat_app. cbn.
  by rewrite app_nil_r, Hb.
Qed.
Lemma gauge_grouped metric labels value names out :
  grouped names out -> snapshot_name metric ∉ names ->
  grouped (names ++ [snapshot_name metric]) (snapshot_gauge metric labels value out).
Proof.
  intros Hg Hn. exact (gauges_grouped metric (fun _ => labels) (fun _ => value) [tt] names out Hg Hn).
Qed.

Lemma gauges_part {A} metric (labels value : A -> str) samples P out :
  part_of P out -> snapshot_name metric ∉ P ->
  part_of (P ++ [snapshot_name metric])
    (fold_left (fun out s => snapshot_gauge metric (labels s) (value s) out) samples out).
Proof.
  intros (names & Hs & Hg) Hn. eexists. split; [|apply gauges_grouped; [exact Hg|]].
  - apply sublist_app; [done|]. destruct samples; [apply sublist_nil_l|done].
  - intros Hi. apply Hn. by apply (sublist_subseteq names P).
Qed.
Lemma gauge_part metric labels value P out :
  part_of P out -> snapshot_name metric ∉ P -> part_of (P ++ [snapshot_name metric]) (snapshot_gauge metric labels value out).
Proof. apply (gauges_part metric (fun _ => labels) (fun _ => value) [tt]). Qed.
Lemma part_more P Q out : part_of P out -> part_of (P ++ Q) out.
Proof. intros (names & Hs & Hg). exists names. split; [by apply sublist_inserts_r|done]. Qed.

Definition SNAPSHOT_NAMES : list str :=
  map (fun m => snapshot_name (txt m))
    ["bytes"; "throughput_mbps"; "duration_seconds"; "streams"; "tcp_info_available"; "tcp_rtt_microseconds";
     "tcp_retransmits"; "tcp_cwnd_bytes"; "udp_direction_available"; "udp_direction_quality_available";
     "udp_direction_jitter_available"]%string.

Ltac fresh_name := apply (bool_decide_unpack _); vm_compute; exact I.
Ltac next_gauge n :=
  change (take (S n) SNAPSHOT_NAMES) with (take n SNAPSHOT_NAMES ++ take 1 (drop n SNAPSHOT_NAMES));
  apply gauge_part; [|fresh_name].

Lemma snapshot_grouped test r : part_of (SNAPSHOT_NAMES ++ direction_names (txt "xfr_last_test_udp_direction")) (format_snapshot test r).
Proof.
  unfold format_snapshot. cbv zeta. set (out5 := snapshot_gauge (txt "tcp_info_available") _ _ _).
  assert (H5 : part_of (take 5 SNAPSHOT_NAMES) out5).
  { unfold out5. next_gauge 4%nat. next_gauge 3%nat. next_gauge 2%nat. next_gauge 1%nat. next_gauge 0%nat. apply part_nil. }
  clearbody out5. set (out8 := match tr_tcp_info r with Some _ => _ | None => _ end).
  assert (H8 : part_of (take 8 SNAPSHOT_NAMES) out8).
  { unfold out8. destruct (tr_tcp_info r) as [i|]; [|exact (part_more _ (take 3 (drop 5 SNAPSHOT_NAMES)) _ H5)].
    next_gauge 7%nat. next_gauge 6%nat. next_gauge 5%nat. exact H5. }
  clearbody out8. destruct test as [[[| |] direction]|]; try (exact (part_more _ (drop 8 SNAPSHOT_NAMES ++ _) _ H8)).
  unfold snapshot_directions. apply part_app; [|apply directional_all].
  unfold availability. cbn [fold_left].
  change SNAPSHOT_NAMES with (((take 8 SNAPSHOT_NAMES ++ take 1 (drop 8 SNAPSHOT_NAMES)) ++ take 1 (drop 9 SNAPSHOT_NAMES))
    ++ drop 10 SNAPSHOT_NAMES).
  do 3 (apply gauges_part; [|fresh_name]). exact H8.
Qed.

(** Each text a push carries is well formed: after the comment that names the
    test, every metric family appears once, as its header followed by all of
    its samples, whatever streams, directions and measurements the test has;
    and the same families never repeat between a test's totals and its
    directions. *)
Theorem exposition_grouped (test : option (Protocol * Direction)) (r : TestResult) (k : StreamStats.kernel) (now : Z)
    (s : TestStats) :
  (exists rest names, format_result test r = Comment (txt "Test ID: " ++ escape_label (tr_id r)) :: rest /\
     NoDup names /\ grouped names rest) /\
  (exists rest names, format_metrics test k now s = Comment (txt "Test ID: " ++ escape_label (test_id s)) :: rest /\
     NoDup names /\ grouped names rest) /\
  (exists names, NoDup names /\ grouped names (format_snapshot test r)).
Proof.
  assert (Hd : NoDup (SAMPLE_NAMES ++ direction_names (txt "xfr_udp_direction"))) by fresh_name.
  assert (Hs : NoDup (SNAPSHOT_NAMES ++ direction_names (txt "xfr_last_test_udp_direction"))) by fresh_name.
  assert (Hp : forall id items more, (exists rest, items = Comment id :: rest /\ part_of SAMPLE_NAMES rest) ->
    (more = [] \/ exists samples, more = append_udp_directions samples) ->
    exists rest names, items ++ more = Comment id :: rest /\ NoDup names /\ grouped names rest).
  { intros id items more (rest & -> & Hr) Hm.
    assert (Hq : part_of (direction_names (txt "xfr_udp_direction")) more).
    { destruct Hm as [->|[samples ->]]; [apply part_nil|apply directional_all]. }
    destruct (part_app _ _ _ _ Hr Hq) as (names & Hn & Hg). exists (rest ++ more), names. split_and!; [done| |done].
    by apply (sublist_NoDup _ _ Hd). }
  split_and!.
  - apply Hp; [apply samples_grouped|]. destruct test as [[[| |] d]|]; eauto.
  - apply Hp; [apply samples_grouped|]. destruct test as [[[| |] d]|]; eauto.
  - destruct (snapshot_grouped test r) as (names & Hn & Hg). exists names. split; [|done]. by apply (sublist_NoDup _ _ Hs).
Qed.

(** ** Escaped labels, delivery, credentials *)

(** The gateway's reading of a quoted label value, up to the closing quote. *)
Fixpoint read_label (s : str) : option (str * str) :=
  match s with
  | 34 :: s => Some ([], s)
  | 92 :: c :: s =>
    match read_label s with
    | Some (v, rest) =>
      if c =? 110 then Some (10 :: v, rest) else if (c =? 92) || (c =? 34) then Some (c :: v, rest) else None
    | None => None
    end
  | 92 :: [] => None
  | c :: s => match read_label s with Some (v, rest) => Some (c :: v, rest) | None => None end
  | [] => None
  end.

(** Whatever the identifier, a label value reads back and keeps to its line. *)
Lemma escape_label_reads_back id rest :
  read_label (escape_label id ++ 34 :: rest) = Some (id, rest) /\ occurrences 10 (escape_label id) = 0%nat.
Proof.
  induction id as [|c id [IH1 IH2]]; [done|]. unfold escape_label in *. cbn [map concat]. rewrite <- app_assoc.
  unfold quote_char at 1 3. destruct (Z.eqb_spec c 92) as [->|H1]; [|destruct (Z.eqb_spec c 34) as [->|H2];
    [|destruct (Z.eqb_spec c 10) as [->|H3]]].
  1-3: split; [cbn; by rewrite IH1|exact IH2].
  split.
  - transitivity (match read_label (concat (map quote_char id) ++ 34 :: rest) with
                  | Some (v, rest) => Some (c :: v, rest) | None => None end); [|by rewrite IH1].
    cbn [app]. destruct c as [|p|p]; [done| |done]. do 7 (destruct p as [p|p|]; try done).
  - rewrite occurrences_app, IH2. unfold occurrences. cbn [List.filter]. destruct (Z.eqb_spec 10 c); [congruence|done].
Qed.

(** The attempts end with the first success and fail only when all three
    did, with the last error. *)
Lemma push_attempts_spec outcome :
  match push_attempts outcome with
  | (Ok _, waits) => exists n, 1 <= n <= 3 /\ is_ok (outcome n) = true /\ length waits = Z.to_nat (n - 1) /\
      forall i, 1 <= i < n -> is_ok (outcome i) = false
  | (Err e, waits) => outcome 3 = Err e /\ waits = [100000000; 200000000] /\ forall i, 1 <= i <= 3 -> is_ok (outcome i) = false
  end.
Proof.
  unfold push_attempts. cbn [attempts_from]. change (1 + 1) with 2. change (2 + 1) with 3.
  destruct (outcome 1) as [[]|e1] eqn:E1; [exists 1; rewrite E1; split_and!; try done; lia|].
  destruct (outcome 2) as [[]|e2] eqn:E2.
  { exists 2. rewrite E2. split_and!; try done. intros i Hi. replace i with 1 by lia. by rewrite E1. }
  destruct (outcome 3) as [[]|e3] eqn:E3.
  - exists 3. rewrite E3. split_and!; try done. intros i Hi.
    assert (i = 1 \/ i = 2) as [-> | ->] by lia; [by rewrite E1|by rewrite E2].
  - split_and!; try done. intros i Hi.
    assert (i = 1 \/ i = 2 \/ i = 3) as [-> |[-> | ->]] by lia; [by rewrite E1|by rewrite E2|by rewrite E3].
Qed.

Lemma rfind_last c a rest : ~ In c rest -> rfind_char c (a ++ c :: rest) = Some (length a).
Proof.
  intros Hr. assert (E : rfind_char c rest = None).
  { induction rest as [|x rest IH]; [done|]. cbn. rewrite IH by (intros H; apply Hr; by right).
    destruct (Z.eqb_spec x c) as [->|]; [|done]. exfalso. apply Hr. by left. }
  induction a as [|x a IH]; cbn; [by rewrite E, Z.eqb_refl|by rewrite IH].
Qed.
Lemma find_scheme s rest : ~ In 58 s -> find (txt "://") (s ++ txt "://" ++ rest) = Some (length s).
Proof.
  induction s as [|c s IH]; intros Hs; [done|]. cbn [app find].
  assert (E : starts_with (txt "://") (c :: s ++ txt "://" ++ rest) = false).
  { change (txt "://") with [58; 47; 47] at 1. cbn [starts_with]. destruct (Z.eqb_spec 58 c) as [<-|]; [|done].
    exfalso. apply Hs. by left. }
  rewrite E, IH; [done|]. intros H. apply Hs. by right.
Qed.

(** What an error message shows of a URL with a scheme does not depend on the
    credentials in it. *)
Lemma shown_url_hides scheme userinfo rest : ~ In 58 scheme -> ~ In 64 rest ->
  shown_url (scheme ++ txt "://" ++ userinfo ++ 64 :: rest) = scheme ++ txt "://***" ++ 64 :: rest.
Proof.
  intros Hs Hr. unfold shown_url. rewrite find_scheme by done.
  set (before := scheme ++ txt "://" ++ userinfo).
  replace (scheme ++ txt "://" ++ userinfo ++ 64 :: rest) with (before ++ 64 :: rest) by (unfold before; by rewrite <- !app_assoc).
  rewrite rfind_last by done. rewrite drop_app_length.
  assert (Hb : before = (scheme ++ txt "://") ++ userinfo) by (unfold before; by rewrite app_assoc).
  rewrite Nat.min_l by (rewrite Hb, !length_app; change (length (txt "://")) with 3%nat; lia).
  rewrite Hb, <- app_assoc, take_app_length' by (by rewrite length_app).
  change (txt "://***") with (txt "://" ++ txt "***"). by rewrite <- !app_assoc.
Qed.
(** Without one, a password that contains the mark is shown up to it. *)
Lemma shown_url_without_scheme :
  shown_url (txt "my_user:secret://rest@host:9091") = txt "my_user:secret://***@host:9091".
Proof. vm_compute. reflexivity. Qed.

(** The value a command line gives a label. *)
Fixpoint cli_value (k : str) (cli : list str) : option str :=
  match cli with
  | [] => None
  | label :: cli =>
    match split_once [61] label with
    | Some (name, value) => if bool_decide (name = k) then Some value else cli_value k cli
    | None => cli_value k cli
    end
  end.
Lemma read_overrides_spec cli o o' : bt_ok o -> read_overrides cli o = Ok o' ->
  bt_ok o' /\ forall k, bt_get k o' = match bt_get k o with Some v => Some v | None => cli_value k cli end.
Proof.
  revert o. induction cli as [|label cli IH]; intros o Ho; cbn [read_overrides cli_value].
  { intros [= <-]. split; [done|]. intros k. by destruct (bt_get k o). }
  destruct (split_once [61] label) as [[name value]|]; cbn; [|done].
  destruct (bt_get name o) eqn:E; cbn; [done|]. intros H. destruct (IH _ (bt_ok_insert name value o Ho) H) as [H1 H2].
  split; [done|]. intros k. rewrite H2, bt_get_insert. repeat case_bool_decide; simplify_eq; rewrite ?E; done.
Qed.

(** The labels of a push: a label of the command line wins over the
    configuration's, every other stays, and every name is a valid one that
    the exporter does not use. *)
Lemma merge_push_labels_spec labels cli m : bt_ok labels -> merge_push_labels labels cli = Ok m ->
  bt_ok m /\ (forall k, bt_get k m = match cli_value k cli with Some v => Some v | None => bt_get k labels end) /\
  Forall (fun p => name_ok (fst p) /\ ~ In (fst p) RESERVED) m.
Proof.
  intros Hl. unfold merge_push_labels. destruct (read_overrides cli []) as [o|] eqn:E; cbn; [|done].
  destruct (read_overrides_spec cli [] o ltac:(exact I) E) as [Ho Hg].
  destruct (validate_push_labels _) as [[]|] eqn:Ev; cbn; [|done]. intros [= <-]. split; [by apply extend_ok|].
  split; [intros k; rewrite extend_get by done; by rewrite Hg|].
  apply validate_spec in Ev. eapply Forall_impl; [exact Ev|]. intros p Hp. by apply label_name_spec.
Qed.
