(* ===== verification/Prometheus.v ===== *)
(** * The Prometheus exporter (src/src/output/prometheus.rs)

    What a finished test writes into the exported series, which tests keep
    their series, the gauge of running tests, the loop that accepts scrapes
    and the answer to a request.  The prometheus and hyper crates are
    parameters: a labelled family of series is an instance of [MetricVec]. *)
From Stdlib Require Import FinFun.
From coqutil Require Import Datatypes.RecordSettersUsingExistingGetters.
From S2P Require Import Prelude Cli.
From S2P Require Import Bytes Text Float Fmt Protocol Stats PushGateway.

(** ** Families of labelled series *)
Definition labels : Type := list str.
Class MetricVec (V : Type) := {
  empty_vec : V;
  (** The value exported for the labels, if there is a series for them. *)
  value : V -> labels -> option f64;
  (** [with_label_values(l).set(x)], [.inc_by(x)] and [remove_label_values]. *)
  set_value : labels -> f64 -> V -> V;
  inc_value : labels -> f64 -> V -> V;
  remove_label_values : labels -> V -> V;
  value_empty l : value empty_vec l = None;
  value_set l x v l' : value (set_value l x v) l' = if bool_decide (l = l') then Some x else value v l';
  value_inc l x v l' : value (inc_value l x v) l' =
    if bool_decide (l = l') then Some (fadd (match value v l with Some y => y | None => zero end) x) else value v l';
  value_remove l v l' : value (remove_label_values l v) l' = if bool_decide (l = l') then None else value v l' }.

Section exporter.
Context {V : Type} `{MetricVec V}.

Record XfrMetrics := mkMetrics {
  m_bytes_total : f64; m_throughput_mbps : f64; tests_total : f64; test_durations : list f64;
  stream_bytes_total : V; stream_throughput_mbps : V; stream_retransmits : V;
  tcp_rtt_microseconds : V; tcp_retransmits_total : V;
  active_tests : Z; finished : list (str * list str) }.

Definition RETAINED_TESTS : nat := 16.

(** [XfrMetrics::new]. *)
Definition new_metrics : XfrMetrics :=
  mkMetrics zero zero zero [] empty_vec empty_vec empty_vec empty_vec empty_vec 0 [].

Definition remove_stream (test_id stream_id : str) (m : XfrMetrics) : XfrMetrics :=
  let labels := [test_id; stream_id] in
  m <| stream_bytes_total ::= remove_label_values labels |>
    <| stream_throughput_mbps ::= remove_label_values labels |>
    <| stream_retransmits ::= remove_label_values labels |>.
Definition remove_series (test_id : str) (stream_ids : list str) (m : XfrMetrics) : XfrMetrics :=
  (fold_left (fun m stream_id => remove_stream test_id stream_id m) stream_ids m)
    <| tcp_rtt_microseconds ::= remove_label_values [test_id] |>
    <| tcp_retransmits_total ::= remove_label_values [test_id] |>.

Definition stream_label (s : StreamStats) : str := dec (stream_id s).

Definition update_metrics (now : Z) (stats : TestStats) (m : XfrMetrics) : XfrMetrics :=
  let duration_ms := elapsed_ms now stats in
  let m := if 0 <? duration_ms
           then m <| m_throughput_mbps :=
                  fdiv (fdiv (fmul (of_int (TestStats.total_bytes stats)) (of_int 8))
                             (fdiv (of_int duration_ms) (of_int 1000))) (of_int 1000000) |>
           else m in
  let m := fold_left (fun m stream =>
             m <| stream_throughput_mbps ::=
                  set_value [test_id stats; stream_label stream] (StreamStats.throughput_mbps now stream) |>)
             (streams stats) m in
  match TestStats.get_tcp_info stats with
  | Some tcp_info => m <| tcp_rtt_microseconds ::= set_value [test_id stats] (of_int (tcp_rtt_us tcp_info)) |>
  | None => m
  end.

Definition update_counters (stats : TestStats) (m : XfrMetrics) : XfrMetrics :=
  let m := m <| m_bytes_total := fadd (m_bytes_total m) (of_int (TestStats.total_bytes stats)) |> in
  let m := fold_left (fun m stream =>
             let labels := [test_id stats; stream_label stream] in
             m <| stream_bytes_total ::= inc_value labels (of_int (StreamStats.total_bytes stream)) |>
               <| stream_retransmits ::= inc_value labels (of_int (retransmits_total stream)) |>)
             (streams stats) m in
  match TestStats.get_tcp_info stats with
  | Some tcp_info => m <| tcp_retransmits_total ::= inc_value [test_id stats] (of_int (tcp_retransmits tcp_info)) |>
  | None => m
  end.

(** The first entry of the test taken out, with its streams. *)
Fixpoint take_entry (id : str) (finished : list (str * list str)) : option (list str * list (str * list str)) :=
  match finished with
  | [] => None
  | (id', streams) :: finished =>
    if bool_decide (id' = id) then Some (streams, finished)
    else option_map (fun '(s, rest) => (s, (id', streams) :: rest)) (take_entry id finished)
  end.

(** [while finished.len() > RETAINED_TESTS]. *)
Fixpoint retire (finished : list (str * list str)) (m : XfrMetrics) : list (str * list str) * XfrMetrics :=
  match finished with
  | (id, streams) :: rest =>
    if Nat.ltb RETAINED_TESTS (length finished) then retire rest (remove_series id streams m) else (finished, m)
  | [] => ([], m)
  end.

Definition finish (now : Z) (stats : TestStats) (completed : bool) (m : XfrMetrics) : XfrMetrics :=
  let '(entries, m) := match take_entry (test_id stats) (finished m) with
                       | Some (streams, rest) => (rest, remove_series (test_id stats) streams m)
                       | None => (finished m, m)
                       end in
  let m := m <| active_tests ::= (fun n => n - 1) |> in
  let m := if completed
           then m <| tests_total := fadd (tests_total m) (of_int 1) |>
                  <| test_durations ::= (fun l => l ++ [fdiv (of_int (elapsed_ms now stats)) (of_int 1000)]) |>
           else m in
  let m := update_metrics now stats m in
  let m := if completed then update_counters stats m else m in
  let '(entries, m) := retire (entries ++ [(test_id stats, map stream_label (streams stats))]) m in
  m <| finished := entries |>.

Definition on_test_start (m : XfrMetrics) : XfrMetrics := m <| active_tests ::= Z.add 1 |>.
Definition on_test_aborted (now : Z) (stats : TestStats) : XfrMetrics -> XfrMetrics := finish now stats false.
Definition on_test_complete (now : Z) (stats : TestStats) : XfrMetrics -> XfrMetrics := finish now stats true.

(** What the server does with the exporter; the lock makes a finish one step. *)
Inductive metrics_call := Start | Finished (now : Z) (stats : TestStats) (completed : bool).
Definition metrics_step (m : XfrMetrics) (c : metrics_call) : XfrMetrics :=
  match c with
  | Start => on_test_start m
  | Finished now stats true => on_test_complete now stats m
  | Finished now stats false => on_test_aborted now stats m
  end.
Definition metrics_run : list metrics_call -> XfrMetrics -> XfrMetrics := fold_left (fun m c => metrics_step m c).

(** ** What is exported *)
Inductive stream_family := Bytes | Throughput | Retransmits.
Inductive test_family := Rtt | TcpRetransmits.
Definition stream_vec (f : stream_family) (m : XfrMetrics) : V :=
  match f with Bytes => stream_bytes_total m | Throughput => stream_throughput_mbps m | Retransmits => stream_retransmits m end.
Definition test_vec (g : test_family) (m : XfrMetrics) : V :=
  match g with Rtt => tcp_rtt_microseconds m | TcpRetransmits => tcp_retransmits_total m end.

(** A finished test: when, its statistics, whether it completed. *)
Record finished_test := mkFinished { at_ : Z; stats : TestStats; completed : bool }.
Definition id_of (x : finished_test) : str := test_id (stats x).
Definition names_of (x : finished_test) : list str := map stream_label (streams (stats x)).
Definition stream_named (x : finished_test) (s : str) : option StreamStats :=
  List.find (fun st => bool_decide (stream_label st = s)) (streams (stats x)).

(** What its series say: of this run alone, counters only if it completed. *)
Definition stream_value (f : stream_family) (x : finished_test) (s : str) : option f64 :=
  match stream_named x s with
  | None => None
  | Some st =>
    match f with
    | Throughput => Some (StreamStats.throughput_mbps (at_ x) st)
    | Bytes => if completed x then Some (fadd zero (of_int (StreamStats.total_bytes st))) else None
    | Retransmits => if completed x then Some (fadd zero (of_int (retransmits_total st))) else None
    end
  end.
Definition test_value (g : test_family) (x : finished_test) : option f64 :=
  match TestStats.get_tcp_info (stats x) with
  | None => None
  | Some i =>
    match g with
    | Rtt => Some (of_int (tcp_rtt_us i))
    | TcpRetransmits => if completed x then Some (fadd zero (of_int (tcp_retransmits i))) else None
    end
  end.

(** The metrics export the tests of [P], and no other series. *)
Definition exports (P : str -> option finished_test) (m : XfrMetrics) : Prop :=
  (forall f t s, value (stream_vec f m) [t; s] = match P t with Some x => stream_value f x s | None => None end) /\
  (forall g t, value (test_vec g m) [t] = match P t with Some x => test_value g x | None => None end).

Lemma exports_ext P Q m : (forall t, P t = Q t) -> exports P m -> exports Q m.
Proof. intros E [H1 H2]. split; intros; rewrite <- E; [apply H1|apply H2]. Qed.
Lemma exports_same P m m' :
  (forall f, stream_vec f m' = stream_vec f m) -> (forall g, test_vec g m' = test_vec g m) -> exports P m -> exports P m'.
Proof. intros E1 E2 [H1 H2]. split; intros; rewrite ?E1, ?E2; [apply H1|apply H2]. Qed.

Lemma labels_pair (a b c d : str) : bool_decide ([a; b] = [c; d]) = bool_decide (a = c) && bool_decide (b = d).
Proof.
  destruct (bool_decide_reflect (a = c)) as [->|Ha], (bool_decide_reflect (b = d)) as [->|Hb]; cbn;
    try (apply bool_decide_eq_true; done); apply bool_decide_eq_false; congruence.
Qed.
Lemma labels_one (a b : str) : bool_decide ([a] = [b]) = bool_decide (a = b).
Proof. apply bool_decide_ext. split; [by intros [=]|by intros ->]. Qed.

Lemma named_none x s : stream_named x s = None <-> ~ In s (names_of x).
Proof.
  unfold stream_named, names_of. rewrite in_map_iff. split.
  - intros Hf (st & E & Hin). apply (find_none _ _ Hf) in Hin. apply bool_decide_eq_false in Hin. done.
  - intros Hn. destruct (List.find _ _) as [st|] eqn:E; [|done]. apply find_some in E as [Hin E].
    apply bool_decide_eq_true in E. destruct Hn. by exists st.
Qed.

(** ** Removing the series of a test *)
Lemma removed_streams f id ids m : forall t s,
  value (stream_vec f (fold_left (fun m s => remove_stream id s m) ids m)) [t; s]
  = if bool_decide (t = id /\ s ∈ ids) then None else value (stream_vec f m) [t; s].
Proof.
  revert m. induction ids as [|s0 ids IH]; intros m t s; cbn [fold_left].
  - by rewrite bool_decide_eq_false_2 by (intros [_ Hin]; by apply not_elem_of_nil in Hin).
  - rewrite IH. assert (E : value (stream_vec f (remove_stream id s0 m)) [t; s]
      = if bool_decide ([id; s0] = [t; s]) then None else value (stream_vec f m) [t; s])
      by (by destruct f; cbn; rewrite value_remove).
    rewrite E, labels_pair. clear E IH. rewrite (bool_decide_ext (t = id /\ s ∈ s0 :: ids) (t = id /\ (s = s0 \/ s ∈ ids))) by (by rewrite elem_of_cons).
    repeat case_bool_decide; cbn [andb] in *; naive_solver.
Qed.
Lemma removed_tests g id ids m :
  test_vec g (fold_left (fun m s => remove_stream id s m) ids m) = test_vec g m.
Proof. revert m. induction ids as [|s ids IH]; intros m; [done|]. cbn [fold_left]. rewrite IH. by destruct g. Qed.

Lemma exports_remove P x m : P (id_of x) = Some x -> exports P m ->
  exports (fun t => if bool_decide (t = id_of x) then None else P t) (remove_series (id_of x) (names_of x) m).
Proof.
  intros Hp [H1 H2]. split.
  - intros f t s. assert (E : stream_vec f (remove_series (id_of x) (names_of x) m)
      = stream_vec f (fold_left (fun m s => remove_stream (id_of x) s m) (names_of x) m)) by (by destruct f).
    rewrite E, removed_streams. case_bool_decide as Hb.
    + destruct Hb as [-> _]. by rewrite bool_decide_eq_true_2.
    + rewrite H1. case_bool_decide as Ht; [|done]. subst t. rewrite Hp. unfold stream_value.
      assert (Hn : ~ In s (names_of x)) by (intros Hin; apply Hb; split; [done|by apply list_elem_of_In]).
      by rewrite (proj2 (named_none x s) Hn).
  - intros g t. assert (E : test_vec g (remove_series (id_of x) (names_of x) m)
      = remove_label_values [id_of x] (test_vec g (fold_left (fun m s => remove_stream (id_of x) s m) (names_of x) m)))
      by (by destruct g).
    rewrite E, value_remove, removed_tests, labels_one, H2. repeat case_bool_decide; congruence.
Qed.

(** ** Writing the series of a test *)
Definition stream_distinct (x : finished_test) : Prop := List.NoDup (names_of x).

(** One family written for every stream, by [set] or by [inc_by]. *)
Lemma written_streams (wr : labels -> f64 -> V -> V) (g : option f64 -> f64 -> f64) (val : StreamStats -> f64) id :
  (forall l x v l', value (wr l x v) l' = if bool_decide (l = l') then Some (g (value v l) x) else value v l') ->
  forall sts v t s, List.NoDup (map stream_label sts) ->
  value (fold_left (fun v st => wr [id; stream_label st] (val st) v) sts v) [t; s]
  = match (if bool_decide (t = id) then List.find (fun st => bool_decide (stream_label st = s)) sts else None) with
    | Some st => Some (g (value v [t; s]) (val st))
    | None => value v [t; s]
    end.
Proof.
  intros Hw sts. induction sts as [|st sts IH]; intros v t s Hn; cbn [fold_left List.find map] in *.
  - by destruct (bool_decide (t = id)).
  - apply NoDup_cons_iff in Hn as [Hx Hn]. rewrite IH by done. rewrite Hw, labels_pair.
    destruct (bool_decide_reflect (t = id)) as [->|Ht].
    + rewrite bool_decide_eq_true_2 by done. cbn [andb].
      destruct (bool_decide_reflect (stream_label st = s)) as [<-|Hs]; [|done].
      destruct (List.find _ sts) as [st'|] eqn:E; [|done]. apply find_some in E as [Hin E].
      apply bool_decide_eq_true in E. destruct Hx. apply in_map_iff. by exists st'.
    + by rewrite (bool_decide_eq_false_2 (id = t)) by congruence.
Qed.

(** The new value of a counter. *)
Definition counted (old : option f64) (x : f64) : f64 := fadd (match old with Some y => y | None => zero end) x.

(** What a family holds after a record update in a loop. *)
Lemma throughput_loop now id sts m :
  let step m st := m <| stream_throughput_mbps ::= set_value [id; stream_label st] (StreamStats.throughput_mbps now st) |> in
  stream_throughput_mbps (fold_left step sts m)
  = fold_left (fun v st => set_value [id; stream_label st] (StreamStats.throughput_mbps now st) v) sts (stream_throughput_mbps m) /\
  stream_bytes_total (fold_left step sts m) = stream_bytes_total m /\
  stream_retransmits (fold_left step sts m) = stream_retransmits m /\
  (forall g, test_vec g (fold_left step sts m) = test_vec g m) /\
  finished (fold_left step sts m) = finished m /\ active_tests (fold_left step sts m) = active_tests m.
Proof.
  intros step. revert m. induction sts as [|st sts IH]; intros m; [done|]. cbn [fold_left].
  destruct (IH (step m st)) as (-> & -> & -> & H4 & -> & ->). split_and!; try done; intros g; rewrite H4; by destruct g.
Qed.
Lemma counters_loop id sts m :
  let step m st := m <| stream_bytes_total ::= inc_value [id; stream_label st] (of_int (StreamStats.total_bytes st)) |>
                     <| stream_retransmits ::= inc_value [id; stream_label st] (of_int (retransmits_total st)) |> in
  stream_bytes_total (fold_left step sts m)
  = fold_left (fun v st => inc_value [id; stream_label st] (of_int (StreamStats.total_bytes st)) v) sts (stream_bytes_total m) /\
  stream_retransmits (fold_left step sts m)
  = fold_left (fun v st => inc_value [id; stream_label st] (of_int (retransmits_total st)) v) sts (stream_retransmits m) /\
  stream_throughput_mbps (fold_left step sts m) = stream_throughput_mbps m /\
  (forall g, test_vec g (fold_left step sts m) = test_vec g m) /\
  finished (fold_left step sts m) = finished m /\ active_tests (fold_left step sts m) = active_tests m.
Proof.
  intros step. revert m. induction sts as [|st sts IH]; intros m; [done|]. cbn [fold_left].
  destruct (IH (step m st)) as (-> & -> & -> & H4 & -> & ->). split_and!; try done; intros g; rewrite H4; by destruct g.
Qed.

Definition write_series (x : finished_test) (m : XfrMetrics) : XfrMetrics :=
  let m := update_metrics (at_ x) (stats x) m in
  if completed x then update_counters (stats x) m else m.

(** The families one by one. *)
Lemma update_metrics_families now st m :
  stream_throughput_mbps (update_metrics now st m)
  = fold_left (fun v s => set_value [test_id st; stream_label s] (StreamStats.throughput_mbps now s) v) (streams st) (stream_throughput_mbps m) /\
  stream_bytes_total (update_metrics now st m) = stream_bytes_total m /\
  stream_retransmits (update_metrics now st m) = stream_retransmits m /\
  tcp_rtt_microseconds (update_metrics now st m)
  = match TestStats.get_tcp_info st with
    | Some i => set_value [test_id st] (of_int (tcp_rtt_us i)) (tcp_rtt_microseconds m) | None => tcp_rtt_microseconds m end /\
  tcp_retransmits_total (update_metrics now st m) = tcp_retransmits_total m /\
  finished (update_metrics now st m) = finished m /\ active_tests (update_metrics now st m) = active_tests m.
Proof.
  unfold update_metrics. set (m1 := if 0 <? elapsed_ms now st then _ else m).
  assert (E : (forall f, stream_vec f m1 = stream_vec f m) /\ (forall g, test_vec g m1 = test_vec g m) /\
              finished m1 = finished m /\ active_tests m1 = active_tests m).
  { unfold m1. destruct (0 <? elapsed_ms now st); by split_and!. }
  destruct E as (Ef & Eg & Efin & Ea). pose proof (throughput_loop now (test_id st) (streams st) m1) as Hl. cbv zeta in Hl.
  destruct Hl as (L1 & L2 & L3 & L4 & L5 & L6).
  pose proof (Ef Bytes) as E1. pose proof (Ef Throughput) as E2. pose proof (Ef Retransmits) as E3.
  pose proof (Eg Rtt) as E4. pose proof (Eg TcpRetransmits) as E5. pose proof (L4 Rtt) as L7. pose proof (L4 TcpRetransmits) as L8.
  cbn [stream_vec test_vec] in *. cbv zeta. set (m2 := fold_left _ (streams st) m1) in *.
  clearbody m1 m2. rewrite <- E1, <- E2, <- E3, <- E4, <- E5, <- Efin, <- Ea, <- L7.
  destruct (TestStats.get_tcp_info st) as [i|]; split_and!; done || by cbn.
Qed.

Lemma update_counters_families st m :
  stream_bytes_total (update_counters st m)
  = fold_left (fun v s => inc_value [test_id st; stream_label s] (of_int (StreamStats.total_bytes s)) v) (streams st) (stream_bytes_total m) /\
  stream_retransmits (update_counters st m)
  = fold_left (fun v s => inc_value [test_id st; stream_label s] (of_int (retransmits_total s)) v) (streams st) (stream_retransmits m) /\
  stream_throughput_mbps (update_counters st m) = stream_throughput_mbps m /\
  tcp_retransmits_total (update_counters st m)
  = match TestStats.get_tcp_info st with
    | Some i => inc_value [test_id st] (of_int (tcp_retransmits i)) (tcp_retransmits_total m) | None => tcp_retransmits_total m end /\
  tcp_rtt_microseconds (update_counters st m) = tcp_rtt_microseconds m /\
  finished (update_counters st m) = finished m /\ active_tests (update_counters st m) = active_tests m.
Proof.
  unfold update_counters. set (m1 := m <| m_bytes_total := _ |>).
  pose proof (counters_loop (test_id st) (streams st) m1) as Hl. cbv zeta in Hl.
  destruct Hl as (L1 & L2 & L3 & L4 & L5 & L6). pose proof (L4 Rtt) as L7. pose proof (L4 TcpRetransmits) as L8.
  cbn [test_vec] in *. cbv zeta. set (m2 := fold_left _ (streams st) m1) in *.
  change (stream_bytes_total m1) with (stream_bytes_total m) in *. change (stream_retransmits m1) with (stream_retransmits m) in *.
  change (stream_throughput_mbps m1) with (stream_throughput_mbps m) in *.
  change (tcp_rtt_microseconds m1) with (tcp_rtt_microseconds m) in *.
  change (tcp_retransmits_total m1) with (tcp_retransmits_total m) in *.
  change (finished m1) with (finished m) in *. change (active_tests m1) with (active_tests m) in *.
  clearbody m1 m2. rewrite <- L8. destruct (TestStats.get_tcp_info st) as [i|]; split_and!; done || by cbn.
Qed.

(** A test written where it had no series exports exactly its own run. *)
Lemma exports_write P x m : P (id_of x) = None -> stream_distinct x -> exports P m ->
  exports (fun t => if bool_decide (t = id_of x) then Some x else P t) (write_series x m).
Proof.
  intros Hp Hd [H1 H2]. unfold write_series.
  destruct (update_metrics_families (at_ x) (stats x) m) as (U1 & U2 & U3 & U4 & U5 & _).
  set (m1 := update_metrics (at_ x) (stats x) m) in *.
  destruct (update_counters_families (stats x) m1) as (C1 & C2 & C3 & C4 & C5 & _).
  pose proof (written_streams set_value (fun _ y => y) (StreamStats.throughput_mbps (at_ x)) (id_of x) value_set (streams (stats x))) as Wt.
  pose proof (written_streams inc_value counted (fun st => of_int (StreamStats.total_bytes st)) (id_of x) value_inc (streams (stats x))) as Wb.
  pose proof (written_streams inc_value counted (fun st => of_int (retransmits_total st)) (id_of x) value_inc (streams (stats x))) as Wr.
  fold (id_of x) in *. split.
  - intros f t s. pose proof (H1 f t s) as Hf. unfold stream_value, stream_named.
    assert (Hno : bool_decide (t = id_of x) = true -> value (stream_vec f m) [t; s] = None)
      by (intros Ht%bool_decide_eq_true; subst t; by rewrite Hf, Hp).
    destruct f; destruct (completed x) eqn:Ec; cbn [stream_vec] in *;
      rewrite ?C1, ?C2, ?C3, ?U1, ?U2, ?U3, ?Wt, ?Wb, ?Wr by exact Hd; rewrite ?Hf;
      destruct (bool_decide (t = id_of x)); try done; rewrite ?Hno in * by done;
      rewrite <- ?Hf; destruct (List.find _ _); rewrite ?Ec; done.
  - intros g t. pose proof (H2 g t) as Hg. unfold test_value.
    destruct g; destruct (completed x) eqn:Ec; cbn [test_vec] in *; rewrite ?C4, ?C5, ?U4, ?U5;
      destruct (TestStats.get_tcp_info (stats x)) eqn:Ei; rewrite ?value_set, ?value_inc, ?labels_one;
      rewrite ?(bool_decide_ext (id_of x = t) (t = id_of x)) by done; fold (id_of x);
      destruct (bool_decide_reflect (t = id_of x)) as [->|]; rewrite ?Hg, ?Hp, ?Ei, ?Ec; done.
Qed.

(** ** The tests retained *)

(** The finished tests in order of their last finish, the newest sixteen. *)
Definition last_n {A} (n : nat) (l : list A) : list A := drop (length l - n) l.
Definition other (x y : finished_test) : bool := negb (bool_decide (id_of y = id_of x)).
Definition retain (kept : list finished_test) (x : finished_test) : list finished_test :=
  last_n RETAINED_TESTS (List.filter (other x) kept ++ [x]).
Definition finished_in (calls : list metrics_call) : list finished_test :=
  omap (fun c => match c with Start => None | Finished now st c => Some (mkFinished now st c) end) calls.
Definition retained (calls : list metrics_call) : list finished_test := fold_left retain (finished_in calls) [].

Definition kept_as (l : list finished_test) (t : str) : option finished_test :=
  List.find (fun x => bool_decide (id_of x = t)) l.
Definition entry (x : finished_test) : str * list str := (id_of x, names_of x).

Lemma kept_as_none l t : ~ In t (map id_of l) -> kept_as l t = None.
Proof.
  intros Hn. unfold kept_as. destruct (List.find _ l) as [x|] eqn:E; [|done]. apply find_some in E as [Hin E].
  apply bool_decide_eq_true in E. destruct Hn. apply in_map_iff. by exists x.
Qed.
Lemma kept_as_app l x t : kept_as (l ++ [x]) t = match kept_as l t with Some y => Some y | None => if bool_decide (id_of x = t) then Some x else None end.
Proof.
  unfold kept_as. induction l as [|y l IH]; cbn; [by destruct (bool_decide _)|]. by destruct (bool_decide (id_of y = t)).
Qed.
Lemma kept_as_filter l x t : kept_as (List.filter (other x) l) t = if bool_decide (t = id_of x) then None else kept_as l t.
Proof.
  unfold kept_as. induction l as [|y l IH]; cbn [List.filter List.find]; [by destruct (bool_decide _)|].
  unfold other at 1. destruct (bool_decide_reflect (id_of y = id_of x)) as [Ey|Ey]; cbn [negb].
  - rewrite IH. destruct (bool_decide_reflect (t = id_of x)) as [Et|Ht]; [done|].
    by rewrite (bool_decide_eq_false_2 (id_of y = t)) by congruence.
  - cbn [List.find]. rewrite IH. destruct (bool_decide_reflect (id_of y = t)) as [<-|Ht]; [|done].
    by rewrite (bool_decide_eq_false_2 (id_of y = id_of x)).
Qed.

Lemma filter_other_cons x y l :
  List.filter (other x) (y :: l) = if bool_decide (id_of y = id_of x) then List.filter (other x) l else y :: List.filter (other x) l.
Proof. unfold other at 1. cbn. by destruct (bool_decide _). Qed.

Lemma take_entry_spec l x : List.NoDup (map id_of l) ->
  match kept_as l (id_of x) with
  | Some y => take_entry (id_of x) (map entry l) = Some (names_of y, map entry (List.filter (other x) l))
  | None => take_entry (id_of x) (map entry l) = None /\ List.filter (other x) l = l
  end.
Proof.
  induction l as [|y l IH]; cbn [map]; intros Hn; [done|]. apply NoDup_cons_iff in Hn as [Hy Hn].
  rewrite filter_other_cons. unfold kept_as. cbn [List.find take_entry entry]. fold (kept_as l (id_of x)).
  destruct (bool_decide_reflect (id_of y = id_of x)) as [E|E].
  - specialize (IH Hn). rewrite (kept_as_none l) in IH by (by rewrite <- E).
    by destruct IH as [_ ->].
  - specialize (IH Hn). destruct (kept_as l (id_of x)) as [z|].
    + by rewrite IH.
    + destruct IH as [-> ->]. done.
Qed.

Lemma remove_series_active id ids m : active_tests (remove_series id ids m) = active_tests m.
Proof.
  unfold remove_series. cbn. revert m. induction ids as [|s ids IH]; intros m; [done|]. cbn [fold_left]. by rewrite IH.
Qed.

Lemma exports_retire l m : List.NoDup (map id_of l) -> exports (kept_as l) m ->
  fst (retire (map entry l) m) = map entry (last_n RETAINED_TESTS l) /\
  exports (kept_as (last_n RETAINED_TESTS l)) (snd (retire (map entry l) m)) /\
  active_tests (snd (retire (map entry l) m)) = active_tests m.
Proof.
  revert m. induction l as [|x l IH]; intros m Hn He; [done|]. cbn [map] in Hn. apply NoDup_cons_iff in Hn as [Hx Hn].
  unfold last_n. change (retire (map entry (x :: l)) m) with
    (if Nat.ltb RETAINED_TESTS (S (length (map entry l))) then retire (map entry l) (remove_series (id_of x) (names_of x) m)
     else (map entry (x :: l), m)). rewrite length_map. cbn [length].
  destruct (Nat.ltb_spec RETAINED_TESTS (S (length l))) as [H1|H1].
  - replace (S (length l) - RETAINED_TESTS)%nat with (S (length l - RETAINED_TESTS)) by lia. cbn [drop].
    assert (He' : exports (kept_as l) (remove_series (id_of x) (names_of x) m)).
    { apply (exports_ext (fun t => if bool_decide (t = id_of x) then None else kept_as (x :: l) t)).
      - intros t. unfold kept_as. cbn [List.find]. destruct (bool_decide_reflect (t = id_of x)) as [->|Ht].
        + symmetry. by apply kept_as_none.
        + by rewrite bool_decide_eq_false_2 by congruence.
      - apply exports_remove; [|done]. unfold kept_as. cbn. by rewrite bool_decide_eq_true_2. }
    destruct (IH _ Hn He') as (-> & Hr & ->). split_and!; [done|done|]. apply remove_series_active.
  - replace (S (length l) - RETAINED_TESTS)%nat with 0%nat by lia. by cbn [drop fst snd].
Qed.

Lemma last_n_sub {A} n (l : list A) x : In x (last_n n l) -> In x l.
Proof. unfold last_n. intros Hx. rewrite <- (take_drop (length l - n) l). apply in_app_iff. by right. Qed.
Lemma last_n_map {A B} (f : A -> B) n l : map f (last_n n l) = last_n n (map f l).
Proof. unfold last_n. by rewrite length_map, skipn_map. Qed.
Lemma NoDup_last_n {A} n (l : list A) : List.NoDup l -> List.NoDup (last_n n l).
Proof.
  unfold last_n. intros Hn. rewrite <- (take_drop (length l - n) l) in Hn. by apply NoDup_app_remove_l in Hn.
Qed.
Lemma NoDup_retain l x : List.NoDup (map id_of l) -> List.NoDup (map id_of (List.filter (other x) l ++ [x])).
Proof.
  intros Hn. rewrite map_app. cbn [map]. apply List.NoDup_app; [|by repeat constructor; intros []|].
  - induction l as [|y l IH]; [constructor|]. rewrite filter_other_cons. cbn [map] in Hn. apply NoDup_cons_iff in Hn as [Hy Hn].
    destruct (bool_decide _); [by apply IH|]. cbn [map]. constructor; [|by apply IH].
    contradict Hy. apply in_map_iff in Hy as (z & <- & Hz). apply filter_In in Hz as [Hz _]. by apply in_map.
  - intros t Ht [<-|[]]. apply in_map_iff in Ht as (y & Ey & Hin). apply filter_In in Hin as [_ Ho].
    unfold other in Ho. rewrite bool_decide_eq_true_2 in Ho; done.
Qed.

(** One finish: the earlier run of the test is out, its series are its own. *)
Definition consistent (l : list finished_test) (m : XfrMetrics) : Prop :=
  finished m = map entry l /\ List.NoDup (map id_of l) /\ exports (kept_as l) m.

(** The earlier run of a test taken out, with its series. *)
Definition take_out (x : finished_test) (entries : list (str * list str)) (m : XfrMetrics) : list (str * list str) * XfrMetrics :=
  match take_entry (id_of x) entries with
  | Some (streams, rest) => (rest, remove_series (id_of x) streams m)
  | None => (entries, m)
  end.
Lemma take_out_spec l m x : List.NoDup (map id_of l) -> exports (kept_as l) m ->
  exists m1, exports (kept_as (List.filter (other x) l)) m1 /\ active_tests m1 = active_tests m /\
    take_out x (map entry l) m = (map entry (List.filter (other x) l), m1).
Proof.
  intros Hn He. unfold take_out. pose proof (take_entry_spec l x Hn) as Ht.
  destruct (kept_as l (id_of x)) as [y|] eqn:Ey.
  - rewrite Ht. assert (Eid : id_of y = id_of x)
      by (apply find_some in Ey as [_ Ey]; by apply bool_decide_eq_true in Ey).
    exists (remove_series (id_of x) (names_of y) m). split_and!; [|apply remove_series_active|done].
    apply (exports_ext (fun t => if bool_decide (t = id_of y) then None else kept_as l t)).
    + intros t. by rewrite kept_as_filter, Eid.
    + rewrite <- Eid. apply exports_remove; [by rewrite Eid|done].
  - destruct Ht as [-> Hfl]. exists m. by rewrite Hfl.
Qed.

Lemma finish_consistent l m x : stream_distinct x -> consistent l m ->
  consistent (retain l x) (finish (at_ x) (stats x) (completed x) m) /\
  active_tests (finish (at_ x) (stats x) (completed x) m) = active_tests m - 1.
Proof.
  intros Hd (Hf & Hn & He). unfold finish. rewrite Hf. fold (id_of x).
  change (match take_entry _ _ with Some _ => _ | None => _ end) with (take_out x (map entry l) m).
  destruct (take_out_spec l m x Hn He) as (m1 & He1 & Ha1 & ->). set (kept := List.filter (other x) l) in *.
  set (m2 := m1 <| active_tests ::= (fun n => n - 1) |>).
  set (m3 := if completed x then m2 <| tests_total := _ |> <| test_durations ::= _ |> else m2).
  assert (H3 : exports (kept_as kept) m3 /\ active_tests m3 = active_tests m - 1).
  { split; [|unfold m3; rewrite <- Ha1; by destruct (completed x)].
    revert He1. apply exports_same; intros []; unfold m3; by destruct (completed x). }
  destruct H3 as [He3 Ha3]. clearbody m3. clear m2. change (if completed x then _ else _) with (write_series x m3).
  assert (Hk : kept_as kept (id_of x) = None) by (unfold kept; rewrite kept_as_filter; by rewrite bool_decide_eq_true_2).
  pose proof (exports_write (kept_as kept) x m3 Hk Hd He3) as He4.
  assert (He5 : exports (kept_as (kept ++ [x])) (write_series x m3)).
  { revert He4. apply exports_ext. intros t. rewrite kept_as_app. destruct (bool_decide_reflect (t = id_of x)) as [->|Ht].
    - rewrite Hk. by rewrite bool_decide_eq_true_2.
    - rewrite (bool_decide_eq_false_2 (id_of x = t)) by congruence. by destruct (kept_as kept t). }
  pose proof (NoDup_retain l x Hn) as Hn'. fold kept in Hn'.
  destruct (exports_retire (kept ++ [x]) (write_series x m3) Hn' He5) as (R1 & R2 & R3).
  replace (map entry kept ++ [(id_of x, map stream_label (streams (stats x)))]) with (map entry (kept ++ [x]))
    by (by rewrite map_app).
  destruct (retire (map entry (kept ++ [x])) (write_series x m3)) as [entries m5]. cbn [fst snd] in *. split.
  - split; [done|]. unfold retain. fold kept. split.
    + rewrite last_n_map. by apply NoDup_last_n.
    + revert R2. apply exports_same; by intros [].
  - cbn. rewrite R3. unfold write_series. destruct (update_metrics_families (at_ x) (stats x) m3) as (_ & _ & _ & _ & _ & _ & Eu).
    destruct (update_counters_families (stats x) (update_metrics (at_ x) (stats x) m3)) as (_ & _ & _ & _ & _ & _ & Ec).
    destruct (completed x); [by rewrite Ec, Eu|by rewrite Eu].
Qed.

(** How many calls there were of a kind. *)
Definition starts (calls : list metrics_call) : Z :=
  Z.of_nat (length (List.filter (fun c => match c with Start => true | _ => false end) calls)).

(** C38. The exporter holds the series of the sixteen tests that finished last and
    of no other, whatever tests run and whatever identifiers they reuse; each
    series has the value of that test's last run alone, the counters only if
    the run completed; and the gauge of active tests is the number of tests
    started and not finished. *)
Theorem retained_series_exact (calls : list metrics_call) :
  Forall stream_distinct (finished_in calls) ->
  let m := metrics_run calls new_metrics in
  (forall f t s, value (stream_vec f m) [t; s] =
     match kept_as (retained calls) t with Some x => stream_value f x s | None => None end) /\
  (forall g t, value (test_vec g m) [t] = match kept_as (retained calls) t with Some x => test_value g x | None => None end) /\
  (length (retained calls) <= RETAINED_TESTS)%nat /\ List.NoDup (map id_of (retained calls)) /\
  active_tests m = starts calls - Z.of_nat (length (finished_in calls)).
Proof.
  intros Hd m.
  assert (H1 : consistent (retained calls) m /\ active_tests m = starts calls - Z.of_nat (length (finished_in calls))).
  { unfold m. clear m. induction calls as [|c calls IH] using rev_ind.
    - split; [|done]. split; [done|]. split; [constructor|].
      split; [intros f t s; destruct f|intros g t; destruct g]; apply value_empty.
    - unfold retained, finished_in, metrics_run, starts in *. rewrite omap_app, fold_left_app, List.filter_app, !length_app in *.
      rewrite Forall_app in Hd. destruct Hd as [Hd Hc]. destruct (IH Hd) as [Hm Ha]. clear IH. rewrite fold_left_app.
      set (m := fold_left _ calls new_metrics) in *. destruct c as [|now st c]; cbn [omap list_omap fold_left List.filter length metrics_step].
      + split; [|cbn; lia]. destruct Hm as (H1 & H2 & H3). split; [done|]. split; [done|]. revert H3. apply exports_same; by intros [].
      + cbn in Hc. apply Forall_cons in Hc as [Hc _].
        destruct (finish_consistent _ m (mkFinished now st c) Hc Hm) as [F1 F2]. cbn [at_ stats completed] in F1, F2.
        unfold on_test_complete, on_test_aborted. split; [by destruct c|]. destruct c; rewrite F2; lia. }
  destruct H1 as [(_ & Hn & H1 & H2) Ha]. split_and!; try done.
  unfold retained. destruct (finished_in calls) as [|x l _] using rev_ind; [cbn; lia|]. rewrite fold_left_app. cbn [fold_left].
  unfold retain at 1, last_n. rewrite length_drop. lia.
Qed.
End exporter.

(** ** Scrapes *)
Definition MAX_CONNECTIONS : Z := 64.

Inductive log := Warned | Debugged.
(** Connections being served, whether the loop holds a permit for the next
    one, whether the last accept failed, and what was logged. *)
Record acceptor := mkAcceptor { served : Z; permit : bool; failing : bool; logged : list log }.
Inductive accept_event := PermitFree | Accepted | AcceptFailed | ConnectionDone.

Definition accept_step (a : acceptor) (e : accept_event) : acceptor :=
  match e with
  | PermitFree => if negb (permit a) && (served a <? MAX_CONNECTIONS)
                  then mkAcceptor (served a) true (failing a) (logged a) else a
  | Accepted => if permit a then mkAcceptor (served a + 1) false false (logged a) else a
  | AcceptFailed =>
    if permit a then mkAcceptor (served a) false true (logged a ++ [if failing a then Debugged else Warned]) else a
  | ConnectionDone => if 0 <? served a then mkAcceptor (served a - 1) (permit a) (failing a) (logged a) else a
  end.

(** Status and body; the exposition is the crate's text. *)
Definition handle_request (exposition : str) (path : str) : Z * str :=
  if str_eqb path (txt "/metrics") then (200, exposition)
  else if str_eqb path (txt "/health") then (200, txt "OK")
  else (404, txt "Not Found").

Definition idle_acceptor : acceptor := mkAcceptor 0 false false [].
(** At most 64 connections are served at once, the one the loop waits for
    counted, whatever the order of accepts, errors and ends. *)
Lemma accept_bounds events : let a := fold_left accept_step events idle_acceptor in
  0 <= served a /\ served a + (if permit a then 1 else 0) <= MAX_CONNECTIONS.
Proof.
  cbv zeta. unfold MAX_CONNECTIONS. induction events as [|e events IH] using rev_ind; [cbn; lia|]. rewrite fold_left_app. cbn [fold_left].
  destruct (fold_left accept_step events idle_acceptor) as [n p f l]. cbn [served permit] in IH.
  destruct e, p; cbn [accept_step permit served negb andb]; unfold MAX_CONNECTIONS;
    destruct (Z.ltb_spec n 64), (Z.ltb_spec 0 n); cbn [served permit]; lia.
Qed.

(** ** A registry of functions *)
#[export, refine] Instance function_vec : MetricVec (labels -> option f64) := {
  empty_vec := fun _ => None; value := fun v l => v l;
  set_value := fun l x v l' => if bool_decide (l = l') then Some x else v l';
  inc_value := fun l x v l' =>
    if bool_decide (l = l') then Some (fadd (match v l with Some y => y | None => zero end) x) else v l';
  remove_label_values := fun l v l' => if bool_decide (l = l') then None else v l' }.
Proof. all: done. Defined.

(** The streams of a new test have different numbers. *)
Lemma new_streams_distinct id n now : List.NoDup (map stream_label (streams (TestStats.new id n now))).
Proof.
  unfold TestStats.new. cbn [streams]. rewrite map_map. apply Finite.Injective_map_NoDup_in; [|apply seq_NoDup].
  intros i j _ _ E. change (dec (Z.of_nat i) = dec (Z.of_nat j)) in E.
  pose proof (dec_parse (Z.max (Z.of_nat i) (Z.of_nat j)) (Z.of_nat i) ltac:(lia)) as Hi.
  pose proof (dec_parse (Z.max (Z.of_nat i) (Z.of_nat j)) (Z.of_nat j) ltac:(lia)) as Hj. rewrite E, Hj in Hi. injection Hi. lia.
Qed.

Definition demo_calls : list metrics_call :=
  [Start; Start; Finished 2000000000 (TestStats.new (txt "a") 2 0) true;
   Finished 3000000000 (TestStats.new (txt "b") 1 0) false; Start; Finished 5000000000 (TestStats.new (txt "a") 1 1000000000) false].
Lemma retained_series_exact_witness :
  let m : XfrMetrics (V := labels -> option f64) := metrics_run demo_calls new_metrics in
  active_tests m = 0 /\ map id_of (retained demo_calls) = [txt "b"; txt "a"] /\
  value (stream_throughput_mbps m) [txt "a"; txt "0"] = Some zero /\ value (stream_throughput_mbps m) [txt "a"; txt "1"] = None.
Proof.
  assert (Hd : Forall stream_distinct (finished_in demo_calls))
    by (repeat (constructor; [apply new_streams_distinct|]); constructor).
  destruct (retained_series_exact (V := labels -> option f64) demo_calls Hd) as (H1 & _ & _ & _ & H2).
  split_and!; [exact H2|by vm_compute|..].
  - etransitivity; [exact (H1 Throughput (txt "a") (txt "0"))|by vm_compute].
  - etransitivity; [exact (H1 Throughput (txt "a") (txt "1"))|by vm_compute].
Defined.
