(* ===== verification/Scripted.v ===== *)
(** * The client without the terminal application (src/src/main.rs
    run_client_plain)

    The task that prints a row per report interval, as a step per progress
    update, and the ending: the result or the fallback summary, where it is
    printed and saved and the exit status.  The clock, what writing to standard
    output gives, serde_json's printing and the text of a calendar time (the
    jiff crate) are parameters.  Times are nanoseconds. *)
From coqutil Require Import Datatypes.RecordSettersUsingExistingGetters.
From Stdlib Require Import SpecFloat.
From S2P Require Import Prelude App.
From S2P Require Import Bytes Text Float Fmt Protocol Stats Settings Cli Report.

Record OutputOptions := mkOutputOptions {
  opt_json : bool; json_stream : bool; csv : bool; opt_quiet : bool;
  opt_omit_secs : Z; opt_interval_secs : f64; timestamp_format : TimestampFormat.t
}.

(** ** Time stamps *)
Section timestamps.
Variable jiff : Z -> str.

(** [format]: the wall clock when the test started is relative to the epoch. *)
Definition format (self : TimestampFormat.t) (test_start now system_start : Z) : str :=
  let elapsed := saturating_sub now test_start in
  match self with
  | TimestampFormat.Relative => fixed 3 (as_secs_f64 elapsed)
  | TimestampFormat.Iso8601 => jiff (system_start + elapsed)
  | TimestampFormat.Unix => fixed 3 (as_secs_f64 (Z.max 0 (system_start + elapsed)))
  end.
End timestamps.

(** ** The printing task *)

(** [Duration::from_secs_f64] of a number it accepts. *)
Definition from_secs_f64 (x : f64) : Z := match x with S754_finite false m e => scaled 9 m e | _ => 0 end.
Definition mul_f64 (d : Z) (rhs : f64) : Z := from_secs_f64 (fmul rhs (as_secs_f64 d)).

(** [x.floor() as i64]. *)
Definition floor_i64 (x : f64) : Z :=
  match x with
  | S754_nan => 0
  | S754_zero _ => 0
  | S754_infinity s => if s then - 2 ^ 63 else 2 ^ 63 - 1
  | S754_finite s m e =>
    Z.max (- 2 ^ 63) (Z.min (2 ^ 63 - 1) (Z.shiftl (if s then - Z.pos m else Z.pos m) e))
  end.

Record printer := mkPrinter {
  last_printed_interval : Z; last_retransmits : Z;
  cached_udp_progress : option UdpIntervalProgress.t;
  cached_udp_send : option UdpDirectionProgress; cached_udp_recv : option UdpDirectionProgress;
  last_printed_cumulative_lost : Z;
  last_row_at : Z; last_feedback_row_at : Z;
  cumulative_bytes : Z; cumulative_elapsed_ms : Z
}.
Definition first_printer (now : Z) : printer := mkPrinter (-1) 0 None None None 0 now now 0 0.

(** What a line is printed from. *)
Inductive row :=
  | IntervalRow (i : interval_line)
  | Feedback (timestamp : str) (elapsed_secs : f64) (progress : UdpIntervalProgress.t)
  | DirectionalFeedback (timestamp : str) (elapsed_secs : f64) (udp_send udp_recv : option UdpDirectionProgress).

(** A write to standard output, flushed. *)
Inductive write_result := Written | PipeClosed | WriteFailed.
(** A pass of the task goes on, with the row it printed; ends the process with
    status 0; or panics, which ends the task. *)
Inductive step_outcome := Goes (s : printer) (out : option (row * str)) | ExitsQuietly | Panics (s : printer).

Section printing.
Variable to_string : json -> option str.
(** [timestamp_format.format(test_start, now, test_start_system)]. *)
Variable stamp : Z -> str.
Variable opts : OutputOptions.

Definition quiet : bool := opt_quiet opts || opt_json opts.
Definition row_period : Z := from_secs_f64 (fmax (opt_interval_secs opts) (of_int 1)).
Definition elapsed_secs (p : TestProgress) : f64 := fdiv (of_int (tp_elapsed_ms p)) (of_int 1000).
Definition omitted (p : TestProgress) : bool := SFleb (elapsed_secs p) (of_int (opt_omit_secs opts)).
Definition interval_of (p : TestProgress) : Z := floor_i64 (fdiv (elapsed_secs p) (opt_interval_secs opts)).

(** The freshest quality, from either channel: the update as it is printed. *)
Definition cache_progress (p : TestProgress) (s : printer)
    : printer * (option UdpDirectionProgress * option UdpDirectionProgress) :=
  let '(cached_send, sent) := cache_udp_direction (cached_udp_send s) (tp_udp_send p) in
  let '(cached_recv, recv) := cache_udp_direction (cached_udp_recv s) (tp_udp_recv p) in
  let directions := if tp_udp_feedback_only p then (sent, recv) else (cached_send, cached_recv) in
  let cum := match tp_udp_progress p with
             | Some m => if stale m (cached_udp_progress s) then cached_udp_progress s else Some m
             | None => cached_udp_progress s
             end in
  (s <| cached_udp_send := cached_send |> <| cached_udp_recv := cached_recv |> <| cached_udp_progress := cum |>,
   directions).

(** Rows have stalled for almost two periods, and feedback rows for one. *)
Definition stalled (now : Z) (p : TestProgress) (s : printer) : bool :=
  (mul_f64 row_period (of_decimal false 19 (-1)) <=? saturating_sub now (last_row_at s))
  && (mul_f64 row_period (of_decimal false 9 (-1)) <=? saturating_sub now (last_feedback_row_at s))
  && fgtb (elapsed_secs p) (of_int (opt_omit_secs opts)).

Definition feedback_row (now : Z) (p : TestProgress) (udp_send udp_recv : option UdpDirectionProgress) (s : printer)
    : option row :=
  let directional := is_some udp_send || is_some udp_recv in
  if negb quiet && negb (csv opts) && (directional || is_some (cached_udp_progress s)) && stalled now p s then
    if directional then Some (DirectionalFeedback (stamp now) (elapsed_secs p) udp_send udp_recv)
    else option_map (Feedback (stamp now) (elapsed_secs p)) (cached_udp_progress s)
  else None.

Definition average_jitter (p : TestProgress) : option f64 :=
  match omap si_jitter_ms (tp_streams p) with
  | [] => None
  | jitters => Some (fdiv (fsum jitters) (of_int (Z.of_nat (length jitters))))
  end.

(** The loss since the last row, or of the streams where no cumulative loss is
    known. *)
Definition lost_since (p : TestProgress) (s : printer) : option Z * printer :=
  match cached_udp_progress s with
  | Some cum =>
    (Some (saturating_sub (UdpIntervalProgress.packets_lost cum) (last_printed_cumulative_lost s)),
     s <| last_printed_cumulative_lost := UdpIntervalProgress.packets_lost cum |>)
  | None =>
    (if existsb (fun i => is_some (si_lost i)) (tp_streams p)
     then Some (sum_u64 (omap si_lost (tp_streams p))) else None, s)
  end.

(** A full interval: totals, then the row if one is due. *)
Definition full_interval (now : Z) (p : TestProgress) (udp_send udp_recv : option UdpDirectionProgress) (s : printer)
    : printer * option row :=
  let s := s <| cumulative_bytes ::= fun b => wrapping_add 64 b (tp_total_bytes p) |>
             <| cumulative_elapsed_ms := tp_elapsed_ms p |> in
  let '(retransmits, last) := interval_retransmits p (last_retransmits s) in
  let s := s <| last_retransmits := last |> in
  if omitted p then
    (match cached_udp_progress s with
     | Some cum => s <| last_printed_cumulative_lost := UdpIntervalProgress.packets_lost cum |>
     | None => s
     end, None)
  else if quiet then (s, None)
  else if interval_of p <=? last_printed_interval s then (s, None)
  else
    let s := s <| last_printed_interval := interval_of p |> in
    let '(lost, s) := lost_since p s in
    (s, Some (IntervalRow
      (mkIntervalLine (stamp now) (elapsed_secs p) (tp_throughput_mbps p) (tp_total_bytes p) retransmits
         (average_jitter p) lost (tp_rtt_us p) (tp_cwnd p) (tp_bytes_sent p) (tp_bytes_received p)
         (tp_send_mbps p) (tp_recv_mbps p) udp_send udp_recv))).

(** One update up to the row it is due. *)
Definition prepare (now : Z) (p : TestProgress) (s : printer) : printer * option row :=
  let '(s, (udp_send, udp_recv)) := cache_progress p s in
  if tp_udp_feedback_only p then (s, feedback_row now p udp_send udp_recv s)
  else full_interval now p udp_send udp_recv s.

(** The text of a row; [None]: serde_json failed and the row is dropped. *)
Definition render (r : row) : option str :=
  let line j := option_map (fun s => s ++ [10]) (to_string j) in
  match r with
  | IntervalRow i =>
    if json_stream opts then line (interval_json i)
    else if csv opts then Some (output_interval_csv i)
    else Some (output_interval_plain_with_udp_directions i)
  | DirectionalFeedback t e sent recv =>
    if json_stream opts then line (directional_feedback_json t e sent recv)
    else Some (output_directional_feedback_plain t sent recv)
  | Feedback t e cum =>
    if json_stream opts
    then line (feedback_json t e (UdpIntervalProgress.packets_received cum) (UdpIntervalProgress.packets_lost cum)
                 (UdpIntervalProgress.lost_percent cum))
    else Some (output_feedback_plain t (UdpIntervalProgress.packets_lost cum) (UdpIntervalProgress.lost_percent cum))
  end.

(** A feedback row keeps the time it was made, an interval row the time after
    it was written. *)
Definition row_written (now after : Z) (r : row) (s : printer) : printer :=
  match r with
  | IntervalRow _ => s <| last_row_at := after |>
  | _ => s <| last_feedback_row_at := now |>
  end.

(** [print_stdout]: what follows the write, or ends with it. *)
Definition print_stdout {A} (w : write_result) (next exits panics : A) : A :=
  match w with Written => next | PipeClosed => exits | WriteFailed => panics end.

(** The line before the first row. *)
Definition opening_line : option str := if csv opts && negb (opt_quiet opts) then Some csv_interval_header else None.

(** One pass of the task: the clock before and after the write. *)
Definition print_step (now after : Z) (w : write_result) (p : TestProgress) (s : printer) : step_outcome :=
  let '(s, due) := prepare now p s in
  match due ≫= fun r => option_map (pair r) (render r) with
  | Some (r, line) =>
    print_stdout w (Goes (row_written now after r s) (Some (r, line))) ExitsQuietly (Panics s)
  | None => Goes s None
  end.
End printing.

(** ** A run of the task *)

(** An update, the clock before and after its row is written, and what the
    write gives, if there is one. *)
Record received := mkReceived { at_ : Z; after_ : Z; write_ : write_result; update_ : TestProgress }.

(** The channel is drained; a write failed and the task is gone; the reader of
    standard output is gone and so is the process. *)
Inductive task_end := Drained | Died | Exited.

Section run.
Variable to_string : json -> option str.
Variable stamp : Z -> str.
Variable opts : OutputOptions.

Fixpoint print_run (updates : list received) (s : printer) : task_end * printer * list (row * str) :=
  match updates with
  | [] => (Drained, s, [])
  | u :: updates =>
    match print_step to_string stamp opts (at_ u) (after_ u) (write_ u) (update_ u) s with
    | Goes s out => let '(e, s, outs) := print_run updates s in (e, s, option_list out ++ outs)
    | ExitsQuietly => (Exited, s, [])
    | Panics s => (Died, s, [])
    end
  end.
End run.

(** ** The ending *)
Section ending.
Context {path : Type}.
Variables (line : json -> option str) (stamp : Z -> str).
Variable to_string : TestResult -> option str.
Variable to_string_pretty : TestResult -> option str.

(** [build_fallback_result]. *)
Definition build_fallback_result (cumulative_bytes elapsed_ms : Z) : TestResult :=
  let throughput_mbps :=
    if 0 <? elapsed_ms
    then fdiv (fdiv (fmul (of_int cumulative_bytes) (of_int 8)) (fdiv (of_int elapsed_ms) (of_int 1000)))
           (of_int 1000000)
    else zero in
  mkTestResult [] cumulative_bytes elapsed_ms throughput_mbps [] None None None None None None None None None None None
    None.

(** What ends the wait after Ctrl-C, [None] being a task that failed or five
    seconds without an answer. *)
Inductive stopping := Stopped (result : option TestResult) | SecondCtrlC.
Inductive first_end := TestEnds (result : option TestResult) | CtrlC (s : stopping).

Inductive effect :=
  | Interrupted | Cancel | AbortTest | NoData | Partial
  | Line (text : str) | Stdout (text : str) | SaveText (p : path) (text : str) | Saved (p : path) | QueueMetrics (r : TestResult)
  | FinishMetrics.
Inductive exit := ExitCode (code : Z) | Returns (failed : bool).

(** The result and whether it is only the client's own count. *)
Definition await_result (bytes elapsed_ms : Z) (e : first_end) : list effect * (exit + TestResult * bool) :=
  match e with
  | TestEnds (Some r) => ([], inr (r, false))
  | TestEnds None => ([], inl (Returns true))
  | CtrlC s =>
    let '(effects, r) :=
      match s with
      | SecondCtrlC => ([], inl (ExitCode 130))
      | Stopped (Some r) => ([], inr (r, false))
      | Stopped None =>
        if bytes =? 0 then ([AbortTest; NoData], inl (ExitCode 130))
        else ([AbortTest], inr (build_fallback_result bytes elapsed_ms, true))
      end in
    (Interrupted :: Cancel :: effects, r)
  end.

Definition result_text (opts : OutputOptions) (mptcp : bool) (r : TestResult) : option str :=
  if json_stream opts then to_string r
  else if opt_json opts then to_string_pretty r
  else if csv opts then Some (output_csv r)
  else Some (output_plain r mptcp).

(** What [persistence] writes for [--output], and whether it could. *)
Definition save_result (opts : OutputOptions) (text : str) (r : TestResult) (p : path) (saved : bool)
    : list effect * bool :=
  match if csv opts then Some text else to_string_pretty r with
  | Some contents => (SaveText p contents :: (if saved then [Saved p] else []), saved)
  | None => ([], false)
  end.

(** From the result to the end of the process. *)
Definition finish (opts : OutputOptions) (mptcp : bool) (output : option path) (w : write_result) (saved : bool)
    (r : TestResult) (interrupted : bool) : list effect * exit :=
  let warning := if interrupted then [Partial] else [] in
  match result_text opts mptcp r with
  | None => (warning, Returns true)
  | Some text =>
    let shown := warning ++ [Stdout (text ++ [10])] in
    match w with
    | WriteFailed => (shown, Returns true)
    | _ =>
      let '(writes, fine) := match output with
                             | Some p => if interrupted then ([], true) else save_result opts text r p saved
                             | None => ([], true)
                             end in
      if negb fine then (shown ++ writes, Returns true)
      else if interrupted then (shown ++ writes, ExitCode 130)
      else (shown ++ writes ++ [QueueMetrics r; FinishMetrics], Returns false)
    end
  end.

Definition lines (outs : list (row * str)) : list effect := map (fun o => Line (snd o)) outs.
(** Once there is a result: what is still queued is printed, then the end. *)
Definition conclude (opts : OutputOptions) (mptcp : bool) (output : option path) (w : write_result) (saved : bool)
    (effects : list effect) (drained : task_end * list (row * str)) (r : TestResult) (interrupted : bool)
    : list effect * exit :=
  let '(end2, outs) := drained in
  match end2 with
  | Exited => (effects ++ lines outs, ExitCode 0)
  | _ =>
    let '(effects', status) := finish opts mptcp output w saved r interrupted in
    (effects ++ lines outs ++ effects', status)
  end.

(** From the first update on: [before] is what the task has received when the
    wait for the test is over, where the counters are read, and [queued] what it
    still takes from the channel, which is waited for; a task that panicked
    takes nothing more. *)
Definition client_ends (opts : OutputOptions) (mptcp : bool) (output : option path) (w : write_result)
    (saved : bool) (now : Z) (before queued : list received) (e : first_end) : list effect * exit :=
  let '(end1, s, outs) := print_run line stamp opts before (first_printer now) in
  match end1 with
  | Exited => (lines outs, ExitCode 0)
  | _ =>
    let '(effects, r) := await_result (cumulative_bytes s) (cumulative_elapsed_ms s) e in
    match r with
    | inl status => (lines outs ++ effects, status)
    | inr (r, interrupted) =>
      let drained := match end1 with
                     | Drained => let '(end2, _, outs2) := print_run line stamp opts queued s in (end2, outs2)
                     | _ => (end1, [])
                     end in
      conclude opts mptcp output w saved (lines outs ++ effects) drained r interrupted
    end
  end.
(** The header comes first; where it cannot be written the program panics. *)
Definition run_client_plain (opts : OutputOptions) (mptcp : bool) (output : option path) (header w : write_result)
    (saved : bool) (now : Z) (before queued : list received) (e : first_end) : list effect * exit :=
  let run := client_ends opts mptcp output w saved now before queued e in
  match opening_line opts with
  | None => run
  | Some text =>
    print_stdout header (let '(effects, status) := run in (Line text :: effects, status)) ([], ExitCode 0)
      ([], ExitCode 101)
  end.
End ending.

(** ** What the rows account for *)
Definition interval_rows (rows : list row) : list interval_line :=
  omap (fun r => match r with IntervalRow i => Some i | _ => None end) rows.
(** The byte count an update adds to the fallback summary. *)
Definition counted (p : TestProgress) : Z := if tp_udp_feedback_only p then 0 else tp_total_bytes p.


(** What a run should print, told from the updates alone.  The reports that
    matter: one omitted at the start, and one that gets a row, the first of a
    later interval; each with the cumulative loss then known. *)
Inductive mark := Omitted (known : option Z) | Printed (known : option Z).
Definition known (m : mark) : option Z := match m with Omitted k | Printed k => k end.


Section accounts.
Context (to_string : json -> option str) (stamp : Z -> str) (opts : OutputOptions).
Notation prepare := (prepare stamp opts).
Notation print_run := (print_run to_string stamp opts).
Notation render := (render to_string opts).

Ltac step_prepare :=
  unfold Scripted.prepare, cache_progress, full_interval, lost_since;
  repeat (destruct (cache_udp_direction _ _)); destruct (interval_retransmits _ _);
  repeat case_match; cbn in *; simplify_eq; cbn in *; unfold RecordSettersUsingExistingGetters.const in *.


Lemma prepare_bytes now p s : fits 64 (cumulative_bytes s) ->
  cumulative_bytes (prepare now p s).1 = wrap 64 (cumulative_bytes s + counted p).
Proof.
  intros Hs. unfold counted. destruct (tp_udp_feedback_only p) eqn:E.
  - rewrite Z.add_0_r, wrap_small by done. step_prepare; done.
  - step_prepare; done.
Qed.










Lemma run_bytes updates s : fits 64 (cumulative_bytes s) ->
  let '(e, s', _) := print_run updates s in
  e <> Exited ->
  exists taken rest, updates = taken ++ rest /\ (e = Drained -> rest = []) /\
    cumulative_bytes s' = wrap 64 (cumulative_bytes s + zsum (map (fun u => counted (update_ u)) taken)).
Proof.
  revert s. induction updates as [|u updates IH]; intros s Hs; cbn [Scripted.print_run].
  { exists [], []. cbn. by rewrite Z.add_0_r, wrap_small. }
  pose proof (prepare_bytes (at_ u) (update_ u) s Hs) as Hb. unfold print_step.
  destruct (prepare _ _ s) as [s' due]. cbn [fst] in Hb.
  assert (Hgo : forall s1 out, cumulative_bytes s1 = cumulative_bytes s' ->
    let '(e, s2, _) := (let '(e, s, outs) := print_run updates s1 in (e, s, option_list out ++ outs)) in
    e <> Exited -> exists taken rest, u :: updates = taken ++ rest /\ (e = Drained -> rest = []) /\
      cumulative_bytes s2 = wrap 64 (cumulative_bytes s + zsum (map (fun u => counted (update_ u)) taken))).
  { intros s1 out E. specialize (IH s1). rewrite E, Hb in IH. specialize (IH (wrap_fits 64 _ ltac:(lia))).
    destruct (print_run updates s1) as [[e s2] outs]. intros He. destruct (IH He) as (taken & rest & -> & Hr & Hc).
    exists (u :: taken), rest. split_and!; [done|done|]. rewrite Hc. cbn [map zsum]. unfold wrap.
    rewrite Z.add_mod_idemp_l by lia. f_equal. lia. }
  destruct (due ≫= _) as [[r line]|]; [|exact (Hgo s' None eq_refl)].
  destruct (write_ u); cbn [print_stdout].
  - apply (Hgo _ (Some (r, line))). by destruct r.
  - done.
  - intros _. exists [u], updates. split_and!; [done|done|]. rewrite Hb. cbn [map zsum]. by rewrite Z.add_0_r.
Qed.

End accounts.


Definition demo_update (ms lost got : Z) (feedback : bool) : received :=
  mkReceived (ms * 1000000) (ms * 1000000) Written
    (mkTestProgress ms (if feedback then 0 else 1000) zero [] None None None None None None None
       (Some (UdpIntervalProgress.mk got lost)) feedback None None).
Definition demo_options : OutputOptions :=
  mkOutputOptions false false true false 1 (of_int 2) TimestampFormat.Relative.
Notation demo_run updates := (print_run (fun _ => Some []) dec demo_options updates (first_printer 0)).

(** A late datagram repairs a gap: the cumulative loss falls and rises again,
    and the rows print the second rise as well as the first, more in all than
    was ever lost. *)
Lemma repaired_gap_counted_twice :
  let '(e, s, outs) := demo_run [demo_update 2000 6 20 false; demo_update 4000 2 30 false; demo_update 6000 6 40 false] in
  map il_lost (interval_rows (map fst outs)) = [Some 6; Some 0; Some 4] /\ last_printed_cumulative_lost s = 6.
Proof. vm_compute. split; reflexivity. Qed.

(** ** The ending *)
(** The result the server sent, whichever way the wait for it ended. *)
Definition server_result (e : first_end) : option TestResult :=
  match e with TestEnds r => r | CtrlC (Stopped r) => r | CtrlC SecondCtrlC => None end.
(** What standard output shows and what the result file holds. *)
Definition shown {path} (effects : list (@effect path)) : list str :=
  omap (fun e => match e with Stdout t => Some t | _ => None end) effects.
Definition files {path} (effects : list (@effect path)) : list (path * str) :=
  omap (fun e => match e with SaveText p t => Some (p, t) | _ => None end) effects.

Lemma finish_interrupted {path} compact pretty opts mptcp (output : option path) w saved r :
  let '(effects, status) := finish compact pretty opts mptcp output w saved r true in
  files effects = [] /\ status <> Returns false /\
  forall text, result_text compact pretty opts mptcp r = Some text -> w <> WriteFailed ->
  shown effects = [text ++ [10]] /\ status = ExitCode 130.
Proof.
  unfold finish. destruct (result_text _ _ _ _ _) as [text|]; [|done].
  destruct w, output; cbn; split_and!; try done; by intros ? [= ->].
Qed.

Lemma finish_server {path} compact pretty opts mptcp (output : option path) w saved r text :
  result_text compact pretty opts mptcp r = Some text -> w <> WriteFailed ->
  let '(effects, status) := finish compact pretty opts mptcp output w saved r false in
  shown effects = [text ++ [10]] /\
  (forall p contents, output = Some p -> (if csv opts then Some text else pretty r) = Some contents -> saved = true ->
   files effects = [(p, contents)] /\ status = Returns false).
Proof.
  intros E Hw. unfold finish, save_result. rewrite E.
  destruct w, output as [p|]; try done; try (cbn; by split);
    destruct (if csv opts then _ else _), saved; cbn; (split; [done|]); intros; simplify_eq; done.
Qed.

(** The reader of standard output was gone, or the write failed, before the
    result: at the header, in the task's rows before the wait was over, or in
    those still queued. *)
Definition header_fails (opts : OutputOptions) (header : write_result) : bool :=
  is_some (opening_line opts) && negb match header with Written => true | _ => false end.
Definition exited (e : task_end) : bool := match e with Exited => true | _ => false end.
Definition nothing {path} (effects : list (@effect path)) : Prop := shown effects = [] /\ files effects = [].

Lemma shown_app {path} (a b : list (@effect path)) :
  shown (a ++ b) = shown a ++ shown b /\ files (a ++ b) = files a ++ files b.
Proof. unfold shown, files. by rewrite !omap_app. Qed.
Lemma lines_show_nothing {path} (outs : list (row * str)) : nothing (lines (path := path) outs).
Proof. unfold nothing. by induction outs as [|o outs [IH1 IH2]]. Qed.
Lemma nothing_app {path} (a b : list (@effect path)) : nothing a -> nothing b -> nothing (a ++ b).
Proof. unfold nothing. destruct (shown_app a b) as [-> ->]. by intros [-> ->] [-> ->]. Qed.

Lemma conclude_spec {path} compact pretty opts mptcp (output : option path) w saved effects drained r interrupted :
  nothing effects ->
  let '(effects', status) := finish compact pretty opts mptcp output w saved r interrupted in
  let '(all, status') := conclude compact pretty opts mptcp output w saved effects drained r interrupted in
  if exited drained.1 then nothing all /\ status' = ExitCode 0
  else shown all = shown effects' /\ files all = files effects' /\ status' = status.
Proof.
  intros Hn. unfold conclude. destruct drained as [end2 outs].
  pose proof (lines_show_nothing (path := path) outs) as Hl.
  destruct (finish _ _ _ _ _ _ _ _ _) as [effects' status].
  assert (Hall : shown (effects ++ lines outs ++ effects') = shown effects' /\
                 files (effects ++ lines outs ++ effects') = files effects').
  { destruct (shown_app effects (lines outs ++ effects')) as [-> ->], (shown_app (lines outs) effects') as [-> ->].
    destruct Hn as [-> ->], Hl as [-> ->]. done. }
  destruct end2; cbn; [by destruct Hall..|]. split; [by apply nothing_app|done].
Qed.

Lemma await_shows_nothing {path} bytes elapsed (e : first_end) : nothing (await_result (path := path) bytes elapsed e).1.
Proof. destruct e as [[]|[[]|]]; cbn; try done. by destruct (bytes =? 0). Qed.

(** The end of a run, given its printing task's. *)
Section end_spec.
Context {path : Type} (compact pretty : TestResult -> option str) (opts : OutputOptions) (mptcp : bool)
  (output : option path) (w : write_result) (saved : bool).

Definition ends_well (bytes elapsed : Z) (closed : bool) (e : first_end) (effects : list (@effect path)) (status : exit)
    : Prop :=
  match server_result e with
  | Some r =>
    if closed then nothing effects /\ status = ExitCode 0
    else
      forall text, result_text compact pretty opts mptcp r = Some text -> w <> WriteFailed ->
      shown effects = [text ++ [10]] /\
      (forall p contents, output = Some p -> (if csv opts then Some text else pretty r) = Some contents -> saved = true ->
       files effects = [(p, contents)] /\ status = Returns false)
  | None =>
    files effects = [] /\ status <> Returns false /\
    (e = CtrlC (Stopped None) ->
     if bytes =? 0 then shown effects = [] /\ status = ExitCode 130
     else if closed then shown effects = [] /\ status = ExitCode 0
     else forall text, result_text compact pretty opts mptcp (build_fallback_result bytes elapsed) = Some text ->
          w <> WriteFailed -> shown effects = [text ++ [10]] /\ status = ExitCode 130)
  end.

Lemma concludes_well bytes elapsed e outs drained :
  let '(all, status) :=
    (let '(effects, r) := await_result (path := path) bytes elapsed e in
     match r with
     | inl status => (lines outs ++ effects, status)
     | inr (r, interrupted) => conclude compact pretty opts mptcp output w saved (lines outs ++ effects) drained r interrupted
     end) in
  ends_well bytes elapsed (exited drained.1) e all status.
Proof.
  pose proof (await_shows_nothing (path := path) bytes elapsed e) as Ha.
  pose proof (lines_show_nothing (path := path) outs) as Hl. unfold ends_well.
  destruct (await_result bytes elapsed e) as [effects r] eqn:E. cbn [fst] in Ha.
  pose proof (nothing_app _ _ Hl Ha) as Hn. destruct r as [status|[r interrupted]].
  - destruct Hn as [H1 H2]. destruct e as [[]|[[]|]]; cbn in E |- *; simplify_eq; rewrite ?H1, ?H2; try done.
    destruct (bytes =? 0); simplify_eq; by rewrite ?H1, ?H2.
  - pose proof (conclude_spec compact pretty opts mptcp output w saved _ drained r interrupted Hn) as Hc.
    pose proof (finish_server compact pretty opts mptcp output w saved r) as Hs.
    pose proof (finish_interrupted compact pretty opts mptcp output w saved r) as Hi.
    destruct (conclude _ _ _ _ _ _ _ _ _ _ _) as [all status].
    assert (Hcase : server_result e = Some r /\ interrupted = false \/
      e = CtrlC (Stopped None) /\ (bytes =? 0) = false /\ r = build_fallback_result bytes elapsed /\ interrupted = true).
    { destruct e as [[]|[[]|]]; cbn in E; simplify_eq; auto. destruct (bytes =? 0); simplify_eq; auto. }
    destruct Hcase as [[-> ->]|(-> & -> & -> & ->)]; cbn [server_result].
    + destruct (finish _ _ _ _ _ _ _ _ _) as [effects' status']. destruct (exited drained.1); [done|].
      destruct Hc as (-> & -> & ->). exact Hs.
    + destruct (finish _ _ _ _ _ _ _ _ _) as [effects' status']. destruct Hi as (Hf & Hst & Hi).
      destruct (exited drained.1); [destruct Hc as [[H1 H2] ->]; by split_and!|]. destruct Hc as (-> & -> & ->).
      by split_and!.
Qed.
End end_spec.

(** C36. How a run without the terminal application ends.  A reader of standard
    output that goes away while rows are still printed -- queued ones included,
    which are waited for -- ends the process with status 0, nothing shown and
    nothing saved; a row that cannot be written for another reason only ends the
    printing.  Otherwise the server's result is shown in the chosen format and
    saved, even where standard output has been closed since, and the process
    succeeds.  Without one nothing is ever saved: an interrupted test that moved
    data shows a summary of exactly the bytes of the full reports (modulo 2^64)
    that the printing task had taken by then, quiet and omitted ones included and
    queued ones not, with exit status 130; one that moved none shows nothing. *)
Theorem scripted_ending_exact {path} (line : json -> option str) (stamp : Z -> str) (compact pretty : TestResult -> option str)
    (opts : OutputOptions) (mptcp : bool) (output : option path) (header w : write_result) (saved : bool) (now : Z)
    (before queued : list received) (e : first_end) :
  let '(end1, s, _) := print_run line stamp opts before (first_printer now) in
  let drained := match end1 with Drained => (print_run line stamp opts queued s).1.1 | _ => end1 end in
  let '(effects, status) := run_client_plain line stamp compact pretty opts mptcp output header w saved now before queued e in
  if header_fails opts header then
    nothing effects /\ status = ExitCode (match header with PipeClosed => 0 | _ => 101 end)
  else if exited end1 then nothing effects /\ status = ExitCode 0
  else
    exists taken rest, before = taken ++ rest /\ (end1 = Drained -> rest = []) /\
    let bytes := wrap 64 (zsum (map (fun u => counted (update_ u)) taken)) in
    match server_result e with
    | Some r =>
      if exited drained then nothing effects /\ status = ExitCode 0
      else
        forall text, result_text compact pretty opts mptcp r = Some text -> w <> WriteFailed ->
        shown effects = [text ++ [10]] /\
        (forall p contents, output = Some p -> (if csv opts then Some text else pretty r) = Some contents -> saved = true ->
         files effects = [(p, contents)] /\ status = Returns false)
    | None =>
      files effects = [] /\ status <> Returns false /\
      (e = CtrlC (Stopped None) ->
       if bytes =? 0 then shown effects = [] /\ status = ExitCode 130
       else if exited drained then shown effects = [] /\ status = ExitCode 0
       else forall text, result_text compact pretty opts mptcp (build_fallback_result bytes (cumulative_elapsed_ms s)) = Some text ->
            w <> WriteFailed -> shown effects = [text ++ [10]] /\ status = ExitCode 130)
    end.
Proof.
  pose proof (run_bytes line stamp opts before (first_printer now) ltac:(by cbn)) as Hb.
  destruct (print_run line stamp opts before (first_printer now)) as [[end1 s] outs1] eqn:E1.
  set (drained := match end1 with Drained => _ | _ => _ end). cbv zeta. unfold run_client_plain, header_fails.
  assert (Hends : let '(effects, status) := client_ends line stamp compact pretty opts mptcp output w saved now before queued e in
    if exited end1 then nothing effects /\ status = ExitCode 0
    else ends_well compact pretty opts mptcp output w saved (cumulative_bytes s) (cumulative_elapsed_ms s) (exited drained) e
           effects status).
  { unfold client_ends. rewrite E1.
    assert (Hd : exists outs2, (match end1 with
        | Drained => let '(end2, _, outs2) := print_run line stamp opts queued s in (end2, outs2)
        | _ => (end1, []) end) = (drained, outs2)).
    { unfold drained. destruct end1; [|by eexists..]. destruct (print_run line stamp opts queued s) as [[end2 s2] outs2]. by eexists. }
    destruct Hd as [outs2 ->].
    pose proof (concludes_well compact pretty opts mptcp output w saved (cumulative_bytes s) (cumulative_elapsed_ms s) e outs1
      (drained, outs2)) as H.
    destruct end1; cbn [exited]; [exact H|exact H|split; [apply lines_show_nothing|done]]. }
  clearbody drained. destruct (client_ends _ _ _ _ _ _ _ _ _ _ _ _ _) as [effects status].
  assert (Hlast : forall effects', shown effects' = shown effects /\ files effects' = files effects ->
    if exited end1 then nothing effects' /\ status = ExitCode 0
    else exists taken rest, before = taken ++ rest /\ (end1 = Drained -> rest = []) /\
      ends_well compact pretty opts mptcp output w saved (wrap 64 (zsum (map (fun u => counted (update_ u)) taken)))
        (cumulative_elapsed_ms s) (exited drained) e effects' status).
  { intros effects' [H1 H2].
    assert (Hw : end1 <> Exited -> exists taken rest, before = taken ++ rest /\ (end1 = Drained -> rest = []) /\
      cumulative_bytes s = wrap 64 (zsum (map (fun u => counted (update_ u)) taken))) by exact Hb.
    destruct (exited end1) eqn:Ex; [unfold nothing in *; by rewrite H1, H2|].
    destruct Hw as (taken & rest & E & Hr & Hc); [by intros ->|]. exists taken, rest. split_and!; [done..|].
    unfold ends_well, nothing in *. by rewrite H1, H2, <- Hc. }
  destruct (opening_line opts) as [text|]; cbn [is_some andb]; [|by apply Hlast].
  destruct header; cbn [negb print_stdout]; [by apply Hlast|done..].
Qed.

(** A reader that goes away before the last row ends the process; where no row
    is queued, the summary is of the two full reports. *)
Definition unread (u : received) : received := mkReceived (at_ u) (after_ u) PipeClosed (update_ u).
Definition demo_before : list received :=
  [demo_update 1000 5 10 false; demo_update 1500 5 10 true; demo_update 2000 6 20 false].
Notation demo_ending queued :=
  (run_client_plain (path := unit) (fun _ => Some []) dec (fun _ => None) (fun _ => None) demo_options false (Some tt)
     Written PipeClosed true 0 demo_before queued (CtrlC (Stopped None))).
Theorem scripted_ending_exact_witness :
  (demo_ending [unread (demo_update 4000 7 30 false)]).2 = ExitCode 0 /\
  shown (demo_ending []).1 = [output_csv (build_fallback_result 2000 2000) ++ [10]] /\
  files (demo_ending []).1 = [] /\ (demo_ending []).2 = ExitCode 130.
Proof.
  split; [vm_compute; reflexivity|].
  pose proof (scripted_ending_exact (fun _ => Some []) dec (fun _ => None) (fun _ => None) demo_options false (Some tt)
    Written PipeClosed true 0 demo_before [] (CtrlC (Stopped None))) as H.
  assert (H1 : (demo_run demo_before).1.1 = Drained) by (vm_compute; reflexivity).
  assert (H2 : cumulative_elapsed_ms (demo_run demo_before).1.2 = 2000) by (vm_compute; reflexivity).
  destruct (demo_run demo_before) as [[end1 s] outs]. cbn [fst snd] in H1, H2. subst end1.
  destruct (demo_ending []) as [effects status]. cbn [fst snd print_run exited server_result] in *.
  change (header_fails demo_options Written) with false in H. cbv iota in H.
  destruct H as (taken & rest & E & Hr & Hf & _ & H). rewrite (Hr eq_refl), app_nil_r in E. subst taken.
  rewrite H2 in H. replace (wrap 64 _) with 2000 in H by (vm_compute; reflexivity).
  destruct (H eq_refl _ eq_refl) as [H3 H4]; [done|]. by split_and!.
Defined.
