(* ===== verification/TuiLoop.v ===== *)
(** * The terminal application's loop (src/src/main.rs run_tui_loop)

    One iteration of the loop as a step over what it observes: the clock, the
    terminal, the key pressed, what the test task has sent and whether it has
    ended.  Its effects on the test task -- spawn, pause, cancel, abort -- and
    on the metrics are outputs.  Drawing, and the paging of the help overlay
    (src/src/tui/ui.rs), read the state.  Times are nanoseconds. *)
From coqutil Require Import Datatypes.RecordSettersUsingExistingGetters.
From S2P Require Import Prelude Bytes Text Float Fmt Ip Protocol Stats Config Settings Report Scripted App Client.

(** ** Paging the help overlay *)
Module Help.
Definition CLIENT_HELP : list str :=
  map txt ["q          quit"; "r          restart"; "p          pause/resume"; "s          settings";
           "t          cycle theme"; "j          print JSON"; "d          toggle streams"; "?          toggle help";
           "PgUp/PgDn  page help"; "Home/End   first/last page"; "Esc        close"]%string.
Definition SERVER_HELP : list str :=
  map txt ["q          quit server"; "?          toggle help"; "PgUp/PgDn  page help"; "Home/End   first/last page";
           "Esc        close"]%string.

(** [line.find("  ").unwrap_or(0)]. *)
Fixpoint find_gap (s : str) : option nat :=
  match s with
  | 32 :: ((32 :: _) as s') => Some O
  | _ :: s' => option_map S (find_gap s')
  | [] => None
  end.
(** The pieces of a line, each cut where the key ends. *)
Fixpoint wrap_line (fuel start width key_len : nat) (line : str) : list (str * str) :=
  match fuel with
  | O => []
  | S fuel =>
    if (start <? length line)%nat then
      let end_ := Nat.min (start + width) (length line) in
      let split := Nat.max start (Nat.min key_len end_) in
      (slice start split line, slice split end_ line) :: wrap_line fuel (start + width) width key_len line
    else []
  end.
Definition help_rows (width : Z) (server : bool) : list (str * str) :=
  let width := Z.to_nat (Z.max width 1) in
  concat (map (fun line => wrap_line (length line) 0 width (unwrap_or (find_gap line) O) line)
            (if server then SERVER_HELP else CLIENT_HELP)).

Definition help_scroll (scroll width height : Z) (server : bool) (key : option KeyCode) : Z :=
  let visible := saturating_sub (Z.min height (if server then 8 else 16)) 2 in
  let max := saturating_sub (wrap 16 (Z.of_nat (length (help_rows (saturating_sub (Z.min width 40) 2) server)))) visible in
  let scroll := Z.min scroll max in
  match key with
  | Some PageDown => Z.min (saturating_add 16 scroll (Z.max visible 1)) max
  | Some PageUp => saturating_sub scroll (Z.max visible 1)
  | Some Home => 0
  | Some End_ => max
  | _ => scroll
  end.
End Help.

(** ** The test task *)

(** What belongs to one spawned test. *)
Record TuiRun := mkTuiRun { run_test : Protocol * Direction; run_config : ClientConfig }.

(** [tui_run_config]: the options that apply to the protocol chosen. *)
Definition tui_run_config (config : ClientConfig) : ClientConfig :=
  let active := config <| sequential_ports :=
    negb (bool_decide (protocol config = Quic)) && (1 <? streams config)
    && match bind_addr config with Some a => negb (sa_port a =? 0) | None => false end |> in
  let active := if bool_decide (protocol active = Udp) then active else active <| udp_payload_size := None |> in
  if bool_decide (protocol active = Tcp) then active
  else active <| mptcp := false |> <| zerocopy := Client.Off |>.

(** The options dropped for one protocol are not dropped twice. *)
Lemma tui_run_config_idem config : tui_run_config (tui_run_config config) = tui_run_config config.
Proof.
  unfold tui_run_config. destruct config as [h p pr]. cbn. by destruct pr; cbn.
Qed.

Definition TUI_CANCEL_WAIT : Z := 5000000000.

(** [tui_fallback_result]. *)
Definition tui_fallback_result (bytes elapsed_ms : Z) : option TestResult :=
  if 0 <? bytes then Some (build_fallback_result bytes elapsed_ms) else None.

Inductive tui_effect :=
  | SpawnRun (c : ClientConfig) | PauseRun | CancelRun | AbortRun
  | PushResult (r : TestResult) (test : Protocol * Direction).

Definition spawn_tui_run (config : ClientConfig) : list tui_effect * TuiRun :=
  let active := tui_run_config config in
  ([SpawnRun active], mkTuiRun (protocol config, direction config) active).

(** What the task gave within the time allowed; [None]: it had to be aborted. *)
Definition cancel_tui_run (answer : option (result TestResult str)) : list tui_effect :=
  CancelRun :: match answer with Some _ => [] | None => [AbortRun] end.

(** ** The loop's state and what it observes *)
Record tui := mkTui {
  t_app : App; t_run : option TuiRun; t_config : ClientConfig; t_prefs : Prefs;
  fallback_bytes : Z; fallback_elapsed_ms : Z; print_json : bool; update_check_done : bool
}.

(** One pass: the clock when it starts and after a restart's wait; messages of
    finished metrics tasks; the update check's channel; the server's version
    once known; whether the terminal works, for the frame and for the notice
    of a restart, and its size; the key pressed; what pausing gave; what a
    restart's cancellation gave; updates received; the end of the test. *)
Record seen := mkSeen {
  now_ : Z; restarted_at : Z; metrics_done : list str;
  update_message : option (option str); update_disconnected : bool; peer_version : option str;
  terminal : option str; notice : option str; size : Z * Z; pressed : option KeyEvent;
  pause_result : PauseResult; stopped : option (result TestResult str);
  updates : list TestProgress; finished : option (result TestResult str)
}.

(** [TuiLoopExit]. *)
Record tui_exit := mkExit {
  exit_result : option TestResult; exit_prefs : Prefs; exit_json : bool; exit_partial : bool
}.

(** [Leaves]: [return]; [Skips]: [continue]; [Goes]: on to the next statement. *)
Inductive tui_flow :=
  | Leaves (r : result tui_exit str) (effects : list tui_effect) (t : tui)
  | Skips (effects : list tui_effect) (t : tui)
  | Goes (effects : list tui_effect) (t : tui).

Definition then_ (f : tui_flow) (k : tui -> tui_flow) : tui_flow :=
  match f with
  | Goes e t =>
    match k t with
    | Leaves r e' t' => Leaves r (e ++ e') t'
    | Skips e' t' => Skips (e ++ e') t'
    | Goes e' t' => Goes (e ++ e') t'
    end
  | f => f
  end.

Section loop.
Context (format : TimestampFormat.t -> Z -> Z -> Z -> str) (gateway : bool).
Notation log := (App.log format).

(** [app.log] through the loop's state. *)
Definition with_app (f : App -> App) (t : tui) : tui := t <| t_app ::= f |>.
Definition on_run (f : Run -> Run) : App -> App := fun a => a <| run ::= f |>.

Definition remember_tui_theme (t : tui) : tui :=
  match changed_theme_name (t_app t) with
  | Some name => t <| t_prefs ::= Config.with_theme (Some name) |>
  | None => t
  end.

Definition quic_warnings (c : ClientConfig) : list str :=
  map snd (List.filter fst
    [(is_some (window_size c), txt "-w/--window is ignored with QUIC (QUIC flow control manages buffering)");
     (is_some (tcp_congestion c), txt "--congestion is ignored with QUIC (kernel TCP CC does not apply)");
     (tcp_nodelay c, txt "--tcp-nodelay is ignored with QUIC (no Nagle on UDP transport)");
     (is_some (dscp c), txt "--dscp is ignored with QUIC (QUIC manages its own socket)")]).
Definition log_tui_quic_ignored_options (now : Z) (c : ClientConfig) (a : App) : App :=
  if bool_decide (protocol c = Quic)
  then fold_left (fun a m => log now (txt "Warning: " ++ m) a) (quic_warnings c) a
  else a.

(** The state before the first pass. *)
Definition start_tui (now system : Z) (config : ClientConfig) (tf : TimestampFormat.t) (prefs : Prefs) (no_color : bool)
    (update_disabled : bool) (lock_reason : option str) : list tui_effect * tui :=
  let a := with_theme_name now system
             (mkSetup (host config) (port config) (protocol config) (direction config) (streams config) (duration config)
                (bitrate config) None) tf (effective_theme_name prefs no_color) in
  let a := set_byte_budget (byte_budget config) a in
  let a := on_settings (fun s =>
    let d := display s in
    set_display (mkDisplay (theme_index d) (Settings.timestamp_format d) (units d) (negb update_disabled) lock_reason
                   (update_check_touched d)) s) a in
  let a := log_tui_quic_ignored_options now config a in
  let '(effects, r) := spawn_tui_run config in
  (effects, mkTui (on_connected format now a) (Some r) config prefs 0 0 false update_disabled).

(** [restart_tui_run], after the caller has reset its counters. *)
Definition restart_tui_run (o : seen) (t : tui) : tui_flow :=
  let fresh t :=
    let a := reset_for_restart format (restarted_at o) (t_app t) in
    let a := log_tui_quic_ignored_options (restarted_at o) (t_config t) a in
    let '(effects, r) := spawn_tui_run (t_config t) in
    Goes effects (t <| t_app := on_connected format (restarted_at o) a |> <| t_run := Some r |>) in
  match t_run t with
  | None => fresh t
  | Some _ =>
    let t := with_app (log (now_ o) (txt "Restarting, waiting for current test to stop...")) (t <| t_run := None |>) in
    match notice o with
    | Some e => Leaves (Err e) [] t
    | None =>
      let t := match stopped o with
               | Some (Ok _) => t
               | Some (Err e) => with_app (log (restarted_at o) (txt "Previous test ended while restarting: " ++ e)) t
               | None => with_app (log (restarted_at o) (txt "Previous test did not stop in time; aborted.")) t
               end in
      then_ (Goes (cancel_tui_run (stopped o)) t) fresh
    end
  end.
Definition restart_from (o : seen) (t : tui) : tui_flow :=
  restart_tui_run o (with_app (on_run (fun r => r <| cancel_deadline := None |>))
                       (t <| fallback_bytes := 0 |> <| fallback_elapsed_ms := 0 |> <| print_json := false |>)).

Definition leave (effects : list tui_effect) (partial : bool) (t : tui) : tui_flow :=
  Leaves (Ok (mkExit (run_result (run (t_app t))) (t_prefs t) (print_json t) partial)) effects t.
Definition leave_error (t : tui) : tui_flow :=
  Leaves (Err (unwrap_or (run_error (run (t_app t))) [])) [] t.
(** Without a result, the summary of what was received. *)
Definition leave_with_summary (effects : list tui_effect) (t : tui) : tui_flow :=
  let partial := negb (is_some (run_result (run (t_app t)))) in
  leave effects partial
    (if partial
     then with_app (on_run (fun r => r <| run_result := tui_fallback_result (fallback_bytes t) (fallback_elapsed_ms t) |>)) t
     else t).

(** The top of the loop: metrics messages, preferences, the deadline of a
    cancellation. *)
Definition take_run (t : tui) : list tui_effect * tui :=
  match t_run t with Some _ => ([AbortRun], t <| t_run := None |>) | None => ([], t) end.
Definition begin_pass (o : seen) (t : tui) : tui_flow :=
  let t := with_app (fun a => fold_left (fun a m => log (now_ o) m a) (metrics_done o) a) t in
  let t := remember_tui_theme t in
  match cancel_deadline (run (t_app t)) with
  | Some deadline =>
    if deadline <? now_ o then let '(effects, t) := take_run t in leave_with_summary effects t else Goes [] t
  | None => Goes [] t
  end.

(** The help overlay pages with the terminal's size. *)
Definition page_help (o : seen) (key : option KeyCode) (t : tui) : tui :=
  if show_help (run (t_app t))
  then with_app (fun a => a <| session ::= fun s => s <| help_scroll ::=
         fun n => Help.help_scroll n (fst (size o)) (snd (size o)) false key |> |>) t
  else t.
(** What the clock and the background tasks changed, then the frame. *)
Definition refresh (o : seen) (t : tui) : tui_flow :=
  let '(a, done) := poll_update_check (update_message o) (update_disconnected o) (update_check_done t) (t_app t) in
  let t := t <| t_app := a |> <| update_check_done := done |> in
  let d := display (settings (session (t_app t))) in
  let t := if update_check_touched d
           then t <| t_prefs ::= fun p => mkPrefs (pref_theme p) (last_server p) (pref_streams p)
                        (show_help_on_start p) (Some (negb (update_check d))) |>
           else t in
  let t := with_app (tick (now_ o)) t in
  let t := match run_server_version (run (t_app t)), t_run t, peer_version o with
           | None, Some _, Some v => with_app (set_server_version format (now_ o) v) t
           | _, _, _ => t
           end in
  let t := page_help o None t in
  match terminal o with Some e => Leaves (Err e) [] t | None => Goes [] t end.

(** A key while the settings are open. *)
Definition on_settings_key (o : seen) (k : KeyEvent) (t : tui) : tui_flow :=
  let '(a, action) := handle_tui_settings_key format (t_app t) k in
  let t := t <| t_app := a |> in
  match action with
  | Restart =>
    let '(config, a) := apply_tui_settings (t_config t) (t_app t) in
    then_ (restart_from o (t <| t_config := config |> <| t_app := a |>)) (Skips [])
  | _ => Skips [] t
  end.

Definition on_quit_key (o : seen) (k : KeyEvent) (t : tui) : tui_flow :=
  match tui_quit_action k (state (run (t_app t))) (is_some (cancel_deadline (run (t_app t)))) (is_some (t_run t)) with
  | Noop => Goes [] t
  | ExitError => leave_error t
  | ExitOk => leave [] false t
  | ForceExit => let '(effects, t) := take_run t in leave effects false t
  | Ignore => Skips [] t
  | StartCancel =>
    Skips (match t_run t with Some _ => [CancelRun] | None => [] end)
      (with_app (fun a =>
         log (now_ o) (txt "Cancelling, waiting up to " ++ dec (TUI_CANCEL_WAIT / 1000000000)
                       ++ txt "s for the server summary...")
           (on_settings close (on_run (fun r => r <| cancel_deadline := Some (now_ o + TUI_CANCEL_WAIT) |>) a))) t)
  end.

(** [p]. *)
Definition on_pause_key (o : seen) (t : tui) : tui_flow :=
  match t_run t with
  | None => Goes [] t
  | Some _ =>
    match pause_result o with
    | Applied => Goes [PauseRun] (with_app (toggle_pause format (now_ o)) t)
    | Unsupported =>
      let show st m := with_app (fun a => log (now_ o) m (on_run (fun r => r <| state := st |>) a)) t in
      Goes [PauseRun]
        match state (run (t_app t)) with
        | Running => show Paused (txt "Display paused (server does not support pause/resume)")
        | Paused => show Running (txt "Display resumed (server does not support pause/resume)")
        | _ => t
        end
    | NotReady => Goes [PauseRun] t
    end
  end.

(** The keys in the order of the match. *)
Definition on_other_key (o : seen) (k : KeyEvent) (t : tui) : tui_flow :=
  let c := code k in
  let app f := Goes [] (with_app f t) in
  let hit n := is_char n c in
  if hit 112 then on_pause_key o t
  else if hit 114 then restart_from o t
  else if hit 116 then app cycle_theme
  else if hit 115 then app (on_settings toggle)
  else if hit 63 || bool_decide (c = F1) then app toggle_help
  else if hit 100 then app toggle_streams
  else if bool_decide (c = Esc) && show_help (run (t_app t)) then app (on_run (fun r => r <| show_help := false |>))
  else if bool_decide (c = Esc) && bool_decide (state (run (t_app t)) = Completed) then leave [] false t
  else if bool_decide (c = Esc) && bool_decide (state (run (t_app t)) = Error) then leave_error t
  else if hit 106 && is_some (run_result (run (t_app t)))
  then Goes [] (with_app (log (now_ o) (txt "JSON output queued for display on exit.")) (t <| print_json := true |>))
  else if hit 117 && is_some (update_available (session (t_app t)))
  then app (fun a => a <| session ::= fun s => s <| update_available := None |> |>)
  else Goes [] t.

Definition on_key (o : seen) (t : tui) : tui_flow :=
  match pressed o with
  | None => Goes [] t
  | Some k =>
    if settings_captures_key (visible (nav (settings (session (t_app t))))) k then on_settings_key o k t
    else then_ (on_quit_key o k (page_help o (Some (code k)) t)) (on_other_key o k)
  end.

(** The updates received, for the screen and for the summary. *)
Definition on_update (now : Z) (t : tui) (p : TestProgress) : tui :=
  let t := if tp_udp_feedback_only p then t
           else t <| fallback_bytes ::= fun b => wrapping_add 64 b (tp_total_bytes p) |>
                  <| fallback_elapsed_ms := tp_elapsed_ms p |> in
  with_app (on_progress format now p) t.
Definition take_updates (o : seen) (t : tui) : tui_flow :=
  match t_run t with
  | Some _ => Goes [] (fold_left (on_update (now_ o)) (updates o) t)
  | None => Goes [] t
  end.

(** The end of the test. *)
Definition take_result (o : seen) (t : tui) : tui_flow :=
  match t_run t, finished o with
  | Some r, Some (Ok result) =>
    let t := t <| t_run := None |> in
    let '(effects, t) := if gateway
                         then ([PushResult result (run_test r)],
                               with_app (log (now_ o) (txt "Pushing metrics (test complete)...")) t)
                         else ([], t) in
    let t := with_app (on_result format (now_ o) result) t in
    if is_some (cancel_deadline (run (t_app t))) then leave effects false t else Goes effects t
  | Some _, Some (Err e) =>
    let t := t <| t_run := None |> in
    if is_some (cancel_deadline (run (t_app t))) then leave_with_summary [] t
    else Goes [] (with_app (on_error format (now_ o) e) t)
  | _, _ => Goes [] t
  end.

(** One pass of the loop. *)
Definition tui_pass (o : seen) (t : tui) : tui_flow :=
  then_ (then_ (then_ (then_ (begin_pass o t) (refresh o)) (on_key o)) (take_updates o)) (take_result o).

Fixpoint tui_run (passes : list seen) (t : tui) : tui_flow :=
  match passes with
  | [] => Goes [] t
  | o :: passes =>
    match tui_pass o t with
    | Leaves r e t => Leaves r e t
    | Skips e t | Goes e t => then_ (Goes e t) (tui_run passes)
    end
  end.
End loop.

(** ** What the loop's decisions depend on *)
Definition loop_view (r : Run) := (state r, run_result r, cancel_deadline r, total_bytes r).

Section views.
Context (format : TimestampFormat.t -> Z -> Z -> Z -> str).

Lemma append_bar_view m t r : loop_view (append_bar m t r) = loop_view r.
Proof. unfold append_bar, push_throughput_sample. by destruct (bar_delta r), (latest_udp_progress _). Qed.
Lemma stalled_bar_view now r : loop_view (maybe_append_stalled_bar now r) = loop_view r.
Proof. unfold maybe_append_stalled_bar. repeat case_match; try done; apply append_bar_view. Qed.
Lemma tick_view now a : loop_view (run (tick now a)) = loop_view (run a).
Proof.
  unfold tick. destruct (state (run a)), (start_time (run a)) as [start|]; try done.
  set (r1 := (run a) <| elapsed := saturating_sub now start |>).
  change (loop_view (maybe_append_stalled_bar now r1) = loop_view r1). apply stalled_bar_view.
Qed.
Lemma note_view f r :
  loop_view (note_progress f r) = loop_view r /\ loop_view (note_percent f r) = loop_view r.
Proof. unfold note_progress, note_percent. split; by case_match. Qed.
Lemma full_progress_view now s p f r : loop_view (full_progress now s p f r) = loop_view (byte_progress p r).
Proof.
  unfold full_progress. generalize (byte_progress p r). clear r. intros r.
  set (r1 := rows_progress p _). assert (E1 : loop_view r1 = loop_view r)
    by (unfold r1, bidir_progress; by repeat case_match). clearbody r1.
  set (r2 := bar_progress now p _). assert (E2 : loop_view r2 = loop_view r).
  { rewrite <- E1, <- (proj1 (note_view f r1)). unfold r2, bar_progress. repeat case_match; try done;
      apply append_bar_view. } clearbody r2.
  set (r3 := retransmit_progress p r2). assert (E3 : loop_view r3 = loop_view r)
    by (unfold r3, retransmit_progress; by repeat case_match). clearbody r3.
  set (r4 := jitter_progress s p (tcp_progress p r3)). assert (E4 : loop_view r4 = loop_view r)
    by (unfold r4, jitter_progress; by repeat case_match). clearbody r4.
  rewrite <- E4. unfold average_progress. case_match; apply (proj2 (note_view f (lost_progress p r4))).
Qed.
Lemma detect_events_view now thr a : loop_view (run (detect_events format now thr a)) = loop_view (run a).
Proof. unfold detect_events. by repeat case_match. Qed.
Lemma on_progress_view now p a :
  loop_view (run (on_progress format now p a))
  = loop_view (if tp_udp_feedback_only p then run a else byte_progress p (run a)).
Proof.
  unfold on_progress. set (a1 := a <| run ::= _ |>). set (f := fresh_progress _ _).
  assert (E1 : loop_view (run a1) = loop_view (run a)) by done.
  assert (E2 : loop_view (byte_progress p (run a1)) = loop_view (byte_progress p (run a))) by done.
  clearbody a1 f. destruct (tp_udp_feedback_only p).
  - rewrite <- E1. transitivity (loop_view (note_progress f (run a1))); apply note_view.
  - rewrite detect_events_view, <- E2. apply full_progress_view.
Qed.
Lemma on_result_view now r a :
  loop_view (run (on_result format now r a)) = (Completed, Some r, cancel_deadline (run a), tr_bytes_total r).
Proof.
  unfold on_result, log_opt, result_run, bidir_result, udp_result. repeat case_match; done.
Qed.
Lemma set_version_view now v a : loop_view (run (set_server_version format now v a)) = loop_view (run a).
Proof. unfold set_server_version. by case_match. Qed.
Lemma settings_key_run a k : run (handle_tui_settings_key format a k).1 = run a.
Proof.
  unfold handle_tui_settings_key, follow_settings, set_theme_index, set_timestamp_format.
  destruct (on_enter _). by repeat case_match.
Qed.
Lemma cycle_theme_run a : run (cycle_theme a) = run a.
Proof. done. Qed.
Lemma toggle_streams_view a : loop_view (run (toggle_streams a)) = loop_view (run a).
Proof. unfold toggle_streams. by case_match. Qed.
Lemma update_check_run m d b a : run (poll_update_check m d b a).1 = run a.
Proof. unfold poll_update_check. by repeat case_match. Qed.
Lemma fold_log_run now ms a : run (fold_left (fun a m => App.log format now m a) ms a) = run a.
Proof. revert a. induction ms as [|m ms IH]; intros a; [done|]. cbn. by rewrite IH. Qed.
Lemma warnings_run now c a : run (log_tui_quic_ignored_options format now c a) = run a.
Proof.
  unfold log_tui_quic_ignored_options. case_match; [|done]. revert a.
  induction (quic_warnings c) as [|m ms IH]; intros a; [done|]. cbn. by rewrite IH.
Qed.
End views.

(** ** What holds between passes *)
Definition over (s : AppState) : bool := bool_decide (s = Completed) || bool_decide (s = Error).

(** The byte counter of the summary and the one on the screen count the same
    reports, one modulo 2^64 and one up to 2^64 - 1. *)
Definition counts_agree (fallback shown : Z) : Prop :=
  exists total, 0 <= total /\ fallback = wrap 64 total /\ shown = Z.min total u64_max.

Section invariant.
Context (format : TimestampFormat.t -> Z -> Z -> Z -> str) (gateway : bool).
(** What the test tasks have reported. *)
Variable reported : TestResult -> Prop.
(** Five seconds after a quit key. *)
Variable due : Z -> Prop.

Record tui_ok (t : tui) : Prop := {
  ok_live : is_some (t_run t) = negb (over (state (run (t_app t))));
  ok_result : match run_result (run (t_app t)) with
              | Some r => state (run (t_app t)) = Completed /\ reported r
              | None => state (run (t_app t)) <> Completed
              end;
  ok_deadline : is_some (cancel_deadline (run (t_app t))) = true -> is_some (t_run t) = true;
  ok_due : forall d, cancel_deadline (run (t_app t)) = Some d -> due d;
  ok_bytes : state (run (t_app t)) <> Completed -> counts_agree (fallback_bytes t) (total_bytes (run (t_app t)))
}.

Definition is_spawn (e : tui_effect) : bool := match e with SpawnRun _ => true | _ => false end.
Definition respawned (effects : list tui_effect) : bool := existsb is_spawn effects.

(** A pending cancellation stays until the loop ends or a new test starts. *)
Definition kept (t : tui) (effects : list tui_effect) (t' : tui) : Prop :=
  respawned effects = false -> forall d, cancel_deadline (run (t_app t)) = Some d ->
  cancel_deadline (run (t_app t')) = Some d.

(** How the loop may end: a summary only without a result, and then of the
    bytes counted; otherwise what a task reported.  No task is left. *)
Definition leaves_ok (r : result tui_exit str) (t : tui) : Prop :=
  match r with
  | Ok x =>
    t_run t = None /\
    if exit_partial x
    then exit_result x = tui_fallback_result (fallback_bytes t) (fallback_elapsed_ms t) /\
         counts_agree (fallback_bytes t) (total_bytes (run (t_app t)))
    else forall r, exit_result x = Some r -> reported r
  | Err _ => True
  end.

Definition flow_ok (t : tui) (f : tui_flow) : Prop :=
  match f with
  | Leaves r _ t' => leaves_ok r t'
  | Skips e t' | Goes e t' => tui_ok t' /\ kept t e t'
  end.

Lemma respawned_app a b : respawned (a ++ b) = respawned a || respawned b.
Proof. apply existsb_app. Qed.
Lemma kept_refl t : kept t [] t.
Proof. by intros _ d. Qed.
Lemma kept_trans t e t' e' t'' : kept t e t' -> kept t' e' t'' -> kept t (e ++ e') t''.
Proof.
  intros H H' Hr d Hd. rewrite respawned_app in Hr. apply orb_false_iff in Hr as [Hr Hr']. by apply H', H.
Qed.
Lemma flow_then t f k : flow_ok t f -> (forall t', tui_ok t' -> flow_ok t' (k t')) -> flow_ok t (then_ f k).
Proof.
  destruct f as [r e t'|e t'|e t']; cbn; [done..|]. intros [Ht' Hk] H. specialize (H t' Ht').
  destruct (k t') as [r e' t''|e' t''|e' t'']; cbn in *; [done|..];
    destruct H as [H1 H2]; (split; [done|]); by eapply kept_trans.
Qed.

(** Everything the invariant sees. *)
Definition core (t : tui) := (t_run t, loop_view (run (t_app t)), fallback_bytes t).
Lemma core_ok t t' : core t' = core t -> tui_ok t -> tui_ok t'.
Proof.
  unfold core, loop_view. intros [= E1 E2 E3 E4 E5 E6] [H1 H2 H3 H5 H4].
  split; by rewrite ?E1, ?E2, ?E3, ?E4, ?E5, ?E6.
Qed.
Lemma with_app_core f t : loop_view (run (f (t_app t))) = loop_view (run (t_app t)) -> core (with_app f t) = core t.
Proof.
  intros H. transitivity (t_run t, loop_view (run (f (t_app t))), fallback_bytes t); [done|]. by rewrite H.
Qed.
Lemma core_flow t e t' : core t' = core t -> tui_ok t -> tui_ok t' /\ kept t e t'.
Proof.
  intros E H. split; [by eapply core_ok|]. intros _ d Hd. unfold core, loop_view in E. congruence.
Qed.

Lemma leave_ok t0 e t :
  t_run t = None -> tui_ok t -> flow_ok t0 (leave e false t).
Proof.
  intros Hn [H1 H2 H3 H5 H4]. cbn. split; [done|]. intros r Hr. rewrite Hr in H2. apply H2.
Qed.

Lemma summary_ok t0 e t :
  t_run t = None ->
  match run_result (run (t_app t)) with
  | Some r => reported r
  | None => counts_agree (fallback_bytes t) (total_bytes (run (t_app t)))
  end -> flow_ok t0 (leave_with_summary e t).
Proof.
  intros Hn H. unfold leave_with_summary, leave. destruct (run_result (run (t_app t))) as [r|] eqn:E; cbn.
  - rewrite E. split; [done|]. by intros ? [= <-].
  - by split.
Qed.

Lemma ok_summary t : tui_ok t ->
  match run_result (run (t_app t)) with
  | Some r => reported r
  | None => counts_agree (fallback_bytes t) (total_bytes (run (t_app t)))
  end.
Proof. intros [H1 H2 H3 H5 H4]. destruct (run_result _); [apply H2|by apply H4]. Qed.

Notation begin_pass := (begin_pass format).
Lemma begin_pass_ok o t : tui_ok t -> flow_ok t (begin_pass o t).
Proof.
  intros Ht. unfold TuiLoop.begin_pass. set (t1 := with_app _ t). set (t2 := remember_tui_theme t1).
  assert (E : core t2 = core t).
  { unfold t2, remember_tui_theme. transitivity (core t1); [by destruct (changed_theme_name _)|].
    apply with_app_core. by rewrite fold_log_run. }
  destruct (core_flow t [] t2 E Ht) as [H2 Hk]. clearbody t2. clear t1.
  destruct (cancel_deadline _) as [d|]; [|done]. destruct (d <? now_ o); [|done].
  pose proof (ok_summary t2 H2) as Hs. unfold take_run. destruct (t_run t2) eqn:Er; by apply summary_ok.
Qed.

Lemma page_help_core o k t : core (page_help o k t) = core t.
Proof. unfold page_help. by case_match. Qed.

Lemma refresh_ok o t : tui_ok t -> flow_ok t (refresh format o t).
Proof.
  intros Ht. unfold refresh. destruct (poll_update_check _ _ _ _) as [a done_] eqn:Ea.
  assert (Er : run a = run (t_app t)) by (pose proof (update_check_run (update_message o) (update_disconnected o)
    (update_check_done t) (t_app t)) as H; by rewrite Ea in H).
  set (t1 := t <| t_app := a |> <| update_check_done := done_ |>).
  assert (E1 : core t1 = core t) by (transitivity (t_run t, loop_view (run a), fallback_bytes t); [done|by rewrite Er]). clearbody t1.
  set (t2 := if update_check_touched _ then _ else t1).
  assert (E2 : core t2 = core t) by (unfold t2; by case_match). clearbody t2.
  set (t3 := with_app (tick (now_ o)) t2).
  assert (E3 : core t3 = core t) by (rewrite <- E2; apply with_app_core, tick_view). clearbody t3.
  set (t4 := match run_server_version _ with None => _ | Some _ => _ end).
  assert (E4 : core t4 = core t).
  { rewrite <- E3. unfold t4. repeat case_match; try done. apply with_app_core, set_version_view. }
  clearbody t4. destruct (terminal o); [done|]. apply core_flow; [|done]. by rewrite page_help_core.
Qed.

(** A fresh test on an application that shows none. *)
Lemma fresh_ok t0 e now a0 a t r :
  fallback_bytes t = 0 -> respawned e = true -> run a = run (reset_for_restart format now a0) ->
  flow_ok t0 (Goes e (t <| t_app := on_connected format now a |> <| t_run := Some r |>)).
Proof.
  intros Hf He Ha. split; [|intros H; congruence].
  assert (E : loop_view (run (on_connected format now a)) = (Running, None, None, 0)).
  { transitivity (loop_view ((run a) <| state := Running |>)); [done|]. by rewrite Ha. }
  unfold loop_view in E. injection E as E2 E3 E4.
  split; cbn; rewrite ?E2, ?E3, ?E4; try done. intros _. exists 0. by rewrite Hf.
Qed.

Lemma restart_flow_ok t0 o t : flow_ok t0 (restart_from format o t).
Proof.
  unfold restart_from. set (t1 := with_app _ _).
  assert (H1 : fallback_bytes t1 = 0) by done. clearbody t1.
  unfold restart_tui_run. destruct (t_run t1) as [r|].
  - set (t2 := with_app _ _). assert (H2 : fallback_bytes t2 = 0) by done. clearbody t2.
    destruct (notice o); [done|].
    set (t3 := match stopped o with Some _ => _ | None => _ end).
    assert (H3 : fallback_bytes t3 = 0) by (unfold t3; by repeat case_match). clearbody t3.
    unfold then_, spawn_tui_run, cancel_tui_run.
    eapply fresh_ok; [done|by destruct (stopped o)|apply warnings_run].
  - unfold spawn_tui_run. eapply fresh_ok; [done|done|apply warnings_run].
Qed.

Lemma settings_core t f : core (with_app (on_settings f) t) = core t.
Proof. by apply with_app_core. Qed.

Lemma settings_flow_ok o k t : tui_ok t -> flow_ok t (on_settings_key format o k t).
Proof.
  intros Ht. unfold on_settings_key.
  pose proof (settings_key_run format (t_app t) k) as Hr. destruct (handle_tui_settings_key _ _ _) as [a action].
  assert (E : core (t <| t_app := a |>) = core t).
  { transitivity (t_run t, loop_view (run a), fallback_bytes t); [done|]. cbn in Hr. by rewrite Hr. }
  destruct action; [by apply core_flow..|].
  destruct (apply_tui_settings _ _) as [config a']. apply flow_then; [apply restart_flow_ok|].
  intros t' Ht'. by apply core_flow.
Qed.

Lemma quit_key_ok o k t : due (now_ o + TUI_CANCEL_WAIT) -> tui_ok t -> flow_ok t (on_quit_key format o k t).
Proof.
  intros Hdue Ht. unfold on_quit_key, tui_quit_action.
  destruct (negb _); [by apply core_flow|]. destruct (bool_decide_reflect (state (run (t_app t)) = Error)); [done|].
  pose proof (ok_live t Ht) as Hl. unfold over in Hl.
  destruct (bool_decide (state (run (t_app t)) = Completed)) eqn:Ec; cbn [orb negb] in *.
  { apply leave_ok; [by destruct (t_run t)|done]. }
  destruct (t_run t) as [r|] eqn:Er; cbn [is_some negb].
  2: { by apply leave_ok. }
  destruct (cancel_deadline (run (t_app t))) as [d|] eqn:Ed; cbn [is_some].
  - destruct (is_ctrl_c k); [|by apply core_flow]. unfold take_run. rewrite Er. cbn. split; [done|].
    intros x Hx. pose proof (ok_result t Ht) as H. rewrite Hx in H. apply H.
  - split; [|intros _ d Hd; congruence]. destruct Ht as [H1 H2 H3 H5 H4].
    split; cbn; try done; [by rewrite Er|]. by intros d [= <-].
Qed.

(** Pausing moves between two states of a live test. *)
Lemma paused_ok e t f :
  (let r := run (t_app t) in let r' := run (f (t_app t)) in
   (run_result r', cancel_deadline r', total_bytes r') = (run_result r, cancel_deadline r, total_bytes r) /\
   (state r' = state r \/ over (state r) = false /\ over (state r') = false)) ->
  tui_ok t -> tui_ok (with_app f t) /\ kept t e (with_app f t).
Proof.
  cbv zeta. intros [E Hs] [H1 H2 H3 H5 H4]. injection E as E1 E2 E3.
  assert (Ho : over (state (run (f (t_app t)))) = over (state (run (t_app t)))) by (destruct Hs as [->|[-> ->]]; done).
  assert (Hc : state (run (f (t_app t))) = Completed <-> state (run (t_app t)) = Completed).
  { destruct Hs as [->|[Ha Hb]]; [done|]. split; intros Hx; rewrite Hx in *; done. }
  split; [split|].
  - change (is_some (t_run t) = negb (over (state (run (f (t_app t)))))). by rewrite Ho.
  - change (match run_result (run (f (t_app t))) with
            | Some r => state (run (f (t_app t))) = Completed /\ reported r
            | None => state (run (f (t_app t))) <> Completed end).
    rewrite E1. by destruct (run_result (run (t_app t))); rewrite Hc.
  - change (is_some (cancel_deadline (run (f (t_app t)))) = true -> is_some (t_run t) = true). by rewrite E2.
  - change (forall d, cancel_deadline (run (f (t_app t))) = Some d -> due d). by rewrite E2.
  - change (state (run (f (t_app t))) <> Completed -> counts_agree (fallback_bytes t) (total_bytes (run (f (t_app t))))).
    rewrite E3, Hc. exact H4.
  - intros _ d Hd. change (cancel_deadline (run (f (t_app t))) = Some d). by rewrite E2.
Qed.

Lemma pause_key_ok o t : tui_ok t -> flow_ok t (on_pause_key format o t).
Proof.
  intros Ht. unfold on_pause_key. destruct (t_run t) eqn:Er; [|by apply core_flow].
  destruct (pause_result o); [| |by apply core_flow].
  - apply paused_ok; [|done]. cbv zeta. unfold toggle_pause.
    destruct (state (run (t_app t))) eqn:Es; rewrite ?Es; try (split; [done|first [by left | by right]]).
    set (r := (run (t_app t)) <| state := Running |>).
    assert (E : loop_view (resume_clock (now_ o) r) = loop_view r) by (unfold resume_clock; by repeat case_match).
    unfold loop_view in E. injection E as E1 E2 E3 E4.
    change (run (log _ _ _ _)) with (resume_clock (now_ o) r). rewrite E1, E2, E3, E4. split; [done|by right].
  - destruct (state (run (t_app t))) eqn:Es; try (by apply core_flow);
      (apply paused_ok; [|done]); cbv zeta; rewrite Es; split; try done; by right.
Qed.

Lemma other_key_ok o k t : tui_ok t -> flow_ok t (on_other_key format o k t).
Proof.
  intros Ht. unfold on_other_key.
  destruct (is_char 112 _); [by apply pause_key_ok|]. destruct (is_char 114 _); [apply restart_flow_ok|].
  destruct (is_char 116 _); [by apply core_flow|]. destruct (is_char 115 _); [by apply core_flow|].
  destruct (_ || _); [by apply core_flow|].
  destruct (is_char 100 _); [apply core_flow; [apply with_app_core, toggle_streams_view|done]|].
  destruct (_ && _); [by apply core_flow|]. destruct (bool_decide (code k = Esc)); cbn [andb].
  - destruct (bool_decide_reflect (state (run (t_app t)) = Completed)) as [Hc|Hc].
    { apply leave_ok; [|done]. pose proof (ok_live t Ht) as Hl. rewrite Hc in Hl. by destruct (t_run t). }
    destruct (bool_decide _); [done|]. repeat case_match; by apply core_flow.
  - repeat case_match; by apply core_flow.
Qed.

Lemma key_ok o t :
  (forall k, pressed o = Some k -> due (now_ o + TUI_CANCEL_WAIT)) -> tui_ok t -> flow_ok t (on_key format o t).
Proof.
  intros Hdue Ht. unfold on_key. destruct (pressed o) as [k|]; [|by apply core_flow]. specialize (Hdue k eq_refl).
  destruct (settings_captures_key _ _); [by apply settings_flow_ok|].
  pose proof (page_help_core o (Some (code k)) t) as E.
  apply flow_then; [|intros t' Ht'; by apply other_key_ok].
  pose proof (quit_key_ok o k _ Hdue (core_ok _ _ E Ht)) as H.
  destruct (core_flow t [] _ E Ht) as [_ Hk].
  destruct (on_quit_key _ _ _ _) as [r e t'|e t'|e t']; [done|..];
    destruct H as [H1 H2]; (split; [done|]); by eapply (kept_trans t [] _ e).
Qed.

Lemma counts_add f n b : 0 <= b -> counts_agree f n ->
  counts_agree (wrapping_add 64 f b) (saturating_add 64 n b).
Proof.
  intros Hb (g & Hg & -> & ->). exists (g + b). unfold wrapping_add, saturating_add, wrap, u64_max.
  rewrite Z.add_mod_idemp_l by lia. split_and!; lia.
Qed.

Lemma update_ok now p t : 0 <= tp_total_bytes p -> tui_ok t ->
  tui_ok (on_update format now t p) /\ t_run (on_update format now t p) = t_run t /\ kept t [] (on_update format now t p).
Proof.
  intros Hb Ht. pose proof (on_progress_view format now p (t_app t)) as E.
  unfold on_update. destruct (tp_udp_feedback_only p).
  { assert (Ec : core (with_app (on_progress format now p) t) = core t) by by apply with_app_core.
    destruct (core_flow t [] _ Ec Ht). by split_and!. }
  set (t' := with_app _ _).
  assert (Ev : loop_view (run (t_app t')) = loop_view (byte_progress p (run (t_app t)))) by exact E.
  assert (Ef : fallback_bytes t' = wrapping_add 64 (fallback_bytes t) (tp_total_bytes p)) by done.
  assert (Er : t_run t' = t_run t) by done. clearbody t'.
  unfold loop_view in Ev. injection Ev as E1 E2 E3 E4. destruct Ht as [H1 H2 H3 H5 H4].
  split; [|split; [done|]].
  - split; rewrite ?E1, ?E2, ?E3, ?E4, ?Er, ?Ef; try done. intros Hc. by apply counts_add, H4.
  - intros _ d Hd. by rewrite E3.
Qed.

Lemma updates_ok now ps t : Forall (fun p => 0 <= tp_total_bytes p) ps -> tui_ok t ->
  let t' := fold_left (on_update format now) ps t in tui_ok t' /\ kept t [] t'.
Proof.
  intros Hps. revert t. induction Hps as [|p ps Hp _ IH]; intros t Ht; cbn; [by split; [|apply kept_refl]|].
  destruct (update_ok now p t Hp Ht) as (H1 & _ & H2). destruct (IH _ H1) as [H3 H4].
  split; [done|]. exact (kept_trans t [] _ [] _ H2 H4).
Qed.

Lemma take_result_ok o t :
  (forall r, finished o = Some (Ok r) -> reported r) -> tui_ok t -> flow_ok t (take_result format gateway o t).
Proof.
  intros Hf Ht. unfold take_result. destruct (t_run t) as [r|] eqn:Er; [|by apply core_flow].
  destruct (finished o) as [[result|e]|]; [| |by apply core_flow].
  - specialize (Hf result eq_refl). destruct (if gateway then _ else _) as [effects t1] eqn:E1.
    assert (H1 : t_run t1 = None /\ cancel_deadline (run (t_app t1)) = cancel_deadline (run (t_app t)) /\
      respawned effects = false) by (destruct gateway; by injection E1 as <- <-). clear E1.
    destruct H1 as (Hn & Hd & _).
    pose proof (on_result_view format (now_ o) result (t_app t1)) as Ev. rewrite Hd in Ev.
    set (t2 := with_app (on_result format (now_ o) result) t1).
    assert (En : t_run t2 = None) by done.
    assert (E2 : loop_view (run (t_app t2)) = (Completed, Some result, cancel_deadline (run (t_app t)), tr_bytes_total result))
      by exact Ev. clearbody t2. unfold loop_view in E2. injection E2 as E3 E4 E5 E6.
    destruct (is_some (cancel_deadline (run (t_app t2)))) eqn:Ed.
    + cbn. split; [done|]. rewrite E4. by intros ? [= <-].
    + split; [split|intros _ d Hd'; rewrite E5; congruence].
      * by rewrite En, E3.
      * by rewrite E4, E3.
      * by rewrite Ed.
      * intros d Hd'. by rewrite Hd' in Ed.
      * by rewrite E3.
  - pose proof (ok_summary t Ht) as Hs. cbn zeta.
    destruct (is_some (cancel_deadline (run (t_app (t <| t_run := None |>))))) eqn:Ed.
    + by apply summary_ok.
    + change (is_some (cancel_deadline (run (t_app t))) = false) in Ed.
      destruct Ht as [H1 H2 H3 H5 H4]. pose proof H1 as Hl. rewrite Er in Hl. cbn in Hl.
      split; [split|]; cbn.
      * done.
      * destruct (run_result (run (t_app t))) as [x|]; [|done]. destruct H2 as [H2 _]. by rewrite H2 in Hl.
      * change (is_some (cancel_deadline (run (t_app t))) = true -> false = true). by rewrite Ed.
      * exact H5.
      * intros _. apply H4. intros H. by rewrite H in Hl.
      * intros _ d Hd. cbn in Ed. by rewrite Hd in Ed.
Qed.

(** ** Passes *)
Definition received_ok (o : seen) : Prop :=
  Forall (fun p => 0 <= tp_total_bytes p) (updates o) /\ (forall r, finished o = Some (Ok r) -> reported r) /\
  (forall k, pressed o = Some k -> due (now_ o + TUI_CANCEL_WAIT)).

Lemma take_updates_ok o t : received_ok o -> tui_ok t -> flow_ok t (take_updates format o t).
Proof.
  intros (Hu & _) Ht. unfold take_updates. destruct (t_run t); [|by apply core_flow]. by apply updates_ok.
Qed.

Lemma tui_pass_ok o t : received_ok o -> tui_ok t -> flow_ok t (tui_pass format gateway o t).
Proof.
  intros Ho Ht. unfold tui_pass. repeat apply flow_then.
  - by apply begin_pass_ok.
  - intros t' Ht'. by apply refresh_ok.
  - intros t' Ht'. by apply key_ok; [apply Ho|].
  - intros t' Ht'. by apply take_updates_ok.
  - intros t' Ht'. by apply take_result_ok; [apply Ho|].
Qed.

(** A pass that starts after the deadline is the last. *)
Lemma pass_after_deadline o t d :
  cancel_deadline (run (t_app t)) = Some d -> d < now_ o ->
  exists x e t', tui_pass format gateway o t = Leaves (Ok x) e t'.
Proof.
  intros Hd Hn. unfold tui_pass, TuiLoop.begin_pass. set (t1 := with_app _ t). set (t2 := remember_tui_theme t1).
  assert (E : cancel_deadline (run (t_app t2)) = Some d).
  { rewrite <- Hd. unfold t2, remember_tui_theme. transitivity (cancel_deadline (run (t_app t1))).
    - by destruct (changed_theme_name _).
    - unfold t1. cbn. by rewrite fold_log_run. }
  clearbody t2. rewrite E. destruct (Z.ltb_spec d (now_ o)); [|lia].
  destruct (take_run t2) as [e t3]. unfold leave_with_summary, leave. cbn. by do 3 eexists.
Qed.

Lemma tui_run_ok passes t : Forall received_ok passes -> tui_ok t -> flow_ok t (tui_run format gateway passes t).
Proof.
  intros Hp. revert t. induction Hp as [|o passes Ho _ IH]; intros t Ht; cbn [tui_run]; [by apply core_flow|].
  pose proof (tui_pass_ok o t Ho Ht) as H. destruct (tui_pass _ _ _ _) as [r e t'|e t'|e t']; [done|..];
    (apply flow_then; [exact H|exact IH]).
Qed.

Lemma tui_run_cons o passes t :
  tui_run format gateway (o :: passes) t =
  match tui_pass format gateway o t with
  | Leaves r e t => Leaves r e t
  | Skips e t | Goes e t => then_ (Goes e t) (tui_run format gateway passes)
  end.
Proof. done. Qed.

Lemma pending_ends passes t d :
  Forall received_ok passes -> tui_ok t -> cancel_deadline (run (t_app t)) = Some d ->
  match tui_run format gateway passes t with
  | Leaves _ _ _ => True
  | Skips e _ | Goes e _ => respawned e = false -> Forall (fun o => now_ o <= d) passes
  end.
Proof.
  intros Hp. revert t. induction Hp as [|o passes Ho _ IH]; intros t Ht Hd; [by constructor|].
  rewrite tui_run_cons.
  pose proof (tui_pass_ok o t Ho Ht) as H.
  assert (Hn : (exists x e t', tui_pass format gateway o t = Leaves (Ok x) e t') \/ now_ o <= d).
  { destruct (Z.le_gt_cases (now_ o) d); [by right|left; by apply pass_after_deadline with d]. }
  destruct (tui_pass format gateway o t) as [r e t'|e t'|e t']; [done|..];
    (destruct Hn as [(? & ? & ? & ?)|Hn]; [done|]); destruct H as [Ht' Hk]; specialize (IH t' Ht').
  all: cbn [then_]; destruct (tui_run format gateway passes t') as [r e' t''|e' t''|e' t'']; try exact I.
  all: rewrite respawned_app; intros [Hr Hr']%orb_false_iff; (constructor; [exact Hn|]); exact (IH (Hk Hr d Hd) Hr').
Qed.
End invariant.

(** ** What the loop promises *)
Definition reported_in (passes : list seen) (r : TestResult) : Prop :=
  exists o, In o passes /\ finished o = Some (Ok r).
Definition due_after (passes : list seen) (d : Z) : Prop :=
  exists o k, In o passes /\ pressed o = Some k /\ d = now_ o + TUI_CANCEL_WAIT.
Definition counts_bytes (o : seen) : Prop := Forall (fun p => 0 <= tp_total_bytes p) (updates o).

Lemma all_received passes : Forall counts_bytes passes ->
  Forall (received_ok (reported_in passes) (due_after passes)) passes.
Proof.
  intros H. rewrite Forall_forall in *. intros o Ho. apply list_elem_of_In in Ho as Hi.
  split; [by apply H|]. split; [intros r Hr; by exists o|]. intros k Hk. by exists o, k.
Qed.

Lemma start_ok format reported due now system config tf prefs no_color off lock :
  tui_ok reported due (start_tui format now system config tf prefs no_color off lock).2.
Proof.
  unfold start_tui. set (a := log_tui_quic_ignored_options _ _ _ _).
  assert (E : loop_view (run a) = (Connecting, None, None, 0)) by (unfold a; by rewrite warnings_run). clearbody a.
  unfold loop_view in E. injection E as E1 E2 E3 E4.
  unfold spawn_tui_run. split; cbn; rewrite ?E2, ?E3, ?E4; try done. intros _. by exists 0.
Qed.

(** However keys, updates and results arrive, the loop ends with no test left
    running.  What it returns as a result is one that a test of this session
    reported; only where there is none does it return a summary marked as
    partial, and the bytes in that are those of the full reports received
    since the last start -- the bytes on the screen, short of the 64-bit
    limits. *)
Theorem tui_exit_sound format gateway now system config tf prefs no_color off lock passes :
  Forall counts_bytes passes ->
  match tui_run format gateway passes (start_tui format now system config tf prefs no_color off lock).2 with
  | Leaves (Ok x) _ t =>
    t_run t = None /\
    if exit_partial x
    then exit_result x = tui_fallback_result (fallback_bytes t) (fallback_elapsed_ms t) /\
         counts_agree (fallback_bytes t) (total_bytes (run (t_app t)))
    else forall r, exit_result x = Some r -> reported_in passes r
  | _ => True
  end.
Proof.
  intros Hp. pose proof (tui_run_ok format gateway (reported_in passes) (due_after passes) passes _ (all_received passes Hp)
    (start_ok format _ _ now system config tf prefs no_color off lock)) as H.
  by destruct (tui_run _ _ _ _) as [[x|e] eff t| |].
Qed.

(** C32. A quit is over in time: once a cancellation is pending, its deadline lies
    five seconds after a key press, and whatever the test task and the user do
    the loop does not go on past it, unless the user starts a new test. *)
Theorem tui_quit_bounded format gateway now system config tf prefs no_color off lock before after :
  Forall counts_bytes (before ++ after) ->
  match tui_run format gateway before (start_tui format now system config tf prefs no_color off lock).2 with
  | Leaves _ _ _ => True
  | Skips _ t | Goes _ t =>
    forall d, cancel_deadline (run (t_app t)) = Some d ->
    due_after before d /\
    match tui_run format gateway after t with
    | Leaves _ _ _ => True
    | Skips e _ | Goes e _ => respawned e = false -> Forall (fun o => now_ o <= d) after
    end
  end.
Proof.
  intros [Hb Ha]%Forall_app.
  pose proof (tui_run_ok format gateway (reported_in before) (due_after before) before _ (all_received before Hb)
    (start_ok format _ _ now system config tf prefs no_color off lock)) as H.
  destruct (tui_run _ _ before _) as [r e t|e t|e t]; [done|..]; destruct H as [Ht _].
  all: intros d Hd; split; [by apply (ok_due _ _ _ Ht)|].
  all: apply (pending_ends format gateway (fun _ => True) (fun _ => True)); [|clear - Ht|done].
  all: try (destruct Ht as [H1 H2 H3 H5 H4]; split; try done; by destruct (run_result _); [split; [apply H2|]|]).
  all: rewrite Forall_forall in *; intros o Ho; by split; [apply Ha|].
Qed.

Definition demo_pass (now : Z) (k : option KeyEvent) (ps : list TestProgress) (e : option (result TestResult str)) : seen :=
  mkSeen now now [] None false None None None (80, 24) k NotReady None ps e.
Definition demo_report (bytes : Z) : TestProgress :=
  mkTestProgress 1000 bytes zero [] None None None None None None None None false None None.
Definition demo_start : tui :=
  (start_tui demo_format 0 0 default_config TimestampFormat.Relative default_prefs false true None).2.
Definition demo_quit : list seen :=
  [demo_pass 1000000000 None [demo_report 700; demo_report 300] None;
   demo_pass 2000000000 (Some (mkKey (Char 113) false)) [] None].
Definition demo_waits : list seen := [demo_pass 6000000000 None [demo_report 24] None].
Definition demo_end : list seen := [demo_pass 7000000001 None [demo_report 9] None].

Theorem tui_exit_sound_witness :
  match tui_run demo_format false (demo_quit ++ demo_waits ++ demo_end) demo_start with
  | Leaves (Ok x) e t => exit_partial x = true /\ option_map tr_bytes_total (exit_result x) = Some 1024 /\
      e = [CancelRun; AbortRun] /\ t_run t = None
  | _ => False
  end.
Proof.
  pose proof (tui_exit_sound demo_format false 0 0 default_config TimestampFormat.Relative default_prefs false true None
    (demo_quit ++ demo_waits ++ demo_end) ltac:(repeat constructor; discriminate)) as H.
  assert (E : match tui_run demo_format false (demo_quit ++ demo_waits ++ demo_end) demo_start with
    | Leaves (Ok x) e t => exit_partial x = true /\ option_map tr_bytes_total (exit_result x) = Some 1024 /\
        e = [CancelRun; AbortRun] | _ => False end) by (vm_compute; split_and!; reflexivity).
  fold demo_start in H. destruct (tui_run _ _ _ _) as [[x|e] eff t| |]; try done.
  destruct H as [H _]. destruct E as (? & ? & ?). by split_and!.
Defined.

Theorem tui_quit_bounded_witness :
  match tui_run demo_format false demo_quit demo_start with
  | Leaves _ _ _ => False
  | Skips _ t | Goes _ t =>
    cancel_deadline (run (t_app t)) = Some 7000000000 /\ due_after demo_quit 7000000000 /\
    match tui_run demo_format false demo_waits t with
    | Leaves _ _ _ => False
    | Skips _ _ | Goes _ _ => Forall (fun o => now_ o <= 7000000000) demo_waits
    end
  end.
Proof.
  pose proof (tui_quit_bounded demo_format false 0 0 default_config TimestampFormat.Relative default_prefs false true None
    demo_quit demo_waits ltac:(repeat constructor; discriminate)) as H.
  assert (E : match tui_run demo_format false demo_quit demo_start with
    | Leaves _ _ _ => False
    | Skips _ t | Goes _ t => cancel_deadline (run (t_app t)) = Some 7000000000 /\
      match tui_run demo_format false demo_waits t with Leaves _ _ _ => False
      | Skips e _ | Goes e _ => respawned e = false end
    end) by (vm_compute; split_and!; reflexivity).
  fold demo_start in H. destruct (tui_run _ _ demo_quit _) as [r e t|e t|e t]; [done|..].
  all: destruct E as [E1 E2]; destruct (H _ E1) as [H1 H2]; split; [exact E1|split; [exact H1|]].
  all: destruct (tui_run _ _ demo_waits _); [done|..]; by apply H2.
Defined.
