(* ===== verification/Discover.v ===== *)
(** * Servers on the local network (src/src/discover.rs, src/src/main.rs)

    The mDNS label and instance name a server advertises, the answers of a
    browse collected into servers with their usable addresses, and the listing
    [xfr discover] prints.  The mdns-sd crate is a parameter: what it hands
    over per event, and the addresses of an interface. *)
From Stdlib Require Import Sorting.Sorted.
From S2P Require Import Prelude Cli Order.
From S2P Require Import Bytes Text Fmt Ip Protocol Target IpText.

(** ** Addresses *)
Record DiscoveredAddress := mkAddr { ip : IpAddr; zone : option str }.
Record DiscoveredServer := mkServer {
  addresses : list DiscoveredAddress; port : Z; hostname : option str; version : option str }.

#[export] Instance DiscoveredAddress_eq_dec : EqDecision DiscoveredAddress.
Proof. solve_decision. Defined.

Definition is_loopback (ip : IpAddr) : bool :=
  match ip with V4 a => a / 2 ^ 24 =? 127 | V6 a => a =? 1 end.
(** 169.254/16. *)
Definition is_link_local_v4 (a : Z) : bool := (a / 2 ^ 24 =? 169) && (a / 2 ^ 16 mod 256 =? 254).
Definition is_link_local_v6 (ip : IpAddr) : bool :=
  match ip with V6 v6 => is_unicast_link_local v6 | V4 _ => false end.

Definition preference (ip : IpAddr) : Z :=
  if is_loopback ip then 4 else
  match ip with
  | V4 v4 =>
    if is_link_local_v4 v4 then 3
    else if (v4 / 2 ^ 24 =? 172) && (Z.land (v4 / 2 ^ 16 mod 256) 240 =? 16) then 1
    else 0
  | V6 v6 => if is_unicast_link_local v6 then 3 else 2
  end.

(** The derived order of addresses, after the preference. *)
Definition ip_key (ip : IpAddr) : Z * Z := match ip with V4 a => (4, a) | V6 a => (6, a) end.
Definition address_key (a : DiscoveredAddress) : Z * ((Z * Z) * option str) :=
  (preference (ip a), (ip_key (ip a), zone a)).

Definition mem (a : DiscoveredAddress) (l : list DiscoveredAddress) : bool := bool_decide (a ∈ l).
Definition is_some {A} (o : option A) : bool := match o with Some _ => true | None => false end.

(** A server is ours with our hostname and our own address heard where it is. *)
Definition ours (answers own : list DiscoveredAddress) (our_hostname : bool) : bool :=
  our_hostname && existsb (fun a => is_link_local_v6 (ip a) && mem a own) answers.
Definition usable (own : list DiscoveredAddress) (ours : bool) (a : DiscoveredAddress) : bool :=
  negb (is_link_local_v6 (ip a)) || (is_some (zone a) && (negb ours || mem a own)).

Definition usable_addresses (answers own : list DiscoveredAddress) (our_hostname : bool) : list DiscoveredAddress :=
  let ours := ours answers own our_hostname in
  dedup (sort_by address_key (List.filter (usable own ours) answers)).

Definition eq_ignore_ascii_case (a b : str) : bool := str_eqb (to_ascii_lowercase a) (to_ascii_lowercase b).
Definition is_our_hostname (advertised ours : str) : bool :=
  let label := trim_end_matches 46 advertised in
  eq_ignore_ascii_case label ours || eq_ignore_ascii_case label (ours ++ txt ".local").

(** ** Advertised names *)
Definition DNS_LABEL_MAX : Z := 63.

Definition fnv1a_16 (bytes : list Z) : Z :=
  let hash := fold_left (fun hash b => wrap 32 (Z.lxor hash b * 16777619)) bytes 2166136261 in
  wrap 16 hash.

(** [{:04x}] of 16 bits. *)
Definition hex4 (z : Z) : str :=
  [hex_digit (z / 4096 mod 16); hex_digit (z / 256 mod 16); hex_digit (z / 16 mod 16); hex_digit (z mod 16)].

(** [name[..end]], where [end] is stepped back to a character boundary: the
    longest prefix of whole characters that fits. *)
Fixpoint clamp_bytes (room : Z) (name : str) : str :=
  match name with
  | [] => []
  | c :: name => if len_utf8 c <=? room then c :: clamp_bytes (room - len_utf8 c) name else []
  end.

Definition fit_label (name : str) (max : Z) : str :=
  let name := trim name in
  match name with
  | [] => txt "xfr-server"
  | _ =>
    if str_len name <=? max then name
    else
      let suffix := txt "-" ++ hex4 (fnv1a_16 (as_bytes name)) in
      clamp_bytes (max - str_len suffix) name ++ suffix
  end.

Definition dns_label (name : str) : str := fit_label name DNS_LABEL_MAX.

Definition instance_name (raw_hostname : str) (port : Z) : str :=
  if port =? DEFAULT_PORT then dns_label raw_hostname
  else
    let suffix := txt " (" ++ dec port ++ txt ")" in
    fit_label raw_hostname (DNS_LABEL_MAX - str_len suffix) ++ suffix.

(** ** Browsing *)

(** An interface, and an address with the interface it was heard on. *)
Record InterfaceId := mkIf { name : str; index : Z }.
Inductive ScopedIp := ScopedV4 (addr : Z) | ScopedV6 (addr : Z) (scope_id : InterfaceId).
#[export] Instance InterfaceId_eq_dec : EqDecision InterfaceId.
Proof. solve_decision. Defined.

(** What the code reads of a resolved service. *)
Record ServiceInfo := mkInfo {
  get_port : Z; get_hostname : str; get_addresses : list ScopedIp; version_property : option str }.

(** One pass of the loop: an event, the channel closed, or the wait over. *)
Inductive event := ServiceResolved (info : ServiceInfo) | OtherEvent | Disconnected | Elapsed.

Section browsing.
(** Whether this is a unix build, and [InterfaceId::get_addrs]. *)
Variables (unix : bool) (get_addrs : InterfaceId -> list IpAddr).

Definition zone_name (id : InterfaceId) : str :=
  if unix && negb (bool_decide (name id = [])) then name id else dec (index id).

Definition link_local_zone (addr : ScopedIp) : option str :=
  match addr with
  | ScopedV6 v6 scope => if is_unicast_link_local v6 && negb (index scope =? 0) then Some (zone_name scope) else None
  | ScopedV4 _ => None
  end.
Definition to_ip_addr (addr : ScopedIp) : IpAddr :=
  match addr with ScopedV4 a => V4 a | ScopedV6 a _ => V6 a end.

(** The servers found, each with its answers so far, and the interfaces. *)
Record browse := mkBrowse {
  found : list (list DiscoveredAddress * DiscoveredServer); receiving : list InterfaceId }.

Definition answers_of (info : ServiceInfo) : list DiscoveredAddress :=
  map (fun addr => mkAddr (to_ip_addr addr) (link_local_zone addr)) (get_addresses info).
Definition server_of (info : ServiceInfo) : DiscoveredServer :=
  mkServer [] (get_port info) (Some (get_hostname info)) (version_property info).

Definition note_interface (receiving : list InterfaceId) (addr : ScopedIp) : list InterfaceId :=
  match addr with
  | ScopedV6 _ scope => if bool_decide (scope ∈ receiving) then receiving else receiving ++ [scope]
  | ScopedV4 _ => receiving
  end.

Definition same_server (s server : DiscoveredServer) : bool :=
  bool_decide (hostname s = hostname server) && (port s =? port server).

(** The first entry of the host and port takes the answers, else a new one. *)
Fixpoint merge (answers : list DiscoveredAddress) (server : DiscoveredServer)
    (found : list (list DiscoveredAddress * DiscoveredServer)) : list (list DiscoveredAddress * DiscoveredServer) :=
  match found with
  | [] => [(answers, server)]
  | (seen, latest) :: found =>
    if same_server latest server then (seen ++ answers, server) :: found
    else (seen, latest) :: merge answers server found
  end.

Definition on_resolved (info : ServiceInfo) (b : browse) : browse :=
  mkBrowse (merge (answers_of info) (server_of info) (found b))
           (fold_left note_interface (get_addresses info) (receiving b)).

(** The loop: the time since the start at the top of each pass, and what the
    pass waited for, at most 100 ms or what remains. *)
Fixpoint browse_loop (timeout : Z) (passes : list (Z * event)) (b : browse) : browse :=
  match passes with
  | [] => b
  | (elapsed, ev) :: passes =>
    if saturating_sub timeout elapsed =? 0 then b
    else
      match ev with
      | ServiceResolved info => browse_loop timeout passes (on_resolved info b)
      | Disconnected => b
      | OtherEvent | Elapsed => browse_loop timeout passes b
      end
  end.

Definition own_addresses (receiving : list InterfaceId) : list DiscoveredAddress :=
  flat_map (fun id => map (fun ip => mkAddr ip (Some (zone_name id)))
                          (List.filter is_link_local_v6 (get_addrs id))) receiving.

Definition finish_server (own : list DiscoveredAddress) (our_label : str)
    (entry : list DiscoveredAddress * DiscoveredServer) : option DiscoveredServer :=
  let '(answers, server) := entry in
  let our_hostname := match hostname server with Some h => is_our_hostname h our_label | None => false end in
  let addresses := usable_addresses answers own our_hostname in
  if bool_decide (addresses = []) then None
  else Some (mkServer addresses (port server) (hostname server) (version server)).

Definition server_key (s : DiscoveredServer) : option str * Z := (hostname s, port s).

Definition system_hostname (get : option str) : str := match get with Some h => h | None => txt "xfr-server" end.

(** [discover], once the browse has started. *)
Definition discover (timeout : Z) (host : option str) (passes : list (Z * event)) : list DiscoveredServer :=
  let b := browse_loop timeout passes (mkBrowse [] []) in
  let own := own_addresses (receiving b) in
  let our_label := dns_label (system_hostname host) in
  sort_by server_key (omap (finish_server own our_label) (found b)).
End browsing.

(** ** Printing *)
Definition show_ip (ip : IpAddr) : str := match ip with V4 a => show_ipv4 a | V6 a => show_ipv6 a end.

Definition show_address (a : DiscoveredAddress) : str :=
  match ip a, zone a with
  | V6 v6, Some zone => txt "[" ++ show_ipv6 v6 ++ txt "%" ++ zone ++ txt "]"
  | V6 v6, None => txt "[" ++ show_ipv6 v6 ++ txt "]"
  | ip, _ => show_ip ip
  end.

Definition show_server (s : DiscoveredServer) : str :=
  match addresses s with addr :: _ => show_address addr | [] => [] end
  ++ txt ":" ++ dec (port s)
  ++ match hostname s with Some h => txt " (" ++ h ++ txt ")" | None => [] end
  ++ match version s with Some v => txt " xfr/" ++ v | None => [] end.

(** How many other link-local candidates the line of a server leaves out. *)
Definition more_link_local (verbose : bool) (s : DiscoveredServer) : nat :=
  match addresses s with
  | first :: rest =>
    if is_link_local_v6 (ip first) && negb verbose
    then length (List.filter (fun a => is_link_local_v6 (ip a)) rest) else 0%nat
  | [] => 0%nat
  end.

Definition listing_rows (verbose : bool) (s : DiscoveredServer) : list str :=
  (if Nat.ltb 0 (more_link_local verbose s)
   then txt "  " ++ show_server s ++ txt " (+" ++ dec (Z.of_nat (more_link_local verbose s)) ++ txt " more link-local, see -v)"
   else txt "  " ++ show_server s)
  :: (if verbose then map (fun a => txt "      " ++ show_address a ++ txt ":" ++ dec (port s)) (addresses s) else []).

Definition discover_listing (verbose : bool) (servers : list DiscoveredServer) : list str :=
  match servers with
  | [] => [txt "No xfr servers found."]
  | _ => (txt "Found " ++ dec (Z.of_nat (length servers)) ++ txt " server(s):")
         :: flat_map (listing_rows verbose) servers
  end.
(** ** Usable addresses *)
Lemma ip_key_inj a b : ip_key a = ip_key b -> a = b.
Proof. destruct a, b; cbn; congruence. Qed.
Lemma address_key_inj a b : address_key a = address_key b -> a = b.
Proof.
  destruct a as [i z], b as [j w]. unfold address_key. cbn. intros [= _ E ->]. by rewrite (ip_key_inj i j).
Qed.

(** The usable addresses of a server are exactly those of its answers that can
    be connected to: no link-local one without its interface, and of a server
    on this host only the link-local ones that belong where they were heard.
    None is listed twice and they are in order of preference. *)
Lemma usable_addresses_spec (answers own : list DiscoveredAddress) (our : bool) :
  (forall a, In a (usable_addresses answers own our) <->
     In a answers /\
     (is_link_local_v6 (ip a) = true -> is_some (zone a) = true /\ (ours answers own our = true -> In a own))) /\
  List.NoDup (usable_addresses answers own our) /\
  StronglySorted (fun a b => preference (ip a) <= preference (ip b)) (usable_addresses answers own our).
Proof.
  unfold usable_addresses. set (o := ours answers own our). split.
  - intros a. rewrite dedup_in, sort_by_in, filter_In. unfold usable, mem.
    destruct (is_link_local_v6 (ip a)), (is_some (zone a)), o; cbn; rewrite ?bool_decide_eq_true; rewrite ?list_elem_of_In; intuition congruence.
  - destruct (dedup_sorted _ _ (fun x y H1 H2 => address_key_inj x y (le_key_antisym address_key x y H1 H2))
                           (sort_by_sorted address_key (List.filter (usable own o) answers))) as [Hs Hn].
    split; [done|]. revert Hs. generalize (dedup (sort_by address_key (List.filter (usable own o) answers))).
    intros l Hs. induction Hs as [|x l Hl IH Hx]; constructor; [done|]. apply (Forall_impl _ _ _ Hx).
    intros y Hy. unfold le_key, address_key in Hy. rewrite cmp_pair in Hy. revert Hy. unfold cmp at 1, Z_ord.
    destruct (Z.compare_spec (preference (ip x)) (preference (ip y))); [lia..|done].
Qed.

(** ** Advertised names *)
Lemma len_utf8_bounds c : 1 <= len_utf8 c <= 4.
Proof. unfold len_utf8. repeat case_match; lia. Qed.
Lemma str_len_cat a b : str_len (a ++ b) = str_len a + str_len b.
Proof. unfold str_len. by rewrite map_app, zsum_app. Qed.
Lemma str_len_bound s : Z.of_nat (length s) <= str_len s.
Proof.
  unfold str_len. induction s as [|c s IH]; cbn [map zsum length]; [lia|]. pose proof (len_utf8_bounds c). lia.
Qed.
Lemma str_len_ascii s : Forall (fun c => c < 128) s -> str_len s = Z.of_nat (length s).
Proof.
  unfold str_len. induction 1 as [|c s Hc _ IH]; cbn [map zsum length]; [done|].
  assert (E : len_utf8 c = 1) by (unfold len_utf8; by rewrite (proj2 (Z.ltb_lt c 128) Hc)). lia.
Qed.
Lemma clamp_bytes_fits room s : 0 <= room -> str_len (clamp_bytes room s) <= room.
Proof.
  revert room. induction s as [|c s IH]; intros room Hr; cbn; [done|]. destruct (Z.leb_spec (len_utf8 c) room); [|done].
  change (len_utf8 c + str_len (clamp_bytes (room - len_utf8 c) s) <= room). specialize (IH (room - len_utf8 c)). lia.
Qed.
Lemma hex4_len z : str_len (txt "-" ++ hex4 z) = 5.
Proof.
  change (txt "-" ++ hex4 z) with (45 :: hex4 z). rewrite str_len_ascii; [done|].
  assert (H : forall x, hex_digit (x mod 16) < 128)
    by (intros x; pose proof (hex_digit_ascii (x mod 16) (Z.mod_pos_bound x 16 ltac:(lia))); lia).
  unfold hex4. rewrite !Forall_cons. by split_and!.
Qed.

Lemma fit_label_fits name max : 10 <= max -> 1 <= str_len (fit_label name max) <= max.
Proof.
  intros Hm. unfold fit_label. destruct (trim name) as [|c s] eqn:E; [change (1 <= 10 <= max); lia|].
  destruct (Z.leb_spec (str_len (c :: s)) max) as [H|H].
  - split; [|done]. pose proof (str_len_bound (c :: s)). cbn [length] in *. lia.
  - rewrite str_len_cat, hex4_len. pose proof (clamp_bytes_fits (max - 5) (c :: s) ltac:(lia)).
    pose proof (str_len_bound (clamp_bytes (max - 5) (c :: s))). lia.
Qed.
Lemma fit_label_kept name max : trim name <> [] -> str_len (trim name) <= max -> fit_label name max = trim name.
Proof. unfold fit_label. destruct (trim name) as [|c s]; [done|]. intros _ H. by rewrite (proj2 (Z.leb_le _ _) H). Qed.

(** The suffix of a port that is not the default. *)
Definition port_suffix (port : Z) : str := txt " (" ++ dec port ++ txt ")".

Lemma port_suffix_len port : 0 <= port <= u16_max -> 4 <= str_len (port_suffix port) <= 8.
Proof.
  unfold u16_max. intros Hp. unfold port_suffix. rewrite !str_len_cat.
  rewrite (str_len_ascii (dec port)) by (apply (Forall_impl _ _ _ (dec_digits port ltac:(lia))); lia).
  change (str_len (txt " (")) with 2. change (str_len (txt ")")) with 1.
  pose proof (dec_aux_length (S (Z.to_nat (Z.log2 port))) port 4 ltac:(cbn; lia)) as H.
  pose proof (dec_nonempty port) as Hn. unfold dec in *. destruct (dec_aux _ port); [done|]. cbn [length] in *. lia.
Qed.
Lemma instance_name_port raw port : port <> DEFAULT_PORT ->
  instance_name raw port = fit_label raw (63 - str_len (port_suffix port)) ++ port_suffix port.
Proof. unfold instance_name. intros H. by rewrite (proj2 (Z.eqb_neq _ _) H). Qed.

(** Two texts with the same last opening bracket agree after it. *)
Lemma after_last c (a b u v : str) :
  Forall (fun x => x <> c) u -> Forall (fun x => x <> c) v -> a ++ c :: u = b ++ c :: v -> u = v.
Proof.
  intros Hu Hv E. apply (f_equal (@rev Z)) in E. rewrite !rev_app_distr in E. cbn in E. rewrite <- !app_assoc in E.
  apply Forall_rev in Hu, Hv. rewrite <- (rev_involutive u), <- (rev_involutive v). f_equal.
  revert E. generalize (rev a) (rev b). clear a b. revert Hu Hv. generalize (rev u) (rev v). clear u v.
  intros u v Hu. revert v. induction Hu as [|x u Hx Hu IH]; intros v Hv a b E; destruct Hv as [|y v Hy Hv]; [done|..].
  - injection E as <- _. done.
  - injection E as -> _. done.
  - injection E as -> E. f_equal. by apply (IH v Hv a b).
Qed.
Lemma port_suffix_inj (a b : str) p q :
  0 <= p -> 0 <= q -> a ++ port_suffix p = b ++ port_suffix q -> p = q.
Proof.
  intros Hp Hq E. unfold port_suffix in E.
  change (txt " (" ++ dec p ++ txt ")") with ([32] ++ 40 :: (dec p ++ [41])) in E.
  change (txt " (" ++ dec q ++ txt ")") with ([32] ++ 40 :: (dec q ++ [41])) in E.
  rewrite !app_assoc in E.
  assert (Hd : forall z, 0 <= z -> Forall (fun x => x <> 40) (dec z ++ [41])).
  { intros z Hz. apply Forall_app. split; [|repeat constructor; lia].
    apply (Forall_impl _ _ _ (dec_digits z Hz)). lia. }
  apply after_last in E; [|by apply Hd..]. apply app_inj_tail in E as [E _].
  pose proof (dec_parse (Z.max p q) p ltac:(lia)) as H1. pose proof (dec_parse (Z.max p q) q ltac:(lia)) as H2. congruence.
Qed.

(** Every advertised name is a DNS label of 1 to 63 bytes, a host name that
    fits is kept, and servers of one host on different ports have different
    instance names when neither has the default port or the host name leaves
    room for the longest port. *)
Theorem instance_names_unique (raw : str) (p q : Z) :
  0 <= p <= u16_max -> 0 <= q <= u16_max -> p <> q ->
  (p <> DEFAULT_PORT /\ q <> DEFAULT_PORT) \/ str_len (trim raw) <= DNS_LABEL_MAX - 8 ->
  instance_name raw p <> instance_name raw q /\
  1 <= str_len (instance_name raw p) <= DNS_LABEL_MAX /\ 1 <= str_len (dns_label raw) <= DNS_LABEL_MAX.
Proof.
  unfold DNS_LABEL_MAX. intros Hp Hq Hn Hc. pose proof (fit_label_fits raw 63 ltac:(lia)) as Hf.
  fold (dns_label raw) in Hf. split; [|split; [|done]].
  2: destruct (Z.eq_dec p DEFAULT_PORT) as [->|Hd]; [done|];
       rewrite instance_name_port by done; pose proof (port_suffix_len p Hp) as Hl; rewrite str_len_cat;
       pose proof (fit_label_fits raw (63 - str_len (port_suffix p)) ltac:(lia)); lia.
  assert (Hone : forall x, 0 <= x <= u16_max -> x <> DEFAULT_PORT -> str_len (trim raw) <= 55 -> instance_name raw x <> dns_label raw).
  { intros x Hx Hd Hs. rewrite instance_name_port by done. pose proof (port_suffix_len x Hx) as Hl.
    intros E. apply (f_equal str_len) in E. rewrite str_len_cat in E. revert E.
    unfold dns_label, fit_label. destruct (trim raw) as [|c s]; [lia|].
    rewrite !(proj2 (Z.leb_le _ _)) by (unfold DNS_LABEL_MAX; lia). lia. }
  destruct (Z.eq_dec p DEFAULT_PORT) as [->|Hdp], (Z.eq_dec q DEFAULT_PORT) as [->|Hdq]; [done|..].
  - change (instance_name raw DEFAULT_PORT) with (dns_label raw). apply not_eq_sym. apply Hone; [done..|]. lia.
  - change (instance_name raw DEFAULT_PORT) with (dns_label raw). apply Hone; [done..|]. lia.
  - rewrite !instance_name_port by done. intros E. by apply port_suffix_inj in E; [|lia..].
Qed.

(** ** Browsing *)
Section browsed.
Context (unix : bool) (get_addrs : InterfaceId -> list IpAddr).
#[local] Notation answers_of := (answers_of unix).
#[local] Notation on_resolved := (on_resolved unix).

(** The services the loop handles, before the time is over or the channel closed. *)
Fixpoint resolved (timeout : Z) (passes : list (Z * event)) : list ServiceInfo :=
  match passes with
  | [] => []
  | (elapsed, ev) :: passes =>
    if timeout <=? elapsed then []
    else match ev with
         | ServiceResolved info => info :: resolved timeout passes
         | Disconnected => []
         | _ => resolved timeout passes
         end
  end.

Lemma browse_loop_resolved timeout passes b :
  browse_loop unix timeout passes b = fold_left (fun b info => on_resolved info b) (resolved timeout passes) b.
Proof.
  revert b. induction passes as [|[t ev] passes IH]; intros b; [done|]. cbn [browse_loop resolved].
  rewrite saturating_sub_spec. destruct (Z.leb_spec timeout t), (Z.ltb_spec timeout t); try lia.
  - done.
  - by rewrite (proj2 (Z.eqb_eq (timeout - t) 0)) by lia.
  - rewrite (proj2 (Z.eqb_neq (timeout - t) 0)) by lia. destruct ev; cbn [fold_left]; done || apply IH.
Qed.

(** The answers of a host and port. *)
Definition about (k : option str * Z) (infos : list ServiceInfo) : list ServiceInfo :=
  List.filter (fun info => bool_decide (server_key (server_of info) = k)) infos.

Lemma same_server_key s server : same_server s server = bool_decide (server_key s = server_key server).
Proof.
  unfold same_server, server_key. destruct (Z.eqb_spec (port s) (port server)) as [E|E].
  - rewrite andb_true_r. apply bool_decide_ext. rewrite E. split; [by intros ->|by intros [= ->]].
  - rewrite andb_false_r. symmetry. apply bool_decide_eq_false. by intros [= _ ?].
Qed.

(** Each entry holds the latest service of its host and port, and all answers. *)
Definition entries_ok (infos : list ServiceInfo) (found : list (list DiscoveredAddress * DiscoveredServer)) : Prop :=
  List.NoDup (map (fun e => server_key (snd e)) found) /\
  forall e, In e found <->
    option_map server_of (last (about (server_key (snd e)) infos)) = Some (snd e) /\
    fst e = flat_map answers_of (about (server_key (snd e)) infos).

Lemma merge_in answers server fs e :
  List.NoDup (map (fun e => server_key (snd e)) fs) ->
  In e (merge answers server fs) <->
  (server_key (snd e) <> server_key server /\ In e fs) \/
  (snd e = server /\
   ((exists old, In old fs /\ server_key (snd old) = server_key server /\ fst e = fst old ++ answers) \/
    (Forall (fun old => server_key (snd old) <> server_key server) fs /\ fst e = answers))).
Proof.
  induction fs as [|[seen latest] fs IH]; intros Hn.
  - cbn. destruct e as [a s]. cbn. split.
    + intros [[= -> ->]|[]]. right. split; [done|]. right. by split.
    + intros [[_ []]|[-> [(old & [] & _)|[_ ->]]]]. by left.
  - cbn [merge map snd] in *. apply NoDup_cons_iff in Hn as [Hx Hn]. rewrite same_server_key.
    assert (Hother : forall old, In old fs -> server_key (snd old) <> server_key latest).
    { intros old Hin E. apply Hx. rewrite <- E. by apply (in_map (fun e => server_key (snd e))). }
    destruct (bool_decide_reflect (server_key latest = server_key server)) as [E|E].
    + destruct e as [a s]. cbn. split.
      * intros [[= <- <-]|Hin].
        -- right. split; [done|]. left. exists (seen, latest). by auto.
        -- left. split; [|by right]. rewrite <- E. by apply (Hother (a, s)).
      * intros [[Hk [[= -> ->]|Hin]]|[-> [(old & [<-|Hin] & Hk & ->)|[Hf _]]]]; [done|by right|by left|..].
        -- exfalso. apply (Hother old Hin). by rewrite Hk.
        -- apply Forall_cons in Hf as [Hf _]. done.
    + cbn [In]. rewrite (IH Hn), Forall_cons. destruct e as [a s]. cbn [fst snd]. split.
      * intros [[= <- <-]|[[Hk Hin]|[-> [(old & Hin & Hk & ->)|[Hf ->]]]]]; [left; by auto|left; by auto|..].
        -- right. split; [done|]. left. exists old. by auto.
        -- right. split; [done|]. right. by auto.
      * intros [[Hk [[= -> ->]|Hin]]|[-> [(old & [<-|Hin] & Hk & ->)|[[Hl Hf] ->]]]]; [by left|..].
        -- right. left. by auto.
        -- done.
        -- right. right. split; [done|]. left. exists old. by auto.
        -- right. right. split; [done|]. right. by auto.
Qed.

Lemma merge_keys answers server fs :
  List.NoDup (map (fun e => server_key (snd e)) fs) ->
  List.NoDup (map (fun e => server_key (snd e)) (merge answers server fs)).
Proof.
  induction fs as [|[seen latest] fs IH]; intros Hn; cbn [merge map snd] in *.
  - constructor; [by intros []|constructor].
  - apply NoDup_cons_iff in Hn as [Hx Hn]. rewrite same_server_key.
    destruct (bool_decide_reflect (server_key latest = server_key server)) as [E|E]; cbn [map snd]; constructor; try by auto.
    + by rewrite <- E.
    + rewrite in_map_iff. intros (e & Ek & Hin). apply (merge_in _ _ _ _ Hn) in Hin as [[_ Hin]|[Es _]].
      * apply Hx. rewrite <- Ek. by apply (in_map (fun e => server_key (snd e))).
      * rewrite Es in Ek. done.
Qed.

Lemma about_snoc k infos i :
  about k (infos ++ [i]) = if bool_decide (server_key (server_of i) = k) then about k infos ++ [i] else about k infos.
Proof.
  unfold about. rewrite List.filter_app. cbn. destruct (bool_decide _); [done|apply app_nil_r].
Qed.
Lemma about_key k infos i : In i (about k infos) -> server_key (server_of i) = k.
Proof. unfold about. rewrite filter_In, bool_decide_eq_true. by intros [_ ?]. Qed.
Lemma about_nil k infos : last (about k infos) = None -> about k infos = [].
Proof. apply last_None. Qed.

Lemma entries_step infos fs i :
  entries_ok infos fs -> entries_ok (infos ++ [i]) (merge (answers_of i) (server_of i) fs).
Proof.
  intros [Hn Hf]. split; [by apply merge_keys|]. intros e. rewrite (merge_in _ _ _ _ Hn), about_snoc.
  destruct (bool_decide_reflect (server_key (server_of i) = server_key (snd e))) as [E|E].
  - rewrite last_snoc, flat_map_app. cbn [flat_map option_map]. rewrite app_nil_r. split.
    + intros [[Hk _]|[Es He]]; [by rewrite E in Hk|]. rewrite Es in *. split; [done|].
      destruct He as [(old & Hin & Hk & ->)|[Hall ->]].
      * apply Hf in Hin as [_ Ho]. by rewrite Ho, Hk.
      * destruct (last (about (server_key (server_of i)) infos)) as [j|] eqn:El.
        -- exfalso. assert (Hj : server_key (server_of j) = server_key (server_of i)).
           { apply (about_key _ infos). apply list_elem_of_In. apply last_Some_elem_of. done. }
           rewrite Forall_forall in Hall.
           apply (Hall (flat_map answers_of (about (server_key (server_of i)) infos), server_of j)); [|done].
           apply list_elem_of_In, Hf. cbn. by rewrite Hj, El.
        -- by rewrite (about_nil _ _ El).
    + intros [[= Es] Ea]. right. split; [done|]. rewrite <- Es in *.
      destruct (last (about (server_key (server_of i)) infos)) as [j|] eqn:El.
      * left. assert (Hj : server_key (server_of j) = server_key (server_of i)).
        { apply (about_key _ infos). apply list_elem_of_In. apply last_Some_elem_of. done. }
        exists (flat_map answers_of (about (server_key (server_of i)) infos), server_of j).
        split_and!; [|done|done]. apply Hf. cbn. by rewrite Hj, El.
      * right. rewrite (about_nil _ _ El) in Ea. split; [|done]. apply List.Forall_forall. intros old Hin Hk.
        apply Hf in Hin as [Ho _]. rewrite Hk, El in Ho. done.
  - rewrite Hf. split; [|by left].
    intros [[_ H]|[Es _]]; [done|]. by rewrite Es in E.
Qed.

Lemma entries_of infos :
  entries_ok infos (found (fold_left (fun b info => on_resolved info b) infos (mkBrowse [] []))) /\
  receiving (fold_left (fun b info => on_resolved info b) infos (mkBrowse [] []))
  = fold_left note_interface (flat_map get_addresses infos) [].
Proof.
  induction infos as [|i infos IH] using rev_ind.
  - split; [|done]. split; [constructor|]. intros e. cbn. split; [done|]. by intros [? _].
  - rewrite !fold_left_app, flat_map_app. cbn [fold_left flat_map on_resolved found receiving].
    destruct IH as [IH1 IH2]. split; [by apply entries_step|]. by rewrite IH2, app_nil_r, fold_left_app.
Qed.

Lemma finish_server_spec own label e s :
  finish_server own label e = Some s <->
  addresses s <> [] /\ hostname s = hostname (snd e) /\ port s = port (snd e) /\ version s = version (snd e) /\
  addresses s = usable_addresses (fst e) own
                  (match hostname (snd e) with Some h => is_our_hostname h label | None => false end).
Proof.
  destruct e as [answers server]. cbn. set (u := usable_addresses _ _ _).
  destruct (bool_decide_reflect (u = [])) as [E|E]; split; try done.
  - intros (Ha & _ & _ & _ & Hu). exfalso. apply Ha. by rewrite Hu.
  - by intros [= <-].
  - destruct s. cbn. intros (_ & -> & -> & -> & ->). done.
Qed.
Lemma finish_server_key own label e s : finish_server own label e = Some s -> server_key s = server_key (snd e).
Proof. intros H. apply finish_server_spec in H as (_ & Hh & Hp & _). unfold server_key. congruence. Qed.

Lemma omap_in {A B} (f : A -> option B) l y : In y (omap f l) <-> exists x, In x l /\ f x = Some y.
Proof.
  rewrite <- list_elem_of_In, list_elem_of_omap. split; intros (x & Hx & E); exists x; split; try done; by apply list_elem_of_In.
Qed.

Lemma finish_keys own label fs :
  List.NoDup (map (fun e => server_key (snd e)) fs) ->
  List.NoDup (map server_key (omap (finish_server own label) fs)).
Proof.
  induction fs as [|e fs IH]; cbn [omap list_omap map]; intros Hn; [constructor|]. apply NoDup_cons_iff in Hn as [Hx Hn].
  destruct (finish_server own label e) as [s|] eqn:E; [|by apply IH]. cbn [map]. constructor; [|by apply IH].
  rewrite (finish_server_key _ _ _ _ E). contradict Hx. apply in_map_iff in Hx as (s' & Ek & Hin).
  apply omap_in in Hin as (e' & Hin & E'). rewrite (finish_server_key _ _ _ _ E') in Ek. rewrite <- Ek.
  by apply (in_map (fun e => server_key (snd e))).
Qed.

(** What the browse knows of this host's addresses and name. *)
Definition own_heard (infos : list ServiceInfo) : list DiscoveredAddress :=
  own_addresses unix get_addrs (fold_left note_interface (flat_map get_addresses infos) []).
Definition is_our (label : str) (s : DiscoveredServer) : bool :=
  match hostname s with Some h => is_our_hostname h label | None => false end.

Lemma about_last (info : ServiceInfo) infos : In info infos ->
  exists i, last (about (server_key (server_of info)) infos) = Some i /\
            server_key (server_of i) = server_key (server_of info).
Proof.
  intros Hin. destruct (last (about (server_key (server_of info)) infos)) as [i|] eqn:El.
  - exists i. split; [done|]. apply (about_key _ infos). apply list_elem_of_In. by apply last_Some_elem_of.
  - exfalso. assert (Hi : In info (about (server_key (server_of info)) infos))
      by (unfold about; rewrite filter_In, bool_decide_eq_true; done).
    by rewrite (about_nil _ _ El) in Hi.
Qed.

(** The servers listed, from the services resolved. *)
Lemma listed_spec own label infos fs s : entries_ok infos fs ->
  In s (omap (finish_server own label) fs) <->
  (exists i, last (about (server_key s) infos) = Some i /\ version s = version_property i) /\
  addresses s = usable_addresses (flat_map answers_of (about (server_key s) infos)) own (is_our label s) /\
  addresses s <> [].
Proof.
  intros [_ Hf]. rewrite omap_in. split.
  - intros (e & Hin & E). apply Hf in Hin as [Hs Ha]. pose proof (finish_server_key _ _ _ _ E) as Ek.
    rewrite <- Ek in Hs, Ha. apply finish_server_spec in E as (Hne & Eh & _ & Ev & Eu).
    rewrite <- Eh, Ha in Eu. split_and!; try done.
    destruct (last (about (server_key s) infos)) as [i|]; [|done]. injection Hs as Hs. exists i. by rewrite Ev, <- Hs.
  - intros ((i & El & Ev) & Eu & Hne).
    assert (Ek : server_key (server_of i) = server_key s).
    { apply (about_key _ infos). apply list_elem_of_In. by apply last_Some_elem_of. }
    exists (flat_map answers_of (about (server_key s) infos), server_of i). split.
    + apply Hf. cbn [fst snd]. by rewrite Ek, El.
    + apply finish_server_spec. cbn [fst snd]. pose proof (f_equal fst Ek) as Eh. pose proof (f_equal snd Ek) as Ep.
      unfold server_key in Eh, Ep. cbn [fst snd] in Eh, Ep. rewrite Eh, Ep. by split_and!.
Qed.

(** A search lists one server for each host and port that was resolved in
    time with an address that can be used, under the version of its last
    answer; the addresses are the usable ones of all its answers, none twice,
    in order of preference; the servers are in order of host name and port. *)
Theorem discover_exact (timeout : Z) (host : option str) (passes : list (Z * event)) :
  let infos := resolved timeout passes in
  let servers := discover unix get_addrs timeout host passes in
  let our := is_our (dns_label (system_hostname host)) in
  let answers s := flat_map answers_of (about (server_key s) infos) in
  let good s a := In a (answers s) /\
    (is_link_local_v6 (ip a) = true ->
     is_some (zone a) = true /\ (ours (answers s) (own_heard infos) (our s) = true -> In a (own_heard infos))) in
  (forall info, In info infos ->
     (exists a, good (server_of info) a) <-> exists s, In s servers /\ server_key s = server_key (server_of info)) /\
  (forall s, In s servers ->
     (exists info, last (about (server_key s) infos) = Some info /\ version s = version_property info) /\
     (forall a, In a (addresses s) <-> good s a) /\ List.NoDup (addresses s) /\ addresses s <> [] /\
     StronglySorted (fun a b => preference (ip a) <= preference (ip b)) (addresses s)) /\
  List.NoDup (map server_key servers) /\ sorted server_key servers.
Proof.
  intros infos servers our answers good. unfold servers, discover. rewrite browse_loop_resolved. fold infos.
  destruct (entries_of infos) as [He Hr]. rewrite Hr. fold (own_heard infos). set (fs := found _) in *.
  fold our. set (label := dns_label _).
  assert (Hg : forall s a, good s a <-> In a (usable_addresses (answers s) (own_heard infos) (our s)))
    by (intros s a; destruct (usable_addresses_spec (answers s) (own_heard infos) (our s)) as [-> _]; done).
  split_and!.
  - intros info Hin. destruct (about_last info infos Hin) as (i & El & Ek). split.
    + intros [a Ha]. apply Hg in Ha.
      exists (mkServer (usable_addresses (answers (server_of info)) (own_heard infos) (our (server_of info)))
                       (get_port info) (Some (get_hostname info)) (version_property i)).
      split; [|done]. apply sort_by_in, (listed_spec _ _ infos _ _ He). split; [by exists i|]. split; [done|].
      intros E. cbn [addresses] in E. by rewrite E in Ha.
    + intros (s & Hs & Es). apply sort_by_in, (listed_spec _ _ infos _ _ He) in Hs as (_ & Eu & Hne).
      destruct (addresses s) as [|a l] eqn:Ea; [done|]. exists a. apply Hg.
      assert (Ew : is_our label (server_of info) = is_our label s)
        by (unfold is_our; by rewrite (f_equal fst Es : hostname s = hostname (server_of info))).
      unfold answers, our. rewrite <- Es. fold label. rewrite Ew, <- Eu. by left.
  - intros s Hs. apply sort_by_in, (listed_spec _ _ infos _ _ He) in Hs as (Hi & Eu & Hne).
    destruct (usable_addresses_spec (answers s) (own_heard infos) (our s)) as (Hu1 & Hu2 & Hu3).
    change (addresses s = usable_addresses (answers s) (own_heard infos) (our s)) in Eu. rewrite Eu in *. by split_and!.
  - apply (Permutation_NoDup (Permutation_map server_key (Permutation_sym (sort_by_perm server_key _)))).
    apply finish_keys, He.
  - apply sort_by_sorted.
Qed.
End browsed.

(** ** Printed servers *)

(** No bracket, as in the name of an interface. *)
Definition bracketless (s : str) : Prop := Forall (fun c => c <> 91 /\ c <> 93) s.

(** The text inside the brackets. *)
Definition inner (a : DiscoveredAddress) : str :=
  match ip a, zone a with
  | V6 v6, Some zone => show_ipv6 v6 ++ txt "%" ++ zone
  | ip, _ => show_ip ip
  end.

Lemma inner_bracketless a : wf_ip (ip a) -> (forall z, zone a = Some z -> bracketless z) -> bracketless (inner a).
Proof.
  unfold inner, bracketless. intros Hw Hz. destruct (ip a) as [v|v] eqn:Ei; cbn [show_ip].
  - apply (Forall_impl _ _ _ (show_ipv4_chars v (proj1 Hw))); cbn; lia.
  - assert (H6 : Forall (fun c => c <> 91 /\ c <> 93) (show_ipv6 v))
      by (apply (Forall_impl _ _ _ (show_ipv6_chars v (proj1 Hw))); cbn; lia).
    destruct (zone a) as [z|]; [|done]. change (txt "%") with [37]. rewrite !Forall_app. split; [done|].
    split; [by constructor; [lia|]|by apply Hz].
Qed.

Lemma show_address_host_port a port : wf_ip (ip a) -> (forall z, zone a = Some z -> bracketless z) ->
  show_address a ++ txt ":" ++ dec port = host_port (inner a) port.
Proof.
  intros Hw Hz. pose proof (inner_bracketless a Hw Hz) as Hb. unfold host_port. fold (unbracketed (inner a)).
  rewrite unbracketed_id by done. unfold inner, show_address in *. destruct (ip a) as [v|v] eqn:Ei; cbn [show_ip] in *.
  - rewrite (proj2 (contains_char_false 58 (show_ipv4 v))); [done|].
    apply (Forall_impl _ _ _ (show_ipv4_chars v (proj1 Hw))); cbn; lia.
  - destruct (zone a) as [z|].
    + rewrite contains_char_app, show_ipv6_colon. cbn [orb]. by rewrite <- !app_assoc.
    + rewrite show_ipv6_colon. by rewrite <- !app_assoc.
Qed.

(** Every address and port a search prints can be typed back: it splits into
    the port and a host that is read as that very address, IPv6 in any of its
    printed forms included, and a link-local address on the interface it was
    heard on. *)
Theorem printed_server_reads_back (if_nametoindex : str -> Z) (answers own : list DiscoveredAddress) (our : bool)
    (a : DiscoveredAddress) (port : Z) :
  In a (usable_addresses answers own our) -> wf_ip (ip a) ->
  (forall z, zone a = Some z -> bracketless z) -> 0 <= port <= u16_max ->
  exists host, split_host_port (show_address a ++ txt ":" ++ dec port) = Ok (host, Some port) /\
    parse_ip_literal if_nametoindex host port =
    match ip a, zone a with
    | V6 v6, Some zone => let? scope := zone_to_scope_id if_nametoindex zone in Ok (Some (SaV6 v6 port 0 scope))
    | ip, _ => Ok (Some (sa_new ip port))
    end.
Proof.
  intros Hin Hw Hz Hp. exists (inner a). pose proof (inner_bracketless a Hw Hz) as Hb. split.
  - rewrite show_address_host_port by done. rewrite split_host_port_printed; [by rewrite unbracketed_id|done|].
    rewrite unbracketed_id by done. apply (Forall_impl _ _ _ Hb). by intros c [_ ?].
  - apply usable_addresses_spec in Hin as [_ Hl]. unfold parse_ip_literal, bracketed.
    replace (strip_prefix [91] (inner a)) with (@None str)
      by (destruct Hb as [|c s [Hc _] Hb]; [done|symmetry; apply strip_prefix_head; lia]).
    unfold inner in *. destruct (ip a) as [v|v]; cbn [show_ip is_link_local_v6] in *.
    + rewrite split_once_none by (apply (Forall_impl _ _ _ (show_ipv4_chars v (proj1 Hw))); cbn; lia).
      by rewrite parse_show_ipv4 by (unfold u32_max; destruct Hw; lia).
    + assert (H37 : Forall (fun c => c <> 37) (show_ipv6 v))
        by (apply (Forall_impl _ _ _ (show_ipv6_chars v (proj1 Hw))); cbn; lia).
      assert (Ep : parse_ip (show_ipv6 v) = Some (V6 v)) by (apply parse_show_ipv6; unfold u128_max; destruct Hw; lia).
      destruct (zone a) as [z|].
      * change (txt "%" ++ z) with (37 :: z). rewrite split_once_char by done. by rewrite Ep.
      * rewrite split_once_none by done. rewrite Ep.
        destruct (is_unicast_link_local v); [by destruct (Hl eq_refl)|done].
Qed.

(** ** The examples of the program's own tests *)
Definition v4addr (a b c d : Z) : DiscoveredAddress := mkAddr (V4 (((a * 256 + b) * 256 + c) * 256 + d)) None.
Definition linklocal (low : Z) (zone : option str) : DiscoveredAddress := mkAddr (V6 (65152 * 2 ^ 112 + low)) zone.

Lemma discover_examples :
  map show_address (usable_addresses
    [v4addr 127 0 0 1; linklocal 2 (Some (txt "eth0")); mkAddr (V6 (64768 * 2 ^ 112 + 2)) None; mkAddr (V6 1) None;
     v4addr 10 0 0 2; v4addr 172 17 0 1; v4addr 192 168 1 20; linklocal 2 (Some (txt "eth0")); linklocal 3 None] [] false)
  = map txt ["10.0.0.2"; "192.168.1.20"; "172.17.0.1"; "[fd00::2]"; "[fe80::2%eth0]"; "127.0.0.1"; "[::1]"]%string /\
  instance_name (txt " box ") 5201 = txt "box" /\ instance_name (txt "box") 5202 = txt "box (5202)" /\
  str_len (dns_label (repeat 97 64)) = 63 /\
  map (is_our_hostname (txt "Box.local.")) [txt "box"; txt "box-2"; txt "other"] = [true; false; false].
Proof. by vm_compute. Qed.

Definition demo_info (v : string) (addrs : list ScopedIp) : ServiceInfo := mkInfo 5201 (txt "box.local.") addrs (Some (txt v)).
(** Two answers of one server, with a third service after the time is over. *)
Definition demo_passes : list (Z * event) :=
  [(0, ServiceResolved (demo_info "0.12" [ScopedV6 (65152 * 2 ^ 112 + 2) (mkIf (txt "eth0") 2)]));
   (50, Elapsed); (90, ServiceResolved (demo_info "0.13" [ScopedV4 3232235777])); (95, OtherEvent);
   (100, ServiceResolved (mkInfo 5202 (txt "late") [ScopedV4 1] None))].
Lemma discover_listed :
  discover_listing true (discover true (fun _ => []) 100 (Some (txt "me")) demo_passes)
  = map txt ["Found 1 server(s):"; "  192.168.1.1:5201 (box.local.) xfr/0.13"; "      192.168.1.1:5201";
             "      [fe80::2%eth0]:5201"]%string.
Proof. by vm_compute. Qed.

Lemma instance_names_unique_witness :
  instance_name (txt "box") 5202 <> instance_name (txt "box") 5203 /\
  1 <= str_len (instance_name (txt "box") 5202) <= DNS_LABEL_MAX /\ 1 <= str_len (dns_label (txt "box")) <= DNS_LABEL_MAX.
Proof.
  apply (instance_names_unique (txt "box") 5202 5203); [done|done|done|]. left. by split.
Defined.

Lemma printed_server_reads_back_witness :
  exists host, split_host_port (show_address (linklocal 2 (Some (txt "eth0"))) ++ txt ":" ++ dec 5201) = Ok (host, Some 5201) /\
    parse_ip_literal (fun _ => 7) host 5201 = Ok (Some (SaV6 (65152 * 2 ^ 112 + 2) 5201 0 7)).
Proof.
  apply (printed_server_reads_back (fun _ => 7) [linklocal 2 (Some (txt "eth0"))] [] false
           (linklocal 2 (Some (txt "eth0"))) 5201).
  - by left.
  - by vm_compute.
  - intros z [= <-]. repeat (constructor; [cbn; lia|]). constructor.
  - done.
Defined.
