(* ===== verification/Update.v ===== *)
(** * The update check (src/src/update.rs, src/src/main.rs)

    Who may turn the check off and which layer wins, how the settings lock the
    toggle, and the command shown for an update.  The release registry and the
    environment are parameters; the check's poller is App.poll_update_check. *)
From S2P Require Import Prelude Bytes Text Protocol Settings.

Module InstallMethod.
Inductive t := Homebrew | Cargo | Binary.

Definition contains (p s : str) : bool := match split_once p s with Some _ => true | None => false end.

(** [detect], from the canonical path of the executable, if it has one. *)
Definition detect (exe_path : option str) : t :=
  match exe_path with
  | Some path =>
    let path_str := to_lowercase path in
    if contains (txt "homebrew") path_str || contains (txt "cellar") path_str then Homebrew
    else if contains (txt ".cargo/bin") path_str then Cargo
    else Binary
  | None => Binary
  end.

Definition update_command (m : t) : str :=
  match m with
  | Homebrew => txt "brew upgrade xfr"
  | Cargo => txt "cargo install xfr"
  | Binary => txt "github.com/lance0/xfr/releases"
  end.
End InstallMethod.

Definition flag_is_truthy (v : str) : bool :=
  negb (existsb (str_eqb (trim v)) [[]; txt "0"; txt "false"]).

(** [var_os] of the environment, as text. *)
Definition env_opt_out (var : str -> option str) : bool :=
  existsb (fun k => match var k with Some v => flag_is_truthy v | None => false end)
          [txt "DO_NOT_TRACK"; txt "XFR_NO_UPDATE_CHECK"].

Section build.
(** The [update-check] feature. *)
Variable ENABLED : bool.

Definition check_disabled (env_opt_out cli_flag : bool) (config pref : option bool) : bool :=
  negb ENABLED || env_opt_out || cli_flag ||
  match config with
  | Some explicit => explicit
  | None => match pref with Some p => p | None => false end
  end.

Definition check_lock_reason (env_opt_out cli_flag : bool) (config : option bool) : option str :=
  if negb ENABLED then Some (txt "not compiled in")
  else if env_opt_out then Some (txt "locked: environment")
  else if cli_flag then Some (txt "locked: --no-update-check")
  else match config with Some _ => Some (txt "locked: config.toml") | None => None end.

(** The toggle is locked exactly when the saved preference has no say. *)
Lemma lock_reason_spec env cli config :
  match check_lock_reason env cli config with
  | Some _ => forall p q, check_disabled env cli config p = check_disabled env cli config q
  | None => forall p, check_disabled env cli config (Some p) = p
  end.
Proof. unfold check_lock_reason, check_disabled. by destruct ENABLED, env, cli, config. Qed.

(** What the settings say of the update check is what a start makes of it: a
    locked toggle does not move and no saved preference changes the state; an
    open one moves, and the preference saved for it gives the state shown on
    the next start. *)
Theorem update_toggle_honoured (env cli : bool) (config pref : option bool) (d : DisplaySettings) :
  update_check d = negb (check_disabled env cli config pref) ->
  update_check_lock_reason d = check_lock_reason env cli config ->
  let d' := toggle_update_check d in
  let saved := Some (negb (update_check d')) in
  match check_lock_reason env cli config with
  | Some _ => d' = d /\ forall p, update_check d' = negb (check_disabled env cli config p)
  | None => update_check d' = negb (update_check d) /\ update_check_touched d' = true /\
            update_check d' = negb (check_disabled env cli config saved)
  end.
Proof.
  intros Hu Hl. pose proof (lock_reason_spec env cli config) as Hs. unfold toggle_update_check. rewrite Hl.
  destruct (check_lock_reason env cli config) as [r|].
  - split; [done|]. intros p. by rewrite Hu, (Hs p pref).
  - cbn. split_and!; [done..|]. by rewrite Hs, !negb_involutive.
Qed.
End build.

Lemma update_examples :
  map (fun v => flag_is_truthy (txt v)) ["1"; "true"; "yes"; ""; "  "; "0"; "false"]%string
  = [true; true; true; false; false; false; false] /\
  InstallMethod.update_command (InstallMethod.detect (Some (txt "/home/me/.cargo/bin/xfr"))) = txt "cargo install xfr".
Proof. by vm_compute. Qed.

Lemma update_toggle_honoured_witness :
  let d := mkDisplay 0 TimestampFormat.Relative Units.Auto true None false in
  update_check (toggle_update_check d) = false /\ update_check_touched (toggle_update_check d) = true /\
  update_check (toggle_update_check d) = negb (check_disabled true false false None (Some true)).
Proof.
  pose proof (update_toggle_honoured true false false None None
                (mkDisplay 0 TimestampFormat.Relative Units.Auto true None false) eq_refl eq_refl) as H. exact H.
Defined.
