(* ===== verification/Serve.v ===== *)
(** * The server's front door (src/src/serve.rs)

    Who gets in: the accept loops with their access lists, rate limit and
    permits as one state machine over connections; the first line of a
    connection and where it goes; the dispatcher of single-port UDP hellos;
    and the registry of running tests.  Sockets are their peer addresses; the
    interleaving of the tasks is the order of the events.  Times are
    nanoseconds. *)
From coqutil Require Import Datatypes.RecordSettersUsingExistingGetters.
From S2P Require Import Prelude Bytes Text Ip RateLimit Acl Auth UdpWire Protocol.

Definition MAX_LINE_LENGTH : Z := 65536.
Definition INITIAL_READ_TIMEOUT : Z := 5000000000.
Definition INITIAL_READ_TIMEOUT_PER_STREAM_MS : Z := 80.
Definition INITIAL_READ_TIMEOUT_MAX : Z := 20000000000.

(** ** Configuration *)
Record ServerConfig := mkServerConfig {
  sc_port : Z; one_off : bool; max_duration : option Z; prometheus_port : option Z;
  push_gateway_url : option str; auth : AuthConfig; acl_allow : list str; acl_deny : list str;
  rate_limit : RateLimitConfig; sc_address_family : AddressFamily; sc_bind_addr : option IpAddr;
  enable_quic : bool; max_concurrent : Z; no_mdns : bool; preset_allowed_clients : option (list str)
}.

Definition default_config : ServerConfig :=
  mkServerConfig DEFAULT_PORT false None None None (mkAuthConfig None) [] [] RateLimit.default_config
    DualStack None true 100 false None.

Inductive config_error := BadPsk (e : psk_error) | ZeroWindow.

Definition validate (c : ServerConfig) : result unit config_error :=
  let? _ := map_err BadPsk (Auth.validate (auth c)) in
  if match cfg_max_per_ip (rate_limit c) with None => true | Some _ => false end
     || (0 <? window_secs (rate_limit c))
  then Ok tt else Err ZeroWindow.

(** The suggestion in the error for a taken port. *)
Definition next_port (port : Z) : Z := if port =? u16_max then port - 1 else port + 1.

Definition legacy_udp_bind_addr (bind : option IpAddr) (control_local : SocketAddr) : SocketAddr :=
  match bind with
  | Some ip => sa_new ip 0
  | None => with_port (normalize_addr control_local) 0
  end.

Definition client_window_to_host (window : option Z) : option Z :=
  match window with Some w => if w <=? usize_max then Some w else None | None => None end.

Definition SERVER_DATA_NODELAY : bool := true.
Definition server_data_nodelay (client_requested : bool) : bool := client_requested || SERVER_DATA_NODELAY.

(** ** The first line of a connection *)
Inductive first_line_error := ConnectionClosed | FirstLineTooLong.

(** The line and the bytes not read. *)
Fixpoint read_first_line_unbuffered (max_len : Z) (bytes line : list Z)
    : result str first_line_error * list Z :=
  match bytes with
  | [] => (Err ConnectionClosed, [])
  | b :: bytes =>
    if b =? 10 then (Ok (from_utf8_lossy line), bytes)
    else if max_len <=? len (line ++ [b]) then (Err FirstLineTooLong, bytes)
    else read_first_line_unbuffered max_len bytes (line ++ [b])
  end.

(** ** The registry of running tests *)

(** A test's channels are known by the number of the run that created them. *)
Record ActiveTest := mkActiveTest {
  run_no : nat; data_ports : list Z; has_data_stream_tx : bool; control_peer_ip : IpAddr;
  expected_streams : Z
}.
Notation registry := (gmap str ActiveTest).

Definition initial_read_timeout_for_peer (active_tests : registry) (peer_ip : IpAddr) : Z :=
  let mine := filter (fun t => normalize_ip (control_peer_ip t) = normalize_ip peer_ip)
                (map snd (map_to_list active_tests)) in
  let max_streams := foldr Z.max 0 (map expected_streams mine) in
  let scaled := saturating_mul 64 max_streams INITIAL_READ_TIMEOUT_PER_STREAM_MS * 1000000 in
  Z.min (if INITIAL_READ_TIMEOUT <? scaled then scaled else INITIAL_READ_TIMEOUT) INITIAL_READ_TIMEOUT_MAX.

(** [remove_active_test]: the run whose cancel channel is signalled. *)
Definition remove_active_test (m : registry) (id : str) : registry * option nat :=
  (delete id m, option_map run_no (m !! id)).

(** Where a data connection goes. *)
Inductive data_route :=
  | UnknownTest | UnauthorizedIp | NotRouted | Routed (run stream_index : Z).

Definition route_data_hello (m : registry) (peer : IpAddr) (test_id : str) (stream_index : Z) : data_route :=
  match m !! test_id with
  | None => UnknownTest
  | Some t =>
    if bool_decide (normalize_ip (control_peer_ip t) = normalize_ip peer)
    then if has_data_stream_tx t then Routed (Z.of_nat (run_no t)) stream_index else NotRouted
    else UnauthorizedIp
  end.

(** ** Admission *)
Section door.
Context {IpNetwork : Type}.
Variable contains : IpNetwork -> IpAddr -> bool.
Variable parse_network : list Z -> option IpNetwork.

Definition build_preset_acl (allowed_clients : option (list str))
    : result (option (Acl IpNetwork)) acl_error :=
  match allowed_clients with
  | None | Some [] => Ok None
  | Some clients => let? acl := from_rules parse_network clients [] in Ok (Some acl)
  end.

Record SecurityContext := mkSecurity {
  acl : Acl IpNetwork; preset_acl : option (Acl IpNetwork)
}.
Variable security : SecurityContext.
Variables (max_handlers : Z) (one_off_mode : bool).

Definition permitted (ip : IpAddr) : bool :=
  is_allowed contains (acl security) ip &&
  match preset_acl security with Some p => is_allowed contains p ip | None => true end.

(** A control connection being served: its peer, and whether it also holds the
    permit of an unclassified connection (one-off mode waits for the test). *)
Record handler := mkHandler { h_peer : IpAddr; h_quic : bool; h_conn_permit : bool }.

Record door := mkDoor {
  conn_permits : Z; handler_permits : Z; limiter : option RateLimiter;
  (** accepted connections whose first line is being read *)
  reading : list IpAddr;
  handlers : list handler;
  (** [ConnectionBlocked] events sent *)
  blocked : Z; shut_down : bool
}.

Definition open_door (limiter : option RateLimiter) : door :=
  mkDoor (max_handlers * 4) max_handlers limiter [] [] 0 false.

Inductive first_message := IsHello | IsDataHello | IsOther.
Definition classify (m : ControlMessage) : first_message :=
  match m with Hello _ _ _ _ _ _ => IsHello | DataHello _ _ => IsDataHello | _ => IsOther end.

Inductive door_event :=
  | AcceptTcp (peer : IpAddr)
  (** the first line of the [i]-th unclassified connection came, or failed to *)
  | FirstLine (i : nat) (m : option first_message) (now : Z)
  | AcceptQuic (peer : IpAddr) (now : Z)
  | HandlerEnds (i : nat) (succeeded : bool)
  | CleanupTick (now : Z).

(** The rate limiter admits an address, where there is one. *)
Definition rate_check (now : Z) (ip : IpAddr) (d : door) : door * bool :=
  match limiter d with
  | None => (d, true)
  | Some l =>
    match RateLimiter.check l now ip with
    | (l, Ok _) => (d <| limiter := Some l |>, true)
    | (l, Err _) => (d <| limiter := Some l |> <| blocked ::= Z.succ |>, false)
    end
  end.
Definition rate_release (ip : IpAddr) (d : door) : door :=
  d <| limiter ::= option_map (fun l => RateLimiter.release l ip) |>.

Definition accept_tcp (peer : IpAddr) (d : door) : door :=
  if negb (permitted peer) then d <| blocked ::= Z.succ |>
  else if conn_permits d <=? 0 then d
  else d <| conn_permits ::= Z.pred |> <| reading ::= fun l => l ++ [peer] |>.

(** A control connection asks for a slot: the rate limit first, released
    again when no handler is free. *)
Definition admit_control (now : Z) (peer : IpAddr) (d : door) : door :=
  match rate_check now peer d with
  | (d, false) => d <| conn_permits ::= Z.succ |>
  | (d, true) =>
    if handler_permits d <=? 0 then rate_release peer d <| conn_permits ::= Z.succ |>
    else
      let d := d <| handler_permits ::= Z.pred |>
                 <| handlers ::= cons (mkHandler peer false one_off_mode) |> in
      if one_off_mode then d else d <| conn_permits ::= Z.succ |>
  end.

Definition first_line (i : nat) (m : option first_message) (now : Z) (d : door) : door :=
  match reading d !! i with
  | None => d
  | Some peer =>
    let d := d <| reading ::= delete i |> in
    match m with
    | Some IsHello => admit_control now peer d
    | _ => d <| conn_permits ::= Z.succ |>
    end
  end.

(** A QUIC connection takes a handler before the rate limit is asked. *)
Definition accept_quic (peer : IpAddr) (now : Z) (d : door) : door :=
  if negb (permitted peer) then d <| blocked ::= Z.succ |>
  else if handler_permits d <=? 0 then d
  else
    match rate_check now peer d with
    | (d, false) => d
    | (d, true) => d <| handler_permits ::= Z.pred |> <| handlers ::= cons (mkHandler peer true false) |>
    end.

Definition handler_ends (i : nat) (succeeded : bool) (d : door) : door :=
  match handlers d !! i with
  | None => d
  | Some h =>
    let d := rate_release (h_peer h) d <| handlers ::= delete i |> <| handler_permits ::= Z.succ |> in
    let d := if h_conn_permit h then d <| conn_permits ::= Z.succ |> else d in
    if one_off_mode && succeeded then d <| shut_down := true |> else d
  end.

Definition door_step (e : door_event) (d : door) : door :=
  match e with
  | AcceptTcp peer => accept_tcp peer d
  | FirstLine i m now => first_line i m now d
  | AcceptQuic peer now => accept_quic peer now d
  | HandlerEnds i succeeded => handler_ends i succeeded d
  | CleanupTick now => d <| limiter ::= option_map (fun l => RateLimiter.cleanup l now) |>
  end.

Definition door_run (es : list door_event) (d : door) : door := fold_left (fun d e => door_step e d) es d.

(** ** Admission is sound *)

Definition holds_conn (h : handler) : Z := if h_conn_permit h then 1 else 0.
Definition slots_ok (l : option RateLimiter) (ips : list IpAddr) : Prop :=
  match l with Some l => RateLimit.inv (mkWorld l ips) | None => True end.

Record door_ok (d : door) : Prop := mkDoorOk {
  conn_exact : conn_permits d + Z.of_nat (length (reading d)) + zsum (map holds_conn (handlers d)) = 4 * max_handlers;
  conn_nonneg : 0 <= conn_permits d;
  handler_exact : handler_permits d + Z.of_nat (length (handlers d)) = max_handlers;
  handler_nonneg : 0 <= handler_permits d;
  readers_permitted : Forall (fun ip => permitted ip = true) (reading d);
  handlers_permitted : Forall (fun h => permitted (h_peer h) = true) (handlers d);
  slots_exact : slots_ok (limiter d) (map h_peer (handlers d))
}.

Lemma rate_check_spec now ip d d' b :
  rate_check now ip d = (d', b) -> slots_ok (limiter d) (map h_peer (handlers d)) ->
  d' = d <| limiter := limiter d' |> <| blocked := blocked d' |> /\
  slots_ok (limiter d') ((if b then [ip] else []) ++ map h_peer (handlers d)).
Proof.
  unfold rate_check. intros H Hs. destruct (limiter d) as [l|] eqn:El.
  - pose proof (RateLimit.inv_event _ (RateLimit.Check now ip) Hs) as Hi. cbn in Hi.
    destruct (RateLimiter.check l now ip) as [l' [t|e]]; injection H as <- <-; by destruct d.
  - injection H as <- <-. split; [by destruct d; cbn in *; rewrite El|]. cbn. by rewrite El.
Qed.

Lemma release_slots l ips i ip :
  slots_ok l ips -> ips !! i = Some ip ->
  slots_ok (option_map (fun l => RateLimiter.release l ip) l) (delete i ips).
Proof.
  intros Hs Hi. destruct l as [l|]; [|done]. pose proof (RateLimit.inv_event _ (RateLimit.DropGuard i) Hs) as H.
  cbn in H. by rewrite Hi in H.
Qed.

Lemma length_delete_Z {A} (l : list A) i x : l !! i = Some x -> Z.of_nat (length (delete i l)) = Z.of_nat (length l) - 1.
Proof. intros H. pose proof (lookup_lt_Some _ _ _ H). rewrite length_delete by by eexists. lia. Qed.

Lemma map_delete {A B} (f : A -> B) (l : list A) i : map f (delete i l) = delete i (map f l).
Proof.
  revert i. induction l as [|x l IH]; intros [|i]; try done.
  change (f x :: map f (delete i l) = f x :: delete i (map f l)). by rewrite IH.
Qed.

Lemma zsum_delete {A} (f : A -> Z) (l : list A) i x :
  l !! i = Some x -> zsum (map f (delete i l)) = zsum (map f l) - f x.
Proof.
  revert i. induction l as [|y l IH]; intros [|i] H; try done.
  - cbn in *. injection H as ->. lia.
  - change (delete (S i) (y :: l)) with (y :: delete i l). cbn in *. rewrite (IH i H). lia.
Qed.

Lemma accept_tcp_ok peer d : door_ok d -> door_ok (accept_tcp peer d).
Proof.
  intros [H1 H2 H3 H4 H5 H6 H7]. unfold accept_tcp. destruct (permitted peer) eqn:Ep; cbn [negb]; [|by split].
  destruct (Z.leb_spec (conn_permits d) 0); [by split|].
  split; cbn [conn_permits reading handlers handler_permits limiter]; try done; cbn.
  - rewrite length_app. cbn. lia.
  - lia.
  - apply Forall_app. split; [done|]. by constructor.
Qed.

Lemma admit_control_ok now peer d :
  permitted peer = true -> door_ok (d <| conn_permits ::= Z.succ |>) -> 0 <= conn_permits d ->
  door_ok (admit_control now peer d).
Proof.
  intros Hp [H1 H2 H3 H4 H5 H6 H7] H0. unfold admit_control.
  destruct (rate_check now peer d) as [d' b] eqn:Er.
  destruct (rate_check_spec now peer d d' b Er H7) as [-> Hs]. cbn [limiter] in Hs.
  destruct b.
  - cbn [app] in Hs. cbn. destruct (Z.leb_spec (handler_permits d) 0).
    + split; try done. cbn. exact (release_slots _ _ 0%nat peer Hs eq_refl).
    + destruct one_off_mode; (split; try done; cbn in *; try lia; by constructor).
  - by split.
Qed.

Lemma first_line_ok i m now d : door_ok d -> door_ok (first_line i m now d).
Proof.
  intros [H1 H2 H3 H4 H5 H6 H7]. unfold first_line. destruct (reading d !! i) as [peer|] eqn:Ei; [|by split].
  assert (Hp : permitted peer = true) by exact (Forall_lookup_1 _ _ _ _ H5 Ei).
  assert (Hd : door_ok ((d <| reading ::= delete i |>) <| conn_permits ::= Z.succ |>)).
  { split; cbn; try done; [|lia|by apply Forall_delete].
    rewrite (length_delete_Z _ _ _ Ei). lia. }
  destruct m as [[]|]; [|done..]. by apply admit_control_ok.
Qed.

Lemma accept_quic_ok peer now d : door_ok d -> door_ok (accept_quic peer now d).
Proof.
  intros [H1 H2 H3 H4 H5 H6 H7]. unfold accept_quic. destruct (permitted peer) eqn:Ep; cbn [negb]; [|by split].
  destruct (Z.leb_spec (handler_permits d) 0); [by split|].
  destruct (rate_check now peer d) as [d' b] eqn:Er.
  destruct (rate_check_spec now peer d d' b Er H7) as [-> Hs]. destruct b.
  - split; try done; cbn in *; [lia..|by constructor].
  - by split.
Qed.

Lemma handler_ends_ok i ok d : door_ok d -> door_ok (handler_ends i ok d).
Proof.
  intros [H1 H2 H3 H4 H5 H6 H7]. unfold handler_ends. destruct (handlers d !! i) as [h|] eqn:Ei; [|by split].
  pose proof (zsum_delete holds_conn _ _ _ Ei) as Ez. pose proof (length_delete_Z _ _ _ Ei) as El.
  assert (Hips : map h_peer (handlers d) !! i = Some (h_peer h)).
  { change (fmap h_peer (handlers d) !! i = Some (h_peer h)). by rewrite list_lookup_fmap, Ei. }
  pose proof (release_slots _ _ _ _ H7 Hips) as Hs. rewrite <- map_delete in Hs.
  assert (Hd : door_ok (let d := rate_release (h_peer h) d <| handlers ::= delete i |> <| handler_permits ::= Z.succ |> in
                        if h_conn_permit h then d <| conn_permits ::= Z.succ |> else d)).
  { unfold holds_conn in Ez at 3. destruct (h_conn_permit h); split; cbn; try done; try lia; by apply Forall_delete. }
  cbn zeta in *. destruct (one_off_mode && ok); [|done]. by destruct Hd.
Qed.

Lemma door_step_ok e d : door_ok d -> door_ok (door_step e d).
Proof.
  destruct e; cbn [door_step];
    [apply accept_tcp_ok|apply first_line_ok|apply accept_quic_ok|apply handler_ends_ok|].
  intros [H1 H2 H3 H4 H5 H6 H7]. split; try done. cbn. destruct (limiter d) as [l|]; [|done].
  exact (RateLimit.inv_event _ (RateLimit.Cleanup now) H7).
Qed.

Lemma door_run_ok es d : door_ok d -> door_ok (door_run es d).
Proof.
  revert d. induction es as [|e es IH]; intros d H; [done|]. apply (IH (door_step e d)). by apply door_step_ok.
Qed.

Lemma open_door_ok c : 0 <= max_handlers -> (forall m, cfg_max_per_ip c = Some m -> fits 32 m) ->
  door_ok (open_door (RateLimit.build c)).
Proof.
  intros Hm Hc. split; cbn; try lia; try done. unfold RateLimit.build. destruct (cfg_max_per_ip c) as [m|]; [|done].
  exact (RateLimit.inv_start m _ (Hc m eq_refl)).
Qed.

(** The per-address limit the limiter was built with. *)
Definition limit_of (l : option RateLimiter) : option Z := option_map max_per_ip l.
Lemma rate_check_limit now ip d : limit_of (limiter (rate_check now ip d).1) = limit_of (limiter d).
Proof.
  unfold rate_check. destruct (limiter d) as [l|] eqn:E; [|cbn; by rewrite ?E].
  unfold RateLimiter.check. by destruct (_ <=? _).
Qed.
Lemma release_limit (l : option RateLimiter) ip :
  limit_of (option_map (fun l => RateLimiter.release l ip) l) = limit_of l.
Proof. destruct l as [l|]; [|done]. cbn. unfold RateLimiter.release. by destruct (limits l !! ip). Qed.

Lemma door_step_limit e d : limit_of (limiter (door_step e d)) = limit_of (limiter d).
Proof.
  destruct e as [peer|i m now|peer now|i ok|now]; cbn [door_step].
  - unfold accept_tcp. by repeat case_match.
  - unfold first_line. destruct (reading d !! i) as [peer|]; [|done]. destruct m as [[]|]; try done.
    unfold admit_control. pose proof (rate_check_limit now peer (d <| reading ::= delete i |>)) as E.
    destruct (rate_check _ _ _) as [d' []]; cbn in *; [|done]. destruct (_ <=? 0); cbn; [by rewrite release_limit|].
    by destruct one_off_mode.
  - unfold accept_quic. destruct (negb _); [done|]. destruct (_ <=? 0); [done|].
    pose proof (rate_check_limit now peer d) as E. by destruct (rate_check _ _ _) as [d' []].
  - unfold handler_ends. destruct (handlers d !! i) as [h|]; [|done].
    destruct (h_conn_permit h), (one_off_mode && ok); cbn; by rewrite release_limit.
  - cbn. by destruct (limiter d).
Qed.

Lemma door_run_limit es d : limit_of (limiter (door_run es d)) = limit_of (limiter d).
Proof.
  revert d. induction es as [|e es IH]; intros d; [done|].
  change (door_run (e :: es) d) with (door_run es (door_step e d)). by rewrite IH, door_step_limit.
Qed.

(** C19. Nobody gets past the door: over every interleaving of accepts, first
    lines, admissions, endings and clean-ups, every connection being read or
    served comes from an address both access lists permit; at most
    [max_concurrent] control connections are served and four times as many
    wait unclassified; the rate limiter holds for an address exactly the
    control connections being served for it, never more than its limit; and no
    permit is ever lost -- when everything has ended, all are back. *)
Theorem front_door_bounds (c : RateLimitConfig) (es : list door_event) :
  0 <= max_handlers -> (forall m, cfg_max_per_ip c = Some m -> fits 32 m) ->
  let d := door_run es (open_door (RateLimit.build c)) in
  Forall (fun ip => permitted ip = true) (reading d ++ map h_peer (handlers d)) /\
  Z.of_nat (length (handlers d)) <= max_handlers /\
  Z.of_nat (length (reading d)) <= 4 * max_handlers /\
  (forall l m, limiter d = Some l -> cfg_max_per_ip c = Some m -> forall ip,
     RateLimiter.current_count l ip = RateLimit.live ip (map h_peer (handlers d)) /\
     RateLimiter.current_count l ip <= m) /\
  (reading d = [] -> handlers d = [] -> conn_permits d = 4 * max_handlers /\ handler_permits d = max_handlers).
Proof.
  intros Hm Hc d. pose proof (door_run_ok es _ (open_door_ok c Hm Hc)) as [H1 H2 H3 H4 H5 H6 H7].
  pose proof (door_run_limit es (open_door (RateLimit.build c))) as Hl. fold d in H1, H2, H3, H4, H5, H6, H7, Hl.
  assert (0 <= zsum (map holds_conn (handlers d))).
  { apply zsum_nonneg. clear. induction (handlers d) as [|h hs IH]; constructor; [|done].
    unfold holds_conn. by destruct (h_conn_permit h). }
  split; [apply Forall_app; split; [done|by apply Forall_map]|]. split; [lia|]. split; [lia|]. split.
  - intros l m El Em ip. rewrite El in H7, Hl. destruct H7 as [_ H7]. destruct (H7 ip) as [E1 E2].
    cbn in Hl. unfold RateLimit.build in Hl. rewrite Em in Hl. cbn in Hl. injection Hl as Hl.
    cbn [RateLimit.limiter RateLimit.guards] in *. split; [done|]. lia.
  - intros Er Eh. rewrite Er, Eh in *. cbn in *. lia.
Qed.
End door.

(** A first line is cut exactly at its newline: shorter than the limit it is
    returned whole and not one byte of the data behind it is consumed; longer,
    it is refused. *)
Theorem first_line_exact (max_len : Z) (line data : list Z) :
  0 < max_len -> Forall (fun b => b <> 10) line ->
  let r := read_first_line_unbuffered max_len (line ++ 10 :: data) [] in
  if len line <? max_len then r = (Ok (from_utf8_lossy line), data) else r.1 = Err FirstLineTooLong.
Proof.
  intros Hm Hl. cbn zeta.
  assert (G : forall l acc, Forall (fun b => b <> 10) l -> len acc < max_len ->
    let r := read_first_line_unbuffered max_len (l ++ 10 :: data) acc in
    if len acc + len l <? max_len then r = (Ok (from_utf8_lossy (acc ++ l)), data) else r.1 = Err FirstLineTooLong).
  { clear line Hl. induction l as [|b l IH]; intros acc Hl Ha; cbn zeta.
    - cbn. unfold len in *. cbn. rewrite Z.add_0_r, (proj2 (Z.ltb_lt _ _)) by done. by rewrite app_nil_r.
    - apply Forall_cons in Hl as [Hb Hl]. cbn [app read_first_line_unbuffered]. rewrite (proj2 (Z.eqb_neq b 10)) by done.
      assert (E : len acc + len (b :: l) = len (acc ++ [b]) + len l)
        by (unfold len; rewrite length_app; cbn; lia). rewrite E.
      destruct (Z.leb_spec max_len (len (acc ++ [b]))) as [H|H].
      + rewrite (proj2 (Z.ltb_ge _ _)); [done|]. unfold len in *. lia.
      + specialize (IH (acc ++ [b]) Hl H). rewrite <- app_assoc in IH. exact IH. }
  exact (G line [] Hl Hm).
Qed.

(** ** Hellos of single-port UDP tests *)

(** A connected data socket: the address it is bound to and its peer. *)
Record udp_sock := mkUdpSock { us_local : SocketAddr; us_peer : SocketAddr }.

Record UdpHelloRoute := mkRoute {
  route_run : nat; route_peer_ip : IpAddr; route_local : SocketAddr; route_streams : Z;
  route_buffer : option Z; route_sockets : list (option udp_sock)
}.
Notation routes := (gmap (list Z) UdpHelloRoute).

Inductive UdpHelloVerdict := Accept | Resend | UnknownToken | IpMismatch | BadStreamIndex.

Definition route_socket (r : UdpHelloRoute) (stream_index : Z) : option udp_sock :=
  match route_sockets r !! Z.to_nat stream_index with Some s => s | None => None end.

Definition check_udp_hello (route : option UdpHelloRoute) (pkt : UdpHelloPacket.t) (src_ip : IpAddr)
    : UdpHelloVerdict :=
  match route with
  | None => UnknownToken
  | Some route =>
    if negb (bool_decide (normalize_ip src_ip = normalize_ip (route_peer_ip route))) then IpMismatch
    else if route_streams route <=? UdpHelloPacket.stream_index pkt then BadStreamIndex
    else match route_socket route (UdpHelloPacket.stream_index pkt) with
         | Some _ => Resend
         | None => Accept
         end
  end.

(** What happens around a datagram: the socket could be created, the ack went
    out, the test ended before the socket was stored. *)
Record hello_obs := mkHelloObs { created : bool; acked : bool; test_ended : bool }.

Inductive hello_output :=
  | AckSent (r : UdpHelloRoute) (ack : list Z) (to_ : SocketAddr)
  | SetupFailed (r : UdpHelloRoute) (stream_index : Z)
  | Handoff (r : UdpHelloRoute) (stream_index : Z) (sock : udp_sock).

Section hellos.
(** The port of the shared socket. *)
Variable shared_port : Z.

Definition hello_ack (pkt : UdpHelloPacket.t) : list Z :=
  UdpHelloPacket.encode (UdpHelloPacket.mk UDP_HELLO_KIND_ACK (UdpHelloPacket.stream_index pkt) (UdpHelloPacket.token pkt)).

Definition store_socket (i : Z) (s : udp_sock) (r : UdpHelloRoute) : UdpHelloRoute :=
  r <| route_sockets ::= <[Z.to_nat i := Some s]> |>.

Definition accept_hello (pkt : UdpHelloPacket.t) (src : SocketAddr) (o : hello_obs) (r : UdpHelloRoute) (m : routes)
    : routes * list hello_output :=
  let i := UdpHelloPacket.stream_index pkt in
  if created o then
    let s := mkUdpSock (with_port (route_local r) shared_port) src in
    let ack := if acked o then AckSent r (hello_ack pkt) (us_peer s) else SetupFailed r i in
    if test_ended o then (delete (UdpHelloPacket.token pkt) m, [ack])
    else (<[UdpHelloPacket.token pkt := store_socket i s r]> m, [ack; Handoff r i s])
  else (m, [SetupFailed r i]).

(** A resent ack leaves from the stored socket, so to the socket's peer. *)
Definition dispatch_hello (data : list Z) (src : SocketAddr) (o : hello_obs) (m : routes)
    : routes * list hello_output :=
  match UdpHelloPacket.decode data with
  | None => (m, [])
  | Some pkt =>
    if negb (UdpHelloPacket.kind pkt =? UDP_HELLO_KIND_HELLO) then (m, [])
    else
      let route := m !! UdpHelloPacket.token pkt in
      match check_udp_hello route pkt (sa_ip src), route with
      | Accept, Some r => accept_hello pkt src o r m
      | Resend, Some r =>
        match route_socket r (UdpHelloPacket.stream_index pkt) with
        | Some s => (m, if acked o then [AckSent r (hello_ack pkt) (us_peer s)] else [])
        | None => (m, [])
        end
      | _, _ => (m, [])
      end
  end.

(** A test registers a token no other test has, and takes it away when it
    ends by any path. *)
Inductive hello_event :=
  | Register (token : list Z) (run : nat) (peer_ip : IpAddr) (local : SocketAddr) (streams : Z) (buffer : option Z)
  | Unregister (token : list Z)
  | Datagram (data : list Z) (src : SocketAddr) (o : hello_obs).

Definition new_route (run : nat) (peer_ip : IpAddr) (local : SocketAddr) (streams : Z) (buffer : option Z) : UdpHelloRoute :=
  mkRoute run peer_ip local streams buffer (repeat None (Z.to_nat streams)).

Definition hello_step (e : hello_event) (m : routes) : routes * list hello_output :=
  match e with
  | Register token run peer_ip local streams buffer =>
    (match m !! token with
     | None => <[token := new_route run peer_ip local streams buffer]> m
     | Some _ => m
     end, [])
  | Unregister token => (delete token m, [])
  | Datagram data src o => dispatch_hello data src o m
  end.

Fixpoint hello_run (es : list hello_event) (m : routes) : routes * list hello_output :=
  match es with
  | [] => (m, [])
  | e :: es => let '(m, outs) := hello_step e m in let '(m, outs') := hello_run es m in (m, outs ++ outs')
  end.

(** ** Each stream gets one socket, for the peer it belongs to *)
Definition registered (es : list hello_event) : list nat :=
  omap (fun e => match e with Register _ run _ _ _ _ => Some run | _ => None end) es.
Definition handoffs (outs : list hello_output) : list (nat * Z) :=
  omap (fun o => match o with Handoff r i _ => Some (route_run r, i) | _ => None end) outs.

Definition same_peer (r : UdpHelloRoute) (a : SocketAddr) : Prop :=
  normalize_ip (sa_ip a) = normalize_ip (route_peer_ip r).
Definition output_ok (o : hello_output) : Prop :=
  match o with
  | AckSent r _ a => same_peer r a
  | SetupFailed r i => 0 <= i < route_streams r
  | Handoff r i s => 0 <= i < route_streams r /\ same_peer r (us_peer s) /\ us_local s = with_port (route_local r) shared_port
  end.

Definition route_ok (r : UdpHelloRoute) : Prop :=
  length (route_sockets r) = Z.to_nat (route_streams r) /\
  forall i s, route_sockets r !! i = Some (Some s) -> same_peer r (us_peer s).
Definition is_free (t : nat * Z) (m : routes) : Prop :=
  exists token r, m !! token = Some r /\ route_run r = t.1 /\ route_sockets r !! Z.to_nat t.2 = Some None.

(** [used] are the runs registered so far, [given] the streams handed off. *)
Record routes_ok (used : list nat) (given : list (nat * Z)) (m : routes) : Prop := mkRoutesOk {
  routes_each : forall token r, m !! token = Some r -> route_ok r /\ In (route_run r) used;
  routes_distinct : forall t1 t2 r1 r2, m !! t1 = Some r1 -> m !! t2 = Some r2 -> route_run r1 = route_run r2 -> t1 = t2;
  given_used : forall t, In t given -> In t.1 used /\ ~ is_free t m /\ 0 <= t.2;
  given_nodup : NoDup given
}.

Lemma decode_index data pkt : bytes_ok data -> UdpHelloPacket.decode data = Some pkt -> 0 <= UdpHelloPacket.stream_index pkt.
Proof.
  intros Hb. unfold UdpHelloPacket.decode. repeat case_match; try done. intros [= <-]. cbn.
  apply from_be_bytes_bound. unfold slice. by apply Forall_take, Forall_drop.
Qed.

Lemma check_accept r pkt ip :
  check_udp_hello (Some r) pkt ip = Accept -> 0 <= UdpHelloPacket.stream_index pkt -> route_ok r ->
  normalize_ip ip = normalize_ip (route_peer_ip r) /\ UdpHelloPacket.stream_index pkt < route_streams r /\
  route_sockets r !! Z.to_nat (UdpHelloPacket.stream_index pkt) = Some None.
Proof.
  unfold check_udp_hello, route_socket. intros H H0 [Hl _].
  case_bool_decide as Hp; [|done]. cbn in H. destruct (Z.leb_spec (route_streams r) (UdpHelloPacket.stream_index pkt)); [done|].
  split_and!; [done|lia|]. destruct (route_sockets r !! _) as [[s|]|] eqn:E; [done..|].
  apply lookup_ge_None in E. lia.
Qed.

Lemma free_delete t token m : is_free t (delete token m) -> is_free t m.
Proof.
  intros (k & r & H & ? & ?). exists k, r. split; [|done]. rewrite lookup_delete_Some in H. tauto.
Qed.

Lemma routes_delete used given token m : routes_ok used given m -> routes_ok used given (delete token m).
Proof.
  intros [H1 H2 H3 H4]. split; [| | |done].
  - intros k r [_ H]%lookup_delete_Some. by apply H1 in H.
  - intros k1 k2 r1 r2 [_ E1]%lookup_delete_Some [_ E2]%lookup_delete_Some. by apply (H2 k1 k2 r1 r2).
  - intros t Ht. destruct (H3 t Ht) as (? & Hf & ?). split_and!; [done| |done]. intros Hx. by apply Hf, (free_delete t token).
Qed.

Lemma routes_register used given token run peer_ip local streams buffer m :
  routes_ok used given m -> ~ In run used -> m !! token = None ->
  routes_ok (run :: used) given (<[token := new_route run peer_ip local streams buffer]> m).
Proof.
  intros [H1 H2 H3 H4] Hn Ht. split; [| | |done].
  - intros k r [[-> <-]|[_ H]]%lookup_insert_Some.
    + split; [|by left]. split; [apply repeat_length|]. cbn. intros i s Hi.
      apply list_elem_of_lookup_2 in Hi. apply list_elem_of_In, repeat_spec in Hi. done.
    + destruct (H1 k r H). split; [done|by right].
  - intros k1 k2 r1 r2 [[<- <-]|[N1 E1]]%lookup_insert_Some [[<- <-]|[N2 E2]]%lookup_insert_Some; try done.
    + intros E. destruct Hn. cbn in E. rewrite E. by apply (H1 k2 r2).
    + intros E. destruct Hn. cbn in E. rewrite <- E. by apply (H1 k1 r1).
    + by apply (H2 k1 k2 r1 r2).
  - intros t Hg. destruct (H3 t Hg) as (Hu & Hf & ?). split_and!; [by right| |done].
    intros (k & r & [[-> <-]|[_ Hx]]%lookup_insert_Some & E & Es); [|apply Hf; by exists k, r].
    cbn in E. by destruct Hn; rewrite E.
Qed.

(** Storing the socket of a free stream hands the stream off. *)
Lemma routes_store used given token r i s m :
  routes_ok used given m -> m !! token = Some r -> 0 <= i -> route_sockets r !! Z.to_nat i = Some None ->
  same_peer r (us_peer s) ->
  routes_ok used (given ++ [(route_run r, i)]) (<[token := store_socket i s r]> m).
Proof.
  intros [H1 H2 H3 H4] Hr Hi Hs Hp. destruct (H1 token r Hr) as [[Hl Hpeer] Hu].
  assert (Hfree : is_free (route_run r, i) m) by (by exists token, r).
  assert (Hmono : forall t, is_free t (<[token := store_socket i s r]> m) -> is_free t m).
  { intros t (k & r' & [[<- <-]|[_ H]]%lookup_insert_Some & E & Es); [|by exists k, r'].
    exists token, r. split_and!; [done|done|]. cbn in Es. destruct (decide (Z.to_nat t.2 = Z.to_nat i)) as [Eq|Ne].
    - by rewrite Eq.
    - by rewrite list_lookup_insert_ne in Es. }
  assert (Hnot : ~ is_free (route_run r, i) (<[token := store_socket i s r]> m)).
  { intros (k & r' & [[<- <-]|[N H]]%lookup_insert_Some & E & Es).
    - cbn in Es. rewrite list_lookup_insert_eq in Es; [done|]. by apply (lookup_lt_Some _ _ None).
    - apply N. symmetry. by apply (H2 k token r' r). }
  split.
  - intros k r' [[<- <-]|[_ Hx]]%lookup_insert_Some; [|by apply (H1 k)]. split; [|done]. split; [cbn; by rewrite length_insert|].
    cbn. intros j s' Hj. destruct (decide (j = Z.to_nat i)) as [->|Ne].
    + rewrite list_lookup_insert_eq in Hj by (by apply (lookup_lt_Some _ _ None)). by injection Hj as <-.
    + rewrite list_lookup_insert_ne in Hj by done. by apply (Hpeer j).
  - intros k1 k2 r1 r2 [[<- <-]|[N1 E1]]%lookup_insert_Some [[<- <-]|[N2 E2]]%lookup_insert_Some; try done.
    + intros E. by apply (H2 token k2 r r2).
    + intros E. by apply (H2 k1 token r1 r).
    + by apply (H2 k1 k2 r1 r2).
  - intros t [Ht|[<-|[]]]%in_app_or; [|done].
    destruct (H3 t Ht) as (? & Hf & ?). split_and!; [done| |done]. intros Hx. by apply Hf, Hmono.
  - apply NoDup_app. split_and!; [done| |apply NoDup_singleton].
    intros t Ht Ht'. apply list_elem_of_singleton in Ht' as ->. apply list_elem_of_In in Ht.
    destruct (H3 _ Ht) as (_ & Hf & _). by apply Hf.
Qed.

Definition used_after (used : list nat) (e : hello_event) : list nat :=
  match e with Register _ run _ _ _ _ => run :: used | _ => used end.
Definition fresh_for (used : list nat) (e : hello_event) : Prop :=
  match e with
  | Register _ run _ _ _ _ => ~ In run used
  | Datagram data _ _ => bytes_ok data
  | Unregister _ => True
  end.

Lemma handoffs_app a b : handoffs (a ++ b) = handoffs a ++ handoffs b.
Proof. unfold handoffs. by rewrite omap_app. Qed.

Lemma accept_hello_ok used given pkt src o r m :
  routes_ok used given m -> m !! UdpHelloPacket.token pkt = Some r -> 0 <= UdpHelloPacket.stream_index pkt ->
  check_udp_hello (Some r) pkt (sa_ip src) = Accept ->
  let '(m', outs) := accept_hello pkt src o r m in
  routes_ok used (given ++ handoffs outs) m' /\ Forall output_ok outs.
Proof.
  intros Hm Hr H0 Hc. pose proof (routes_each _ _ _ Hm _ _ Hr) as [Hok _].
  destruct (check_accept r pkt _ Hc H0 Hok) as (Hp & Hi & Hs). unfold accept_hello.
  assert (Hack : output_ok (if acked o then AckSent r (hello_ack pkt) src else SetupFailed r (UdpHelloPacket.stream_index pkt)))
    by (destruct (acked o); [done|cbn; lia]).
  assert (Hno : forall x, handoffs ((if acked o then AckSent r x src else SetupFailed r (UdpHelloPacket.stream_index pkt)) :: []) = [])
    by (intros x; by destruct (acked o)).
  destruct (created o); [destruct (test_ended o)|]; cbn [us_peer].
  - rewrite Hno, app_nil_r. split; [by apply routes_delete|by constructor].
  - split.
    + change (?a :: ?b :: []) with ([a] ++ [b]). rewrite handoffs_app, Hno. by apply routes_store.
    + constructor; [done|]. constructor; [|done]. cbn. split_and!; [lia|done..].
  - cbn. rewrite app_nil_r. split; [done|]. repeat constructor; cbn; lia.
Qed.

Lemma hello_step_ok used given e m :
  routes_ok used given m -> fresh_for used e ->
  let '(m', outs) := hello_step e m in
  routes_ok (used_after used e) (given ++ handoffs outs) m' /\ Forall output_ok outs.
Proof.
  intros Hm Hf. destruct e as [token run ip local n b|token|data src o]; cbn [hello_step used_after].
  - cbn. rewrite app_nil_r. split; [|done]. destruct (m !! token) as [r|] eqn:E; [|by apply routes_register].
    destruct Hm as [H1 H2 H3 H4]. split; [| done | |done].
    + intros k r' Hk. destruct (H1 k r' Hk). split; [done|by right].
    + intros t Ht. destruct (H3 t Ht) as (? & ? & ?). split_and!; [by right|done..].
  - cbn. rewrite app_nil_r. split; [by apply routes_delete|done].
  - assert (Hid : routes_ok used (given ++ handoffs []) m /\ Forall output_ok []) by (by rewrite app_nil_r).
    unfold dispatch_hello. destruct (UdpHelloPacket.decode data) as [pkt|] eqn:Ed; [|done].
    destruct (negb _); [done|]. pose proof (decode_index _ _ Hf Ed) as H0.
    destruct (m !! UdpHelloPacket.token pkt) as [r|] eqn:Er; [|done].
    destruct (check_udp_hello (Some r) pkt (sa_ip src)) eqn:Ec; try done.
    + by apply accept_hello_ok.
    + unfold route_socket. destruct (route_sockets r !! _) as [[s|]|] eqn:Es; [|done..].
      destruct (acked o); [|done]. cbn. rewrite app_nil_r. split; [done|]. constructor; [|done].
      by apply (proj2 (proj1 (routes_each _ _ _ Hm _ _ Er)) _ _ Es).
Qed.

Lemma hello_run_ok es used given m :
  routes_ok used given m -> NoDup (registered es) -> (forall x, In x used -> ~ In x (registered es)) ->
  (forall data src o, In (Datagram data src o) es -> bytes_ok data) ->
  let '(_, outs) := hello_run es m in NoDup (given ++ handoffs outs) /\ Forall output_ok outs.
Proof.
  revert used given m. induction es as [|e es IH]; intros used given m Hm Hn Hd Hb.
  - cbn. rewrite app_nil_r. split; [by apply (given_nodup _ _ _ Hm)|done].
  - cbn [hello_run].
    assert (Hf : fresh_for used e).
    { destruct e as [? run| |data src o]; [|done|by apply (Hb data src o); left].
      intros H. apply (Hd _ H). by left. }
    pose proof (hello_step_ok used given e m Hm Hf) as Hs. destruct (hello_step e m) as [m1 o1]. destruct Hs as [Hm1 Ho1].
    specialize (IH _ _ m1 Hm1). destruct (hello_run es m1) as [m2 o2]. rewrite handoffs_app, app_assoc.
    destruct IH as [H1 H2].
    + destruct e; try done. cbn in Hn. by apply NoDup_cons in Hn as [_ Hn].
    + intros x Hx Hi. destruct e as [? run| |]; cbn in Hx, Hd; [|by apply (Hd x Hx)..].
      destruct Hx as [<-|Hx]; [|apply (Hd x Hx); by right].
      cbn in Hn. apply NoDup_cons in Hn as [Hn _]. apply Hn. by apply list_elem_of_In.
    + intros data src o Hi. by apply (Hb data src o); right.
    + split; [done|]. apply Forall_app. by split.
Qed.

(** C20. Single-port UDP cannot be hijacked or doubled: over any stream of
    datagrams, forged ones included, while tests come and go, every stream of
    every test gets at most one data socket, handed to that test, bound to the
    address its control connection was reached on and connected to a peer with
    the control connection's address; and no acknowledgement ever goes to
    anyone else. *)
Theorem hello_dispatch_sound (es : list hello_event) :
  NoDup (registered es) -> (forall data src o, In (Datagram data src o) es -> bytes_ok data) ->
  NoDup (handoffs (hello_run es ∅).2) /\ Forall output_ok (hello_run es ∅).2.
Proof.
  intros Hn Hb. pose proof (hello_run_ok es [] [] ∅) as H. destruct (hello_run es ∅) as [m outs].
  apply H; try done. split; try done. constructor.
Qed.
End hellos.

(** ** Concrete visitors *)
Definition demo_security : SecurityContext (IpNetwork := Z) := mkSecurity (mkAcl [] [7]) (Some (mkAcl [1; 2] [])).
Definition demo_contains (n : Z) (ip : IpAddr) : bool := match ip with V4 a => a =? n | V6 _ => false end.
Definition demo_visits : list door_event :=
  [AcceptTcp (V4 7); AcceptTcp (V4 3); AcceptTcp (V4 1); AcceptTcp (V4 1); FirstLine 0 (Some IsHello) 1;
   FirstLine 0 (Some IsHello) 2; AcceptQuic (V4 2) 3; HandlerEnds 1 true].
Definition demo_door : door :=
  door_run demo_contains demo_security false demo_visits
    (open_door 2 (RateLimit.build (mkRateLimitConfig (Some 1) 60))).
Example demo_door_state :
  (map h_peer (handlers demo_door), reading demo_door, blocked demo_door, conn_permits demo_door, handler_permits demo_door)
  = ([V4 2], [], 3, 8, 1).
Proof. by vm_compute. Qed.

Lemma front_door_bounds_witness :
  match limiter demo_door with Some l => RateLimiter.current_count l (V4 2) <= 1 | None => False end.
Proof.
  destruct (front_door_bounds demo_contains demo_security 2 false (mkRateLimitConfig (Some 1) 60) demo_visits) as (_ & _ & _ & H & _).
  - discriminate.
  - intros m [= <-]. split; [discriminate|reflexivity].
  - unfold demo_door. destruct (limiter _) as [l|] eqn:E; [|vm_compute in E; discriminate].
    exact (proj2 (H l 1 eq_refl eq_refl (V4 2))).
Defined.

Lemma first_line_exact_witness :
  read_first_line_unbuffered 4 [104; 105; 10; 0; 255; 10] [] = (Ok [104; 105], [0; 255; 10]).
Proof.
  exact (first_line_exact 4 [104; 105] [0; 255; 10] ltac:(reflexivity) ltac:(repeat constructor; discriminate)).
Defined.

Definition demo_hello (i : Z) : list Z :=
  UdpHelloPacket.encode (UdpHelloPacket.mk UDP_HELLO_KIND_HELLO i sample_token).
Definition demo_events : list hello_event :=
  [Register sample_token 1 (V4 9) (SaV4 5 5201) 2 None;
   Datagram (demo_hello 0) (SaV4 8 1) (mkHelloObs true true false);
   Datagram (demo_hello 0) (SaV6 (65535 * 2 ^ 32 + 9) 40 0 0) (mkHelloObs true true false);
   Datagram (demo_hello 0) (SaV4 9 41) (mkHelloObs true true false);
   Datagram (demo_hello 2) (SaV4 9 42) (mkHelloObs true true false);
   Unregister sample_token; Datagram (demo_hello 1) (SaV4 9 43) (mkHelloObs true true false)].
Lemma hello_dispatch_sound_witness :
  handoffs (hello_run 5201 demo_events ∅).2 = [(1%nat, 0)] /\ NoDup (handoffs (hello_run 5201 demo_events ∅).2).
Proof.
  split; [vm_compute; reflexivity|]. apply hello_dispatch_sound.
  - repeat constructor. intros H. inversion H.
  - intros data src o H. assert (Hh : forall d, forallb (fun b => (0 <=? b) && (b <? 256)) d = true -> bytes_ok d).
    { intros d Hd. apply Forall_forall. intros b Hb%list_elem_of_In. rewrite forallb_forall in Hd. specialize (Hd b Hb).
      unfold is_byte. zbool. lia. }
    repeat (destruct H as [H|H]; [first [discriminate|injection H as <- <- <-; apply Hh; vm_compute; reflexivity]|]). destruct H.
Defined.
