(* ===== verification/ServeRun.v ===== *)
(** * Running a test on the server (src/src/serve.rs)

    A test's life in the registry of running tests, with the others around it;
    the collection of its data streams; the share of the bitrate and the
    signals each stream carries; and the result it ends with.  The data loops
    and the reporting loop are components of their own. *)
From coqutil Require Import Datatypes.RecordSettersUsingExistingGetters.
From Stdlib Require Import SpecFloat.
From S2P Require Import Prelude Bytes Ip Float Protocol Stats ClientUdp Serve.

(** ** The life of a test *)
Inductive tui_event := TestStarted (id : str) | TestCompleted (id : str) (bytes : Z) | TestFailed (id : str) (bytes : Z).

Inductive run_event :=
  (** the entry is made, then the acknowledgement goes out or not *)
  | Begin (run : nat) (id : str) (t : ActiveTest) (ack_sent : bool)
  (** the reporting loop is over: the handlers are told to stop *)
  | StopHandlers (run : nat)
  | Done (run : nat) (outcome : result Z Z).

(** [stopped] are the runs whose cancel channel was signalled or dropped. *)
Record runs := mkRuns {
  tests : registry; running : list (nat * str); stopped : list nat; tui : list tui_event
}.
Definition no_runs : runs := mkRuns ∅ [] [] [].

Definition id_of (run : nat) (w : runs) : option str :=
  option_map snd (List.find (fun r => Nat.eqb (fst r) run) (running w)).
Definition forget (run : nat) (w : runs) : runs :=
  w <| running ::= List.filter (fun r => negb (Nat.eqb (fst r) run)) |>.
Definition stop (run : option nat) (w : runs) : runs :=
  match run with Some r => w <| stopped ::= cons r |> | None => w end.

(** Inserting over an entry drops it, and its cancel channel with it. *)
Definition insert_test (id : str) (t : ActiveTest) (w : runs) : runs :=
  stop (option_map run_no (tests w !! id)) (w <| tests ::= <[id := t]> |>).
Definition remove_test (id : str) (w : runs) : runs :=
  let '(m, run) := remove_active_test (tests w) id in stop run (w <| tests := m |>).
Definition show (e : tui_event) (w : runs) : runs := w <| tui ::= fun l => l ++ [e] |>.

Definition begin_test (run : nat) (id : str) (t : ActiveTest) (ack_sent : bool) (w : runs) : runs :=
  let w := insert_test id t w in
  if ack_sent then show (TestStarted id) (w <| running ::= cons (run, id) |>) else remove_test id w.

Definition run_step (e : run_event) (w : runs) : runs :=
  match e with
  | Begin run id t ack_sent => begin_test run id t ack_sent w
  | StopHandlers run =>
    match id_of run w with
    | Some id => stop (option_map run_no (tests w !! id)) w
    | None => w
    end
  | Done run outcome =>
    match id_of run w with
    | Some id =>
      show (match outcome with Ok bytes => TestCompleted id bytes | Err bytes => TestFailed id bytes end)
        (forget run (remove_test id w))
    | None => w
    end
  end.
Definition run_all (es : list run_event) (w : runs) : runs := fold_left (fun w e => run_step e w) es w.

(** ** Collecting the data streams *)

(** One pass of the collection loop: the cancel flag and the clock at its top,
    and what the [select!] gave. *)
Inductive collect_arm := CancelChanged (dropped value : bool) | Arrived (stream_index : nat) | ChannelClosed | TimedOut.
Record collect_obs := mkCollect { c_cancelled : bool; c_now : Z; c_arm : collect_arm }.

Definition STREAM_COLLECTION_TIMEOUT : Z := 30000000000.

(** Whether the loop has ended, which streams have arrived, and the handlers
    started, in order. *)
Fixpoint collect_streams (deadline : Z) (os : list collect_obs) (received : list bool) (started : list nat)
    : bool * list bool * list nat :=
  if forallb (fun r => r) received then (true, received, started)
  else
    match os with
    | [] => (false, received, started)
    | o :: os =>
      if c_cancelled o || (saturating_sub deadline (c_now o) =? 0) then (true, received, started)
      else
        match c_arm o with
        | CancelChanged dropped value =>
          if dropped || value then (true, received, started) else collect_streams deadline os received started
        | ChannelClosed | TimedOut => (true, received, started)
        | Arrived i =>
          match received !! i with
          | Some false => collect_streams deadline os (<[i := true]> received) (started ++ [i])
          | _ => collect_streams deadline os received started
          end
        end
    end.

(** ** What a stream carries *)
Definition DEFAULT_BITRATE_BPS : Z := 1000000000.

Definition per_stream_bitrate (bitrate : option Z) (streams : Z) : option Z :=
  option_map (fun b => if b =? 0 then 0 else Z.max (b / streams) 1) bitrate.

Definition server_sends (d : Direction) : bool := match d with Download | Bidir => true | Upload => false end.
Definition end_on_server_send (byte_budget : option Z) (d : Direction) : bool :=
  match byte_budget with Some _ => server_sends d | None => false end.
(** Receive loops of UDP see no end of stream, so they do not report one. *)
Definition reports_recv_done (byte_budget : option Z) (p : Protocol) : bool :=
  match byte_budget with Some _ => negb (bool_decide (p = Udp)) | None => false end.
(** Only an upload's receiver sends feedback, to a client that knows it. *)
Definition sends_feedback (client_supports : bool) (d : Direction) : bool :=
  client_supports && bool_decide (d = Upload).

(** ** The result *)
Definition directional_totals (d : Direction) (stats : TestStats) (duration_ms : Z)
    : option Z * option Z * option f64 * option f64 :=
  if bool_decide (d = Bidir) then
    let client_bytes_sent := TestStats.total_bytes_received stats in
    let client_bytes_received := TestStats.total_bytes_sent stats in
    (Some client_bytes_sent, Some client_bytes_received,
     Some (ms_mbps duration_ms client_bytes_sent), Some (ms_mbps duration_ms client_bytes_received))
  else (None, None, None, None).

Definition run_test_result (k : StreamStats.kernel) (id : str) (p : Protocol) (d : Direction) (duration_ms : Z)
    (stats : TestStats) : TestResult :=
  let '(sent, received, send_mbps, recv_mbps) := directional_totals d stats duration_ms in
  mkTestResult id (TestStats.total_bytes stats) duration_ms (ms_mbps duration_ms (TestStats.total_bytes stats))
    (map (fun s => StreamStats.to_result_with_direction s duration_ms (bool_decide (d = Bidir))) (streams stats))
    (TestStats.final_local_tcp_info k stats) (TestStats.aggregate_udp_stats stats)
    (if bool_decide (p = Udp) && bool_decide (d = Bidir) then TestStats.aggregate_udp_receiver_stats stats else None)
    None sent received send_mbps recv_mbps None (TestStats.all_udp_send_errors stats) None None.

Definition run_quic_test_result (id : str) (d : Direction) (duration_ms : Z) (stats : TestStats) : TestResult :=
  let '(sent, received, send_mbps, recv_mbps) := directional_totals d stats duration_ms in
  mkTestResult id (TestStats.total_bytes stats) duration_ms (ms_mbps duration_ms (TestStats.total_bytes stats))
    (map (fun s => StreamStats.to_result_with_direction s duration_ms (bool_decide (d = Bidir))) (streams stats))
    None None None None sent received send_mbps recv_mbps None None None None.

(** ** Tests do not disturb each other *)
Definition ends (run : nat) (e : run_event) : Prop :=
  match e with
  | StopHandlers r | Done r _ => r = run
  | Begin r _ _ ack_sent => r = run /\ ack_sent = false
  end.

(** No test starts under the identifier or the number of a running one. *)
Definition starts_fresh (e : run_event) (w : runs) : Prop :=
  match e with
  | Begin run id t _ => ~ In id (map snd (running w)) /\ ~ In run (map fst (running w)) /\ run_no t = run
  | _ => True
  end.
Fixpoint all_fresh (es : list run_event) (w : runs) : Prop :=
  match es with [] => True | e :: es => starts_fresh e w /\ all_fresh es (run_step e w) end.

(** The registry holds exactly the running tests. *)
Record registered (w : runs) : Prop := mkRegistered {
  runs_distinct : NoDup (map fst (running w));
  ids_distinct : NoDup (map snd (running w));
  registry_exact : forall id run, option_map run_no (tests w !! id) = Some run <-> In (run, id) (running w)
}.

Lemma id_of_spec run id w : registered w -> id_of run w = Some id <-> In (run, id) (running w).
Proof.
  intros [Hn _ _]. unfold id_of. split.
  - destruct (List.find _ _) as [[r i]|] eqn:E; [|done]. intros [= <-]. apply List.find_some in E as [H Hr].
    cbn in Hr. by apply Nat.eqb_eq in Hr as ->.
  - intros Hi. induction (running w) as [|[r i] l IH]; [done|]. cbn in Hn |- *.
    apply NoDup_cons in Hn as [Hr Hn]. destruct Hi as [[= -> ->]|Hi]; [by rewrite Nat.eqb_refl|].
    destruct (Nat.eqb_spec r run) as [->|]; [|by apply IH]. destruct Hr. apply list_elem_of_In. by apply (in_map fst) in Hi.
Qed.

Lemma NoDup_map_filter {A B} (f : A -> B) (p : A -> bool) (l : list A) :
  NoDup (map f l) -> NoDup (map f (List.filter p l)).
Proof.
  induction l as [|x l IH]; [done|]. cbn. intros [Hx Hl]%NoDup_cons. destruct (p x); [|by apply IH].
  cbn. apply NoDup_cons. split; [|by apply IH]. rewrite list_elem_of_In in *. intros (y & Ey & Hy)%in_map_iff.
  apply filter_In in Hy as [Hy _]. apply Hx. rewrite <- Ey. by apply in_map.
Qed.

Lemma begin_registered run id t ok w :
  registered w -> ~ In id (map snd (running w)) -> ~ In run (map fst (running w)) -> run_no t = run ->
  registered (begin_test run id t ok w) /\ stopped (begin_test run id t ok w) = (if ok then [] else [run]) ++ stopped w.
Proof.
  intros [H1 H2 H3] Hi Hr Et.
  assert (Hid : tests w !! id = None).
  { destruct (tests w !! id) as [t'|] eqn:E; [|done]. destruct Hi. apply (in_map snd _ (run_no t', id)), H3. by rewrite E. }
  unfold begin_test, insert_test, remove_test, remove_active_test. rewrite Hid. cbn [option_map stop]. destruct ok; cbn.
  - split; [|done]. split; cbn; [by apply NoDup_cons; rewrite list_elem_of_In..|].
    intros id' r'. destruct (decide (id' = id)) as [->|N].
    + rewrite lookup_insert_eq. cbn. rewrite Et. split; [intros [= ->]; by left|].
      intros [[= ->]|H]; [done|]. destruct Hi. by apply (in_map snd) in H.
    + rewrite lookup_insert_ne by done. rewrite H3. split; [by right|]. by intros [[= -> ->]|H].
  - rewrite lookup_insert_eq. cbn. rewrite Et. split; [|done].
    split; cbn; [done..|]. intros id' r'. rewrite delete_insert_eq. rewrite delete_id by done. apply H3.
Qed.

Lemma done_registered run id o w :
  registered w -> In (run, id) (running w) ->
  registered (run_step (Done run o) w) /\ stopped (run_step (Done run o) w) = run :: stopped w.
Proof.
  intros Hw Hi. pose proof (proj2 (id_of_spec run id w Hw) Hi) as E. destruct Hw as [H1 H2 H3].
  pose proof (proj2 (H3 id run) Hi) as Et. cbn [run_step]. rewrite E. unfold remove_test, remove_active_test. rewrite Et.
  split; [|done]. split; cbn; [by apply NoDup_map_filter..|].
  unfold RecordSettersUsingExistingGetters.const. intros id' r'. rewrite filter_In. cbn [fst]. rewrite Nat.eqb_sym. destruct (decide (id' = id)) as [->|N].
  - rewrite lookup_delete_eq. split; [done|]. intros [Hr' Hne]. cbn in Hne.
    apply H3 in Hr'. rewrite Et in Hr'. injection Hr' as ->. by rewrite Nat.eqb_refl in Hne.
  - rewrite lookup_delete_ne by done. rewrite H3. split; [|by intros []]. intros Hr'. split; [done|].
    cbn. destruct (Nat.eqb_spec run r') as [->|]; [|done]. destruct N.
    assert (G : id_of r' w = Some id') by (apply id_of_spec; [by split|done]). rewrite E in G. by injection G.
Qed.

Lemma step_registered e w :
  registered w -> starts_fresh e w ->
  registered (run_step e w) /\ forall r, In r (stopped (run_step e w)) -> In r (stopped w) \/ ends r e.
Proof.
  intros Hw Hf. destruct e as [run id t ok|run|run o].
  - cbn [run_step]. destruct Hf as (Hi & Hr & Et). destruct (begin_registered run id t ok w Hw Hi Hr Et) as [H ->].
    split; [done|]. intros r. destruct ok; cbn; [by left|]. intros [<-|H']; [by right|by left].
  - cbn [run_step]. destruct (id_of run w) as [id|] eqn:E; [|by split; [|left]].
    apply id_of_spec in E; [|done]. rewrite (proj2 (registry_exact _ Hw id run) E). cbn.
    split; [by destruct Hw; split|]. intros r [<-|H]; [by right|by left].
  - destruct (id_of run w) as [id|] eqn:E; [|cbn [run_step]; rewrite E; by split; [|left]].
    apply id_of_spec in E; [|done]. destruct (done_registered run id o w Hw E) as [H Hs].
    split; [exact H|]. intros r0. rewrite Hs. revert r0. intros r [<-|Hr]; [by right|by left].
Qed.

Lemma all_registered es w :
  registered w -> all_fresh es w ->
  registered (run_all es w) /\ forall r, In r (stopped (run_all es w)) -> In r (stopped w) \/ Exists (ends r) es.
Proof.
  revert w. induction es as [|e es IH]; intros w Hw Hf; [by split; [|left]|].
  destruct Hf as [He Hf]. destruct (step_registered e w Hw He) as [H1 H2].
  destruct (IH (run_step e w) H1 Hf) as [H3 H4]. split; [exact H3|].
  intros r Hr. destruct (H4 r Hr) as [H|H]; [|by right; apply Exists_cons; right].
  destruct (H2 r H) as [|He']; [by left|right; by apply Exists_cons; left].
Qed.

(** C18. Tests that run at once do not disturb each other as long as their
    identifiers differ: whatever their interleaving, the registry holds exactly
    the running tests -- nothing is left when all have ended, by success,
    failure or an unsent acknowledgement -- and a test's streams are stopped
    only by its own end.  Identifiers come from the clients, and a second test
    under the identifier of a running one stops it, takes its entry, and is
    itself stopped and removed when the first one ends. *)
Theorem tests_are_isolated (es : list run_event) :
  (all_fresh es no_runs ->
   let w := run_all es no_runs in
   (forall id run, option_map run_no (tests w !! id) = Some run <-> In (run, id) (running w)) /\
   (running w = [] -> tests w = ∅) /\
   forall run, In run (stopped w) -> Exists (ends run) es) /\
  (forall id t1 t2 o, run_no t1 = 1%nat -> run_no t2 = 2%nat ->
   let begun := [Begin 1 id t1 true; Begin 2 id t2 true] in
   stopped (run_all begun no_runs) = [1%nat] /\
   In 2%nat (stopped (run_all (begun ++ [Done 1 o]) no_runs)) /\
   tests (run_all (begun ++ [Done 1 o]) no_runs) !! id = None).
Proof.
  split.
  - intros Hf w. assert (H0 : registered no_runs).
    { split; try constructor; [done|]. intros []. }
    destruct (all_registered es no_runs H0 Hf) as [[H1 H2 H3] H4]. fold w in H1, H2, H3, H4. split_and!; [done| |].
    + intros Hr. apply map_eq. intros id. rewrite lookup_empty. destruct (tests w !! id) as [t|] eqn:E; [|done].
      assert (Hin : In (run_no t, id) (running w)) by (apply H3; by rewrite E). by rewrite Hr in Hin.
    + intros run Hr. by destruct (H4 run Hr).
  - intros id t1 t2 o E1 E2 begun. unfold run_all, begun. cbn [app fold_left run_step].
    unfold begin_test, insert_test, remove_test, remove_active_test. cbn [tests no_runs]. rewrite lookup_empty. cbn.
    rewrite lookup_insert_eq. cbn. rewrite E1. split; [done|]. cbn. rewrite lookup_insert_eq. cbn.
    rewrite E2. split; [by left|]. apply lookup_delete_eq.
Qed.

(** ** Every data stream is served once *)
Lemma collect_inv deadline os received started :
  (forall i, received !! i = Some true <-> In i started) -> NoDup started ->
  let '(ended, received', started') := collect_streams deadline os received started in
  (forall i, received' !! i = Some true <-> In i started') /\ NoDup started' /\ length received' = length received /\
  (exists more, started' = started ++ more) /\
  (ended = false -> existsb negb received' = true).
Proof.
  revert received started. induction os as [|o os IH]; intros received started Hr Hn; cbn [collect_streams].
  all: destruct (forallb (fun r => r) received) eqn:Ea; [split_and!; try done; by exists []; rewrite app_nil_r|].
  - split_and!; try done; [by exists []; rewrite app_nil_r|]. intros _. clear -Ea.
    induction received as [|[] l IH]; [done| |done]. by apply IH.
  - destruct (_ || _); [split_and!; try done; by exists []; rewrite app_nil_r|].
    destruct (c_arm o) as [dropped value|i| |];
      try (split_and!; try done; by exists []; rewrite app_nil_r).
    + destruct (dropped || value); [split_and!; try done; by exists []; rewrite app_nil_r|by apply IH].
    + destruct (received !! i) as [[]|] eqn:Ei; [by apply IH| |by apply IH].
      specialize (IH (<[i := true]> received) (started ++ [i])).
      destruct (collect_streams deadline os _ _) as [[e' r'] s']. destruct IH as (H1 & H2 & H3 & (more & ->) & H5).
      * intros j. destruct (decide (j = i)) as [->|N].
        -- rewrite list_lookup_insert_eq by (by apply (lookup_lt_Some _ _ false)).
           split; [intros _; apply in_or_app; right; by left|done].
        -- rewrite list_lookup_insert_ne, Hr by done. rewrite in_app_iff. cbn. split; [by left|].
           intros [H|[H|[]]]; [done|by destruct N].
      * apply NoDup_app. split_and!; [done| |apply NoDup_singleton].
        intros x Hx Hy. apply list_elem_of_singleton in Hy as ->. apply list_elem_of_In, Hr in Hx. by rewrite Ei in Hx.
      * split_and!; try done; [by rewrite H3, length_insert|]. exists (i :: more). by rewrite <- app_assoc.
Qed.

(** However data connections arrive -- twice, with indices out of range, or
    never -- each stream of the test starts exactly one handler, never for an
    index the test does not have; a loop still collecting misses a stream; and
    when it has all of them, every stream was served. *)
Theorem streams_collected_once (deadline : Z) (os : list collect_obs) (n : nat) :
  let '(ended, received, started) := collect_streams deadline os (repeat false n) [] in
  NoDup started /\ Forall (fun i => (i < n)%nat) started /\
  (ended = false -> (length started < n)%nat) /\
  (forallb (fun r => r) received = true -> Permutation started (seq 0 n)).
Proof.
  pose proof (collect_inv deadline os (repeat false n) []) as H.
  destruct (collect_streams _ _ _ _) as [[e r] s]. destruct H as (H1 & H2 & H3 & _ & H5).
  { intros i. split; [|by intros []]. intros H%list_elem_of_lookup_2%list_elem_of_In%repeat_spec. done. }
  { constructor. }
  rewrite repeat_length in H3.
  assert (Hb : Forall (fun i => (i < n)%nat) s).
  { apply Forall_forall. intros i Hi%list_elem_of_In. apply H1 in Hi. apply lookup_lt_Some in Hi. lia. }
  assert (Hall : forallb (fun r => r) r = true -> Permutation s (seq 0 n)).
  { intros Ha. apply NoDup_Permutation; [done|apply NoDup_seq|]. intros i.
    rewrite list_elem_of_In, <- H1, list_elem_of_In, in_seq. split.
    - intros Hi. apply lookup_lt_Some in Hi. lia.
    - intros Hi. destruct (lookup_lt_is_Some_2 r i) as [b Eb]; [lia|]. rewrite forallb_forall in Ha.
      rewrite Eb. f_equal. apply Ha. apply list_elem_of_In. by apply (list_elem_of_lookup_2 _ i). }
  split_and!; [done|done| |done].
  intros He. specialize (H5 He). assert (Hincl : incl s (seq 0 n)).
  { intros i Hi. apply in_seq. rewrite Forall_forall in Hb. specialize (Hb i (proj2 (list_elem_of_In _ _) Hi)). lia. }
  apply existsb_exists in H5 as (b & Hin & Hb'). apply list_elem_of_In, list_elem_of_lookup in Hin as [j Ej].
  destruct b; [done|]. assert (Hj : (j < n)%nat) by (apply lookup_lt_Some in Ej; lia).
  assert (Hlen : (length (j :: s) <= length (seq 0 n))%nat).
  { apply NoDup_incl_length; [apply NoDup_ListNoDup; apply NoDup_cons; split; [|done]|].
    - intros Hjs%list_elem_of_In%H1. by rewrite Ej in Hjs.
    - intros i [<-|Hi]; [apply in_seq; lia|by apply Hincl]. }
  cbn in Hlen. rewrite length_seq in Hlen. lia.
Qed.

(** The streams of a rate-limited test together stay within the rate, from one
    bit per second each. *)
Lemma per_stream_bitrate_sum b n : 0 < n <= b ->
  exists s, per_stream_bitrate (Some b) n = Some s /\ 1 <= s /\ s * n <= b.
Proof.
  intros H. cbn. rewrite (proj2 (Z.eqb_neq b 0)) by lia. eexists. split; [done|].
  assert (1 <= b / n) by (apply Z.div_le_lower_bound; lia). pose proof (Z.mul_div_le b n ltac:(lia)). lia.
Qed.

(** ** The result adds up *)
Lemma sum_u64_wrap l : sum_u64 l = wrap 64 (zsum l).
Proof.
  assert (G : forall acc, fold_left (wrapping_add 64) l (wrap 64 acc) = wrap 64 (acc + zsum l)).
  { induction l as [|z l IH]; intros acc; cbn [fold_left zsum]; [by rewrite Z.add_0_r|].
    assert (E : wrapping_add 64 (wrap 64 acc) z = wrap 64 (acc + z)) by (unfold wrapping_add, wrap; apply Zplus_mod_idemp_l).
    rewrite E, IH. f_equal. lia. }
  exact (G 0).
Qed.

Lemma total_split ss :
  sum_u64 (map StreamStats.total_bytes ss)
  = wrapping_add 64 (sum_u64 (map bytes_received ss)) (sum_u64 (map bytes_sent ss)).
Proof.
  rewrite !sum_u64_wrap. unfold wrapping_add, wrap. rewrite Zplus_mod_idemp_l, Zplus_mod_idemp_r.
  induction ss as [|x ss IH]; [done|]. cbn [map zsum].
  change (StreamStats.total_bytes x) with ((bytes_sent x + bytes_received x) mod 2 ^ 64).
  rewrite Zplus_mod_idemp_l. rewrite Zplus_mod, IH, <- Zplus_mod. f_equal. lia.
Qed.

Lemma omap_some {A B} (f : A -> option B) (g : A -> B) l : (forall x, f x = Some (g x)) -> omap f l = map g l.
Proof. intros H. induction l as [|x l IH]; [done|]. cbn. by rewrite H, IH. Qed.

(** A result adds up: its total is the sum of its rows, each row the sum of
    its directions; in a bidirectional test the two directions, told from the
    client's side, partition the total and are the sums of the rows', and in a
    one-way test there is no split.  Both transports report alike. *)
Theorem server_result_adds_up (k : StreamStats.kernel) (id : str) (p : Protocol) (d : Direction) (duration_ms : Z)
    (stats : TestStats) (r : TestResult) :
  r = run_test_result k id p d duration_ms stats \/ r = run_quic_test_result id d duration_ms stats ->
  tr_bytes_total r = sum_u64 (map sr_bytes (tr_streams r)) /\
  length (tr_streams r) = length (streams stats) /\
  if bool_decide (d = Bidir) then
    exists sent received, tr_bytes_sent r = Some sent /\ tr_bytes_received r = Some received /\
      wrapping_add 64 sent received = tr_bytes_total r /\
      sent = sum_u64 (omap sr_bytes_sent (tr_streams r)) /\ received = sum_u64 (omap sr_bytes_received (tr_streams r))
  else tr_bytes_sent r = None /\ tr_bytes_received r = None /\
       Forall (fun row => sr_bytes_sent row = None /\ sr_bytes_received row = None) (tr_streams r).
Proof.
  intros H.
  assert (Hr : tr_bytes_total r = TestStats.total_bytes stats /\
    tr_streams r = map (fun s => StreamStats.to_result_with_direction s duration_ms (bool_decide (d = Bidir))) (streams stats) /\
    tr_bytes_sent r = (if bool_decide (d = Bidir) then Some (TestStats.total_bytes_received stats) else None) /\
    tr_bytes_received r = (if bool_decide (d = Bidir) then Some (TestStats.total_bytes_sent stats) else None)).
  { destruct H as [-> | ->]; unfold run_test_result, run_quic_test_result, directional_totals; by case_bool_decide. }
  clear H. destruct Hr as (-> & -> & -> & ->). rewrite length_map. split.
  { unfold TestStats.total_bytes. f_equal. by rewrite map_map. }
  split; [done|]. case_bool_decide as Hd.
  - exists (TestStats.total_bytes_received stats), (TestStats.total_bytes_sent stats). split_and!; try done.
    + symmetry. apply total_split.
    + unfold TestStats.total_bytes_received. f_equal. induction (streams stats) as [|x l IH]; [done|]. cbn. by rewrite IH.
    + unfold TestStats.total_bytes_sent. f_equal. induction (streams stats) as [|x l IH]; [done|]. cbn. by rewrite IH.
  - split_and!; try done. apply Forall_map, Forall_forall. done.
Qed.

Definition demo_runs_stats : TestStats :=
  mkTestStats (txt "t") [StreamStats.with_bytes 5 7 (StreamStats.new 0 0); StreamStats.with_bytes 1 2 (StreamStats.new 1 0)] 0 [] [].
Lemma server_result_adds_up_witness :
  tr_bytes_total (run_quic_test_result (txt "t") Bidir 1000 demo_runs_stats) = 15.
Proof.
  destruct (server_result_adds_up (fun _ => None) (txt "t") Quic Bidir 1000 demo_runs_stats _ (or_intror eq_refl))
    as [-> _]. vm_compute. reflexivity.
Defined.
Definition demo_test (n : nat) : ActiveTest := mkActiveTest n [] false (V4 1) 1.
Lemma tests_are_isolated_witness :
  tests (run_all [Begin 1 (txt "a") (demo_test 1) true; Begin 2 (txt "b") (demo_test 2) false; StopHandlers 1; Done 1 (Ok 5)]
           no_runs) = ∅.
Proof.
  destruct (proj1 (tests_are_isolated
    [Begin 1 (txt "a") (demo_test 1) true; Begin 2 (txt "b") (demo_test 2) false; StopHandlers 1; Done 1 (Ok 5)])) as (_ & H & _).
  - assert (Hb : forall e w, match e with
        | Begin run id t _ => negb (bool_decide (id ∈ map snd (running w))) && negb (existsb (Nat.eqb run) (map fst (running w))) && Nat.eqb (run_no t) run
        | _ => true end = true -> starts_fresh e w).
    { intros [run id t ok|run|run o] w; [|done..]. cbn. intros Hx. zbool. split_and!.
      - intros Hi%list_elem_of_In. by rewrite bool_decide_eq_true_2 in *.
      - intros Hi. assert (existsb (Nat.eqb run) (map fst (running w)) = true); [|congruence].
        apply existsb_exists. exists run. split; [done|apply Nat.eqb_refl].
      - by apply Nat.eqb_eq. }
    repeat (split; [apply Hb; vm_compute; reflexivity|]). exact I.
  - apply H. vm_compute. reflexivity.
Defined.
