(* ===== verification/Launch.v ===== *)
(** * From the command line to a test or a server (src/src/main.rs [main])

    How [main] merges the parsed command line with the configuration file
    into the configuration of a client, its output options and its push
    gateway, or into the configuration of a server; what it warns of and every
    way it refuses.  A run yields the notices printed on the way and a result.
    The command-line parser (clap), URLs, the interface lookup, the key file
    and whether the kernel offers MPTCP are parameters. *)
From coqutil Require Import Datatypes.RecordSettersUsingExistingGetters.
From S2P Require Import Prelude Bytes Text Float Fmt Ip UdpWire Auth RateLimit Acl Target Config Diff Cli Report.
From S2P Require Import PushGateway Update Scripted Serve Protocol Stats App Client.

(** ** Notices and failure *)

(** [eprintln!] and [warn!]. *)
Inductive notice := Stderr (s : str) | Logged (s : str).

Inductive launch_error :=
  | HostRequired
  | OutputRefused (e : str)
  | InvalidClientOption (e : str)
  | MptcpUnavailable (e : str)
  | BadOption (e : str)
  | BadKey (e : psk_error)
  | BadTarget (e : target_error)
  | ZeroCport
  | CportRangeTooLong (first last : Z)
  | CportConflict (bind : SocketAddr) (cport : Z)
  | BadBind (e : bind_error)
  | RequiresGateway (flag : str)
  | BadLabel (e : label_error)
  | BadGateway (e : url_error)
  | BadPushJob (e : job_error)
  | UnknownPreset (name : str).

Definition M (A : Type) : Type := list notice * result A launch_error.
Definition ret {A} (a : A) : M A := ([], Ok a).
Definition bind {A B} (m : M A) (k : A -> M B) : M B :=
  match m with
  | (printed, Ok a) => let '(more, r) := k a in (printed ++ more, r)
  | (printed, Err e) => (printed, Err e)
  end.
Definition tell (n : list notice) : M unit := (n, Ok tt).
Definition lift {A E} (wrap : E -> launch_error) (r : result A E) : M A := ([], map_err wrap r).
(** [anyhow::ensure!]. *)
Definition require (b : bool) (e : launch_error) : M unit := ([], if b then Ok tt else Err e).
Notation "'let!' x := m 'in' k" := (bind m (fun x => k))
  (at level 200, x pattern, m at level 200, k at level 200, format "'let!'  x  :=  m  'in' '//' k").

Definition when (b : bool) (s : string) : list notice := if b then [Stderr (txt s)] else [].

(** ** Options that a subcommand would ignore *)

(** A top-level option: what clap knows of it and of its use. *)
Record arg := mkArg {
  arg_id : str; arg_long : option str; takes_values : bool; arg_values : list str; on_command_line : bool
}.
Definition SUBCOMMAND_COMPATIBLE_ARGS : list str :=
  map txt ["completions"; "config"; "theme"; "log_file"; "log_level"; "no_update_check"]%string.

Definition ignored_arg (args : list arg) : option arg :=
  List.find (fun a => negb (existsb (str_eqb (arg_id a)) SUBCOMMAND_COMPATIBLE_ARGS) && on_command_line a) args.
(** [sub_longs]: the long names of the subcommand's own options. *)
Definition subcommand_tip (subcommand : str) (sub_longs : list (option str)) (a : arg) : str :=
  if is_some (arg_long a) && existsb (fun l => bool_decide (l = arg_long a)) sub_longs then
    txt "put " ++ subcommand ++ txt " options after the subcommand: xfr " ++ subcommand ++ txt " --"
    ++ or_default (arg_long a) []
    ++ (if takes_values a then concat (map (fun v => 32 :: v) (arg_values a)) else [])
  else txt "this option only applies to client tests (xfr <HOST> ...)".
Definition subcommand_conflict (subcommand : option (str * list (option str))) (args : list arg) : option (arg * str) :=
  match subcommand with
  | Some (name, longs) => option_map (fun a => (a, subcommand_tip name longs a)) (ignored_arg args)
  | None => None
  end.

(** ** The command line *)
Record ClientCli := mkClientCli {
  c_host : option str; c_output : option Config.path; c_flags : Flags;
  c_bidir : bool; c_reverse : bool; c_quic : bool; c_udp : bool;
  c_time : option Z; c_bytes : option Z; c_udp_payload_size : option Z; c_bitrate : option Z;
  c_parallel : option Z; c_interval : option f64; c_omit : option Z;
  c_port : option Z; port_on_command_line : bool; c_tcp_nodelay : bool; c_congestion : option str;
  c_dscp : option str; c_window : option Z; c_timestamp_format : option TimestampFormat.t;
  c_psk : option str; c_psk_file : option Config.path; c_ipv4_only : bool; c_ipv6_only : bool;
  c_bind : option str; c_cport : option Z; c_mptcp : bool; c_connect_timeout : option Z;
  c_push_gateway : option str; c_push_labels : list str; c_push_job : option str;
  c_theme : option str; no_update_check : bool; c_log_file : option str; c_log_level : option str
}.

Record ServeCli := mkServeCli {
  s_port : option Z; s_one_off : bool; s_tui : bool; s_max_duration : option Z; s_prometheus : option Z;
  s_push_gateway : option str; s_push_labels : list str; s_log_file : option str; s_log_level : option str;
  s_psk : option str; s_psk_file : option Config.path; s_preset : option str;
  s_rate_limit : option Z; s_rate_limit_window : option Z; s_allow : list str; s_deny : list str;
  s_acl_file : option str; s_bind : option IpAddr; s_ipv4_only : bool; s_ipv6_only : bool; s_no_mdns : bool
}.

(** ** Logging *)
Inductive command := ServeCommand (c : ServeCli) | DiffCommand | DiscoverCommand | ClientTest.

Definition log_config (cmd : command) (cli : ClientCli) (file : Config) (terminal : bool)
    : option str * option str * bool :=
  let client_file := or_else (c_log_file cli) (Config.log_file (client file)) in
  let client_level := or_else (c_log_level cli) (Config.log_level (client file)) in
  match cmd with
  | ServeCommand s =>
    (or_else (s_log_file s) (or_else (server_log_file (server file)) client_file),
     or_else (s_log_level s) (or_else (server_log_level (server file)) client_level),
     s_tui s && terminal)
  | DiffCommand | DiscoverCommand => (client_file, client_level, false)
  | ClientTest => (client_file, client_level, client_uses_tui (c_flags cli) file terminal)
  end.

(** [PathBuf::join] on Unix. *)
Definition join (base rest : str) : str :=
  if starts_with (txt "/") rest then rest
  else if ends_with_char 47 base || bool_decide (base = []) then base ++ rest
  else base ++ txt "/" ++ rest.
Definition expand_log_path (home : option str) (file_path : str) : str :=
  if starts_with (txt "~/") file_path
  then match home with Some home => join home (drop 2 file_path) | None => file_path end
  else file_path.

(** What is logged at all. *)
Definition log_directive (log_level : option str) : str := txt "xfr=" ++ or_default log_level (txt "info").
(** Where it goes: a file, rotated daily, and whether the console too;
    [Silent] is no subscriber at all. *)
Inductive log_sink := ToFile (path : str) (console : bool) | ToConsole | Silent.
Definition init_logging (home log_file : option str) (suppress_console : bool) : log_sink :=
  match log_file, suppress_console with
  | Some file, true => ToFile (expand_log_path home file) false
  | Some file, false => ToFile (expand_log_path home file) true
  | None, true => Silent
  | None, false => ToConsole
  end.

Definition KEY_EXPOSED : string :=
  "Using --psk or XFR_PSK exposes the pre-shared key in process metadata (ps, /proc/<pid>/environ, shell history); prefer --psk-file".

(** ** Shared by the client and the server *)
Section environment.
(** The effective user, and what opening a key file finds. *)
Variables (euid : Z) (open_key : Config.path -> result opened unit).

Definition read_key_file (p : Config.path) : result str psk_error :=
  let? bytes := read_psk_file (fun b => as_bytes (trim (chars b))) euid (open_key p) in
  Ok (chars bytes).
Definition effective_psk (psk_file : option Config.path) (psk config : option str) : M (option str) :=
  match psk_file with
  | Some p => let! key := lift BadKey (read_key_file p) in ret (Some key)
  | None => ret (or_else psk config)
  end.
Definition check_psk (psk : option str) : M unit :=
  match psk with Some key => lift BadKey (validate_psk (as_bytes key)) | None => ret tt end.

Context {Url : Type} (parse_url : str -> result Url str) (scheme : Url -> str) (has_host : Url -> bool).
(** Whether the HTTP client can be built. *)
Variable http_ok : bool.
Notation Gateway := (@PushGatewayClient Url).

(** ** The client *)
Variable if_nametoindex : str -> Z.
Variables (linux : bool) (validate_mptcp : result unit str) (check_destination : Config.path -> result unit str).
(** The variables of the environment that the update check reads, whether it
    is compiled in, and the saved preferences. *)
Variables (var : str -> option str) (update_enabled : bool) (saved : Prefs).

Definition choose_direction (cli : ClientCli) : Direction :=
  if c_bidir cli then Bidir else if c_reverse cli then Download else Upload.
Definition choose_protocol (cli : ClientCli) : Protocol :=
  if c_quic cli then Quic else if c_udp cli || probe_mtu (c_flags cli) then Udp else Tcp.

Definition warn_of (o : option str) : list notice :=
  match o with Some msg => [Stderr (txt "Warning: " ++ msg)] | None => [] end.
Definition option_warnings (cli : ClientCli) (net : ResolvedClientNetworkOptions) : list notice :=
  let protocol := choose_protocol cli in
  let direction := choose_direction cli in
  let quic := bool_decide (protocol = Quic) in
  warn_of (random_payload_notice protocol direction (random (c_flags cli)) (zeros (c_flags cli)))
  ++ warn_of (zerocopy_notice linux (effective_zerocopy (c_flags cli)) direction)
  ++ when (is_some (r_dscp net) && quic) "Warning: --dscp is ignored with QUIC (QUIC manages its own socket)"
  ++ when (quic && is_some (c_window cli))
       "Warning: -w/--window is ignored with QUIC (QUIC flow control manages buffering)"
  ++ when (quic && is_some (r_congestion net))
       "Warning: --congestion is ignored with QUIC (kernel TCP CC does not apply)"
  ++ when (quic && c_tcp_nodelay cli) "Warning: --tcp-nodelay is ignored with QUIC (no Nagle on UDP transport)".

Definition small_budget_warning (protocol : Protocol) (bytes : option Z) : list notice :=
  match bytes with
  | Some budget =>
    if bool_decide (protocol = Udp) && (budget <? UDP_HEADER_SIZE)
    then [Logged (txt "-n " ++ dec budget ++ txt " is smaller than one UDP packet header (" ++ dec UDP_HEADER_SIZE
                  ++ txt " bytes); UDP sends whole datagrams, so this test will transfer nothing")]
    else []
  | None => []
  end.

(** [--cport] over the address bound to. *)
Definition merge_cport (cport : option Z) (bind_addr : option SocketAddr) (protocol : Protocol) (streams : Z)
    (family : AddressFamily) : M (option SocketAddr) :=
  match cport with
  | None => ret bind_addr
  | Some port =>
    let! _ := require (negb (port =? 0)) ZeroCport in
    let max_port := wrapping_sub 32 (wrapping_add 32 port streams) 1 in
    let! _ := require (negb (negb (bool_decide (protocol = Quic)) && (1 <? streams) && (65535 <? max_port)))
                (CportRangeTooLong port max_port) in
    match bind_addr with
    | Some addr =>
      let! _ := require (sa_port addr =? 0) (CportConflict addr port) in
      ret (Some (with_port addr port))
    | None =>
      let ip := match family with V6Only => V6 0 | _ => V4 0 end in
      ret (Some (sa_new ip port))
    end
  end.

Definition build_gateway (cli : ClientCli) (file : Config) (host : str) (port : Z) (protocol : Protocol)
    (direction : Direction) (url : str) : M Gateway :=
  let! push_labels := lift BadLabel (merge_push_labels (Config.push_labels (client file)) (c_push_labels cli)) in
  let push_job := or_else (c_push_job cli) (Config.push_job (client file)) in
  let! self := lift BadGateway (PushGateway.new parse_url scheme has_host url http_ok) in
  let! self := lift BadLabel
                 (with_labels push_labels (with_test protocol direction (with_server host port self))) in
  let! self := match push_job with Some j => lift BadPushJob (with_job j self) | None => ret self end in
  let! _ := lift BadPushJob (PushGateway.validate self) in
  ret self.

Inductive client_mode := Plain | Tui (prefs : Prefs) (update_disabled : bool) (lock : option str).
Record client_launch := mkClientLaunch {
  l_config : ClientConfig; l_gateway : option Gateway; l_opts : OutputOptions; l_output : option Config.path;
  l_mode : client_mode
}.

Definition launch_mode (cli : ClientCli) (file : Config) (tui_enabled : bool) : client_mode :=
  if negb tui_enabled then Plain
  else
    let prefs := with_overrides (c_theme cli) (Config.theme (client file)) saved in
    let opt_out := env_opt_out var in
    Tui prefs
      (check_disabled update_enabled opt_out (no_update_check cli) (Config.no_update_check (client file))
         (disable_update_check prefs))
      (check_lock_reason update_enabled opt_out (no_update_check cli) (Config.no_update_check (client file))).

Definition output_options (cli : ClientCli) (file : Config) (interval_secs : f64) : OutputOptions :=
  mkOutputOptions (client_json_output (c_flags cli) file) (Cli.json_stream (c_flags cli)) (Cli.csv (c_flags cli))
    (Cli.quiet (c_flags cli)) (or_default (c_omit cli) (or_default (Config.omit_secs (client file)) 0)) interval_secs
    (or_default (or_else (c_timestamp_format cli) (Config.timestamp_format (client file))) TimestampFormat.Relative).

Definition resolve_bind (bind : option str) : M (option SocketAddr) :=
  match bind with
  | Some text => let! addr := lift BadTarget (parse_bind_address if_nametoindex text) in ret (Some addr)
  | None => ret None
  end.
Definition resolve_dscp (dscp : option str) : M (option Z) :=
  match dscp with
  | Some name => let! tos := lift BadOption (parse_dscp name) in ret (Some tos)
  | None => ret None
  end.

Definition gateway_of (cli : ClientCli) (file : Config) (host : str) (port : Z) (protocol : Protocol)
    (direction : Direction) : M (option Gateway) :=
  let gateway_url := or_else (c_push_gateway cli) (Config.push_gateway (client file)) in
  let! _ := require (negb (negb (bool_decide (c_push_labels cli = []))) || is_some gateway_url)
              (RequiresGateway (txt "--push-label")) in
  let! _ := require (negb (is_some (c_push_job cli)) || is_some gateway_url)
              (RequiresGateway (txt "--push-job")) in
  match gateway_url with
  | Some url => let! g := build_gateway cli file host port protocol direction url in ret (Some g)
  | None => ret None
  end.

(** The host and the port of the target. *)
Definition resolve_target (cli : ClientCli) (file : Config) (target : str) : M (str * Z) :=
  let! target := lift BadTarget (split_host_port target) in
  let '(host, target_port) := target in
  let '(cli_port, env_port) := if port_on_command_line cli then (c_port cli, None) else (None, c_port cli) in
  let! port := lift BadOption (resolve_client_port target_port cli_port env_port (Config.port (client file))) in
  ret (host, port).

(** The arm of [main] without a subcommand, up to the start of the test. *)
Definition launch_client (cli : ClientCli) (file : Config) (tui_enabled : bool) : M client_launch :=
  let! target := lift id (ok_or (c_host cli) HostRequired) in
  let! _ := match c_output cli with Some p => lift OutputRefused (check_destination p) | None => ret tt end in
  let direction := choose_direction cli in
  let protocol := choose_protocol cli in
  let! net := lift InvalidClientOption
                (resolve_client_network_options (c_bitrate cli) (c_congestion cli) (c_dscp cli) (c_interval cli)
                   (c_bind cli) (c_cport cli) (client file)) in
  let! _ := tell (option_warnings cli net) in
  let! _ := if c_mptcp cli then lift MptcpUnavailable validate_mptcp else ret tt in
  let duration := resolve_client_duration (c_time cli) (probe_mtu (c_flags cli)) (c_bytes cli) file in
  let! streams := lift BadOption (resolve_parallel_streams (c_parallel cli) (Config.parallel_streams (client file))) in
  let tcp_nodelay := c_tcp_nodelay cli || or_default (Config.tcp_nodelay (client file)) false in
  let! window_size := lift BadOption (resolve_window_size (c_window cli) (Config.window_size (client file))) in
  let! psk := effective_psk (c_psk_file cli) (c_psk cli) (client_psk (client file)) in
  let! _ := check_psk psk in
  let! _ := tell (small_budget_warning protocol (c_bytes cli)) in
  let! _ := tell (if is_some (c_psk cli) then [Logged (txt KEY_EXPOSED)] else []) in
  let! family := lift BadOption
                   (resolve_address_family (c_ipv4_only cli) (c_ipv6_only cli) (Config.address_family (client file))
                      (txt "client.address_family")) in
  let! bind_addr := resolve_bind (r_bind net) in
  let! bind_addr := merge_cport (r_cport net) bind_addr protocol streams family in
  let! _ := lift BadBind (validate_bind_address bind_addr protocol streams (is_some (r_cport net))) in
  let! target := resolve_target cli file target in
  let '(host, port) := target in
  let! tos := resolve_dscp (r_dscp net) in
  let config := mkClientConfig host port protocol streams duration direction (r_bitrate net)
                  (c_udp_payload_size cli) tcp_nodelay (r_congestion net) window_size psk family bind_addr
                  (negb (bool_decide (protocol = Quic)) && is_some (r_cport net) && (1 <? streams))
                  (c_mptcp cli) (effective_random_payload (c_flags cli)) (effective_zerocopy (c_flags cli)) tos
                  (probe_mtu (c_flags cli)) (c_connect_timeout cli) (c_bytes cli) in
  let! gateway := gateway_of cli file host port protocol direction in
  ret (mkClientLaunch config gateway (output_options cli file (r_interval_secs net)) (c_output cli)
         (launch_mode cli file tui_enabled)).

(** The preferences the terminal application ended with are saved when it
    changed them. *)
Definition prefs_to_save (before after : Prefs) : option Prefs :=
  if bool_decide (pref_theme after = pref_theme before)
     && bool_decide (disable_update_check after = disable_update_check before)
  then None else Some after.

(** ** The server *)
Inductive server_mode := PlainServer | ServerTui (prefs : Prefs).
Record server_launch := mkServerLaunch {
  v_config : ServerConfig; v_acl_file : option str; v_labels : list (str * str); v_mode : server_mode
}.

Definition server_labels (cli : ServeCli) (file : Config) (gateway_url : option str) : M (list (str * str)) :=
  let! _ := require (bool_decide (s_push_labels cli = []) || is_some gateway_url) (RequiresGateway (txt "--push-label")) in
  match gateway_url with
  | Some url =>
    let! labels := lift BadLabel (merge_push_labels (server_push_labels (server file)) (s_push_labels cli)) in
    let! _ := lift BadGateway (PushGateway.new parse_url scheme has_host url http_ok) in
    ret labels
  | None => ret []
  end.

Definition find_preset (cli : ServeCli) (file : Config) : M (option ServerPreset) :=
  match s_preset cli with
  | Some name => let! p := lift id (ok_or (get_preset file name) (UnknownPreset name)) in ret (Some p)
  | None => ret None
  end.

(** A list given on the command line replaces the one of the file. *)
Definition rules (cli : list str) (config : option (list str)) : list str :=
  match cli with [] => or_default config [] | _ => cli end.

(** The [serve] arm of [main], up to the start of the server. *)
Definition launch_server (cli : ServeCli) (theme : option str) (file : Config) (terminal : bool) : M server_launch :=
  let port := resolve_server_port (s_port cli) (server_port (server file)) in
  let one_off := s_one_off cli || or_default (Config.one_off (server file)) false in
  let prom_port := or_else (s_prometheus cli) (Config.prometheus_port (server file)) in
  let gateway_url := or_else (s_push_gateway cli) (server_push_gateway (server file)) in
  let! labels := server_labels cli file gateway_url in
  let! psk := effective_psk (s_psk_file cli) (s_psk cli) (server_psk (server file)) in
  let! _ := check_psk psk in
  let! _ := tell (if is_some (s_psk cli) then [Logged (txt KEY_EXPOSED)] else []) in
  let! preset := find_preset cli file in
  let acl_file := or_else (s_acl_file cli) (Config.acl_file (server file)) in
  let! window := lift BadOption
                   (resolve_rate_limit_window (s_rate_limit_window cli) (Config.rate_limit_window (server file))) in
  let limits := mkRateLimitConfig (or_else (s_rate_limit cli) (Config.rate_limit (server file))) window in
  let! family := lift BadOption
                   (resolve_server_address_family (s_bind cli) (s_ipv4_only cli) (s_ipv6_only cli)
                      (server_address_family (server file))) in
  let no_mdns := s_no_mdns cli || or_default (Config.no_mdns (server file)) false in
  let max_duration := resolve_server_max_duration (s_max_duration cli) preset in
  let config := mkServerConfig port one_off max_duration prom_port gateway_url
                  (mkAuthConfig (option_map as_bytes psk))
                  (rules (s_allow cli) (Config.allow (server file))) (rules (s_deny cli) (Config.deny (server file)))
                  limits family (s_bind cli) true (max_concurrent Serve.default_config) no_mdns
                  (preset ≫= Config.allowed_clients) in
  let! _ := tell (if s_tui cli && negb terminal
                  then [Logged (txt "--tui needs a terminal; running the plain server")] else []) in
  ret (mkServerLaunch config acl_file labels
         (if s_tui cli && terminal then ServerTui (with_overrides theme None saved) else PlainServer)).

(** [Server::with_push_labels]. *)
Inductive labels_error := BadServerLabel (e : label_error) | NoGateway.
Definition with_push_labels (config : ServerConfig) (labels : list (str * str)) : result (list (str * str)) labels_error :=
  let? _ := map_err BadServerLabel (validate_push_labels labels) in
  if bool_decide (labels = []) || is_some (push_gateway_url config) then Ok labels else Err NoGateway.
End environment.

(** ** Comparing two results *)
Section compare.
Variables (path : Type) (load_result : path -> result TestResult str).
(** What [xfr diff] prints, and its exit status. *)
Definition diff_command (baseline current : path) (threshold : f64) : result (str * Z) str :=
  let? d := run_diff path load_result baseline current threshold in
  Ok (format_plain d ++ [10], if is_regression d then 1 else 0).
End compare.

(** ** Reading a run that succeeds *)
Lemma step_ok {A B} (m : M A) (k : A -> M B) b :
  snd (bind m k) = Ok b -> exists a, snd m = Ok a /\ snd (k a) = Ok b.
Proof. destruct m as [w [a|e]]; cbn; [|done]. destruct (k a) eqn:E. intros H. exists a. by rewrite E. Qed.
Lemma lift_ok {A E} (wrap : E -> launch_error) (r : result A E) a : snd (lift wrap r) = Ok a -> r = Ok a.
Proof. destruct r; cbn; congruence. Qed.
Lemma require_ok b e u : snd (require b e) = Ok u -> b = true.
Proof. by destruct b. Qed.
Lemma ret_ok {A} (a b : A) : snd (ret a) = Ok b -> b = a.
Proof. cbn. congruence. Qed.

(** Takes the next step of a run that succeeds. *)
Tactic Notation "step" hyp(H) simple_intropattern(a) simple_intropattern(Ha) :=
  apply step_ok in H as (a & Ha & H).

Lemma parallel_bounds cli config n : resolve_parallel_streams cli config = Ok n -> 1 <= n <= 128.
Proof. unfold resolve_parallel_streams. destruct (_ && _) eqn:E; [|done]. intros H. injection H as <-. lia. Qed.

Section ports.
Context (cport : option Z) (bound : option SocketAddr) (protocol : Protocol) (streams : Z) (family : AddressFamily).
Hypotheses (Hs : 1 <= streams <= 128) (Hc : forall p, cport = Some p -> fits 16 p).

(** A merged source port: the one asked for, with room for every stream. *)
Lemma merge_cport_ok merged : snd (merge_cport cport bound protocol streams family) = Ok merged ->
  match cport with
  | None => merged = bound
  | Some p => 0 < p /\ (protocol <> Quic -> p + streams - 1 <= u16_max) /\
      (exists a, merged = Some a /\ sa_port a = p /\ forall b, bound = Some b -> sa_ip a = sa_ip b) /\
      (forall b, bound = Some b -> sa_port b = 0)
  end.
Proof.
  unfold merge_cport. destruct cport as [p|]; [|by intros H%ret_ok]. specialize (Hc p eq_refl). unfold fits in Hc.
  intros H. step H u H1. apply require_ok in H1. step H u' H2. apply require_ok in H2.
  unfold wrapping_sub, wrapping_add in H2. rewrite (wrap_small 32 (p + streams)), wrap_small in H2 by (unfold fits; lia).
  split; [lia|]. split.
  { intros Hq. rewrite (bool_decide_eq_false_2 _ Hq) in H2. cbn in H2. unfold u16_max.
    destruct (Z.ltb_spec 1 streams), (Z.ltb_spec 65535 (p + streams - 1)); cbn in H2; lia. }
  destruct bound as [b|].
  - step H v H3. apply require_ok in H3. apply ret_ok in H as ->. split.
    + eexists. split_and!; [done|apply with_port_port|]. intros b' H. injection H as <-. apply with_port_ip.
    + intros b' H. injection H as <-. lia.
  - apply ret_ok in H as ->. split; [|done]. by destruct family; eexists.
Qed.
End ports.

(** What the parser of the command line and the types of the file guarantee:
    widths, and [-l] with its range and never with [--probe-mtu]. *)
Record client_input_ok (cli : ClientCli) (file : Config) : Prop := mkClientInputOk {
  in_cport : forall p, c_cport cli = Some p -> fits 16 p;
  in_file_cport : forall p, Config.cport (client file) = Some p -> fits 16 p;
  in_length : forall n, c_udp_payload_size cli = Some n ->
                UDP_HEADER_SIZE <= n <= MAX_UDP_PAYLOAD_SIZE /\ probe_mtu (c_flags cli) = false;
  in_labels : bt_ok (Config.push_labels (client file))
}.

(** ** The client's configuration is one its run accepts *)
Section client_facts.
Context (euid : Z) (open_key : Config.path -> result opened unit).
Context {Url : Type} (parse_url : str -> result Url str) (scheme : Url -> str) (has_host : Url -> bool) (http_ok : bool).
Context (if_nametoindex : str -> Z) (linux : bool) (validate_mptcp : result unit str)
        (check_destination : Config.path -> result unit str)
        (var : str -> option str) (update_enabled : bool) (saved : Prefs).

Lemma check_psk_ok psk u : snd (check_psk psk) = Ok u ->
  match psk with Some key => validate_psk (as_bytes key) = Ok tt | None => True end.
Proof. destruct psk as [key|]; [|done]. cbn [check_psk]. intros H%lift_ok. by destruct u. Qed.

Lemma build_gateway_ok cli file host port protocol direction url g : bt_ok (Config.push_labels (client file)) ->
  snd (build_gateway parse_url scheme has_host http_ok cli file host port protocol direction url) = Ok g ->
  built g /\ PushGateway.validate g = Ok tt.
Proof.
  intros Hl H. unfold build_gateway in H. step H push_labels H1. apply lift_ok in H1.
  destruct (merge_push_labels_spec _ _ _ Hl H1) as (Hb & _).
  step H new H2. apply lift_ok in H2. step H labelled H3. apply lift_ok in H3.
  assert (B1 : built labelled).
  { refine (BuiltLabels _ _ _ Hb _ H3). apply BuiltTest, BuiltEndpoint; [by left|]. unfold PushGateway.new in H2.
    apply rbind_ok in H2 as (u & _ & H2). destruct (_ && _); [|done]. destruct http_ok; [|done].
    injection H2 as <-. apply BuiltNew. }
  step H named H4.
  assert (B2 : built named).
  { destruct (or_else _ _) as [job|]; [apply lift_ok in H4; exact (BuiltJob _ _ _ B1 H4)|by apply ret_ok in H4 as ->]. }
  step H u H5. apply lift_ok in H5. apply ret_ok in H as ->. by destruct u.
Qed.

Lemma gateway_of_ok cli file host port protocol direction g : bt_ok (Config.push_labels (client file)) ->
  snd (gateway_of parse_url scheme has_host http_ok cli file host port protocol direction) = Ok g ->
  (c_push_labels cli <> [] \/ c_push_job cli <> None -> g <> None) /\
  forall c, g = Some c -> built c /\ PushGateway.validate c = Ok tt.
Proof.
  intros Hl H. unfold gateway_of in H. step H u H1. apply require_ok in H1. step H v H2. apply require_ok in H2.
  destruct (or_else _ _) as [url|].
  - step H c H3. apply ret_ok in H as ->. split; [done|]. intros c' [= <-]. by apply build_gateway_ok in H3.
  - apply ret_ok in H as ->. rewrite orb_false_r in H1, H2. split; [|done]. intros [Hn|Hn].
    + by rewrite (bool_decide_eq_false_2 _ Hn) in H1.
    + by destruct (c_push_job cli).
Qed.

(** The binding of a stream, from the merged address. *)
Lemma launched_ports protocol streams cport bound merged family :
  1 <= streams <= 128 -> (forall p, cport = Some p -> fits 16 p) ->
  snd (merge_cport cport bound protocol streams family) = Ok merged ->
  validate_bind_address merged protocol streams (is_some cport) = Ok tt ->
  let sequential := negb (bool_decide (protocol = Quic)) && is_some cport && (1 <? streams) in
  exists base, sequential_bind_base merged sequential streams = Ok base /\
    match cport with
    | Some p => forall i, 0 <= i < streams -> exists a, stream_bind_addr base sequential i = Some a /\
                  sa_port a = (if sequential then p + i else p) /\ 0 < sa_port a <= u16_max
    | None => base = bound /\ forall a, base = Some a -> sa_port a <> 0 -> protocol <> Tcp /\ streams = 1
    end.
Proof.
  intros Hs Hc Hm Hv sequential. apply (merge_cport_ok _ _ _ _ _ Hs Hc) in Hm. destruct cport as [p|].
  - destruct Hm as (Hp & Hr & (a & -> & Ha & _) & _). specialize (Hc p eq_refl). unfold fits in Hc.
    exists (Some a). unfold sequential. cbn [is_some]. rewrite andb_true_r.
    destruct (bool_decide_reflect (protocol = Quic)) as [|Hq]; cbn [negb andb].
    { split; [done|]. intros i Hi. exists a. unfold u16_max. split_and!; [done|done|lia|lia]. }
    specialize (Hr Hq). destruct (Z.ltb_spec 1 streams).
    + split.
      * unfold sequential_bind_base, saturating_sub, wrapping_add, u16_max in *. cbn [ok_or rbind]. rewrite Ha.
        rewrite !wrap_small by (unfold fits; rewrite ?wrap_small; unfold fits; lia).
        destruct (Z.eqb_spec p 0); [lia|]. destruct (Z.ltb_spec (2 ^ 16 - 1) (p + Z.max 0 (streams - 1))); [lia|done].
      * intros i Hi. rewrite (stream_port a streams i) by (rewrite ?Ha; unfold fits; lia).
        eexists. rewrite with_port_port, Ha. split_and!; [done|done|lia|lia].
    + split; [done|]. intros i Hi. exists a. unfold u16_max. split_and!; [done|done|lia|lia].
  - subst merged. exists bound. unfold sequential. cbn [is_some]. rewrite andb_false_r. split; [done|]. split; [done|].
    intros a -> Hp. unfold validate_bind_address in Hv. destruct (Z.eqb_spec (sa_port a) 0); [done|]. cbn in Hv.
    destruct (bool_decide_reflect (protocol = Tcp)); [done|]. cbn in Hv.
    destruct (Z.ltb_spec 1 streams); [done|]. split; [done|lia].
Qed.

Notation launched cli file tui :=
  (snd (launch_client euid open_key parse_url scheme has_host http_ok if_nametoindex linux validate_mptcp
          check_destination var update_enabled saved cli file tui)).

(** What a launch was assembled from. *)
Record assembled (cli : ClientCli) (file : Config) (l : client_launch) : Prop := mkAssembled {
  as_target : exists target split, c_host cli = Some target /\ split_host_port target = Ok split /\
    host (l_config l) = fst split /\
    resolve_client_port (snd split) (if port_on_command_line cli then c_port cli else None)
      (if port_on_command_line cli then None else c_port cli) (Config.port (client file)) = Ok (port (l_config l));
  as_kind : protocol (l_config l) = choose_protocol cli /\ direction (l_config l) = choose_direction cli /\
    mtu_probe (l_config l) = probe_mtu (c_flags cli) /\ udp_payload_size (l_config l) = c_udp_payload_size cli /\
    byte_budget (l_config l) = c_bytes cli /\
    duration (l_config l) = resolve_client_duration (c_time cli) (probe_mtu (c_flags cli)) (c_bytes cli) file;
  as_streams : resolve_parallel_streams (c_parallel cli) (Config.parallel_streams (client file)) = Ok (streams (l_config l));
  as_psk : snd (effective_psk euid open_key (c_psk_file cli) (c_psk cli) (client_psk (client file))) = Ok (psk (l_config l)) /\
    exists u, snd (check_psk (psk (l_config l))) = Ok u;
  as_ports : exists net bound family,
    resolve_client_network_options (c_bitrate cli) (c_congestion cli) (c_dscp cli) (c_interval cli)
      (c_bind cli) (c_cport cli) (client file) = Ok net /\
    snd (merge_cport (r_cport net) bound (protocol (l_config l)) (streams (l_config l)) family) = Ok (bind_addr (l_config l)) /\
    validate_bind_address (bind_addr (l_config l)) (protocol (l_config l)) (streams (l_config l)) (is_some (r_cport net)) = Ok tt /\
    sequential_ports (l_config l) =
      negb (bool_decide (protocol (l_config l) = Quic)) && is_some (r_cport net) && (1 <? streams (l_config l)) /\
    bitrate (l_config l) = r_bitrate net /\ tcp_congestion (l_config l) = r_congestion net;
  as_gateway : snd (gateway_of parse_url scheme has_host http_ok cli file (host (l_config l)) (port (l_config l))
    (protocol (l_config l)) (direction (l_config l))) = Ok (l_gateway l)
}.

Lemma launch_assembled cli file tui l : launched cli file tui = Ok l -> assembled cli file l.
Proof.
  unfold launch_client. intros H. step H target E1. apply lift_ok in E1. step H ? ?. step H net E2. apply lift_ok in E2.
  step H ? ?. step H ? ?. step H n E3. apply lift_ok in E3. step H ? ?. step H key E4. step H u E5. step H ? ?. step H ? ?.
  step H family E6. step H bound E7. step H merged E8. step H v E9. apply lift_ok in E9. step H hp E10.
  unfold resolve_target in E10. step E10 split E11. apply lift_ok in E11. destruct split as [h tp].
  destruct (if port_on_command_line cli then (c_port cli, None) else (None, c_port cli)) as [cp ep] eqn:Ep.
  step E10 p E14. apply lift_ok in E14. apply ret_ok in E10 as ->. step H tos E12. step H g E13. apply ret_ok in H as ->.
  split; cbn [l_config l_gateway host port protocol direction mtu_probe udp_payload_size byte_budget duration streams psk
              bind_addr sequential_ports bitrate tcp_congestion].
  - exists target, (h, tp). destruct (c_host cli); [|done]. injection E1 as ->. split_and!; [done|done|done|].
    cbn [snd]. destruct (port_on_command_line cli); injection Ep as <- <-; exact E14.
  - split_and!; reflexivity.
  - exact E3.
  - split; [exact E4|]. by exists u.
  - exists net, bound, family. destruct v. split_and!; [exact E2|exact E8|exact E9|reflexivity..].
  - exact E13.
Qed.

Lemma network_cport b cg d i bd cp file net :
  resolve_client_network_options b cg d i bd cp file = Ok net -> r_cport net = or_else cp (Config.cport file).
Proof.
  unfold resolve_client_network_options. intros H. apply rbind_ok in H as (x & _ & H).
  apply rbind_ok in H as (y & _ & H). injection H as <-. reflexivity.
Qed.

Lemma launched_validates cli file l : client_input_ok cli file -> assembled cli file l ->
  Client.validate (l_config l) =
    if duration (l_config l) / SECOND <=? u32_max then Ok tt else Err DurationTooLong.
Proof.
  intros Hi Ha. destruct (as_kind _ _ _ Ha) as (_ & _ & Hm & Hl & _ & _).
  pose proof (parallel_bounds _ _ _ (as_streams _ _ _ Ha)) as Hs. destruct (as_psk _ _ _ Ha) as [_ [u Hk]].
  apply check_psk_ok in Hk. unfold Client.validate, ensure. rewrite Hm, Hl.
  replace ((1 <=? streams (l_config l)) && (streams (l_config l) <=? 128)) with true by lia. cbn [rbind].
  fold SECOND. destruct (duration (l_config l) / SECOND <=? u32_max); [|done]. cbn [rbind].
  assert (E : (match c_udp_payload_size cli with
      | Some size =>
        let? _ := if negb (probe_mtu (c_flags cli)) then Ok tt else Err LengthWithProbe in
        map_err (fun _ => BadPayloadSize) (validate_payload_size size)
      | None => Ok tt end) = Ok tt).
  { destruct (c_udp_payload_size cli) as [n|] eqn:En; [|done].
    destruct (in_length _ _ Hi n En) as [Hn ->]. cbn [negb rbind]. unfold validate_payload_size.
    by replace (_ && _) with true by lia. }
  rewrite E. cbn [rbind]. destruct (psk (l_config l)) as [key|]; [|done]. by rewrite Hk.
Qed.

(** C24. What [main] starts is a configuration that the run accepts.  Whatever the
    command line and the file, an accepted start has 1 to 128 streams, a
    non-zero port and a key in range, and the run's own validation can refuse
    nothing but a duration of the file that exceeds 32 bits of seconds.  The
    check on consecutive source ports succeeds; with a source port, stream
    [i] is bound to it plus [i] -- to it alone on QUIC and for one stream --
    which is always a valid port, and without one a port in the bind address
    belongs to a single stream that is not TCP.  Labels and a job on the
    command line never go without a gateway, and the gateway is one whose
    grouping key the path of a push carries. *)
Theorem launched_client_runs (cli : ClientCli) (file : Config) (tui : bool) (l : client_launch) :
  client_input_ok cli file -> launched cli file tui = Ok l ->
  let c := l_config l in
  let cport := or_else (c_cport cli) (Config.cport (client file)) in
  1 <= streams c <= 128 /\ port c <> 0 /\
  Client.validate c = (if duration c / SECOND <=? u32_max then Ok tt else Err DurationTooLong) /\
  (sequential_ports c = true -> protocol c <> Quic) /\
  (exists base, sequential_bind_base (bind_addr c) (sequential_ports c) (streams c) = Ok base /\
     match cport with
     | Some p => forall i, 0 <= i < streams c -> exists a, stream_bind_addr base (sequential_ports c) i = Some a /\
                   sa_port a = (if sequential_ports c then p + i else p) /\ 0 < sa_port a <= u16_max
     | None => forall a, base = Some a -> sa_port a <> 0 -> protocol c <> Tcp /\ streams c = 1
     end) /\
  (c_push_labels cli <> [] \/ c_push_job cli <> None -> l_gateway l <> None) /\
  (forall g, l_gateway l = Some g -> built g /\ PushGateway.validate g = Ok tt).
Proof.
  intros Hi Hl c cport. pose proof (launch_assembled _ _ _ _ Hl) as Ha.
  pose proof (parallel_bounds _ _ _ (as_streams _ _ _ Ha)) as Hs.
  destruct (as_target _ _ _ Ha) as (? & ? & _ & _ & _ & Hp). apply client_port_precedence in Hp as (_ & Hp & _).
  destruct (as_ports _ _ _ Ha) as (net & bound & family & Hnet & Hm & Hv & Hq & _).
  apply network_cport in Hnet. rewrite Hnet in Hm, Hv, Hq. fold cport in Hm, Hv, Hq.
  assert (Hc : forall p, cport = Some p -> fits 16 p).
  { intros p. unfold cport. destruct (c_cport cli) eqn:E; cbn; [intros [= <-]; exact (in_cport _ _ Hi _ E)|intros Hp2; exact (in_file_cport _ _ Hi p Hp2)]. }
  destruct (gateway_of_ok _ _ _ _ _ _ _ (in_labels _ _ Hi) (as_gateway _ _ _ Ha)) as [Hg1 Hg2].
  destruct (launched_ports _ _ _ _ _ _ Hs Hc Hm Hv) as (base & Hb & Hports).
  split; [done|]. split; [done|]. split; [exact (launched_validates _ _ _ Hi Ha)|].
  unfold c. rewrite Hq. split.
  { intros E. by destruct (bool_decide_reflect (protocol (l_config l) = Quic)). }
  split; [|by split]. exists base. split; [exact Hb|]. destruct cport; [exact Hports|]. apply Hports.
Qed.
End client_facts.

(** ** The server's configuration is one it accepts *)

(** Windows are unsigned, and the labels of the file a sorted map. *)
Record server_input_ok (cli : ServeCli) (file : Config) : Prop := mkServerInputOk {
  in_window : forall w, s_rate_limit_window cli = Some w -> 0 <= w;
  in_file_window : forall w, Config.rate_limit_window (server file) = Some w -> 0 <= w;
  in_server_labels : bt_ok (server_push_labels (server file))
}.

Section server_facts.
Context (euid : Z) (open_key : Config.path -> result opened unit).
Context {Url : Type} (parse_url : str -> result Url str) (scheme : Url -> str) (has_host : Url -> bool) (http_ok : bool).
Context (saved : Prefs).

Lemma merged_labels_valid labels cli m : merge_push_labels labels cli = Ok m -> validate_push_labels m = Ok tt.
Proof.
  unfold merge_push_labels. intros H. apply rbind_ok in H as (o & _ & H). apply rbind_ok in H as ([] & H & E).
  by injection E as <-.
Qed.

Lemma server_labels_ok cli file gateway labels : snd (server_labels parse_url scheme has_host http_ok cli file gateway) = Ok labels ->
  validate_push_labels labels = Ok tt /\ (gateway = None -> labels = [] /\ s_push_labels cli = []) /\
  (forall url, gateway = Some url -> exists c, PushGateway.new parse_url scheme has_host url http_ok = Ok c).
Proof.
  unfold server_labels. intros H. step H u H1. apply require_ok in H1. destruct gateway as [url|].
  - step H m H2. apply lift_ok in H2. step H c H3. apply lift_ok in H3. apply ret_ok in H as ->.
    split; [by apply merged_labels_valid in H2|]. split; [done|]. intros url' [= <-]. by exists c.
  - apply ret_ok in H as ->. rewrite orb_false_r in H1. split; [done|]. split; [|done]. intros _. split; [done|].
    by apply bool_decide_eq_true in H1.
Qed.

Lemma window_ok cli config w : (forall x, cli = Some x -> 0 <= x) -> (forall x, config = Some x -> 0 <= x) ->
  resolve_rate_limit_window cli config = Ok w -> 0 < w.
Proof.
  intros H1 H2. unfold resolve_rate_limit_window.
  destruct cli as [x|]; [specialize (H1 x eq_refl)|destruct config as [x|]; [specialize (H2 x eq_refl)|by intros [= <-]]];
    (destruct (Z.eqb_spec x 0); [done|]; intros H; injection H as <-; lia).
Qed.

Lemma server_family_ok bind v4 v6 config family : resolve_server_address_family bind v4 v6 config = Ok family ->
  forall ip, bind = Some ip -> is_unspecified ip = false /\ family = (if is_v4 ip then V4Only else V6Only) /\
    (v4 = true -> is_v4 ip = true) /\ (v6 = true -> is_v4 ip = false).
Proof.
  unfold resolve_server_address_family. intros H ip ->. destruct (is_unspecified ip); [done|].
  destruct v4, v6, (is_v4 ip); try done; injection H as <-; done.
Qed.

Notation served cli theme file terminal :=
  (snd (launch_server euid open_key parse_url scheme has_host http_ok saved cli theme file terminal)).

(** C25. The server that [main] starts passes every later check of its own: its
    validation, and the one on labels, which never go without a gateway; a
    gateway is one whose client can be built.  Its bind address is a specific
    one and decides the address family, against no -4 or -6; a preset asked
    for exists and gives the second allow list, and the limit on the duration
    unless the command line does; rules on the command line replace those of
    the file; the screen only runs on a terminal. *)
Theorem launched_server_runs (cli : ServeCli) (theme : option str) (file : Config) (terminal : bool) (v : server_launch) :
  server_input_ok cli file -> served cli theme file terminal = Ok v ->
  let c := v_config v in
  Serve.validate c = Ok tt /\ with_push_labels c (v_labels v) = Ok (v_labels v) /\
  (forall url, push_gateway_url c = Some url -> exists g, PushGateway.new parse_url scheme has_host url http_ok = Ok g) /\
  (forall ip, sc_bind_addr c = Some ip -> is_unspecified ip = false /\
     sc_address_family c = (if is_v4 ip then V4Only else V6Only) /\
     (s_ipv4_only cli = true -> is_v4 ip = true) /\ (s_ipv6_only cli = true -> is_v4 ip = false)) /\
  (forall n, s_preset cli = Some n -> exists p, In p (presets file) /\ name p = n /\
     preset_allowed_clients c = allowed_clients p /\
     Serve.max_duration c = or_else (s_max_duration cli) (option_map (fun s => s * SECOND) (max_duration_secs p))) /\
  (s_preset cli = None -> preset_allowed_clients c = None /\ Serve.max_duration c = s_max_duration cli) /\
  (s_allow cli <> [] -> acl_allow c = s_allow cli) /\ (s_deny cli <> [] -> acl_deny c = s_deny cli) /\
  (v_mode v <> PlainServer <-> s_tui cli = true /\ terminal = true).
Proof.
  intros Hi H c. unfold launch_server in H. step H labels H1. apply server_labels_ok in H1 as (L1 & L2 & L3).
  step H key H2. step H u H3. apply check_psk_ok in H3. step H ? ?. step H preset H4. step H window H5.
  apply lift_ok in H5. apply (window_ok _ _ _ (in_window _ _ Hi) (in_file_window _ _ Hi)) in H5.
  step H family H6. apply lift_ok in H6. step H ? ?. apply ret_ok in H as ->. unfold c. clear c.
  cbn [v_config v_labels v_mode push_gateway_url sc_bind_addr sc_address_family preset_allowed_clients
       Serve.max_duration acl_allow acl_deny].
  split.
  { unfold Serve.validate. cbn [auth rate_limit cfg_max_per_ip window_secs]. unfold Auth.validate. cbn [Auth.psk].
    replace (0 <? window) with true by lia. rewrite orb_true_r. destruct key as [k|]; [|done]. cbn. by rewrite H3. }
  split.
  { unfold with_push_labels. rewrite L1. cbn [map_err rbind push_gateway_url].
    destruct (or_else _ _) as [url|]; [by rewrite orb_true_r|]. destruct (L2 eq_refl) as [-> _]. done. }
  split; [exact L3|]. split; [by apply (server_family_ok _ _ _ _ _ H6)|].
  unfold find_preset in H4. split; [|split].
  - intros n Hn. rewrite Hn in H4. step H4 p E. apply lift_ok in E. apply ret_ok in H4 as ->. exists p.
    unfold get_preset in E. destruct (List.find _ _) as [q|] eqn:Ef; [|done]. injection E as ->.
    apply find_some in Ef as [Hin En]. apply bool_decide_eq_true in En. split_and!; done.
  - intros Hn. rewrite Hn in H4. apply ret_ok in H4 as ->. by destruct (s_max_duration cli).
  - unfold rules. split; [by destruct (s_allow cli)|]. split; [by destruct (s_deny cli)|].
    destruct (s_tui cli), terminal; cbn; intuition congruence.
Qed.
End server_facts.

(** ** Concrete starts *)
Definition demo_flags : Flags := mkFlags false false false true false false false false false false.
Definition demo_cli : ClientCli :=
  mkClientCli (Some (txt "lab:5300")) None demo_flags false false false false None None None None (Some 3) None None
    None false false None None None None (Some (txt "key")) None false false (Some (txt "10.0.0.1")) (Some 50000) false
    None (Some (txt "http://gw")) [txt "site=a"] None None false None None.
Definition demo_launch (cli : ClientCli) : M (client_launch (Url := str)) :=
  launch_client 0 (fun _ => Err tt) (fun s => Ok s) (fun _ => txt "http") (fun _ => true) true (fun _ => 0) true (Ok tt)
    (fun _ => Ok tt) (fun _ => None) true default_prefs cli Config.default false.
Definition demo_launched : client_launch (Url := str) :=
  match snd (demo_launch demo_cli) with
  | Ok l => l
  | Err _ => mkClientLaunch Client.default_config None
               (mkOutputOptions false false false false 0 zero TimestampFormat.Relative) None Plain
  end.

Lemma launch_refusals :
  map (fun cli => snd (demo_launch cli))
    [demo_cli <| c_cport := Some 65534 |>; demo_cli <| c_bind := Some (txt "10.0.0.1:7") |>;
     demo_cli <| c_push_gateway := None |>; demo_cli <| c_port := Some 5301 |> <| port_on_command_line := true |>]
  = [Err (CportRangeTooLong 65534 65536); Err (CportConflict (SaV4 167772161 7) 50000);
     Err (RequiresGateway (txt "--push-label"));
     Err (BadOption (txt "target port 5300 conflicts with -p/--port 5301"))] /\
  fst (demo_launch demo_cli) = [Logged (txt KEY_EXPOSED)].
Proof. vm_compute. split; reflexivity. Qed.

Lemma subcommand_examples :
  let typed id long values := mkArg (txt id) (Some (txt long)) (negb (bool_decide (values = []))) values true in
  let longs := [Some (txt "port"); Some (txt "psk")] in
  option_map snd (subcommand_conflict (Some (txt "serve", longs)) [typed "port" "port" [txt "1"]]%string)
  = Some (txt "put serve options after the subcommand: xfr serve --port 1") /\
  subcommand_conflict (Some (txt "serve", longs)) [typed "theme" "theme" [txt "nord"]]%string = None /\
  option_map snd (subcommand_conflict (Some (txt "serve", longs)) [typed "udp" "udp" []]%string)
  = Some (txt "this option only applies to client tests (xfr <HOST> ...)").
Proof. vm_compute. split_and!; reflexivity. Qed.

Lemma launched_client_runs_witness :
  snd (demo_launch demo_cli) = Ok demo_launched /\ host (l_config demo_launched) = txt "lab" /\
  port (l_config demo_launched) = 5300 /\
  exists base, sequential_bind_base (bind_addr (l_config demo_launched)) true 3 = Ok base /\
    exists a, stream_bind_addr base true 2 = Some a /\ sa_port a = 50002.
Proof.
  assert (E : snd (demo_launch demo_cli) = Ok demo_launched) by (vm_compute; reflexivity).
  assert (I : client_input_ok demo_cli Config.default).
  { split; [intros p [= <-]; split; [discriminate|reflexivity]|discriminate|discriminate|exact Logic.I]. }
  split; [exact E|]. split; [vm_compute; reflexivity|]. split; [vm_compute; reflexivity|].
  destruct (launched_client_runs 0 (fun _ => Err tt) (fun s => Ok s) (fun _ => txt "http") (fun _ => true) true
    (fun _ => 0) true (Ok tt) (fun _ => Ok tt) (fun _ => None) true default_prefs demo_cli Config.default false
    demo_launched I E) as (_ & _ & _ & _ & (base & Hb & Hp) & _).
  exists base. split; [exact Hb|]. destruct (Hp 2 ltac:(vm_compute; split; [discriminate|reflexivity])) as (a & H1 & H2 & _).
  exists a. split; [exact H1|exact H2].
Defined.

Definition demo_preset : ServerPreset := mkServerPreset (txt "lab") None (Some [txt "10.0.0.0/8"]) (Some 30).
Definition demo_server_file : Config := mkConfig default_client default_server [demo_preset].
Definition demo_serve : ServeCli :=
  mkServeCli None false true None None (Some (txt "http://gw")) [txt "site=a"] None None (Some (txt "key")) None
    (Some (txt "lab")) (Some 2) None [] [] None (Some (V4 167772161)) false false false.
Definition demo_server_launch : M server_launch :=
  launch_server 0 (fun _ => Err tt) (fun s => Ok s) (fun _ => txt "http") (fun _ => true) true default_prefs
    demo_serve None demo_server_file false.
Definition demo_served : server_launch :=
  match snd demo_server_launch with
  | Ok v => v | Err _ => mkServerLaunch Serve.default_config None [] PlainServer
  end.
Lemma launched_server_runs_witness :
  snd demo_server_launch = Ok demo_served /\ Serve.validate (v_config demo_served) = Ok tt /\
  preset_allowed_clients (v_config demo_served) = Some [txt "10.0.0.0/8"] /\
  sc_address_family (v_config demo_served) = V4Only.
Proof.
  assert (E : snd demo_server_launch = Ok demo_served) by (vm_compute; reflexivity).
  assert (I : server_input_ok demo_serve demo_server_file) by (split; [discriminate|discriminate|exact Logic.I]).
  split; [exact E|].
  destruct (launched_server_runs 0 (fun _ => Err tt) (fun s => Ok s) (fun _ => txt "http") (fun _ => true) true
    default_prefs demo_serve None demo_server_file false demo_served I E) as (H1 & _ & _ & H2 & _).
  split; [exact H1|]. split; [vm_compute; reflexivity|]. by apply (H2 (V4 167772161)).
Defined.
