(* ===== verification/Footer.v ===== *)
(** * Key hints and the help overlay (src/src/tui/ui.rs)

    The text of the footer of both screens and of the help overlay, for every
    width of the terminal.  Colours are not modelled; the layout engine gives a
    chunk of fixed length its length and the other one the rest. *)
From S2P Require Import Prelude Bytes Text Fmt Protocol Discover TuiLoop App.

Definition keys : Type := list (str * str).
Definition BASE_KEYS : keys :=
  map (fun '(k, l) => (txt k, txt l))
    [("?", "Help"); ("q", "Quit"); ("p", "Pause"); ("r", "Restart"); ("s", "Settings"); ("t", "Theme")]%string.

Definition full_hints_width (ks : keys) : Z :=
  zsum (map (fun '(k, l) => str_len k + str_len l + 3) ks) + 3 * saturating_sub (Z.of_nat (length ks)) 1.
Definition roomy_hints_fit (width : Z) : bool :=
  full_hints_width BASE_KEYS + str_len (txt " Status: Running...") <=? width.

(** What one hint takes, and the separator before it. *)
Definition hint_cost (compact : bool) (first : bool) (k : str * str) : Z :=
  (if first then 0 else if compact then 1 else 3) + str_len (fst k) + str_len (snd k) + (if compact then 1 else 3).
Definition hint_spans (compact : bool) (first : bool) (k : str * str) : list str :=
  (if first then [] else [if compact then txt " " else txt " | "])
  ++ if compact then [fst k; txt ":" ++ snd k] else [txt "["; fst k; txt "] " ++ snd k].

Fixpoint hints_from (compact first : bool) (used available : Z) (ks : keys) : list str :=
  match ks with
  | [] => []
  | k :: ks =>
    let cost := hint_cost compact first k in
    if available <? used + cost then []
    else hint_spans compact first k ++ hints_from compact false (used + cost) available ks
  end.
Definition key_hints (ks : keys) (width : Z) (compact : bool) : list str := hints_from compact true 0 width ks.

(** ** The client's footer *)
Definition status_text (now : Z) (app : App) : str :=
  match cancel_wait_secs now (run app) with
  | Some secs => txt "Waiting for server (" ++ dec secs ++ txt "s)..."
  | None => app_state_str (state (run app))
  end.
Definition footer_keys (app : App) : keys :=
  BASE_KEYS ++ (if 1 <? streams_count (setup app) then [(txt "d", txt "Streams")] else [])
  ++ (if update_available (session app) then [(txt "u", txt "Dismiss")] else []).

(** The label before the status: the long one, a space, or none when there is
    no room for the status itself. *)
Definition status_label (text : str) (width : Z) : option str :=
  let room := saturating_sub width (str_len (txt "?:Help")) in
  List.find (fun label => str_len label + Z.of_nat (length text) <=? room) [txt " Status: "; txt " "].

(** The spans of the hints, and those of the status if it is shown. *)
Definition draw_footer (now : Z) (app : App) (width : Z) : list str * option (str * str) :=
  let text := status_text now app in
  let label := status_label text width in
  let status_width := match label with
                      | Some label => wrap 16 (str_len label + Z.of_nat (length text)) | None => 0 end in
  let left := saturating_sub width status_width in
  let compact := left <? full_hints_width (footer_keys app) in
  (key_hints (footer_keys app) left compact, option_map (fun label => (label, text)) label).

(** ** The help overlay *)
Record overlay := mkOverlay { o_width : Z; o_height : Z; o_rows : list (str * str); o_scroll : Z; o_bottom : option str }.
Definition draw_help_overlay (area_width area_height scroll : Z) (server : bool) : overlay :=
  let width := Z.min area_width 40 in
  let height := Z.min area_height (if server then 8 else 16) in
  let rows := Help.help_rows (saturating_sub width 2) server in
  let max := saturating_sub (wrap 16 (Z.of_nat (length rows))) (saturating_sub height 2) in
  mkOverlay width height rows scroll
    (if scroll <? max then Some (txt " PgDn more ") else if 0 <? max then Some (txt " PgUp back ") else None).

(** ** What fits *)
Definition shown (spans : list str) : str := concat spans.

Lemma hint_spans_len compact first k : str_len (shown (hint_spans compact first k)) = hint_cost compact first k.
Proof.
  unfold shown, hint_spans, hint_cost. destruct compact, first; cbn [app concat];
    rewrite ?str_len_cat; change (str_len []) with 0; change (str_len (txt " ")) with 1;
    change (str_len (txt " | ")) with 3; change (str_len (txt ":")) with 1; change (str_len (txt "[")) with 1;
    change (str_len (txt "] ")) with 2; lia.
Qed.

(** Some of the keys from the front, whole, and only those for which there is
    room. *)
Lemma hints_from_spec compact first used available ks : 0 <= used ->
  exists n, (n <= length ks)%nat /\
    hints_from compact first used available ks =
      match take n ks with
      | [] => []
      | k :: more => hint_spans compact first k ++ concat (map (hint_spans compact false) more)
      end /\
    (used <= available -> used + str_len (shown (hints_from compact first used available ks)) <= available) /\
    (forall k, ks !! n = Some k -> available < used + str_len (shown (hints_from compact first used available ks))
                                               + hint_cost compact (first && Nat.eqb n 0) k).
Proof.
  revert first used. induction ks as [|k ks IH]; intros first used Hu; cbn [hints_from].
  - exists O. change (str_len (shown [])) with 0. split_and!; [done|done|lia|done].
  - destruct (Z.ltb_spec available (used + hint_cost compact first k)) as [H|H].
    + exists O. change (str_len (shown [])) with 0. split_and!; [lia|done|lia|]. intros k' H'. injection H' as <-.
      rewrite andb_true_r. lia.
    + assert (Hc : 0 <= hint_cost compact first k).
      { unfold hint_cost. pose proof (str_len_bound (fst k)). pose proof (str_len_bound (snd k)).
        destruct compact, first; lia. }
      destruct (IH false (used + hint_cost compact first k) ltac:(lia)) as (n & Hn & E & Hf & Hm).
      exists (S n). cbn [length take]. split; [lia|]. split.
      { rewrite E. f_equal. by destruct (take n ks). }
      unfold shown in *. rewrite concat_app, str_len_cat. fold (shown (hint_spans compact first k)).
      rewrite hint_spans_len. split; [intros _; specialize (Hf H); lia|]. intros k' Hk'. specialize (Hm k' Hk').
      rewrite andb_false_r. cbn [andb] in Hm. lia.
Qed.

Lemma cost_nonneg compact first k : 0 <= hint_cost compact first k.
Proof.
  unfold hint_cost. pose proof (str_len_bound (fst k)). pose proof (str_len_bound (snd k)). destruct compact, first; lia.
Qed.
Lemma costs_nonneg compact ks : 0 <= zsum (map (hint_cost compact false) ks).
Proof. apply zsum_nonneg, Forall_map, Forall_forall. intros k _. apply cost_nonneg. Qed.

(** The hints of some keys, and their width. *)
Definition hints_of (compact : bool) (ks : keys) : list str :=
  match ks with [] => [] | k :: more => hint_spans compact true k ++ concat (map (hint_spans compact false) more) end.
Definition total (compact : bool) (ks : keys) : Z :=
  match ks with [] => 0 | k :: more => hint_cost compact true k + zsum (map (hint_cost compact false) more) end.

Lemma hints_len compact ks : str_len (shown (hints_of compact ks)) = total compact ks.
Proof.
  destruct ks as [|k more]; [done|]. unfold shown, hints_of, total. rewrite concat_app, str_len_cat.
  fold (shown (hint_spans compact true k)). rewrite hint_spans_len. f_equal.
  induction more as [|k' more IH]; [done|]. cbn [map concat zsum]. rewrite concat_app, str_len_cat, IH.
  f_equal. apply hint_spans_len.
Qed.
Lemma roomy_width ks : full_hints_width ks = total false ks.
Proof.
  destruct ks as [|[k l] more]; [done|]. unfold full_hints_width, total. cbn [map zsum length].
  assert (E : zsum (map (hint_cost false false) more)
              = zsum (map (fun '(k, l) => str_len k + str_len l + 3) more) + 3 * Z.of_nat (length more)).
  { induction more as [|[k' l'] more IH]; [done|]. cbn [map zsum length]. rewrite IH. unfold hint_cost. cbn [fst snd]. lia. }
  rewrite E. unfold saturating_sub, hint_cost. cbn [fst snd]. lia.
Qed.
Lemma hints_split compact ks n k : ks !! n = Some k ->
  total compact (take n ks) + hint_cost compact (Nat.eqb n 0) k <= total compact ks.
Proof.
  destruct ks as [|k0 more]; [done|]. destruct n as [|n]; cbn [take total].
  - intros H. injection H as <-. pose proof (costs_nonneg compact more). cbn [Nat.eqb]. lia.
  - intros H. change ((k0 :: more) !! S n) with (more !! n) in H. cbn [Nat.eqb].
    rewrite <- (take_drop_middle more n k H) at 2. rewrite map_app, zsum_app. cbn [map zsum].
    pose proof (costs_nonneg compact (drop (S n) more)). lia.
Qed.

Lemma key_hints_spec ks width compact : 0 <= width ->
  exists n, (n <= length ks)%nat /\ key_hints ks width compact = hints_of compact (take n ks) /\
    total compact (take n ks) <= width /\
    (forall k, ks !! n = Some k -> width < total compact (take n ks) + hint_cost compact (Nat.eqb n 0) k).
Proof.
  intros Hw. destruct (hints_from_spec compact true 0 width ks ltac:(lia)) as (n & Hn & E & Hf & Hm).
  assert (E' : key_hints ks width compact = hints_of compact (take n ks)) by exact E.
  exists n. unfold key_hints in E'. rewrite E', hints_len in Hf, Hm. split; [done|]. split; [exact E'|].
  split; [specialize (Hf Hw); lia|]. intros k Hk. specialize (Hm k Hk). cbn [andb] in Hm. lia.
Qed.

(** The status: its label leaves the six columns of the help hint free. *)
Lemma status_label_spec text width :
  match status_label text width with
  | Some l => 0 <= str_len l + Z.of_nat (length text) <= saturating_sub width 6
  | None => saturating_sub width 6 < 1 + Z.of_nat (length text)
  end.
Proof.
  unfold status_label. change (str_len (txt "?:Help")) with 6. cbn [List.find].
  change (str_len (txt " Status: ")) with 9. change (str_len (txt " ")) with 1.
  destruct (Z.leb_spec (9 + Z.of_nat (length text)) (saturating_sub width 6)).
  - change (str_len (txt " Status: ")) with 9. lia.
  - destruct (Z.leb_spec (1 + Z.of_nat (length text)) (saturating_sub width 6)); [|lia].
    change (str_len (txt " ")) with 1. lia.
Qed.

(** The footer never clips: hints and status fit the terminal together, the
    hints are whole ones from the front of the list and every one is there in
    the roomy form; from six columns on the first one, help, is there, and the
    status is there whenever it fits beside it. *)
Theorem footer_fits (now : Z) (app : App) (width : Z) : 0 <= width <= u16_max ->
  let '(hints, status) := draw_footer now app width in
  let status_len := match status with Some (label, text) => str_len label + Z.of_nat (length text) | None => 0 end in
  str_len (shown hints) + status_len <= width /\
  (exists n compact, hints = hints_of compact (take n (footer_keys app)) /\
     (6 <= width -> n <> O) /\ (compact = false -> take n (footer_keys app) = footer_keys app)) /\
  (Z.of_nat (length (status_text now app)) + 7 <= width -> exists label, status = Some (label, status_text now app)).
Proof.
  intros Hw. unfold draw_footer. set (text := status_text now app). pose proof (status_label_spec text width) as Hl.
  set (label := status_label text width) in *.
  set (status_width := match label with Some l => wrap 16 (str_len l + Z.of_nat (length text)) | None => 0 end).
  assert (Hs : status_width = match label with Some l => str_len l + Z.of_nat (length text) | None => 0 end /\
               0 <= status_width <= saturating_sub width 6).
  { unfold status_width, saturating_sub, u16_max in *. destruct label; [|lia]. rewrite wrap_small by (unfold fits; lia). lia. }
  destruct Hs as [Es Hs]. set (left := saturating_sub width status_width).
  assert (Hleft : left = width - status_width /\ (6 <= width -> 6 <= left) /\ 0 <= left)
    by (unfold left, saturating_sub in *; lia).
  set (compact := left <? full_hints_width (footer_keys app)).
  destruct (key_hints_spec (footer_keys app) left compact ltac:(lia)) as (n & Hn & E & Hf & Hm).
  assert (Hroomy : compact = false -> n = length (footer_keys app)).
  { intros Ec. unfold compact in Ec. rewrite roomy_width in Ec. apply Z.ltb_ge in Ec.
    destruct (decide (n = length (footer_keys app))) as [|Hne]; [done|].
    destruct (lookup_lt_is_Some_2 (footer_keys app) n ltac:(lia)) as [k Hk].
    pose proof (hints_split compact _ _ _ Hk). specialize (Hm k Hk). unfold compact in *. rewrite (proj2 (Z.ltb_ge _ _)) in * by
      (rewrite roomy_width; lia). lia. }
  split; [|split].
  - rewrite E, hints_len. replace (match option_map _ label with Some _ => _ | None => 0 end) with status_width
      by (rewrite Es; by destruct label). lia.
  - exists n, compact. split; [exact E|]. split.
    + intros H6 ->. destruct compact; [|by specialize (Hroomy eq_refl)].
      specialize (Hm (txt "?", txt "Help") eq_refl). change (total true (take 0 (footer_keys app))) with 0 in Hm.
      change (hint_cost true (Nat.eqb 0 0) (txt "?", txt "Help")) with 6 in Hm. lia.
    + intros Ec. rewrite (Hroomy Ec). apply firstn_all.
  - intros Hfit. destruct label as [l|]; [by exists l|]. unfold saturating_sub in Hl. fold text in Hfit. lia.
Qed.

Definition demo_app : App :=
  App.new 0 0 (mkSetup (txt "h") 5201 Tcp Download 4 0 None None) TimestampFormat.Relative (txt "default").
Lemma footer_examples :
  shown (fst (draw_footer 0 demo_app 80)) = txt "?:Help q:Quit p:Pause r:Restart s:Settings t:Theme" /\
  shown (fst (draw_footer 0 demo_app 20)) = txt "?:Help" /\
  o_bottom (draw_help_overlay 40 10 0 false) = Some (txt " PgDn more ") /\ roomy_hints_fit 91 = true.
Proof. vm_compute. split_and!; reflexivity. Qed.
Lemma footer_fits_witness :
  0 <= 25 <= u16_max /\ str_len (shown (fst (draw_footer 0 demo_app 25))) + 14 <= 25.
Proof.
  assert (H : 0 <= 25 <= u16_max) by (split; [discriminate|vm_compute; discriminate]). split; [exact H|].
  pose proof (footer_fits 0 demo_app 25 H) as F. destruct (draw_footer 0 demo_app 25) as [hints status] eqn:E.
  destruct F as (F & _). vm_compute in E. injection E as <- <-. exact F.
Defined.
