(* ===== verification/Status.v ===== *)
(** * Program status reports (src/src/tui/program_status.rs)

    The OSC 7501 reports by which a terminal shows what xfr is doing: the text
    of a report, what the client's state reports, and when a report is sent.
    Base64 (the base64 crate) is a parameter; a write that fails is ignored by
    the code and is not distinguished.  Times are nanoseconds. *)
From coqutil Require Import Datatypes.RecordSettersUsingExistingGetters.
From Stdlib Require Import SpecFloat.
From S2P Require Import Prelude Bytes Text Float Fmt Protocol Stats Target Report Discover App.

Definition MSG_MAX_BYTES : Z := 2048.
Definition MIN_UPDATE_INTERVAL : Z := 1000000000.

(** ** One report *)
Definition ESC : Z := 27.
Fixpoint join_spaced (words : list str) : str :=
  match words with
  | [] => []
  | [w] => w
  | w :: words => w ++ 32 :: join_spaced words
  end.
(** On one line, without control characters. *)
Definition flatten (msg : str) : str :=
  join_spaced (split_whitespace (map (fun c => if is_control c then 32 else c) msg)).
(** Cut at the last character boundary within the limit. *)
Definition message_text (msg : str) : str := clamp_bytes MSG_MAX_BYTES (flatten msg).

Section reports.
Variable base64 : list Z -> str.

Definition report_body (state : str) (progress : option Z) (msg : option str) : str :=
  txt "state=" ++ state ++ txt ":app=xfr"
  ++ match progress with Some p => txt ":progress=" ++ dec (Z.min p 100) | None => [] end
  ++ match msg with Some m => txt ":msg=" ++ base64 (as_bytes (message_text m)) | None => [] end.
Definition report (state : str) (progress : option Z) (msg : option str) : str :=
  [ESC] ++ txt "]7501;" ++ report_body state progress msg ++ [ESC; 92].

(** ** What the client reports *)
Definition UP_DOWN : str := UP ++ DOWN.

Definition rate (app : App) (mbps : f64) : str :=
  let proto := protocol_name (app_protocol (setup app)) in
  match app_direction (setup app) with
  | Upload => proto ++ txt " " ++ UP ++ txt " " ++ mbps_to_human mbps
  | Download => proto ++ txt " " ++ DOWN ++ txt " " ++ mbps_to_human mbps
  | Bidir =>
    if fgtb (throughput_send_mbps (run app)) zero || fgtb (throughput_recv_mbps (run app)) zero
    then proto ++ txt " " ++ UP ++ txt " " ++ mbps_to_human (throughput_send_mbps (run app)) ++ txt " / "
         ++ DOWN ++ txt " " ++ mbps_to_human (throughput_recv_mbps (run app))
    else proto ++ txt " " ++ UP_DOWN ++ txt " " ++ mbps_to_human mbps
  end.

(** [x as u8]. *)
Definition as_u8 (x : f64) : Z := Z.max 0 (Z.min u8_max (match x with
  | S754_infinity s => if s then 0 else u8_max
  | _ => match trunc x with Some z => z | None => 0 end
  end)).

Definition is_connecting (app : App) : bool :=
  bool_decide (state (run app) = Connecting)
  || (bool_decide (state (run app) = Running) && negb (is_some (run_server_version (run app)))
      && bool_decide (length (throughput_history (run app)) = 0%nat)).

Definition bounded (app : App) : bool :=
  match app_byte_budget (setup app) with Some b => 0 <? b | None => false end || negb (is_infinite (setup app)).

Definition client_status (app : App) : str * option Z * str :=
  if is_connecting app
  then (txt "working", None, txt "Connecting to " ++ host_port (app_host (setup app)) (app_port (setup app)))
  else
    match state (run app) with
    | Connecting | Running =>
      (txt "working", if bounded app then Some (as_u8 (progress_percent app)) else None,
       rate app (current_throughput_mbps (run app)))
    | Paused => (txt "idle", None, txt "Paused")
    | Completed =>
      let msg := rate app (average_throughput_mbps (run app)) in
      (txt "done", None,
       if negb (bool_decide (app_protocol (setup app) = Udp))
       then msg ++ txt ", " ++ dec (total_retransmits (run app)) ++ txt " retransmits"
       else match udp_lost_percent (run app) with
            | Some loss => msg ++ txt ", " ++ fixed 1 loss ++ txt "% loss"
            | None => msg
            end)
    | Error => (txt "error", None, match run_error (run app) with Some e => e | None => [] end)
    end.

(** ** When a report is sent *)
Record sent := mkSent { sent_state : str; sent_text : str; sent_at : Z }.
Record StatusReporter := mkReporter { enabled : bool; last : option sent }.
Definition reporter_new (enabled : bool) : StatusReporter := mkReporter enabled None.

Definition held_back (now : Z) (state text : str) (l : sent) : bool :=
  bool_decide (sent_text l = text)
  || (bool_decide (sent_state l = state) && (saturating_sub now (sent_at l) <? MIN_UPDATE_INTERVAL)).
(** The bytes written, if any, with the new state. *)
Definition update (now : Z) (state : str) (progress : option Z) (msg : option str) (s : StatusReporter)
    : StatusReporter * option str :=
  if negb (enabled s) then (s, None)
  else
    let text := report state progress msg in
    if match last s with Some l => held_back now state text l | None => false end then (s, None)
    else (s <| last := Some (mkSent state text now) |>, Some text).

Definition is_final (state : str) : bool := bool_decide (state = txt "done") || bool_decide (state = txt "error").
Definition finish (s : StatusReporter) : option str :=
  if enabled s && match last s with Some l => negb (is_final (sent_state l)) | None => false end
  then Some (report (txt "clear") None None) else None.

(** A program's calls. *)
Record call := mkCall { at_ : Z; c_state : str; c_progress : option Z; c_msg : option str }.
(** The reporter after the calls, and what it wrote, newest first. *)
Fixpoint calls (cs : list call) (s : StatusReporter) (written : list sent) : StatusReporter * list sent :=
  match cs with
  | [] => (s, written)
  | c :: cs =>
    let '(s, text) := update (at_ c) (c_state c) (c_progress c) (c_msg c) s in
    calls cs s (match text with Some t => mkSent (c_state c) t (at_ c) :: written | None => written end)
  end.
End reports.

(** ** What a terminal reads *)
Lemma split_ws_clean s cur : Forall (fun c => is_whitespace c = false) cur ->
  Forall (fun c => is_whitespace c = true \/ is_control c = false) s -> Forall (fun c => is_control c = false) cur ->
  Forall (Forall (fun c => is_whitespace c = false /\ is_control c = false)) (split_ws_aux cur s).
Proof.
  revert cur. induction s as [|c s IH]; intros cur Hc Hs Hk; cbn [split_ws_aux].
  - destruct cur; [done|]. constructor; [|done]. apply Forall_rev. by apply Forall_and.
  - apply Forall_cons in Hs as [H Hs]. destruct (is_whitespace c) eqn:E.
    + assert (IH0 : Forall (Forall (fun c => is_whitespace c = false /\ is_control c = false)) (split_ws_aux [] s))
        by (apply IH; done).
      destruct cur; [done|]. constructor; [|done]. apply Forall_rev. by apply Forall_and.
    + apply IH; [by constructor|done|]. constructor; [by destruct H|done].
Qed.
Lemma join_spaced_forall (P : Z -> Prop) words : P 32 -> Forall (Forall P) words -> Forall P (join_spaced words).
Proof.
  intros H32. induction 1 as [|w words Hw H IH]; [constructor|]. cbn [join_spaced].
  destruct words; [done|]. apply Forall_app. split; [done|]. by constructor.
Qed.
Lemma flatten_clean msg : Forall (fun c => is_control c = false) (flatten msg).
Proof.
  unfold flatten, split_whitespace. apply join_spaced_forall; [done|].
  eapply Forall_impl; [apply split_ws_clean; [done| |done]|].
  - apply Forall_map, Forall_forall. intros c _. destruct (is_control c) eqn:E; [by left|by right].
  - intros w Hw. eapply Forall_impl; [exact Hw|]. by intros c [_ ?].
Qed.

(** What is sent of a message: whole characters from its front, within the
    limit, all of them when they fit and otherwise less than one short of it,
    none of them a control character. *)
Lemma str_len_cons c s : str_len (c :: s) = len_utf8 c + str_len s.
Proof. reflexivity. Qed.
Lemma clamp_bytes_prefix room s : exists rest, s = clamp_bytes room s ++ rest /\
  (str_len s <= room -> rest = []) /\ (forall c l, rest = c :: l -> room < str_len (clamp_bytes room s) + len_utf8 c).
Proof.
  revert room. induction s as [|c s IH]; intros room; cbn [clamp_bytes]; [by exists []|].
  destruct (Z.leb_spec (len_utf8 c) room) as [Hc|Hc].
  - destruct (IH (room - len_utf8 c)) as (rest & E & H1 & H2). exists rest. rewrite !str_len_cons. cbn [app].
    split; [by rewrite <- E|]. split; [intros H; apply H1; lia|]. intros d l El. specialize (H2 d l El). lia.
  - exists (c :: s). rewrite str_len_cons. split; [done|]. split.
    + intros H. pose proof (str_len_bound s). lia.
    + intros d l H. injection H as <- <-. change (str_len []) with 0. lia.
Qed.
Lemma message_text_spec msg : exists rest, flatten msg = message_text msg ++ rest /\
  str_len (message_text msg) <= MSG_MAX_BYTES /\ Forall (fun c => is_control c = false) (message_text msg) /\
  (rest <> [] -> MSG_MAX_BYTES - 4 < str_len (message_text msg)).
Proof.
  unfold message_text. destruct (clamp_bytes_prefix MSG_MAX_BYTES (flatten msg)) as (rest & E & _ & H).
  exists rest. split; [exact E|]. split; [by apply clamp_bytes_fits|]. split.
  - pose proof (flatten_clean msg) as Hc. rewrite E in Hc. by apply Forall_app in Hc as [Hc _].
  - intros Hr. destruct rest as [|c l]; [done|]. specialize (H c l eq_refl). pose proof (len_utf8_bounds c). lia.
Qed.

(** The terminal's side of the protocol: a report is read up to the
    terminator, its fields separated by colons. *)
Definition read_fields (text : str) : option (list str) :=
  match strip_prefix (ESC :: txt "]7501;") text with
  | Some r => match strip_suffix [ESC; 92] r with
              | Some body => if existsb is_control body then None else Some (split_on 58 body)
              | None => None
              end
  | None => None
  end.

Definition plain (s : str) : Prop := Forall (fun c => is_control c = false /\ c <> 58) s.

Lemma split_on_plain c s rest : Forall (fun x => x <> c) s -> split_on c (s ++ c :: rest) = s :: split_on c rest.
Proof.
  induction 1 as [|x s Hx _ IH]; cbn; [by rewrite Z.eqb_refl|]. by rewrite (proj2 (Z.eqb_neq x c) Hx), IH.
Qed.
Lemma split_on_whole c s : Forall (fun x => x <> c) s -> split_on c s = [s].
Proof. induction 1 as [|x s Hx _ IH]; cbn; [done|]. by rewrite (proj2 (Z.eqb_neq x c) Hx), IH. Qed.
Lemma join_fields fs f : Forall plain (f :: fs) ->
  split_on 58 (f ++ concat (map (fun f => 58 :: f) fs)) = f :: fs.
Proof.
  revert f. induction fs as [|g fs IH]; intros f H; apply Forall_cons in H as [Hf H]; cbn [map concat].
  - rewrite app_nil_r. apply split_on_whole. eapply Forall_impl; [exact Hf|]. by intros c [_ ?].
  - cbn [app]. rewrite split_on_plain; [by rewrite IH|]. eapply Forall_impl; [exact Hf|]. by intros c [_ ?].
Qed.
Lemma plain_clean f : plain f -> existsb is_control f = false.
Proof. induction 1 as [|c f [Hc _] _ IH]; [done|]. cbn. by rewrite Hc, IH. Qed.
Lemma plain_fields_clean fs f : Forall plain (f :: fs) -> existsb is_control (f ++ concat (map (fun f => 58 :: f) fs)) = false.
Proof.
  revert f. induction fs as [|g fs IH]; intros f H; apply Forall_cons in H as [Hf H]; cbn [map concat];
    rewrite existsb_app, (plain_clean f Hf); [done|]. exact (IH g H).
Qed.

Lemma strip_prefix_app p s : strip_prefix p (p ++ s) = Some s.
Proof. unfold strip_prefix. rewrite starts_with_app. by rewrite drop_app_length. Qed.

Section reader.
Variable base64 : list Z -> str.
(** Base64 has letters, digits and a few signs, none of them a colon. *)
Hypothesis base64_plain : forall bytes, plain (base64 bytes).

Definition fields (state : str) (progress : option Z) (msg : option str) : list str :=
  (txt "state=" ++ state) :: txt "app=xfr"
  :: match progress with Some p => [txt "progress=" ++ dec (Z.min p 100)] | None => [] end
  ++ match msg with Some m => [txt "msg=" ++ base64 (as_bytes (message_text m))] | None => [] end.

Lemma plain_app a b : plain a -> plain b -> plain (a ++ b).
Proof. intros Ha Hb. by apply Forall_app. Qed.
Lemma plain_dec z : 0 <= z -> plain (dec z).
Proof.
  intros Hz. eapply Forall_impl; [exact (dec_digits z Hz)|]. cbn. intros c Hc. unfold is_control. split; [|lia].
  apply orb_false_iff. split; apply andb_false_iff; lia.
Qed.
Lemma fields_plain state progress msg : plain state -> (forall p, progress = Some p -> 0 <= p) ->
  Forall plain (fields state progress msg).
Proof.
  assert (W : forall s, existsb is_control (txt s) = false -> contains_char 58 (txt s) = false -> plain (txt s)).
  { intros s H1 H2. apply Forall_and. split; [|by apply contains_char_false].
    apply List.Forall_forall. intros c Hc. apply not_true_iff_false. intros E.
    apply not_true_iff_false in H1. apply H1, existsb_exists. by exists c. }
  intros Hs Hp. unfold fields. constructor; [by apply plain_app; [apply W|]|]. constructor; [by apply W|].
  apply Forall_app. split.
  - destruct progress as [p|]; [|done]. constructor; [|done]. apply plain_app; [by apply W|]. apply plain_dec.
    specialize (Hp p eq_refl). lia.
  - destruct msg as [m|]; [|done]. constructor; [|done]. by apply plain_app; [apply W|].
Qed.

Lemma report_body_fields state progress msg :
  report_body base64 state progress msg =
  (txt "state=" ++ state) ++ concat (map (fun f => 58 :: f) (List.tl (fields state progress msg))).
Proof.
  unfold report_body, fields. cbn [List.tl]. destruct progress, msg; cbn [map concat app]; rewrite ?app_nil_r;
    change (txt ":app=xfr") with (58 :: txt "app=xfr"); change (txt ":progress=") with (58 :: txt "progress=");
    change (txt ":msg=") with (58 :: txt "msg="); by rewrite <- ?app_assoc; cbn [app]; rewrite <- ?app_assoc.
Qed.

(** A terminal reads every report back: the state, the program, the progress
    capped at 100 and the message, whatever the message holds. *)
Lemma report_reads_back state progress msg : plain state -> (forall p, progress = Some p -> 0 <= p) ->
  read_fields (report base64 state progress msg) = Some (fields state progress msg).
Proof.
  intros Hs Hp. pose proof (fields_plain state progress msg Hs Hp) as Hf. unfold read_fields, report.
  change ([ESC] ++ txt "]7501;" ++ report_body base64 state progress msg ++ [ESC; 92])
    with ((ESC :: txt "]7501;") ++ report_body base64 state progress msg ++ [ESC; 92]).
  rewrite strip_prefix_app, strip_suffix_app, report_body_fields.
  rewrite plain_fields_clean, join_fields by exact Hf. reflexivity.
Qed.
End reader.

(** ** What a terminal is shown over time *)
Section history.
Variable base64 : list Z -> str.

(** Reports next to each other: never the same bytes twice, and at least a
    second apart unless the state changed. *)
Fixpoint spaced (written : list sent) : Prop :=
  match written with
  | [] => True
  | w :: before =>
    match before with
    | [] => True
    | l :: _ => sent_text w <> sent_text l /\
                (sent_state w = sent_state l -> MIN_UPDATE_INTERVAL <= saturating_sub (sent_at w) (sent_at l))
    end /\ spaced before
  end.

(** The terminal shows a report of the state the last call named: the very
    report, or one less than a second old. *)
Definition shows (c : call) (s : StatusReporter) : Prop :=
  exists l, last s = Some l /\ sent_state l = c_state c /\
    (sent_text l = report base64 (c_state c) (c_progress c) (c_msg c) \/
     saturating_sub (at_ c) (sent_at l) < MIN_UPDATE_INTERVAL).

Definition call_ok (c : call) : Prop := plain (c_state c) /\ forall q, c_progress c = Some q -> 0 <= q.

(** The reporter knows what it wrote last. *)
Definition in_step (s : StatusReporter) (written : list sent) : Prop :=
  last s = head written /\ spaced written /\
  Forall (fun w => exists p m, sent_text w = report base64 (sent_state w) p m /\ forall q, p = Some q -> 0 <= q) written.

Lemma text_fixes_state st p m st' p' m' : plain st -> plain st' ->
  (forall bytes, plain (base64 bytes)) ->
  report base64 st p m = report base64 st' p' m' -> st = st'.
Proof.
  intros H1 H2 Hb E. unfold report, report_body in E. rewrite <- !app_assoc in E.
  apply app_inv_head in E. apply app_inv_head in E. apply app_inv_head in E.
  assert (F : forall s rest, plain s -> split_once [58] (s ++ 58 :: rest) = Some (s, rest)).
  { intros s rest Hs. apply split_once_char. eapply Forall_impl; [exact Hs|]. by intros c [_ ?]. }
  change (txt ":app=xfr") with (58 :: txt "app=xfr") in E. cbn [app] in E.
  pose proof (f_equal (split_once [58]) E) as E'. rewrite !F in E' by done. by injection E' as ->.
Qed.

Lemma update_spaced now state progress msg s written :
  (forall bytes, plain (base64 bytes)) -> plain state -> (forall q, progress = Some q -> 0 <= q) ->
  Forall (fun w => plain (sent_state w)) written -> enabled s = true -> in_step s written ->
  let '(s', text) := update base64 now state progress msg s in
  let written' := match text with Some t => mkSent state t now :: written | None => written end in
  enabled s' = true /\ in_step s' written' /\ Forall (fun w => plain (sent_state w)) written' /\
  shows (mkCall now state progress msg) s'.
Proof.
  intros Hb Hp Hq Hw He (Hl & Hs & Ht). unfold update. rewrite He. cbn [negb].
  set (text := report base64 state progress msg). destruct (last s) as [l|] eqn:El.
  - destruct (held_back now state text l) eqn:Eh.
    + split; [done|]. split; [by split; [congruence|]|]. split; [done|]. exists l. split; [exact El|].
      destruct written as [|w ws]; [done|]. injection Hl as ->. apply Forall_cons in Hw as [Hw _].
      apply Forall_cons in Ht as [(p & m & Et & _) _].
      unfold held_back in Eh. apply orb_true_iff in Eh as [E|E].
      * apply bool_decide_eq_true in E. split; [|by left]. rewrite Et in E.
        by apply (text_fixes_state _ _ _ _ _ _ Hw Hp Hb E).
      * apply andb_true_iff in E as [E1 E2]. apply bool_decide_eq_true in E1. split; [exact E1|]. right. cbn. lia.
    + unfold held_back in Eh. apply orb_false_iff in Eh as [E1 E2]. apply bool_decide_eq_false in E1.
      split; [done|]. split.
      * split; [done|]. split; [|constructor; [by eexists progress, msg|done]]. cbn [spaced]. split; [|exact Hs].
        destruct written as [|w ws]; [done|]. injection Hl as ->. cbn [sent_text sent_state sent_at].
        split; [congruence|]. intros Es. rewrite (bool_decide_eq_true_2 _ (eq_sym Es)) in E2. cbn in E2. lia.
      * split; [by constructor|]. eexists. split; [reflexivity|]. split; [done|by left].
  - destruct written as [|w ws]; [|done]. split; [done|]. split; [|split; [by constructor|]].
    + split; [done|]. split; [done|]. constructor; [by eexists progress, msg|done].
    + eexists. split; [reflexivity|]. split; [done|by left].
Qed.

Lemma calls_spaced cs s written : (forall bytes, plain (base64 bytes)) -> Forall call_ok cs ->
  Forall (fun w => plain (sent_state w)) written -> enabled s = true -> in_step s written ->
  let '(s', written') := calls base64 cs s written in
  in_step s' written' /\ enabled s' = true /\
  (forall c before, cs = before ++ [c] -> shows c s').
Proof.
  intros Hb. revert s written. induction cs as [|c cs IH]; intros s written Hc Hw He Hs; cbn [calls].
  - split_and!; [done|done|]. by intros c [|].
  - apply Forall_cons in Hc as [[H Hq] Hc].
    pose proof (update_spaced (at_ c) (c_state c) (c_progress c) (c_msg c) s written Hb H Hq Hw He Hs) as U.
    destruct (update _ _ _ _ _ _) as [s1 text]. destruct U as (U1 & U2 & U3 & U4).
    pose proof (IH s1 _ Hc U3 U1 U2) as IH1. destruct (calls base64 cs s1 _) as [s' written'] eqn:Ec.
    destruct IH1 as (I1 & I2 & I3). split; [done|]. split; [done|]. intros d before E.
    destruct before as [|b before].
    + injection E as <- ->. injection Ec as <- _. by destruct c.
    + injection E as <- ->. by apply (I3 d before).
Qed.

Lemma calls_plain cs s written : Forall call_ok cs -> Forall (fun w => plain (sent_state w)) written ->
  Forall (fun w => plain (sent_state w)) (snd (calls base64 cs s written)).
Proof.
  revert s written. induction cs as [|c cs IH]; intros s written Hc Hw; cbn [calls]; [exact Hw|].
  apply Forall_cons in Hc as [[H _] Hc]. destruct (update _ _ _ _ _ s) as [s' [t|]]; apply IH; try done. by constructor.
Qed.
Lemma calls_off cs s written : enabled s = false -> calls base64 cs s written = (s, written).
Proof.
  revert written. induction cs as [|c cs IH]; intros written He; cbn [calls]; [done|].
  unfold update. rewrite He. cbn [negb]. by apply IH.
Qed.

(** Whatever a program calls and however fast, a terminal that implements the
    protocol is served well.  It shows the state of the latest call, by that
    call's very report or by one less than a second old; reports of one state
    are at least a second apart and never repeated; each one is read back
    field by field, the message cut to whole characters within the limit and
    free of control characters.  On exit the record stays if it is a result
    and is removed otherwise; where standard output is no terminal nothing is
    ever written. *)
Theorem status_reports_sound (on : bool) (cs : list call) :
  (forall bytes, plain (base64 bytes)) -> Forall call_ok cs ->
  let '(s, written) := calls base64 cs (reporter_new on) [] in
  (on = false -> written = [] /\ finish base64 s = None) /\
  spaced written /\
  Forall (fun w => exists p m, read_fields (sent_text w) = Some (fields base64 (sent_state w) p m)) written /\
  (on = true -> forall c before, cs = before ++ [c] ->
     shows c s /\ finish base64 s = if is_final (c_state c) then None else Some (report base64 (txt "clear") None None)).
Proof.
  intros Hb Hc. destruct on.
  - pose proof (calls_spaced cs (reporter_new true) [] Hb Hc ltac:(constructor) eq_refl
      (conj eq_refl (conj I (List.Forall_nil _)))) as H.
    destruct (calls base64 cs (reporter_new true) []) as [s written] eqn:Ec. destruct H as ((Hl & Hs & Ht) & He & H).
    split; [done|]. split; [done|]. split.
    + pose proof (calls_plain cs (reporter_new true) [] Hc ltac:(constructor)) as Hw. rewrite Ec in Hw. cbn [snd] in Hw.
      pose proof (proj2 (Forall_and _ _) (conj Ht Hw)) as Hp. eapply Forall_impl; [exact Hp|].
      intros w [(p & m & -> & Hq) Hpl]. exists p, m. by apply report_reads_back.
    + intros _ c before E. destruct (H c before E) as (l & El & Est & Hsh). split; [by exists l|].
      unfold finish. rewrite He, El, Est. by destruct (is_final (c_state c)).
  - rewrite calls_off by done. split; [done|]. split; [done|]. split; [constructor|done].
Qed.
End history.

(** What the client reports is always readable. *)
Lemma client_status_ok app at_time :
  let '(state, progress, msg) := client_status app in call_ok (mkCall at_time state progress (Some msg)).
Proof.
  unfold client_status, call_ok. destruct (is_connecting app); [|destruct (state (run app))]; cbn [c_state c_progress];
    (split; [apply (bool_decide_unpack _); vm_compute; exact I|]); try discriminate;
    destruct (bounded app); try discriminate; intros q H; injection H as <-; unfold as_u8; lia.
Qed.

Definition hex_text (bytes : list Z) : str := hex_encode (map (fun b => b mod 256) bytes).
Lemma hex_plain bytes : plain (hex_text bytes).
Proof.
  unfold plain, hex_text, hex_encode. induction bytes as [|b bytes IH]; [constructor|].
  assert (H : forall d, 0 <= d < 16 -> is_control (hex_digit d) = false /\ hex_digit d <> 58).
  { intros d Hd. unfold hex_digit, is_control. destruct (Z.ltb_spec d 10); split; lia. }
  cbn [map flat_map app]. pose proof (Z.mod_pos_bound b 256 eq_refl) as Hb. constructor; [|constructor; [|exact IH]]; apply H.
  - split; [apply Z.div_pos; lia|apply Z.div_lt_upper_bound; lia].
  - by apply Z.mod_pos_bound.
Qed.

Definition demo_calls : list call :=
  [mkCall 0 (txt "working") (Some 10) (Some (txt "a")); mkCall 500000000 (txt "working") (Some 20) (Some (txt "a"));
   mkCall 600000000 (txt "done") None (Some (10 :: txt "b"))].
Lemma status_reports_sound_witness :
  snd (calls hex_text demo_calls (reporter_new true) []) =
    [mkSent (txt "done") (report hex_text (txt "done") None (Some (txt "b"))) 600000000;
     mkSent (txt "working") (report hex_text (txt "working") (Some 10) (Some (txt "a"))) 0] /\
  spaced (snd (calls hex_text demo_calls (reporter_new true) [])).
Proof.
  split; [vm_compute; reflexivity|].
  assert (Hc : Forall call_ok demo_calls).
  { repeat constructor; cbn; try discriminate; intros q H; injection H as <-; discriminate. }
  pose proof (status_reports_sound hex_text true demo_calls hex_plain Hc) as H.
  destruct (calls hex_text demo_calls (reporter_new true) []) as [s written]. apply H.
Defined.
