(* ===== verification/ServerScreen.v ===== *)
(** * The server's screen (src/src/tui/server.rs, src/src/main.rs run_server_tui)

    The dashboard's state and how the server's events change it, what a frame
    shows, the fingerprint by which unchanged frames are skipped, and the loop
    with its bounded event channel.  The layout engine and the hasher are
    parameters; colours are reduced to whether a figure is an alert.  Times
    are nanoseconds. *)
From coqutil Require Import Datatypes.RecordSettersUsingExistingGetters.
From Stdlib Require Import SpecFloat.
From S2P Require Import Prelude Bytes Text Float Fmt Ip Protocol Stats Target Report Cli Discover TuiLoop App Footer Status.

Definition BANDWIDTH_HISTORY : nat := 60.

Record ActiveTestInfo := mkInfo {
  i_id : str; i_client_ip : IpAddr; i_protocol : str; i_direction : str; i_streams : Z; i_started : Z;
  i_duration_secs : Z; i_bytes : Z; i_throughput_mbps : f64
}.
Record ServerApp := mkServerApp {
  active_tests : list ActiveTestInfo; total_tests : Z; failed_tests : Z; srv_total_bytes : Z;
  bandwidth_history : list f64; connections_blocked : Z; auth_failures : Z; srv_start_time : Z;
  show_help : bool; help_scroll : Z
}.
Definition new (now : Z) : ServerApp := mkServerApp [] 0 0 0 [] 0 0 now false 0.

(** ** Operations *)
Definition add_test (info : ActiveTestInfo) (a : ServerApp) : ServerApp :=
  a <| active_tests ::= fun l => l ++ [info] |> <| total_tests ::= wrapping_add 64 1 |>.
(** The first test of that name. *)
Fixpoint update_first (id : str) (bytes : Z) (mbps : f64) (l : list ActiveTestInfo) : list ActiveTestInfo :=
  match l with
  | [] => []
  | t :: l =>
    if str_eqb (i_id t) id then t <| i_bytes := bytes |> <| i_throughput_mbps := mbps |> :: l
    else t :: update_first id bytes mbps l
  end.
Definition update_test (id : str) (bytes : Z) (mbps : f64) (a : ServerApp) : ServerApp :=
  a <| active_tests ::= update_first id bytes mbps |>.
Definition retain (id : str) (l : list ActiveTestInfo) : list ActiveTestInfo :=
  List.filter (fun t => negb (str_eqb (i_id t) id)) l.
Definition remove_test (id : str) (bytes : Z) (a : ServerApp) : ServerApp :=
  a <| active_tests ::= retain id |> <| srv_total_bytes ::= fun b => wrapping_add 64 b bytes |>.
Definition fail_test (id : str) (bytes : Z) (a : ServerApp) : ServerApp :=
  a <| active_tests ::= retain id |> <| failed_tests ::= wrapping_add 64 1 |>
    <| srv_total_bytes ::= fun b => wrapping_add 64 b bytes |>.
Definition record_blocked (a : ServerApp) : ServerApp := a <| connections_blocked ::= wrapping_add 64 1 |>.
Definition record_auth_failure (a : ServerApp) : ServerApp := a <| auth_failures ::= wrapping_add 64 1 |>.
Definition current_bandwidth (a : ServerApp) : f64 := fsum (map i_throughput_mbps (active_tests a)).
Definition update_bandwidth (a : ServerApp) : ServerApp :=
  a <| bandwidth_history ::= fun h =>
    let h := h ++ [current_bandwidth a] in
    if (BANDWIDTH_HISTORY <? length h)%nat then List.tl h else h |>.
Definition uptime (now : Z) (a : ServerApp) : Z := saturating_sub now (srv_start_time a).
Definition toggle_help (a : ServerApp) : ServerApp := a <| show_help ::= negb |> <| help_scroll := 0 |>.

Inductive ServerEvent :=
  | TestStarted (info : ActiveTestInfo)
  | TestUpdated (id : str) (bytes : Z) (throughput_mbps : f64)
  | TestCompleted (id : str) (bytes : Z)
  | TestFailed (id : str) (bytes : Z)
  | ConnectionBlocked
  | AuthFailure.
Definition on_event (e : ServerEvent) (a : ServerApp) : ServerApp :=
  match e with
  | TestStarted info => add_test info a
  | TestUpdated id bytes mbps => update_test id bytes mbps a
  | TestCompleted id bytes => remove_test id bytes a
  | TestFailed id bytes => fail_test id bytes a
  | ConnectionBlocked => record_blocked a
  | AuthFailure => record_auth_failure a
  end.
Definition on_events (es : list ServerEvent) (a : ServerApp) : ServerApp := fold_left (fun a e => on_event e a) es a.

(** ** A frame *)
Definition SEC : Z := 1000000000.
Definition elapsed_secs (now start : Z) : Z := saturating_sub now start / SEC.

Record size := mkSize { width : Z; height : Z }.
#[export] Instance size_eq_dec : EqDecision size.
Proof. solve_decision. Defined.
(** Inside a border on every side. *)
Definition inner (s : size) : size := mkSize (saturating_sub (width s) 2) (saturating_sub (height s) 2).

Definition header_title (now : Z) (a : ServerApp) : str :=
  let secs := elapsed_secs now (srv_start_time a) in
  txt " xfr server - uptime " ++ zero_pad 2 (dec (secs / 3600)) ++ txt ":" ++ zero_pad 2 (dec (secs mod 3600 / 60))
  ++ txt ":" ++ zero_pad 2 (dec (secs mod 60)) ++ txt " ".

(** Label, figure and whether it is an alert. *)
Definition stats (a : ServerApp) : list (str * str * bool) :=
  [(txt "Active Tests", dec (Z.of_nat (length (active_tests a))), false);
   (txt "Bandwidth", mbps_to_human (current_bandwidth a), false);
   (txt "Tests / Failed", dec (total_tests a) ++ txt " / " ++ dec (failed_tests a), 0 <? failed_tests a);
   (txt "Blocked / Auth Fail", dec (connections_blocked a) ++ txt " / " ++ dec (auth_failures a),
    (0 <? connections_blocked a) || (0 <? auth_failures a))].
Definition stat (all : list (str * str * bool)) (i : nat) : str * str * bool := nth i all ([], [], false).

Fixpoint columns_fit (all : list (str * str * bool)) (room : Z) (columns : list nat) : bool :=
  match columns with
  | [] => true
  | i :: more =>
    let '(label, value, _) := stat all i in
    let gap := match more with [] => 0 | _ => 1 end in
    (Z.max (str_len label) (str_len value) + gap <=? room) && columns_fit all room more
  end.
Definition header_columns (all : list (str * str * bool)) (inner_width : Z) : list nat :=
  match List.find (fun columns => columns_fit all (inner_width / Z.of_nat (length columns)) columns)
          [[0; 1; 2; 3]; [0; 1; 2]; [0; 1]]%nat with
  | Some columns => columns
  | None => [1%nat]
  end.

Definition table_columns (inner_width : Z) : list nat :=
  if 71 <=? inner_width then [0; 1; 2; 3; 4; 5]%nat
  else if 49 <=? inner_width then [0; 1; 2; 5]%nat
  else [0; 5]%nat.
Definition table_labels : list str :=
  map txt ["Client"; "Protocol"; "Direction"; "Streams"; "Elapsed"; "Throughput"]%string.
Definition cell (now : Z) (t : ActiveTestInfo) (i : nat) : str :=
  match i with
  | 0%nat => Cli.show_ip (i_client_ip t)
  | 1%nat => i_protocol t
  | 2%nat => i_direction t
  | 3%nat => dec (i_streams t)
  | 4%nat => dec (elapsed_secs now (i_started t)) ++ txt "s / " ++ dec (i_duration_secs t) ++ txt "s"
  | _ => mbps_to_human (i_throughput_mbps t)
  end.
Definition table_title (tests : Z) (inner_height : Z) : str :=
  let header_rows := 1 + (if 4 <=? inner_height then 1 else 0) in
  let hidden := saturating_sub tests (saturating_sub inner_height header_rows) in
  if 0 <? hidden then txt " Active Tests (" ++ dec tests ++ txt ", " ++ dec hidden ++ txt " hidden) "
  else txt " Active Tests ".

Record frame := mkFrame {
  f_title : str; f_stats : list (str * str * bool); f_table_title : str;
  f_labels : list str; f_rows : list (list str); f_hints : list str; f_help : option overlay
}.

Section screen.
(** The layout engine: header, table and footer of a terminal of some size,
    the header one row high on a short terminal. *)
Variable split : size -> size * size * size.

Definition draw (s : size) (now : Z) (a : ServerApp) : frame :=
  let '(header, table, footer) := split s in
  let all := stats a in
  let columns := table_columns (width (inner table)) in
  mkFrame (header_title now a) (map (stat all) (header_columns all (width (inner header))))
    (table_title (Z.of_nat (length (active_tests a))) (height (inner table)))
    (match active_tests a with [] => [] | _ => map (fun i => nth i table_labels []) columns end)
    (match active_tests a with
     | [] => [[txt "No active tests"]]
     | tests => map (fun t => map (cell now t) columns) tests
     end)
    (key_hints [(txt "?", txt "Help"); (txt "q", txt "Quit")] (width footer) (negb (roomy_hints_fit (width footer))))
    (if show_help a then Some (draw_help_overlay (width s) (height s) (help_scroll a) true) else None).

(** ** The fingerprint *)
Record row_key := mkRowKey {
  k_ip : IpAddr; k_protocol : str; k_direction : str; k_streams : Z; k_elapsed : Z; k_duration : Z; k_mbps : f64
}.
Record fingerprint_key := mkPrint {
  fk_size : size; fk_uptime : Z; fk_total : Z; fk_failed : Z; fk_blocked : Z; fk_auth : Z; fk_help : bool;
  fk_scroll : Z; fk_rows : list row_key
}.
(** The values fed to the hasher; the number of rows is the list's. *)
Definition row_of (now : Z) (t : ActiveTestInfo) : row_key :=
  mkRowKey (i_client_ip t) (i_protocol t) (i_direction t) (i_streams t) (elapsed_secs now (i_started t))
    (i_duration_secs t) (i_throughput_mbps t).
Definition render_key (s : size) (now : Z) (a : ServerApp) : fingerprint_key :=
  mkPrint s (elapsed_secs now (srv_start_time a)) (total_tests a) (failed_tests a) (connections_blocked a)
    (auth_failures a) (show_help a) (help_scroll a) (map (row_of now) (active_tests a)).
Variable hash : fingerprint_key -> Z.
Definition render_fingerprint (s : size) (now : Z) (a : ServerApp) : Z := hash (render_key s now a).

(** ** The loop *)
Definition CHANNEL : nat := 100.
(** [try_send]: a full channel drops the event. *)
Definition try_send (e : ServerEvent) (queue : list ServerEvent) : list ServerEvent :=
  if (length queue <? CHANNEL)%nat then queue ++ [e] else queue.

Record server_tui := mkServerTui {
  app : ServerApp; last_drawn : option Z; on_screen : option frame; queue : list ServerEvent; over : bool
}.
(** What one pass observes: the terminal's size, the time, a key pressed and
    whether the server's task has ended. *)
Record seen := mkSeen { o_size : size; o_now : Z; o_key : option KeyEvent; o_finished : bool }.

Definition paged (s : size) (key : option KeyCode) (a : ServerApp) : ServerApp :=
  if show_help a then a <| help_scroll ::= fun n => Help.help_scroll n (width s) (height s) true key |> else a.
Definition help_key (c : KeyCode) (a : ServerApp) : ServerApp :=
  if is_char 63 c || bool_decide (c = F1) then toggle_help a
  else if bool_decide (c = Esc) && show_help a then a <| show_help := false |>
  else a.

Definition redraw (o : seen) (t : server_tui) : server_tui :=
  let a := paged (o_size o) None (app t) in
  let fingerprint := render_fingerprint (o_size o) (o_now o) a in
  if bool_decide (last_drawn t = Some fingerprint) then t <| app := a |>
  else t <| app := a |> <| last_drawn := Some fingerprint |> <| on_screen := Some (draw (o_size o) (o_now o) a) |>.
(** The state and message of the report of a pass. *)
Definition server_status (a : ServerApp) : str * option str :=
  match active_tests a with
  | [] => (txt "idle", None)
  | l => (txt "working", Some (dec (Z.of_nat (length l)) ++ txt " active test(s)"))
  end.

Definition server_pass (o : seen) (t : server_tui) : server_tui :=
  if over t then t
  else
    let t := redraw o t in
    match o_key o with
    | Some k =>
      if server_tui_quit_key k then t <| over := true |>
      else
        let a := help_key (code k) (paged (o_size o) (Some (code k)) (app t)) in
        t <| app := on_events (queue t) a |> <| queue := [] |> <| over := o_finished o |>
    | None => t <| app ::= on_events (queue t) |> <| queue := [] |> <| over := o_finished o |>
    end.

(** The server's tasks send between and during passes. *)
Inductive happening := Send (e : ServerEvent) | Pass (o : seen).
Definition happen (h : happening) (t : server_tui) : server_tui :=
  match h with
  | Send e => t <| queue ::= try_send e |>
  | Pass o => server_pass o t
  end.
Definition server_run (hs : list happening) (t : server_tui) : server_tui := fold_left (fun t h => happen h t) hs t.
Definition start_screen (now : Z) : server_tui := mkServerTui (new now) None None [] false.
End screen.

#[export] Instance row_key_eq_dec : EqDecision row_key.
Proof. solve_decision. Defined.
#[export] Instance fingerprint_key_eq_dec : EqDecision fingerprint_key.
Proof. solve_decision. Defined.

(** ** An equal fingerprint is an equal frame *)
Section frames.
Variable split : size -> size * size * size.

(** What a frame takes from its rows. *)
Lemma key_bandwidth now a : current_bandwidth a = fsum (map k_mbps (map (row_of now) (active_tests a))).
Proof. unfold current_bandwidth. by rewrite map_map. Qed.
Lemma key_tests now a : length (active_tests a) = length (map (row_of now) (active_tests a)).
Proof. by rewrite length_map. Qed.
Definition cell_of (r : row_key) (i : nat) : str :=
  match i with
  | 0%nat => Cli.show_ip (k_ip r)
  | 1%nat => k_protocol r
  | 2%nat => k_direction r
  | 3%nat => dec (k_streams r)
  | 4%nat => dec (k_elapsed r) ++ txt "s / " ++ dec (k_duration r) ++ txt "s"
  | _ => mbps_to_human (k_mbps r)
  end.
Lemma key_cells now columns l :
  map (fun t => map (cell now t) columns) l = map (fun r => map (cell_of r) columns) (map (row_of now) l).
Proof. rewrite map_map. apply map_ext. intros t. apply map_ext. by intros [|[|[|[|[|]]]]]. Qed.

Lemma same_key_same_frame s s' now now' a a' :
  render_key s now a = render_key s' now' a' -> draw split s now a = draw split s' now' a'.
Proof.
  intros H. unfold render_key in H. injection H as <- Hu Ht Hf Hb Hq Hh Hs Hr.
  assert (Hl : length (active_tests a) = length (active_tests a')) by (rewrite (key_tests now), Hr; apply length_map).
  assert (Hstats : stats a = stats a').
  { unfold stats. by rewrite Hl, (key_bandwidth now), (key_bandwidth now' a'), Hr, Ht, Hf, Hb, Hq. }
  unfold draw. destruct (split s) as [[header table] footer]. rewrite Hstats, Hl, Hh, Hs.
  unfold header_title. rewrite Hu. f_equal.
  - by destruct (active_tests a), (active_tests a').
  - pose proof (key_cells now (table_columns (width (inner table))) (active_tests a)) as E1.
    pose proof (key_cells now' (table_columns (width (inner table))) (active_tests a')) as E2.
    rewrite Hr in E1. rewrite <- E2 in E1. by destruct (active_tests a), (active_tests a').
Qed.

Variable hash : fingerprint_key -> Z.

(** The frame on the screen is the one of the key remembered. *)
Definition screen_ok (t : server_tui) : Prop :=
  match last_drawn t with
  | None => on_screen t = None
  | Some f => exists s now a, f = hash (render_key s now a) /\ on_screen t = Some (draw split s now a)
  end.
Lemma redraw_ok o t : screen_ok t ->
  let t' := redraw split hash o t in
  screen_ok t' /\
  (on_screen t' = Some (draw split (o_size o) (o_now o) (app t')) \/
   exists k, k <> render_key (o_size o) (o_now o) (app t') /\ hash k = hash (render_key (o_size o) (o_now o) (app t'))).
Proof.
  intros Ht. unfold redraw. set (a := paged _ _ _). unfold render_fingerprint.
  destruct (bool_decide_reflect (last_drawn t = Some (hash (render_key (o_size o) (o_now o) a)))) as [E|E]; cbn.
  - unfold screen_ok in *. cbn. rewrite E in *. destruct Ht as (s & now & b & Ef & Es).
    split; [by exists s, now, b|].
    destruct (decide (render_key s now b = render_key (o_size o) (o_now o) a)) as [Ek|Ek].
    + left. rewrite Es. by rewrite (same_key_same_frame _ _ _ _ _ _ Ek).
    + right. by exists (render_key s now b).
  - split; [|by left]. by exists (o_size o), (o_now o), a.
Qed.
Lemma happen_ok h t : screen_ok t -> screen_ok (happen split hash h t).
Proof.
  intros Ht. destruct h as [e|o]; [exact Ht|]. cbn. unfold server_pass. destruct (over t); [exact Ht|].
  destruct (redraw_ok o t Ht) as [H _]. destruct (o_key o) as [k|]; [destruct (server_tui_quit_key k)|]; exact H.
Qed.
End frames.

(** ** What the dashboard counts *)
Definition started_id (e : ServerEvent) : option str := match e with TestStarted info => Some (i_id info) | _ => None end.
Definition ended_id (e : ServerEvent) : option str :=
  match e with TestCompleted id _ | TestFailed id _ => Some id | _ => None end.
Definition end_bytes (e : ServerEvent) : Z := match e with TestCompleted _ b | TestFailed _ b => b | _ => 0 end.
Definition starts (es : list ServerEvent) : list str := omap started_id es.
Definition ends (es : list ServerEvent) : list str := omap ended_id es.
Definition count (p : ServerEvent -> bool) (es : list ServerEvent) : Z := Z.of_nat (length (List.filter p es)).
Definition is_start (e : ServerEvent) : bool := is_some (started_id e).
Definition is_failure (e : ServerEvent) : bool := match e with TestFailed _ _ => true | _ => false end.
Definition is_blocked (e : ServerEvent) : bool := match e with ConnectionBlocked => true | _ => false end.
Definition is_auth_failure (e : ServerEvent) : bool := match e with AuthFailure => true | _ => false end.
Definition running (es : list ServerEvent) : list str :=
  List.filter (fun id => negb (existsb (str_eqb id) (ends es))) (starts es).

(** Identifiers are fresh: no test starts under a name that has ended. *)
Definition lifecycle (es : list ServerEvent) : Prop :=
  forall before e after id, es = before ++ e :: after -> ended_id e = Some id -> ~ In id (starts after).

Fixpoint lifecycle_check (es : list ServerEvent) : bool :=
  match es with
  | [] => true
  | e :: es => match ended_id e with Some id => negb (existsb (str_eqb id) (starts es)) | None => true end && lifecycle_check es
  end.
Lemma lifecycle_checked es : lifecycle_check es = true -> lifecycle es.
Proof.
  intros H before. revert es H. induction before as [|e' before IH]; intros es H e after id -> He Hi; cbn in H;
    apply andb_true_iff in H as [H1 H2].
  - rewrite He in H1. apply negb_true_iff, not_true_iff_false in H1. apply H1, existsb_exists. exists id.
    split; [done|]. by apply str_eqb_eq.
  - by apply (IH _ H2 e after id).
Qed.

Lemma on_events_app es es' a : on_events (es ++ es') a = on_events es' (on_events es a).
Proof. unfold on_events. apply fold_left_app. Qed.
Lemma retain_ids id l : map i_id (retain id l) = List.filter (fun x => negb (str_eqb x id)) (map i_id l).
Proof. unfold retain. induction l as [|t l IH]; [done|]. cbn. destruct (str_eqb (i_id t) id); cbn; by rewrite IH. Qed.
Lemma update_first_ids id b m l : map i_id (update_first id b m l) = map i_id l.
Proof. induction l as [|t l IH]; [done|]. cbn. destruct (str_eqb (i_id t) id); cbn; [done|by rewrite IH]. Qed.
Lemma filter_filter {A} (p q : A -> bool) l : List.filter p (List.filter q l) = List.filter (fun x => q x && p x) l.
Proof. induction l as [|x l IH]; [done|]. cbn. destruct (q x); cbn; [destruct (p x)|]; by rewrite IH. Qed.

Lemma starts_snoc es e : starts (es ++ [e]) = starts es ++ match started_id e with Some id => [id] | None => [] end.
Proof. unfold starts. rewrite omap_app. cbn. by destruct (started_id e). Qed.
Lemma ends_snoc es e : ends (es ++ [e]) = ends es ++ match ended_id e with Some id => [id] | None => [] end.
Proof. unfold ends. rewrite omap_app. cbn. by destruct (ended_id e). Qed.
Lemma ends_in es id : In id (ends es) -> exists before e after, es = before ++ e :: after /\ ended_id e = Some id.
Proof.
  intros H. apply list_elem_of_In in H. unfold ends in H. apply list_elem_of_omap in H as (e & He & Hi).
  apply list_elem_of_split in He as (l1 & l2 & ->). by exists l1, e, l2.
Qed.

Lemma running_snoc es e : lifecycle (es ++ [e]) ->
  running (es ++ [e]) = match e with
                        | TestStarted info => running es ++ [i_id info]
                        | TestCompleted id _ | TestFailed id _ => List.filter (fun x => negb (str_eqb x id)) (running es)
                        | _ => running es
                        end.
Proof.
  intros Hl. unfold running. rewrite starts_snoc, ends_snoc. destruct e as [info|id b m|id b|id b| |];
    cbn [started_id ended_id]; rewrite ?app_nil_r; try done.
  - rewrite List.filter_app. cbn. replace (existsb (str_eqb (i_id info)) (ends es)) with false; [done|].
    symmetry. apply not_true_iff_false. intros (id & Hid & E)%existsb_exists. apply str_eqb_eq in E. subst id.
    apply ends_in in Hid as (l1 & e & l2 & -> & He). rewrite <- app_assoc in Hl. apply (Hl l1 e (l2 ++ [TestStarted info]) _ eq_refl He).
    rewrite starts_snoc. apply in_or_app. right. by left.
  - rewrite filter_filter. apply filter_ext. intros x. rewrite existsb_app. cbn. rewrite orb_false_r. by rewrite negb_orb.
  - rewrite filter_filter. apply filter_ext. intros x. rewrite existsb_app. cbn. rewrite orb_false_r. by rewrite negb_orb.
Qed.
Lemma lifecycle_init es e : lifecycle (es ++ [e]) -> lifecycle es.
Proof.
  intros Hl l1 e' l2 id -> He Hi. apply (Hl l1 e' (l2 ++ [e]) id); [by rewrite <- app_assoc|done|].
  rewrite starts_snoc. apply in_or_app. by left.
Qed.

Lemma running_active es now : lifecycle es -> map i_id (active_tests (on_events es (new now))) = running es.
Proof.
  induction es as [|e es IH] using rev_ind; intros Hl; [done|].
  rewrite (running_snoc es e Hl), on_events_app. specialize (IH (lifecycle_init es e Hl)).
  destruct e; cbn -[retain update_first]; rewrite ?map_app, ?retain_ids, ?update_first_ids, IH; done.
Qed.

Lemma count_snoc p es e : count p (es ++ [e]) = count p es + (if p e then 1 else 0).
Proof. unfold count. rewrite List.filter_app, length_app. cbn. destruct (p e); cbn; lia. Qed.
Lemma wrap_succ w n : wrap w (1 + wrap w n) = wrap w (n + 1).
Proof. unfold wrap. rewrite Zplus_mod_idemp_r. f_equal. lia. Qed.

Definition totals (es : list ServerEvent) (a : ServerApp) : Prop :=
  total_tests a = wrap 64 (count is_start es) /\ failed_tests a = wrap 64 (count is_failure es) /\
  connections_blocked a = wrap 64 (count is_blocked es) /\ auth_failures a = wrap 64 (count is_auth_failure es) /\
  srv_total_bytes a = wrap 64 (zsum (map end_bytes es)).
Lemma totals_exact es now : totals es (on_events es (new now)).
Proof.
  induction es as [|e es IH] using rev_ind; [done|]. rewrite on_events_app. unfold totals in *.
  rewrite !count_snoc, map_app, zsum_app. cbn [map zsum]. destruct IH as (H1 & H2 & H3 & H4 & H5).
  destruct e; cbn [on_events fold_left on_event is_start is_failure is_blocked is_auth_failure started_id is_some end_bytes];
    cbn [total_tests failed_tests connections_blocked auth_failures srv_total_bytes add_test update_test remove_test fail_test
         record_blocked record_auth_failure];
    rewrite ?Z.add_0_r; split_and!; try assumption; cbn; unfold wrapping_add;
    rewrite ?H1, ?H2, ?H3, ?H4, ?H5, ?wrap_succ, ?Z.add_0_r; try done; unfold wrap; by rewrite Zplus_mod_idemp_l.
Qed.

(** ** The loop *)

(** The dashboard without the help overlay, which keys change. *)
Definition board (a : ServerApp) : ServerApp := a <| show_help := false |> <| help_scroll := 0 |>.
Lemma board_on_event e a : board (on_event e a) = on_event e (board a).
Proof. by destruct e. Qed.
Lemma board_on_events es a : board (on_events es a) = on_events es (board a).
Proof.
  revert a. induction es as [|e es IH]; intros a; [done|].
  change (on_events (e :: es) a) with (on_events es (on_event e a)).
  change (on_events (e :: es) (board a)) with (on_events es (on_event e (board a))).
  by rewrite IH, board_on_event.
Qed.
Lemma board_paged s k a : board (paged s k a) = board a.
Proof. unfold paged. by destruct (show_help a). Qed.
Lemma board_help_key c a : board (help_key c a) = board a.
Proof. unfold help_key. by repeat case_match. Qed.

Definition quits (o : seen) : bool := match o_key o with Some k => server_tui_quit_key k | None => false end.
(** The events that the passes take from the channel. *)
Fixpoint taken (hs : list happening) (q : list ServerEvent) : list ServerEvent :=
  match hs with
  | [] => []
  | Send e :: hs => taken hs (try_send e q)
  | Pass o :: hs => if quits o then [] else q ++ (if o_finished o then [] else taken hs [])
  end.

Section loop.
Variables (split : size -> size * size * size) (hash : fingerprint_key -> Z).
Notation run := (server_run split hash).

Lemma run_over hs t : over t = true -> app (run hs t) = app t /\ over (run hs t) = true.
Proof.
  revert t. induction hs as [|h hs IH]; intros t Ho; [done|]. change (run (h :: hs) t) with (run hs (happen split hash h t)).
  destruct h as [e|o]; cbn [happen].
  - destruct t as [a d f q v]. exact (IH (mkServerTui a d f (try_send e q) v) Ho).
  - unfold server_pass. rewrite Ho. by apply IH.
Qed.
Lemma redraw_keeps o t : board (app (redraw split hash o t)) = board (app t) /\
  queue (redraw split hash o t) = queue t /\ over (redraw split hash o t) = over t.
Proof.
  unfold redraw. destruct t as [a d f q v]. cbn [app last_drawn].
  destruct (bool_decide _); (split; [exact (board_paged (o_size o) None a)|done]). Qed.

Lemma pass_board o t : over t = false ->
  let t' := server_pass split hash o t in
  board (app t') = (if quits o then board (app t) else on_events (queue t) (board (app t))) /\
  over t' = quits o || o_finished o /\ (quits o = false -> queue t' = []).
Proof.
  intros Ho. unfold server_pass. rewrite Ho. destruct (redraw_keeps o t) as (H1 & H2 & H3).
  destruct (redraw split hash o t) as [a d f q v]. cbn [app queue over] in H1, H2, H3. subst q v. unfold quits.
  destruct (o_key o) as [k|]; [destruct (server_tui_quit_key k)|].
  - split; [exact H1|]. split; [reflexivity|discriminate].
  - split; [|by split].
    change (board (on_events (queue t) (help_key (code k) (paged (o_size o) (Some (code k)) a))) = on_events (queue t) (board (app t))).
    by rewrite board_on_events, board_help_key, board_paged, H1.
  - split; [|by split]. change (board (on_events (queue t) a) = on_events (queue t) (board (app t))).
    by rewrite board_on_events, H1.
Qed.

(** Whatever happens, the dashboard is what the events taken from the channel
    make of it. *)
Lemma run_board hs t : over t = false -> board (app (run hs t)) = on_events (taken hs (queue t)) (board (app t)).
Proof.
  revert t. induction hs as [|h hs IH]; intros t Ho; [done|]. change (run (h :: hs) t) with (run hs (happen split hash h t)).
  destruct h as [e|o]; cbn [happen taken].
  - destruct t as [a d f q v]. exact (IH (mkServerTui a d f (try_send e q) v) Ho).
  - destruct (pass_board o t Ho) as (H1 & H2 & H3). destruct (quits o) eqn:Eq.
    + destruct (run_over hs _ H2) as [-> _]. by rewrite H1.
    + destruct (o_finished o).
      * destruct (run_over hs _ H2) as [-> _]. by rewrite H1, app_nil_r.
      * rewrite (IH _ H2), H1, (H3 eq_refl). by rewrite on_events_app.
Qed.

(** A run in which the channel never fills and nothing ends the loop. *)
Fixpoint calm (hs : list happening) (queued : nat) : Prop :=
  match hs with
  | [] => True
  | Send _ :: hs => (queued < CHANNEL)%nat /\ calm hs (S queued)
  | Pass o :: hs => quits o = false /\ o_finished o = false /\ calm hs 0
  end.
Definition sent_events (hs : list happening) : list ServerEvent :=
  omap (fun h => match h with Send e => Some e | Pass _ => None end) hs.
Lemma calm_taken hs o q : calm hs (length q) -> quits o = false -> o_finished o = false ->
  taken (hs ++ [Pass o]) q = q ++ sent_events hs.
Proof.
  intros Hc Hq Hf. revert q Hc. induction hs as [|h hs IH]; intros q Hc.
  - change (taken ([] ++ [Pass o]) q) with (if quits o then [] else q ++ (if o_finished o then [] else [])).
    rewrite Hq, Hf. by rewrite !app_nil_r.
  - destruct h as [e|p]; cbn in Hc |- *.
    + destruct Hc as [Hn Hc]. unfold try_send. rewrite (proj2 (Nat.ltb_lt _ _) Hn). rewrite IH.
      * cbn. by rewrite <- app_assoc.
      * rewrite length_app. cbn. by rewrite Nat.add_1_r.
    + destruct Hc as (-> & -> & Hc). by rewrite (IH [] Hc).
Qed.

(** The screen shows the dashboard as it is.  In whatever order events, keys,
    resizes and passes come, what is on the terminal after the redraw of a
    pass -- drawn then or skipped -- is the frame of the state, the size and
    the time of that pass, unless the hash gives two different frames one
    fingerprint. *)
Theorem screen_is_current (hs : list happening) (start : Z) (o : seen) :
  let t := redraw split hash o (run hs (start_screen start)) in
  on_screen t = Some (draw split (o_size o) (o_now o) (app t)) \/
  exists k, k <> render_key (o_size o) (o_now o) (app t) /\ hash k = hash (render_key (o_size o) (o_now o) (app t)).
Proof.
  assert (H : forall t, screen_ok split hash t -> screen_ok split hash (run hs t)).
  { induction hs as [|h hs' IH]; intros t Ht; [exact Ht|]. apply IH. by apply happen_ok. }
  apply (redraw_ok split hash o (run hs (start_screen start))). by apply H.
Qed.

(** C34. What the dashboard says is what the server did.  While no more than a
    hundred events wait between two passes, after any pass the tests listed
    are those started and not ended, in order, and the totals -- tests,
    failures, blocked connections, authentication failures, bytes -- are those
    of the events sent, whatever keys were pressed. *)
Theorem dashboard_exact (hs : list happening) (o : seen) (start : Z) :
  calm hs 0 -> quits o = false -> o_finished o = false -> lifecycle (sent_events hs) ->
  let a := app (run (hs ++ [Pass o]) (start_screen start)) in
  map i_id (active_tests a) = running (sent_events hs) /\ totals (sent_events hs) a.
Proof.
  intros Hc Hq Hf Hl a. pose proof (run_board (hs ++ [Pass o]) (start_screen start) eq_refl) as H.
  change (queue (start_screen start)) with (@nil ServerEvent) in H. rewrite (calm_taken hs o [] Hc Hq Hf) in H.
  change (board (app (start_screen start))) with (new start) in H. fold a in H. clearbody a. split.
  - change (active_tests a) with (active_tests (board a)). rewrite H. by apply running_active.
  - pose proof (totals_exact (sent_events hs) start) as Ht. change (totals (sent_events hs) (board a)). by rewrite H.
Qed.

(** An end that finds the channel full is lost: the test stays on the screen
    for as long as the server runs. *)
Fixpoint never_ends (id : str) (hs : list happening) : Prop :=
  match hs with
  | [] => True
  | Send e :: hs => ended_id e <> Some id /\ never_ends id hs
  | Pass _ :: hs => never_ends id hs
  end.
Lemma taken_never_ends id hs q : ~ In id (ends q) -> never_ends id hs -> ~ In id (ends (taken hs q)).
Proof.
  revert q. induction hs as [|h hs IH]; intros q Hq Hn; [by intros []|]. destruct h as [e|o]; cbn [taken never_ends] in *.
  - destruct Hn as [He Hn]. apply IH; [|done]. unfold try_send. destruct (_ <? _)%nat; [|done].
    rewrite ends_snoc. intros [H|H]%in_app_or; [done|]. destruct (ended_id e) as [i|]; [|done].
    destruct H as [->|[]]. by apply He.
  - destruct (quits o); [by intros []|]. unfold ends. rewrite omap_app. intros [H|H]%in_app_or; [done|].
    destruct (o_finished o); [done|]. by apply (IH [] (fun x => x) Hn).
Qed.
Lemma on_event_keeps id e a : ended_id e <> Some id -> In id (map i_id (active_tests a)) ->
  In id (map i_id (active_tests (on_event e a))).
Proof.
  intros He Hi. destruct e as [info|i b m|i b|i b| |]; cbn -[retain update_first]; rewrite ?map_app, ?update_first_ids;
    [apply in_or_app; by left|exact Hi| | |exact Hi|exact Hi];
    rewrite retain_ids; apply filter_In; (split; [done|]); apply negb_true_iff, not_true_iff_false; intros E;
    apply str_eqb_eq in E; subst; by apply He.
Qed.
Lemma on_events_keep id es a : ~ In id (ends es) -> In id (map i_id (active_tests a)) ->
  In id (map i_id (active_tests (on_events es a))).
Proof.
  revert a. induction es as [|e es IH]; intros a Hn Hi; [done|].
  change (on_events (e :: es) a) with (on_events es (on_event e a)).
  assert (E : ends (e :: es) = match ended_id e with Some i => i :: ends es | None => ends es end)
    by (unfold ends; cbn; by destruct (ended_id e)).
  rewrite E in Hn. apply IH.
  - intros H. apply Hn. destruct (ended_id e); [by right|done].
  - apply on_event_keeps; [|done]. intros He. apply Hn. rewrite He. by left.
Qed.
Lemma dropped_end_stays (t : server_tui) (id : str) (bytes : Z) (hs : list happening) :
  over t = false -> length (queue t) = CHANNEL -> ~ In id (ends (queue t)) -> In id (map i_id (active_tests (app t))) ->
  never_ends id hs ->
  In id (map i_id (active_tests (app (run (Send (TestCompleted id bytes) :: hs) t)))).
Proof.
  intros Ho Hq Hn Hi Hs. pose proof (run_board (Send (TestCompleted id bytes) :: hs) t Ho) as H.
  change (active_tests ?a) with (active_tests (board a)) at 1. rewrite H. cbn [taken]. unfold try_send.
  rewrite Hq, Nat.ltb_irrefl. apply on_events_keep; [by apply taken_never_ends|exact Hi].
Qed.
End loop.

(** ** Concrete screens *)
Definition demo_info (id : string) : ActiveTestInfo :=
  mkInfo (txt id) (V4 3221225985) (txt "TCP") (txt "Download") 4 0 10 0 zero.
Definition demo_split (s : size) : size * size * size :=
  (mkSize (width s) (if height s <? 10 then 1 else 5), mkSize (width s) (saturating_sub (height s) 6), mkSize (width s) 1).
Definition demo_seen (key : option KeyEvent) (now : Z) : seen := mkSeen (mkSize 80 24) now key false.
Definition demo_hash (k : fingerprint_key) : Z := fk_uptime k.
Definition demo_day : list happening :=
  [Send (TestStarted (demo_info "a")); Send (TestStarted (demo_info "b")); Pass (demo_seen None 100000000);
   Send ConnectionBlocked; Send (TestCompleted (txt "a") 5); Pass (demo_seen (Some (mkKey (Char 63) false)) 200000000);
   Send (TestUpdated (txt "b") 3 (of_int 1500))].
Lemma demo_frame :
  let t := server_run demo_split demo_hash (demo_day ++ [Pass (demo_seen None 3700000000000)]) (start_screen 0) in
  let f := draw demo_split (mkSize 80 24) 3725000000000 (app t) in
  f_title f = txt " xfr server - uptime 01:02:05 " /\
  f_rows f = [[txt "192.0.2.1"; txt "TCP"; txt "Download"; txt "4"; txt "3725s / 10s"; txt "1.50 Gbps"]] /\
  nth 3 (f_stats f) ([], [], false) = (txt "Blocked / Auth Fail", txt "1 / 0", true) /\
  is_some (f_help f) = true.
Proof. vm_compute. split_and!; reflexivity. Qed.

Lemma dashboard_exact_witness :
  map i_id (active_tests (app (server_run demo_split demo_hash (demo_day ++ [Pass (demo_seen None 300000000)]) (start_screen 0))))
  = [txt "b"].
Proof.
  refine (proj1 (dashboard_exact demo_split demo_hash demo_day (demo_seen None 300000000) 0 _ eq_refl eq_refl _)).
  - repeat split; vm_compute; lia.
  - apply lifecycle_checked. vm_compute. reflexivity.
Defined.

(** A flood of refused connections within one pass: the end of the test finds
    the channel full, and the test is still listed after the flood. *)
Lemma flood_hides_an_end :
  let flood := Send (TestStarted (demo_info "a")) :: Pass (demo_seen None 0) :: repeat (Send ConnectionBlocked) 100
               ++ [Send (TestCompleted (txt "a") 5); Pass (demo_seen None 100000000); Pass (demo_seen None 200000000)] in
  let a := app (server_run demo_split demo_hash flood (start_screen 0)) in
  map i_id (active_tests a) = [txt "a"] /\ running (sent_events flood) = [] /\ srv_total_bytes a = 0.
Proof. vm_compute. split_and!; reflexivity. Qed.
