(* ===== verification/Screen.v ===== *)
(** * The client's screen (src/src/tui/ui.rs, src/src/tui/widgets.rs, [render_fingerprint] of src/src/tui/app.rs)

    What a frame of the client's terminal application shows for every state
    and size, text and graphs, and the fingerprint by which unchanged frames
    are skipped.  Colours are reduced to their meaning in the palette; the
    layout engine and the hasher are parameters, where a vertical layout keeps
    the width.  Footer.v has the footer and the help overlay. *)
From coqutil Require Import Datatypes.RecordSettersUsingExistingGetters.
From Stdlib Require Import SpecFloat.
From S2P Require Import Prelude Bytes Text Float Fmt Protocol Stats Settings Target Report TuiLoop Update Footer App.

Record size := mkSize { width : Z; height : Z }.
Definition inner (s : size) : size := mkSize (saturating_sub (width s) 2) (saturating_sub (height s) 2).

(** Colours by their meaning. *)
Inductive tone := Dim | Plain | Accent | Good | Warn | Bad | Graph.
Definition span : Type := str * tone.
Definition one : f64 := of_int 1.
Definition hundred : f64 := of_int 100.
Definition tenth : f64 := fdiv one (of_int 10).

Definition loss_color (loss_percent : f64) : tone :=
  if fltb loss_percent tenth then Good else if fgeb one loss_percent then Warn else Bad.
Definition jitter_color (jitter_ms : f64) : tone :=
  if fltb jitter_ms one then Good else if fgeb (of_int 10) jitter_ms then Warn else Bad.

(** ** The throughput graph *)
Record mark := mkMark { colour : tone; underlined : bool; reversed : bool }.
Definition loss_severity_style (rate : option f64) (hue_free : bool) : mark :=
  match rate with
  | None => mkMark Graph false false
  | Some r =>
    if fgeb zero r then mkMark Graph false false
    else if fltb r one then mkMark Warn true false
    else mkMark Bad true hue_free
  end.

Definition fclamp01 (x : f64) : f64 :=
  let x := if fltb x zero then zero else x in if fgtb x one then one else x.
(** The cells of a column from the bottom; a heavy loss without hue is
    stippled above the bar, any loss keeps its baseline. *)
Definition spark_cell (m : mark) (total_eighths : Z) (row : nat) : option Z :=
  let eighths := Z.min (saturating_sub total_eighths (Z.of_nat row * 8)) 8 in
  if 0 <? eighths then Some (9600 + eighths)
  else if reversed m then Some 9617
  else if Nat.eqb row 0 && underlined m then Some 32
  else None.
Definition spark_column (max : f64) (rows : nat) (s : f64 * mark) : tone * bool * list (option Z) :=
  let total_eighths := to_uint 64 (fmul (fclamp01 (fdiv (fst s) max)) (of_int (Z.of_nat rows * 8))) in
  (colour (snd s), underlined (snd s), map (spark_cell (snd s) total_eighths) (seq 0 rows)).
(** The last samples for which there is room. *)
Definition sparkline (area : size) (max : f64) (data : list (f64 * mark)) : list (tone * bool * list (option Z)) :=
  if (width area =? 0) || (height area =? 0) then []
  else map (spark_column max (Z.to_nat (height area))) (drop (length data - Z.to_nat (width area)) data).

(** ** The bar of a stream *)
Record bar := mkBar { b_label : str; b_filled : str; b_empty : str; b_stats : str }.
Definition stream_stats (s : StreamData) : str :=
  let throughput := mbps_to_human (sd_throughput_mbps s) in
  let rate (r : option f64) := match r with Some r => mbps_to_human r | None => txt "--" end in
  match sd_send_mbps s, sd_recv_mbps s with
  | None, None =>
    match sd_jitter_ms s with
    | Some jitter => txt " " ++ throughput ++ txt "  jitter: " ++ fixed 2 jitter ++ txt "ms"
    | None => if 0 <? sd_retransmits s then txt " " ++ throughput ++ txt "  rtx: " ++ dec (sd_retransmits s)
              else txt " " ++ throughput
    end
  | send, recv => txt " " ++ [8593] ++ txt " " ++ rate send ++ txt "  " ++ [8595] ++ txt " " ++ rate recv
  end.
Definition stream_bar (area_width : Z) (max_throughput : f64) (s : StreamData) : option bar :=
  if area_width <? 20 then None
  else
    let label := txt "[" ++ dec (sd_id s) ++ txt "] " in
    let stats := stream_stats s in
    let label_width := Z.of_nat (length label) in
    let bar_width := saturating_sub area_width (label_width + Z.of_nat (length stats)) in
    let progress := if fgtb max_throughput zero then fclamp01 (fdiv (sd_throughput_mbps s) max_throughput) else zero in
    let filled := Z.min (to_uint 16 (fmul progress (of_int bar_width))) bar_width in
    Some (mkBar label (repeat 9473 (Z.to_nat filled)) (repeat 9472 (Z.to_nat (bar_width - filled)))
            (take (Z.to_nat (saturating_sub area_width (label_width + bar_width))) stats)).
Definition draw_streams (area : size) (streams : list StreamData) : list (option bar) :=
  let max := fmax (fold_left fmax (map sd_throughput_mbps streams) zero) hundred in
  map (stream_bar (width (inner area)) max) (take (Z.to_nat (height (inner area))) streams).

(** ** The transfer line *)
Definition progress_bar_cells (app : App) (inner_width : Z) : Z * Z :=
  let transferred_len := Z.of_nat (length (bytes_to_human (total_bytes (run app)))) + 1 in
  let bar_width := Z.max (saturating_sub inner_width (12 + 16 + transferred_len)) 10 in
  let total_eighths := bar_width * 8 in
  let open_ended := match app_byte_budget (setup app) with Some b => b =? 0 | None => true end && is_infinite (setup app) in
  (bar_width,
   if open_ended then total_eighths
   else Z.min (to_uint 64 (fmul (fdiv (progress_percent app) hundred) (of_int total_eighths))) total_eighths).

Definition secs (nanos : Z) : Z := nanos / 1000000000.
(** The byte budget, where there is one to reach. *)
Definition budget_of (u : Setup) : option Z :=
  match app_byte_budget u with Some b => if 0 <? b then Some b else None | None => None end.
Definition time_display (app : App) : str :=
  txt " " ++ dec (secs (elapsed (run app))) ++ txt "s/"
  ++ match budget_of (setup app) with
     | Some budget => bytes_to_human budget
     | None => if is_infinite (setup app) then [8734] else dec (secs (app_duration (setup app))) ++ txt "s"
     end.
Definition transfer_line (app : App) (inner_width : Z) : list span :=
  let '(bar_width, filled_eighths) := progress_bar_cells app inner_width in
  let full_cells := filled_eighths / 8 in
  let remainder := filled_eighths mod 8 in
  let drawn := full_cells + (if 0 <? remainder then 1 else 0) in
  [(txt "  Transfer: ", Dim); (bytes_to_human (total_bytes (run app)) ++ txt " ", Plain);
   (repeat 9608 (Z.to_nat full_cells) ++ (if 0 <? remainder then [9616 - remainder] else []), Graph);
   (repeat 9617 (Z.to_nat (saturating_sub bar_width drawn)), Dim); (time_display app, Plain)].

(** ** The statistics *)
Definition udp_direction_line (label : string) (d : UdpDirectionState) : list span :=
  [(txt label ++ txt ": loss ", Dim);
   match direction_lost_percent d with
   | Some percent => (fixed 1 percent ++ txt "%", loss_color percent)
   | None => (txt "--%", Dim)
   end;
   (txt " jitter ", Dim);
   match ds_jitter_ms d with
   | Some jitter => (fixed 2 jitter ++ txt "ms", jitter_color jitter)
   | None => (txt "--ms", Dim)
   end].
Definition quality_lines (app : App) : list (list span) :=
  let r := run app in
  if bool_decide (app_protocol (setup app) = Udp) then
    if bool_decide (app_direction (setup app) = Bidir)
    then [udp_direction_line "Upload" (udp_send r); udp_direction_line "Download" (udp_recv r)]
    else
      let '(primary, smoothed) := jitter_display r in
      [[(txt "Jitter:       ", Dim);
        (fixed 2 primary ++ match smoothed with
                            | Some avg => txt " ms (10s avg: " ++ fixed 2 avg ++ txt " ms)"
                            | None => txt " ms"
                            end, jitter_color primary)];
       [(txt "Packet Loss:  ", Dim);
        match udp_lost_percent r with
        | Some p => (fixed 1 p ++ txt "%", loss_color p)
        | None => (txt "--%", Dim)
        end]]
  else
    [[(txt "RTT:          ", Dim); (fixed 2 (fdiv (of_int (rtt_us r)) (of_int 1000)) ++ txt " ms", Plain)];
     [(txt "Retransmits:  ", Dim); (dec (total_retransmits r), if total_retransmits r =? 0 then Good else Warn)]].
Definition rate_lines (app : App) : list str :=
  let r := run app in
  if bool_decide (app_direction (setup app) = Bidir)
     && (fgtb (throughput_send_mbps r) zero || fgtb (throughput_recv_mbps r) zero)
  then [[8593] ++ txt " " ++ mbps_to_human (throughput_send_mbps r); [8595] ++ txt " " ++ mbps_to_human (throughput_recv_mbps r)]
  else [[]; mbps_to_human (current_throughput_mbps r)].
Definition speed_lines (app : App) : list (list span) :=
  [[(txt "  Current Speed: ", Dim); (mbps_to_human (current_throughput_mbps (run app)), Graph)];
   [(txt "  Average Speed: ", Dim); (mbps_to_human (average_throughput_mbps (run app)), Plain)]].

Record stats_panel := mkPanel {
  p_rates : list str; p_graph : list (tone * bool * list (option Z)); p_transfer : list span;
  p_speed : list (list span); p_quality : list (list span)
}.

(** ** The settings *)
Record item := mkItem { it_selected : bool; it_label : str; it_value : str; it_tone : tone }.
Definition draw_setting_item (area_width : Z) (selected_index : Z) (button_focused : bool) (locked_row : option Z)
    (i : Z) (row : str * str) : item :=
  let is_selected := negb button_focused && (i =? selected_index) in
  let locked := bool_decide (locked_row = Some i) in
  let value := snd row in
  mkItem is_selected (pad_right 14 (fst row))
    (if is_selected && negb locked && (2 + 14 + Z.of_nat (length value) + 4 <=? area_width)
     then [9664] ++ txt " " ++ value ++ txt " " ++ [9654] else value)
    (if locked then Dim else if is_selected then Accent else Plain).
Definition on_off (b : bool) : str := if b then txt "on" else txt "off".
Definition display_items (d : DisplaySettings) : list (str * str) :=
  [(txt "Theme:", match theme_list !! Z.to_nat (theme_index d) with Some name => name | None => txt "default" end);
   (txt "Timestamp:", TimestampFormat.as_str (timestamp_format d));
   (txt "Units:", Units.as_str (units d));
   (txt "Update check:", on_off (update_check d)
      ++ match update_check_lock_reason d with Some reason => txt " (" ++ reason ++ txt ")" | None => [] end)].
Definition direction_debug (d : Direction) : str :=
  match d with Upload => txt "Upload" | Download => txt "Download" | Bidir => txt "Bidir" end.
Definition test_items (p : TestParams) : list (str * str) :=
  [(txt "Streams:", dec (streams p)); (txt "Protocol:", protocol_name (protocol p));
   (txt "Duration:", dec (duration_secs p) ++ txt "s"); (txt "Direction:", direction_debug (direction p));
   (txt "Bitrate:", bitrate_display (bitrate p))].
(** The tabs and buttons, each with whether it is highlighted. *)
Definition draw_settings_tabs (category : SettingsCategory.t) : list (str * bool) :=
  [(txt "Display", bool_decide (category = SettingsCategory.Display)); (txt "Test", bool_decide (category = SettingsCategory.Test))].
Definition draw_settings_buttons (st : SettingsState) : list (str * bool) :=
  let focused i := button_focused (nav st) && (button_index (nav st) =? i) in
  (if test_params_dirty st then [(txt "[Apply & Restart]", focused 0)] else []) ++ [(txt "[Esc]", focused 1)].
Record modal := mkModal {
  m_size : size; m_tabs : option (list (str * bool)); m_items : list item; m_scroll : Z;
  m_buttons : option (list (str * bool)); m_help : bool
}.

(** ** What the fingerprint is made of *)
Record stream_key := mkStreamKey {
  k_id : Z; k_mbps : f64; k_retransmits : Z; k_jitter : option f64; k_send : option f64; k_recv : option f64
}.
Definition key_of_stream (s : StreamData) : stream_key :=
  mkStreamKey (sd_id s) (sd_throughput_mbps s) (sd_retransmits s) (sd_jitter_ms s) (sd_send_mbps s) (sd_recv_mbps s).
Definition direction_key (d : UdpDirectionState) : option f64 * option f64 := (direction_lost_percent d, ds_jitter_ms d).
(** Everything fed to the hasher, in order; lengths are the lists'. *)
Record render_key := mkKey {
  k_size : size; k_state : AppState; k_host : str; k_port : Z; k_protocol : Protocol; k_direction : Direction;
  k_streams_count : Z; k_duration : Z; k_byte_budget : option Z; k_elapsed_secs : Z; k_bar : Z * Z; k_total_bytes : Z;
  k_current_mbps : f64; k_throughput : list ThroughputSample; k_jitter_history : list f64; k_streams : list stream_key;
  k_send_mbps : f64; k_recv_mbps : f64; k_total_retransmits : Z; k_rtt_us : Z; k_jitter_ms : f64;
  k_lost_percent : option f64; k_udp_send : option f64 * option f64; k_udp_recv : option f64 * option f64;
  k_error : option str; k_cancel_wait : option Z; k_show_help : bool; k_help_scroll : Z; k_show_streams : bool;
  k_theme : str; k_theme_index : Z; k_settings : SettingsState; k_history : list LogEntry; k_average_mbps : f64;
  k_update : option str; k_server_version : option str
}.
Definition key_of (s : size) (now : Z) (app : App) : render_key :=
  let u := setup app in let r := run app in let se := session app in
  mkKey s (state r) (app_host u) (app_port u) (app_protocol u) (app_direction u) (streams_count u) (app_duration u)
    (app_byte_budget u) (secs (elapsed r)) (progress_bar_cells app (saturating_sub (width s) 2)) (total_bytes r)
    (current_throughput_mbps r) (throughput_history r) (jitter_history r) (map key_of_stream (run_streams r))
    (throughput_send_mbps r) (throughput_recv_mbps r) (total_retransmits r) (rtt_us r) (udp_jitter_ms r)
    (udp_lost_percent r) (direction_key (udp_send r)) (direction_key (udp_recv r)) (run_error r) (cancel_wait_secs now r)
    (show_help r) (help_scroll se) (show_streams r) (theme se) (app_theme_index se) (settings se) (history se)
    (average_throughput_mbps r) (update_available se) (run_server_version r).
#[export] Instance size_eq_decision : EqDecision size.
Proof. solve_decision. Defined.
#[export] Instance sample_eq_dec : EqDecision ThroughputSample.
Proof. solve_decision. Defined.
#[export] Instance stream_key_eq_dec : EqDecision stream_key.
Proof. solve_decision. Defined.
#[export] Instance log_entry_eq_dec : EqDecision LogEntry.
Proof. solve_decision. Defined.
#[export] Instance nav_eq_dec : EqDecision Nav.
Proof. solve_decision. Defined.
#[export] Instance display_settings_eq_dec : EqDecision DisplaySettings.
Proof. solve_decision. Defined.
#[export] Instance settings_state_eq_dec : EqDecision SettingsState.
Proof. solve_decision. Defined.
#[export] Instance client_key_eq_dec : EqDecision render_key.
Proof. solve_decision. Defined.

Section screen.
(** The layout engine: the rows left for the content below the title (and the
    banner) and above the footer; the rows of the three panels of a tall
    screen; the graph in the statistics panel; the rows of the items in the
    settings. *)
Variables (content_rows : bool -> Z -> Z) (panel_rows : Z -> Z * Z * Z) (graph_area : size -> size) (item_rows : Z -> Z).
(** The version of this build and how it was installed. *)
Variables (pkg_version : str) (install_method : InstallMethod.t).

Definition draw_setting_items (area : size) (n : Nav) (locked_row : option Z) (rows : list (str * str)) : list item * Z :=
  (imap (fun i row => draw_setting_item (width area) (selected_index n) (button_focused n) locked_row (Z.of_nat i) row) rows,
   Z.min (saturating_sub (selected_index n + 1) (saturating_sub (height area) 1)) u16_max).
Definition draw_settings_modal (s : size) (st : SettingsState) : modal :=
  let modal_size := mkSize (Z.min 58 (width s)) (Z.min 19 (height s)) in
  let room := inner modal_size in
  let area := mkSize (width room) (item_rows (height room)) in
  let n := nav st in
  let '(items, scroll) :=
    match category n with
    | SettingsCategory.Display =>
      draw_setting_items area n (option_map (fun _ => 3) (update_check_lock_reason (display st))) (display_items (display st))
    | SettingsCategory.Test => draw_setting_items area n None (test_items (test st))
    end in
  mkModal modal_size (if 3 <=? height room then Some (draw_settings_tabs (category n)) else None) items scroll
    (if 2 <=? height room then Some (draw_settings_buttons st) else None) (6 <=? height room).

Definition hue_free (theme : str) : bool := bool_decide (theme = txt "monochrome").
Definition draw_realtime_stats (area : size) (app : App) : stats_panel :=
  let r := run app in
  mkPanel (rate_lines app)
    (sparkline (graph_area (inner area)) (fmax (max_throughput r) hundred)
       (map (fun s => (mbps s, loss_severity_style (loss_rate_percent s) (hue_free (theme (session app))))) (throughput_history r)))
    (transfer_line app (width (inner area))) (speed_lines app) (quality_lines app).

Definition draw_configuration (app : App) : list str :=
  [txt "  Role:      " ++ match app_direction (setup app) with
                          | Upload => txt "Client (Upload)"
                          | Download => txt "Client (Download)"
                          | Bidir => txt "Client (Bidirectional)"
                          end;
   txt "  Target:    " ++ host_port (app_host (setup app)) (app_port (setup app));
   txt "  Protocol:  " ++ protocol_name (app_protocol (setup app)) ++ txt " " ++ [215] ++ dec (streams_count (setup app));
   txt "  Version:   xfr/" ++ pkg_version ++ txt " " ++ [8596] ++ txt " "
   ++ match run_server_version (run app) with Some v => v | None => txt "(waiting" ++ [8230] ++ txt ")" end].

(** Most recent first; without entries, the state. *)
Definition draw_history (area : size) (app : App) : list str :=
  match map (fun e => txt "  [" ++ timestamp e ++ txt "] " ++ message e)
          (take (Z.to_nat (height (inner area))) (history (session app))) with
  | [] =>
    [match state (run app) with
     | Connecting => txt "  Connecting..."
     | Running => txt "  Test running..."
     | Paused => txt "  Test paused"
     | Completed => txt "  Test complete"
     | Error => match run_error (run app) with Some e => e | None => txt "  Error" end
     end]
  | lines => lines
  end.

Inductive body :=
  | Failed (text : str)
  | StatsOnly (p : stats_panel)
  | Compact (headline progress : str)
  | Panels (config : list str) (p : stats_panel) (streams : option (list (option bar))) (lines : list str).

(** The rate outranks the state label. *)
Definition headline (area_width : Z) (app : App) : str :=
  let r := run app in
  let rate := mbps_to_human (if bool_decide (state r = Completed) then average_throughput_mbps r else current_throughput_mbps r) in
  let label := app_state_str (state r) in
  match List.find (fun line => Z.of_nat (length line) <=? area_width)
          (map (fun label => label ++ txt "  " ++ rate) [label; trim_end_matches 46 label]) with
  | Some line => line
  | None => rate
  end.
Definition compact_progress (app : App) : str :=
  let u := setup app in
  let elapsed := dec (secs (elapsed (run app))) in
  let transferred := bytes_to_human (total_bytes (run app)) in
  match budget_of u with
  | Some budget => transferred ++ txt " / " ++ bytes_to_human budget ++ txt "  " ++ elapsed ++ txt "s"
  | None =>
    if is_infinite u then elapsed ++ txt "s / " ++ [8734] ++ txt "  " ++ transferred
    else elapsed ++ txt "s / " ++ dec (secs (app_duration u)) ++ txt "s  " ++ transferred
  end.
Definition draw_content (area : size) (app : App) : body :=
  if height area <? 20 then
    if bool_decide (state (run app) = Error) then
      Failed (txt "Error: " ++ match run_error (run app) with Some e => e | None => txt "Test failed" end)
    else if 10 <=? height area then StatsOnly (draw_realtime_stats area app)
    else Compact (headline (width area) app) (compact_progress app)
  else
    let '(_, stats, lower) := panel_rows (height area) in
    let lower := mkSize (width area) lower in
    let shows_streams := show_streams (run app) && (1 <? streams_count (setup app)) in
    Panels (draw_configuration app) (draw_realtime_stats (mkSize (width area) stats) app)
      (if shows_streams then Some (draw_streams lower (run_streams (run app))) else None)
      (if shows_streams then [] else draw_history lower app).

Definition draw_update_banner (version : str) : str :=
  txt " Update available: v" ++ pkg_version ++ txt " " ++ [8594] ++ txt " v"
  ++ match strip_prefix (txt "v") version with Some v => v | None => version end
  ++ txt " | " ++ InstallMethod.update_command install_method ++ txt " | Press 'u' to dismiss ".

Definition draw_title : str := txt "[ xfr v" ++ pkg_version ++ txt " ]".
Definition draw_pause_overlay (s : size) : size * list str :=
  (mkSize (Z.min 20 (width s)) (Z.min 5 (height s)), [[]; txt "PAUSED"; txt "Press p to resume"]).

Record frame := mkFrame {
  f_theme : str; f_title : str; f_banner : option str; f_body : body; f_footer : list str * option (str * str);
  f_pause : option (size * list str); f_help : option overlay; f_settings : option modal
}.
Definition draw (s : size) (now : Z) (app : App) : frame :=
  let has_update := match update_available (session app) with Some _ => true | None => false end in
  let area := mkSize (width s) (content_rows has_update (height s)) in
  let modal_shown := visible (nav (settings (session app))) in
  mkFrame (theme (session app)) draw_title (option_map draw_update_banner (update_available (session app)))
    (draw_content area app) (draw_footer now app (width s))
    (if bool_decide (state (run app) = Paused) && negb (height area <? 10) && negb (show_help (run app)) && negb modal_shown
     then Some (draw_pause_overlay s) else None)
    (if show_help (run app) then Some (draw_help_overlay (width s) (height s) (help_scroll (session app)) false) else None)
    (if modal_shown then Some (draw_settings_modal s (settings (session app))) else None).

(** ** The fingerprint *)
Variable hash : render_key -> Z.
Definition render_fingerprint (s : size) (now : Z) (app : App) : Z := hash (key_of s now app).

(** ** The loop's drawing *)
Record screen := mkScreen { last_drawn : option Z; on_screen : option frame }.
Definition paged (s : size) (app : App) : App :=
  if show_help (run app)
  then app <| session ::= fun se => se <| help_scroll ::= fun n => Help.help_scroll n (width s) (height s) false None |> |>
  else app.
Definition redraw (s : size) (now : Z) (app : App) (t : screen) : screen :=
  let app := paged s app in
  let fingerprint := render_fingerprint s now app in
  if bool_decide (last_drawn t = Some fingerprint) then t
  else mkScreen (Some fingerprint) (Some (draw s now app)).
(** Between two passes anything may happen to the application; a restart may
    draw a frame of its own and forgets the fingerprint. *)
Inductive pass := Draw (s : size) (now : Z) (app : App) | Restarted (transient : option frame).
Definition on_pass (t : screen) (p : pass) : screen :=
  match p with
  | Draw s now app => redraw s now app t
  | Restarted transient => mkScreen None (match transient with Some f => Some f | None => on_screen t end)
  end.
Definition on_passes : list pass -> screen -> screen := fold_left on_pass.

(** ** An equal fingerprint is an equal frame *)
Lemma key_streams area (l l' : list StreamData) : map key_of_stream l = map key_of_stream l' -> draw_streams area l = draw_streams area l'.
Proof.
  intros H. unfold draw_streams.
  assert (Hm : map sd_throughput_mbps l = map sd_throughput_mbps l').
  { apply (f_equal (map k_mbps)) in H. by rewrite !map_map in H. }
  rewrite Hm. set (max := fmax _ _). set (w := width _). set (n := Z.to_nat _). clearbody max w n. clear Hm.
  revert l l' H. induction n as [|n IH]; [done|]. intros [|x l] [|y l'] H; try done. cbn in H. injection H as H1 H2 H3 H4 H5 H6 H.
  cbn. rewrite (IH l l' H). f_equal. unfold stream_bar, stream_stats. by rewrite H1, H2, H3, H4, H5, H6.
Qed.
Lemma key_direction label d d' : direction_key d = direction_key d' -> udp_direction_line label d = udp_direction_line label d'.
Proof. intros [= H1 H2]. unfold udp_direction_line. by rewrite H1, H2. Qed.

(** Each part of a frame reads the application through the key alone. *)
Tactic Notation "key_rewrite" constr(same) constr(k) :=
  let E := fresh "E" in pose proof (f_equal k same) as E; cbn [key_of k] in E; rewrite ?E; clear E.

Section one_key.
Context (s : size) (now now' : Z) (app app' : App).
Hypothesis same : key_of s now app = key_of s now' app'.

Lemma key_transfer_line : transfer_line app (width (inner s)) = transfer_line app' (width (inner s)).
Proof.
  unfold transfer_line, time_display, budget_of, is_infinite. change (width (inner s)) with (saturating_sub (width s) 2).
  key_rewrite same k_bar. key_rewrite same k_total_bytes. key_rewrite same k_elapsed_secs. key_rewrite same k_duration.
  by key_rewrite same k_byte_budget.
Qed.
Lemma key_quality_lines : quality_lines app = quality_lines app'.
Proof.
  assert (Hs : forall label, udp_direction_line label (udp_send (run app)) = udp_direction_line label (udp_send (run app'))).
  { intros label. apply key_direction. exact (f_equal k_udp_send same). }
  assert (Hr : forall label, udp_direction_line label (udp_recv (run app)) = udp_direction_line label (udp_recv (run app'))).
  { intros label. apply key_direction. exact (f_equal k_udp_recv same). }
  unfold quality_lines, jitter_display, avg_jitter_ms. rewrite Hs, Hr.
  key_rewrite same k_protocol. key_rewrite same k_direction. key_rewrite same k_state. key_rewrite same k_jitter_ms.
  key_rewrite same k_jitter_history. key_rewrite same k_lost_percent. key_rewrite same k_rtt_us.
  by key_rewrite same k_total_retransmits.
Qed.
Lemma key_realtime_stats (rows : Z) :
  draw_realtime_stats (mkSize (width s) rows) app = draw_realtime_stats (mkSize (width s) rows) app'.
Proof.
  unfold draw_realtime_stats, rate_lines, speed_lines, max_throughput. cbv zeta.
  change (width (inner (mkSize (width s) rows))) with (width (inner s)). rewrite key_transfer_line, key_quality_lines.
  key_rewrite same k_direction. key_rewrite same k_send_mbps. key_rewrite same k_recv_mbps. key_rewrite same k_current_mbps.
  key_rewrite same k_average_mbps. key_rewrite same k_throughput. by key_rewrite same k_theme.
Qed.
Lemma key_configuration : draw_configuration app = draw_configuration app'.
Proof.
  unfold draw_configuration. key_rewrite same k_direction. key_rewrite same k_host. key_rewrite same k_port.
  key_rewrite same k_protocol. key_rewrite same k_streams_count. by key_rewrite same k_server_version.
Qed.
Lemma key_compact (w : Z) : headline w app = headline w app' /\ compact_progress app = compact_progress app'.
Proof.
  unfold headline, compact_progress, budget_of, is_infinite. cbv zeta.
  key_rewrite same k_state. key_rewrite same k_average_mbps. key_rewrite same k_current_mbps. key_rewrite same k_elapsed_secs.
  key_rewrite same k_total_bytes. key_rewrite same k_byte_budget. by key_rewrite same k_duration.
Qed.
Lemma key_content (rows : Z) : draw_content (mkSize (width s) rows) app = draw_content (mkSize (width s) rows) app'.
Proof.
  unfold draw_content, draw_history. cbn [width height]. destruct (key_compact (width s)) as [-> ->].
  rewrite key_realtime_stats. destruct (panel_rows rows) as [[config stats] lower]. rewrite key_realtime_stats, key_configuration.
  rewrite (key_streams _ _ _ (f_equal k_streams same)).
  key_rewrite same k_state. key_rewrite same k_error. key_rewrite same k_show_streams. key_rewrite same k_streams_count.
  by key_rewrite same k_history.
Qed.
Lemma key_footer (w : Z) : draw_footer now app w = draw_footer now' app' w.
Proof.
  unfold draw_footer, status_text, footer_keys. key_rewrite same k_cancel_wait. key_rewrite same k_state.
  key_rewrite same k_streams_count. by key_rewrite same k_update.
Qed.
End one_key.

Lemma equal_keys_draw_alike s s' now now' app app' : key_of s now app = key_of s' now' app' -> draw s now app = draw s' now' app'.
Proof.
  intros H. assert (s' = s) as -> by exact (eq_sym (f_equal k_size H)).
  unfold draw. cbv zeta. rewrite (key_footer s now now' app app' H). key_rewrite H k_update.
  rewrite (key_content s now now' app app' H). key_rewrite H k_theme. key_rewrite H k_state. key_rewrite H k_show_help.
  key_rewrite H k_help_scroll. by key_rewrite H k_settings.
Qed.

(** ** What is on the screen *)
(** The frame on the screen is the one of the fingerprint remembered. *)
Definition drawn_ok (t : screen) : Prop :=
  match last_drawn t with
  | None => True
  | Some f => exists s now app, f = render_fingerprint s now app /\ on_screen t = Some (draw s now app)
  end.
Lemma redraw_drawn s now app t : drawn_ok t -> drawn_ok (redraw s now app t).
Proof.
  intros Ht. unfold redraw. cbv zeta. case_bool_decide; [exact Ht|]. by exists s, now, (paged s app).
Qed.
Lemma on_passes_drawn ps t : drawn_ok t -> drawn_ok (on_passes ps t).
Proof.
  revert t. induction ps as [|p ps IH]; intros t Ht; [exact Ht|]. apply IH.
  destruct p as [s now app|]; [by apply redraw_drawn|exact I].
Qed.
Definition start_screen : screen := mkScreen None None.

(** C33. The client's screen shows the test as it is.  After any passes -- with any states of
    the application, sizes, times and restarts -- what is on the terminal
    after a redraw, drawn then or skipped, is the frame of the state, the size
    and the time of that pass, unless the hash gives two different keys one
    fingerprint: nothing a frame shows is missing from the fingerprint. *)
Theorem client_screen_is_current (ps : list pass) (s : size) (now : Z) (app : App) :
  let t := redraw s now app (on_passes ps start_screen) in
  on_screen t = Some (draw s now (paged s app)) \/
  exists k, k <> key_of s now (paged s app) /\ hash k = render_fingerprint s now (paged s app).
Proof.
  pose proof (on_passes_drawn ps start_screen I) as Ht. set (u := on_passes ps start_screen) in *. clearbody u.
  unfold redraw. cbv zeta. case_bool_decide as E; [|by left]. unfold drawn_ok in Ht. rewrite E in Ht.
  destruct Ht as (s' & now' & b & Ef & Es). cbn. destruct (decide (key_of s' now' b = key_of s now (paged s app))) as [Ek|Ek].
  - left. rewrite Es. by rewrite (equal_keys_draw_alike _ _ _ _ _ _ Ek).
  - right. by exists (key_of s' now' b).
Qed.
End screen.

(** ** The widgets *)
(** A mark above the bar leaves the bar as it is. *)
Lemma marking_keeps_the_bar m m' total row : 0 <= total -> Z.of_nat row * 8 < total ->
  spark_cell m total row = spark_cell m' total row /\ exists cell, spark_cell m total row = Some cell /\ 9601 <= cell <= 9608.
Proof.
  intros H0 H. unfold spark_cell, saturating_sub. rewrite (proj2 (Z.ltb_lt _ _)) by lia. split; [done|].
  eexists. split; [done|]. lia.
Qed.
(** The bar of a stream stays in its row. *)
Lemma stream_label_fits id : fits 8 id -> Z.of_nat (length (txt "[" ++ dec id ++ txt "] ")) <= 6.
Proof.
  intros Hi. unfold fits in Hi. assert (length (dec id) <= 3)%nat by (apply dec_aux_length; cbn; lia).
  rewrite !length_app. change (length (txt "[")) with 1%nat. change (length (txt "] ")) with 2%nat. lia.
Qed.
Lemma stream_bar_fits (w : Z) (max : f64) (s : StreamData) (b : bar) : fits 8 (sd_id s) -> stream_bar w max s = Some b ->
  Z.of_nat (length (b_label b ++ b_filled b ++ b_empty b ++ b_stats b)) <= w.
Proof.
  intros Hi. pose proof (stream_label_fits _ Hi) as Hl. unfold stream_bar. destruct (Z.ltb_spec w 20) as [|Hw]; [done|].
  cbv zeta. set (label := txt "[" ++ _) in *. set (stats := stream_stats s).
  set (width := saturating_sub w _). set (progress := if fgtb max zero then _ else _). clearbody progress label stats.
  pose proof (to_uint_fits 16 (fmul progress (of_int width)) ltac:(lia)) as Hf. unfold fits in Hf.
  set (filled := to_uint _ _) in *. clearbody filled. intros [= <-]. cbn [b_label b_filled b_empty b_stats].
  rewrite !length_app, !repeat_length, length_take. unfold saturating_sub in *. lia.
Qed.

(** ** Concrete frames *)
Definition demo_rows (banner : bool) (rows : Z) : Z := saturating_sub rows (if banner then 3 else 2).
Definition demo_panels (rows : Z) : Z * Z * Z := (6, 10, saturating_sub rows 16).
Definition demo_graph (s : size) : size := mkSize (saturating_sub (width s) 14) (Z.min 3 (height s)).
Definition demo_draw (w h : Z) : App -> frame :=
  draw demo_rows demo_panels demo_graph (fun rows => saturating_sub rows 3) (txt "0.9.30") InstallMethod.Cargo (mkSize w h) 0.
Definition demo_run (mbps : f64) : App :=
  App.demo_app <| App.run ::= fun r => r <| state := Running |> <| current_throughput_mbps := mbps |> |>.

Lemma demo_compact_keeps_the_rate : f_body (demo_draw 40 8 (demo_run (of_int 42))) = Compact (txt "Running...  42.0 Mbps") (txt "0s / 10s  0 B").
Proof. vm_compute. reflexivity. Qed.
Lemma demo_narrow_drops_the_dots : f_body (demo_draw 20 8 (demo_run (of_int 42))) = Compact (txt "Running  42.0 Mbps") (txt "0s / 10s  0 B").
Proof. vm_compute. reflexivity. Qed.
(** A heavy loss without hue: a bar of a quarter under a stipple. *)
Lemma demo_marked_column :
  sparkline (mkSize 2 3) hundred [(of_int 25, loss_severity_style (Some (of_int 5)) true); (of_int 25, mkMark Graph false false)]
  = [(Bad, true, [Some 9606; Some 9617; Some 9617]); (Graph, false, [Some 9606; None; None])].
Proof. vm_compute. reflexivity. Qed.
