(* ===== verification/Sockets.v ===== *)
(** * Sockets (src/src/net.rs) and the start of the server (src/src/serve.rs)

    The socket-creating functions as programs over a kernel that may refuse
    any call: each socket carries what was set on it, and a socket that an
    error leaves behind is closed as its owner goes out of scope.  On top of
    them the self-test of single-port UDP and the assembly of the server's
    listeners.  The kernel's answers, what a test datagram reaches and the
    QUIC endpoint's own configuration (rustls, quinn) are parameters.  The
    functions are those of Linux. *)
From coqutil Require Import Datatypes.RecordSettersUsingExistingGetters.
From S2P Require Import Prelude Bytes Text Fmt Ip Protocol Target Report RateLimit Acl Auth Cli Serve.

#[export] Instance family_eq_dec : EqDecision AddressFamily.
Proof. solve_decision. Defined.

(** ** Errors *)
Inductive errno := EPROTONOSUPPORT | EINVAL | ENOPROTOOPT | EOPNOTSUPP | EINPROGRESS | EALREADY | EWOULDBLOCK | OtherErrno (z : Z).
Inductive error_kind := Unsupported | AddrInUse | TimedOut | InvalidInput | Other.
Record io_error := mkError { raw_os_error : option errno; kind : error_kind }.

Definition is_mptcp_unavailable_error (e : io_error) : bool :=
  match kind e with Unsupported => true | _ =>
    match raw_os_error e with Some EPROTONOSUPPORT | Some EINVAL | Some ENOPROTOOPT => true | _ => false end
  end.
Definition wrap_mptcp_error (e : io_error) (mptcp : bool) : io_error :=
  if mptcp && is_mptcp_unavailable_error e then mkError None Unsupported else e.

(** ** Sockets *)
Inductive sock_type := Stream | Dgram.
Inductive sock_protocol := PTcp | PMptcp | PUdp.
Record sock := mkSock {
  s_domain : Domain; s_type : sock_type; s_protocol : sock_protocol; s_reuse_address : bool; s_reuse_port : bool;
  s_only_v6 : option bool; s_bound : option SocketAddr; s_shared_at_bind : bool; s_listening : bool;
  s_nonblocking : bool; s_peer : option SocketAddr; s_tos : option Z; s_tclass : option Z;
  s_dont_fragment : option bool; s_flowinfo : bool
}.
Definition fresh_sock (d : Domain) (t : sock_type) (p : sock_protocol) : sock :=
  mkSock d t p false false None None false false false None None None None false.

(** Calls on an open socket.  [FromStd] hands it to the runtime; [Writable]
    waits until a connection under way is up, then asks for its error; a port
    is shared by what was set before the bind, and [IPV6_V6ONLY] counts only
    when it is set before the bind. *)
Inductive op :=
  | SetReuseAddress | SetReusePort | SetOnlyV6 (v : bool) | BindTo (a : SocketAddr) | Listen | SetNonblocking
  | FromStd | Connect (a : SocketAddr) | Writable | TakeError | IpTos (tos : Z) | Ipv6Tclass (tos : Z)
  | MtuDiscoverDo (ipv6 : bool) | FlowInfo.
Definition effect (o : op) (s : sock) : sock :=
  match o with
  | SetReuseAddress => s <| s_reuse_address := true |>
  | SetReusePort => s <| s_reuse_port := true |>
  | SetOnlyV6 v => if is_some (s_bound s) then s else s <| s_only_v6 := Some v |>
  | BindTo a => s <| s_bound := Some a |> <| s_shared_at_bind := s_reuse_address s && s_reuse_port s |>
  | Listen => s <| s_listening := true |>
  | SetNonblocking => s <| s_nonblocking := true |>
  | Connect a => s <| s_peer := Some a |>
  | IpTos tos => s <| s_tos := Some tos |>
  | Ipv6Tclass tos => s <| s_tclass := Some tos |>
  | MtuDiscoverDo ipv6 => s <| s_dont_fragment := Some ipv6 |>
  | FlowInfo => s <| s_flowinfo := true |>
  | FromStd | Writable | TakeError => s
  end.
Definition configured (ops : list op) (s : sock) : sock := fold_left (fun s o => effect o s) ops s.

(** The open sockets, and how many calls were made so far. *)
Record world := mkWorld { sockets : gmap nat sock; next : nat; clock : nat }.
Definition empty_world : world := mkWorld ∅ 0 0.

Section kernel.
(** The kernel's answer to the [n]-th call: opening a socket, or a call on one. *)
Variable opening : nat -> Domain -> sock_type -> sock_protocol -> option io_error.
Variable answer : nat -> sock -> op -> option io_error.

Definition M (A : Type) {E : Type} : Type := world -> result A E * world.
Definition ret {A E} (a : A) : M A (E := E) := fun w => (Ok a, w).
Definition fail {A E} (e : E) : M A (E := E) := fun w => (Err e, w).
Definition bind {A B E} (m : M A (E := E)) (k : A -> M B (E := E)) : M B (E := E) :=
  fun w => match m w with (Ok a, w) => k a w | (Err e, w) => (Err e, w) end.
Definition map_error {A E F} (f : E -> F) (m : M A (E := E)) : M A (E := F) :=
  fun w => let '(r, w) := m w in (map_err f r, w).
Definition lift {A E} (r : result A E) : M A (E := E) := fun w => (r, w).
Definition try_ {A E} (m : M A (E := E)) (k : result A E -> M A (E := E)) : M A (E := E) :=
  fun w => let '(r, w) := m w in k r w.
Notation "'let!' x := m 'in' k" := (bind m (fun x => k))
  (at level 200, x pattern, m at level 200, k at level 200, format "'let!'  x  :=  m  'in' '//' k").

Definition socket_new (d : Domain) (t : sock_type) (p : sock_protocol) : M nat (E := io_error) := fun w =>
  match opening (clock w) d t p with
  | Some e => (Err e, w <| clock ::= S |>)
  | None => (Ok (next w), w <| sockets ::= <[next w := fresh_sock d t p]> |> <| next ::= S |> <| clock ::= S |>)
  end.
Definition call (h : nat) (o : op) : M unit (E := io_error) := fun w =>
  match sockets w !! h with
  | None => (Ok tt, w)
  | Some s =>
    match answer (clock w) s o with
    | Some e => (Err e, w <| clock ::= S |>)
    | None => (Ok tt, w <| sockets ::= <[h := effect o s]> |> <| clock ::= S |>)
    end
  end.
(** An error while the socket is owned drops it. *)
Definition owning {A E} (h : nat) (m : M A (E := E)) : M A (E := E) := fun w =>
  match m w with (Ok a, w) => (Ok a, w) | (Err e, w) => (Err e, w <| sockets ::= delete h |>) end.
(** A socket owned by a scope is closed however the scope ends. *)
Definition scoped {A E} (open : M nat (E := E)) (body : nat -> M A (E := E)) : M A (E := E) := fun w =>
  match open w with
  | (Err e, w) => (Err e, w)
  | (Ok h, w) => let '(r, w) := body h w in (r, w <| sockets ::= delete h |>)
  end.

Fixpoint calls (h : nat) (ops : list op) : M nat (E := io_error) :=
  match ops with
  | [] => ret h
  | o :: ops => let! _ := call h o in calls h ops
  end.
(** Open a socket and set it up, each step checked. *)
Definition opened (d : Domain) (t : sock_type) (p : sock_protocol) (ops : list op) : M nat (E := io_error) :=
  let! h := socket_new d t p in owning h (calls h ops).

(** ** Listeners *)
Definition validate_mptcp : M unit (E := io_error) :=
  scoped
    (map_error (fun e => if is_mptcp_unavailable_error e then mkError None Unsupported else e)
       (socket_new IPV4 Stream PMptcp))
    (fun _ => ret tt).

Definition tcp_protocol (mptcp : bool) : sock_protocol := if mptcp then PMptcp else PTcp.

Definition only_v6_ops (addr : SocketAddr) (family : AddressFamily) : list op :=
  if is_ipv4 addr then []
  else [SetOnlyV6 (if is_unspecified (sa_ip addr) then bool_decide (family = V6Only) else true)].
Definition family_v6_ops (family : AddressFamily) : list op :=
  match family with V4Only => [] | _ => [SetOnlyV6 (bool_decide (family = V6Only))] end.

Definition listen_ops (addr : SocketAddr) : list op := [BindTo addr; Listen; SetNonblocking; FromStd].

Definition create_tcp_listener (port : Z) (family : AddressFamily) (mptcp : bool) : M nat (E := io_error) :=
  let! h := map_error (fun e => wrap_mptcp_error e mptcp) (socket_new (domain family) Stream (tcp_protocol mptcp)) in
  owning h (calls h (SetReuseAddress :: family_v6_ops family ++ listen_ops (bind_addr family port))).

Definition addr_domain (addr : SocketAddr) : Domain := if is_ipv4 addr then IPV4 else IPV6.
Definition on_addr_ops (addr : SocketAddr) (family : AddressFamily) : list op :=
  SetReuseAddress :: only_v6_ops addr family ++ listen_ops addr.
(** MPTCP first; without it, plain TCP. *)
Definition or_plain (mptcp plain : M nat (E := io_error)) : M nat (E := io_error) :=
  try_ mptcp (fun r => match r with
                       | Ok h => ret h
                       | Err e => if is_mptcp_unavailable_error e then plain else fail e
                       end).
Definition create_tcp_listener_on_addr (addr : SocketAddr) (family : AddressFamily) : M nat (E := io_error) :=
  or_plain (opened (addr_domain addr) Stream PMptcp (on_addr_ops addr family))
    (opened (addr_domain addr) Stream PTcp (on_addr_ops addr family)).
Definition create_tcp_listener_auto_mptcp (port : Z) (family : AddressFamily) : M nat (E := io_error) :=
  or_plain (create_tcp_listener port family true) (create_tcp_listener port family false).

(** ** UDP sockets *)
Definition addr_reuse_ops (port : Z) : list op := if negb (port =? 0) then [SetReuseAddress] else [].

Definition create_udp_socket (port : Z) (family : AddressFamily) : M nat (E := io_error) :=
  opened (domain family) Dgram PUdp
    (addr_reuse_ops port ++ family_v6_ops family ++ [BindTo (bind_addr family port); SetNonblocking; FromStd]).
Definition create_udp_socket_bound (addr : SocketAddr) (family : AddressFamily) : M nat (E := io_error) :=
  opened (addr_domain addr) Dgram PUdp
    (addr_reuse_ops (sa_port addr) ++ only_v6_ops addr family ++ [BindTo addr; SetNonblocking; FromStd]).
Definition create_udp_socket_for_remote (remote : SocketAddr) : M nat (E := io_error) :=
  opened (addr_domain remote) Dgram PUdp
    ((if is_ipv4 remote then [BindTo (sa_new (V4 0) 0)] else [SetOnlyV6 false; BindTo (sa_new (V6 0) 0)])
     ++ [SetNonblocking; FromStd]).

(** Sockets that share a port. *)
Definition reuseport_ops (addr : SocketAddr) (v6only : option bool) : list op :=
  [SetReuseAddress; SetReusePort]
  ++ match v6only with Some v => if negb (is_ipv4 addr) then [SetOnlyV6 v] else [] | None => [] end.
Definition create_shared_udp_socket (addr : SocketAddr) (v6only : option bool) : M nat (E := io_error) :=
  opened (addr_domain addr) Dgram PUdp (reuseport_ops addr v6only ++ [BindTo addr; SetNonblocking; FromStd]).
Definition create_connected_udp_same_port (local : SocketAddr) (v6only : option bool) (peer : SocketAddr) : M nat (E := io_error) :=
  opened (addr_domain local) Dgram PUdp
    (reuseport_ops local v6only ++ [BindTo local; SetNonblocking; FromStd; Connect peer]).

(** ** The client's TCP connection *)
Definition in_progress (e : io_error) : bool :=
  match raw_os_error e with Some EINPROGRESS | Some EALREADY | Some EWOULDBLOCK => true | _ => false end.
Definition bind_ops (bind : option SocketAddr) : list op :=
  match bind with
  | None => []
  | Some local =>
    addr_reuse_ops (sa_port local)
    ++ (if is_ipv4 local then [] else [SetOnlyV6 (negb (is_unspecified (sa_ip local)))]) ++ [BindTo local]
  end.
Definition start_connect (h : nat) (remote : SocketAddr) (mptcp : bool) : M unit (E := io_error) := fun w =>
  match call h (Connect remote) w with
  | (Err e, w) => if in_progress e
                  then (Ok tt, w <| sockets ::= alter (effect (Connect remote)) h |>)
                  else (Err (wrap_mptcp_error e mptcp), w)
  | r => r
  end.
(** Without an address of our own the connection is tokio's, one open and one
    awaited connect. *)
Definition connect_tcp_with_bind (remote : SocketAddr) (bind : option SocketAddr) (mptcp : bool) : M nat (E := io_error) :=
  if is_some bind || mptcp then
    let! h := map_error (fun e => wrap_mptcp_error e mptcp) (socket_new (addr_domain remote) Stream (tcp_protocol mptcp)) in
    owning h
      (let! _ := calls h (SetNonblocking :: bind_ops bind) in
       let! _ := start_connect h remote mptcp in
       let! _ := calls h [FromStd; Writable] in
       let! _ := map_error (fun e => wrap_mptcp_error e mptcp) (call h TakeError) in
       ret h)
  else opened (addr_domain remote) Stream PTcp [SetNonblocking; Connect remote].

(** ** Marking, fragmentation and flow labels *)
Definition ip_tos_on_ipv6_unsupported (err : io_error) : bool :=
  match raw_os_error err with Some ENOPROTOOPT | Some EOPNOTSUPP => true | _ => false end.
Definition set_tos_on_fd (h : nat) (tos : Z) (ipv6 : bool) : M unit (E := io_error) :=
  if ipv6 then
    let! _ := call h (Ipv6Tclass tos) in
    try_ (call h (IpTos tos))
      (fun r => match r with
                | Ok _ => ret tt
                | Err err => if ip_tos_on_ipv6_unsupported err then ret tt else fail err
                end)
  else call h (IpTos tos).
(** [set_tos_on_tcp], [set_tos_on_udp]: the address the socket is bound to. *)
Definition set_tos (h : nat) (local_addr : result SocketAddr io_error) (tos : Z) : M unit (E := io_error) :=
  set_tos_on_fd h tos (match local_addr with Ok a => is_ipv6 a | Err _ => false end).
Definition set_dont_fragment (h : nat) (ipv6 : bool) : M unit (E := io_error) := call h (MtuDiscoverDo ipv6).
Definition set_flow_label (h : nat) (flow_label : Z) : M unit (E := io_error) :=
  if flow_label >? 0xFFFFF then fail (mkError None InvalidInput) else call h FlowInfo.

(** ** The self-test of single-port UDP *)
Definition PROBE : list Z := txt "xfr-single-port-self-test".
(** What one round sees: the peer's port, whether its datagrams are sent, and
    what happens first after each. *)
Inductive arrival := OnConnected (r : result (list Z) io_error) | OnShared (r : result (list Z) io_error) | Nothing.
Record round := mkRound {
  peer_port : result Z io_error; first_send : result unit io_error; first : arrival;
  second_send : result unit io_error; second : arrival
}.
Definition other_error : io_error := mkError None Other.
Definition timed_out : io_error := mkError None TimedOut.
Definition expect (r : result (list Z) io_error) : result unit io_error :=
  let? bytes := r in if bool_decide (bytes = PROBE) then Ok tt else Err other_error.
Definition first_verdict (a : arrival) : result unit io_error :=
  match a with OnConnected r => expect r | OnShared _ => Err other_error | Nothing => Err timed_out end.
Definition second_verdict (a : arrival) : result unit io_error :=
  match a with OnShared r => expect r | OnConnected _ => Err other_error | Nothing => Err timed_out end.

Definition mapped (map_peer : bool) (a : SocketAddr) : SocketAddr :=
  match map_peer, sa_ip a with
  | true, V4 v4 => sa_new (V6 (65535 * 2 ^ 32 + v4)) (sa_port a)
  | _, _ => a
  end.
Definition loopback_socket (ip : IpAddr) : M nat (E := io_error) :=
  opened (addr_domain (sa_new ip 0)) Dgram PUdp [BindTo (sa_new ip 0); SetNonblocking; FromStd].

Definition check_connected_precedence (obs : round) (v6only : option bool) (peer_loopback : IpAddr) (port : Z)
    (map_peer : bool) : M unit (E := io_error) :=
  scoped (loopback_socket peer_loopback) (fun _ =>
    let! p := lift (peer_port obs) in
    scoped (create_connected_udp_same_port (mapped map_peer (sa_new peer_loopback port)) v6only
              (mapped map_peer (sa_new peer_loopback p))) (fun _ =>
      let! _ := lift (first_send obs) in
      let! _ := lift (first_verdict (first obs)) in
      scoped (loopback_socket peer_loopback) (fun _ =>
        let! _ := lift (second_send obs) in
        lift (second_verdict (second obs))))).

Definition LOCALHOST_V4 : IpAddr := V4 2130706433.
Definition LOCALHOST_V6 : IpAddr := V6 1.
Definition v6only_of (family : AddressFamily) : option bool :=
  match family with V4Only => None | V6Only => Some true | DualStack => Some false end.

Record self_test_obs := mkObs { shared_port : result Z io_error; native : round; ipv4 : round }.
Definition single_port_udp_self_test_inner (obs : self_test_obs) (family : AddressFamily) : M unit (E := io_error) :=
  scoped (create_shared_udp_socket (bind_addr family 0) (v6only_of family)) (fun _ =>
    let! port := lift (shared_port obs) in
    let native_loopback := match family with V4Only => LOCALHOST_V4 | _ => LOCALHOST_V6 end in
    let! _ := check_connected_precedence (native obs) (v6only_of family) native_loopback port false in
    match family with
    | DualStack => check_connected_precedence (ipv4 obs) (v6only_of family) LOCALHOST_V4 port true
    | _ => ret tt
    end).
Definition single_port_udp_self_test {E} (obs : self_test_obs) (family : AddressFamily) : M bool (E := E) :=
  fun w => let '(r, w) := single_port_udp_self_test_inner obs family w in (Ok (is_ok r), w).

(** ** The server's listeners (serve.rs) *)
Inductive startup_error :=
  | BadConfig (e : Serve.config_error) | PortTaken (message : str) | SocketFailed (e : io_error) | QuicFailed (e : str)
  | AclFailed (e : acl_error).

(** A taken port is named, with a command line that avoids it. *)
Definition startup_bind_error (e : io_error) (addr : SocketAddr) (bind : option IpAddr) (quic : bool) : startup_error :=
  match kind e with
  | AddrInUse =>
    let host := match addr with SaV4 ip _ => show_ipv4 ip | SaV6 ip _ _ _ => txt "[" ++ show_ipv6 ip ++ txt "]" end in
    PortTaken
      ((if quic then txt "UDP port " else txt "port ") ++ dec (sa_port addr) ++ txt " is already in use on " ++ host
       ++ (if quic then txt " (QUIC)" else []) ++ txt " (another xfr or iperf3 server?). Pick another port with -p, e.g. xfr serve "
       ++ match bind with Some ip => txt "--bind " ++ Cli.show_ip ip ++ txt " " | None => [] end
       ++ txt "-p " ++ dec (next_port (sa_port addr)))
  | _ => SocketFailed e
  end.

Inductive endpoint_error := Tls (e : str) | EndpointSocket (e : io_error).
(** The certificate and the configuration of rustls and quinn, before and
    after the socket. *)
Variables (tls endpoint_ready : result unit str).
Definition endpoint_ops (addr : SocketAddr) (family : AddressFamily) (hello : bool) : list op :=
  family_v6_ops family ++ (if hello then [SetReuseAddress; SetReusePort] else []) ++ [BindTo addr; SetNonblocking].
Definition create_server_endpoint (addr : SocketAddr) (family : AddressFamily) (hello : bool) : M nat (E := endpoint_error) :=
  let! _ := lift (map_err Tls tls) in
  let! h := map_error EndpointSocket (opened (domain family) Dgram PUdp (endpoint_ops addr family hello)) in
  owning h (let! _ := lift (map_err Tls endpoint_ready) in ret h).
Definition endpoint_bind_error (e : endpoint_error) (addr : SocketAddr) (bind : option IpAddr) : startup_error :=
  match e with Tls e => QuicFailed e | EndpointSocket e => startup_bind_error e addr bind true end.

Section server.
Context {IpNetwork : Type}.
Variable parse_network : list Z -> option IpNetwork.
(** The rules file, read beforehand when configured. *)
Variable acl_file : option (result (list Z) unit).
Variables (obs : self_test_obs) (c : ServerConfig).
Notation port := (sc_port c).
Notation family := (sc_address_family c).

Record started := mkStarted {
  listener : nat; endpoint : option nat; hello_socket : option nat; hello_lane : bool; capabilities : list str;
  security : SecurityContext (IpNetwork := IpNetwork); limiter : option RateLimiter;
  handler_permits : Z; conn_permits : Z
}.

Definition control_addr : SocketAddr :=
  match sc_bind_addr c with Some ip => sa_new ip port | None => bind_addr family port end.
Definition open_listener : M nat (E := startup_error) :=
  map_error (fun e => startup_bind_error e control_addr (sc_bind_addr c) false)
    (match sc_bind_addr c with
     | Some _ => create_tcp_listener_on_addr control_addr family
     | None => create_tcp_listener_auto_mptcp port family
     end).
Definition owning_option {A E} (o : option nat) (m : M A (E := E)) : M A (E := E) :=
  match o with Some h => owning h m | None => m end.
Definition open_endpoint (hello : bool) : M (option nat) (E := startup_error) :=
  if enable_quic c then
    let! h := map_error (fun e => endpoint_bind_error e control_addr (sc_bind_addr c))
                (create_server_endpoint control_addr family hello) in
    ret (Some h)
  else ret None.
(** Without QUIC the hello lane has a socket of its own, which a task of its own
    keeps from then on; failing to bind it is a warning. *)
Definition open_hello_socket (self_test_ok : bool) : M (option nat) (E := startup_error) :=
  if self_test_ok && negb (enable_quic c) then
    fun w => match create_shared_udp_socket control_addr (v6only_of family) w with
             | (Ok h, w) => (Ok (Some h), w)
             | (Err _, w) => (Ok None, w)
             end
  else ret None.

(** What the sockets come to once the access rules are read: the capability is
    offered only where the lane is up. *)
Definition assemble (listener : nat) (endpoint hello_socket : option nat) (self_test_ok : bool) : result started startup_error :=
  let hello_lane := self_test_ok && (enable_quic c || is_some hello_socket) in
  let capabilities := if hello_lane then supported_capabilities
                      else supported_capabilities_without SINGLE_PORT_UDP_CAPABILITY in
  let? acl := map_err AclFailed (Acl.build parse_network (mkAclConfig (acl_allow c) (acl_deny c) acl_file)) in
  let? preset := map_err AclFailed (build_preset_acl parse_network (preset_allowed_clients c)) in
  Ok (mkStarted listener endpoint hello_socket hello_lane capabilities (mkSecurity acl preset)
        (RateLimit.build (rate_limit c)) (max_concurrent c) (max_concurrent c * 4)).
Definition start_server : M started (E := startup_error) :=
  let! _ := lift (map_err BadConfig (Serve.validate c)) in
  let! listener := open_listener in
  owning listener
    (let! self_test_ok := single_port_udp_self_test obs family in
     let! endpoint := open_endpoint self_test_ok in
     owning_option endpoint
       (let! hello_socket := open_hello_socket self_test_ok in
        lift (assemble listener endpoint hello_socket self_test_ok))).
End server.

(** ** What programs over sockets do

    [wf]: the next handle is fresh.  [opens P m]: [m] opens one socket, as [P]
    says, or fails and leaves the open sockets as they were.  [quiet m]: [m]
    leaves them as they were.  [on h Q m]: [m] only changes the socket [h], and
    when it succeeds as [Q] says. *)
Definition wf (w : world) : Prop := forall h s, sockets w !! h = Some s -> (h < next w)%nat.

Definition opens {E} (P : sock -> Prop) (m : M nat (E := E)) : Prop :=
  forall w, wf w ->
  wf (snd (m w)) /\
  match fst (m w) with
  | Ok h => sockets w !! h = None /\ exists s, P s /\ sockets (snd (m w)) = <[h := s]> (sockets w)
  | Err _ => sockets (snd (m w)) = sockets w
  end.
Definition quiet {A E} (m : M A (E := E)) : Prop :=
  forall w, wf w -> wf (snd (m w)) /\ sockets (snd (m w)) = sockets w.
Definition on {A E} (h : nat) (Q : sock -> A -> sock -> Prop) (m : M A (E := E)) : Prop :=
  forall w s, wf w -> sockets w !! h = Some s ->
  wf (snd (m w)) /\ exists s', sockets (snd (m w)) = <[h := s']> (sockets w) /\
  match fst (m w) with Ok a => Q s a s' | Err _ => True end.

Lemma wf_lt w h s : wf w -> sockets w !! h = Some s -> (h < next w)%nat.
Proof. intros Hw. apply Hw. Qed.
Lemma wf_fresh w : wf w -> sockets w !! next w = None.
Proof. intros Hw. destruct (sockets w !! next w) eqn:E; [|done]. apply Hw in E. lia. Qed.
Lemma wf_ext w w' : wf w -> sockets w' = sockets w -> next w' = next w -> wf w'.
Proof. unfold wf. by intros Hw -> ->. Qed.
Lemma wf_update w h s s' : wf w -> sockets w !! h = Some s -> wf (w <| sockets ::= <[h := s']> |>).
Proof. intros Hw Hs k t Hk. cbn in *. apply lookup_insert_Some in Hk as [[<- _]|[_ Hk]]; eauto using wf_lt. Qed.
Lemma wf_delete w h : wf w -> wf (w <| sockets ::= delete h |>).
Proof. intros Hw k t Hk. cbn in *. apply lookup_delete_Some in Hk as [_ Hk]. eauto using wf_lt. Qed.

(** *** Opening *)
Lemma socket_new_opens d t p : opens (eq (fresh_sock d t p)) (socket_new d t p).
Proof.
  intros w Hw. unfold socket_new. destruct (opening _ _ _ _) as [e|]; cbn; [done|]. split_and!.
  - intros k s Hk. cbn in *. apply lookup_insert_Some in Hk as [[<- _]|[_ Hk]]; [lia|]. apply Hw in Hk. lia.
  - by apply wf_fresh.
  - by eexists.
Qed.
Lemma opens_error {E F} (f : E -> F) P m : opens P m -> opens P (map_error f m).
Proof.
  intros Hm w Hw. specialize (Hm w Hw). unfold map_error. destruct (m w) as [[h|e] w']; exact Hm.
Qed.
Lemma opens_weaken {E} (P Q : sock -> Prop) (m : M nat (E := E)) :
  (forall s, P s -> Q s) -> opens P m -> opens Q m.
Proof.
  intros HPQ Hm w Hw. destruct (Hm w Hw) as [Hw' H]. split; [done|].
  destruct (fst (m w)); [|done]. destruct H as (Hn & s & Hs & Heq). eauto 6.
Qed.

(** *** On one socket *)
Lemma call_on h o : on h (fun s _ s' => s' = effect o s) (call h o).
Proof.
  intros w s Hw Hs. unfold call. rewrite Hs. destruct (answer _ _ _) as [e|]; cbn.
  - split; [done|]. exists s. by rewrite insert_id.
  - split; [by apply (wf_update w h s)|]. by eexists.
Qed.
Lemma on_ret {A E} h (a : A) : on h (fun s b s' => s' = s /\ b = a) (ret a (E := E)).
Proof. intros w s Hw Hs. cbn. split; [done|]. exists s. by rewrite insert_id. Qed.
Lemma on_bind {A B E} h Q R (m : M A (E := E)) (k : A -> M B (E := E)) :
  on h Q m -> (forall a, on h (R a) (k a)) ->
  on h (fun s b s' => exists a t, Q s a t /\ R a t b s') (bind m k).
Proof.
  intros Hm Hk w s Hw Hs. destruct (Hm w s Hw Hs) as (Hw1 & t & Ht & HQ). unfold bind.
  destruct (m w) as [[a|e] w1]; cbn in *; [|eauto].
  destruct (Hk a w1 t Hw1) as (Hw2 & s' & Hs' & HR); [by rewrite Ht, lookup_insert_eq|].
  split; [done|]. exists s'. rewrite Hs', Ht, insert_insert_eq. split; [done|]. destruct (fst _); eauto.
Qed.
Lemma on_weaken {A E} h (Q R : sock -> A -> sock -> Prop) (m : M A (E := E)) :
  (forall s a s', Q s a s' -> R s a s') -> on h Q m -> on h R m.
Proof.
  intros HQR Hm w s Hw Hs. destruct (Hm w s Hw Hs) as (? & s' & ? & HQ). split; [done|]. exists s'.
  split; [done|]. destruct (fst _); auto.
Qed.
Lemma on_error {A E F} h (f : E -> F) Q (m : M A (E := E)) : on h Q m -> on h Q (map_error f m).
Proof. intros Hm w s Hw Hs. specialize (Hm w s Hw Hs). unfold map_error. by destruct (m w) as [[|] ?]. Qed.
Lemma calls_on h ops : on h (fun s a s' => a = h /\ s' = configured ops s) (calls h ops).
Proof.
  induction ops as [|o ops IH]; cbn [calls].
  - eapply on_weaken; [|apply on_ret]. cbn. by intros s a s' [-> ->].
  - eapply on_weaken; [|apply on_bind; [apply call_on|intros ?; exact IH]]. cbn.
    by intros s a s' (_ & t & -> & -> & ->).
Qed.

(** A socket is opened, then set up by its owner. *)
Lemma owning_opens {E} (P R : sock -> Prop) (Q : sock -> nat -> sock -> Prop) (m : M nat (E := E)) (k : nat -> M nat (E := E)) :
  opens P m -> (forall h, on h (fun s a s' => a = h /\ Q s a s') (k h)) -> (forall h s s', P s -> Q s h s' -> R s') ->
  opens R (let! h := m in owning h (k h)).
Proof.
  intros Hm Hk HR w Hw. destruct (Hm w Hw) as [Hw1 H]. unfold bind, owning.
  destruct (m w) as [[h|e] w1]; cbn in *; [|done]. destruct H as (Hn & s & Hs & Heq).
  destruct (Hk h w1 s Hw1) as (Hw2 & s' & Heq' & Ha); [by rewrite Heq, lookup_insert_eq|].
  rewrite Heq, insert_insert_eq in Heq'. destruct (k h w1) as [[a|e] w2]; cbn in *.
  - destruct Ha as [-> HQ]. eauto 8.
  - split; [by apply wf_delete|]. by rewrite Heq', delete_insert_id.
Qed.
Lemma set_up_opens {P : sock -> Prop} {m} ops : opens P m ->
  opens (fun s' => exists s, P s /\ s' = configured ops s) (let! h := m in owning h (calls h ops)).
Proof.
  intros Hm. eapply (owning_opens _ _ (fun s _ s' => s' = configured ops s)); [done|intros h; apply calls_on|eauto].
Qed.
Lemma opened_opens d t p ops : opens (eq (configured ops (fresh_sock d t p))) (opened d t p ops).
Proof. eapply opens_weaken; [|eapply set_up_opens, socket_new_opens]. by intros s (? & <- & ->). Qed.
Lemma or_plain_opens P m m' : opens P m -> opens P m' -> opens P (or_plain m m').
Proof.
  intros Hm Hm' w Hw. destruct (Hm w Hw) as [Hw1 H]. unfold or_plain, try_.
  destruct (m w) as [[h|e] w1]; cbn in *; [done|]. destruct (is_mptcp_unavailable_error e); [|done].
  destruct (Hm' w1 Hw1) as [Hw2 H']. rewrite H in H'. done.
Qed.

(** *** Leaving no trace *)
Lemma quiet_ret {A E} (a : A) : quiet (ret a (E := E)).
Proof. done. Qed.
Lemma quiet_lift {A E} (r : result A E) : quiet (lift r).
Proof. done. Qed.
Lemma quiet_bind {A B E} (m : M A (E := E)) (k : A -> M B (E := E)) :
  quiet m -> (forall a, quiet (k a)) -> quiet (bind m k).
Proof.
  intros Hm Hk w Hw. destruct (Hm w Hw) as [Hw1 H]. unfold bind. destruct (m w) as [[a|e] w1]; cbn in *; [|done].
  rewrite <- H. by apply Hk.
Qed.
Lemma quiet_scoped {A E} P (m : M nat (E := E)) (body : nat -> M A (E := E)) :
  opens P m -> (forall h, quiet (body h)) -> quiet (scoped m body).
Proof.
  intros Hm Hb w Hw. destruct (Hm w Hw) as [Hw1 H]. unfold scoped. destruct (m w) as [[h|e] w1]; cbn in *; [|done].
  destruct H as (Hn & s & _ & Hs). destruct (Hb h w1 Hw1) as [Hw2 H]. destruct (body h w1) as [r w2]. cbn in *.
  split; [by apply wf_delete|]. by rewrite H, Hs, delete_insert_id.
Qed.

(** ** The sockets *)

(** What the users of a socket rely on. *)
Record promised (t : sock_type) (local : option SocketAddr) (peer : option SocketAddr) (reuse shared : bool) (s : sock) : Prop := mkPromised {
  is_type : s_type s = t;
  is_bound : s_bound s = local;
  is_family : forall a, local = Some a -> s_domain s = addr_domain a;
  is_connected : s_peer s = peer;
  is_reusing : s_reuse_address s = reuse;
  is_shared : s_shared_at_bind s = shared;
  is_nonblocking : s_nonblocking s = true
}.
Definition listening (local : SocketAddr) (s : sock) : Prop :=
  promised Stream (Some local) None true false s /\ s_listening s = true.
(** Whether IPv4 reaches a socket of the family bound to an IPv6 address. *)
Definition takes_ipv4 (family : AddressFamily) (local : SocketAddr) (s : sock) : Prop :=
  s_only_v6 s = if is_ipv4 local then None
                else Some (negb (is_unspecified (sa_ip local)) || bool_decide (family = V6Only)).
(** The choice of an IPv6 socket, set as asked; an IPv4 one has none. *)
Definition only_v6_as (choice : option bool) (local : SocketAddr) (s : sock) : Prop :=
  s_only_v6 s = if is_ipv4 local then None else choice.

Ltac configure :=
  eapply opens_weaken; [|apply opened_opens]; intros s <-; repeat split; by intros ? [= <-].

Lemma udp_socket_opens port family :
  opens (fun s => promised Dgram (Some (bind_addr family port)) None (negb (port =? 0)) false s /\
                  takes_ipv4 family (bind_addr family port) s) (create_udp_socket port family).
Proof. unfold create_udp_socket, addr_reuse_ops. destruct (port =? 0), family; configure. Qed.
Lemma udp_socket_bound_opens addr family :
  opens (fun s => promised Dgram (Some addr) None (negb (sa_port addr =? 0)) false s /\ takes_ipv4 family addr s)
    (create_udp_socket_bound addr family).
Proof.
  unfold create_udp_socket_bound, addr_reuse_ops, only_v6_ops, takes_ipv4.
  destruct (sa_port addr =? 0) eqn:?, addr; cbn [is_ipv4 sa_ip]; try destruct (is_unspecified _); configure.
Qed.
Lemma udp_socket_for_remote_opens remote :
  opens (fun s => promised Dgram (Some (sa_new (if is_ipv4 remote then V4 0 else V6 0) 0)) None false false s /\
                  only_v6_as (Some false) remote s) (create_udp_socket_for_remote remote).
Proof. unfold create_udp_socket_for_remote. destruct remote; configure. Qed.
Lemma shared_udp_opens addr v6only :
  opens (fun s => promised Dgram (Some addr) None true true s /\ only_v6_as v6only addr s)
    (create_shared_udp_socket addr v6only).
Proof. unfold create_shared_udp_socket, reuseport_ops. destruct v6only, addr; configure. Qed.
Lemma connected_udp_opens local v6only peer :
  opens (fun s => promised Dgram (Some local) (Some peer) true true s /\ only_v6_as v6only local s)
    (create_connected_udp_same_port local v6only peer).
Proof. unfold create_connected_udp_same_port, reuseport_ops. destruct v6only, local; configure. Qed.

Lemma tcp_listener_opens port family mptcp :
  opens (fun s => listening (bind_addr family port) s /\ takes_ipv4 family (bind_addr family port) s)
    (create_tcp_listener port family mptcp).
Proof.
  eapply opens_weaken; [|eapply set_up_opens, opens_error, socket_new_opens].
  intros s (? & <- & ->). destruct family; repeat split; by intros ? [= <-].
Qed.
Lemma tcp_listener_on_addr_opens addr family :
  opens (fun s => listening addr s /\ takes_ipv4 family addr s) (create_tcp_listener_on_addr addr family).
Proof.
  apply or_plain_opens; unfold on_addr_ops, only_v6_ops, takes_ipv4;
    destruct addr; cbn [is_ipv4 sa_ip]; try destruct (is_unspecified _); configure.
Qed.
Lemma tcp_listener_auto_opens port family :
  opens (fun s => listening (bind_addr family port) s /\ takes_ipv4 family (bind_addr family port) s)
    (create_tcp_listener_auto_mptcp port family).
Proof. apply or_plain_opens; apply tcp_listener_opens. Qed.

(** *** The client's connection *)
Lemma alter_present {A} (f : A -> A) (m : gmap nat A) h s : m !! h = Some s -> alter f h m = <[h := f s]> m.
Proof. intros Hs. rewrite <- (insert_id m h s Hs) at 1. apply alter_insert_eq. Qed.

Lemma start_connect_on h remote mptcp : on h (fun s _ s' => s' = effect (Connect remote) s) (start_connect h remote mptcp).
Proof.
  intros w s Hw Hs. unfold start_connect, call. rewrite Hs.
  pose proof (wf_update w h s (effect (Connect remote) s) Hw Hs) as Hup. destruct (answer _ _ _) as [e|]; cbn.
  - destruct (in_progress e); cbn.
    + pose proof (alter_present (effect (Connect remote)) _ _ _ Hs) as Ha.
      split; [by apply (wf_ext _ _ Hup)|by eexists].
    + split; [done|]. exists s. by rewrite insert_id.
  - split; [exact Hup|by eexists].
Qed.

Definition connection (remote : SocketAddr) (bind : option SocketAddr) (mptcp : bool) (s : sock) : Prop :=
  s_type s = Stream /\ s_domain s = addr_domain remote /\ s_protocol s = tcp_protocol mptcp /\
  s_peer s = Some remote /\ s_bound s = bind /\ s_nonblocking s = true /\
  s_reuse_address s = match bind with Some local => negb (sa_port local =? 0) | None => false end /\
  match bind with
  | Some local => only_v6_as (Some (negb (is_unspecified (sa_ip local)))) local s
  | None => s_only_v6 s = None
  end.

Lemma bind_ops_configured remote bind mptcp :
  connection remote bind mptcp (effect (Connect remote) (configured (SetNonblocking :: bind_ops bind)
    (fresh_sock (addr_domain remote) Stream (tcp_protocol mptcp)))).
Proof.
  destruct bind as [local|]; [|done]. unfold connection, bind_ops, addr_reuse_ops.
  by destruct (sa_port local =? 0), local.
Qed.

Lemma finish_connect_on h remote mptcp :
  on h (fun s a s' => a = h /\ s' = effect (Connect remote) s)
    (let! _ := start_connect h remote mptcp in
     let! _ := calls h [FromStd; Writable] in
     let! _ := map_error (fun e => wrap_mptcp_error e mptcp) (call h TakeError) in
     ret h).
Proof.
  eapply on_weaken; [|apply on_bind; [apply start_connect_on|intros ?; apply on_bind; [apply calls_on|intros ?;
    apply on_bind; [apply on_error, call_on|intros ?; apply on_ret]]]].
  by intros s a s' (_ & t & -> & _ & u & [_ ->] & _ & v & -> & -> & ->).
Qed.
Lemma connect_tcp_opens remote bind mptcp :
  opens (connection remote bind mptcp) (connect_tcp_with_bind remote bind mptcp).
Proof.
  unfold connect_tcp_with_bind. destruct (is_some bind || mptcp) eqn:Hb.
  - eapply (owning_opens _ _ (fun s _ s' => s' = effect (Connect remote) (configured (SetNonblocking :: bind_ops bind) s)));
      [apply opens_error, socket_new_opens|..].
    + intros h. eapply on_weaken; [|apply on_bind; [apply calls_on|intros ?; apply finish_connect_on]].
      by intros s a s' (_ & t & [_ ->] & -> & ->).
    + intros h s s' <- ->. apply bind_ops_configured.
  - destruct bind, mptcp; [done..|]. eapply opens_weaken; [|apply opened_opens]. by intros s <-.
Qed.

(** C23. Every function that opens a socket hands over exactly the socket its
    users rely on, or fails with none of its own left open, whatever the
    kernel refuses: a listener listens where it was told; a data socket
    reuses an address only for a port that was chosen, never for one the
    kernel picks; a socket of the single-port lane shares its port from before
    the bind; a connection is bound and protected as asked and goes to its
    remote, even while the kernel is still connecting.  [IPV6_V6ONLY] is set
    before the bind on every IPv6 socket that is bound here and on no IPv4 one: a
    listener or data socket takes IPv4 as its family and address say, a socket
    towards a remote always allows it, one of the lane follows the flag it was
    given, and one bound for a connection allows it exactly when its address is
    the wildcard. *)
Theorem sockets_as_promised :
  (forall port family,
     let local := bind_addr family port in
     opens (fun s => listening local s /\ takes_ipv4 family local s) (create_tcp_listener_auto_mptcp port family) /\
     opens (fun s => promised Dgram (Some local) None (negb (port =? 0)) false s /\ takes_ipv4 family local s)
       (create_udp_socket port family)) /\
  (forall local family,
     opens (fun s => listening local s /\ takes_ipv4 family local s) (create_tcp_listener_on_addr local family) /\
     opens (fun s => promised Dgram (Some local) None (negb (sa_port local =? 0)) false s /\ takes_ipv4 family local s)
       (create_udp_socket_bound local family)) /\
  (forall remote,
     opens (fun s => promised Dgram (Some (sa_new (if is_ipv4 remote then V4 0 else V6 0) 0)) None false false s /\
                     only_v6_as (Some false) remote s) (create_udp_socket_for_remote remote)) /\
  (forall local v6only peer,
     opens (fun s => promised Dgram (Some local) None true true s /\ only_v6_as v6only local s)
       (create_shared_udp_socket local v6only) /\
     opens (fun s => promised Dgram (Some local) (Some peer) true true s /\ only_v6_as v6only local s)
       (create_connected_udp_same_port local v6only peer)) /\
  (forall remote local mptcp, opens (connection remote local mptcp) (connect_tcp_with_bind remote local mptcp)).
Proof.
  split_and!.
  - intros port family. split; [apply tcp_listener_auto_opens|apply udp_socket_opens].
  - intros local family. split; [apply tcp_listener_on_addr_opens|apply udp_socket_bound_opens].
  - apply udp_socket_for_remote_opens.
  - intros local v6only peer. split; [apply shared_udp_opens|apply connected_udp_opens].
  - apply connect_tcp_opens.
Qed.

(** *** Marking a socket *)
Lemma call_unless_on h o (ignored : io_error -> bool) :
  on h (fun s _ s' => s' = s \/ s' = effect o s)
    (try_ (call h o) (fun r => match r with Ok _ => ret tt | Err e => if ignored e then ret tt else fail e end)).
Proof.
  intros w s Hw Hs. unfold try_, call. rewrite Hs. pose proof (wf_update w h s (effect o s) Hw Hs) as Hup.
  destruct (answer _ _ _) as [e|]; cbn; [|split; [exact Hup|eauto]].
  destruct (ignored e); cbn; (split; [done|]); exists s; rewrite insert_id by done; auto.
Qed.
(** A mark covers the traffic of the socket's own family; an IPv6 socket that
    carries IPv4 too is marked for both where the kernel can. *)
Lemma set_tos_marks h local_addr tos :
  on h (fun s _ s' => if match local_addr with Ok a => is_ipv6 a | Err _ => false end
                      then s_tclass s' = Some tos /\ (s_tos s' = Some tos \/ s_tos s' = s_tos s)
                      else s_tos s' = Some tos) (set_tos h local_addr tos).
Proof.
  unfold set_tos, set_tos_on_fd. destruct (match local_addr with Ok _ => _ | Err _ => _ end).
  - eapply on_weaken; [|apply on_bind; [apply call_on|intros ?; apply call_unless_on]].
    cbn. intros s a s' (_ & t & -> & [->| ->]); auto.
  - eapply on_weaken; [|apply call_on]. by intros s a s' ->.
Qed.

(** ** The self-test *)
Lemma bind_runs {A B E} (m : M A (E := E)) (k : A -> M B (E := E)) w b w' :
  bind m k w = (Ok b, w') -> exists a w1, m w = (Ok a, w1) /\ k a w1 = (Ok b, w').
Proof. unfold bind. destruct (m w) as [[a|e] w1]; [eauto|done]. Qed.
Lemma scoped_runs {A E} (m : M nat (E := E)) (body : nat -> M A (E := E)) w a w' :
  scoped m body w = (Ok a, w') -> exists h w1 w2, m w = (Ok h, w1) /\ body h w1 = (Ok a, w2).
Proof.
  unfold scoped. destruct (m w) as [[h|e] w1]; [|done]. destruct (body h w1) as [r w2] eqn:Hb.
  intros [= -> _]. eauto.
Qed.

(** What the self-test is there to see. *)
Definition passed (r : round) : Prop := first r = OnConnected (Ok PROBE) /\ second r = OnShared (Ok PROBE).
Definition verified (obs : self_test_obs) (family : AddressFamily) : Prop :=
  passed (native obs) /\ (family = DualStack -> passed (ipv4 obs)).

Lemma expect_ok r : expect r = Ok tt -> r = Ok PROBE.
Proof. destruct r as [bytes|]; cbn; [|done]. case_bool_decide; by subst. Qed.

Lemma loopback_opens ip : opens (promised Dgram (Some (sa_new ip 0)) None false false) (loopback_socket ip).
Proof. unfold loopback_socket. destruct ip; configure. Qed.
Lemma check_quiet obs v6only ip port map_peer : quiet (check_connected_precedence obs v6only ip port map_peer).
Proof.
  unfold check_connected_precedence. eapply quiet_scoped; [apply loopback_opens|intros _].
  apply quiet_bind; [apply quiet_lift|intros p].
  eapply quiet_scoped; [apply connected_udp_opens|intros _].
  do 2 (apply quiet_bind; [apply quiet_lift|intros _]).
  eapply quiet_scoped; [apply loopback_opens|intros _].
  apply quiet_bind; [apply quiet_lift|intros _; apply quiet_lift].
Qed.
Lemma check_passed obs v6only ip port map_peer w w' :
  check_connected_precedence obs v6only ip port map_peer w = (Ok tt, w') -> passed obs.
Proof.
  intros (h & w1 & w2 & _ & H)%scoped_runs. apply bind_runs in H as (p & w3 & _ & H).
  apply scoped_runs in H as (h' & w4 & w5 & _ & H). apply bind_runs in H as (u & w6 & _ & H).
  apply bind_runs in H as ([] & w7 & [= Hfirst _] & H). apply scoped_runs in H as (h3 & w8 & w9 & _ & H).
  apply bind_runs in H as (u' & w10 & _ & [= Hsecond _]).
  unfold passed, first_verdict, second_verdict in *.
  destruct (first obs); try done. destruct (second obs); try done.
  by apply expect_ok in Hfirst as ->, Hsecond as ->.
Qed.

Lemma self_test_inner_quiet obs family : quiet (single_port_udp_self_test_inner obs family).
Proof.
  unfold single_port_udp_self_test_inner. eapply quiet_scoped; [apply shared_udp_opens|intros _].
  apply quiet_bind; [apply quiet_lift|intros port].
  apply quiet_bind; [apply check_quiet|intros _]. destruct family; (apply check_quiet || apply quiet_ret).
Qed.
Lemma self_test_quiet {E} obs family : quiet (single_port_udp_self_test obs family (E := E)).
Proof.
  intros w Hw. pose proof (self_test_inner_quiet obs family w Hw) as H. unfold single_port_udp_self_test.
  by destruct (single_port_udp_self_test_inner obs family w).
Qed.
Lemma self_test_verified {E} obs family w w' :
  single_port_udp_self_test obs family (E := E) w = (Ok true, w') -> verified obs family.
Proof.
  unfold single_port_udp_self_test. destruct (single_port_udp_self_test_inner obs family w) as [[[]|e] w1] eqn:H; [|done].
  intros _. apply scoped_runs in H as (h & w2 & w3 & _ & H). apply bind_runs in H as (port & w4 & _ & H).
  apply bind_runs in H as ([] & w5 & Hnative%check_passed & H). split; [done|]. intros ->. by apply check_passed in H.
Qed.

(** ** The server's listeners *)
(** [holding o P m m']: [m'] is [m] with the socket [o], if any, as [P] says. *)
Definition holding (o : option nat) (P : sock -> Prop) (m m' : gmap nat sock) : Prop :=
  match o with
  | None => m' = m
  | Some h => m !! h = None /\ exists s, P s /\ m' = <[h := s]> m
  end.
Lemma holding_delete o P m m' h s : m !! h = None -> holding o P (<[h := s]> m) m' -> holding o P m (delete h m').
Proof.
  intros Hn. destruct o as [k|]; cbn.
  - intros (Hk & s' & Hs & ->). apply lookup_insert_None in Hk as [Hk Hne]. split; [done|]. exists s'. split; [done|].
    by rewrite delete_insert_ne, delete_insert_id by done.
  - intros ->. by apply delete_insert_id.
Qed.
Definition opens_option {E} (P : sock -> Prop) (m : M (option nat) (E := E)) : Prop :=
  forall w, wf w -> wf (snd (m w)) /\
  holding (match fst (m w) with Ok o => o | Err _ => None end) P (sockets w) (sockets (snd (m w))).

Lemma endpoint_opens addr family hello :
  opens (fun s => s_type s = Dgram /\ s_bound s = Some addr /\ s_nonblocking s = true /\ s_shared_at_bind s = hello /\
                  s_only_v6 s = match family with V4Only => None | _ => Some (bool_decide (family = V6Only)) end)
    (create_server_endpoint addr family hello).
Proof.
  intros w Hw. unfold create_server_endpoint. unfold bind at 1. unfold lift at 1.
  destruct tls; cbn [map_err]; [|done]. revert w Hw.
  eapply (owning_opens _ _ (fun s _ s' => s' = s)); [apply opens_error, opened_opens|..].
  - intros h w s Hw Hs. unfold bind, lift, ret. destruct endpoint_ready; cbn; (split; [done|]);
      exists s; by rewrite insert_id.
  - intros h s s' <- ->. by destruct family, hello.
Qed.

Section server_start.
Context {IpNetwork : Type} (parse_network : list Z -> option IpNetwork) (acl_file : option (result (list Z) unit)).
Context (obs : self_test_obs) (c : ServerConfig).
Notation family := (sc_address_family c).
Notation addr := (control_addr c).
Notation assemble := (assemble parse_network acl_file c).

(** A socket on the server's port that data sockets may share. *)
Definition on_lane (shared : bool) (s : sock) : Prop :=
  s_type s = Dgram /\ s_bound s = Some addr /\ s_nonblocking s = true /\ s_shared_at_bind s = shared.
(** What a start that fails with [e] leaves open. *)
Definition remains (e : startup_error) (m m' : gmap nat sock) : Prop :=
  exists o, holding o (on_lane true) m m' /\ (o <> None -> enable_quic c = false /\ exists a, e = AclFailed a).

Lemma remains_delete e m m' h s : m !! h = None -> remains e (<[h := s]> m) m' -> remains e m (delete h m').
Proof. intros Hn (o & Ho & He). exists o. split; [by eapply holding_delete|done]. Qed.
Lemma remains_none e m : remains e m m.
Proof. by exists None. Qed.

Lemma assemble_ok l ep hello ok st : assemble l ep hello ok = Ok st ->
  listener st = l /\ endpoint st = ep /\ hello_socket st = hello /\
  hello_lane st = ok && (enable_quic c || is_some hello) /\
  (SINGLE_PORT_UDP_CAPABILITY ∈ capabilities st <-> hello_lane st = true).
Proof.
  unfold assemble. intros (acl & _ & H)%rbind_ok. apply rbind_ok in H as (preset & _ & [= <-]).
  split_and!; try reflexivity. cbn [capabilities hello_lane]. destruct (ok && _).
  - split; [done|intros _]. unfold supported_capabilities, SUPPORTED_CAPABILITIES. do 9 apply list_elem_of_further. left.
  - split; [|done]. unfold supported_capabilities_without. by rewrite list_elem_of_filter; intros [? _].
Qed.
Lemma assemble_err l ep hello ok e : assemble l ep hello ok = Err e -> exists a, e = AclFailed a.
Proof.
  unfold assemble. intros [H|(acl & _ & [H|(preset & _ & H)]%rbind_err)]%rbind_err.
  - destruct (Acl.build _ _) as [|a]; [discriminate H|]. exists a. by injection H.
  - destruct (build_preset_acl _ _) as [|a]; [discriminate H|]. exists a. by injection H.
  - discriminate H.
Qed.

Lemma hello_socket_opens ok w : wf w ->
  exists o, fst (open_hello_socket c ok w) = Ok o /\ wf (snd (open_hello_socket c ok w)) /\
            holding o (on_lane true) (sockets w) (sockets (snd (open_hello_socket c ok w))) /\
            (is_some o = true -> ok = true /\ enable_quic c = false).
Proof.
  intros Hw. unfold open_hello_socket. destruct ok, (enable_quic c); cbn; try by exists None.
  destruct (shared_udp_opens addr (v6only_of family) w Hw) as [Hw1 H].
  destruct (create_shared_udp_socket _ _ w) as [[h|e] w1]; cbn in *; [|by exists None].
  exists (Some h). destruct H as (Hn & s & [[] _] & Hs). do 2 (split; [done|]). split; [|done].
  split; [done|]. exists s. by repeat split.
Qed.

(** After the endpoint, then after the listener. *)
Lemma hello_part l ep ok w : wf w ->
  let '(r, w') := (let! hello := open_hello_socket c ok in lift (assemble l ep hello ok)) w in
  wf w' /\
  match r with
  | Ok st => listener st = l /\ endpoint st = ep /\ holding (hello_socket st) (on_lane true) (sockets w) (sockets w') /\
             hello_lane st = ok && (enable_quic c || is_some (hello_socket st)) /\
             (SINGLE_PORT_UDP_CAPABILITY ∈ capabilities st <-> hello_lane st = true)
  | Err e => remains e (sockets w) (sockets w')
  end.
Proof.
  intros Hw. destruct (hello_socket_opens ok w Hw) as (o & Ho & Hw1 & Hh & Hq). unfold bind, lift.
  destruct (open_hello_socket c ok w) as [r w1]. cbn [fst snd] in *. subst r. split; [done|].
  destruct (assemble l ep o ok) as [st|e] eqn:Ha.
  - apply assemble_ok in Ha as (-> & -> & -> & ? & ?). done.
  - exists o. split; [done|]. intros Hn. destruct o; [|done]. destruct Hq; [done|]. split; [done|].
    by apply assemble_err in Ha.
Qed.

Lemma endpoint_part l ok w : wf w ->
  let '(r, w') := (let! endpoint := open_endpoint c ok in
                   owning_option endpoint
                     (let! hello := open_hello_socket c ok in lift (assemble l endpoint hello ok))) w in
  wf w' /\
  match r with
  | Ok st => listener st = l /\ is_some (endpoint st) = enable_quic c /\
             (exists m, holding (endpoint st) (on_lane ok) (sockets w) m /\ holding (hello_socket st) (on_lane true) m (sockets w')) /\
             hello_lane st = ok && (enable_quic c || is_some (hello_socket st)) /\
             (SINGLE_PORT_UDP_CAPABILITY ∈ capabilities st <-> hello_lane st = true)
  | Err e => remains e (sockets w) (sockets w')
  end.
Proof.
  intros Hw. unfold bind at 1. unfold open_endpoint. destruct (enable_quic c) eqn:Hq.
  - unfold bind at 1, map_error. pose proof (endpoint_opens addr family ok w Hw) as [Hw1 H].
    destruct (create_server_endpoint addr family ok w) as [[h|e] w1]; cbn [fst snd map_err ret] in *.
    + destruct H as (Hn & s & Hs & Heq). pose proof (hello_part l (Some h) ok w1 Hw1) as Hp.
      cbn [owning_option]. unfold owning. destruct (bind _ _ w1) as [[st|e] w2].
      * destruct Hp as (Hw2 & ? & -> & ? & ? & ?). split; [done|]. split_and!; try done; [|by rewrite Hq in *].
        exists (sockets w1). split; [|done]. split; [done|]. exists s. unfold on_lane. naive_solver.
      * destruct Hp as [Hw2 Hr]. split; [by apply wf_delete|]. rewrite Heq in Hr. by eapply remains_delete.
    + split; [done|]. rewrite H. apply remains_none.
  - cbn [ret owning_option]. pose proof (hello_part l None ok w Hw) as Hp.
    destruct (bind _ _ w) as [[st|e] w2]; [|done].
    destruct Hp as (Hw2 & ? & -> & ? & ? & ?). split; [done|]. split_and!; try done; [|by rewrite Hq in *].
    by exists (sockets w).
Qed.

Lemma listener_opens : opens (listening addr) (open_listener c).
Proof.
  unfold open_listener. apply opens_error. unfold control_addr.
  destruct (sc_bind_addr c); (eapply opens_weaken; [|apply tcp_listener_on_addr_opens || apply tcp_listener_auto_opens]);
    by intros s [? _].
Qed.
Lemma holding_lane o m m' : holding o (on_lane true) m m' -> is_some o = true ->
  exists h s, m' !! h = Some s /\ on_lane true s.
Proof. destruct o as [h|]; [|done]. intros (_ & s & Hs & ->) _. exists h, s. by rewrite lookup_insert_eq. Qed.
Lemma holding_keeps o P m m' h s : holding o P m m' -> m !! h = Some s -> m' !! h = Some s.
Proof.
  destruct o as [k|]; cbn; [|by intros ->]. intros (Hk & s' & _ & ->) Hs. rewrite lookup_insert_ne; [done|]. congruence.
Qed.

(** C22. Starting the server.  When it starts, exactly its own sockets are
    open beyond those that were: the listener, listening where it was
    configured; the QUIC endpoint exactly when QUIC is enabled, on the same
    address; otherwise at most the hello lane's socket.  Single-port UDP is
    offered exactly when the lane is up, and then the running kernel has been
    seen to route a peer's datagrams past the wildcard and a stranger's to it
    and a socket on the server's port was shared before its bind.  When it
    does not start, no socket stays open, except the lane's when the access
    rules were what failed. *)
Theorem startup_sound w : wf w ->
  let '(r, w') := start_server parse_network acl_file obs c w in
  match r with
  | Ok st =>
    Serve.validate c = Ok tt /\
    (exists m1 m2, holding (Some (listener st)) (listening addr) (sockets w) m1 /\
       (exists ok, holding (endpoint st) (on_lane ok) m1 m2) /\ holding (hello_socket st) (on_lane true) m2 (sockets w')) /\
    is_some (endpoint st) = enable_quic c /\
    (SINGLE_PORT_UDP_CAPABILITY ∈ capabilities st <-> hello_lane st = true) /\
    (hello_lane st = true ->
       verified obs family /\ exists h s, sockets w' !! h = Some s /\ on_lane true s)
  | Err e => remains e (sockets w) (sockets w')
  end.
Proof.
  intros Hw. unfold start_server. unfold bind at 1. unfold lift at 1.
  destruct (Serve.validate c) as [[]|e]; cbn [map_err]; [|apply remains_none].
  unfold bind at 1. destruct (listener_opens w Hw) as [Hw1 H]. destruct (open_listener c w) as [[l|e] w1]; cbn [fst snd] in *;
    [|rewrite H; apply remains_none]. destruct H as (Hn & s & Hs & Heq). unfold owning at 1. unfold bind at 1.
  destruct (self_test_quiet obs family w1 Hw1 (E := startup_error)) as [Hw2 Hq].
  pose proof (self_test_verified obs family w1 (snd (single_port_udp_self_test obs family w1 (E := startup_error))) (E := startup_error)) as Hv.
  destruct (single_port_udp_self_test obs family w1) as [[ok|e] w2]; cbn [fst snd] in *;
    [|cbn; rewrite Hq, Heq, delete_insert_id by done; apply remains_none].
  pose proof (endpoint_part l ok w2 Hw2) as Hp. rewrite Hq in Hp. destruct (bind _ _ w2) as [[st|e] w3].
  - destruct Hp as (Hw3 & <- & Hep & (m & Hm & Hh) & Hlane & Hcap). split_and!; try done.
    + exists (sockets w1), m. split_and!; [|by exists ok|done]. split; [done|]. eauto.
    + rewrite Hlane. intros [-> Hl]%andb_true_iff. split; [by apply Hv|].
      destruct (is_some (hello_socket st)) eqn:Hhs; [by eapply holding_lane|].
      rewrite orb_false_r in Hl. destruct (holding_lane _ _ _ Hm) as (h & t & Ht & Hon); [by rewrite Hep|].
      exists h, t. split; [|done]. by eapply holding_keeps.
  - destruct Hp as [Hw3 Hr]. rewrite Heq in Hr. by eapply remains_delete.
Qed.
End server_start.
End kernel.

(** *** Concrete starts *)
Definition willing_opening (_ : nat) (_ : Domain) (_ : sock_type) (_ : sock_protocol) : option io_error := None.
Definition willing_answer (_ : nat) (_ : sock) (_ : op) : option io_error := None.
Definition good_round : round := mkRound (Ok 40001) (Ok tt) (OnConnected (Ok PROBE)) (Ok tt) (OnShared (Ok PROBE)).
Definition good_obs : self_test_obs := mkObs (Ok 40000) good_round good_round.
Definition all_hosts (s : list Z) : option unit := if bool_decide (s = txt "0.0.0.0/0") then Some tt else None.
Definition demo_start (c : ServerConfig) : result (started (IpNetwork := unit)) startup_error * world :=
  start_server willing_opening willing_answer (Ok tt) (Ok tt) all_hosts None good_obs c empty_world.

Lemma empty_wf : wf empty_world.
Proof. intros h s H. cbn in H. by rewrite lookup_empty in H. Qed.

Definition started_lane (r : result (started (IpNetwork := unit)) startup_error) : bool :=
  match r with Ok st => hello_lane st && is_some (endpoint st) | Err _ => false end.

Lemma startup_sound_witness :
  wf empty_world /\ started_lane (fst (demo_start Serve.default_config)) = true /\
  match fst (demo_start Serve.default_config) with
  | Ok st => SINGLE_PORT_UDP_CAPABILITY ∈ capabilities st
  | Err _ => False
  end.
Proof.
  split; [exact empty_wf|]. assert (H : started_lane (fst (demo_start Serve.default_config)) = true) by (vm_compute; reflexivity).
  split; [exact H|].
  pose proof (startup_sound willing_opening willing_answer (Ok tt) (Ok tt) all_hosts None good_obs Serve.default_config
                empty_world empty_wf) as Hs.
  change (start_server _ _ _ _ _ _ _ _ _) with (demo_start Serve.default_config) in Hs.
  destruct (demo_start Serve.default_config) as [[st|e] w']; [|discriminate H]. cbn [fst started_lane] in *.
  destruct Hs as (_ & _ & _ & Hc & _). apply Hc. by apply andb_true_iff in H as [? _].
Defined.

(** The task that serves the hello lane is not stopped when the access rules
    then turn out to be unreadable: the start fails and its socket is open. *)
Lemma failed_start_keeps_the_lane :
  let r := demo_start (Serve.default_config <| enable_quic := false |> <| acl_deny := [txt "not a network"] |>) in
  fst r = Err (AclFailed (BadNetwork (txt "not a network"))) /\
  map fst (map_to_list (sockets (snd r))) <> [].
Proof. vm_compute. split; [reflexivity|discriminate]. Qed.
