(* ===== verification/ServerTest.v ===== *)
(** * A test on the server from its set-up to its end (src/src/serve.rs)

    The data plane [run_test] sets up for each protocol, what every stream
    handler does on every path, how the handlers tell the reporting loop that
    a byte budget is delivered, and the life of the test around them
    ([run_test], [run_quic_test]): the entry in the registry, the route of
    single-port UDP, metrics, screen and the order of the ending.  The data
    loops, the collection of streams and the reporting loop are components of
    their own: here they are steps that end, and their outcomes. *)
From coqutil Require Import Datatypes.RecordSettersUsingExistingGetters.
From S2P Require Import Prelude Bytes Text Ip Protocol Stats Float PacketTracker Serve ServeRun.

(** ** What a stream handler does
    The last line is only done by the client ([UdpSpawn]); [fails]: a loop that
    an error ends before the test is cancelled. *)
Inductive act :=
  | AwaitClient | AcceptStream | OpenStream
  | SetDataTos (tos : Z) | SetDontFragment | SetFd | ClearFd | AddTcpInfo (info : TcpInfoSnapshot)
  | ConfigureSocket | SendLoop (bitrate : option Z) | ReceiveLoop (feedback : bool) | AnswerHellos | AnswerProbes
  | SetFinalInfo (info : TcpInfoSnapshot) | AddUdpStats | LogFailure
  | DropSendingDone | DropRecvDone
  | OpenSocket | ReceiveData (fails : bool) | ReceiveFeedback (fails : bool) | SendHellos.

(** A handler: its own steps, then the tasks it starts side by side and waits
    for, then the rest. *)
Record stream_task := mkTask { start : list act; threads : list (list act); rest : list act }.
Definition alone (steps : list act) : stream_task := mkTask steps [] [].

Definition info_acts (info : option TcpInfoSnapshot) : list act :=
  match info with Some i => [SetFinalInfo i; AddTcpInfo i] | None => [] end.
Definition logged (ok : bool) : list act := if ok then [] else [LogFailure].
(** Marking the packets of a socket that refuses is only logged. *)
Definition tos_acts (dscp : option Z) (marked : bool) : list act :=
  match dscp with Some tos => SetDataTos tos :: logged marked | None => [] end.

(** *** TCP
    What the calls of a handler return; leaving it drops the senders it still
    holds. *)
Record tcp_outcome := mkTcpOutcome {
  info_before : option TcpInfoSnapshot; marked : bool; configured : bool;
  sent : result (option TcpInfoSnapshot) unit; received : result (option TcpInfoSnapshot) unit
}.
Definition info_or_log (r : result (option TcpInfoSnapshot) unit) : list act :=
  match r with Ok info => info_acts info | Err _ => [LogFailure] end.

Definition tcp_handler (d : Direction) (bitrate dscp : option Z) (o : tcp_outcome) : stream_task :=
  let begin := SetFd :: match info_before o with Some i => [AddTcpInfo i] | None => [] end ++ tos_acts dscp (marked o) in
  match d with
  | Upload =>
    alone (begin ++ ReceiveLoop false :: info_or_log (received o) ++ [DropRecvDone; ClearFd; DropSendingDone])
  | Download =>
    alone (begin ++ SendLoop bitrate :: info_or_log (sent o) ++ [DropSendingDone; ClearFd; DropRecvDone])
  | Bidir =>
    if configured o then
      mkTask (begin ++ [ConfigureSocket])
        [[SendLoop bitrate; DropSendingDone]; [ReceiveLoop false; DropRecvDone]]
        (match sent o, received o with Ok info, Ok _ => info_acts info | _, _ => [] end ++ [ClearFd])
    else alone (begin ++ [ConfigureSocket; LogFailure; ClearFd; DropSendingDone; DropRecvDone])
  end.
(** The handler of a port of its own accepts first, and marks nothing. *)
Definition legacy_tcp_handler (d : Direction) (bitrate : option Z) (accepted : bool) (o : tcp_outcome) : stream_task :=
  if accepted then
    let t := tcp_handler d bitrate None o in mkTask (AcceptStream :: start t) (threads t) (rest t)
  else alone [AcceptStream; LogFailure; DropSendingDone; DropRecvDone].

(** *** UDP *)
Definition udp_bitrate (bitrate num_streams : Z) : Z :=
  if bitrate =? 0 then 0 else Z.max (bitrate / Z.max num_streams 1) 1.
Definition count_udp (ok : bool) : list act := if ok then [AddUdpStats] else [].

(** [found]: the address of the client, where the handler has to wait for it;
    nothing when cancelled. *)
Definition udp_handler (d : Direction) (bitrate : Z) (client_supports_feedback : bool)
    (found : result bool unit) (received : bool) : stream_task :=
  let gave_up := [AwaitClient] ++ match found with Err _ => [LogFailure] | Ok _ => [] end ++ [DropSendingDone] in
  match d with
  | Upload => alone (ReceiveLoop (sends_feedback client_supports_feedback d) :: count_udp received ++ [DropSendingDone])
  | Download =>
    match found with
    | Ok true => alone [AwaitClient; SendLoop (Some bitrate); DropSendingDone]
    | _ => alone gave_up
    end
  | Bidir =>
    match found with
    | Ok true => mkTask [AwaitClient]
        [[SendLoop (Some bitrate); DropSendingDone]; ReceiveLoop false :: count_udp received] []
    | _ => alone gave_up
    end
  end.
Definition probe_acts (fragment_ok answered : bool) : list act :=
  SetDontFragment :: logged fragment_ok ++ AnswerProbes :: logged answered.
Definition probe_handler (fragment_ok answered : bool) : stream_task := alone (probe_acts fragment_ok answered).

(** On the shared port the socket is connected already; retried hellos are
    answered beside the sender, or by the receive loop. *)
Definition single_port_udp_handler (d : Direction) (bitrate : Z) (client_supports_feedback mtu_probe : bool)
    (fragment_ok answered received : bool) : stream_task :=
  if mtu_probe then alone (probe_acts fragment_ok answered ++ [DropSendingDone])
  else
    match d with
    | Upload => alone (ReceiveLoop (sends_feedback client_supports_feedback d) :: count_udp received ++ [DropSendingDone])
    | Download => mkTask [] [[AnswerHellos]; [SendLoop (Some bitrate); DropSendingDone]] []
    | Bidir => mkTask [] [[SendLoop (Some bitrate); DropSendingDone]; ReceiveLoop false :: count_udp received] []
    end.

(** *** QUIC *)
Definition quic_handler (d : Direction) (bitrate : option Z) (opened sent_ok received_ok : bool) : stream_task :=
  match d with
  | Upload =>
    alone (AcceptStream :: (if opened then ReceiveLoop false :: logged received_ok else []) ++ [DropRecvDone; DropSendingDone])
  | Download =>
    alone (OpenStream :: (if opened then SendLoop bitrate :: logged sent_ok else []) ++ [DropSendingDone; DropRecvDone])
  | Bidir =>
    if opened then
      mkTask [AcceptStream]
        [SendLoop bitrate :: logged sent_ok ++ [DropSendingDone]; [ReceiveLoop false; DropRecvDone]] []
    else alone [AcceptStream; DropSendingDone; DropRecvDone]
  end.

(** *** The senders a handler carries
    [run_test] hands out a sender only where its end means something; dropping
    one that is not there is nothing. *)
Definition carried (with_sender with_receiver : bool) (a : act) : bool :=
  match a with DropSendingDone => with_sender | DropRecvDone => with_receiver | _ => true end.
Definition carrying (byte_budget : option Z) (p : Protocol) (d : Direction) (t : stream_task) : stream_task :=
  let keep := List.filter (carried (end_on_server_send byte_budget d) (reports_recv_done byte_budget p)) in
  mkTask (keep (start t)) (map keep (threads t)) (keep (rest t)).

(** ** The handlers of a test, side by side

    [own]: [run_test] still holds its senders; [collector]: the task that
    collects streams holds a sender, with the handlers of the streams that
    would still arrive; [live]: the handlers started. *)
Record test_run := mkRun { own : bool; collector : option (list stream_task); live : list stream_task; cancelled : bool }.

Inductive turn :=
  | DropOwn | StreamArrives | CollectionEnds | CancelHandlers
  (** the [i]-th handler: its own next step, or one of the [j]-th task it started *)
  | Main (i : nat) | Thread (i j : nat).

(** Loops that end only when the test is cancelled: UDP has no end of stream. *)
Definition until_cancel (p : Protocol) (a : act) : bool :=
  match a with
  | AnswerHellos | AnswerProbes => true
  | ReceiveLoop _ => bool_decide (p = Udp)
  | ReceiveData fails | ReceiveFeedback fails => negb fails
  | _ => false
  end.

Section turns.
Variable p : Protocol.
Definition can_go (cancelled : bool) (a : act) : bool := cancelled || negb (until_cancel p a).
Definition joined (t : stream_task) : bool := forallb (fun l => match l with [] => true | _ => false end) (threads t).

Definition main_step (c : bool) (t : stream_task) : stream_task :=
  match start t with
  | a :: l => if can_go c a then mkTask l (threads t) (rest t) else t
  | [] =>
    match rest t with
    | a :: l => if joined t && can_go c a then mkTask [] (threads t) l else t
    | [] => t
    end
  end.
Definition thread_step (c : bool) (j : nat) (t : stream_task) : stream_task :=
  match start t, threads t !! j with
  | [], Some (a :: l) => if can_go c a then mkTask [] (<[j := l]> (threads t)) (rest t) else t
  | _, _ => t
  end.
Definition take_turn (e : turn) (s : test_run) : test_run :=
  match e with
  | DropOwn => mkRun false (collector s) (live s) (cancelled s)
  | StreamArrives =>
    match collector s with
    | Some (t :: l) => mkRun (own s) (Some l) (live s ++ [t]) (cancelled s)
    | _ => s
    end
  | CollectionEnds => mkRun (own s) None (live s) (cancelled s)
  | CancelHandlers => mkRun (own s) (collector s) (live s) true
  | Main i => mkRun (own s) (collector s) (alter (main_step (cancelled s)) i (live s)) (cancelled s)
  | Thread i j => mkRun (own s) (collector s) (alter (thread_step (cancelled s) j) i (live s)) (cancelled s)
  end.
Definition run_turns : list turn -> test_run -> test_run := fold_left (fun s e => take_turn e s).
End turns.

(** What is still to be done, seen from each task a handler started. *)
Definition paths (t : stream_task) : list (list act) :=
  match threads t with [] => [start t ++ rest t] | ths => map (fun th => start t ++ th ++ rest t) ths end.

Definition is_send (a : act) : bool := match a with SendLoop _ => true | _ => false end.
Definition is_receive (a : act) : bool := match a with ReceiveLoop _ => true | _ => false end.
Definition drops_sender (a : act) : bool := match a with DropSendingDone => true | _ => false end.
Definition drops_receiver (a : act) : bool := match a with DropRecvDone => true | _ => false end.
Definition ahead (f : act -> bool) (t : stream_task) : bool := existsb (existsb f) (paths t).

(** A channel is open while someone holds its sender. *)
Definition is_open (drops : act -> bool) (s : test_run) : bool :=
  own s || match collector s with Some _ => true | None => false end || existsb (ahead drops) (live s).

(** The loops not yet over. *)
Definition unfinished (loop : act -> bool) (s : test_run) : bool := existsb (ahead loop) (live s).
(** Nothing moves unless the test is cancelled. *)
Definition settled (p : Protocol) (s : test_run) : Prop :=
  forall e, e <> CancelHandlers -> take_turn p e s = s.

(** ** Every path of a handler is in order

    [ordered a b]: after each [a] there is a [b] to come.  [freed c b]: no [b]
    comes after a [c], nor is a [c] a [b]. *)
Fixpoint ordered (a b : act -> bool) (l : list act) : bool :=
  match l with [] => true | x :: l => (negb (a x) || existsb b l) && ordered a b l end.
Fixpoint freed (c b : act -> bool) (l : list act) : bool :=
  match l with [] => true | x :: l => (negb (c x) || negb (existsb b (x :: l))) && freed c b l end.

Definition signals (p : Protocol) (loop drops : act -> bool) (q : list act) : bool :=
  ordered loop drops q && freed (until_cancel p) drops q.
Definition signals_all (p : Protocol) (loop drops : act -> bool) (t : stream_task) : bool :=
  forallb (signals p loop drops) (paths t).

Lemma signals_tail p loop drops a q : signals p loop drops (a :: q) = true -> signals p loop drops q = true.
Proof. unfold signals. cbn [ordered freed]. rewrite !andb_true_iff. naive_solver. Qed.

Lemma signals_loop p loop drops q : signals p loop drops q = true -> existsb loop q = true -> existsb drops q = true.
Proof.
  induction q as [|a q IH]; [done|]. intros H Hl. cbn in Hl |- *. apply orb_true_iff.
  apply orb_true_iff in Hl as [Ha|Hl]; [|right; apply IH; [by apply signals_tail in H|done]].
  right. unfold signals in H. cbn [ordered] in H. by destruct (loop a), (existsb drops q).
Qed.
Lemma signals_blocked p loop drops a q :
  signals p loop drops (a :: q) = true -> until_cancel p a = true -> existsb drops (a :: q) = false.
Proof.
  unfold signals. cbn [freed]. rewrite !andb_true_iff. intros [_ [H _]] Hc. rewrite Hc in H. by destruct (existsb drops (a :: q)).
Qed.

Section steps.
Variable p : Protocol.

(** A step only takes the first of what is still to be done. *)
Definition shrinks (t t' : stream_task) : Prop :=
  forall q, q ∈ paths t' -> exists q0, q0 ∈ paths t /\ (q0 = q \/ exists a, q0 = a :: q).

Lemma shrinks_refl t : shrinks t t.
Proof. intros q Hq. eauto. Qed.
Lemma elem_of_paths t q : q ∈ paths t <->
  (threads t = [] /\ q = start t ++ rest t) \/ exists th, th ∈ threads t /\ q = start t ++ th ++ rest t.
Proof.
  unfold paths. destruct (threads t) as [|th ths]; [set_solver|].
  change (q ∈ (fun th => start t ++ th ++ rest t) <$> (th :: ths) <->
    (th :: ths = [] /\ q = start t ++ rest t) \/ (exists th0, th0 ∈ th :: ths /\ q = start t ++ th0 ++ rest t)).
  rewrite list_elem_of_fmap. naive_solver.
Qed.
Lemma main_shrinks c t : shrinks t (main_step p c t).
Proof.
  unfold main_step. destruct t as [[|a l] ths r]; cbn [start threads rest].
  - destruct r as [|a l]; [apply shrinks_refl|]. destruct (joined _) eqn:Hj; [|apply shrinks_refl]. cbn [andb].
    destruct (can_go p c a); [|apply shrinks_refl]. intros q Hq. exists (a :: q). split; [|by right; exists a].
    apply elem_of_paths in Hq as [[Ht ->]|(th & Ht & ->)]; apply elem_of_paths; cbn in *; [by left|right].
    exists th. split; [done|]. unfold joined in Hj. rewrite forallb_forall in Hj. apply list_elem_of_In in Ht.
    specialize (Hj th Ht). by destruct th.
  - destruct (can_go p c a); [|apply shrinks_refl]. intros q Hq. exists (a :: q). split; [|by right; exists a].
    apply elem_of_paths in Hq as [[Ht ->]|(th & Ht & ->)]; apply elem_of_paths; cbn in *; [by left|right; eauto].
Qed.
Lemma thread_shrinks c j t : shrinks t (thread_step p c j t).
Proof.
  unfold thread_step. destruct t as [[|] ths r]; cbn [start threads rest]; [|apply shrinks_refl].
  destruct (ths !! j) as [[|a l]|] eqn:Hj; [apply shrinks_refl| |apply shrinks_refl].
  destruct (can_go p c a); [|apply shrinks_refl]. intros q Hq.
  apply elem_of_paths in Hq as [[Ht _]|(th & Ht & ->)]; cbn in *.
  - exfalso. apply (f_equal length) in Ht. rewrite length_insert in Ht. apply lookup_lt_Some in Hj. cbn in Ht. lia.
  - apply list_elem_of_lookup in Ht as [k Hk]. destruct (decide (k = j)) as [->|Hne].
    + rewrite list_lookup_insert_eq in Hk by (by eapply lookup_lt_Some). injection Hk as <-.
      exists (a :: l ++ r). split; [|by right; exists a]. apply elem_of_paths. right. exists (a :: l).
      split; [by eapply list_elem_of_lookup_2|done].
    + rewrite list_lookup_insert_ne in Hk by done. exists (th ++ r). split; [|by left]. apply elem_of_paths. right.
      exists th. split; [by eapply list_elem_of_lookup_2|done].
Qed.
Lemma shrinks_signals loop drops t t' :
  shrinks t t' -> signals_all p loop drops t = true -> signals_all p loop drops t' = true.
Proof.
  unfold signals_all. rewrite !forallb_forall. intros Hs Ht q Hq%list_elem_of_In. destruct (Hs q Hq) as (q0 & H0 & Heq).
  apply list_elem_of_In, Ht in H0. destruct Heq as [->|[a ->]]; [done|by eapply signals_tail].
Qed.

(** Every handler of a test, started or to come. *)
Definition everywhere (P : stream_task -> Prop) (s : test_run) : Prop :=
  Forall P (live s) /\ Forall P (match collector s with Some l => l | None => [] end).
Lemma Forall_alter {A} (P : A -> Prop) f i (l : list A) : (forall x, P x -> P (f x)) -> Forall P l -> Forall P (alter f i l).
Proof.
  intros Hf. revert i. induction l as [|x l IH]; intros i; [done|].
  intros [Hx Hl]%Forall_cons. destruct i as [|i]; cbn; apply Forall_cons; auto.
Qed.
Lemma turn_everywhere (P : stream_task -> Prop) e s :
  (forall t t', shrinks t t' -> P t -> P t') -> everywhere P s -> everywhere P (take_turn p e s).
Proof.
  intros HP [Hl Hc]. destruct e; cbn; try done.
  - destruct (collector s) as [[|t l]|] eqn:E; try (split; [done|by rewrite E]). split; cbn.
    + apply Forall_app. split; [done|]. apply Forall_cons in Hc as [? _]. by constructor.
    + by apply Forall_cons in Hc as [_ ?].
  - split; cbn; [|done]. apply Forall_alter; [|done]. intros t. apply HP, main_shrinks.
  - split; cbn; [|done]. apply Forall_alter; [|done]. intros t. apply HP, thread_shrinks.
Qed.
Lemma run_everywhere (P : stream_task -> Prop) es : forall s,
  (forall t t', shrinks t t' -> P t -> P t') -> everywhere P s -> everywhere P (run_turns p es s).
Proof. induction es as [|e es IH]; intros s HP Hs; [done|]. cbn. apply IH; [done|]. by apply turn_everywhere. Qed.

Lemma unfinished_open loop drops s :
  everywhere (fun t => signals_all p loop drops t = true) s -> unfinished loop s = true -> is_open drops s = true.
Proof.
  intros [Hl _] Hu. unfold is_open. apply orb_true_iff. right. unfold unfinished in Hu.
  apply existsb_exists in Hu as (t & Ht & Hu). apply existsb_exists. exists t. split; [done|].
  rewrite Forall_forall in Hl. apply list_elem_of_In, Hl in Ht. unfold signals_all in Ht. rewrite forallb_forall in Ht.
  unfold ahead in *. apply existsb_exists in Hu as (q & Hq & Hu). apply existsb_exists. exists q. split; [done|].
  by apply (signals_loop p loop); [apply Ht|].
Qed.
End steps.

(** *** Settled without a cancellation *)
Section settled.
Context (p : Protocol) (loop drops : act -> bool).

Lemma cons_neq {A} (a : A) l : l = a :: l -> False.
Proof. intros H. apply (f_equal length) in H. cbn in H. lia. Qed.
Lemma cannot_go c a : can_go p c a = false -> until_cancel p a = true.
Proof. unfold can_go. by destruct c, (until_cancel p a). Qed.

Lemma thread_blocked c ths r th : (forall j, thread_step p c j (mkTask [] ths r) = mkTask [] ths r) -> th ∈ ths ->
  th = [] \/ exists a l, th = a :: l /\ until_cancel p a = true.
Proof.
  intros Hs [j Hj]%list_elem_of_lookup. destruct th as [|a l]; [by left|right]. exists a, l. split; [done|].
  specialize (Hs j). unfold thread_step in Hs. cbn [start threads rest] in Hs. rewrite Hj in Hs.
  destruct (can_go p c a) eqn:Hg; [|by eapply cannot_go]. exfalso. injection Hs as Hs.
  apply (f_equal (fun m => m !! j)) in Hs. rewrite list_lookup_insert_eq in Hs by (by eapply lookup_lt_Some).
  rewrite Hj in Hs. injection Hs. apply cons_neq.
Qed.

Lemma stuck_rest c ths r :
  signals_all p loop drops (mkTask [] ths r) = true -> main_step p c (mkTask [] ths r) = mkTask [] ths r ->
  (forall th, th ∈ ths -> th = [] \/ exists a l, th = a :: l /\ until_cancel p a = true) -> existsb drops r = false.
Proof.
  unfold signals_all. rewrite forallb_forall. intros Hq Hm Hth.
  assert (Hin : forall th, th ∈ ths -> signals p loop drops (th ++ r) = true).
  { intros th Ht. apply Hq, list_elem_of_In, elem_of_paths. right. eauto. }
  destruct (joined (mkTask [] ths r)) eqn:Hj.
  - destruct r as [|b l]; [done|]. unfold main_step in Hm. cbn [start rest] in Hm. rewrite Hj in Hm. cbn [andb] in Hm.
    destruct (can_go p c b) eqn:Hg; [exfalso; injection Hm; apply cons_neq|]. apply cannot_go in Hg.
    assert (Hr : signals p loop drops (b :: l) = true).
    { destruct ths as [|th ths]; [apply (Hq (b :: l)), list_elem_of_In, elem_of_paths; by left|].
      specialize (Hin th ltac:(left)). unfold joined in Hj. cbn in Hj. by destruct th. }
    by apply signals_blocked in Hr.
  - apply not_true_iff_false in Hj. destruct (decide (Exists (fun th => th <> []) ths)) as [He|He].
    + apply Exists_exists in He as (th & Ht & Hne). destruct (Hth th Ht) as [->|(a & l & -> & Ha)]; [done|].
      specialize (Hin _ Ht). apply (signals_blocked p loop drops a (l ++ r)) in Hin; [|done].
      cbn in Hin. rewrite existsb_app in Hin. by destruct (drops a), (existsb drops l), (existsb drops r).
    + destruct Hj. unfold joined. apply forallb_forall. intros th Ht. destruct th; [done|]. destruct He.
      apply Exists_exists. eexists. split; [by apply list_elem_of_In|done].
Qed.

Lemma stuck_closed c t :
  signals_all p loop drops t = true -> main_step p c t = t -> (forall j, thread_step p c j t = t) -> ahead drops t = false.
Proof.
  intros Hq Hm Hs. unfold ahead. apply not_true_iff_false. intros (q & Hin & Hd)%existsb_exists.
  pose proof Hq as Hq'. unfold signals_all in Hq'. rewrite forallb_forall in Hq'. specialize (Hq' q Hin).
  apply list_elem_of_In in Hin. destruct t as [[|a l] ths r].
  - assert (Hth : forall th, th ∈ ths -> th = [] \/ exists a l, th = a :: l /\ until_cancel p a = true)
      by (intros th; by apply (thread_blocked c ths r)).
    pose proof (stuck_rest c ths r Hq Hm Hth) as Hr.
    apply elem_of_paths in Hin as [[_ ->]|(th & Ht & ->)]; cbn in *; [by rewrite Hr in Hd|].
    destruct (Hth th Ht) as [->|(a & l & -> & Ha)]; [cbn in Hd; by rewrite Hr in Hd|].
    apply (signals_blocked p loop drops a (l ++ r)) in Hq'; [|done]. cbn in Hd, Hq'. by rewrite Hq' in Hd.
  - unfold main_step in Hm. cbn [start] in Hm. destruct (can_go p c a) eqn:Hg; [exfalso; injection Hm; apply cons_neq|].
    apply cannot_go in Hg. assert (exists q', q = a :: q') as [q' ->].
    { apply elem_of_paths in Hin as [[_ ->]|(th & _ & ->)]; by eexists. }
    apply (signals_blocked p loop drops) in Hq'; [|done]. by rewrite Hq' in Hd.
Qed.

Lemma settled_task s i t : settled p s -> live s !! i = Some t ->
  main_step p (cancelled s) t = t /\ forall j, thread_step p (cancelled s) j t = t.
Proof.
  intros Hs Ht. split; [specialize (Hs (Main i) ltac:(done))|intros j; specialize (Hs (Thread i j) ltac:(done))].
  all: cbn in Hs; apply (f_equal (fun s => live s !! i)) in Hs; cbn in Hs;
    rewrite list_lookup_alter_eq, Ht in Hs; by injection Hs.
Qed.
Lemma settled_closed s :
  everywhere (fun t => signals_all p loop drops t = true) s -> settled p s -> is_open drops s = false.
Proof.
  intros [Hl _] Hs. unfold is_open.
  assert (Ho : own s = false) by (specialize (Hs DropOwn ltac:(done)); by rewrite <- Hs).
  assert (Hc : collector s = None) by (specialize (Hs CollectionEnds ltac:(done)); by rewrite <- Hs).
  rewrite Ho, Hc. apply not_true_iff_false. intros (t & Ht & Ha)%existsb_exists.
  apply list_elem_of_In in Ht. pose proof (proj1 (Forall_forall _ _) Hl t Ht) as Hq.
  apply list_elem_of_lookup in Ht as [i Ht]. destruct (settled_task s i t Hs Ht) as [Hm Hth].
  by rewrite (stuck_closed _ t Hq Hm Hth) in Ha.
Qed.
End settled.

(** *** Every turn that does something brings the end nearer *)
Definition task_work (t : stream_task) : nat :=
  length (start t) + foldr (fun l n => length l + n)%nat 0%nat (threads t) + length (rest t).
Definition list_work : list stream_task -> nat := foldr (fun t n => S (task_work t) + n)%nat 0%nat.
Definition work (s : test_run) : nat :=
  (if own s then 1 else 0) + (match collector s with Some l => S (length l + list_work l) | None => 0 end)
  + list_work (live s) + (if cancelled s then 0 else 1).

Lemma list_work_app l k : list_work (l ++ k) = (list_work l + list_work k)%nat.
Proof. induction l as [|t l IH]; [done|]. cbn. rewrite IH. lia. Qed.
Lemma list_work_alter f i l : (forall t, f t = t \/ (task_work (f t) < task_work t)%nat) ->
  alter f i l = l \/ (list_work (alter f i l) < list_work l)%nat.
Proof.
  intros Hf. revert i. induction l as [|t l IH]; intros [|i]; try by left.
  - change (alter f 0%nat (t :: l)) with (f t :: l). cbn. destruct (Hf t) as [->|H]; [by left|right; lia].
  - change (alter f (S i) (t :: l)) with (t :: alter f i l). cbn.
    destruct (IH i) as [H|H]; [left; by rewrite H|right; lia].
Qed.
Lemma work_insert (ths : list (list act)) j a l : ths !! j = Some (a :: l) ->
  (foldr (fun l n => length l + n) 0 (<[j := l]> ths) < foldr (fun l n => length l + n) 0 ths)%nat.
Proof.
  revert j. induction ths as [|th ths IH]; intros [|j] Hj; try done.
  - injection Hj as ->. cbn. lia.
  - specialize (IH j Hj). change (<[S j := l]> (th :: ths)) with (th :: <[j := l]> ths). cbn. lia.
Qed.
Lemma main_work p c t : main_step p c t = t \/ (task_work (main_step p c t) < task_work t)%nat.
Proof.
  unfold main_step. destruct t as [[|a l] ths r]; cbn [start rest].
  - destruct r as [|a l]; [by left|]. destruct (_ && _); [right; cbn; lia|by left].
  - destruct (can_go _ _ _); [right; cbn; lia|by left].
Qed.
Lemma thread_work p c j t : thread_step p c j t = t \/ (task_work (thread_step p c j t) < task_work t)%nat.
Proof.
  unfold thread_step. destruct t as [[|] ths r]; cbn [start threads]; [|by left].
  destruct (ths !! j) as [[|a l]|] eqn:Hj; try by left. destruct (can_go _ _ _); [right|by left].
  unfold task_work. cbn [start threads rest]. pose proof (work_insert ths j a l Hj). lia.
Qed.
Lemma turn_work p e s : take_turn p e s = s \/ (work (take_turn p e s) < work s)%nat.
Proof.
  destruct s as [o col l c], e; cbn.
  - destruct o; [right; cbn; lia|by left].
  - destruct col as [[|t k]|]; [by left| |by left]. right. unfold work. cbn. rewrite list_work_app. cbn. lia.
  - destruct col; [right; unfold work; cbn; lia|by left].
  - destruct c; [by left|right; unfold work; cbn; lia].
  - destruct (list_work_alter (main_step p c) i l (main_work p c)) as [->|H]; [by left|right; unfold work; cbn; lia].
  - destruct (list_work_alter (thread_step p c j) i l (thread_work p c j)) as [->|H]; [by left|right; unfold work; cbn; lia].
Qed.

(** ** The handlers of a test *)
Inductive handler_of (byte_budget : option Z) (d : Direction) : Protocol -> stream_task -> Prop :=
  | on_tcp bitrate dscp o : handler_of byte_budget d Tcp (carrying byte_budget Tcp d (tcp_handler d bitrate dscp o))
  | on_legacy_tcp bitrate accepted o :
    handler_of byte_budget d Tcp (carrying byte_budget Tcp d (legacy_tcp_handler d bitrate accepted o))
  | on_udp bitrate feedback found received :
    handler_of byte_budget d Udp (carrying byte_budget Udp d (udp_handler d bitrate feedback found received))
  | on_shared_udp bitrate feedback fragment_ok answered received :
    handler_of byte_budget d Udp
      (carrying byte_budget Udp d (single_port_udp_handler d bitrate feedback false fragment_ok answered received))
  | on_quic bitrate opened sent_ok received_ok :
    handler_of byte_budget d Quic (carrying byte_budget Quic d (quic_handler d bitrate opened sent_ok received_ok)).

Lemma handler_sends budget d p t : handler_of budget d p t -> end_on_server_send budget d = true ->
  signals_all p is_send drops_sender t = true.
Proof.
  intros Ht He. destruct budget as [n|]; [|done]. destruct d; [done|..];
    destruct Ht as [b dscp [[] [] [] [[]|] [[]|]]|b [] [[] [] [] [[]|] [[]|]]|b fb [[]|] []|b fb f a []|b [] [] []];
    try destruct dscp; reflexivity.
Qed.
Lemma handler_receives budget d p t : handler_of budget d p t -> reports_recv_done budget p = true ->
  signals_all p is_receive drops_receiver t = true.
Proof.
  intros Ht He. destruct budget as [n|]; [|done].
  destruct Ht as [b dscp [[] [] [] [[]|] [[]|]]|b [] [[] [] [] [[]|] [[]|]]|b fb [[]|] []|b fb f a []|b [] [] []];
    try done; destruct d; try destruct dscp; reflexivity.
Qed.

(** TCP_INFO is read through the descriptor of the socket: it is set before
    the first loop and cleared after the last. *)
Definition is_loop (a : act) : bool := is_send a || is_receive a.
Definition sets_fd (a : act) : bool := match a with SetFd => true | _ => false end.
Definition clears_fd (a : act) : bool := match a with ClearFd => true | _ => false end.
Definition fd_tidy (t : stream_task) : Prop :=
  Forall (fun q => ordered (fun a => is_loop a || sets_fd a) clears_fd q = true) (paths t).

Lemma fd_tidy_shrinks t t' : shrinks t t' -> fd_tidy t -> fd_tidy t'.
Proof.
  intros Hs Ht. apply Forall_forall. intros q Hq. destruct (Hs q Hq) as (q0 & H0 & Heq).
  apply (proj1 (Forall_forall _ _) Ht) in H0. destruct Heq as [->|[a ->]]; [done|].
  cbn [ordered] in H0. by apply andb_true_iff in H0 as [_ ?].
Qed.
Lemma handler_fd_tidy budget d t : handler_of budget d Tcp t -> fd_tidy t.
Proof.
  intros Ht. unfold fd_tidy.
  inversion Ht as [b dscp [[] [] [] [[]|] [[]|]]|b [] [[] [] [] [[]|] [[]|]]|?|?|?]; subst;
    destruct budget, d; try destruct dscp; repeat constructor.
Qed.
Lemma ordered_ahead (f g : act -> bool) q : ordered f g q = true -> existsb f q = true -> existsb g q = true.
Proof.
  induction q as [|a q IH]; [done|]. cbn. intros [Ha Hq]%andb_true_iff Hf. apply orb_true_iff. right.
  apply orb_true_iff in Hf as [Hf|Hf]; [|by apply IH]. by rewrite Hf in Ha.
Qed.
Lemma fd_tidy_ahead t : fd_tidy t -> ahead is_loop t = true -> ahead clears_fd t = true.
Proof.
  intros Ht (q & Hq & Hl)%existsb_exists. apply existsb_exists. exists q. split; [done|].
  apply list_elem_of_In, (proj1 (Forall_forall _ _) Ht) in Hq. apply (ordered_ahead _ _ _ Hq).
  apply existsb_exists in Hl as (a & Ha & Hl). apply existsb_exists. exists a. by rewrite Hl.
Qed.

(** TCP and the shared UDP port collect their streams; the others start every
    handler at once. *)
Definition begin_run (collects : bool) (tasks : list stream_task) : test_run :=
  if collects then mkRun true (Some tasks) [] false else mkRun true None tasks false.

Lemma run_has p (P : stream_task -> Prop) collects tasks es :
  (forall t t', shrinks t t' -> P t -> P t') -> Forall P tasks -> everywhere P (run_turns p es (begin_run collects tasks)).
Proof. intros HP Ht. apply run_everywhere; [done|]. by destruct collects. Qed.

(** C17. The end of a byte budget is never missed and never early.  Whatever
    turns the handlers of a test take, and however their sockets fail: the
    channel that tells the reporting loop that the server has sent everything
    closes only when no stream is still to come and no send loop still runs;
    and when nothing moves any more without a cancellation -- receivers of
    UDP and the answering of retried hellos never end by themselves -- it has
    closed.  So has, except for UDP, the one of the receive loops, no earlier
    than the last of them.  The descriptor read for TCP_INFO is cleared after
    the loops of its stream, and every turn brings the end nearer. *)
Theorem budget_end_signalled (byte_budget : option Z) (d : Direction) (p : Protocol) (collects : bool)
    (tasks : list stream_task) (es : list turn) :
  Forall (handler_of byte_budget d p) tasks ->
  let s := run_turns p es (begin_run collects tasks) in
  (end_on_server_send byte_budget d = true ->
     (is_open drops_sender s = false -> unfinished is_send s = false /\ collector s = None) /\
     (settled p s -> is_open drops_sender s = false)) /\
  (reports_recv_done byte_budget p = true ->
     (is_open drops_receiver s = false -> unfinished is_receive s = false) /\
     (settled p s -> is_open drops_receiver s = false)) /\
  (p = Tcp -> Forall (fun t => ahead is_loop t = true -> ahead clears_fd t = true) (live s)) /\
  forall e, take_turn p e s = s \/ (work (take_turn p e s) < work s)%nat.
Proof.
  intros Ht s. split_and!.
  - intros He. assert (Hsend : everywhere (fun t => signals_all p is_send drops_sender t = true) s).
    { apply run_has; [intros; by eapply shrinks_signals|]. eapply Forall_impl; [done|]. intros t Hh. by eapply handler_sends. }
    split; [|by apply (settled_closed p is_send)].
    intros Ho. split; [|unfold is_open in Ho; by destruct (own s), (collector s)].
    apply not_true_iff_false. intros Hu. by rewrite (unfinished_open p _ _ s Hsend Hu) in Ho.
  - intros He. assert (Hrecv : everywhere (fun t => signals_all p is_receive drops_receiver t = true) s).
    { apply run_has; [intros; by eapply shrinks_signals|]. eapply Forall_impl; [done|]. intros t Hh. by eapply handler_receives. }
    split; [|by apply (settled_closed p is_receive)].
    intros Ho. apply not_true_iff_false. intros Hu. by rewrite (unfinished_open p _ _ s Hrecv Hu) in Ho.
  - intros ->. assert (Hfd : everywhere fd_tidy s).
    { apply run_has; [apply fd_tidy_shrinks|]. eapply Forall_impl; [done|]. apply handler_fd_tidy. }
    destruct Hfd as [Hl _]. eapply Forall_impl; [done|]. apply fd_tidy_ahead.
  - intros e. apply turn_work.
Qed.

(** ** The data plane of a test *)
Record request := mkRequest {
  rq_protocol : Protocol; rq_streams : Z; rq_direction : Direction; rq_bitrate : option Z; rq_budget : option Z;
  rq_dscp : option Z; rq_window : option Z; rq_mtu_probe : bool;
  client_single_port : bool; client_feedback : bool
}.
Record plane := mkPlane { ports : list Z; token : option (list Z); with_tx : bool }.
Inductive test_error := NoLocalAddress | NoDataSocket | QuicOverTcp | AckNotSent | ReportFailed | ResultNotSent.

(** One socket per stream; the first that cannot be made ends it. *)
Fixpoint open_ports (n : nat) (socket : nat -> result Z unit) (i : nat) : result (list Z) test_error :=
  match n with
  | O => Ok []
  | S n => let? port := map_err (fun _ => NoDataSocket) (socket i) in let? ports := open_ports n socket (S i) in Ok (port :: ports)
  end.
(** Random tokens are drawn until one is free: [None] is still drawing. *)
Fixpoint pick_token (m : routes) (draws : list (list Z)) : option (list Z) :=
  match draws with
  | [] => None
  | t :: draws => match m !! t with None => Some t | Some _ => pick_token m draws end
  end.

(** [shared]: the hello lane is up and the client knows it. *)
Definition set_up (r : request) (shared : bool) (run : nat) (peer : IpAddr) (local : result SocketAddr unit)
    (socket : nat -> result Z unit) (draws : list (list Z)) (m : routes) : option (result plane test_error * routes) :=
  match local with
  | Err _ => Some (Err NoLocalAddress, m)
  | Ok local =>
    let own_ports := let? ports := open_ports (Z.to_nat (rq_streams r)) socket 0 in Ok (mkPlane ports None false) in
    match rq_protocol r with
    | Tcp => Some (if client_single_port r then Ok (mkPlane [] None true) else own_ports, m)
    | Udp =>
      if shared then
        match pick_token m draws with
        | Some t =>
          Some (Ok (mkPlane [] (Some t) false),
                <[t := new_route run peer local (rq_streams r) (client_window_to_host (rq_window r))]> m)
        | None => None
        end
      else Some (own_ports, m)
    | Quic => Some (Err QuicOverTcp, m)
    end
  end.
(** A connection to a stream's own port: the index it is handed over under. *)
Definition legacy_accept (expected : IpAddr) (stream_index : Z) (arrived : option (result IpAddr unit)) : option Z :=
  match arrived with
  | Some (Ok ip) => if bool_decide (normalize_ip ip = normalize_ip expected) then Some stream_index else None
  | Some (Err _) | None => None
  end.

(** The handler of a stream. *)
Record stream_outcome := mkStreamOutcome {
  so_tcp : tcp_outcome; so_found : result bool unit; so_received : bool; so_fragment_ok : bool; so_answered : bool
}.
Definition stream_handler (r : request) (p : plane) (o : stream_outcome) : stream_task :=
  let carrying := carrying (rq_budget r) (rq_protocol r) (rq_direction r) in
  let udp := udp_bitrate (match rq_bitrate r with Some b => b | None => DEFAULT_BITRATE_BPS end) (rq_streams r) in
  match rq_protocol r with
  | Udp =>
    match token p with
    | Some _ =>
      carrying (single_port_udp_handler (rq_direction r) udp (client_feedback r) (rq_mtu_probe r)
                  (so_fragment_ok o) (so_answered o) (so_received o))
    | None =>
      if rq_mtu_probe r then probe_handler (so_fragment_ok o) (so_answered o)
      else carrying (udp_handler (rq_direction r) udp (client_feedback r) (so_found o) (so_received o))
    end
  | _ => carrying (tcp_handler (rq_direction r) (per_stream_bitrate (rq_bitrate r) (rq_streams r)) (rq_dscp r) (so_tcp o))
  end.
Lemma stream_handler_of r p o : rq_protocol r <> Quic -> rq_mtu_probe r = false ->
  handler_of (rq_budget r) (rq_direction r) (rq_protocol r) (stream_handler r p o).
Proof.
  intros Hq Hm. unfold stream_handler. destruct (rq_protocol r); [apply on_tcp| |done].
  rewrite Hm. destruct (token p); [apply on_shared_udp|apply on_udp].
Qed.

(** ** The life of a test *)
Inductive note :=
  | Tell (e : tui_event) | MetricStarted | MetricCompleted | MetricAborted
  | DurationTaken | HandlersStopped | HandlersJoined | ResultSent | Pushed | StreamClosed.
(** What its parts come to: the acknowledgement went out, how the reporting
    loop ended, the result could be written, over QUIC the stream finished. *)
Record life := mkLife { ack_sent : bool; reported : result Z unit; result_sent : bool; finished : bool; total : Z }.

(** The result comes before anything that may be slow. *)
Definition ending (id : str) (quic : bool) (o : life) : result (Z * Z) test_error * list note :=
  match reported o with
  | Err _ => (Err ReportFailed, [])
  | Ok duration =>
    let joined := if quic then [HandlersStopped; HandlersJoined; DurationTaken] else [DurationTaken; HandlersStopped; HandlersJoined] in
    if negb (result_sent o) then (Err ResultNotSent, joined)
    else if negb quic then (Ok (total o, duration), joined ++ [ResultSent])
    else if finished o then (Ok (total o, duration), joined ++ [ResultSent; StreamClosed])
    else (Err ResultNotSent, joined ++ [ResultSent])
  end.
Definition wrapped (id : str) (quic : bool) (o : life) : result (Z * Z) test_error * list note :=
  let '(r, notes) := ending id quic o in
  (r, [Tell (TestStarted id); MetricStarted] ++ notes ++
      match r with
      | Ok (bytes, _) => [MetricCompleted; Pushed; Tell (TestCompleted id bytes)]
      | Err _ => [MetricAborted; Tell (TestFailed id (total o))]
      end).

(** [run_test]; the guard of the route goes with it. *)
Definition run_test (r : request) (shared : bool) (run : nat) (id : str) (peer : IpAddr) (local : result SocketAddr unit)
    (socket : nat -> result Z unit) (draws : list (list Z)) (o : life) (tests : registry) (m : routes)
    : option (result (Z * Z) test_error * registry * routes * list note) :=
  match set_up r shared run peer local socket draws m with
  | None => None
  | Some (Err e, m) => Some (Err e, tests, m, [])
  | Some (Ok p, m) =>
    let tests := <[id := mkActiveTest run (ports p) (with_tx p) peer (rq_streams r)]> tests in
    let m_after := match token p with Some t => delete t m | None => m end in
    let tests_after := fst (remove_active_test tests id) in
    if negb (ack_sent o) then Some (Err AckNotSent, tests_after, m_after, [])
    else let '(result, notes) := wrapped id false o in Some (result, tests_after, m_after, notes)
  end.
(** [run_quic_test]: its acknowledgement went out before. *)
Definition run_quic_test (r : request) (run : nat) (id : str) (peer : IpAddr) (o : life) (tests : registry)
    : result (Z * Z) test_error * registry * list note :=
  let tests := <[id := mkActiveTest run [] false peer (rq_streams r)]> tests in
  let '(result, notes) := wrapped id true o in (result, fst (remove_active_test tests id), notes).

Definition count (n : note -> bool) (l : list note) : nat := length (List.filter n l).
Definition is_metric_start (n : note) : bool := match n with MetricStarted => true | _ => false end.
Definition is_metric_end (n : note) : bool := match n with MetricCompleted | MetricAborted => true | _ => false end.
Definition is_shown_start (n : note) : bool := match n with Tell (TestStarted _) => true | _ => false end.
Definition is_shown_end (n : note) : bool := match n with Tell (TestCompleted _ _) | Tell (TestFailed _ _) => true | _ => false end.
(** Each of [l] happens, in this order. *)
Definition in_order (l notes : list note) : Prop := l `sublist_of` notes.

(** What a started test owes whoever watches it. *)
Definition accounted (id : str) (r : result (Z * Z) test_error) (notes : list note) : Prop :=
  count is_metric_start notes = 1%nat /\ count is_metric_end notes = 1%nat /\
  count is_shown_start notes = 1%nat /\ count is_shown_end notes = 1%nat /\
  (ResultSent ∈ notes -> in_order [HandlersStopped; HandlersJoined; ResultSent] notes) /\
  match r with
  | Ok (bytes, _) => in_order [ResultSent; MetricCompleted; Pushed; Tell (TestCompleted id bytes)] notes
  | Err _ => exists bytes, in_order [MetricStarted; MetricAborted; Tell (TestFailed id bytes)] notes /\ Pushed ∉ notes
  end.
Ltac in_order_tac :=
  first [apply sublist_nil_l | apply sublist_skip; in_order_tac | apply sublist_cons; in_order_tac].
Lemma wrapped_accounted id quic o : accounted id (fst (wrapped id quic o)) (snd (wrapped id quic o)).
Proof.
  unfold wrapped, ending, accounted, in_order.
  destruct (reported o) as [duration|[]], quic, (result_sent o), (finished o);
    cbn [fst snd app negb]; (do 4 (split; [reflexivity|])).
  all: split; [intros Hin; first [in_order_tac | exfalso; revert Hin; set_solver]|].
  all: first [in_order_tac | exists (total o); split; [in_order_tac|set_solver]].
Qed.

(** *** Tokens and ports *)
Lemma pick_token_free m draws t : pick_token m draws = Some t -> m !! t = None.
Proof. induction draws as [|d draws IH]; [done|]. cbn. destruct (m !! d) eqn:E; [done|]. by intros [= <-]. Qed.
Lemma pick_token_ends m draws : NoDup draws -> (size m < length draws)%nat -> is_Some (pick_token m draws).
Proof.
  intros Hn Hl. destruct (pick_token m draws) as [t|] eqn:E; [by eexists|]. exfalso.
  assert (Hall : forall t, t ∈ draws -> t ∈ dom m).
  { clear Hn Hl. induction draws as [|d draws IH]; [by intros t ?%elem_of_nil|]. cbn in E. intros t.
    destruct (m !! d) eqn:Ed; [|done]. intros [->|Ht]%elem_of_cons; [by apply elem_of_dom_2 in Ed|by apply IH]. }
  assert (Hs : (size (list_to_set draws : gset (list Z)) <= size (dom m))%nat).
  { apply subseteq_size. intros t Ht%elem_of_list_to_set. by apply Hall. }
  rewrite size_list_to_set in Hs by done. rewrite size_dom in Hs. lia.
Qed.
Lemma open_ports_length socket n i ports : open_ports n socket i = Ok ports -> length ports = n.
Proof.
  revert i ports. induction n as [|n IH]; intros i ports; cbn; [by intros [= <-]|].
  intros (p & _ & H)%rbind_ok. apply rbind_ok in H as (ps & H%IH & [= <-]). cbn. lia.
Qed.
Lemma set_up_route r shared run peer local socket draws m res m' :
  set_up r shared run peer local socket draws m = Some (res, m') ->
  match res with
  | Ok p =>
    (match token p with Some t => m !! t = None /\ exists route, m' = <[t := route]> m | None => m' = m end) /\
    (ports p = [] \/ length (ports p) = Z.to_nat (rq_streams r)) /\
    (ports p <> [] -> token p = None /\ with_tx p = false)
  | Err _ => m' = m
  end.
Proof.
  unfold set_up. destruct local as [local|]; [|by intros [= <- <-]].
  set (own := rbind _ _). assert (Hown : match own with Ok p => token p = None /\ with_tx p = false /\ length (ports p) = Z.to_nat (rq_streams r) | Err _ => True end).
  { unfold own. destruct (open_ports _ _ _) as [ps|] eqn:E; cbn; [|done]. by apply open_ports_length in E. }
  clearbody own. destruct (rq_protocol r).
  - destruct (client_single_port r); intros [= <- <-]; [by split; [|split; [left|]]|].
    destruct own as [p|]; [|done]. destruct Hown as (-> & -> & Hl). auto.
  - destruct shared; [destruct (pick_token m draws) as [t|] eqn:E; [|done]|]; intros [= <- <-].
    + apply pick_token_free in E. cbn. split; [eauto|]. by split; [left|].
    + destruct own as [p|]; [|done]. destruct Hown as (-> & -> & Hl). auto.
  - by intros [= <- <-].
Qed.
Lemma set_up_ends r shared run peer local socket draws m :
  NoDup draws -> (size m < length draws)%nat -> is_Some (set_up r shared run peer local socket draws m).
Proof.
  intros Hn Hl. unfold set_up. destruct local; [|by eexists]. destruct (rq_protocol r); try by eexists.
  destruct shared; [|by eexists]. destruct (pick_token_ends m draws Hn Hl) as [tok ->]. by eexists.
Qed.

(** C21. However a test on the server ends -- no socket, no acknowledgement, a
    lost client, an unsent result, or well -- nothing of it stays: the table
    of hello routes is as before, the registry has no entry under its
    identifier once it had one, and whoever watches is told consistently: the
    screen and the metrics see one start and one end or neither, the result
    goes out after the handlers were stopped and waited for and before
    metrics are pushed, and a push follows a success only.  As long as the
    random tokens drawn differ, one more than there are routes is enough. *)
Theorem test_leaves_nothing (r : request) (shared : bool) (run : nat) (id : str) (peer : IpAddr)
    (local : result SocketAddr unit) (socket : nat -> result Z unit) (draws : list (list Z)) (o : life)
    (tests : registry) (m : routes) :
  NoDup draws -> (size m < length draws)%nat ->
  (exists res tests' notes,
     run_test r shared run id peer local socket draws o tests m = Some (res, tests', m, notes) /\
     ((notes = [] /\ is_ok res = false /\ (tests' = tests \/ tests' = delete id tests)) \/
      (accounted id res notes /\ tests' = delete id tests))) /\
  (let '(res, tests', notes) := run_quic_test r run id peer o tests in
   accounted id res notes /\ tests' = delete id tests).
Proof.
  intros Hn Hl. split.
  - unfold run_test. destruct (set_up_ends r shared run peer local socket draws m Hn Hl) as [[res m'] Hs]. rewrite Hs.
    apply set_up_route in Hs. destruct res as [p|e].
    + destruct Hs as (Hroute & _ & _).
      assert (Hm : match token p with Some t => delete t m' | None => m' end = m).
      { destruct (token p); [destruct Hroute as (? & ? & ->); by apply delete_insert_id|done]. }
      rewrite Hm. cbn [fst remove_active_test]. rewrite delete_insert_eq. destruct (ack_sent o); cbn [negb].
      * pose proof (wrapped_accounted id false o) as Ha. destruct (wrapped id false o) as [res notes]. eauto 10.
      * eexists _, _, _. split; [reflexivity|]. left. auto.
    + subst m'. eexists _, _, _. split; [reflexivity|]. left. auto.
  - unfold run_quic_test. pose proof (wrapped_accounted id true o) as Ha. destruct (wrapped id true o) as [res notes].
    cbn [fst remove_active_test]. by rewrite delete_insert_eq.
Qed.

(** *** The first datagram of a bidirectional test without a shared port
    [wait_for_client] learns the client's address from the first bulk datagram
    and discards it, so the tracker starts with the second one and takes the
    first for lost: no network is perfect. *)
Lemma discovery_counts_a_loss :
  let arrivals := seqZ 0 100 in
  PacketTracker.lost (PacketTracker.record_all PacketTracker.new arrivals) = 0 /\
  PacketTracker.lost (PacketTracker.record_all PacketTracker.new (tail arrivals)) = 1 /\
  start (udp_handler Bidir 1000 false (Ok true) true) = [AwaitClient] /\
  nth 1 (threads (udp_handler Bidir 1000 false (Ok true) true)) [] = [ReceiveLoop false; AddUdpStats].
Proof. by vm_compute. Qed.

(** ** Witnesses *)
Definition demo_tcp : tcp_outcome := mkTcpOutcome None true true (Ok None) (Ok None).
Definition demo_tasks : list stream_task :=
  [carrying (Some 1000) Udp Download (single_port_udp_handler Download 500 false false true true true);
   carrying (Some 1000) Udp Download (single_port_udp_handler Download 500 false false true true true)].
(** Both sends end while the hellos are still answered. *)
Definition demo_turns : list turn :=
  [StreamArrives; DropOwn; Thread 0 1; StreamArrives; CollectionEnds; Thread 0 1; Thread 1 1; Thread 0 0; Thread 1 1].
Lemma budget_end_signalled_witness :
  Forall (handler_of (Some 1000) Download Udp) demo_tasks /\
  let s := run_turns Udp demo_turns (begin_run true demo_tasks) in
  is_open drops_sender s = false /\ existsb (ahead (fun a => match a with AnswerHellos => true | _ => false end)) (live s) = true /\
  unfinished is_send s = false.
Proof.
  assert (H : Forall (handler_of (Some 1000) Download Udp) demo_tasks) by (repeat constructor).
  split; [exact H|]. cbn zeta. split; [reflexivity|]. split; [reflexivity|].
  destruct (budget_end_signalled (Some 1000) Download Udp true demo_tasks demo_turns H) as [Hs _].
  destruct (Hs eq_refl) as [H1 _]. exact (proj1 (H1 eq_refl)).
Defined.

Definition demo_request : request := mkRequest Udp 2 Bidir None None None None false true false.
Definition demo_life : life := mkLife true (Ok 10000) true true 5000.
Lemma test_leaves_nothing_witness :
  NoDup [[1]; [2]] /\
  exists res tests' notes,
    run_test demo_request true 1 (txt "t") (V4 1) (Ok (SaV4 1 5201)) (fun _ => Err tt) [[1]; [2]] demo_life ∅
      {[ [1] := new_route 0 (V4 2) (SaV4 1 5201) 1 None ]}
    = Some (res, tests', {[ [1] := new_route 0 (V4 2) (SaV4 1 5201) 1 None ]}, notes).
Proof.
  assert (Hn : NoDup [[1]; [2]]) by (repeat constructor; set_solver).
  split; [exact Hn|].
  destruct (test_leaves_nothing demo_request true 1 (txt "t") (V4 1) (Ok (SaV4 1 5201)) (fun _ => Err tt) [[1]; [2]]
    demo_life ∅ {[ [1] := new_route 0 (V4 2) (SaV4 1 5201) 1 None ]} Hn) as [(res & tests' & notes & H & _) _].
  - rewrite map_size_singleton. cbn. lia.
  - eexists _, _, _. exact H.
Defined.
