(* ===== verification/UdpSpawn.v ===== *)
(** * The client's UDP streams (src/src/client.rs)

    How [spawn_udp_streams] opens the sockets of a test and starts one task for
    each stream, what [run_udp_stream_io] runs on a connected socket in each
    direction, and which of these hold the signal that the client has sent all
    of its byte budget.  The data loops ([UdpStream]) and the handshake of the
    shared port ([Serve], [UdpWire]) are outcomes; the tasks take their turns
    with the machinery of [ServerTest]. *)
From S2P Require Import Prelude Bytes Text UdpWire Ip Protocol Client Target Spawn ServerTest.

(** ** What a stream is given *)
Definition udp_stream_bitrate (c : ClientConfig) : Z :=
  share_of (match bitrate c with Some b => b | None => 1000000000 end) (streams c).
Definition udp_packet_size (c : ClientConfig) : Z :=
  match udp_payload_size c with Some n => n | None => UDP_PAYLOAD_SIZE end.

(** What the calls of a stream return: its socket is created and connected,
    marking and buffers are accepted; its loops end by themselves with an
    error, or when the budget, the duration or the test ends. *)
Record udp_outcome := mkUdpOutcome {
  created : bool; connects : bool; marks : bool; buffers : bool;
  send_ok : bool; receive_fails : bool; feedback_fails : bool }.
Definition opens (o : udp_outcome) : bool := created o && connects o.

(** ** The socket *)
Inductive socket_action :=
  | CreateBound (local : SocketAddr) (family : AddressFamily) | CreateForRemote (remote : SocketAddr)
  | ConnectSocket (remote : SocketAddr) | SetUdpTos (tos : Z) | SetBuffers (size : Z) | Warn.
(** [create_udp_stream_socket]: marking and buffers only warn. *)
Definition create_udp_stream_socket (c : ClientConfig) (p : stream_plan) (o : udp_outcome) : list socket_action * bool :=
  let warned (ok : bool) := if ok then [] else [Warn] in
  let create := match local p with Some l => CreateBound l (address_family c) | None => CreateForRemote (remote p) end in
  if negb (created o) then ([create], false)
  else if negb (connects o) then ([create; ConnectSocket (remote p)], false)
  else (create :: ConnectSocket (remote p)
        :: match dscp c with Some tos => SetUdpTos tos :: warned (marks o) | None => [] end
        ++ match window_size c with Some size => SetBuffers size :: warned (buffers o) | None => [] end, true).

(** The sockets opened one after another, up to the first that fails. *)
Fixpoint open_sockets (c : ClientConfig) (plans : list stream_plan) (calls : Z -> udp_outcome) (i : Z)
    : result unit spawn_error :=
  match plans with
  | [] => Ok tt
  | p :: plans =>
    if snd (create_udp_stream_socket c p (calls i)) then open_sockets c plans calls (i + 1) else Err (SocketFailed i)
  end.

(** ** The task of a stream *)

(** Hellos of a download: one every 100 ms, at most 50; [cancelled] is what the
    flag says before each. *)
Fixpoint hellos_sent (room : nat) (cancelled : list bool) : nat :=
  match room, cancelled with
  | S room, false :: cancelled => S (hellos_sent room cancelled)
  | _, _ => O
  end.
Definition download_hellos (cancelled : list bool) : nat := hellos_sent 50 cancelled.

Definition receive_acts (o : udp_outcome) : list act :=
  ReceiveData (receive_fails o) :: (if receive_fails o then [LogFailure] else [AddUdpStats]).

(** Send tasks move the sender of "sending done" into themselves; otherwise it
    is a parameter of the function and goes when the function ends.  The hellos
    are stopped once the download is over. *)
Definition run_udp_stream_io (c : ClientConfig) (feedback single_port : bool) (o : udp_outcome) : stream_task :=
  let send := SendLoop (Some (udp_stream_bitrate c)) :: logged (send_ok o) in
  match direction c with
  | Upload =>
    if feedback then
      mkTask [] [send ++ [DropSendingDone]; ReceiveFeedback (feedback_fails o) :: logged (negb (feedback_fails o))] []
    else alone (send ++ [DropSendingDone])
  | Download => mkTask [] ((if single_port then [] else [[SendHellos]]) ++ [receive_acts o]) [DropSendingDone]
  | Bidir => mkTask [] [send ++ [DropSendingDone]; receive_acts o] []
  end.

(** On a port of its own the task opens its socket first; without one it
    returns. *)
Definition own_port_task (c : ClientConfig) (feedback : bool) (o : udp_outcome) : stream_task :=
  if opens o then
    let t := run_udp_stream_io c feedback false o in mkTask (OpenSocket :: start t) (threads t) (rest t)
  else alone [OpenSocket; LogFailure; DropSendingDone].

(** [run_test] makes the sender only where the client's sending ends the test. *)
Definition holding (c : ClientConfig) (t : stream_task) : stream_task :=
  let keep := List.filter (carried (finish_on_budget c) false) in
  mkTask (keep (start t)) (map keep (threads t)) (keep (rest t)).

(** ** [spawn_udp_streams]
    With the token of a shared port every socket and every handshake comes
    before the first task; [first_failed] is the stream whose handshake fails
    first, if one does.  Without it the tasks make their own sockets. *)
Record udp_stream := mkUdpStream {
  us_plan : stream_plan; us_socket : list socket_action; us_packet : Z; us_task : stream_task }.

Definition udp_streams (c : ClientConfig) (task : udp_outcome -> stream_task) (calls : Z -> udp_outcome)
    (plans : list stream_plan) : list udp_stream :=
  imap (fun i p => let o := calls (Z.of_nat i) in
    mkUdpStream p (fst (create_udp_stream_socket c p o)) (udp_packet_size c) (holding c (task o))) plans.

Definition spawn_udp (c : ClientConfig) (data_ports : list Z) (server_addr : SocketAddr)
    (token : option (list Z)) (feedback : bool) (calls : Z -> udp_outcome) (first_failed : option Z)
    : result (list udp_stream) spawn_error :=
  let single_port := match token with Some _ => true | None => false end in
  let? base := map_err BindPorts (sequential_bind_base (bind_addr c) (sequential_ports c) (streams c)) in
  if negb single_port && negb (len data_ports =? streams c) then Err (PortCount (len data_ports) (streams c))
  else
    match token with
    | Some _ =>
      let plans := map (fun i => plan_stream c base server_addr (port c) true i) (seqZ 0 (streams c)) in
      let? _ := open_sockets c plans calls 0 in
      match first_failed with
      | Some i => Err (NoHandshake i)
      | None => Ok (udp_streams c (run_udp_stream_io c feedback true) calls plans)
      end
    | None =>
      Ok (udp_streams c (own_port_task c feedback) calls
            (imap (fun i p => plan_stream c base server_addr p false (Z.of_nat i)) data_ports))
    end.

(** ** What a task does *)
Definition receives_data (a : act) : bool := match a with ReceiveData _ => true | _ => false end.
Definition receives_feedback (a : act) : bool := match a with ReceiveFeedback _ => true | _ => false end.
Definition sends_hellos (a : act) : bool := match a with SendHellos => true | _ => false end.
Definition opens_socket (a : act) : bool := match a with OpenSocket => true | _ => false end.
Definition sends_at (rate : Z) (a : act) : bool :=
  match a with SendLoop b => bool_decide (b = Some rate) | _ => true end.

(** What a connected stream does in each direction, and nothing else. *)
Record serves (c : ClientConfig) (feedback own_port : bool) (t : stream_task) : Prop := {
  sv_sends : ahead is_send t = negb (bool_decide (direction c = Download));
  sv_receives : ahead receives_data t = negb (bool_decide (direction c = Upload));
  sv_feedback : ahead receives_feedback t = bool_decide (direction c = Upload) && feedback;
  sv_hellos : ahead sends_hellos t = bool_decide (direction c = Download) && own_port;
  sv_opens : ahead opens_socket t = own_port;
  sv_rate : Forall (Forall (fun a => sends_at (udp_stream_bitrate c) a = true)) (paths t)
}.

Lemma share_bounds b n : 0 <= b -> 0 < n -> n * share_of b n <= Z.max b n /\ (b <> 0 -> 1 <= share_of b n).
Proof.
  intros Hb Hn. unfold share_of. destruct (Z.eqb_spec b 0) as [->|]; [lia|].
  pose proof (Z.mul_div_le b n Hn). destruct (Z.max_spec (b / n) 1) as [[? ->]|[? ->]]; split; nia.
Qed.

Lemma open_sockets_ok c plans calls i :
  open_sockets c plans calls i = Ok tt <-> forall k, i <= k < i + Z.of_nat (length plans) -> opens (calls k) = true.
Proof.
  revert i. induction plans as [|p plans IH]; intros i; cbn [open_sockets length].
  - split; [lia|done].
  - assert (E : snd (create_udp_stream_socket c p (calls i)) = opens (calls i)).
    { unfold create_udp_stream_socket, opens. by destruct (created (calls i)), (connects (calls i)). }
    rewrite E. destruct (opens (calls i)) eqn:Eo.
    + rewrite IH. split; intros H k Hk; [|apply H; lia]. destruct (Z.eq_dec k i) as [->|]; [done|apply H; lia].
    + split; [done|]. intros H. rewrite (H i) in Eo by lia. done.
Qed.

Lemma io_serves c feedback single_port o : serves c feedback (negb single_port)
    (let t := holding c (run_udp_stream_io c feedback single_port o) in
     if single_port then t else mkTask (OpenSocket :: start t) (threads t) (rest t)).
Proof.
  unfold run_udp_stream_io, holding, receive_acts, carried.
  split; destruct (direction c), feedback, single_port, (finish_on_budget c), o as [? ? ? ? [] [] []]; try reflexivity.
  all: repeat constructor; cbn; by rewrite ?bool_decide_true.
Qed.
Lemma own_port_serves c feedback o : opens o = true -> serves c feedback true (holding c (own_port_task c feedback o)).
Proof. intros Ho. unfold own_port_task. rewrite Ho. exact (io_serves c feedback false o). Qed.

(** *** The signal *)
Lemma io_signals c feedback single_port o : finish_on_budget c = true ->
  signals_all Udp is_send drops_sender (holding c (run_udp_stream_io c feedback single_port o)) = true.
Proof.
  intros Hf. unfold holding. rewrite Hf. unfold finish_on_budget in Hf. apply andb_true_iff in Hf as [_ Hd].
  apply negb_true_iff, bool_decide_eq_false in Hd. unfold run_udp_stream_io.
  destruct (direction c), feedback, single_port, o as [? ? ? ? [] [] []]; try done; reflexivity.
Qed.
Lemma signals_start p loop drops a t : loop a = false -> until_cancel p a = false -> drops a = false ->
  signals_all p loop drops (mkTask (a :: start t) (threads t) (rest t)) = signals_all p loop drops t.
Proof.
  intros Hl Hc Hd. assert (Hcons : forall q, signals p loop drops (a :: q) = signals p loop drops q)
    by (intros q; unfold signals; cbn [ordered freed]; by rewrite Hl, Hc).
  unfold signals_all, paths. cbn [start threads rest]. destruct (threads t) as [|th ths].
  - cbn. by rewrite Hcons.
  - generalize (th :: ths). intros l. induction l as [|x l IH]; [done|]. cbn [map forallb]. cbn [app] in *. by rewrite Hcons, IH.
Qed.
Lemma own_port_signals c feedback o : finish_on_budget c = true ->
  signals_all Udp is_send drops_sender (holding c (own_port_task c feedback o)) = true.
Proof.
  intros Hf. unfold own_port_task. destruct (opens o).
  - rewrite <- (io_signals c feedback false o Hf). apply (signals_start Udp is_send drops_sender OpenSocket (holding c (run_udp_stream_io c feedback false o))); done.
  - unfold holding. by rewrite Hf.
Qed.

(** A task without the sender never drops it. *)
Lemma unheld c t : finish_on_budget c = false -> ahead drops_sender (holding c t) = false.
Proof.
  intros Hf. unfold holding. rewrite Hf.
  assert (Hk : forall l, existsb drops_sender (List.filter (carried false false) l) = false).
  { induction l as [|a l IH]; [done|]. cbn. by destruct a. }
  apply not_true_iff_false. intros (q & Hq & Hd)%existsb_exists. apply list_elem_of_In, elem_of_paths in Hq. cbn in Hq.
  destruct Hq as [[_ ->]|(th & Hth & ->)]; rewrite ?existsb_app, ?Hk in Hd; [done|].
  apply list_elem_of_fmap in Hth as (l & -> & _). by rewrite Hk in Hd.
Qed.

(** *** What [spawn_udp] returns *)
Section spawned.
Context (c : ClientConfig) (data_ports : list Z) (server_addr : SocketAddr) (token : option (list Z)) (feedback : bool)
  (calls : Z -> udp_outcome) (first_failed : option Z).
Hypothesis some_streams : 0 < streams c.
Let own_port := match token with Some _ => false | None => true end.
Let r := spawn_udp c data_ports server_addr token feedback calls first_failed.

Lemma spawn_udp_starts :
  is_ok r = true <->
  is_ok (sequential_bind_base (bind_addr c) (sequential_ports c) (streams c)) = true /\
  match token with
  | Some _ => (forall i, 0 <= i < streams c -> opens (calls i) = true) /\ first_failed = None
  | None => len data_ports = streams c
  end.
Proof.
  unfold r, spawn_udp. destruct (sequential_bind_base _ _ _) as [base|e]; cbn [map_err rbind]; [|naive_solver].
  destruct token as [tk|]; cbn [negb andb].
  - set (plans := map _ (seqZ 0 (streams c))). pose proof (open_sockets_ok c plans calls 0) as Ho.
    assert (Hl : Z.of_nat (length plans) = streams c) by (unfold plans; rewrite length_map, length_seqZ; lia).
    rewrite Hl, Z.add_0_l in Ho. destruct (open_sockets c plans calls 0) as [[]|e]; cbn [rbind].
    + destruct first_failed; naive_solver.
    + split; [done|]. intros (_ & H & _). by apply Ho in H.
  - destruct (Z.eqb_spec (len data_ports) (streams c)); cbn [negb]; naive_solver.
Qed.

Definition task_for (o : udp_outcome) : stream_task :=
  holding c ((if own_port then own_port_task c feedback else run_udp_stream_io c feedback true) o).
Lemma spawn_udp_tasks tasks : r = Ok tasks ->
  Z.of_nat (length tasks) = streams c /\
  forall i t, tasks !! i = Some t ->
    sa_port (remote (us_plan t)) = (if own_port then nth i data_ports 0 else port c) /\
    (own_port = false -> opens (calls (Z.of_nat i)) = true) /\
    us_task t = task_for (calls (Z.of_nat i)).
Proof.
  intros Hr. assert (Hok : is_ok r = true) by by rewrite Hr. apply spawn_udp_starts in Hok as [Hbase Hok].
  unfold r, spawn_udp in Hr. destruct (sequential_bind_base _ _ _) as [base|e]; [|done]. cbn [map_err rbind] in Hr.
  assert (Hport : forall p i sp, sa_port (remote (plan_stream c base server_addr p sp i)) = p)
    by (intros p i sp; unfold plan_stream; cbn; by destruct server_addr).
  unfold task_for, own_port. destruct token as [tk|]; cbn [negb andb] in Hr.
  - apply rbind_ok in Hr as (_ & _ & Hr). destruct first_failed; [done|]. injection Hr as <-.
    unfold udp_streams. rewrite length_imap, length_map, length_seqZ. split; [lia|]. intros i t Ht.
    rewrite list_lookup_imap, list_lookup_fmap in Ht. destruct (seqZ _ _ !! i) as [k|] eqn:Ek; [|done]. injection Ht as <-.
    apply lookup_seqZ in Ek as [-> Hi]. cbn [us_plan us_task]. split_and!; [apply Hport|intros _; apply Hok; lia|done].
  - destruct (Z.eqb_spec (len data_ports) (streams c)); [|done]. injection Hr as <-.
    unfold udp_streams. rewrite !length_imap. split; [done|]. intros i t Ht. rewrite !list_lookup_imap in Ht.
    destruct (data_ports !! i) as [q|] eqn:Eq; [|done]. injection Ht as <-. cbn [us_plan us_task]. rewrite Hport, nth_lookup, Eq. done.
Qed.
Lemma task_for_serves o : (own_port = false -> opens o = true) ->
  if opens o then serves c feedback own_port (task_for o)
  else task_for o = holding c (alone [OpenSocket; LogFailure; DropSendingDone]).
Proof.
  intros Ho. unfold task_for. destruct own_port.
  - destruct (opens o) eqn:E; [by apply own_port_serves|]. unfold own_port_task. by rewrite E.
  - rewrite Ho by done. exact (io_serves c feedback true o).
Qed.
Lemma task_for_signals o : finish_on_budget c = true -> signals_all Udp is_send drops_sender (task_for o) = true.
Proof. intros Hf. unfold task_for. destruct own_port; [by apply own_port_signals|by apply io_signals]. Qed.
End spawned.

(** C28. The UDP streams of a test.  With the token of a shared port either every
    socket is connected and every handshake acknowledged or no task starts;
    without it there is one port per stream or no task starts, every task opens
    its own socket, and one that cannot logs it and ends without doing anything
    else, whatever becomes of the others.  A stream that has its socket goes to
    its port and does what its direction asks for and nothing else, at a share
    of the bitrate: together the streams stay within it unless it is below one
    bit per second for each.  Where the client's sending ends the test, then
    whatever turns the tasks take: "sending done" closes only when no send loop
    still runs, and it does close without the test being cancelled, though the
    receivers run on; otherwise no task holds it.  Every turn brings the end
    nearer. *)
Theorem spawn_udp_sound (c : ClientConfig) (data_ports : list Z) (server_addr : SocketAddr) (token : option (list Z))
    (feedback : bool) (calls : Z -> udp_outcome) (first_failed : option Z) :
  0 < streams c -> (match bitrate c with Some b => 0 <= b | None => True end) ->
  let own_port := match token with Some _ => false | None => true end in
  let r := spawn_udp c data_ports server_addr token feedback calls first_failed in
  (is_ok r = true <->
   is_ok (sequential_bind_base (bind_addr c) (sequential_ports c) (streams c)) = true /\
   match token with
   | Some _ => (forall i, 0 <= i < streams c -> opens (calls i) = true) /\ first_failed = None
   | None => len data_ports = streams c
   end) /\
  forall tasks, r = Ok tasks ->
    Z.of_nat (length tasks) = streams c /\
    (forall i t, tasks !! i = Some t ->
       sa_port (remote (us_plan t)) = (if own_port then nth i data_ports 0 else port c) /\
       if opens (calls (Z.of_nat i)) then serves c feedback own_port (us_task t)
       else us_task t = holding c (alone [OpenSocket; LogFailure; DropSendingDone])) /\
    streams c * udp_stream_bitrate c <= Z.max (match bitrate c with Some b => b | None => 1000000000 end) (streams c) /\
    (if finish_on_budget c then
       forall es, let s := run_turns Udp es (begin_run false (map us_task tasks)) in
       (is_open drops_sender s = false -> unfinished is_send s = false) /\
       (settled Udp s -> is_open drops_sender s = false)
     else Forall (fun t => ahead drops_sender (us_task t) = false) tasks) /\
    forall s e, take_turn Udp e s = s \/ (work (take_turn Udp e s) < work s)%nat.
Proof.
  intros Hs Hb own_port r. split; [by apply spawn_udp_starts|]. intros tasks Hr.
  destruct (spawn_udp_tasks _ _ _ _ _ _ _ Hs tasks Hr) as [Hl Ht]. split_and!; [done|..|intros s e; apply turn_work].
  - intros i t Hi. destruct (Ht i t Hi) as (Hp & Ho & ->). split; [done|]. by apply task_for_serves.
  - apply share_bounds; [by destruct (bitrate c)|done].
  - assert (Hall : Forall (fun t => exists o, us_task t = task_for c token feedback o) tasks).
    { apply Forall_forall. intros t [i Hi]%list_elem_of_lookup. destruct (Ht i t Hi) as (_ & _ & E). eauto. }
    destruct (finish_on_budget c) eqn:Hf.
    + intros es s. assert (Hsig : everywhere (fun t => signals_all Udp is_send drops_sender t = true) s).
      { apply run_has; [intros; by eapply shrinks_signals|]. apply Forall_map. eapply Forall_impl; [exact Hall|].
        intros t [o ->]. by apply task_for_signals. }
      split; [|by apply (settled_closed Udp is_send)].
      intros Ho. apply not_true_iff_false. intros Hu. by rewrite (unfinished_open Udp _ _ s Hsig Hu) in Ho.
    + eapply Forall_impl; [exact Hall|]. intros t [o ->]. by apply unheld.
Qed.

(** ** Witnesses *)
Definition demo_udp (d : Direction) : ClientConfig :=
  mkClientConfig (txt "h") 5201 Udp 2 10000000000 d (Some 1000) None false None None None DualStack None false false true Auto
    (Some 8) false None (Some 1000).
Definition good_udp : udp_outcome := mkUdpOutcome true true true true true false false.
(** The second socket cannot be opened; both streams have signalled while the
    first still receives. *)
Definition demo_calls (i : Z) : udp_outcome := if i =? 0 then good_udp else mkUdpOutcome false true true true true false false.
Definition demo_turns : list turn := [DropOwn; Main 0; Main 1; Thread 0 0; Main 1; Main 1; Thread 0 0].
Lemma spawn_udp_sound_witness :
  exists tasks, spawn_udp (demo_udp Bidir) [4000; 4001] (SaV4 1 5201) None false demo_calls None = Ok tasks /\
    Z.of_nat (length tasks) = 2 /\
    let s := run_turns Udp demo_turns (begin_run false (map us_task tasks)) in
    is_open drops_sender s = false /\ existsb (ahead receives_data) (live s) = true /\ unfinished is_send s = false.
Proof.
  destruct (spawn_udp_sound (demo_udp Bidir) [4000; 4001] (SaV4 1 5201) None false demo_calls None eq_refl ltac:(done)) as [_ Htasks].
  eexists. split; [reflexivity|]. destruct (Htasks _ eq_refl) as (Hl & _ & _ & Hs & _). split; [exact Hl|].
  cbn zeta. split; [reflexivity|]. split; [reflexivity|]. apply (proj1 (Hs demo_turns)). reflexivity.
Defined.
Lemma udp_stream_examples :
  udp_stream_bitrate (demo_udp Upload) = 500 /\ udp_packet_size (demo_udp Upload) = UDP_PAYLOAD_SIZE /\
  download_hellos [false; false; true; false] = 2%nat /\ download_hellos (repeat false 70) = 50%nat /\
  create_udp_stream_socket (demo_udp Upload) (mkPlan (SaV4 1 4000) None None) (mkUdpOutcome true true false true true false false)
  = ([CreateForRemote (SaV4 1 4000); ConnectSocket (SaV4 1 4000); SetUdpTos 8; Warn], true).
Proof. by vm_compute. Qed.
